(* ===== verification/_CoqProject ===== *)
-Q . S2P
Prelude.v
Collections.v
Rust.v
Properties.v
Jvm.v
JavaRandom.v
Placer.v
PlacerFacts.v
Json.v
TopicPartition.v
KafkaErrors.v
Output.v
Program.v
Connection.v
Admin.v
Cluster.v
ReassignFiles.v
ReassignPlan.v
Reassign.v
Reset.v
Patterns.v
GetOffsets.v
GroupTables.v
Interleave.v
ConsumerGroups.v
TopicConfigs.v
TopicDescribe.v
Topics.v
DeleteRecords.v
LeaderElection.v
LogDirs.v
Transactions.v
FanOut.v
Permissions.v
Sessions.v
Acls.v
DelegationTokens.v
Floats.v
ConfigsParse.v
Configs.v
Redaction.v
FeatureCatalog.v
Features.v
Storage.v
MetadataQuorum.v
Console.v
LineReader.v
ConsoleFormatter.v
ConsoleRoundTrip.v
ConsoleProducer.v
ConsoleConsumer.v
AdminDto.v
AdminConfig.v
AdminViews.v
AdminServer.v
AdminSafety.v
External.v
Gres.v
