(* ===== verification/Prelude.v ===== *)
(** * krabka-cli: a verification library for the Kafka operator tools

    [krabka] is a command line that replaces the JVM tools of Apache Kafka: it
    must print what they print, in their order, and change a cluster exactly as
    they do, with a dry run and a confirmation of its own. This library models
    that program and the guards of its web counterpart, and proves what makes
    them right. Paths below are under [src/crates/].

    ** The program and its model

    - Rust itself. [Prelude] (this file) has [result] for [Result], [outcome] for
      a computation that may panic or, where a loop has no structural bound, run
      out of fuel ([Timeout]), and [total]: enough fuel gives a result, from some
      amount on. [Collections] has [BTreeMap] and [BTreeSet] as sorted lists, with
      the order as a class [Ord], and the sorts. [Rust] has fixed-width integers
      with wrap-around, strings as their UTF-8 bytes, and decimal text.
    - [Jvm]: [krabka-cli/src/jvm.rs], the JDK's hashes and the iteration order of
      its [HashMap], by simulating each insertion, resize and treeification.
    - [JavaRandom], [Placer], [PlacerFacts]: [replica_placer.rs], that is
      [java.util.Random], [Collections.shuffle] and Kafka's
      [StripedReplicaPlacer] with its racks and epochs.
    - [Json], [TopicPartition], [KafkaErrors], [Output]: [kafka_json.rs],
      [topic_partition.rs], [compat.rs] with its table of error codes,
      [common.rs], [kafka_errors.rs], [exit.rs], [safety.rs], [output.rs] and the
      driver of [lib.rs].
    - [Program], [Admin]: how a command runs. A command is a tree ([prog]) of
      calls on the world: requests to the admin client, files, the prompt, the
      clock. A world answers each call from its own state; nothing is assumed of
      it, so what is proved holds for every cluster and every timing. A [Monitor]
      is an automaton that watches the calls; [run_monitored] carries what it
      accepts to every run. [dry_run_contract], [confirm_contract] and
      [read_only_contract] are the interface between the commands and these
      guards.
    - [Properties], [Connection]: [connection.rs]. The reader of Java properties
      and of JAAS entries, the mapping of a client configuration to TLS, SASL and
      timeouts, and the steps of a connection.
    - [Cluster], [ReassignFiles], [ReassignPlan], [Reassign], [DeleteRecords],
      [LeaderElection]: the commands of [cluster.rs], [reassign_partitions.rs]
      with [files.rs] and [plan.rs], [delete_records.rs] and [leader_election.rs],
      from their option checks to their reports.
    - [Reset]: [consumer_groups/reset.rs], the planner of [--reset-offsets], over
      the interface [OffsetLookup] and a monad of fallible steps, and its readers
      of dates and durations.
    - [Patterns], [GetOffsets]: [get_offsets.rs], with the instance of
      [OffsetLookup] that asks a cluster.
    - [GroupTables], [ConsumerGroups]: [consumer_groups/render.rs] and
      [consumer_groups.rs]: list, describe, delete, delete-offsets and
      reset-offsets, the last with the planner of [Reset] on a cluster.
    - [TopicConfigs], [TopicDescribe], [Topics]: [topics/config.rs],
      [topics/describe.rs] with [topics/java.rs], and [topics/mod.rs]: the readers
      of topic configs and replica assignments, the report of one topic, and
      list, create, alter, delete and describe on a cluster.
    - [LogDirs]: [log_dirs.rs], the JSON document of [--describe], put together by
      hand, and the moves of [--alter].
    - [Transactions]: [transactions.rs]: list, describe, describe-producers, abort,
      find-hanging and forceTerminateTransaction.
    - [Acls]: [acls.rs], the checks and the expansion of the flags, and list, add
      and remove on a cluster.
    - [DelegationTokens]: [delegation_tokens.rs], with its base64 and its dates.
    - [Floats], [ConfigsParse], [Configs], [Redaction]: [configs.rs] with
      [configs/java.rs], [configs/parse.rs] and [configs/render.rs]. [Floats] is
      binary64 as the standard library reads and prints it, with Java's text of a
      double; [ConfigsParse] the readers of configs and the order of a Scala set;
      [Redaction] what the reports keep to themselves.
    - [FeatureCatalog], [Features]: [feature_catalog.rs] and [features.rs], the
      releases and their feature levels, and what an upgrade or a downgrade asks a
      cluster for.
    - [Storage]: [storage.rs], the inspection of log directories with the decoder of
      bootstrap records, and the plan of a format.
    - [MetadataQuorum]: [metadata_quorum.rs], the lags of a quorum, the readers of a
      controller's configuration, and the changes of its voters.
    - [Console], [LineReader], [ConsoleFormatter], [ConsoleRoundTrip],
      [ConsoleProducer], [ConsoleConsumer]: [console.rs], [console_producer.rs] with
      [reader.rs], and [console_consumer.rs] with [formatter.rs]: how a line becomes a
      record and a record a line, the settings of both clients, and the loops that
      send and print. Their clients and Ctrl-C are calls of worlds of their own.
    - [Interleave]: [fan_out.rs] over commands. The brokers that [transactions list]
      asks, and the groups that [consumer-groups --describe] reads, go on in any
      order of their requests, which a schedule gives.
    - [FanOut]: [fan_out.rs], a loop that keeps a bounded number of requests in
      flight, as a machine that wakes of the task drive, in any order.
    - [Gres]: [gres.rs], the tenants of Gres: creating, suspending and deleting one,
      range layouts with their splits and moves, balances and the files of PgDog.
    - [External]: [external.rs], how a subcommand that is not built in is looked up on
      [PATH] and supervised.
    - [Permissions], [Sessions]: [admin-ui/src/permissions.rs] and [session.rs],
      the capabilities of an operator and the session store at the granularity
      of its lock.
    - [AdminDto], [AdminConfig], [AdminViews], [AdminServer], [AdminSafety]: the rest
      of [admin-ui/src/]: the requests with their checks, the errors and the rows
      ([dto.rs], [error.rs], [admin.rs]); the settings of an instance ([config.rs],
      [main.rs]); the pages and their forms as trees of elements ([views/]); and every
      handler of the router as a program over the calls on the session store, the
      body of the request and the brokers ([auth.rs], [server_fns.rs], [server.rs]).

    ** What the theorems show

    - Guards. A dry run changes nothing and says so; without [--yes] nothing
      changes before the operator accepted a prompt ([reassign_dry_run],
      [reassign_confirmation], [cluster_run_contracts], [consumer_groups_guards],
      [topics_guards], [confirm_with_spec]);
      [delete_records_authorised] and [leader_election_requested] bound the one
      request of their command by the file and flags it came from;
      [reassign_fail_stop] shows that no partition moves after a throttle was
      refused; [reset_writes] that offsets are written only under [--execute],
      only for groups that are not active, for each partition of the command line's
      scope, and by the rule of its scenario over the offsets looked up just before;
      [topics_requests] that topics are created, grown and deleted only as the
      options and the listing say; [transactions_end] and [log_dirs_moves] that
      transactions are ended and replicas moved once, as the prompt said;
      [acls_requests], [tokens_requests] and [configs_requests] which ACLs, tokens
      and configs are changed, of which entity, at whose request and after which answers;
      [features_requests] and [quorum_requests] the same of feature levels and of
      controllers; [gres_requests] of tenants, in which order they are provisioned and
      published, and of their ranges.
    - Web guards. [mutations_by_signed_in_operators]: whatever other requests do in
      between, a cluster is changed only for the cookie and the CSRF token of a session
      that an operator signed in to, within the capabilities of that sign-in, with the
      operator's own credentials, and as the body says. [pages_authorised] is the
      counterpart of the pages, which only read, and remove no session but one that they
      have just found expired; [login_outcomes] says when a session
      comes to be and what a failed login answers; [forms_fit_handlers] that the forms
      of the pages are those that the handlers accept; [config_from_env_ok] what a
      configuration guarantees.
    - Streams. A producer that succeeds has read its input to the end, and sent and seen
      acknowledged every line ([produce_success]); a consumer handles what it polls once and in order, and
      leaves what it did not handle to the next run ([consume_handles]); without a
      group it commits nothing ([commits_only_when_asked]). What one prints the other
      reads back ([console_round_trip]), and both return
      ([console_producer_returns], [console_consumer_returns]). [settings_valid],
      [has_port_spec] and [default_format_spec] say which settings and addresses are
      accepted and what is printed of a record.
    - Plugins. [resolve_first] says which file a plugin is; [plugins_supervised] that it
      alone is started, that a SIGTERM is forwarded to it, and whose exit code is
      returned.
    - Secrets. [sensitive_values_withheld]: no value that a broker marks as
      sensitive has an effect on what [configs] prints or asks for.
    - Plans. Placements have distinct brokers, an unfenced one first, and the
      placer ends for every seed ([place_correct], [propose_correct],
      [lcg_next_int_total]); moves, throttles and log dirs are those of the file
      ([move_map_proposed_spec], [throttles_new_spec], [log_dir_moves_spec]); a
      range layout has each key in one range ([layout_covers]); a
      reset plan covers its partitions once, within their logs
      ([plan_partitions], [clamped_spec]); the flags of [acls] stand for exactly
      the entries of [acl_plan_spec]; a release stands for the levels that
      [version-mapping] prints ([release_is_its_mapping]). [plan_refines] carries what is proved
      of plans on tables to plans on a cluster.
    - Connections. [security_spec] says which settings a configuration yields and
      that none is ignored in silence; [connect_spec] which client is opened.
    - Reports. [get_offsets_spec] and [offset_rows_spec] tie the printed offsets
      to the requests and the answers; [describe_topic_lines] which partitions a
      topic's report prints under its selectors; [describe_result_spec] which
      brokers the document of log dirs holds; [status_max_lag] the lag that a quorum
      reports; [info_healthy] which directories [storage info] finds in order; [hanging_spec] which transactions
      are reported as hanging.
    - Texts. Files round trip or are accepted exactly in Kafka's format
      ([reassignment_round_trip], [export_round_trip], [properties_round_trip],
      [jaas_round_trip], [replica_assignment_round_trip],
      [parse_offset_json_Ok], [base64_round_trip], [add_config_reads],
      [decode_records_spec], [listener_round_trip]); an accepted topic config has the type of its key
      ([parse_topic_configs_typed]); dates are read as the
      instants they name ([parse_datetime_reads], [days_from_civil_spec], [civil_from_days_spec]); the
      JSON documents agree with the exit code ([json_documents_agree_with_exit]).
    - Order. The simulated [HashMap] order is the stable order by bin in the
      final table ([hash_order_is_order_in_table]); that of a Scala set has each
      item once ([scala_set_order_spec]).
    - Concurrency. [list_conversations]: under every schedule the table of
      [transactions list] is that of one conversation per broker. [bounded_in_flight] and [bounded_returns] for every schedule of
      the fan-out; [session_store_spec] for every interleaving of the session
      store.
    - Defects. [rack_list_place_mixed_factors_diverges], [parse_datetime_panics],
      [parse_duration_overflows], [escape_divergences], [export_not_read_back],
      [ip_quota_without_a_name] and [refused_access_published]
      are behaviours that the code does not intend.

    ** Fuel

    The supervision of a plugin ends with the plugin: its fuel bounds the signals before
    ([plugins_supervised]). The loops of the console tools end with their input: their theorems ask for more
    fuel than the reads, or the polls and records, that the world still has. Four
    other loops have no structural bound: the rejection loop of
    [Random.nextInt], the search for a replica, the polling loop of
    [execute_moves], and the one of [list_on_broker]. The first two of these are proved [total]: the generator has full
    period over 48 bits, and a search visits each rack once per turn. The others
    end when the clock passes the deadline; their theorems ask for more fuel than
    the turns the clock leaves ([execute_moves_correct], [ask_transactions_ends]). The capacity of a [HashMap] doubles at most 30
    times.

    ** What is a parameter

    The admin client, the terminal, the file system and the clock are calls of
    the world. [serde_json] is the class [SerdeJson], the [regex] crate
    [RegexCrate], the credentials that the client libraries build [KrabkaClient],
    their text of a topic id [KrabkaIds], of a principal [KrabkaSecurity] and of a
    config [KrabkaConfigs]; the tables of features and releases are
    [KrabkaMetadata] with [KrabkaFeatureUpdates], the text of a quorum
    [KrabkaQuorum], the record codec [KrabkaRecords] and the formatter
    [KrabkaFormat]; the matches of a regular expression are [RegexFind], and what the
    producer and the consumer read of their properties [KrabkaProducer] and
    [KrabkaConsumer]. Of the admin UI, quantities are [KrabkaUnits], the text of a
    UUID [UuidCrate], the decoders of bodies [Serde], the text of an element [Dioxus],
    the printable characters [UnicodeTables] and the names of the parts of an ACL
    [KrabkaAclNames]. Of the crates of Gres, [GresUnits], [GresControl], [GresPolicy] and
    [GresBalancer] name what the code calls; [Instant::checked_add] and the UUIDs of sessions are arguments. Arithmetic that can overflow takes the build's
    overflow checks as an argument.

    ** What is not modelled

    The option parser (clap) before a command's own checks, with the dispatch to the
    commands and the set-up of the logs around it; of the admin UI, the listener and the matching of a request with a
    route, which are axum's. *)

From stdpp Require Export base list strings numbers pretty sorting sets gmap.
From Stdlib Require Export ZArith Lia.

#[export] Set Warnings "-clear-no-such-hyp".
#[global] Open Scope Z_scope.

(** ** Results and outcomes *)

(** Rust's [Result<A, E>], with the error type first so that [result E] is a
    monad: [?] is the bind of stdpp's [x ← e; k]. *)
Inductive result (E A : Type) : Type :=
  | Ok (a : A)
  | Err (e : E).
Arguments Ok {E A} a.
Arguments Err {E A} e.

#[export] Instance result_ret {E} : MRet (result E) := λ A a, Ok a.
#[export] Instance result_bind {E} : MBind (result E) := λ A B f m,
  match m with Ok a => f a | Err e => Err e end.
#[export] Instance result_fmap {E} : FMap (result E) := λ A B f m,
  match m with Ok a => Ok (f a) | Err e => Err e end.

(** [Option::ok_or_else]. *)
Definition ok_or {E A} (o : option A) (e : E) : result E A :=
  match o with Some a => Ok a | None => Err e end.

(** [Result::ok]. *)
Definition result_ok {E A} (r : result E A) : option A :=
  match r with Ok a => Some a | Err _ => None end.

(** [Result::map_err]. *)
Definition map_err {E F A} (f : E → F) (r : result E A) : result F A :=
  match r with Ok a => Ok a | Err e => Err (f e) end.

(** [iter.map(f).collect::<Result<Vec<_>, _>>()]: the first error wins. *)
Fixpoint try_map {E A B} (f : A → result E B) (l : list A) : result E (list B) :=
  match l with
  | [] => Ok []
  | x :: l => y ← f x; ys ← try_map f l; Ok (y :: ys)
  end.

(** [Result::is_ok]. *)
Definition is_ok {E A} (r : result E A) : bool :=
  match r with Ok _ => true | Err _ => false end.

(** [Option::is_some]. *)
Definition is_some {A} (o : option A) : bool :=
  match o with Some _ => true | None => false end.

(** What a computation with an unbounded loop or a panicking operation ends
    in: a value, a panic (an index out of range, an empty modulus), or no
    answer within the given fuel. *)
Inductive outcome (A : Type) : Type :=
  | Done (a : A)
  | Panic
  | Timeout.
Arguments Done {A} a.
Arguments Panic {A}.
Arguments Timeout {A}.

#[export] Instance outcome_ret : MRet outcome := λ A a, Done a.
#[export] Instance outcome_bind : MBind outcome := λ A B f m,
  match m with Done a => f a | Panic => Panic | Timeout => Timeout end.

(** An operation that panics where the option is empty: indexing, [unwrap]. *)
Definition or_panic {A} (o : option A) : outcome A :=
  match o with Some a => Done a | None => Panic end.

(** ** Tactics *)

(** Case analysis on the scrutinee of the first bind of a hypothesis. *)
Ltac bind_case H :=
  match type of H with
  | mbind _ ?m = _ => let E := fresh "E" in destruct m eqn:E; simpl in H
  end.

(** Splits every successful bind of [H], keeping the equation of each step. *)
Ltac binds H :=
  repeat (bind_case H; try discriminate H).

(** Boolean tests to propositions. *)
Ltac bool_to_prop :=
  repeat match goal with
  | H : _ && _ = true |- _ => apply andb_true_iff in H; destruct H
  | H : _ || _ = false |- _ => apply orb_false_iff in H; destruct H
  | H : negb _ = true |- _ => apply negb_true_iff in H
  | H : negb _ = false |- _ => apply negb_false_iff in H
  | H : (_ <? _) = true |- _ => apply Z.ltb_lt in H
  | H : (_ <? _) = false |- _ => apply Z.ltb_ge in H
  | H : (_ <=? _) = true |- _ => apply Z.leb_le in H
  | H : (_ <=? _) = false |- _ => apply Z.leb_gt in H
  | H : (_ =? _) = true |- _ => apply Z.eqb_eq in H
  | H : (_ =? _) = false |- _ => apply Z.eqb_neq in H
  | H : bool_decide _ = true |- _ => apply bool_decide_eq_true in H
  | H : bool_decide _ = false |- _ => apply bool_decide_eq_false in H
  end.

Create HintDb krabka.

(** ** Results: generic lemmas *)

Lemma try_map_Ok {E A B} (f : A → result E B) l ys :
  try_map f l = Ok ys ↔ Forall2 (λ x y, f x = Ok y) l ys.
Proof.
  split.
  - revert ys. induction l as [|x l IH]; intros ys H; simpl in H.
    + simplify_eq. constructor.
    + binds H. simplify_eq. constructor; auto.
  - induction 1 as [|x y l ys Hxy _ IH]; simpl; [done|]. by rewrite Hxy, IH.
Qed.

Lemma try_map_Err {E A B} (f : A → result E B) l e :
  try_map f l = Err e ↔
  ∃ pre x post, l = pre ++ x :: post ∧ Forall (λ y, is_ok (f y) = true) pre ∧ f x = Err e.
Proof.
  split.
  - induction l as [|x l IH]; simpl; intros H; [done|].
    destruct (f x) as [y|e'] eqn:Hx; simpl in H.
    + destruct (try_map f l) as [|e'']; simplify_eq/=.
      destruct IH as (pre & z & post & -> & Hpre & Hz); [done|].
      exists (x :: pre), z, post. split; [done|]. split; [|done].
      constructor; [by rewrite Hx|done].
    + simplify_eq. exists [], x, l. auto.
  - intros (pre & x & post & -> & Hpre & Hx).
    induction Hpre as [|y pre Hy _ IH]; simpl; [by rewrite Hx|].
    destruct (f y); [|done]. simpl. by rewrite IH.
Qed.

Lemma try_map_ext {E A B} (f g : A → result E B) l :
  (∀ x, x ∈ l → f x = g x) → try_map f l = try_map g l.
Proof.
  induction l as [|x l IH]; intros H; simpl; [done|].
  rewrite (H x) by set_solver. rewrite IH by set_solver. done.
Qed.

Lemma try_map_pure {E A B} (f : A → result E B) (g : A → B) l :
  (∀ x, x ∈ l → f x = Ok (g x)) → try_map f l = Ok (g <$> l).
Proof.
  induction l as [|x l IH]; intros H; simpl; [done|].
  rewrite (H x) by set_solver. simpl. rewrite IH by set_solver. done.
Qed.

(** ** Lists: generic lemmas *)

Lemma NoDup_fst_functional {A B} (l : list (A * B)) a b1 b2 :
  NoDup l.*1 → (a, b1) ∈ l → (a, b2) ∈ l → b1 = b2.
Proof.
  induction l as [|[a' b'] l IH]; simpl; [set_solver|].
  intros [Hnin Hnd]%NoDup_cons. rewrite !elem_of_cons.
  intros [[= -> ->]|H1] [[= E2]|H2]; subst; auto.
  - destruct Hnin. apply list_elem_of_fmap. by exists (a', b2).
  - destruct Hnin. apply list_elem_of_fmap. by exists (a', b1).
Qed.

Lemma filter_none {A} (P : A → Prop) `{∀ x, Decision (P x)} (l : list A) :
  (∀ x, x ∈ l → ¬ P x) → filter P l = [].
Proof.
  induction l as [|x l IH]; intros Hl; [done|].
  rewrite filter_cons_False by (apply Hl; left). apply IH. intros y Hy. apply Hl. by right.
Qed.

Lemma omap_ext_in {A B} (f g : A → option B) (l : list A) :
  (∀ x, x ∈ l → f x = g x) → omap f l = omap g l.
Proof.
  induction l as [|x l IH]; intros Hl; simpl; [done|].
  rewrite (Hl x) by left.
  assert (omap f l = omap g l) as E by (apply IH; intros y Hy; apply Hl; by right).
  unfold omap in E. by rewrite E.
Qed.

(** ** Fuelled computations: a small logic of total correctness *)

(** [iter.map(f).collect()], where [f] may panic. *)
Fixpoint map_outcome {A B} (f : A → outcome B) (l : list A) : outcome (list B) :=
  match l with
  | [] => Done []
  | x :: l => y ← f x; ys ← map_outcome f l; Done (y :: ys)
  end.

Lemma map_outcome_total {A B} (f : A → outcome B) l :
  (∀ x, ∃ y, f x = Done y) → ∃ ys, map_outcome f l = Done ys.
Proof.
  intros Hf. induction l as [|x l [ys IH]]; [by eexists|]. simpl.
  destruct (Hf x) as [y ->]. simpl. rewrite IH. by eexists.
Qed.

Lemma map_outcome_inv {A B} (f : A → outcome B) l ys :
  map_outcome f l = Done ys → Forall2 (λ x y, f x = Done y) l ys.
Proof.
  revert ys. induction l as [|x l IH]; simpl; intros ys H; [by simplify_eq|].
  destruct (f x) as [y| |] eqn:E; try done. simpl in H.
  destruct (map_outcome f l) as [ys'| |]; try done. simpl in H. simplify_eq.
  constructor; [done|]. by apply IH.
Qed.

(** Runs [f] over the list, threading the state. *)
Fixpoint fold_outcome {S A} (f : S → A → outcome S) (l : list A) (s : S) : outcome S :=
  match l with
  | [] => Done s
  | x :: l => s ← f s x; fold_outcome f l s
  end.

(** [total c P]: with enough fuel, and from then on with any more, the
    computation [c] ends without a panic in one value, which satisfies [P]. *)
Definition total {A} (c : nat → outcome A) (P : A → Prop) : Prop :=
  ∃ a, P a ∧ ∃ enough, ∀ fuel, (enough ≤ fuel)%nat → c fuel = Done a.

Lemma total_ret {A} (a : A) (P : A → Prop) : P a → total (λ _, Done a) P.
Proof. intros Ha. exists a. split; [done|]. by exists 0%nat. Qed.

Lemma total_bind {A B} (c : nat → outcome A) (k : A → nat → outcome B) P Q :
  total c P → (∀ a, P a → total (k a) Q) → total (λ fuel, a ← c fuel; k a fuel) Q.
Proof.
  intros (a & Ha & n & Hn) Hk. destruct (Hk a Ha) as (b & Hb & m & Hm).
  exists b. split; [done|]. exists (n `max` m)%nat. intros fuel Hfuel.
  rewrite Hn by lia. simpl. apply Hm. lia.
Qed.

(** Applies [total_bind] to the first bind of the computation. *)
Ltac total_bind :=
  lazymatch goal with
  | |- total (fun fuel => mbind (@?k fuel) (@?c fuel)) ?Q =>
      eapply (total_bind c (fun x fuel => k fuel x) _ Q)
  end.

Lemma total_mono {A} (c : nat → outcome A) (P Q : A → Prop) :
  total c P → (∀ a, P a → Q a) → total c Q.
Proof. intros (a & Ha & Hn) HPQ. exists a. auto. Qed.

Lemma total_ext {A} (c d : nat → outcome A) P :
  (∀ fuel, c fuel = d fuel) → total c P → total d P.
Proof.
  intros Hcd (a & Ha & n & Hn). exists a. split; [done|]. exists n.
  intros fuel Hfuel. rewrite <-Hcd. auto.
Qed.

Lemma total_fold {S A} (f : nat → S → A → outcome S) (I : S → Prop) l s :
  (∀ s x, x ∈ l → I s → total (λ fuel, f fuel s x) I) → I s →
  total (λ fuel, fold_outcome (f fuel) l s) I.
Proof.
  revert s. induction l as [|x l IH]; intros s Hf Hs; simpl; [by apply total_ret|].
  apply (total_bind (λ fuel, f fuel s x) (λ s fuel, fold_outcome (f fuel) l s) I).
  - apply Hf; [left|done].
  - intros s' Hs'. apply IH; [|done]. intros s0 y Hy. apply Hf. by right.
Qed.

(** A loop that spends one unit of fuel on its first turn. *)
Lemma total_succ {A} (c d : nat → outcome A) P :
  (∀ fuel, c (S fuel) = d fuel) → total d P → total c P.
Proof.
  intros Hcd (a & Ha & n & Hn). exists a. split; [done|]. exists (S n).
  intros [|fuel] Hfuel; [lia|]. rewrite Hcd. apply Hn. lia.
Qed.

Lemma list_delete_insert_eq {A} (l : list A) i y : delete i (<[i := y]> l) = delete i l.
Proof.
  revert i. induction l as [|x l IH]; intros [|i]; simpl; [done..|].
  f_equal. apply IH.
Qed.

Lemma submseteq_NoDup {A} (l k : list A) : l ⊆+ k → NoDup k → NoDup l.
Proof. intros [k' Hk]%submseteq_Permutation. rewrite Hk. by intros [? _]%NoDup_app. Qed.

Lemma list_alter_lookup {A} (f : A → A) (l : list A) i x :
  l !! i = Some x → alter f i l = <[i := f x]> l.
Proof.
  revert i. induction l as [|y l IH]; intros [|i] Hi; simplify_eq/=; [done|].
  f_equal. by apply IH.
Qed.

(** Elements of a list with pairwise distinct images are told apart by them. *)
Lemma NoDup_map_inj {A B} (f : A → B) (l : list A) x y :
  NoDup (map f l) → x ∈ l → y ∈ l → f x = f y → x = y.
Proof.
  induction l as [|z l IH]; simpl; [set_solver|].
  intros [Hz Hnd]%NoDup_cons. rewrite !elem_of_cons.
  intros [->|Hx] [->|Hy] E; [done|destruct Hz..|auto].
  - rewrite E. apply list_elem_of_fmap. by exists y.
  - rewrite <-E. apply list_elem_of_fmap. by exists x.
Qed.

(** A filter that keeps the length keeps every element. *)
Lemma filter_full {A} (P : A → Prop) `{∀ x, Decision (P x)} (l : list A) :
  length (filter P l) = length l → ∀ x, x ∈ l → P x.
Proof.
  induction l as [|y l IH]; intros Hl x Hx; [set_solver|]. rewrite filter_cons in Hl.
  pose proof (length_filter P l). case_decide; simpl in Hl; [|lia].
  apply elem_of_cons in Hx as [->|Hx]; [done|]. apply IH; [lia|done].
Qed.

Lemma filter_not_full {A} (P : A → Prop) `{∀ x, Decision (P x)} (l : list A) :
  length (filter P l) ≠ length l → ∃ x, x ∈ l ∧ ¬ P x.
Proof.
  induction l as [|y l IH]; intros Hl; [done|]. rewrite filter_cons in Hl.
  destruct (decide (P y)); [|exists y; split; [left|done]].
  destruct IH as (x & Hx & Hp); [simpl in Hl; lia|]. exists x. split; [by right|done].
Qed.

Lemma filter_keep {A} (P : A → Prop) `{∀ x, Decision (P x)} (l : list A) :
  (∀ x, x ∈ l → P x) → filter P l = l.
Proof.
  induction l as [|x l IH]; intros Hl; [done|].
  rewrite filter_cons_True by (apply Hl; left). f_equal. apply IH. intros y Hy. apply Hl. by right.
Qed.

Lemma Forall2_elem_r {A B} (R : A → B → Prop) l k y :
  Forall2 R l k → y ∈ k → ∃ x, x ∈ l ∧ R x y.
Proof.
  intros H (i & Hi)%list_elem_of_lookup. destruct (Forall2_lookup_r _ _ _ _ _ H Hi) as (x & Hx & ?).
  exists x. split; [by eapply list_elem_of_lookup_2|done].
Qed.

Lemma elem_of_concat {A} (x : A) (ll : list (list A)) : x ∈ concat ll ↔ ∃ l, x ∈ l ∧ l ∈ ll.
Proof.
  rewrite list_elem_of_In, in_concat. setoid_rewrite <-list_elem_of_In. naive_solver.
Qed.

(** A check that passed, before the rest. *)
Lemma then_Ok {E A} (x : result E unit) (f : unit → result E A) a :
  (x ≫= f) = Ok a → x = Ok tt ∧ f tt = Ok a.
Proof. destruct x as [[]|]; [|done]. by intros. Qed.

Lemma try_map_total {E A B} (f : A → result E B) l :
  Forall (λ x, ∃ y, f x = Ok y) l → ∃ ys, try_map f l = Ok ys.
Proof.
  induction 1 as [|x l [y Hy] _ [ys IH]]; [by exists []|]. exists (y :: ys). cbn. by rewrite Hy, IH.
Qed.

(** What a successful map to lists holds, element by element. *)
Lemma try_map_concat_Ok {A B E} (f : A → result E (list B)) l ess (P : A → B → Prop) :
  try_map f l = Ok ess → (∀ a bs, f a = Ok bs → ∀ b, b ∈ bs ↔ P a b) →
  ∀ b, b ∈ concat ess ↔ ∃ a, a ∈ l ∧ P a b.
Proof.
  intros Ht%try_map_Ok Hf b. rewrite elem_of_concat. split.
  - intros (bs & Hb & Hbs). destruct (Forall2_elem_r _ _ _ _ Ht Hbs) as (a & Ha & E').
    exists a. split; [done|]. by apply (Hf a bs).
  - intros (a & Ha & HP). apply list_elem_of_lookup in Ha as [i Hi].
    destruct (Forall2_lookup_l _ _ _ _ _ Ht Hi) as (bs & Hbs & E').
    exists bs. split; [by apply (Hf a bs)|]. by eapply list_elem_of_lookup_2.
Qed.

