(* ===== verification/Collections.v ===== *)
(** The standard-library collections that the sources use: Rust's [Ord] as a
    class with its laws, the stable sorts of a slice, [BTreeMap] and
    [BTreeSet] as key-sorted lists, so that iteration order is part of the
    value and every lookup computes. *)

From S2P Require Import Prelude.

(** ** Total orders: Rust's [Ord] *)

Class Ord (K : Type) : Type := {
  cmp : K → K → comparison;
  cmp_eq x y : cmp x y = Eq ↔ x = y;
  cmp_opp x y : cmp y x = CompOpp (cmp x y);
  cmp_lt_trans x y z : cmp x y = Lt → cmp y z = Lt → cmp x z = Lt
}.

(** [std::cmp::Ordering::then_with]: the derived order of a struct. *)
Definition then_cmp (c d : comparison) : comparison :=
  match c with Eq => d | _ => c end.

Fixpoint string_cmp (s t : string) : comparison :=
  match s, t with
  | EmptyString, EmptyString => Eq
  | EmptyString, String _ _ => Lt
  | String _ _, EmptyString => Gt
  | String a s, String b t =>
      then_cmp (Ascii.N_of_ascii a ?= Ascii.N_of_ascii b)%N (string_cmp s t)
  end.

Definition option_cmp {K} (c : K → K → comparison) (x y : option K) : comparison :=
  match x, y with
  | None, None => Eq
  | None, Some _ => Lt
  | Some _, None => Gt
  | Some x, Some y => c x y
  end.

Definition pair_cmp {K L} (c : K → K → comparison) (d : L → L → comparison)
    (x y : K * L) : comparison := then_cmp (c x.1 y.1) (d x.2 y.2).

Section OrdFacts.
Context `{Ord K}.

Lemma cmp_refl (x : K) : cmp x x = Eq.
Proof. by apply cmp_eq. Qed.

Lemma cmp_gt_lt (x y : K) : cmp x y = Gt ↔ cmp y x = Lt.
Proof. rewrite (cmp_opp x y). by destruct (cmp x y). Qed.

Lemma cmp_lt_neq (x y : K) : cmp x y = Lt → x ≠ y.
Proof. intros Hlt ->. by rewrite cmp_refl in Hlt. Qed.
End OrdFacts.

#[export] Program Instance Z_ord : Ord Z := {| cmp := Z.compare |}.
Next Obligation. intros. apply Z.compare_eq_iff. Qed.
Next Obligation. intros. apply Z.compare_antisym. Qed.
Next Obligation. intros x y z. rewrite !Z.compare_lt_iff. lia. Qed.

#[export] Program Instance nat_ord : Ord nat := {| cmp := Nat.compare |}.
Next Obligation. intros. apply Nat.compare_eq_iff. Qed.
Next Obligation. intros. apply Nat.compare_antisym. Qed.
Next Obligation. intros x y z. rewrite !Nat.compare_lt_iff. lia. Qed.

#[export] Program Instance string_ord : Ord string := {| cmp := string_cmp |}.
Next Obligation.
  induction x as [|a x IH]; intros [|b y]; simpl; try done.
  unfold then_cmp.
  destruct (N.compare_spec (Ascii.N_of_ascii a) (Ascii.N_of_ascii b)) as [E|E|E].
  - assert (a = b) as -> by
      (by rewrite <-(Ascii.ascii_N_embedding a), E, Ascii.ascii_N_embedding).
    rewrite IH. naive_solver.
  - split; [done|]. intros [= -> ->]. lia.
  - split; [done|]. intros [= -> ->]. lia.
Qed.
Next Obligation.
  induction x as [|a x IH]; intros [|b y]; simpl; try done.
  rewrite (N.compare_antisym (Ascii.N_of_ascii a)), IH.
  by destruct (Ascii.N_of_ascii a ?= Ascii.N_of_ascii b)%N.
Qed.
Next Obligation.
  induction x as [|a x IH]; intros [|b y] [|c z]; simpl; try done.
  unfold then_cmp.
  destruct (N.compare_spec (Ascii.N_of_ascii a) (Ascii.N_of_ascii b)),
    (N.compare_spec (Ascii.N_of_ascii b) (Ascii.N_of_ascii c)),
    (N.compare_spec (Ascii.N_of_ascii a) (Ascii.N_of_ascii c));
    try done; try lia. apply IH.
Qed.

#[export] Program Instance option_ord `{Ord K} : Ord (option K) :=
  {| cmp := option_cmp cmp |}.
Next Obligation. intros K ? [x|] [y|]; simpl; rewrite ?cmp_eq; naive_solver. Qed.
Next Obligation. intros K ? [x|] [y|]; simpl; auto using cmp_opp. Qed.
Next Obligation. intros K ? [x|] [y|] [z|]; simpl; try done. apply cmp_lt_trans. Qed.

#[export] Program Instance pair_ord `{Ord K, Ord L} : Ord (K * L) :=
  {| cmp := pair_cmp cmp cmp |}.
Next Obligation.
  intros K ? L ? [x1 x2] [y1 y2]; unfold pair_cmp; simpl.
  destruct (cmp x1 y1) eqn:E; simpl.
  - apply cmp_eq in E as ->. rewrite cmp_eq. naive_solver.
  - split; [done|]. intros [= -> ->]. by rewrite cmp_refl in E.
  - split; [done|]. intros [= -> ->]. by rewrite cmp_refl in E.
Qed.
Next Obligation.
  intros K ? L ? [x1 x2] [y1 y2]; unfold pair_cmp; simpl.
  rewrite (cmp_opp x1 y1), (cmp_opp x2 y2). by destruct (cmp x1 y1).
Qed.
Next Obligation.
  intros K ? L ? [x1 x2] [y1 y2] [z1 z2]; unfold pair_cmp, then_cmp; simpl.
  destruct (cmp x1 y1) eqn:E1; [|intros _|done].
  - apply cmp_eq in E1 as ->. destruct (cmp y1 z1); [apply cmp_lt_trans|done..].
  - destruct (cmp y1 z1) eqn:E2; [|intros _|done].
    + apply cmp_eq in E2 as ->. by rewrite E1.
    + by rewrite (cmp_lt_trans _ _ _ E1 E2).
Qed.

(** An order through an injection: the derived order of a struct is the order
    of its tuple of fields. *)
Program Definition ord_via {A B} `{Ord B} (f : A → B) (g : B → A)
    (Hgf : ∀ a, g (f a) = a) : Ord A := {| cmp x y := cmp (f x) (f y) |}.
Next Obligation.
  intros A B ? f g Hgf x y; simpl. rewrite cmp_eq. split; [|by intros ->].
  intros E. by rewrite <-(Hgf x), E, Hgf.
Qed.
Next Obligation. intros; simpl. apply cmp_opp. Qed.
Next Obligation. intros A B ? f g Hgf x y z; simpl. apply cmp_lt_trans. Qed.

(** ** [BTreeMap] *)

(** A map is the list of its entries in increasing key order. *)
Definition btree (K V : Type) : Type := list (K * V).

Section BTreeMap.
Context {K V : Type} `{Ord K} `{!EqDecision K}.
Implicit Types (m : btree K V) (k : K) (v : V).

Fixpoint bt_get (k : K) (m : list (K * V)) : option V :=
  match m with
  | [] => None
  | (k', v) :: m =>
      match cmp k k' with Eq => Some v | Lt => None | Gt => bt_get k m end
  end.

Fixpoint bt_insert (k : K) (v : V) (m : list (K * V)) : list (K * V) :=
  match m with
  | [] => [(k, v)]
  | (k', v') :: m' =>
      match cmp k k' with
      | Eq => (k, v) :: m'
      | Lt => (k, v) :: m
      | Gt => (k', v') :: bt_insert k v m'
      end
  end.

Definition bt_contains (k : K) (m : list (K * V)) : bool :=
  match bt_get k m with Some _ => true | None => false end.

(** [iter.collect::<BTreeMap<_, _>>()]: a later entry replaces an earlier
    one. *)
Definition bt_collect (l : list (K * V)) : list (K * V) :=
  fold_left (λ m kv, bt_insert kv.1 kv.2 m) l [].

(** [*map.entry(k).or_insert(default)] updated with [f]. *)
Definition bt_alter (default : V) (f : V → V) (k : K) (m : list (K * V))
    : list (K * V) :=
  bt_insert k (f (match bt_get k m with Some v => v | None => default end)) m.

Definition bt_keys (m : list (K * V)) : list K := m.*1.

Definition bt_remove (k : K) (m : list (K * V)) : list (K * V) :=
  filter (λ kv, kv.1 ≠ k) m.

(** The representation invariant: keys strictly increase. *)
Definition bt_wf (m : list (K * V)) : Prop :=
  StronglySorted (λ x y, cmp x.1 y.1 = Lt) m.

Lemma bt_get_below k m :
  Forall (λ y, cmp k y.1 = Lt) m → bt_get k m = None.
Proof. destruct 1 as [|[k' v'] m Hk _]; simpl in *; [done|]. by rewrite Hk. Qed.

Lemma bt_get_insert_eq k v m : bt_get k (bt_insert k v m) = Some v.
Proof.
  induction m as [|[k' v'] m IH]; simpl; [by rewrite cmp_refl|].
  destruct (cmp k k') eqn:E; simpl; rewrite ?cmp_refl, ?E; auto.
Qed.

Lemma bt_get_insert_ne k k' v m :
  bt_wf m → k ≠ k' → bt_get k' (bt_insert k v m) = bt_get k' m.
Proof.
  intros Hm Hne. assert (Hk : cmp k' k ≠ Eq) by (rewrite cmp_eq; congruence).
  induction Hm as [|[k0 v0] m Hm IH Hall]; simpl.
  - by destruct (cmp k' k).
  - destruct (cmp k k0) eqn:E; simpl.
    + apply cmp_eq in E as ->. by destruct (cmp k' k0).
    + destruct (cmp k' k) eqn:E'; [done| |done].
      by rewrite (cmp_lt_trans _ _ _ E' E).
    + by rewrite IH.
Qed.

Lemma bt_get_insert k k' v m :
  bt_wf m → bt_get k' (bt_insert k v m) = if decide (k = k') then Some v else bt_get k' m.
Proof.
  intros Hm. case_decide; subst; [apply bt_get_insert_eq|].
  by apply bt_get_insert_ne.
Qed.

Lemma bt_insert_Forall (P : K * V → Prop) k v m :
  P (k, v) → Forall P m → Forall P (bt_insert k v m).
Proof.
  intros Hp. induction 1 as [|[k' v'] m Hk Hm IH]; simpl; [auto|].
  destruct (cmp k k'); auto.
Qed.

Lemma bt_insert_wf k v m : bt_wf m → bt_wf (bt_insert k v m).
Proof.
  induction 1 as [|[k' v'] m Hm IH Hall]; simpl; [by repeat constructor|].
  destruct (cmp k k') eqn:E.
  - apply cmp_eq in E as ->. by constructor.
  - constructor; [by constructor|]. constructor; [done|].
    eapply Forall_impl; [exact Hall|]. intros [k2 v2]; simpl. by apply cmp_lt_trans.
  - constructor; [done|]. apply bt_insert_Forall; [|done]. by apply cmp_gt_lt.
Qed.

Lemma bt_alter_wf d f k m : bt_wf m → bt_wf (bt_alter d f k m).
Proof. apply bt_insert_wf. Qed.

Lemma bt_get_alter d f k k' m :
  bt_wf m → bt_get k' (bt_alter d f k m) =
    if decide (k = k') then Some (f (default d (bt_get k m))) else bt_get k' m.
Proof. intros Hm. unfold bt_alter. by rewrite bt_get_insert. Qed.

Lemma bt_get_elem k v m : bt_wf m → bt_get k m = Some v ↔ (k, v) ∈ m.
Proof.
  induction 1 as [|[k' v'] m Hm IH Hall]; simpl; [set_solver|].
  rewrite elem_of_cons. rewrite Forall_forall in Hall.
  destruct (cmp k k') eqn:E.
  - apply cmp_eq in E as ->. split; [intros [= ->]; by left|].
    intros [[= ->]|Hin]; [done|]. apply Hall in Hin; simpl in Hin.
    by rewrite cmp_refl in Hin.
  - split; [done|]. intros [[= -> ->]|Hin].
    + by rewrite cmp_refl in E.
    + apply Hall in Hin; simpl in Hin. apply cmp_gt_lt in Hin. congruence.
  - rewrite IH. split; [by right|]. intros [[= -> ->]|]; [|done].
    by rewrite cmp_refl in E.
Qed.

Lemma bt_get_cons k v m k' :
  bt_wf ((k, v) :: m) → bt_get k' ((k, v) :: m) = if decide (k = k') then Some v else bt_get k' m.
Proof.
  intros Hm. inversion Hm as [|? ? Hm' Hall]; subst. simpl. case_decide; subst.
  - by rewrite cmp_refl.
  - destruct (cmp k' k) eqn:E; [apply cmp_eq in E; congruence| |done].
    symmetry. apply bt_get_below. eapply Forall_impl; [exact Hall|].
    intros [k2 v2]; simpl. by apply cmp_lt_trans.
Qed.

Lemma bt_get_tail_None k v m : bt_wf ((k, v) :: m) → bt_get k m = None.
Proof. intros Hm. inversion Hm; subst. by apply bt_get_below. Qed.

Lemma bt_remove_wf k m : bt_wf m → bt_wf (bt_remove k m).
Proof.
  unfold bt_remove. induction 1 as [|[k' v'] m Hm IH Hall]; [constructor|]. rewrite filter_cons.
  case_decide; [|done]. constructor; [done|]. apply Forall_forall. intros y Hy.
  apply list_elem_of_filter in Hy as [_ Hy]. by apply (proj1 (Forall_forall _ _) Hall).
Qed.

Lemma bt_get_remove_ne k k' m :
  bt_wf m → k ≠ k' → bt_get k' (bt_remove k m) = bt_get k' m.
Proof.
  intros Hm Hne. induction m as [|[k0 v0] m IH]; [done|]. pose proof (bt_remove_wf k _ Hm) as Hr.
  inversion Hm as [|? ? Hm' _]; subst. rewrite (bt_get_cons k0 v0 m) by done.
  unfold bt_remove in Hr, IH |- *. rewrite filter_cons in Hr |- *. cbn [fst] in Hr |- *. case_decide as E.
  - rewrite (bt_get_cons k0 v0) by done. by rewrite IH.
  - subst k0. rewrite decide_False by done. by apply IH.
Qed.

Lemma bt_keys_wf m : bt_wf m → StronglySorted (λ x y, cmp x y = Lt) (bt_keys m).
Proof.
  induction 1 as [|kv m Hm IH Hall]; simpl; [constructor|].
  constructor; [done|]. by apply Forall_fmap.
Qed.

Lemma bt_keys_NoDup m : bt_wf m → NoDup (bt_keys m).
Proof.
  intros Hm%bt_keys_wf. induction Hm as [|k l Hl IH Hall]; constructor; [|done].
  intros Hin. rewrite Forall_forall in Hall. apply Hall in Hin.
  by rewrite cmp_refl in Hin.
Qed.

Lemma elem_of_bt_keys k m : bt_wf m → k ∈ bt_keys m ↔ is_Some (bt_get k m).
Proof.
  intros Hm. unfold bt_keys. rewrite list_elem_of_fmap. split.
  - intros ([k' v] & -> & Hin). exists v. by apply bt_get_elem.
  - intros [v Hv]. exists (k, v). split; [done|]. by apply bt_get_elem.
Qed.

Lemma bt_contains_true k m : bt_contains k m = true ↔ is_Some (bt_get k m).
Proof. unfold bt_contains. destruct (bt_get k m); split; try done; by intros []. Qed.

(** Two well-formed maps with the same lookups are the same list. *)
Lemma bt_ext m1 m2 :
  bt_wf m1 → bt_wf m2 → (∀ k, bt_get k m1 = bt_get k m2) → m1 = m2.
Proof.
  intros H1 H2 Hext. apply (StronglySorted_unique_strong (λ x y, cmp x.1 y.1 = Lt));
    [|done..|].
  - intros x y _ _ Hxy Hyx. by rewrite (cmp_opp x.1 y.1), Hxy in Hyx.
  - assert (∀ m, bt_wf m → NoDup m) as Hnd.
    { intros m Hm. eapply NoDup_fmap_1, bt_keys_NoDup, Hm. }
    apply NoDup_Permutation; [by apply Hnd..|].
    intros [k v]. rewrite <-!bt_get_elem by done. by rewrite Hext.
Qed.

Lemma bt_collect_from_wf l m :
  bt_wf m → bt_wf (fold_left (λ m kv, bt_insert kv.1 kv.2 m) l m).
Proof.
  revert m. induction l as [|kv l IH]; intros m Hm; simpl; [done|].
  by apply IH, bt_insert_wf.
Qed.

Lemma bt_nil_wf : bt_wf [].
Proof. constructor. Qed.

Lemma bt_collect_wf l : bt_wf (bt_collect l).
Proof. apply bt_collect_from_wf, bt_nil_wf. Qed.

Lemma bt_get_collect_from l m k :
  bt_wf m → NoDup l.*1 →
  bt_get k (fold_left (λ m kv, bt_insert kv.1 kv.2 m) l m) =
    match list_find (λ kv, kv.1 = k) l with
    | Some (_, kv) => Some kv.2
    | None => bt_get k m
    end.
Proof.
  revert m. induction l as [|[k0 v0] l IH]; intros m Hm Hnd; simpl; [done|].
  inversion Hnd as [|? ? Hnin Hnd']; subst.
  rewrite IH by (try apply bt_insert_wf; done). case_decide as Hk; simpl in *; subst.
  - destruct (list_find _ l) as [[i kv]|] eqn:Hf; simpl.
    + apply list_find_Some in Hf as (Hi & Hkv & _). exfalso. apply Hnin.
      apply list_elem_of_fmap. exists kv. split; [done|]. by eapply list_elem_of_lookup_2.
    + apply bt_get_insert_eq.
  - destruct (list_find _ l) as [[i kv]|]; simpl; [done|]. by apply bt_get_insert_ne.
Qed.

(** Collecting entries with distinct keys keeps exactly those entries. *)
Lemma elem_of_bt_collect l k v :
  NoDup l.*1 → (k, v) ∈ bt_collect l ↔ (k, v) ∈ l.
Proof.
  intros Hnd. rewrite <-bt_get_elem by apply bt_collect_wf. unfold bt_collect.
  rewrite bt_get_collect_from by (try apply bt_nil_wf; done).
  destruct (list_find _ l) as [[i [k' v']]|] eqn:Hf; simpl.
  - apply list_find_Some in Hf as (Hi & Hk & _). simpl in Hk. subst k'.
    apply list_elem_of_lookup_2 in Hi. split; [by intros [= ->]|].
    intros Hin. f_equal. apply (NoDup_fst_functional l k); done.
  - apply list_find_None in Hf. rewrite Forall_forall in Hf.
    split; [done|]. intros Hin. by destruct (Hf _ Hin).
Qed.
End BTreeMap.
#[export] Hint Resolve bt_nil_wf bt_insert_wf bt_alter_wf bt_collect_wf : krabka.

(** The last entry of a key wins. *)
Lemma bt_get_collect {K V} `{Ord K} `{!EqDecision K} (l : list (K * V)) k :
  bt_get k (bt_collect l) = snd <$> last (filter (λ kv : K * V, kv.1 = k) l).
Proof.
  assert (∀ m : list (K * V), bt_wf m →
    bt_get k (fold_left (λ m kv, bt_insert kv.1 kv.2 m) l m) =
      match last (filter (λ kv : K * V, kv.1 = k) l) with
      | Some kv => Some kv.2
      | None => bt_get k m
      end) as Hfrom.
  { induction l as [|[k0 v0] l IH]; intros m Hm; [done|]. cbn [fold_left fst snd].
    rewrite IH by (by apply bt_insert_wf). rewrite filter_cons, bt_get_insert by done.
    cbn [fst]. destruct (decide (k0 = k)) as [->|Hk]; [|done]. rewrite last_cons.
    by destruct (last _). }
  unfold bt_collect. rewrite Hfrom by apply bt_nil_wf. by destruct (last _).
Qed.

Lemma bt_get_collect_elem {K V} `{Ord K} `{!EqDecision K} (l : list (K * V)) k v :
  bt_get k (bt_collect l) = Some v → (k, v) ∈ l.
Proof.
  rewrite bt_get_collect. destruct (last _) as [[k0 v0]|] eqn:E; [|done]. intros [= <-].
  apply last_Some_elem_of in E. apply list_elem_of_filter in E as [Hk Hin]. simpl in *. by subst.
Qed.

Lemma bt_get_collect_Some {K V} `{Ord K} `{!EqDecision K} (l : list (K * V)) k v :
  (k, v) ∈ l → is_Some (bt_get k (bt_collect l)).
Proof.
  intros Hin. rewrite bt_get_collect, fmap_is_Some, last_is_Some. intros E.
  assert ((k, v) ∈ filter (λ kv : K * V, kv.1 = k) l) as Hf by (by apply list_elem_of_filter).
  rewrite E in Hf. by apply not_elem_of_nil in Hf.
Qed.

Lemma bt_collect_nil {K V} `{Ord K} `{!EqDecision K} (l : list (K * V)) :
  bt_keys (bt_collect l) = [] → l = [].
Proof.
  destruct l as [|[k v] l]; [done|]. intros E. exfalso.
  assert (∀ l (m : list (K * V)) k, bt_wf m → is_Some (bt_get k m) →
    is_Some (bt_get k (fold_left (λ m kv, bt_insert kv.1 kv.2 m) l m))) as Hkeep.
  { intros l0. induction l0 as [|[k0 v0] l0 IH]; intros m k' Hm Hk; simpl; [done|].
    apply IH; [by apply bt_insert_wf|]. rewrite bt_get_insert by done. by case_decide. }
  assert (is_Some (bt_get k (bt_collect ((k, v) :: l)))) as Hs.
  { unfold bt_collect. cbn [fold_left]. apply Hkeep; [by repeat constructor|]. simpl. by rewrite cmp_refl. }
  apply elem_of_bt_keys in Hs; [|apply bt_collect_wf]. rewrite E in Hs. set_solver.
Qed.

(** Collecting a map's entries with new values keeps its keys. *)
Lemma bt_get_map_collect `{Ord K} `{!EqDecision K} {V W} (f : K → V → W) (m : list (K * V)) k :
  bt_wf m → bt_get k (bt_collect (map (λ '(k, v), (k, f k v)) m)) = f k <$> bt_get k m.
Proof.
  intros Hm. assert (NoDup (map (λ '(k, v), (k, f k v)) m).*1) as Hnd.
  { assert ((map (λ '(k, v), (k, f k v)) m).*1 = bt_keys m) as ->.
    { unfold bt_keys. clear Hm. induction m as [|[k' v'] m IH]; [done|]. cbn. by rewrite IH. }
    by apply bt_keys_NoDup. }
  destruct (bt_get k m) as [v|] eqn:E; simpl.
  - apply bt_get_elem; [apply bt_collect_wf|]. apply elem_of_bt_collect; [done|].
    apply list_elem_of_fmap. exists (k, v). split; [done|]. by apply bt_get_elem.
  - destruct (bt_get k (bt_collect _)) as [w|] eqn:E'; [|done]. exfalso.
    apply bt_get_elem in E'; [|apply bt_collect_wf]. rewrite elem_of_bt_collect in E' by done.
    apply list_elem_of_fmap in E' as ([k' v'] & [= -> ->] & Hin).
    apply bt_get_elem in Hin; [|done]. congruence.
Qed.

(** ** [BTreeMap] of [BTreeMap]s *)

Section Nested.
Context {K L V : Type} `{Ord K} `{!EqDecision K} `{Ord L} `{!EqDecision L}.
Implicit Types (m : list (K * list (L * V))).

(** [map.entry(k).or_default().insert(l, v)]. *)
Definition bt_insert2 (k : K) (l : L) (v : V) (m : list (K * list (L * V)))
    : list (K * list (L * V)) := bt_alter [] (bt_insert l v) k m.

Definition bt_get2 (k : K) (l : L) (m : list (K * list (L * V))) : option V :=
  bt_get l (default [] (bt_get k m)).

Definition bt_wf2 (m : list (K * list (L * V))) : Prop :=
  bt_wf m ∧ ∀ k inner, bt_get k m = Some inner → bt_wf inner.

Lemma bt_wf2_inner m k : bt_wf2 m → bt_wf (default [] (bt_get k m)).
Proof.
  intros [_ Hm]. destruct (bt_get k m) eqn:E; simpl; [by eapply Hm|apply bt_nil_wf].
Qed.

Lemma bt_wf2_nil : bt_wf2 [].
Proof. split; [apply bt_nil_wf|done]. Qed.

Lemma bt_insert2_wf k l v m : bt_wf2 m → bt_wf2 (bt_insert2 k l v m).
Proof.
  intros Hm. split; [by apply bt_alter_wf, Hm|]. intros k' inner.
  unfold bt_insert2. rewrite bt_get_alter by apply Hm. case_decide; [|apply Hm].
  intros [= <-]. by apply bt_insert_wf, bt_wf2_inner.
Qed.

Lemma bt_get2_insert2 k l v m k' l' :
  bt_wf2 m →
  bt_get2 k' l' (bt_insert2 k l v m) =
    if decide (k = k' ∧ l = l') then Some v else bt_get2 k' l' m.
Proof.
  intros Hm. unfold bt_get2, bt_insert2. rewrite bt_get_alter by apply Hm.
  destruct (decide (k = k')) as [<-|Hk]; simpl.
  - rewrite bt_get_insert by (by apply bt_wf2_inner).
    destruct (decide (l = l')), (decide _); naive_solver.
  - destruct (decide _); naive_solver.
Qed.

(** Writes each [(k, l, v)] in turn. *)
Definition put_all (entries : list (K * L * V)) (m : list (K * list (L * V)))
    : list (K * list (L * V)) :=
  fold_left (λ m '(k, l, v), bt_insert2 k l v m) entries m.

Lemma put_all_wf entries m : bt_wf2 m → bt_wf2 (put_all entries m).
Proof.
  revert m. induction entries as [|[[k l] v] entries IH]; intros m Hm; simpl; [done|].
  by apply IH, bt_insert2_wf.
Qed.

Lemma put_all_absent entries m k l :
  bt_wf2 m → (∀ v, (k, l, v) ∉ entries) → bt_get2 k l (put_all entries m) = bt_get2 k l m.
Proof.
  revert m. induction entries as [|[[k' l'] v'] entries IH]; intros m Hm Hl; simpl; [done|].
  rewrite IH; [|by apply bt_insert2_wf|intros v Hv; by eapply Hl; right].
  rewrite bt_get2_insert2 by done. case_decide as E; [|done].
  destruct E as [-> ->]. by destruct (Hl v'); left.
Qed.

Lemma put_all_present `{!EqDecision V} entries m k l v :
  bt_wf2 m → (k, l, v) ∈ entries → (∀ v', (k, l, v') ∈ entries → v' = v) →
  bt_get2 k l (put_all entries m) = Some v.
Proof.
  revert m. induction entries as [|[[k' l'] v'] entries IH]; intros m Hm Hin Hl; simpl; [set_solver|].
  destruct (decide ((k, l, v) ∈ entries)) as [Hv|Hno].
  { apply IH; [by apply bt_insert2_wf|done|]. intros v1 Hv1. apply Hl. by right. }
  assert (∀ v0, (k, l, v0) ∉ entries) as Hno'.
  { intros v0 Hv0. assert (v0 = v) as -> by (apply Hl; by right). done. }
  rewrite put_all_absent by (try apply bt_insert2_wf; done).
  rewrite bt_get2_insert2 by done.
  apply elem_of_cons in Hin as [[= -> -> ->]|Hin]; [|by destruct (Hno' v)].
  by rewrite decide_True.
Qed.
End Nested.
#[export] Hint Resolve bt_wf2_nil bt_insert2_wf : krabka.

(** ** [BTreeSet] *)

(** A set is the list of its values in increasing order. *)
Section BTreeSet.
Context {K : Type} `{Ord K} `{!EqDecision K}.
Implicit Types (l : list K).

(** [iter.collect::<BTreeSet<_>>()]. *)
Definition set_collect (l : list K) : list K := bt_keys (bt_collect (map (λ k, (k, tt)) l)).

Lemma bt_get_collect_units l (m : list (K * unit)) k :
  bt_wf m →
  is_Some (bt_get k (fold_left (λ m kv, bt_insert kv.1 kv.2 m) (map (λ k, (k, tt)) l) m)) ↔
  k ∈ l ∨ is_Some (bt_get k m).
Proof.
  revert m. induction l as [|x l IH]; intros m Hm; simpl; [set_solver|].
  rewrite IH by (by apply bt_insert_wf). rewrite bt_get_insert by done.
  rewrite elem_of_cons. case_decide; subst; [|naive_solver].
  split; [naive_solver|]. intros _. right. by eexists.
Qed.

Lemma elem_of_set_collect l k : k ∈ set_collect l ↔ k ∈ l.
Proof.
  unfold set_collect. rewrite elem_of_bt_keys by apply bt_collect_wf. unfold bt_collect.
  rewrite bt_get_collect_units by apply bt_nil_wf. simpl. split; [|by left].
  by intros [|[]].
Qed.

Lemma set_collect_NoDup l : NoDup (set_collect l).
Proof. apply bt_keys_NoDup, bt_collect_wf. Qed.

Lemma set_collect_sorted l : StronglySorted (λ x y, cmp x y = Lt) (set_collect l).
Proof. apply bt_keys_wf, bt_collect_wf. Qed.
End BTreeSet.

(** ** Stable sorting: [slice::sort_by], [sort_by_key], [sort] *)

Section SortBy.
Context {A : Type} (c : A → A → comparison).

Fixpoint sort_insert (x : A) (l : list A) : list A :=
  match l with
  | [] => [x]
  | y :: l' => match c x y with Gt => y :: sort_insert x l' | _ => x :: l end
  end.

(** Elements that compare equal keep their order. *)
Definition sort_by (l : list A) : list A := foldr sort_insert [] l.

Lemma sort_insert_perm x l : sort_insert x l ≡ₚ x :: l.
Proof.
  induction l as [|y l IH]; simpl; [done|].
  destruct (c x y); [done..|]. rewrite IH. constructor.
Qed.

Lemma sort_by_perm l : sort_by l ≡ₚ l.
Proof. induction l as [|x l IH]; simpl; [done|]. by rewrite sort_insert_perm, IH. Qed.
End SortBy.

(** [sort_by_key] on a [usize] key. *)
Definition sort_by_key {A} (key : A → nat) : list A → list A :=
  sort_by (λ x y, Nat.compare (key x) (key y)).

(** [sort] and [sort_unstable] of a type whose equal elements are identical. *)
Definition sort `{Ord A} : list A → list A := sort_by cmp.

(** The [n] buckets of [key] over [l], from bucket [s] on, one after the
    other, each in the order of [l]. *)
Definition buckets {A} (key : A → nat) (s n : nat) (l : list A) : list A :=
  concat (map (λ b, filter (λ x, key x = b) l) (seq s n)).

Lemma buckets_skip {A} (key : A → nat) s n x l :
  (key x < s)%nat → buckets key s n (x :: l) = buckets key s n l.
Proof.
  unfold buckets. revert s. induction n as [|n IH]; intros s Hs; simpl; [done|].
  rewrite filter_cons_False by lia. by rewrite IH by lia.
Qed.

Lemma buckets_ge {A} (key : A → nat) s n l x :
  x ∈ buckets key s n l → (s ≤ key x)%nat ∧ x ∈ l.
Proof.
  unfold buckets. rewrite list_elem_of_In, in_concat.
  intros (b & Hb & Hx). apply in_map_iff in Hb as (i & <- & Hi). apply in_seq in Hi.
  apply list_elem_of_In, list_elem_of_filter in Hx as [<- Hx]. split; [lia|done].
Qed.

Lemma sort_insert_app {A} (key : A → nat) x l1 l2 :
  Forall (λ y, (key y < key x)%nat) l1 →
  sort_insert (λ x y, Nat.compare (key x) (key y)) x (l1 ++ l2) =
  l1 ++ sort_insert (λ x y, Nat.compare (key x) (key y)) x l2.
Proof.
  induction 1 as [|y l1 Hy _ IH]; simpl; [done|].
  apply Nat.compare_gt_iff in Hy. by rewrite Hy, IH.
Qed.

Lemma sort_insert_head {A} (key : A → nat) x l :
  (∀ y, y ∈ l → (key x ≤ key y)%nat) →
  sort_insert (λ x y, Nat.compare (key x) (key y)) x l = x :: l.
Proof.
  destruct l as [|y l]; intros Hl; simpl; [done|].
  specialize (Hl y (list_elem_of_here _ _)).
  destruct (Nat.compare_spec (key x) (key y)); [done..|lia].
Qed.

Lemma sort_insert_buckets {A} (key : A → nat) s n x l :
  (s ≤ key x < s + n)%nat →
  sort_insert (λ x y, Nat.compare (key x) (key y)) x (buckets key s n l) =
  buckets key s n (x :: l).
Proof.
  revert s. induction n as [|n IH]; intros s Hs; [lia|].
  change (buckets key s (S n) l) with (filter (λ x, key x = s) l ++ buckets key (S s) n l).
  change (buckets key s (S n) (x :: l))
    with (filter (λ x, key x = s) (x :: l) ++ buckets key (S s) n (x :: l)).
  destruct (decide (key x = s)) as [Hx|Hx].
  - rewrite filter_cons_True, buckets_skip by (done || lia). simpl.
    apply sort_insert_head. intros y [[Hy _]%list_elem_of_filter|Hy]%elem_of_app; [lia|].
    apply buckets_ge in Hy. lia.
  - rewrite filter_cons_False by done. rewrite sort_insert_app, IH by
      (try lia; apply Forall_forall; intros y [Hy _]%list_elem_of_filter; lia). done.
Qed.

(** A stable sort on keys below [n] is the concatenation of the [n] buckets. *)
Lemma sort_by_key_buckets {A} (key : A → nat) n l :
  Forall (λ x, (key x < n)%nat) l → sort_by_key key l = buckets key 0 n l.
Proof.
  unfold sort_by_key. induction 1 as [|x l Hx _ IH]; simpl.
  - unfold buckets. generalize 0%nat. induction n as [|n IHn]; intros s; simpl; auto.
  - rewrite IH. apply sort_insert_buckets. lia.
Qed.

Lemma elem_of_buckets {A} (key : A → nat) n l x :
  (key x < n)%nat → x ∈ buckets key 0 n l ↔ x ∈ l.
Proof.
  intros Hx. split; [by intros [_ ?]%buckets_ge|]. intros Hin.
  unfold buckets. rewrite list_elem_of_In, in_concat. eexists. split.
  - apply in_map_iff. exists (key x). split; [done|]. apply in_seq. lia.
  - apply list_elem_of_In, list_elem_of_filter. done.
Qed.
