(* ===== verification/Rust.v ===== *)
(** The language and library facts that the sources rely on: fixed-width
    integers with their wrapping and checked operations, [str] as its UTF-8
    bytes with the methods the sources call, and decimal printing and
    parsing. *)

From Stdlib Require Import Ascii String.
From S2P Require Import Prelude Collections.

#[local] Open Scope Z_scope.

(** ** Fixed-width integers *)

(** The two's-complement value of [z] at [w] bits. *)
Definition wrap (w z : Z) : Z := (z + 2 ^ (w - 1)) mod 2 ^ w - 2 ^ (w - 1).

Definition in_signed (w z : Z) : Prop := - 2 ^ (w - 1) ≤ z < 2 ^ (w - 1).
Definition fits_signed (w z : Z) : bool :=
  (- 2 ^ (w - 1) <=? z) && (z <? 2 ^ (w - 1)).

Definition i16_ok : Z → Prop := in_signed 16.
Definition i32_ok : Z → Prop := in_signed 32.
Definition i64_ok : Z → Prop := in_signed 64.

Definition i32_MAX : Z := 2147483647.
Definition i64_MAX : Z := 9223372036854775807.
Definition i64_MIN : Z := -9223372036854775808.
Definition usize_MAX : Z := 18446744073709551615.

Definition wrap_i32 : Z → Z := wrap 32.
Definition wrap_i64 : Z → Z := wrap 64.

(** [iN::try_from]. *)
Definition try_signed (w z : Z) : option Z := if fits_signed w z then Some z else None.

(** [i64::saturating_add]. *)
Definition saturating_add (a b : Z) : Z := Z.max i64_MIN (Z.min i64_MAX (a + b)).

(** ** Strings: the UTF-8 bytes of a [str] *)

Definition byte_of (c : ascii) : Z := Z.of_N (N_of_ascii c).

Definition is_ascii_digit (c : ascii) : bool := (48 <=? byte_of c) && (byte_of c <=? 57).
Definition is_ascii_alpha (c : ascii) : bool :=
  ((65 <=? byte_of c) && (byte_of c <=? 90)) || ((97 <=? byte_of c) && (byte_of c <=? 122)).
Definition is_ascii_alphanumeric (c : ascii) : bool := is_ascii_digit c || is_ascii_alpha c.

(** [s.bytes().all(p)]. *)
Fixpoint all_bytes (p : ascii → bool) (s : string) : bool :=
  match s with EmptyString => true | String c s => p c && all_bytes p s end.

(** [s.contains(p)] for a character predicate on ASCII. *)
Fixpoint contains_byte (p : ascii → bool) (s : string) : bool :=
  match s with EmptyString => false | String c s => p c || contains_byte p s end.

Fixpoint map_bytes (f : ascii → ascii) (s : string) : string :=
  match s with EmptyString => "" | String c s => String (f c) (map_bytes f s) end.

Definition to_upper (c : ascii) : ascii :=
  if (97 <=? byte_of c) && (byte_of c <=? 122) then ascii_of_N (N_of_ascii c - 32) else c.
Definition to_lower (c : ascii) : ascii :=
  if (65 <=? byte_of c) && (byte_of c <=? 90) then ascii_of_N (N_of_ascii c + 32) else c.
Definition to_ascii_uppercase : string → string := map_bytes to_upper.
Definition to_ascii_lowercase : string → string := map_bytes to_lower.

Fixpoint strip_prefix (p s : string) : option string :=
  match p, s with
  | EmptyString, _ => Some s
  | String a p, String b s => if (a =? b)%char then strip_prefix p s else None
  | String _ _, EmptyString => None
  end.

Fixpoint str_rev_app (s acc : string) : string :=
  match s with EmptyString => acc | String c s => str_rev_app s (String c acc) end.
Definition str_rev (s : string) : string := str_rev_app s "".

Definition strip_suffix (p s : string) : option string :=
  str_rev <$> strip_prefix (str_rev p) (str_rev s).

(** [s.split_once(p)]: before and after the first matching character. *)
Fixpoint split_once (p : ascii → bool) (s : string) : option (string * string) :=
  match s with
  | EmptyString => None
  | String c s' =>
      if p c then Some ("", s')
      else match split_once p s' with
           | Some (l, r) => Some (String c l, r)
           | None => None
           end
  end.

(** [s.rsplit_once(c)]: before and after the last such character. *)
Fixpoint rsplit_once (c : ascii) (s : string) : option (string * string) :=
  match s with
  | EmptyString => None
  | String d s' =>
      match rsplit_once c s' with
      | Some (l, r) => Some (String d l, r)
      | None => if (d =? c)%char then Some ("", s') else None
      end
  end.

(** [str::eq_ignore_ascii_case]. *)
Definition eq_ignore_ascii_case (s t : string) : bool :=
  bool_decide (to_ascii_lowercase s = to_ascii_lowercase t).

(** [a - b] on [i64]: where the build checks overflow it panics. *)
Definition sub_i64 (checks : bool) (a b : Z) : outcome Z :=
  if fits_signed 64 (a - b) then Done (a - b)
  else if checks then Panic else Done (wrap_i64 (a - b)).

(** [Path::join] of a relative name, on Unix. *)
Definition path_join (directory name : string) : string :=
  if bool_decide (directory = "") || is_some (strip_suffix "/" directory) then directory +:+ name
  else directory +:+ "/" +:+ name.

(** [s.split(c)]: never empty; [n] separators give [n + 1] pieces. *)
Fixpoint split_char (sep : ascii) (s : string) : list string :=
  match s with
  | EmptyString => [""]
  | String c s' =>
      if (c =? sep)%char then "" :: split_char sep s'
      else match split_char sep s' with
           | [] => [String c ""]
           | w :: ws => String c w :: ws
           end
  end.

(** [pieces.join(sep)]. *)
Fixpoint join (sep : string) (l : list string) : string :=
  match l with
  | [] => ""
  | [x] => x
  | x :: l => x +:+ sep +:+ join sep l
  end.

(** The first character of [s] as a Unicode scalar value, and the rest. A
    [str] is valid UTF-8, so the lead byte and the continuation bytes are
    present; any other byte reads as U+FFFD, which no method below treats
    specially. *)
Definition decode_char (s : string) : option (Z * string) :=
  match s with
  | EmptyString => None
  | String a s1 =>
      let b0 := byte_of a in
      if b0 <? 128 then Some (b0, s1)
      else if b0 <? 192 then Some (65533, s1)
      else match s1 with
      | EmptyString => Some (65533, s1)
      | String b s2 =>
          let b1 := Z.land (byte_of b) 63 in
          if b0 <? 224 then Some (Z.land b0 31 * 64 + b1, s2)
          else match s2 with
          | EmptyString => Some (65533, s2)
          | String c s3 =>
              let b2 := Z.land (byte_of c) 63 in
              if b0 <? 240 then Some (Z.land b0 15 * 4096 + b1 * 64 + b2, s3)
              else match s3 with
              | EmptyString => Some (65533, s3)
              | String d s4 =>
                  let b3 := Z.land (byte_of d) 63 in
                  Some (Z.land b0 7 * 262144 + b1 * 4096 + b2 * 64 + b3, s4)
              end
          end
      end
  end.

Fixpoint chars_fuel (fuel : nat) (s : string) : list Z :=
  match fuel with
  | O => []
  | S fuel =>
      match decode_char s with None => [] | Some (c, s) => c :: chars_fuel fuel s end
  end.

(** [s.chars()]: each step consumes a byte, so the byte length is fuel
    enough. *)
Definition chars (s : string) : list Z := chars_fuel (String.length s) s.

(** [s.encode_utf16()]. *)
Definition utf16_units (c : Z) : list Z :=
  if c <? 65536 then [c]
  else let v := c - 65536 in [55296 + Z.shiftr v 10; 56320 + Z.land v 1023].
Definition encode_utf16 (s : string) : list Z := chars s ≫= utf16_units.

(** [String::push]: the UTF-8 bytes of a scalar value. *)
Definition byte (b : Z) : ascii := ascii_of_N (Z.to_N b).
Definition encode_char (c : Z) : string :=
  if c <? 128 then String (byte c) ""
  else if c <? 2048 then
    String (byte (192 + c / 64)) (String (byte (128 + c mod 64)) "")
  else if c <? 65536 then
    String (byte (224 + c / 4096)) (String (byte (128 + c / 64 mod 64))
      (String (byte (128 + c mod 64)) ""))
  else
    String (byte (240 + c / 262144)) (String (byte (128 + c / 4096 mod 64))
      (String (byte (128 + c / 64 mod 64)) (String (byte (128 + c mod 64)) ""))).

(** [chars.collect::<String>()]. *)
Definition encode_utf8 (l : list Z) : string := foldr (λ c s, encode_char c +:+ s) "" l.

(** [char::from_u32]: the values of [u32] that are a [char]. *)
Definition is_scalar (c : Z) : bool :=
  ((0 <=? c) && (c <? 55296)) || ((57344 <=? c) && (c <? 1114112)).
Definition char_from_u32 (c : Z) : option Z := if is_scalar c then Some c else None.

(** [char::is_whitespace]: the White_Space property. *)
Definition is_whitespace (c : Z) : bool :=
  ((9 <=? c) && (c <=? 13)) || (c =? 32) || (c =? 133) || (c =? 160) || (c =? 5760)
  || ((8192 <=? c) && (c <=? 8202)) || (c =? 8232) || (c =? 8233) || (c =? 8239)
  || (c =? 8287) || (c =? 12288).

Fixpoint trim_start_fuel (fuel : nat) (s : string) : string :=
  match fuel with
  | O => s
  | S fuel =>
      match decode_char s with
      | Some (c, s') => if is_whitespace c then trim_start_fuel fuel s' else s
      | None => s
      end
  end.
Definition trim_start (s : string) : string := trim_start_fuel (String.length s) s.

(** The longest prefix of [s] whose remaining characters are all whitespace is
    what [trim_end] keeps. *)
Definition blank (s : string) : bool := bool_decide (trim_start s = "").
Fixpoint trim_end (s : string) : string :=
  match s with
  | EmptyString => ""
  | String c s' => if blank s then "" else String c (trim_end s')
  end.
Definition trim (s : string) : string := trim_end (trim_start s).

(** ** Formatting *)

Fixpoint spaces (n : nat) : string :=
  match n with O => "" | S n => String (ascii_of_nat 32) (spaces n) end.

(** ["0".repeat(n)]. *)
Fixpoint zeros (n : nat) : string :=
  match n with O => "" | S n => String (ascii_of_nat 48) (zeros n) end.

(** [s.chars().count()]. *)
Definition char_count (s : string) : nat := length (chars s).

(** [format!("{value:<width$}")], which counts characters. *)
Definition pad (value : string) (width : nat) : string :=
  value +:+ spaces (width - length (chars value)).

(** ** Decimal numbers *)

Definition digit_value (c : ascii) : Z := byte_of c - 48.

Fixpoint digits_value (acc : Z) (s : string) : option Z :=
  match s with
  | EmptyString => Some acc
  | String c s =>
      if is_ascii_digit c then digits_value (10 * acc + digit_value c) s else None
  end.

Definition unsigned_value (s : string) : option Z :=
  match s with EmptyString => None | _ => digits_value 0 s end.

Definition signed_value (s : string) : option Z :=
  match s with
  | String "-" s' => Z.opp <$> unsigned_value s'
  | String "+" s' => unsigned_value s'
  | _ => unsigned_value s
  end.

(** [s.parse::<iN>()]: an optional sign, at least one digit, in range. *)
Definition parse_signed (w : Z) (s : string) : option Z :=
  signed_value s ≫= try_signed w.
Definition parse_i16 : string → option Z := parse_signed 16.
Definition parse_i32 : string → option Z := parse_signed 32.
Definition parse_i64 : string → option Z := parse_signed 64.

(** [char::to_digit(16)]. *)
Definition hex_digit (c : ascii) : option Z :=
  if is_ascii_digit c then Some (byte_of c - 48)
  else if (97 <=? byte_of c) && (byte_of c <=? 102) then Some (byte_of c - 87)
  else if (65 <=? byte_of c) && (byte_of c <=? 70) then Some (byte_of c - 55)
  else None.

Fixpoint hex_digits (acc : Z) (s : string) : option Z :=
  match s with
  | EmptyString => Some acc
  | String c s => d ← hex_digit c; hex_digits (16 * acc + d) s
  end.

(** [u32::from_str_radix(s, 16)]: like [parse], it takes a leading [+]. *)
Definition u32_from_hex (s : string) : option Z :=
  let digits := match s with String "+" (String _ _ as s') => s' | _ => s end in
  match digits with
  | EmptyString => None
  | _ => n ← hex_digits 0 digits; if n <? 4294967296 then Some n else None
  end.

(** ** Integer lemmas *)

Lemma wrap_range w z : 0 < w → in_signed w (wrap w z).
Proof.
  intros Hw. unfold in_signed, wrap.
  assert (2 ^ w = 2 * 2 ^ (w - 1)) as E by (rewrite <-Z.pow_succ_r by lia; f_equal; lia).
  assert (0 < 2 ^ (w - 1)) by (apply Z.pow_pos_nonneg; lia).
  pose proof (Z.mod_pos_bound (z + 2 ^ (w - 1)) (2 ^ w)). lia.
Qed.

Lemma wrap_id w z : 0 < w → in_signed w z → wrap w z = z.
Proof.
  intros Hw Hz. unfold in_signed, wrap in *.
  assert (2 ^ w = 2 * 2 ^ (w - 1)) as E by (rewrite <-Z.pow_succ_r by lia; f_equal; lia).
  rewrite Z.mod_small by lia. lia.
Qed.

(** Wrapping changes a value by a multiple of [2 ^ w]. *)
Lemma wrap_mod w z : 0 < w → wrap w z mod 2 ^ w = z mod 2 ^ w.
Proof.
  intros Hw. unfold wrap. rewrite Zminus_mod_idemp_l. f_equal. lia.
Qed.

Lemma fits_signed_spec w z : fits_signed w z = true ↔ in_signed w z.
Proof.
  unfold fits_signed, in_signed. rewrite andb_true_iff, Z.leb_le, Z.ltb_lt. done.
Qed.

Lemma try_signed_Some w z z' : try_signed w z = Some z' ↔ z' = z ∧ in_signed w z.
Proof.
  unfold try_signed. rewrite <-fits_signed_spec. destruct (fits_signed w z); naive_solver.
Qed.

Lemma saturating_add_range a b : i64_ok (saturating_add a b).
Proof. unfold saturating_add, i64_ok, in_signed, i64_MIN, i64_MAX. simpl. lia. Qed.

(** ** Decimal round trip *)

Lemma pretty_N_char_digit n :
  (n < 10)%N → is_ascii_digit (pretty_N_char n) = true ∧ digit_value (pretty_N_char n) = Z.of_N n.
Proof.
  intros Hn.
  assert (n = 0 ∨ n = 1 ∨ n = 2 ∨ n = 3 ∨ n = 4 ∨ n = 5 ∨ n = 6 ∨ n = 7 ∨ n = 8 ∨ n = 9)%N
    as Hcase by lia.
  by destruct_or! Hcase; subst.
Qed.

Lemma pretty_N_go_length n s :
  String.length (pretty_N_go n s) =
  (String.length (pretty_N_go n "") + String.length s)%nat.
Proof.
  revert s. induction (N.lt_wf_0 n) as [n _ IH]; intros s.
  destruct (decide (n = 0)%N) as [->|Hn]; [by rewrite !pretty_N_go_0|].
  rewrite (pretty_N_go_step n s), (pretty_N_go_step n "") by lia.
  assert (n `div` 10 < n)%N as Hlt by (apply N.div_lt; lia).
  rewrite (IH _ Hlt (String _ s)), (IH _ Hlt (String _ "")). simpl. lia.
Qed.

Lemma digits_value_pretty_go n s acc :
  digits_value acc (pretty_N_go n s) =
  digits_value (acc * 10 ^ Z.of_nat (String.length (pretty_N_go n "")) + Z.of_N n) s.
Proof.
  revert s acc. induction (N.lt_wf_0 n) as [n _ IH]; intros s acc.
  destruct (decide (n = 0)%N) as [->|Hn].
  - rewrite !pretty_N_go_0. simpl. f_equal. lia.
  - rewrite (pretty_N_go_step n s), (pretty_N_go_step n "") by lia.
    assert (n `div` 10 < n)%N as Hlt by (apply N.div_lt; lia).
    rewrite IH by done.
    destruct (pretty_N_char_digit (n `mod` 10)%N) as [Hd Hv]; [by apply N.mod_lt|].
    simpl. rewrite Hd, Hv.
    rewrite (pretty_N_go_length _ (String _ "")).
    simpl String.length.
    f_equal. rewrite Nat2Z.inj_add, Z.pow_add_r by lia. simpl (10 ^ Z.of_nat 1).
    pose proof (N.div_mod n 10). lia.
Qed.

Lemma pretty_N_nonempty (n : N) : pretty n ≠ "".
Proof.
  unfold pretty, pretty_N. case_decide; [done|].
  rewrite pretty_N_go_step by lia. intros E.
  assert (∀ m c t, pretty_N_go m (String c t) ≠ "") as Hgo; [|by eapply Hgo].
  clear. intros m. induction (N.lt_wf_0 m) as [m _ IH]; intros c t.
  destruct (decide (m = 0)%N) as [->|Hm]; [by rewrite pretty_N_go_0|].
  rewrite pretty_N_go_step by lia. apply IH, N.div_lt; lia.
Qed.

Lemma unsigned_value_pretty (n : N) : unsigned_value (pretty n) = Some (Z.of_N n).
Proof.
  pose proof (pretty_N_nonempty n) as Hne. unfold unsigned_value.
  destruct (pretty n) as [|c s] eqn:E; [done|]. rewrite <-E. clear Hne E.
  unfold pretty, pretty_N. case_decide; [by subst|].
  rewrite digits_value_pretty_go. done.
Qed.

Lemma pretty_N_head (n : N) c s : pretty n = String c s → is_ascii_digit c = true.
Proof.
  intros E. pose proof (unsigned_value_pretty n) as H. rewrite E in H. simpl in H.
  by destruct (is_ascii_digit c).
Qed.

Lemma signed_value_pretty (z : Z) : signed_value (pretty z) = Some z.
Proof.
  unfold pretty, pretty_Z. destruct z as [|p|p]; [done| |].
  - change (pretty p) with (pretty (N.pos p)).
    pose proof (unsigned_value_pretty (N.pos p)) as H.
    destruct (pretty (N.pos p)) as [|c s] eqn:E; [done|].
    apply pretty_N_head in E. unfold signed_value.
    destruct c as [[] [] [] [] [] [] [] []]; try exact H; done.
  - change (Z.opp <$> unsigned_value (pretty (N.pos p)) = Some (Z.neg p)).
    by rewrite unsigned_value_pretty.
Qed.

(** Printing then parsing a value in range gives it back. *)
Lemma parse_signed_pretty w z : in_signed w z → parse_signed w (pretty z) = Some z.
Proof.
  intros Hz. unfold parse_signed. rewrite signed_value_pretty. simpl.
  by apply try_signed_Some.
Qed.

Lemma parse_signed_range w s z : parse_signed w s = Some z → in_signed w z.
Proof.
  unfold parse_signed. destruct (signed_value s); simpl; [|done].
  by intros [-> ?]%try_signed_Some.
Qed.

#[export] Hint Resolve wrap_range saturating_add_range parse_signed_range : krabka.

(** ** String lemmas *)

Lemma str_app_cons c (a b : string) : String c a +:+ b = String c (a +:+ b).
Proof. done. Qed.

Lemma str_app_nil_l (s : string) : "" +:+ s = s.
Proof. done. Qed.

Lemma str_app_sep c (s : string) : String c "" +:+ s = String c s.
Proof. done. Qed.

Lemma str_app_assoc (a b c : string) : (a +:+ b) +:+ c = a +:+ (b +:+ c).
Proof. induction a as [|x a IH]; [done|]. rewrite !str_app_cons. by rewrite IH. Qed.

Lemma str_app_nil_r (a : string) : a +:+ "" = a.
Proof. induction a as [|x a IH]; [done|]. rewrite !str_app_cons. by rewrite IH. Qed.

Lemma str_length_app (a b : string) :
  String.length (a +:+ b) = (String.length a + String.length b)%nat.
Proof. induction a as [|c a IH]; [done|]. rewrite str_app_cons. cbn. by rewrite IH. Qed.

Lemma all_bytes_app p a b : all_bytes p (a +:+ b) = all_bytes p a && all_bytes p b.
Proof. induction a as [|c a IH]; [done|]. rewrite str_app_cons. cbn. by rewrite IH, andb_assoc. Qed.

Lemma all_bytes_impl (p q : ascii → bool) a :
  (∀ c, p c = true → q c = true) → all_bytes p a = true → all_bytes q a = true.
Proof.
  intros Hpq. induction a as [|x a IH]; cbn; [done|].
  rewrite !andb_true_iff. naive_solver.
Qed.

Lemma contains_byte_app p a b :
  contains_byte p (a +:+ b) = contains_byte p a || contains_byte p b.
Proof. induction a as [|x a IH]; [done|]. rewrite str_app_cons. cbn. by rewrite IH, orb_assoc. Qed.

Lemma contains_byte_none p a : contains_byte p a = negb (all_bytes (λ c, negb (p c)) a).
Proof. induction a as [|x a IH]; cbn; [done|]. rewrite IH. by destruct (p x). Qed.

Lemma digits_value_digits acc a v : digits_value acc a = Some v → all_bytes is_ascii_digit a = true.
Proof.
  revert acc. induction a as [|c a IH]; intros acc; cbn; [done|].
  destruct (is_ascii_digit c); [apply IH|done].
Qed.

(** What a number is written with. *)
Lemma pretty_bytes (z : Z) : all_bytes (λ c, is_ascii_digit c || (c =? "-")%char) (pretty z) = true.
Proof.
  assert (∀ n : N, all_bytes (λ c, is_ascii_digit c || (c =? "-")%char) (pretty n) = true) as Hn.
  { intros n. eapply (all_bytes_impl is_ascii_digit); [by intros c ->|].
    pose proof (unsigned_value_pretty n) as H. unfold unsigned_value in H.
    destruct (pretty n) as [|c s] eqn:E; [by apply pretty_N_nonempty in E|].
    by apply digits_value_digits in H. }
  destruct z as [|p|p]; [done|apply (Hn (N.pos p))|].
  change (all_bytes (λ c, is_ascii_digit c || (c =? "-")%char) ("-" +:+ pretty (N.pos p)) = true).
  rewrite all_bytes_app, Hn. done.
Qed.

Lemma digits_value_app acc a b :
  digits_value acc (a +:+ b) = acc' ← digits_value acc a; digits_value acc' b.
Proof. revert acc. induction a as [|c a IH]; intros acc; [done|]. rewrite str_app_cons. cbn. case_match; [apply IH|done]. Qed.

Lemma split_once_app p a c b :
  all_bytes (λ c, negb (p c)) a = true → p c = true →
  split_once p (a +:+ String c b) = Some (a, b).
Proof.
  intros Ha Hc. induction a as [|x a IH]; [change ("" +:+ ?s) with s; cbn; by rewrite Hc|].
  rewrite str_app_cons. cbn in *.
  apply andb_true_iff in Ha as [Hx%negb_true_iff Ha]. by rewrite Hx, IH.
Qed.

Lemma split_once_none p s : all_bytes (λ c, negb (p c)) s = true → split_once p s = None.
Proof.
  induction s as [|c s IH]; [done|]. cbn. rewrite andb_true_iff, negb_true_iff.
  intros [-> Hs]. by rewrite IH.
Qed.

Lemma split_once_eq p s a b : split_once p s = Some (a, b) → ∃ c, s = a +:+ String c b.
Proof.
  revert a. induction s as [|c s IH]; intros a; cbn; [done|]. destruct (p c).
  - intros [= <- <-]. by exists c.
  - destruct (split_once p s) as [[x y]|]; [|done]. intros [= <- <-].
    destruct (IH x eq_refl) as [d ->]. by exists d.
Qed.

Lemma split_char_nonempty c s : ∃ x xs, split_char c s = x :: xs.
Proof. destruct s; cbn; repeat case_match; eauto. Qed.

Lemma split_char_app sep a b :
  all_bytes (λ c, negb (c =? sep)%char) a = true →
  split_char sep (a +:+ String sep b) = a :: split_char sep b.
Proof.
  intros Ha. induction a as [|x a IH]; [change ("" +:+ ?s) with s; cbn; by rewrite Ascii.eqb_refl|].
  rewrite str_app_cons. cbn in *.
  apply andb_true_iff in Ha as [Hx%negb_true_iff Ha]. by rewrite Hx, IH.
Qed.

Lemma split_char_whole sep a :
  all_bytes (λ c, negb (c =? sep)%char) a = true → split_char sep a = [a].
Proof.
  intros Ha. induction a as [|x a IH]; cbn in *; [done|].
  apply andb_true_iff in Ha as [Hx%negb_true_iff Ha]. by rewrite Hx, IH.
Qed.

Lemma split_char_join sep parts :
  parts ≠ [] → Forall (λ part, all_bytes (λ c, negb (c =? sep)%char) part = true) parts →
  split_char sep (join (String sep "") parts) = parts.
Proof.
  induction parts as [|a [|b parts] IH]; intros Hne Hp; [done|..]; apply Forall_cons in Hp as [Ha Hp].
  - by apply split_char_whole.
  - change (join (String sep "") (a :: b :: parts))
      with (a +:+ String sep (join (String sep "") (b :: parts))).
    rewrite split_char_app by done. f_equal. by apply IH.
Qed.

(** Visible ASCII text has nothing to trim. *)
Definition is_graphic (c : ascii) : bool := (32 <? byte_of c) && (byte_of c <? 127).

Lemma trim_start_graphic c s : is_graphic c = true → trim_start (String c s) = String c s.
Proof.
  intros Hc. unfold trim_start. cbn [String.length trim_start_fuel].
  assert (decode_char (String c s) = Some (byte_of c, s)) as ->.
  { unfold decode_char. unfold is_graphic in Hc. rewrite andb_true_iff, !Z.ltb_lt in Hc.
    destruct (Z.ltb_spec (byte_of c) 128); [done|lia]. }
  assert (is_whitespace (byte_of c) = false) as ->; [|done].
  unfold is_graphic in Hc. rewrite andb_true_iff, !Z.ltb_lt in Hc. unfold is_whitespace.
  rewrite !orb_false_iff, !andb_false_iff, !Z.leb_gt, !Z.eqb_neq. lia.
Qed.

Lemma trim_graphic s : all_bytes is_graphic s = true → trim s = s.
Proof.
  intros Hs. unfold trim.
  assert (trim_start s = s) as ->.
  { destruct s as [|c s]; [done|]. apply andb_true_iff in Hs as [Hc _]. by apply trim_start_graphic. }
  induction s as [|c s IH]; [done|]. apply andb_true_iff in Hs as [Hc Hs]. cbn [trim_end].
  unfold blank. rewrite trim_start_graphic by done. rewrite bool_decide_false by done.
  by rewrite IH.
Qed.

Lemma trim_pretty (z : Z) : trim (pretty z) = pretty z.
Proof.
  apply trim_graphic. eapply all_bytes_impl; [|apply pretty_bytes].
  intros c. by destruct c as [[] [] [] [] [] [] [] []].
Qed.

(** ** UTF-8 round trip *)

Lemma byte_of_byte b : 0 ≤ b < 256 → byte_of (byte b) = b.
Proof. intros Hb. unfold byte_of, byte. rewrite N_ascii_embedding by lia. lia. Qed.

Lemma land_low b n k : 0 ≤ n → b = k → Z.land b (2 ^ n - 1) = k mod 2 ^ n.
Proof. intros Hn ->. rewrite <-Z.land_ones, Z.ones_equiv, Z.sub_1_r by done. done. Qed.

Lemma decode_encode_char c s :
  0 ≤ c < 1114112 → decode_char (encode_char c +:+ s) = Some (c, s).
Proof.
  intros Hc. unfold encode_char.
  assert (∀ x, 0 ≤ x mod 64 < 64) as Hm by (intros; apply Z.mod_pos_bound; lia).
  pose proof (Hm c). pose proof (Hm (c / 64)). pose proof (Hm (c / 4096)). clear Hm.
  assert (c / 64 / 64 = c / 4096) as E2 by (by rewrite Z.div_div by lia).
  assert (c / 4096 / 64 = c / 262144) as E3 by (by rewrite Z.div_div by lia).
  pose proof (Z_div_mod_eq_full c 64). pose proof (Z_div_mod_eq_full (c / 64) 64).
  pose proof (Z_div_mod_eq_full (c / 4096) 64). rewrite E2, E3 in *.
  assert (∀ k, 0 ≤ k < 64 → Z.land (128 + k) 63 = k) as Hland.
  { intros k Hk. rewrite (land_low _ 6 (128 + k)) by lia.
    symmetry. apply (Z.mod_unique_pos _ _ 2); lia. }
  repeat case_match; bool_to_prop; rewrite ?str_app_cons; change ("" +:+ s) with s; cbn -[Z.land];
    rewrite !byte_of_byte by lia.
  - by rewrite (proj2 (Z.ltb_lt _ _)) by lia.
  - rewrite (proj2 (Z.ltb_ge (192 + _) 128)), (proj2 (Z.ltb_ge (192 + _) 192)),
      (proj2 (Z.ltb_lt (192 + _) 224)) by lia.
    rewrite Hland by lia. rewrite (land_low _ 5 (192 + c / 64)) by lia.
    replace ((192 + c / 64) mod 2 ^ 5) with (c / 64) by
      (apply (Z.mod_unique_pos _ _ 6); lia). do 2 f_equal. lia.
  - rewrite (proj2 (Z.ltb_ge (224 + _) 128)), (proj2 (Z.ltb_ge (224 + _) 192)),
      (proj2 (Z.ltb_ge (224 + _) 224)), (proj2 (Z.ltb_lt (224 + _) 240)) by lia.
    rewrite !Hland by lia. rewrite (land_low _ 4 (224 + c / 4096)) by lia.
    replace ((224 + c / 4096) mod 2 ^ 4) with (c / 4096) by
      (apply (Z.mod_unique_pos _ _ 14); lia). do 2 f_equal. lia.
  - rewrite (proj2 (Z.ltb_ge (240 + _) 128)), (proj2 (Z.ltb_ge (240 + _) 192)),
      (proj2 (Z.ltb_ge (240 + _) 224)), (proj2 (Z.ltb_ge (240 + _) 240)) by lia.
    rewrite !Hland by lia. rewrite (land_low _ 3 (240 + c / 262144)) by lia.
    replace ((240 + c / 262144) mod 2 ^ 3) with (c / 262144) by
      (apply (Z.mod_unique_pos _ _ 30); lia). do 2 f_equal. lia.
Qed.

Lemma encode_char_length c : (1 ≤ String.length (encode_char c))%nat.
Proof. unfold encode_char. repeat case_match; cbn; lia. Qed.

Lemma chars_fuel_encode l fuel :
  Forall (λ c, 0 ≤ c < 1114112) l → (String.length (encode_utf8 l) ≤ fuel)%nat →
  chars_fuel fuel (encode_utf8 l) = l.
Proof.
  intros Hl. revert fuel. induction Hl as [|c l Hc _ IH]; intros fuel Hf.
  - by destruct fuel.
  - cbn [encode_utf8 foldr] in *. rewrite str_length_app in Hf. pose proof (encode_char_length c).
    destruct fuel as [|fuel]; [lia|]. cbn. rewrite decode_encode_char by done.
    f_equal. apply IH. fold (encode_utf8 l) in Hf. lia.
Qed.

(** Collecting characters into a [String] and reading them back. *)
Lemma chars_encode l : Forall (λ c, 0 ≤ c < 1114112) l → chars (encode_utf8 l) = l.
Proof. intros Hl. by apply chars_fuel_encode. Qed.

Lemma encode_utf8_inj l k :
  Forall (λ c, 0 ≤ c < 1114112) l → Forall (λ c, 0 ≤ c < 1114112) k →
  encode_utf8 l = encode_utf8 k → l = k.
Proof. intros Hl Hk E. by rewrite <-(chars_encode l), E, chars_encode. Qed.

(** ** Reversal *)

Lemma str_rev_app_spec s acc : str_rev_app s acc = str_rev s +:+ acc.
Proof.
  unfold str_rev. revert acc. induction s as [|c s IH]; intros acc; [done|]. cbn [str_rev_app].
  by rewrite IH, (IH (String c "")), str_app_assoc.
Qed.

Lemma str_rev_cons c s : str_rev (String c s) = str_rev s +:+ String c "".
Proof. unfold str_rev at 1. cbn [str_rev_app]. apply str_rev_app_spec. Qed.

Lemma all_bytes_rev p s : all_bytes p (str_rev s) = all_bytes p s.
Proof.
  induction s as [|c s IH]; [done|]. rewrite str_rev_cons, all_bytes_app, IH. cbn.
  by rewrite andb_true_r, andb_comm.
Qed.

Lemma str_rev_involutive s : str_rev (str_rev s) = s.
Proof.
  assert (∀ a b, str_rev (a +:+ b) = str_rev b +:+ str_rev a) as Happ.
  { induction a as [|c a IH]; intros b; [by rewrite str_app_nil_r|].
    by rewrite str_app_cons, !str_rev_cons, IH, str_app_assoc. }
  induction s as [|c s IH]; [done|]. by rewrite str_rev_cons, Happ, IH.
Qed.

Lemma str_rev_snoc s c : str_rev (s +:+ String c "") = String c (str_rev s).
Proof.
  induction s as [|d s IH]; [done|]. rewrite str_app_cons, !str_rev_cons, IH. by rewrite str_app_cons.
Qed.

Lemma sub_i64_fits checks a b : in_signed 64 (a - b) → sub_i64 checks a b = Done (a - b).
Proof. intros Hin. unfold sub_i64. by rewrite (proj2 (fits_signed_spec 64 (a - b)) Hin). Qed.

(** ** Prefixes, suffixes and last separators *)

Lemma strip_prefix_app p s : strip_prefix p (p +:+ s) = Some s.
Proof.
  induction p as [|c p IH]; [done|]. rewrite str_app_cons. cbn. by rewrite Ascii.eqb_refl.
Qed.

Lemma rsplit_once_app c a b :
  all_bytes (λ d, negb (d =? c)%char) b = true → rsplit_once c (a +:+ String c b) = Some (a, b).
Proof.
  intros Hb. assert (rsplit_once c b = None) as Hn.
  { clear a. induction b as [|d b IH]; [done|]. cbn in *. apply andb_true_iff in Hb as [Hd Hb].
    rewrite IH by done. by apply negb_true_iff in Hd as ->. }
  induction a as [|d a IH]; cbn.
  - change ("" +:+ ?s) with s. cbn. by rewrite Hn, Ascii.eqb_refl.
  - rewrite str_app_cons. cbn. by rewrite IH.
Qed.

Lemma strip_suffix_snoc s c : strip_suffix (String c "") (s +:+ String c "") = Some s.
Proof.
  unfold strip_suffix. rewrite str_rev_snoc. cbn. rewrite Ascii.eqb_refl. cbn. by rewrite str_rev_involutive.
Qed.

Lemma strip_suffix_absent s c :
  all_bytes (λ d, negb (d =? c)%char) s = true → strip_suffix (String c "") s = None.
Proof.
  intros Hs. unfold strip_suffix. rewrite <-all_bytes_rev in Hs. cbn.
  destruct (str_rev s) as [|d s']; [done|]. cbn in *. apply andb_true_iff in Hs as [Hd%negb_true_iff _].
  rewrite Ascii.eqb_sym, Hd. done.
Qed.

Lemma strip_prefix_absent s c :
  all_bytes (λ d, negb (d =? c)%char) s = true → strip_prefix (String c "") s = None.
Proof.
  destruct s as [|d s]; [done|]. cbn. intros [Hd%negb_true_iff _]%andb_true_iff.
  by rewrite Ascii.eqb_sym, Hd.
Qed.

Lemma strip_prefix_Some p s t : strip_prefix p s = Some t → s = p +:+ t.
Proof.
  revert s. induction p as [|c p IH]; intros s; cbn; [by intros [= ->]|].
  destruct s as [|d s]; [done|]. destruct (Ascii.eqb_spec c d) as [->|]; [|done].
  intros ->%IH. by rewrite str_app_cons.
Qed.

Lemma strip_suffix_Some s c t : strip_suffix (String c "") s = Some t → s = t +:+ String c "".
Proof.
  unfold strip_suffix. destruct (strip_prefix (str_rev (String c "")) (str_rev s)) as [u|] eqn:E; [|done].
  intros [= <-]. apply strip_prefix_Some in E. change (str_rev (String c "")) with (String c "") in E.
  rewrite str_app_sep in E. by rewrite <-(str_rev_involutive s), E, str_rev_cons.
Qed.

Lemma rsplit_once_Some c s a b : rsplit_once c s = Some (a, b) → s = a +:+ String c b.
Proof.
  revert a. induction s as [|d s IH]; intros a; [done|]. cbn. destruct (rsplit_once c s) as [[l r]|].
  - intros [= <- ->]. rewrite str_app_cons. f_equal. by apply IH.
  - destruct (Ascii.eqb_spec d c) as [->|]; [|done]. by intros [= <- ->].
Qed.
