(* ===== verification/Properties.v ===== *)
(** [connection.rs], its texts: the reader of [java.util.Properties] files
    behind [--command-config] and the reader of [sasl.jaas.config].

    A [char] is its scalar value; a [String] is its UTF-8 bytes. *)

From Stdlib Require Import Ascii.
From S2P Require Import Prelude Collections Rust.

(** ** Errors *)

Inductive ConfigError :=
  | Malformed (reason : string)
  | Missing (property reason : string)
  | Invalid (property reason : string)
  | Unsupported (property reason : string).

#[export] Instance ConfigError_eq_dec : EqDecision ConfigError.
Proof. solve_decision. Defined.

(** [Display for ConfigError]. *)
Definition config_error_text (e : ConfigError) : string :=
  match e with
  | Malformed reason => "malformed properties file: " +:+ reason
  | Missing property reason => property +:+ " is required: " +:+ reason
  | Invalid property reason => property +:+ " is invalid: " +:+ reason
  | Unsupported property reason => property +:+ " is not supported: " +:+ reason
  end.

(** ** Characters *)

Definition BACKSLASH : Z := 92.
Definition is_newline (c : Z) : bool := (c =? 13) || (c =? 10).
Definition is_blank (c : Z) : bool := (c =? 32) || (c =? 9) || (c =? 12).
(** [=] or [:]. *)
Definition is_separator (c : Z) : bool := (c =? 61) || (c =? 58).
(** [#] or [!]. *)
Definition is_comment_start (c : Z) : bool := (c =? 35) || (c =? 33).

(** ** Logical lines *)

(** The loop of [logical_lines] from the unread [text], with its variables;
    [comment] says that the inner loop over a comment is running. A finished
    line is in the result, before those that the rest gives. *)
Fixpoint logical_lines_from (text line : list Z) (skip_blank continued backslash comment : bool)
    : list (list Z) :=
  match text with
  | [] =>
      if bool_decide (line = []) then []
      else [if backslash then removelast line else line]
  | c :: text =>
      if comment && negb (is_newline c) then
        logical_lines_from text line true continued backslash true
      else if skip_blank && (is_blank c || (negb continued && is_newline c)) then
        logical_lines_from text line true continued backslash false
      else
        let continued := if skip_blank then false else continued in
        if bool_decide (line = []) && is_comment_start c then
          logical_lines_from text line true continued backslash true
        else if negb (is_newline c) then
          logical_lines_from text (line ++ [c]) false continued
            ((c =? BACKSLASH) && negb backslash) false
        else if bool_decide (line = []) then
          logical_lines_from text line true continued backslash false
        else if backslash then
          let line := removelast line in
          match text with
          | d :: text' =>
              if (c =? 13) && (d =? 10) then logical_lines_from text' line true true false false
              else logical_lines_from text line true true false false
          | [] => logical_lines_from text line true true false false
          end
        else line :: logical_lines_from text [] true continued backslash false
  end.

Definition logical_lines (text : list Z) : list (list Z) :=
  logical_lines_from text [] true false false false.

(** ** Keys and values *)

(** The first loop of [split_key_value]: the key, whether [=] or [:] ended it,
    and what is after the character that ended it. *)
Fixpoint split_key (line : list Z) (backslash : bool) : list Z * bool * list Z :=
  match line with
  | [] => ([], false, [])
  | c :: line =>
      if is_separator c && negb backslash then ([], true, line)
      else if is_blank c && negb backslash then ([], false, line)
      else
        let '(key, has_separator, rest) :=
          split_key line ((c =? BACKSLASH) && negb backslash) in
        (c :: key, has_separator, rest)
  end.

(** The second loop: blanks, and one separator where there was none yet. *)
Fixpoint skip_separator (has_separator : bool) (line : list Z) : list Z :=
  match line with
  | [] => []
  | c :: line' =>
      if is_blank c then skip_separator has_separator line'
      else if negb has_separator && is_separator c then skip_separator true line'
      else line
  end.

Definition split_key_value (line : list Z) : list Z * list Z :=
  let '(key, has_separator, rest) := split_key line false in
  (key, skip_separator has_separator rest).

(** ** Escapes *)

(** [\uXXXX] from its four characters. *)
Definition unicode_escape (digits : list Z) : result ConfigError Z :=
  let digits := encode_utf8 digits in
  code ← ok_or (if bool_decide (String.length digits = 4%nat) then u32_from_hex digits else None)
           (Malformed "malformed \uxxxx encoding");
  ok_or (char_from_u32 code) (Malformed ("\u" +:+ digits +:+ " is an unpaired surrogate")).

(** The character that a backslash and [c] stand for, [u] apart. *)
Definition escaped_char (c : Z) : Z :=
  if c =? 116 then 9 else if c =? 110 then 10 else if c =? 114 then 13
  else if c =? 102 then 12 else c.

Fixpoint unescape_chars (raw : list Z) : result ConfigError (list Z) :=
  match raw with
  | [] => Ok []
  | c :: raw =>
      if negb (c =? BACKSLASH) then cons c <$> unescape_chars raw
      else match raw with
      | [] => Ok []
      | e :: raw =>
          if e =? 117 then
            match raw with
            | d1 :: d2 :: d3 :: d4 :: raw =>
                c ← unicode_escape [d1; d2; d3; d4]; cons c <$> unescape_chars raw
            | short => c ← unicode_escape short; Ok [c]
            end
          else cons (escaped_char e) <$> unescape_chars raw
      end
  end.

Definition unescape (raw : list Z) : result ConfigError string :=
  encode_utf8 <$> unescape_chars raw.

(** ** [Properties] *)

(** The map of a file, with its values as they were written. *)
Definition Properties : Type := btree string string.

(** [Properties::parse], from the insertions of the earlier lines on. *)
Fixpoint insert_lines (lines : list (list Z)) (properties : Properties)
    : result ConfigError Properties :=
  match lines with
  | [] => Ok properties
  | line :: lines =>
      let '(key, value) := split_key_value line in
      key ← unescape key; value ← unescape value;
      insert_lines lines (bt_insert key value properties)
  end.

(** Each byte is one character. *)
Definition parse_properties (bytes : list Z) : result ConfigError Properties :=
  insert_lines (logical_lines bytes) [].

Definition prop_get (properties : Properties) (key : string) : option string :=
  trim <$> bt_get key properties.
Definition prop_contains (properties : Properties) (key : string) : bool :=
  bt_contains key properties.
Definition prop_insert (key value : string) (properties : Properties) : Properties :=
  bt_insert key value properties.
Definition prop_entries (properties : Properties) : list (string * string) := properties.

(** [Debug for Properties]: the keys only. *)
Definition debug_keys (properties : Properties) : list string := bt_keys properties.

(** ** JAAS *)

Inductive JaasToken :=
  | Word (value : string)
  | Quoted (value : string)
  | Number
  | Char (c : Z).

#[export] Instance JaasToken_eq_dec : EqDecision JaasToken.
Proof. solve_decision. Defined.

Record JaasEntry := { jaas_module : string; jaas_options : btree string string }.

Definition SASL_JAAS_CONFIG : string := "sasl.jaas.config".

Definition jaas_option (entry : JaasEntry) (key : string) : option string :=
  bt_get key (jaas_options entry).

Definition jaas_required (entry : JaasEntry) (key : string) : result ConfigError string :=
  ok_or (jaas_option entry key)
    (Missing SASL_JAAS_CONFIG (jaas_module entry +:+ " needs the `" +:+ key +:+ "` option")).

Definition sval (token : JaasToken) : option string :=
  match token with Word value | Quoted value => Some value | Number | Char _ => None end.

Definition char_is_alphabetic (c : Z) : bool :=
  ((65 <=? c) && (c <=? 90)) || ((97 <=? c) && (c <=? 122)).
Definition char_is_digit (c : Z) : bool := (48 <=? c) && (c <=? 57).
(** Letters, [-], [_], [$], and everything from U+00A0 on. *)
Definition is_word_start (c : Z) : bool :=
  char_is_alphabetic c || (c =? 45) || (c =? 95) || (c =? 36) || (160 <=? c).
Definition is_word (c : Z) : bool := is_word_start c || char_is_digit c || (c =? 46).
Definition is_number (c : Z) : bool := char_is_digit c || (c =? 46).

(** [while let Some(c) = chars.next_if(p)]: what it takes and what it leaves. *)
Fixpoint next_while (p : Z → bool) (l : list Z) : list Z * list Z :=
  match l with
  | [] => ([], [])
  | c :: l' => if p c then let '(taken, rest) := next_while p l' in (c :: taken, rest) else ([], l)
  end.

(** The loop over a block comment. *)
Fixpoint skip_block (previous : Z) (l : list Z) : list Z :=
  match l with
  | [] => []
  | c :: l => if (previous =? 42) && (c =? 47) then l else skip_block c l
  end.

Definition is_octal (c : Z) : bool := (48 <=? c) && (c <=? 55).

(** The single-character escapes of [StreamTokenizer]. *)
Definition quoted_escape (c : Z) : Z :=
  if c =? 97 then 7 else if c =? 98 then 8 else if c =? 102 then 12 else if c =? 110 then 10
  else if c =? 114 then 13 else if c =? 116 then 9 else if c =? 118 then 11 else c.

Definition char_or_nul (c : Z) : Z := default 0 (char_from_u32 c).

(** [quoted]: the value and what is left unread. *)
Fixpoint quoted (l : list Z) (quote : Z) : list Z * list Z :=
  match l with
  | [] => ([], [])
  | c :: rest =>
      if is_newline c then ([], l)
      else if c =? quote then ([], rest)
      else if negb (c =? BACKSLASH) then
        let '(value, unread) := quoted rest quote in (c :: value, unread)
      else match rest with
      | [] => ([], [])
      | escaped :: rest =>
          if is_octal escaped then
            let code := escaped - 48 in
            match rest with
            | d1 :: rest1 =>
                if is_octal d1 then
                  let code1 := code * 8 + (d1 - 48) in
                  match rest1 with
                  | d2 :: rest2 =>
                      if (escaped <=? 51) && is_octal d2 then
                        let '(value, unread) := quoted rest2 quote in
                        (char_or_nul (code1 * 8 + (d2 - 48)) :: value, unread)
                      else
                        let '(value, unread) := quoted rest1 quote in
                        (char_or_nul code1 :: value, unread)
                  | [] => ([char_or_nul code1], [])
                  end
                else
                  let '(value, unread) := quoted rest quote in (char_or_nul code :: value, unread)
            | [] => ([char_or_nul code], [])
            end
          else
            let '(value, unread) := quoted rest quote in (quoted_escape escaped :: value, unread)
      end
  end.

(** The loop of [jaas_tokens]: each turn reads a character, so the length is
    fuel enough ([jaas_tokens_enough]). *)
Fixpoint jaas_tokens_fuel (fuel : nat) (text : list Z) : list JaasToken :=
  match fuel, text with
  | O, _ | _, [] => []
  | S fuel, c :: rest =>
      if c <=? 32 then jaas_tokens_fuel fuel rest
      else if (c =? 47) && bool_decide (head rest = Some 42) then
        jaas_tokens_fuel fuel (skip_block 0 (tail rest))
      else if (c =? 47) && bool_decide (head rest = Some 47) then
        jaas_tokens_fuel fuel (next_while (λ c, negb (is_newline c)) (tail rest)).2
      else if (c =? 34) || (c =? 39) then
        let '(value, rest) := quoted rest c in
        Quoted (encode_utf8 value) :: jaas_tokens_fuel fuel rest
      else if is_word_start c then
        let '(word, rest) := next_while is_word rest in
        Word (encode_utf8 (c :: word)) :: jaas_tokens_fuel fuel rest
      else if is_number c then
        Number :: jaas_tokens_fuel fuel (next_while is_number rest).2
      else Char c :: jaas_tokens_fuel fuel rest
  end.

Definition jaas_tokens (text : string) : list JaasToken :=
  jaas_tokens_fuel (length (chars text)) (chars text).

Definition jaas_invalid (reason : string) : ConfigError := Invalid SASL_JAAS_CONFIG reason.

(** The loops of [parse_jaas] over the tokens: [entry] is the login module whose
    options are being read. *)
Fixpoint jaas_entries (tokens : list JaasToken) (entry : option JaasEntry)
    : result ConfigError (list JaasEntry) :=
  match entry, tokens with
  | None, [] => Ok []
  | None, token :: tokens =>
      module ← ok_or (sval token) (jaas_invalid "login module not specified");
      match tokens with
      | [] => Err (jaas_invalid "login module control flag not specified")
      | token :: tokens =>
          flag ← ok_or (sval token) (jaas_invalid "login module control flag is not available");
          if bool_decide (to_ascii_lowercase flag ∈ ["required"; "requisite"; "sufficient"; "optional"])
          then jaas_entries tokens (Some {| jaas_module := module; jaas_options := [] |})
          else Err (jaas_invalid ("invalid login module control flag '" +:+ flag +:+ "'"))
      end
  | Some _, [] => Err (jaas_invalid "entry not terminated by semi-colon")
  | Some entry, token :: tokens =>
      if bool_decide (token = Char 59) then cons entry <$> jaas_entries tokens None
      else
        let key := default "" (sval token) in
        let missing := jaas_invalid ("value not specified for key '" +:+ key +:+ "'") in
        match tokens with
        | equals :: value :: tokens =>
            value ← ok_or (if bool_decide (equals = Char 61) then sval value else None) missing;
            jaas_entries tokens
              (Some {| jaas_module := jaas_module entry; jaas_options := bt_insert key value (jaas_options entry) |})
        | _ => Err missing
        end
  end.

Definition parse_jaas (text : string) : result ConfigError JaasEntry :=
  entries ← jaas_entries (jaas_tokens text) None;
  match entries with
  | [entry] => Ok entry
  | _ => Err (jaas_invalid ("holds " +:+ pretty (Z.of_nat (length entries)) +:+
                            " login modules, and a client needs exactly 1"))
  end.

(** ** Cases of the sources' tests *)

(** A text as the bytes of its UTF-8 form, which is how a file holds it. *)
Fixpoint text_bytes (s : string) : list Z :=
  match s with EmptyString => [] | String c s => byte_of c :: text_bytes s end.

Definition LF : string := String (ascii_of_nat 10) "".
Definition CRLF : string := String (ascii_of_nat 13) LF.
Definition parses (text : string) : result ConfigError Properties :=
  parse_properties (text_bytes text).

Example properties_examples :
  parses ("  a =  b c  " +:+ LF) = Ok [("a", "b c  ")] ∧
  parses ("a==b" +:+ LF) = Ok [("a", "=b")] ∧
  parses ("a = :b" +:+ LF) = Ok [("a", ":b")] ∧
  parses ("lonely" +:+ LF) = Ok [("lonely", "")] ∧
  parses ("  ! a=b" +:+ LF +:+ "c=d" +:+ LF) = Ok [("c", "d")] ∧
  parses ("a\:b=c" +:+ LF) = Ok [("a:b", "c")] ∧
  parses ("a=one \" +:+ LF +:+ "    two \" +:+ LF +:+ "  three" +:+ LF) = Ok [("a", "one two three")] ∧
  parses ("a=b\\" +:+ LF +:+ "c=d" +:+ LF) = Ok [("a", "b\"); ("c", "d")] ∧
  parses ("a=b\" +:+ CRLF +:+ "  c" +:+ CRLF +:+ "d=e" +:+ CRLF) = Ok [("a", "bc"); ("d", "e")] ∧
  parses ("a=b\" +:+ LF +:+ "#c" +:+ LF) = Ok [("a", "b#c")] ∧
  parses "a=b\" = Ok [("a", "b")] ∧
  parses ("a=1" +:+ LF +:+ "a=2" +:+ LF) = Ok [("a", "2")] ∧
  parses "a=\u0041\u00e9" = Ok [("a", "Aé")] ∧
  parse_properties (text_bytes "a=caf" ++ [233]) = Ok [("a", "café")].
Proof. vm_compute. done. Qed.

Example malformed_escapes :
  parses "a=\u12" = Err (Malformed "malformed \uxxxx encoding") ∧
  parses "a=\u12zz" = Err (Malformed "malformed \uxxxx encoding") ∧
  parses "a=\ud800" = Err (Malformed "\ud800 is an unpaired surrogate").
Proof. vm_compute. done. Qed.

Example jaas_examples :
  parse_jaas ("x.Module  required" +:+ LF +:+ " useKeyTab = true principal='a/b@EXAMPLE' ;") =
    Ok {| jaas_module := "x.Module";
          jaas_options := [("principal", "a/b@EXAMPLE"); ("useKeyTab", "true")] |} ∧
  parse_jaas "x.Module optional password='two \'words\' \\ \101';" =
    Ok {| jaas_module := "x.Module"; jaas_options := [("password", "two 'words' \ A")] |} ∧
  parse_jaas ("/* a */ x.Module required // b" +:+ LF +:+ " key='v';") =
    Ok {| jaas_module := "x.Module"; jaas_options := [("key", "v")] |} ∧
  parse_jaas "x.Module REQUIRED;" = Ok {| jaas_module := "x.Module"; jaas_options := [] |} ∧
  map (λ text, is_ok (parse_jaas text))
    [""; "x.Module;"; "x.Module sometimes;"; "x.Module required key='v'"; "x.Module required key;";
     "x.Module required key=1;"; "a.Module required; b.Module required;"] = repeat false 7.
Proof. repeat split; vm_compute; reflexivity. Qed.

(** ** A writer of properties files *)

(** What [java.util.Properties.store] writes for a map, as its documentation
    has it: the reader's inverse. *)
Definition hex_char (d : Z) : Z := if d <? 10 then 48 + d else 55 + d.
Definition hex4 (c : Z) : list Z :=
  [hex_char (c / 4096 mod 16); hex_char (c / 256 mod 16); hex_char (c / 16 mod 16);
   hex_char (c mod 16)].

Definition store_char (escape_space : bool) (c : Z) : list Z :=
  if c =? 32 then if escape_space then [BACKSLASH; 32] else [32]
  else if c =? 9 then [BACKSLASH; 116] else if c =? 10 then [BACKSLASH; 110]
  else if c =? 13 then [BACKSLASH; 114] else if c =? 12 then [BACKSLASH; 102]
  else if is_separator c || is_comment_start c || (c =? BACKSLASH) then [BACKSLASH; c]
  else if (c <? 32) || (126 <? c) then BACKSLASH :: 117 :: hex4 c
  else [c].

Definition store_key (key : list Z) : list Z := key ≫= store_char true.
Definition store_value (value : list Z) : list Z :=
  match value with [] => [] | c :: value => store_char true c ++ (value ≫= store_char false) end.
Definition store_line (entry : list Z * list Z) : list Z :=
  store_key entry.1 ++ 61 :: store_value entry.2 ++ [10].
Definition store_properties (entries : list (list Z * list Z)) : list Z := entries ≫= store_line.

(** The characters that an escape can name: those of the basic plane. *)
Definition storable (c : Z) : Prop := is_scalar c = true ∧ c < 65536.

(** *** One stored character, as the loops see it *)

Definition ordinary (c : Z) : Prop :=
  is_newline c = false ∧ is_blank c = false ∧ is_separator c = false ∧ c ≠ BACKSLASH.

Lemma hex_char_ordinary d : 0 ≤ d < 16 → ordinary (hex_char d).
Proof.
  intros Hd. unfold ordinary, hex_char, is_newline, is_blank, is_separator, BACKSLASH.
  repeat case_match; bool_to_prop; repeat split; lia.
Qed.

Lemma hex4_ordinary c : Forall ordinary (hex4 c).
Proof. unfold hex4. repeat (constructor; [apply hex_char_ordinary, Z.mod_pos_bound; lia|]). done. Qed.

(** A stored character is one character that the loops do not look at, or a
    backslash, one more character, and some of the former. *)
Inductive stored (escape_space : bool) : list Z → Prop :=
  | stored_plain c :
      is_newline c = false → is_separator c = false → is_comment_start c = false →
      c ≠ BACKSLASH → (escape_space = true → is_blank c = false) → stored escape_space [c]
  | stored_escape e digits :
      is_newline e = false → Forall ordinary digits →
      stored escape_space (BACKSLASH :: e :: digits).

Lemma store_char_stored b c : stored b (store_char b c).
Proof.
  unfold store_char.
  destruct (c =? 32) eqn:E32; [apply Z.eqb_eq in E32 as ->; by destruct b; constructor|].
  destruct (c =? 9) eqn:E9; [by constructor|]. destruct (c =? 10) eqn:E10; [by constructor|].
  destruct (c =? 13) eqn:E13; [by constructor|]. destruct (c =? 12) eqn:E12; [by constructor|].
  assert (is_newline c = false) as Hn by (unfold is_newline; by rewrite E13, E10).
  assert (is_blank c = false) as Hb by (unfold is_blank; by rewrite E32, E9, E12).
  destruct (is_separator c || is_comment_start c || (c =? BACKSLASH)) eqn:Ee; [by constructor|].
  bool_to_prop.
  case_match; [constructor; [done|]; apply hex4_ordinary|].
  by constructor.
Qed.

Lemma split_key_ordinary digits l :
  Forall ordinary digits →
  split_key (digits ++ l) false =
    let '(key, has_separator, rest) := split_key l false in (digits ++ key, has_separator, rest).
Proof.
  induction 1 as [|d digits (_ & Hb & Hs & Hd) _ IH]; [cbn; by destruct (split_key l false) as [[]]|].
  apply Z.eqb_neq in Hd. cbn. rewrite Hb, Hs, Hd. cbn. rewrite IH.
  by destruct (split_key l false) as [[]].
Qed.

Lemma split_key_stored u l :
  stored true u →
  split_key (u ++ l) false =
    let '(key, has_separator, rest) := split_key l false in (u ++ key, has_separator, rest).
Proof.
  intros [c _ Hs _ Hc Hb|e digits _ Hd].
  - cbn. rewrite Hs, (Hb eq_refl). apply Z.eqb_neq in Hc. by rewrite Hc.
  - cbn. rewrite !andb_false_r. rewrite split_key_ordinary by done.
    by destruct (split_key l false) as [[]].
Qed.

Lemma logical_lines_ordinary digits text line continued :
  Forall ordinary digits → line ≠ [] →
  logical_lines_from (digits ++ text) line false continued false false =
  logical_lines_from text (line ++ digits) false continued false false.
Proof.
  intros Hd. revert line. induction Hd as [|d digits (Hn & _ & _ & Hd) _ IH]; intros line Hline.
  - by rewrite app_nil_r.
  - cbn. rewrite bool_decide_false, Hn by done. apply Z.eqb_neq in Hd. rewrite Hd. simpl.
    rewrite IH by (by destruct line). by rewrite <-app_assoc.
Qed.

Lemma logical_lines_stored b skip u text line :
  stored b u → (skip = true → b = true) →
  logical_lines_from (u ++ text) line skip false false false =
  logical_lines_from text (line ++ u) false false false false.
Proof.
  intros Hu Hskip. destruct Hu as [c Hn Hs Hc Hd Hb|e digits Hn Hd].
  - cbn. rewrite Hn, Hc, andb_false_r. apply Z.eqb_neq in Hd. rewrite Hd. simpl.
    destruct skip; [|done]. simpl. by rewrite Hb by auto.
  - assert (∀ k, logical_lines_from ((e :: digits) ++ text) (line ++ [BACKSLASH]) false k true false =
      logical_lines_from text (line ++ BACKSLASH :: e :: digits) false k false false) as H.
    { intros k. cbn. rewrite bool_decide_false, Hn by (by destruct line). cbn.
      rewrite andb_false_r, logical_lines_ordinary by (done || by destruct line).
      by rewrite <-!app_assoc. }
    rewrite <-H. destruct skip; cbn; by rewrite (andb_false_r (bool_decide (line = []))).  
Qed.

(** *** Reading a stored file back *)

Lemma hex_char_value d :
  0 ≤ d < 16 →
  encode_char (hex_char d) = String (byte (hex_char d)) "" ∧
  hex_digit (byte (hex_char d)) = Some d ∧ byte (hex_char d) ≠ "+"%char.
Proof.
  intros Hd. assert (d ∈ seqZ 0 16) as H by (apply elem_of_seqZ; lia).
  cbv in H. set_unfold. by destruct_or! H; subst.
Qed.

(** Sixteen times the higher digits, plus the last one. *)
Lemma hex4_value c :
  0 ≤ c < 65536 →
  16 * (16 * (16 * (16 * 0 + c / 4096 mod 16) + c / 256 mod 16) + c / 16 mod 16) + c mod 16 = c.
Proof.
  intros Hc.
  assert (c / 16 / 16 = c / 256) as E2 by (by rewrite Z.div_div by lia).
  assert (c / 256 / 16 = c / 4096) as E3 by (by rewrite Z.div_div by lia).
  pose proof (Z_div_mod_eq_full c 16). pose proof (Z_div_mod_eq_full (c / 16) 16).
  pose proof (Z_div_mod_eq_full (c / 256) 16).
  assert (c / 4096 mod 16 = c / 4096) as E4.
  { apply Z.mod_small. split; [apply Z.div_pos; lia|]. apply Z.div_lt_upper_bound; lia. }
  lia.
Qed.

Lemma unicode_escape_hex4 c : storable c → unicode_escape (hex4 c) = Ok c.
Proof.
  intros [Hc Hmax]. assert (0 ≤ c) as Hmin by (unfold is_scalar in Hc; lia).
  assert (∀ x, 0 ≤ x mod 16 < 16) as Hm by (intros; apply Z.mod_pos_bound; lia).
  unfold unicode_escape, hex4, encode_utf8. cbn [foldr].
  rewrite !(proj1 (hex_char_value _ (Hm _))), !str_app_cons. cbn [String.length bool_decide].
  rewrite bool_decide_true by done. unfold u32_from_hex.
  destruct (hex_char_value _ (Hm (c / 4096))) as (_ & H1 & Hplus).
  destruct (hex_char_value _ (Hm (c / 256))) as (_ & H2 & _).
  destruct (hex_char_value _ (Hm (c / 16))) as (_ & H3 & _).
  destruct (hex_char_value _ (Hm c)) as (_ & H4 & _).
  assert (∀ a t, a ≠ "+"%char → match String a t with String "+" (String _ _ as s') => s' | _ =>
    String a t end = String a t) as Hmatch.
  { intros [[] [] [] [] [] [] [] []] t Ha; try done. }
  rewrite Hmatch by done. cbn [hex_digits].
  rewrite H1. cbn [mbind option_bind].
  rewrite !str_app_nil_l. cbn [hex_digits]. rewrite H2, H3, H4. cbn [mbind option_bind].
  rewrite hex4_value by lia. rewrite (proj2 (Z.ltb_lt c 4294967296)) by lia. cbn.
  unfold char_from_u32. by rewrite Hc.
Qed.

Lemma unescape_stored b c raw :
  storable c → unescape_chars (store_char b c ++ raw) = cons c <$> unescape_chars raw.
Proof.
  intros Hc. unfold store_char.
  destruct (c =? 32) eqn:E32; [apply Z.eqb_eq in E32 as ->; by destruct b|].
  destruct (c =? 9) eqn:E9; [by apply Z.eqb_eq in E9 as ->|].
  destruct (c =? 10) eqn:E10; [by apply Z.eqb_eq in E10 as ->|].
  destruct (c =? 13) eqn:E13; [by apply Z.eqb_eq in E13 as ->|].
  destruct (c =? 12) eqn:E12; [by apply Z.eqb_eq in E12 as ->|].
  destruct (is_separator c || is_comment_start c || (c =? BACKSLASH)) eqn:Ee.
  - assert (c ∈ [61; 58; 35; 33; 92]) as Hin.
    { unfold is_separator, is_comment_start, BACKSLASH in Ee. set_unfold. lia. }
    clear -Hin. set_unfold. by destruct_or! Hin; subst.
  - bool_to_prop. case_match.
    + change (unescape_chars ((BACKSLASH :: 117 :: hex4 c) ++ raw)) with
        (c ← unicode_escape (hex4 c); cons c <$> unescape_chars raw).
      by rewrite unicode_escape_hex4.
    + cbn. by rewrite (proj2 (Z.eqb_neq c BACKSLASH)).
Qed.

Lemma unescape_stored_all b l :
  Forall storable l → unescape_chars (l ≫= store_char b) = Ok l.
Proof.
  induction 1 as [|c l Hc _ IH]; [done|].
  by rewrite bind_cons, unescape_stored, IH.
Qed.

Lemma unescape_key key : Forall storable key → unescape (store_key key) = Ok (encode_utf8 key).
Proof. intros Hk. unfold unescape, store_key. by rewrite unescape_stored_all. Qed.

Lemma unescape_value value :
  Forall storable value → unescape (store_value value) = Ok (encode_utf8 value).
Proof.
  intros Hv. unfold unescape, store_value. destruct Hv as [|c value Hc Hv]; [done|].
  rewrite unescape_stored by done. by rewrite unescape_stored_all.
Qed.

Lemma split_key_store_key key l :
  split_key (store_key key ++ 61 :: l) false = (store_key key, true, l).
Proof.
  induction key as [|c key IH]; [done|]. unfold store_key in *.
  rewrite bind_cons, <-app_assoc, split_key_stored by apply store_char_stored. by rewrite IH.
Qed.

Lemma skip_separator_value value : skip_separator true (store_value value) = store_value value.
Proof.
  destruct value as [|c value]; [done|]. cbn [store_value].
  destruct (store_char_stored true c) as [d _ _ _ _ Hb|]; [|done]. cbn. by rewrite Hb.
Qed.

Lemma split_store_line key value :
  split_key_value (store_key key ++ 61 :: store_value value) = (store_key key, store_value value).
Proof. unfold split_key_value. by rewrite split_key_store_key, skip_separator_value. Qed.

Lemma logical_lines_store_all b skip l text line :
  (skip = true → b = true ∧ l ≠ []) →
  logical_lines_from ((l ≫= store_char b) ++ text) line skip false false false =
  logical_lines_from text (line ++ (l ≫= store_char b)) false false false false.
Proof.
  revert skip line. induction l as [|c l IH]; intros skip line Hs.
  - cbn. destruct skip; [destruct (Hs eq_refl) as [_ []]; done|]. by rewrite app_nil_r.
  - rewrite bind_cons, <-app_assoc, (logical_lines_stored b)
      by (try apply store_char_stored; naive_solver).
    rewrite IH by done. by rewrite <-app_assoc.
Qed.

Lemma logical_lines_store_line entry text :
  logical_lines (store_line entry ++ text) =
    (store_key entry.1 ++ 61 :: store_value entry.2) :: logical_lines text.
Proof.
  destruct entry as [key value]. unfold logical_lines, store_line. cbn [fst snd].
  rewrite <-app_assoc. cbn [app]. rewrite <-app_assoc.
  transitivity (logical_lines_from (61 :: store_value value ++ [10] ++ text) (store_key key)
    (bool_decide (key = [])) false false false).
  { destruct key as [|c key]; [done|]. unfold store_key.
    rewrite logical_lines_store_all by done. by rewrite bool_decide_false. }
  transitivity (logical_lines_from (store_value value ++ [10] ++ text) (store_key key ++ [61])
    false false false false).
  { destruct (bool_decide (key = [])); cbn; by rewrite andb_false_r. }
  transitivity (logical_lines_from ([10] ++ text) ((store_key key ++ [61]) ++ store_value value)
    false false false false).
  { destruct value as [|c value]; cbn [store_value]; [by rewrite app_nil_r|].
    rewrite <-app_assoc, (logical_lines_stored true) by (try apply store_char_stored; done).
    rewrite logical_lines_store_all by done. by rewrite <-!app_assoc. }
  rewrite <-app_assoc. cbn [app]. cbn [logical_lines_from].
  cbn. rewrite bool_decide_false by (by destruct (store_key key)). done.
Qed.

Lemma insert_lines_stored entries text properties :
  Forall (λ entry, Forall storable entry.1 ∧ Forall storable entry.2) entries →
  insert_lines (logical_lines (store_properties entries ++ text)) properties =
  insert_lines (logical_lines text)
    (fold_left (λ m kv, bt_insert kv.1 kv.2 m)
      (map (λ entry, (encode_utf8 entry.1, encode_utf8 entry.2)) entries) properties).
Proof.
  intros H. revert properties. induction H as [|[key value] entries [Hk Hv] _ IH]; intros m; [done|].
  unfold store_properties. rewrite bind_cons, <-app_assoc, logical_lines_store_line.
  cbn [insert_lines fst snd map fold_left] in *. rewrite split_store_line.
  rewrite unescape_key, unescape_value by done. cbn [mbind result_bind]. apply IH.
Qed.

(** A map that [java.util.Properties.store] writes, [Properties::parse]
    reads back: each key and value, whatever blanks, separators, comment
    characters, line ends, backslashes and characters of the basic plane they
    hold, and a later entry replaces an earlier one with its key. *)
Theorem properties_round_trip (entries : list (list Z * list Z)) :
  Forall (λ entry, Forall storable entry.1 ∧ Forall storable entry.2) entries →
  parse_properties (store_properties entries) =
    Ok (bt_collect (map (λ entry, (encode_utf8 entry.1, encode_utf8 entry.2)) entries)).
Proof.
  intros H. unfold parse_properties. pose proof (insert_lines_stored entries [] [] H) as E.
  rewrite app_nil_r in E. exact E.
Qed.

Lemma properties_round_trip_witness :
  let entries := [([32; 61; 35], [9; 32; 92; 233; 8364]); ([], [58])] in
  parse_properties (store_properties entries) =
    Ok (bt_collect (map (λ entry, (encode_utf8 entry.1, encode_utf8 entry.2)) entries)).
Proof. apply properties_round_trip. repeat constructor. Defined.

(** ** The tokenizer has fuel enough *)

Lemma next_while_length p l : (length (next_while p l).2 ≤ length l)%nat.
Proof.
  induction l as [|c l IH]; cbn; [done|]. destruct (p c); [|done].
  destruct (next_while p l) as [t r]. cbn in *. lia.
Qed.

Lemma skip_block_length previous l : (length (skip_block previous l) ≤ length l)%nat.
Proof.
  revert previous. induction l as [|c l IH]; intros previous; cbn; [done|].
  case_match; [lia|]. specialize (IH c). lia.
Qed.

Lemma quoted_length n l quote : (length l ≤ n)%nat → (length (quoted l quote).2 ≤ length l)%nat.
Proof.
  revert l. induction n as [|n IH]; intros [|c l] Hn; cbn in *; try lia.
  assert (∀ k v u, quoted k quote = (v, u) → (length k ≤ n)%nat → (length u ≤ length k)%nat) as H.
  { intros k v u E Hk. specialize (IH k Hk). by rewrite E in IH. }
  repeat (case_match; subst; cbn [fst snd length] in *; try lia);
    match goal with E : quoted _ _ = _ |- _ => apply H in E; cbn [length] in *; lia end.
Qed.

(** More fuel than characters changes nothing: the loop ends. *)
Lemma jaas_tokens_enough fuel text :
  (length text ≤ fuel)%nat → jaas_tokens_fuel fuel text = jaas_tokens_fuel (length text) text.
Proof.
  revert text. induction fuel as [fuel IH] using lt_wf_ind. intros [|c rest] Hf; [by destruct fuel|].
  destruct fuel as [|fuel]; cbn in Hf; [lia|].
  assert (∀ k, (length k ≤ length rest)%nat →
    jaas_tokens_fuel fuel k = jaas_tokens_fuel (length rest) k) as Hk.
  { intros k Hk. rewrite (IH fuel), (IH (length rest)); [done|lia..]. }
  pose proof (skip_block_length 0 (tail rest)).
  pose proof (next_while_length (λ c, negb (is_newline c)) (tail rest)).
  pose proof (next_while_length is_word rest). pose proof (next_while_length is_number rest).
  pose proof (quoted_length _ rest c (Nat.le_refl _)).
  assert (length (tail rest) ≤ length rest)%nat by (destruct rest; cbn; lia).
  cbn -[encode_utf8]. destruct (quoted rest c), (next_while is_word rest). cbn [fst snd] in *.
  repeat case_match; rewrite ?Hk by lia; done.
Qed.

(** ** A writer of login modules *)

Definition quote_char (c : Z) : list Z :=
  if (c =? 34) || (c =? BACKSLASH) then [BACKSLASH; c]
  else if c =? 10 then [BACKSLASH; 110] else if c =? 13 then [BACKSLASH; 114] else [c].

(** [key="value"], after a space. *)
Definition print_option (option : list Z * list Z) : list Z :=
  32 :: option.1 ++ 61 :: 34 :: (option.2 ≫= quote_char) ++ [34].

(** [module required key="value" ...;] *)
Definition print_jaas (module : list Z) (options : list (list Z * list Z)) : list Z :=
  module ++ 32 :: text_bytes "required" ++ (options ≫= print_option) ++ [59].

Definition word (l : list Z) : Prop :=
  match l with [] => False | c :: l => is_word_start c = true ∧ Forall (λ c, is_word c = true) l end.

Definition scalars (l : list Z) : Prop := Forall (λ c, is_scalar c = true) l.

(** [text] has the tokens [tokens], with any fuel from its length on. *)
Definition tokenizes (text : list Z) (tokens : list JaasToken) : Prop :=
  ∀ fuel, (length text ≤ fuel)%nat → jaas_tokens_fuel fuel text = tokens.

Lemma next_while_app p w rest :
  Forall (λ c, p c = true) w → (∀ c, head rest = Some c → p c = false) →
  next_while p (w ++ rest) = (w, rest).
Proof.
  intros Hw Hrest. induction Hw as [|c w Hc _ IH]; cbn.
  - destruct rest as [|d rest]; [done|]. cbn. by rewrite (Hrest d).
  - by rewrite Hc, IH.
Qed.

Lemma tokenizes_blank c text tokens : c <= 32 → tokenizes text tokens → tokenizes (c :: text) tokens.
Proof.
  intros Hc Ht [|fuel] Hf; cbn in *; [lia|]. rewrite (proj2 (Z.leb_le c 32)) by lia. apply Ht. lia.
Qed.

Lemma word_start_class c :
  is_word_start c = true →
  (c <=? 32) = false ∧ (c =? 47) = false ∧ (c =? 34) = false ∧ (c =? 39) = false.
Proof. unfold is_word_start, char_is_alphabetic. lia. Qed.

Lemma tokenizes_word w rest tokens :
  word w → (∀ c, head rest = Some c → is_word c = false) → tokenizes rest tokens →
  tokenizes (w ++ rest) (Word (encode_utf8 w) :: tokens).
Proof.
  destruct w as [|c w]; [done|]. intros [Hc Hw] Hrest Ht [|fuel] Hf; cbn in Hf; [lia|].
  destruct (word_start_class c Hc) as (H1 & H2 & H3 & H4).
  cbn -[encode_utf8]. rewrite H1, H2, H3, H4, Hc. cbn -[encode_utf8].
  rewrite next_while_app by done. f_equal. apply Ht. rewrite length_app in Hf. lia.
Qed.

Lemma quoted_printed value rest :
  quoted ((value ≫= quote_char) ++ 34 :: rest) 34 = (value, rest).
Proof.
  induction value as [|c value IH]; [done|]. rewrite bind_cons, <-app_assoc. unfold quote_char at 1.
  destruct (c =? 34) eqn:E34; [apply Z.eqb_eq in E34 as ->; cbn; by rewrite IH|].
  destruct (c =? BACKSLASH) eqn:E92; [apply Z.eqb_eq in E92 as ->; cbn; by rewrite IH|].
  destruct (c =? 10) eqn:E10; [apply Z.eqb_eq in E10 as ->; cbn; by rewrite IH|].
  destruct (c =? 13) eqn:E13; [apply Z.eqb_eq in E13 as ->; cbn; by rewrite IH|].
  cbn. unfold is_newline. rewrite E13, E10, E34, E92. cbn. by rewrite IH.
Qed.

Lemma tokenizes_value value rest tokens :
  tokenizes rest tokens →
  tokenizes (61 :: 34 :: (value ≫= quote_char) ++ 34 :: rest)
    (Char 61 :: Quoted (encode_utf8 value) :: tokens).
Proof.
  intros Ht [|[|fuel]] Hf; cbn in Hf; [lia..|]. cbn -[encode_utf8].
  rewrite quoted_printed. do 2 f_equal. apply Ht. rewrite length_app in Hf. cbn in Hf. lia.
Qed.

(** The tokens of an option. *)
Definition option_tokens (option : list Z * list Z) : list JaasToken :=
  [Word (encode_utf8 option.1); Char 61; Quoted (encode_utf8 option.2)].

Lemma tokenizes_option option rest tokens :
  word option.1 → tokenizes rest tokens →
  tokenizes (print_option option ++ rest) (option_tokens option ++ tokens).
Proof.
  intros Hw Ht. unfold print_option, option_tokens. cbn [app].
  rewrite <-app_assoc. cbn [app]. rewrite <-app_assoc. cbn [app].
  apply tokenizes_blank; [done|]. apply tokenizes_word; [done|by intros ? [= <-]|].
  by apply tokenizes_value.
Qed.

Lemma tokenizes_options options :
  Forall (λ option, word option.1) options →
  tokenizes ((options ≫= print_option) ++ [59]) ((options ≫= option_tokens) ++ [Char 59]).
Proof.
  induction 1 as [|option options Hw _ IH].
  - intros [|fuel] Hf; cbn in *; [lia|]. by destruct fuel.
  - rewrite !bind_cons, <-!app_assoc. by apply tokenizes_option.
Qed.

Lemma jaas_entries_options entry options :
  jaas_entries ((options ≫= option_tokens) ++ [Char 59]) (Some entry) =
  Ok [{| jaas_module := jaas_module entry;
         jaas_options := fold_left (λ m kv, bt_insert kv.1 kv.2 m)
           (map (λ option, (encode_utf8 option.1, encode_utf8 option.2)) options)
           (jaas_options entry) |}].
Proof.
  revert entry. induction options as [|[key value] options IH]; intros entry; [by destruct entry|].
  rewrite bind_cons, <-app_assoc. cbn -[encode_utf8].
  rewrite bool_decide_false, bool_decide_true by done. cbn -[encode_utf8]. by rewrite IH.
Qed.

Lemma scalars_bounded l : scalars l → Forall (λ c, 0 ≤ c < 1114112) l.
Proof. intros Hl. eapply Forall_impl; [exact Hl|]. unfold is_scalar. lia. Qed.

Lemma scalars_app l k : scalars (l ++ k) ↔ scalars l ∧ scalars k.
Proof. apply Forall_app. Qed.

Lemma scalars_bind {A} (f : A → list Z) l : (∀ x, x ∈ l → scalars (f x)) → scalars (l ≫= f).
Proof.
  induction l as [|x l IH]; intros Hl; [constructor|]. rewrite bind_cons, scalars_app.
  split; [apply Hl; left|apply IH; intros y Hy; apply Hl; by right].
Qed.

Lemma scalars_quoted value : scalars value → scalars (value ≫= quote_char).
Proof.
  intros Hv. apply scalars_bind. intros c Hc. apply Forall_forall with (x := c) in Hv; [|done].
  unfold quote_char. repeat case_match; repeat constructor; done.
Qed.

Lemma scalars_option option :
  scalars option.1 → scalars option.2 → scalars (print_option option).
Proof.
  intros Hk Hv. constructor; [done|]. apply scalars_app. split; [done|].
  do 2 (constructor; [done|]). apply scalars_app. split; [by apply scalars_quoted|by constructor].
Qed.

(** A login module that is written as one entry, with its options as quoted
    strings, [parse_jaas] reads back: the module, and every option with its
    value, whatever quotes, backslashes and line ends the value holds. *)
Theorem jaas_round_trip (module : list Z) (options : list (list Z * list Z)) :
  word module → scalars module →
  Forall (λ option, word option.1 ∧ scalars option.1 ∧ scalars option.2) options →
  parse_jaas (encode_utf8 (print_jaas module options)) =
    Ok {| jaas_module := encode_utf8 module;
          jaas_options := bt_collect
            (map (λ option, (encode_utf8 option.1, encode_utf8 option.2)) options) |}.
Proof.
  intros Hm Hs Ho. unfold parse_jaas, jaas_tokens.
  rewrite chars_encode.
  2:{ apply scalars_bounded, scalars_app. split; [done|]. constructor; [done|].
      apply scalars_app. split; [repeat constructor|]. apply scalars_app.
      split; [|by repeat constructor]. apply scalars_bind. intros option Hin.
      rewrite Forall_forall in Ho. destruct (Ho _ Hin) as (_ & ? & ?). by apply scalars_option. }
  assert (tokenizes (print_jaas module options) (Word (encode_utf8 module) :: Word "required" ::
    (options ≫= option_tokens) ++ [Char 59])) as Ht.
  { apply tokenizes_word; [done|by intros ? [= <-]|]. apply tokenizes_blank; [done|].
    apply (tokenizes_word (text_bytes "required")); [by repeat constructor| |].
    - intros c. by destruct options; intros [= <-].
    - apply tokenizes_options. eapply Forall_impl; [exact Ho|]. naive_solver. }
  rewrite (Ht _ (Nat.le_refl _)). cbn -[encode_utf8 bt_collect].
  by rewrite jaas_entries_options.
Qed.

Lemma jaas_round_trip_witness :
  parse_jaas (encode_utf8 (print_jaas (text_bytes "x.Module")
      [(text_bytes "password", [34; 92; 10; 8364]); (text_bytes "user", [])])) =
    Ok {| jaas_module := encode_utf8 (text_bytes "x.Module");
          jaas_options := bt_collect
            (map (λ option, (encode_utf8 option.1, encode_utf8 option.2))
              [(text_bytes "password", [34; 92; 10; 8364]); (text_bytes "user", [])]) |}.
Proof. apply jaas_round_trip; repeat constructor. Defined.

(** ** Where the reader differs from the JVM's *)

(** A digit string with a sign is read as an escape, though the documentation
    of [parse] refuses a malformed one; and a pair of escapes that the JVM
    reads as one character of a higher plane is refused as unpaired. *)
Theorem escape_divergences :
  parse_properties (text_bytes "a=\u+041") = Ok [("a", "A")] ∧
  parse_properties (text_bytes "a=\uD83D\uDE00") =
    Err (Malformed "\uD83D is an unpaired surrogate").
Proof. vm_compute. done. Qed.
