(* ===== verification/Jvm.v ===== *)
(** [src/crates/krabka-cli/src/jvm.rs]: Java's hash codes, the iteration order
    of a [java.util.HashMap], and [Integer.parseInt]. The main result is that
    the simulated table, with all its resizes, orders the keys exactly as one
    stable sort on the bins of the final table does. *)

From Stdlib Require Import Ascii String.
From S2P Require Import Prelude Collections Rust.

#[local] Open Scope Z_scope.

(** ** Data and operations *)

Definition MAXIMUM_CAPACITY : Z := Z.shiftl 1 30.
Definition TREEIFY_THRESHOLD : nat := 8.
Definition MIN_TREEIFY_CAPACITY : Z := 64.

Definition string_hash (value : string) : Z :=
  fold_left (λ hash unit, wrap_i32 (wrap_i32 (hash * 31) + unit)) (encode_utf16 value) 0.

Definition integer_hash (value : Z) : Z := value.

Definition topic_partition_hash (topic : string) (partition : Z) : Z :=
  wrap_i32 (wrap_i32 (31 * wrap_i32 (31 + partition)) + string_hash topic).

(** How the table was built. *)
Inductive Table : Type :=
  | Default
  | WithCapacity (initial : Z)
  | Copy
  | HashSetCopy.

(** [usize::next_power_of_two] of a positive number. *)
Definition next_power_of_two (n : Z) : Z := 2 ^ Z.log2_up n.

Definition table_size_for (wanted : Z) : Z :=
  Z.min (next_power_of_two (Z.max wanted 1)) MAXIMUM_CAPACITY.

(** [(entries * 4).div_ceil(3)]. *)
Definition capacity_for (entries : Z) : Z := (entries * 4 + 2) / 3.

Definition initial_capacity (table : Table) (entries : Z) : Z :=
  match table with
  | Default => 16
  | WithCapacity initial => table_size_for initial
  | Copy => table_size_for (capacity_for entries)
  | HashSetCopy => table_size_for (capacity_for (Z.max entries 12))
  end.

(** [hash.cast_unsigned()] folded as [HashMap.hash] folds it. *)
Definition spread (hash : Z) : Z :=
  let hash := hash mod 2 ^ 32 in Z.lxor hash (Z.shiftr hash 16).

(** The bin of a spread hash in a table of [capacity] bins. *)
Definition bin_of (capacity spread : Z) : nat := Z.to_nat (Z.land spread (capacity - 1)).

(** [bins[bin].push(index)]. *)
Definition push_bin (bin index : nat) (bins : list (list nat)) : list (list nat) :=
  alter (λ entries, entries ++ [index]) bin bins.

(** The closure [resize] of [hash_order]. *)
Definition resize (spreads : list Z) (bins : list (list nat)) (capacity : Z) : list (list nat) :=
  fold_left (λ resized index, push_bin (bin_of capacity (spreads !!! index)) index resized)
    (concat bins) (replicate (Z.to_nat capacity) []).

(** [capacity / 4 * 3 + capacity % 4 * 3 / 4]. *)
Definition load_threshold (capacity : Z) : Z :=
  capacity / 4 * 3 + capacity mod 4 * 3 / 4.

(** One iteration of the insertion loop of [hash_order], on the pair of the
    capacity and the bins. *)
Definition insert_key (spreads : list Z) (table : Z * list (list nat)) (entry : nat * Z)
    : Z * list (list nat) :=
  let '(capacity, bins) := table in
  let '(index, spread) := entry in
  let bin := bin_of capacity spread in
  let bins := push_bin bin index bins in
  let '(capacity, bins) :=
    if (TREEIFY_THRESHOLD <? length (bins !!! bin))%nat && (capacity <? MIN_TREEIFY_CAPACITY)
    then (capacity * 2, resize spreads bins (capacity * 2))
    else (capacity, bins) in
  if (load_threshold capacity <? Z.of_nat index + 1) && (capacity <? MAXIMUM_CAPACITY)
  then (capacity * 2, resize spreads bins (capacity * 2))
  else (capacity, bins).

(** [bins.flatten().filter_map(|index| slots[index].take())]. *)
Fixpoint take_slots {T} (slots : list (option T)) (order : list nat) : list T :=
  match order with
  | [] => []
  | index :: order =>
      match slots !! index with
      | Some (Some key) => key :: take_slots (<[index := None]> slots) order
      | _ => take_slots slots order
      end
  end.

(** The table after the whole insertion loop. *)
Definition filled_table {T} (keys : list T) (table : Table) (hash : T → Z)
    : Z * list (list nat) :=
  let spreads := map (λ key, spread (hash key)) keys in
  let capacity := initial_capacity table (Z.of_nat (length keys)) in
  fold_left (insert_key spreads) (imap pair spreads)
    (capacity, replicate (Z.to_nat capacity) []).

Definition hash_order {T} (keys : list T) (table : Table) (hash : T → Z) : list T :=
  take_slots (map Some keys) (concat (filled_table keys table hash).2).

Definition order_in_table {T} (keys : list T) (capacity : Z) (hash : T → Z) : list T :=
  sort_by_key (λ key, bin_of capacity (spread (hash key))) keys.

(** The [while] loop of [default_capacity]. Each turn doubles the capacity, so
    15 turns reach the maximum from 16. *)
Fixpoint grow_capacity (fuel : nat) (entries capacity : Z) : Z :=
  match fuel with
  | O => capacity
  | S fuel =>
      if (capacity / 4 * 3 <? entries) && (capacity <? MAXIMUM_CAPACITY)
      then grow_capacity fuel entries (capacity * 2) else capacity
  end.
Definition default_capacity (entries : Z) : Z := grow_capacity 30 entries 16.

(** The first occurrence of each value, in order. *)
Definition unique_values {T} `{EqDecision T} (values : list T) : list T :=
  fold_left (λ unique value, if decide (value ∈ unique) then unique else unique ++ [value])
    values [].

(** The values found again, each occurrence that an earlier one precedes. *)
Definition repeated_values {T} `{EqDecision T} (values : list T) : list T :=
  omap (λ '(index, value), if bool_decide (value ∈ take index values) then Some value else None)
    (imap pair values).

Definition hash_set_order {T} `{EqDecision T} (values : list T) (hash : T → Z) : list T :=
  hash_order (unique_values values) Default hash.

Definition collection_to_string {T} (display : T → string) (values : list T) : string :=
  "[" +:+ join ", " (map display values) +:+ "]".

Definition quote : string := String (ascii_of_nat 34) "".

Definition parse_int_error (value : string) : string :=
  "For input string: " +:+ quote +:+ value +:+ quote.

Definition parse_int (value : string) : result string Z :=
  let digits :=
    match value with
    | String c rest => if (c =? "-")%char || (c =? "+")%char then rest else value
    | EmptyString => value
    end in
  if bool_decide (digits = "") || negb (all_bytes is_ascii_digit digits)
  then Err (parse_int_error value)
  else ok_or (parse_i32 value) (parse_int_error value).

(** ** Concrete values, from the JDK and from the sources' own tests *)

Example string_hash_orders : string_hash "orders" = -1008770331.
Proof. reflexivity. Qed.
Example string_hash_ete :
  string_hash (String "195" (String "169" (String "t" (String "195" (String "169" ""))))) = 227742.
Proof. reflexivity. Qed.
Example topic_partition_hash_orders_7 : topic_partition_hash "orders" 7 = -1008769153.
Proof. reflexivity. Qed.
Example hash_order_treeify :
  hash_order [0; 16; 32; 48; 64; 80; 96; 112; 128] Default integer_hash
  = [0; 32; 64; 96; 128; 16; 48; 80; 112].
Proof. reflexivity. Qed.
Example hash_order_copy : hash_order [8; 4; 0; 1] Copy integer_hash = [8; 0; 1; 4].
Proof. reflexivity. Qed.
Example hash_order_quotas :
  hash_order ["consumer_byte_rate"; "producer_byte_rate"; "request_percentage";
              "controller_mutation_rate"] (WithCapacity 4) string_hash
  = ["producer_byte_rate"; "consumer_byte_rate"; "controller_mutation_rate";
     "request_percentage"].
Proof. reflexivity. Qed.

(** ** Capacities *)

(** Every table has a power of two bins, at most [MAXIMUM_CAPACITY]. *)
Definition capacity_ok (capacity : Z) : Prop :=
  ∃ k, 0 ≤ k ≤ 30 ∧ capacity = 2 ^ k.

Lemma MAXIMUM_CAPACITY_eq : MAXIMUM_CAPACITY = 2 ^ 30.
Proof. reflexivity. Qed.

Lemma capacity_ok_pos c : capacity_ok c → 1 ≤ c ≤ MAXIMUM_CAPACITY.
Proof.
  intros (k & Hk & ->). rewrite MAXIMUM_CAPACITY_eq. split.
  - assert (0 < 2 ^ k) by (apply Z.pow_pos_nonneg; lia). lia.
  - apply Z.pow_le_mono_r; lia.
Qed.

Lemma capacity_ok_double c : capacity_ok c → c < MAXIMUM_CAPACITY → capacity_ok (c * 2).
Proof.
  intros (k & Hk & ->). rewrite MAXIMUM_CAPACITY_eq. intros Hlt.
  apply Z.pow_lt_mono_r_iff in Hlt; [|lia..].
  exists (k + 1). split; [lia|]. rewrite Z.pow_add_r by lia. lia.
Qed.

Lemma table_size_for_ok w : capacity_ok (table_size_for w).
Proof.
  unfold table_size_for, next_power_of_two. rewrite MAXIMUM_CAPACITY_eq.
  pose proof (Z.log2_up_nonneg (Z.max w 1)).
  destruct (Z.le_gt_cases (Z.log2_up (Z.max w 1)) 30) as [Hle|Hgt].
  - exists (Z.log2_up (Z.max w 1)). split; [lia|].
    apply Z.min_l, Z.pow_le_mono_r; lia.
  - exists 30. split; [lia|]. apply Z.min_r, Z.pow_le_mono_r; lia.
Qed.

Lemma initial_capacity_ok t n : capacity_ok (initial_capacity t n).
Proof.
  destruct t; simpl; try apply table_size_for_ok. exists 4. split; [lia|done].
Qed.

(** The threshold grows by at least one when the table doubles. *)
Lemma load_threshold_double c :
  1 ≤ c → load_threshold c + 1 ≤ load_threshold (c * 2).
Proof.
  intros Hc. unfold load_threshold. Z.div_mod_to_equations. lia.
Qed.

(** ** Bins *)

Lemma bin_of_mod c s : capacity_ok c → bin_of c s = Z.to_nat (s mod c).
Proof.
  intros (k & Hk & ->). unfold bin_of.
  rewrite Z.sub_1_r, <-Z.ones_equiv. by rewrite Z.land_ones by lia.
Qed.

Lemma bin_of_lt c s : capacity_ok c → (bin_of c s < Z.to_nat c)%nat.
Proof.
  intros Hc. rewrite bin_of_mod by done. apply capacity_ok_pos in Hc.
  pose proof (Z.mod_pos_bound s c). lia.
Qed.

(** Doubling refines the bins: the bin of the smaller table is the bin of the
    larger one modulo the smaller capacity. *)
Lemma bin_of_double c s :
  capacity_ok c → capacity_ok (c * 2) →
  bin_of c s = (bin_of (c * 2) s `mod` Z.to_nat c)%nat.
Proof.
  intros Hc Hc2. rewrite !bin_of_mod by done. apply capacity_ok_pos in Hc.
  pose proof (Z.mod_pos_bound s (c * 2)).
  rewrite <-Z2Nat.inj_mod by lia. f_equal.
  rewrite (Z.rem_mul_r s c 2) by lia.
  by rewrite (Z.mul_comm c), Z_mod_plus_full, Z.mod_mod by lia.
Qed.

(** The bins of the keys [l] under the bin function [key]. *)
Definition binned (key : nat → nat) (n : nat) (l : list nat) : list (list nat) :=
  map (λ b, filter (λ i, key i = b) l) (seq 0 n).

Lemma concat_binned key n l : concat (binned key n l) = buckets key 0 n l.
Proof. done. Qed.

Lemma binned_nil key n : binned key n [] = replicate n [].
Proof.
  unfold binned. generalize 0%nat. induction n as [|n IH]; intros s; simpl; [done|].
  by rewrite IH.
Qed.

Lemma lookup_binned key n l b :
  (b < n)%nat → binned key n l !! b = Some (filter (λ i, key i = b) l).
Proof.
  intros Hb. unfold binned. rewrite list_lookup_fmap, lookup_seq_lt by done. done.
Qed.

Lemma length_binned key n l : length (binned key n l) = n.
Proof. unfold binned. by rewrite length_map, length_seq. Qed.

Lemma push_binned key n l i :
  (key i < n)%nat → push_bin (key i) i (binned key n l) = binned key n (l ++ [i]).
Proof.
  intros Hi. unfold push_bin. apply list_eq_same_length with n;
    [by rewrite length_binned|by rewrite length_alter, length_binned|].
  intros b x y Hb Hx Hy. rewrite lookup_binned in Hy by done.
  rewrite filter_app, filter_cons, filter_nil in Hy.
  destruct (decide (key i = b)) as [<-|Hne].
  - rewrite list_lookup_alter_eq, lookup_binned in Hx by done. naive_solver.
  - rewrite list_lookup_alter_ne, lookup_binned in Hx by done.
    rewrite app_nil_r in Hy. congruence.
Qed.

Lemma push_all_binned key n order l :
  (∀ i, (key i < n)%nat) →
  fold_left (λ bins i, push_bin (key i) i bins) order (binned key n l) =
  binned key n (l ++ order).
Proof.
  intros Hkey. revert l. induction order as [|i order IH]; intros l; simpl.
  - by rewrite app_nil_r.
  - rewrite push_binned, IH by done. by rewrite <-app_assoc.
Qed.

(** Filtering the concatenated buckets of a coarser key by a finer one is
    filtering the list itself. *)
Lemma filter_buckets (key key' g : nat → nat) s n l b :
  (∀ i, key i = g (key' i)) → (s ≤ g b < s + n)%nat →
  filter (λ i, key' i = b) (buckets key s n l) = filter (λ i, key' i = b) l.
Proof.
  intros Hg. revert s. induction n as [|n IH]; intros s Hs; [lia|].
  change (buckets key s (S n) l) with (filter (λ i, key i = s) l ++ buckets key (S s) n l).
  rewrite filter_app. destruct (decide (g b = s)) as [Hb|Hb].
  - rewrite list_filter_filter_l by (intros i <-; by rewrite Hg).
    rewrite (filter_none _ (buckets _ _ _ _)); [by rewrite app_nil_r|].
    intros i [Hi _]%buckets_ge Hib. rewrite Hg, Hib in Hi. lia.
  - rewrite filter_none; [simpl; apply IH; lia|].
    intros i [Hi _]%list_elem_of_filter Hib. rewrite Hg, Hib in Hi. done.
Qed.

Lemma rebinned (key key' g : nat → nat) n n' l :
  (∀ i, key i = g (key' i)) → (∀ b, (b < n')%nat → (g b < n)%nat) →
  binned key' n' (buckets key 0 n l) = binned key' n' l.
Proof.
  intros Hg Hlt. unfold binned. apply map_ext_in. intros b [_ Hb]%in_seq.
  apply (filter_buckets _ _ g); [done|]. specialize (Hlt b). lia.
Qed.

(** The bin of the key at an index of the table. *)
Definition index_bin (spreads : list Z) (capacity : Z) (index : nat) : nat :=
  bin_of capacity (spreads !!! index).

(** The table that holds the first [n] keys, at some valid capacity: each bin
    holds its keys in insertion order. *)
Definition table_of (spreads : list Z) (n : nat) (table : Z * list (list nat)) : Prop :=
  capacity_ok table.1 ∧
  table.2 = binned (index_bin spreads table.1) (Z.to_nat table.1) (seq 0 n).

Lemma resize_table spreads n c bins :
  table_of spreads n (c, bins) → c < MAXIMUM_CAPACITY →
  table_of spreads n (c * 2, resize spreads bins (c * 2)).
Proof.
  intros [Hc Hbins] Hlt. simpl in *. pose proof (capacity_ok_double c Hc Hlt) as Hc2.
  split; simpl; [done|]. unfold resize. rewrite Hbins, concat_binned.
  rewrite <-(binned_nil (index_bin spreads (c * 2))).
  rewrite (push_all_binned (index_bin spreads (c * 2))) by (intros; by apply bin_of_lt).
  simpl. apply (rebinned _ _ (λ b, b `mod` Z.to_nat c)%nat).
  - intros i. by apply bin_of_double.
  - intros b _. apply capacity_ok_pos in Hc. apply Nat.mod_upper_bound. lia.
Qed.

Lemma MIN_TREEIFY_lt c : c < MIN_TREEIFY_CAPACITY → c < MAXIMUM_CAPACITY.
Proof. rewrite MAXIMUM_CAPACITY_eq. unfold MIN_TREEIFY_CAPACITY. lia. Qed.

Lemma insert_key_table spreads n table s :
  spreads !! n = Some s → table_of spreads n table →
  table_of spreads (S n) (insert_key spreads table (n, s)).
Proof.
  destruct table as [c bins]. intros Hs [Hc Hbins]. simpl in *.
  assert (bin_of c s = index_bin spreads c n) as Hbin.
  { unfold index_bin. by rewrite (list_lookup_total_correct _ _ _ Hs). }
  assert (table_of spreads (S n) (c, push_bin (bin_of c s) n bins)) as Hpush.
  { split; cbn [fst snd]; [done|]. rewrite Hbin, Hbins, push_binned by (by apply bin_of_lt).
    by rewrite seq_S. }
  unfold insert_key.
  set (t1 := if _ && (c <? MIN_TREEIFY_CAPACITY) then _ else _).
  assert (table_of spreads (S n) t1) as Ht1.
  { subst t1. case_match; [|done]. bool_to_prop.
    apply resize_table; [done|]. by apply MIN_TREEIFY_lt. }
  clearbody t1. destruct t1 as [c1 bins1].
  case_match; [|done]. bool_to_prop. by apply resize_table.
Qed.

Lemma fill_table spreads pre table :
  pre `prefix_of` spreads → table_of spreads 0 table →
  table_of spreads (length pre) (fold_left (insert_key spreads) (imap pair pre) table).
Proof.
  intros Hpre Ht. induction pre as [|s pre IH] using rev_ind; simpl; [done|].
  rewrite imap_app, fold_left_app, length_app. simpl. rewrite Nat.add_1_r.
  destruct Hpre as [post ->].
  replace (length pre + 0)%nat with (length pre) by lia.
  apply insert_key_table.
  - rewrite <-app_assoc. simpl. by rewrite lookup_app_r, Nat.sub_diag.
  - apply IH. rewrite <-app_assoc. by eexists.
Qed.

Lemma filled_table_spec {T} (keys : list T) table hash :
  table_of (map (λ key, spread (hash key)) keys) (length keys) (filled_table keys table hash).
Proof.
  unfold filled_table. set (spreads := map _ keys).
  replace (length keys) with (length spreads) at 1 by apply length_map.
  apply fill_table; [done|]. split; simpl; [apply initial_capacity_ok|].
  by rewrite binned_nil.
Qed.

(** ** From indexes back to keys *)

Lemma take_slots_omap {T} (slots : list (option T)) order :
  NoDup order → take_slots slots order = omap (λ i, slots !! i ≫= id) order.
Proof.
  intros Hnd. revert slots. induction Hnd as [|i order Hi _ IH]; intros slots; simpl; [done|].
  assert (∀ slots' : list (option T), (∀ j, j ∈ order → slots' !! j = slots !! j) →
    omap (λ j, slots' !! j ≫= id) order = omap (λ j, slots !! j ≫= id) order) as Hext.
  { intros slots' Heq. apply omap_ext_in. intros j Hj. by rewrite Heq. }
  destruct (slots !! i) as [[key|]|] eqn:Ei; simpl; rewrite IH; [|done..].
  f_equal. apply Hext. intros j Hj. rewrite list_lookup_insert_ne; [done|]. by intros ->.
Qed.

Lemma omap_filter_seq {T} (keys : list T) (P : nat → Prop) (Q : T → Prop)
    `{∀ i, Decision (P i), ∀ k, Decision (Q k)} :
  (∀ i k, keys !! i = Some k → P i ↔ Q k) →
  omap (λ i, keys !! i) (filter P (seq 0 (length keys))) = filter Q keys.
Proof.
  induction keys as [|k keys IH] using rev_ind; intros HPQ; [done|].
  rewrite length_app. simpl. rewrite Nat.add_1_r, seq_S, !filter_app, omap_app. simpl.
  rewrite <-IH by (intros i x Hi; apply HPQ; by apply lookup_app_l_Some). f_equal.
  - apply omap_ext_in. intros i [_ Hi%list_elem_of_In%in_seq]%list_elem_of_filter.
    rewrite lookup_app_l; [done|lia].
  - assert ((keys ++ [k]) !! length keys = Some k) as Hk
      by (by rewrite lookup_app_r, Nat.sub_diag).
    rewrite !filter_cons, !filter_nil. specialize (HPQ _ _ Hk).
    repeat case_decide; simpl; rewrite ?Hk; naive_solver.
Qed.

Lemma omap_buckets {T} (keys : list T) (key : nat → nat) (key' : T → nat) s n :
  (∀ i k, keys !! i = Some k → key i = key' k) →
  omap (λ i, keys !! i) (buckets key s n (seq 0 (length keys))) = buckets key' s n keys.
Proof.
  intros Hkey. revert s. induction n as [|n IH]; intros s; [done|].
  change (buckets key s (S n) ?l) with (filter (λ i, key i = s) l ++ buckets key (S s) n l).
  change (buckets key' s (S n) ?l) with (filter (λ i, key' i = s) l ++ buckets key' (S s) n l).
  rewrite omap_app, IH. f_equal. apply omap_filter_seq.
  intros i k Hi. by rewrite (Hkey _ _ Hi).
Qed.

Lemma buckets_NoDup {A} (key : A → nat) n (l : list A) :
  Forall (λ x, (key x < n)%nat) l → NoDup l → NoDup (buckets key 0 n l).
Proof.
  intros Hl Hnd. rewrite <-sort_by_key_buckets by done.
  unfold sort_by_key. by rewrite sort_by_perm.
Qed.

(** The iteration order in closed form. *)
Lemma hash_order_sorted {T} (keys : list T) table hash :
  hash_order keys table hash = order_in_table keys (filled_table keys table hash).1 hash.
Proof.
  unfold hash_order, order_in_table.
  destruct (filled_table_spec keys table hash) as [Hc Hbins].
  set (c := (filled_table keys table hash).1) in *. rewrite Hbins, concat_binned.
  assert (∀ i, (index_bin (map (λ key, spread (hash key)) keys) c i < Z.to_nat c)%nat)
    as Hlt by (intros; by apply bin_of_lt).
  rewrite (sort_by_key_buckets _ (Z.to_nat c)) by
    (apply Forall_forall; intros; by apply bin_of_lt).
  rewrite take_slots_omap by
    (apply buckets_NoDup; [apply Forall_forall; auto|apply NoDup_seq]).
  rewrite <-(omap_buckets keys (index_bin (map (λ key, spread (hash key)) keys) c)).
  - apply omap_ext_in. intros i _.
    rewrite list_lookup_fmap. by destruct (keys !! i).
  - intros i k Hi. unfold index_bin. f_equal.
    apply list_lookup_total_correct. by rewrite list_lookup_fmap, Hi.
Qed.

Lemma hash_order_perm {T} (keys : list T) table hash : hash_order keys table hash ≡ₚ keys.
Proof. rewrite hash_order_sorted. apply sort_by_perm. Qed.

Lemma elem_of_hash_order {T} (keys : list T) table hash x :
  x ∈ hash_order keys table hash ↔ x ∈ keys.
Proof. by rewrite hash_order_perm. Qed.

(** ** The load factor *)

Definition load_ok (n : nat) (capacity : Z) : Prop :=
  Z.of_nat n ≤ load_threshold capacity ∨ capacity = MAXIMUM_CAPACITY.

Lemma load_ok_double n c : 1 ≤ c → load_ok n c → c < MAXIMUM_CAPACITY → load_ok (S n) (c * 2).
Proof. intros Hc [Hn|Hn] Hlt; [|lia]. left. apply load_threshold_double in Hc. lia. Qed.

Lemma insert_key_load spreads n table s :
  spreads !! n = Some s → table_of spreads n table → load_ok n table.1 →
  load_ok (S n) (insert_key spreads table (n, s)).1.
Proof.
  destruct table as [c bins]. intros Hs [Hc _] Hload. simpl in Hc, Hload.
  pose proof (capacity_ok_pos c Hc). unfold insert_key.
  set (t1 := if _ && (c <? MIN_TREEIFY_CAPACITY) then _ else _).
  assert (t1.1 = c ∨ t1.1 = c * 2 ∧ c < MAXIMUM_CAPACITY) as Ht1.
  { subst t1. case_match; simpl; [right|by left]. bool_to_prop.
    split; [done|by apply MIN_TREEIFY_lt]. }
  clearbody t1. destruct t1 as [c1 bins1]; simpl in Ht1.
  assert (load_ok n c1 ∧ 1 ≤ c1 ≤ MAXIMUM_CAPACITY) as [Hl1 Hc1].
  { destruct Ht1 as [Ht1|[Ht1 Hlt]]; subst c1; [done|].
    split; [|apply capacity_ok_pos; by apply capacity_ok_double].
    pose proof (load_ok_double n c ltac:(lia) Hload Hlt) as [Hl|Hl]; [left; lia|by right]. }
  destruct (_ && _) eqn:Eload; simpl; [bool_to_prop; apply load_ok_double; lia || done|].
  apply andb_false_iff in Eload as [Eload|Eload]; bool_to_prop; [left; lia|right; lia].
Qed.

Lemma fill_table_load spreads pre table :
  pre `prefix_of` spreads → table_of spreads 0 table →
  load_ok (length pre) (fold_left (insert_key spreads) (imap pair pre) table).1.
Proof.
  intros Hpre Ht. induction pre as [|s pre IH] using rev_ind; simpl.
  - left. destruct Ht as [Hc%capacity_ok_pos _]. unfold load_threshold.
    Z.div_mod_to_equations. lia.
  - rewrite imap_app, fold_left_app, length_app. simpl. rewrite Nat.add_1_r.
    destruct Hpre as [post ->]. replace (length pre + 0)%nat with (length pre) by lia.
    assert (pre `prefix_of` (pre ++ [s]) ++ post) as Hp by (rewrite <-app_assoc; by eexists).
    apply insert_key_load; [|by apply fill_table|by apply IH].
    rewrite <-app_assoc. simpl. by rewrite lookup_app_r, Nat.sub_diag.
Qed.

(** ** [default_capacity] *)

Lemma grow_capacity_succ f n c :
  1 ≤ c → MAXIMUM_CAPACITY ≤ c * 2 ^ Z.of_nat f → c mod 4 = 0 →
  grow_capacity f (n + 1) c =
    let d := grow_capacity f n c in
    if (d / 4 * 3 <? n + 1) && (d <? MAXIMUM_CAPACITY) then d * 2 else d.
Proof.
  revert c. induction f as [|f IH]; intros c Hc Hmax H4; cbn [grow_capacity].
  - rewrite (proj2 (Z.ltb_ge c _)) by lia. by rewrite andb_false_r.
  - assert (MAXIMUM_CAPACITY ≤ c * 2 * 2 ^ Z.of_nat f) as Hmax2.
    { rewrite Nat2Z.inj_succ, Z.pow_succ_r in Hmax by lia. lia. }
    destruct (Z.ltb_spec c MAXIMUM_CAPACITY) as [Hlt|Hge]; rewrite ?andb_false_r, ?andb_true_r;
      cbn zeta.
    + destruct (Z.ltb_spec (c / 4 * 3) n) as [Hn|Hn].
      * rewrite (proj2 (Z.ltb_lt _ (n + 1))) by lia. apply IH; [lia|done|].
        Z.div_mod_to_equations; lia.
      * destruct (Z.ltb_spec (c / 4 * 3) (n + 1)) as [Hn1|Hn1]; simpl.
        -- rewrite (proj2 (Z.ltb_lt _ _)) by done. simpl.
           destruct f as [|f]; [done|]. cbn [grow_capacity].
           rewrite (proj2 (Z.ltb_ge (c * 2 / 4 * 3) _)); [done|].
           Z.div_mod_to_equations. lia.
        -- done.
    + rewrite (proj2 (Z.ltb_ge c _)) by done. by rewrite andb_false_r.
Qed.

(** No bin of a 16- or 32-bin table holds more than eight keys, so no bin is
    ever treeified into a resize. *)
Definition spread_out {T} (keys : list T) (hash : T → Z) : Prop :=
  ∀ c b, c = 16 ∨ c = 32 →
    (length (filter (λ k, bin_of c (spread (hash k)) = b) keys) ≤ TREEIFY_THRESHOLD)%nat.

Lemma default_capacity_succ n :
  default_capacity (n + 1) =
    let d := default_capacity n in
    if (d / 4 * 3 <? n + 1) && (d <? MAXIMUM_CAPACITY) then d * 2 else d.
Proof. apply grow_capacity_succ; [lia|by vm_compute|done]. Qed.

(** Capacities that a default table goes through. *)
Definition default_shape (c : Z) : Prop := c = 16 ∨ c = 32 ∨ (64 ≤ c ∧ c mod 4 = 0).

Lemma default_capacity_shape n : default_shape (default_capacity (Z.of_nat n)).
Proof.
  induction n as [|n IH]; [by left|].
  rewrite Nat2Z.inj_succ, <-Z.add_1_r, default_capacity_succ. cbn zeta.
  destruct (_ && _); [|done]. unfold default_shape in *.
  destruct IH as [->|[->|[]]]; [by right; left| |].
  - right. right. split; [lia|done].
  - right. right. split; [lia|]. Z.div_mod_to_equations. lia.
Qed.

Lemma load_threshold_default c : c mod 4 = 0 → load_threshold c = c / 4 * 3.
Proof. unfold load_threshold. intros ->. apply Z.add_0_r. Qed.

Lemma insert_key_default spreads n c bins s :
  table_of spreads n (c, bins) → spreads !! n = Some s → default_shape c →
  (∀ b, c = 16 ∨ c = 32 →
     (length (filter (λ i, index_bin spreads c i = b) (seq 0 (S n))) ≤ TREEIFY_THRESHOLD)%nat) →
  (insert_key spreads (c, bins) (n, s)).1 =
    if (c / 4 * 3 <? Z.of_nat n + 1) && (c <? MAXIMUM_CAPACITY) then c * 2 else c.
Proof.
  intros [Hc Hbins] Hs Hshape Hfew. simpl in Hc, Hbins. unfold insert_key.
  assert (c mod 4 = 0) as H4 by (destruct Hshape as [->|[->|[]]]; done).
  destruct (_ && (c <? MIN_TREEIFY_CAPACITY)) eqn:Etree.
  - exfalso. bool_to_prop. unfold MIN_TREEIFY_CAPACITY in *.
    assert (c = 16 ∨ c = 32) as Hc' by (unfold default_shape in Hshape; lia).
    match goal with H : (_ <? _)%nat = true |- _ => apply Nat.ltb_lt in H; revert H end.
    assert (bin_of c s = index_bin spreads c n) as ->.
    { unfold index_bin. by rewrite (list_lookup_total_correct _ _ _ Hs). }
    assert (index_bin spreads c n < Z.to_nat c)%nat as Hbin by (by apply bin_of_lt).
    rewrite Hbins, push_binned, <-seq_S by done.
    rewrite (list_lookup_total_correct _ _ _ (lookup_binned _ _ _ _ Hbin)).
    specialize (Hfew (index_bin spreads c n) Hc'). lia.
  - cbv beta iota zeta. rewrite load_threshold_default by done. by destruct (_ && (c <? MAXIMUM_CAPACITY)).
Qed.

Lemma length_omap_lookup {T} (keys : list T) (l : list nat) :
  (∀ i, i ∈ l → (i < length keys)%nat) → length (omap (λ i, keys !! i) l) = length l.
Proof.
  induction l as [|i l IH]; intros Hl; simpl; [done|].
  destruct (lookup_lt_is_Some_2 keys i) as [k Hk]; [apply Hl; left|].
  rewrite Hk. simpl. f_equal. apply IH. intros j Hj. apply Hl. by right.
Qed.

(** Filtering the indexes of a prefix of the table keeps fewer keys than
    filtering all the keys. *)
Lemma index_filter_le {T} (keys : list T) hash c b n :
  (n ≤ length keys)%nat →
  (length (filter (λ i, index_bin (map (λ k, spread (hash k)) keys) c i = b) (seq 0 n)) ≤
   length (filter (λ k, bin_of c (spread (hash k)) = b) keys))%nat.
Proof.
  intros Hn. set (P := λ i, index_bin (map (λ k, spread (hash k)) keys) c i = b).
  rewrite <-(omap_filter_seq keys P (λ k, bin_of c (spread (hash k)) = b)).
  - replace (length keys) with (n + (length keys - n))%nat by lia.
    rewrite seq_app, filter_app, omap_app, length_app, length_omap_lookup; [lia|].
    intros i [_ Hi%list_elem_of_In%in_seq]%list_elem_of_filter. lia.
  - intros i k Hi. unfold P, index_bin.
    rewrite (list_lookup_total_correct _ _ (spread (hash k))); [done|].
    by rewrite list_lookup_fmap, Hi.
Qed.

Lemma filled_table_default {T} (keys : list T) hash pre :
  spread_out keys hash → pre `prefix_of` map (λ k, spread (hash k)) keys →
  (fold_left (insert_key (map (λ k, spread (hash k)) keys)) (imap pair pre)
     (16, replicate (Z.to_nat 16) [])).1 = default_capacity (Z.of_nat (length pre)).
Proof.
  intros Hout. set (spreads := map _ keys). induction pre as [|s pre IH] using rev_ind; [done|].
  intros Hpre. assert (pre `prefix_of` spreads) as Hp.
  { etrans; [|exact Hpre]. by eexists. }
  assert (table_of spreads (length pre)
    (fold_left (insert_key spreads) (imap pair pre) (16, replicate (Z.to_nat 16) []))) as Ht.
  { apply fill_table; [done|]. split; cbn [fst snd]; [exists 4; split; [lia|done]|].
    by rewrite binned_nil. }
  specialize (IH Hp). rewrite imap_app, fold_left_app. simpl.
  replace (length pre + 0)%nat with (length pre) by lia.
  destruct (fold_left _ _ _) as [c bins]. simpl in IH. subst c.
  rewrite length_app, Nat.add_1_r, Nat2Z.inj_succ, <-Z.add_1_r, default_capacity_succ.
  assert (length (pre ++ [s]) ≤ length keys)%nat as Hlen.
  { apply prefix_length in Hpre. subst spreads. by rewrite length_map in Hpre. }
  rewrite length_app, Nat.add_1_r in Hlen.
  rewrite insert_key_default; [done|done| |apply default_capacity_shape|].
  - destruct Hpre as [post ->]. rewrite <-app_assoc. simpl.
    by rewrite lookup_app_r, Nat.sub_diag.
  - intros b Hb. etrans; [by apply index_filter_le|]. by apply Hout.
Qed.

(** ** Sets and numbers *)

Lemma repeated_values_nil {T} `{EqDecision T} (values : list T) :
  repeated_values values = [] ↔ NoDup values.
Proof.
  unfold repeated_values. rewrite NoDup_alt. split.
  - intros Hnil i j x Hi Hj. destruct (decide (i = j)) as [|Hne]; [done|]. exfalso.
    assert (∃ a b, (a < b)%nat ∧ values !! a = Some x ∧ values !! b = Some x)
      as (a & b & Hab & Ha & Hb).
    { destruct (decide (i < j)%nat); [by exists i, j|]. exists j, i. split; [lia|done]. }
    assert (x ∈ omap (λ '(index, value),
      if bool_decide (value ∈ take index values) then Some value else None)
      (imap pair values)) as Hx; [|rewrite Hnil in Hx; set_solver].
    apply list_elem_of_omap. exists (b, x). split.
    + apply list_elem_of_lookup. exists b. rewrite list_lookup_imap, Hb. done.
    + rewrite bool_decide_true; [done|]. apply list_elem_of_lookup. exists a.
      by rewrite lookup_take_lt.
  - intros Hnd.
    destruct (omap _ _) as [|y l] eqn:E; [done|]. exfalso.
    assert (y ∈ omap (λ '(index, value),
      if bool_decide (value ∈ take index values) then Some value else None)
      (imap pair values)) as Hy by (rewrite E; left).
    apply list_elem_of_omap in Hy as ([i x] & Hin & Hif).
    apply list_elem_of_lookup in Hin as [k Hk]. rewrite list_lookup_imap in Hk.
    destruct (values !! k) as [z|] eqn:Hz; simplify_eq/=. case_bool_decide as Ht; [|done].
    simplify_eq. apply list_elem_of_lookup in Ht as [j Hj].
    apply lookup_take_Some in Hj as [Hj Hlt]. specialize (Hnd _ _ _ Hz Hj). lia.
Qed.

Lemma unique_values_from {T} `{EqDecision T} (values acc : list T) :
  NoDup acc →
  let u := fold_left (λ u v, if decide (v ∈ u) then u else u ++ [v]) values acc in
  NoDup u ∧ ∀ x, x ∈ u ↔ x ∈ acc ∨ x ∈ values.
Proof.
  revert acc. induction values as [|v values IH]; intros acc Hacc; simpl; [set_solver|].
  case_decide as Hv.
  - destruct (IH acc Hacc) as [Hnd Hin]. split; [done|]. set_solver.
  - destruct (IH (acc ++ [v])) as [Hnd Hin].
    + apply NoDup_app. split; [done|]. split; [set_solver|apply NoDup_singleton].
    + split; [done|]. set_solver.
Qed.

Lemma hash_set_order_NoDup {T} `{EqDecision T} (values : list T) (hash : T → Z) :
  NoDup (hash_set_order values hash).
Proof.
  unfold hash_set_order, unique_values. rewrite hash_order_perm.
  apply (unique_values_from values [] (NoDup_nil_2 (A:=T))).
Qed.

Lemma elem_of_hash_set_order {T} `{EqDecision T} (values : list T) (hash : T → Z) x :
  x ∈ hash_set_order values hash ↔ x ∈ values.
Proof.
  unfold hash_set_order, unique_values. rewrite elem_of_hash_order.
  destruct (unique_values_from values [] (NoDup_nil_2 (A:=T))) as [_ ->]. set_solver.
Qed.

Lemma hash_set_order_nil {T} `{EqDecision T} (values : list T) (hash : T → Z) :
  hash_set_order values hash = [] ↔ values = [].
Proof.
  split; [|by intros ->]. destruct values as [|x l]; [done|]. intros E.
  assert (x ∈ hash_set_order (x :: l) hash) as Hx by (apply elem_of_hash_set_order; left).
  rewrite E in Hx. set_solver.
Qed.

Lemma digits_value_Some s acc :
  is_Some (digits_value acc s) ↔ all_bytes is_ascii_digit s = true.
Proof.
  revert acc. induction s as [|c s IH]; intros acc; simpl; [split; [done|by eexists]|].
  destruct (is_ascii_digit c); simpl; [apply IH|]. split; [by intros []|done].
Qed.

(** ** Properties *)

(** C34. The iteration order that [hash_order] computes by simulating every
    insertion and resize of the JDK's table is the stable order of the keys by
    their bin in the final table ([order_in_table]); that table has a power of
    two bins, at most 2^30, and holds the keys within the 0.75 load factor
    unless it is at the maximum. *)
Theorem hash_order_is_order_in_table {T} (keys : list T) (table : Table) (hash : T → Z) :
  ∃ capacity,
    hash_order keys table hash = order_in_table keys capacity hash ∧
    capacity_ok capacity ∧
    (Z.of_nat (length keys) ≤ load_threshold capacity ∨ capacity = MAXIMUM_CAPACITY).
Proof.
  exists (filled_table keys table hash).1. split; [apply hash_order_sorted|].
  split; [apply filled_table_spec|].
  change (load_ok (length keys) (filled_table keys table hash).1).
  replace (length keys) with (length (map (λ key, spread (hash key)) keys)) by apply length_map.
  apply fill_table_load; [done|]. split; cbn [fst snd]; [apply initial_capacity_ok|].
  by rewrite binned_nil.
Qed.

(** For a default table whose small sizes never hold more than eight keys
    in one bin, the order is the stable order by bin in a table of
    [default_capacity] bins: the closed form that callers use when they order
    some of a larger map's keys. *)
Theorem hash_order_default_capacity {T} (keys : list T) (hash : T → Z) :
  spread_out keys hash →
  hash_order keys Default hash =
  order_in_table keys (default_capacity (Z.of_nat (length keys))) hash.
Proof.
  intros Hout. rewrite hash_order_sorted. f_equal.
  replace (length keys) with (length (map (λ key, spread (hash key)) keys)) by apply length_map.
  by apply filled_table_default.
Qed.

Lemma hash_order_default_capacity_witness :
  spread_out ["foo"; "bar"; "orders"] string_hash ∧
  hash_order ["foo"; "bar"; "orders"] Default string_hash = ["bar"; "foo"; "orders"].
Proof.
  assert (spread_out ["foo"; "bar"; "orders"] string_hash) as H.
  { intros c b Hc. etrans; [apply length_filter|]. unfold TREEIFY_THRESHOLD. simpl. lia. }
  split; [exact H|]. rewrite (hash_order_default_capacity _ _ H). reflexivity.
Defined.

(** [parse_int] is [Integer.parseInt]: the value of an optional sign and
    decimal digits that fit an [int], or the [NumberFormatException] text; the
    digit check before the parse refuses nothing that the parse would
    accept. *)
Theorem parse_int_is_parse_i32 (value : string) :
  parse_int value = ok_or (parse_i32 value) (parse_int_error value).
Proof.
  unfold parse_int. set (digits := match value with EmptyString => _ | _ => _ end).
  destruct (bool_decide (digits = "") || _) eqn:Ebad; [|done].
  assert (unsigned_value digits = None) as Hnone.
  { unfold unsigned_value. destruct digits as [|c ds]; [done|].
    apply orb_true_iff in Ebad as [Ebad|Ebad]; bool_to_prop; [done|].
    apply eq_None_not_Some. rewrite (digits_value_Some _ 0). congruence. }
  assert (signed_value value = None) as Hsigned.
  { subst digits. destruct value as [|c rest]; [done|].
    destruct c as [[] [] [] [] [] [] [] []]; simpl in *; try exact Hnone; by rewrite Hnone. }
  unfold parse_i32, parse_signed. by rewrite Hsigned.
Qed.

(** [table_size_for] is the smallest power of two that is at least the
    wanted size and at least 1, capped at 2^30. *)
Lemma table_size_for_least (wanted : Z) :
  wanted ≤ MAXIMUM_CAPACITY →
  wanted ≤ table_size_for wanted ∧ capacity_ok (table_size_for wanted) ∧
  ∀ c, capacity_ok c → wanted ≤ c → table_size_for wanted ≤ c.
Proof.
  intros Hw. split; [|split; [apply table_size_for_ok|]].
  - unfold table_size_for, next_power_of_two. apply Z.min_glb; [|done].
    pose proof (Z.log2_log2_up_spec (Z.max wanted 1)). lia.
  - intros c Hc Hwc. pose proof (capacity_ok_pos c Hc).
    unfold table_size_for, next_power_of_two.
    destruct Hc as (k & Hk & ->). apply Z.min_le_iff. left.
    apply Z.pow_le_mono_r; [lia|]. apply Z.log2_up_le_pow2; lia.
Qed.
