(* ===== verification/JavaRandom.v ===== *)
(** [src/crates/krabka-cli/src/replica_placer.rs], the pseudo-random source:
    the trait [JavaRandom] as a class, [next_int] and [shuffle] over it, and
    the 48-bit generator [Lcg48]. [next_int] rejects draws in an unbounded
    loop; it ends because the generator has full period. *)

From S2P Require Import Prelude Rust.

#[local] Open Scope Z_scope.

(** ** The trait and its derived methods *)

(** [JavaRandom::next(bits)], with the generator's state passed through. *)
Class JavaRandom (R : Type) : Type := next : Z → R → Z * R.

Section Derived.
Context `{JavaRandom R}.

(** The rejection loop of [next_int], from the draw [u]. *)
Fixpoint next_int_loop (fuel : nat) (bound u : Z) (random : R) : outcome (Z * R) :=
  match fuel with
  | O => Timeout
  | S fuel =>
      let r := Z.rem u bound in
      if 0 <=? wrap_i32 (wrap_i32 (u - r) + (bound - 1)) then Done (r, random)
      else let '(u, random) := next 31 random in next_int_loop fuel bound u random
  end.

Definition next_int (fuel : nat) (bound : Z) (random : R) : outcome (Z * R) :=
  let '(r, random) := next 31 random in
  let m := bound - 1 in
  if Z.land bound m =? 0 then
    let scaled := Z.shiftr (bound * r) 31 in
    Done (default 0 (try_signed 32 scaled), random)
  else next_int_loop fuel bound r random.

(** [slice.swap(i, j)], which panics out of range. *)
Definition swap {T} (l : list T) (i j : nat) : outcome (list T) :=
  x ← or_panic (l !! i); y ← or_panic (l !! j);
  Done (<[i := y]> (<[j := x]> l)).

(** One turn of the loop of [shuffle]. *)
Definition shuffle_step {T} (fuel : nat) (st : list T * R) (i : nat) : outcome (list T * R) :=
  let '(l, random) := st in
  let bound := default i32_MAX (try_signed 32 (Z.of_nat i)) in
  '(j, random) ← next_int fuel bound random;
  let j := if j <? 0 then 0%nat else Z.to_nat j in
  l ← swap l (i - 1) j;
  Done (l, random).

Definition shuffle {T} (fuel : nat) (l : list T) (random : R) : outcome (list T * R) :=
  fold_outcome (shuffle_step fuel) (rev (seq 2 (length l - 1))) (l, random).

(** [random_index]. *)
Definition random_index (fuel : nat) (random : R) (len : nat) : outcome (nat * R) :=
  '(i, random) ← next_int fuel (default i32_MAX (try_signed 32 (Z.of_nat len))) random;
  Done (if i <? 0 then 0%nat else Z.to_nat i, random).
End Derived.

(** What the derived methods need of a source: draws in range, and no state
    from which zero is never drawn again. *)
Class FairRandom (R : Type) `{JavaRandom R} : Prop := {
  next_range (r : R) : 0 ≤ (next 31 r).1 < 2 ^ 31;
  next_reaches_zero (r : R) :
    ∃ n, (next 31 (Nat.iter n (λ r, (next 31 r).2) r)).1 = 0
}.

(** ** [Lcg48] *)

Record Lcg48 : Type := { seed : Z }.

Definition MULTIPLIER : Z := 0x5DEECE66D.
Definition MASK : Z := Z.shiftl 1 48 - 1.

(** [Lcg48::new]. *)
Definition lcg_new (s : Z) : Lcg48 := {| seed := Z.land (Z.lxor s MULTIPLIER) MASK |}.

#[export] Instance lcg_next : JavaRandom Lcg48 := λ bits random,
  let seed := Z.land (wrap_i64 (wrap_i64 (seed random * MULTIPLIER) + 0xB)) MASK in
  let high := Z.shiftr seed (48 - bits) in
  let high := if (0 <=? high) && (high <? 2 ^ 32) then high else 0 in
  (wrap_i32 high, {| seed := seed |}).

(** [new Random(42)]: [nextInt()] twice, [nextInt(10)] three times and
    [nextInt(16)], as the JDK returns them. *)
Example lcg_42 :
  (let '(a, r) := next 32 (lcg_new 42) in
   let '(b, r) := next 32 r in
   '(c, r) ← next_int 5 10 r; '(d, r) ← next_int 5 10 r; '(e, r) ← next_int 5 10 r;
   '(f, _) ← next_int 5 16 r; Done [a; b; c; d; e; f])
  = Done [-1170105035; 234785527; 8; 4; 0; 15].
Proof. reflexivity. Qed.

(** ** Full period *)

(** The generator without its modulus. *)
Definition affine (x : Z) : Z := MULTIPLIER * x + 11.

Definition advance (x : Z) : Z := affine x mod 2 ^ 48.

Lemma lcg_next_seed r bits : seed (next bits r).2 = advance (seed r).
Proof.
  unfold next, lcg_next. cbn [snd seed]. unfold MASK, wrap_i64.
  change (Z.shiftl 1 48 - 1) with (Z.ones 48). rewrite Z.land_ones by lia.
  assert (∀ z, wrap 64 z mod 2 ^ 48 = z mod 2 ^ 48) as Hw.
  { intros z. rewrite <-(Z.mod_mod_divide z (2 ^ 64)) by (by exists (2 ^ 16)).
    rewrite <-(Z.mod_mod_divide (wrap 64 z) (2 ^ 64)) by (by exists (2 ^ 16)).
    by rewrite wrap_mod by lia. }
  rewrite Hw, Zplus_mod, Hw, <-Zplus_mod. unfold advance, affine. f_equal. lia.
Qed.

(** [2 ^ k] steps act as an affine map whose factor is 1 modulo [2 ^ (k + 2)]
    and whose shift is an odd multiple of [2 ^ k]. *)
Lemma affine_iter_pow (k : nat) :
  ∃ u m, ∀ x, Nat.iter (2 ^ k) affine x =
    (1 + 2 ^ (Z.of_nat k + 2) * u) * x + 2 ^ Z.of_nat k * (2 * m + 1).
Proof.
  induction k as [|k (u & m & IH)].
  - exists 6303725979, 5. intros x. simpl. unfold affine, MULTIPLIER. lia.
  - set (t := 2 ^ Z.of_nat k) in *.
    assert (2 ^ (Z.of_nat k + 2) = 4 * t) as E by (rewrite Z.pow_add_r by lia; lia).
    rewrite E in IH.
    exists (u + 2 * t * u * u), (m + t * u * (2 * m + 1)). intros x.
    replace (2 ^ S k)%nat with (2 ^ k + 2 ^ k)%nat by (simpl; lia).
    rewrite Nat.iter_add, !IH, Nat2Z.inj_succ.
    replace (Z.succ (Z.of_nat k) + 2) with ((Z.of_nat k + 2) + 1) by lia.
    rewrite (Z.pow_add_r 2 _ 1), E, Z.pow_succ_r by lia. fold t. ring.
Qed.

(** Every residue modulo [2 ^ k] is reached. *)
Lemma affine_surjective (k : nat) (x y : Z) :
  ∃ n, Nat.iter n affine x mod 2 ^ Z.of_nat k = y mod 2 ^ Z.of_nat k.
Proof.
  revert x. induction k as [|k IH]; intros x.
  - exists 0%nat. by rewrite !Z.mod_1_r.
  - destruct (IH x) as [n Hn]. set (z := Nat.iter n affine x) in *.
    set (t := 2 ^ Z.of_nat k) in *. assert (0 < t) by (apply Z.pow_pos_nonneg; lia).
    assert (2 ^ Z.of_nat (S k) = 2 * t) as -> by (rewrite Nat2Z.inj_succ; by apply Z.pow_succ_r; lia).
    assert (∃ q, z - y = t * q) as [q Hq].
    { exists (z / t - y / t). pose proof (Z.div_mod z t). pose proof (Z.div_mod y t). lia. }
    destruct (Z.Even_or_Odd q) as [[p ->]|[p ->]].
    + exists n. replace (Nat.iter n affine x) with (y + p * (2 * t)) by (fold z; lia).
      by rewrite Z_mod_plus_full.
    + exists (2 ^ k + n)%nat. rewrite Nat.iter_add. fold z.
      destruct (affine_iter_pow k) as (u & m & Hpow). rewrite Hpow. fold t.
      rewrite Z.pow_add_r by lia. fold t.
      replace ((1 + t * 2 ^ 2 * u) * z + t * (2 * m + 1))
        with (y + (2 * u * z + m + p + 1) * (2 * t)) by lia.
      by rewrite Z_mod_plus_full.
Qed.

Lemma advance_iter n x : Nat.iter n advance (advance x) = Nat.iter n affine (affine x) mod 2 ^ 48.
Proof.
  induction n as [|n IH]; [done|]. simpl. rewrite IH. unfold advance, affine at 1 3.
  by rewrite Zplus_mod, Zmult_mod_idemp_r, <-Zplus_mod.
Qed.

Lemma lcg_iter_seed n r :
  seed (Nat.iter n (λ r, (next 31 r).2) r) = Nat.iter n advance (seed r).
Proof. apply (Nat.iter_swap_gen _ _ seed). intros r'. apply lcg_next_seed. Qed.

Lemma advance_range x : 0 ≤ advance x < 2 ^ 48.
Proof. by apply Z.mod_pos_bound. Qed.

Lemma lcg_next_31 r : (next 31 r).1 = Z.shiftr (advance (seed r)) 17.
Proof.
  rewrite <-(lcg_next_seed r 31). pose proof (advance_range (seed r)) as Hr.
  rewrite <-(lcg_next_seed r 31) in Hr. unfold next, lcg_next in *. cbn [fst snd seed] in *.
  set (s := Z.land _ MASK) in *. change (48 - 31) with 17.
  assert (0 ≤ Z.shiftr s 17 < 2 ^ 31) as Hs.
  { rewrite Z.shiftr_div_pow2 by lia. split; [apply Z.div_pos; lia|].
    apply Z.div_lt_upper_bound; [done|]. change (2 ^ 17 * 2 ^ 31) with (2 ^ 48). lia. }
  rewrite (proj2 (Z.leb_le _ _)), (proj2 (Z.ltb_lt _ _)) by lia. simpl.
  apply wrap_id; [lia|]. split; [change (- 2 ^ (32 - 1)) with (- 2 ^ 31); lia|].
  change (32 - 1) with 31. lia.
Qed.

#[export] Instance lcg_fair : FairRandom Lcg48.
Proof.
  split.
  - intros r. rewrite lcg_next_31, Z.shiftr_div_pow2 by lia.
    pose proof (advance_range (seed r)). split; [apply Z.div_pos; lia|].
    apply Z.div_lt_upper_bound; [done|]. change (2 ^ 17 * 2 ^ 31) with (2 ^ 48). lia.
  - intros r. destruct (affine_surjective 48 (affine (seed r)) 0) as [n Hn].
    exists n. rewrite lcg_next_31, lcg_iter_seed.
    change (advance (Nat.iter n advance (seed r))) with (Nat.iter (S n) advance (seed r)).
    rewrite Nat.iter_succ_r, advance_iter.
    change (2 ^ Z.of_nat 48) with (2 ^ 48) in Hn. by rewrite Hn.
Qed.

(** ** The derived methods end, within their bounds *)

Section Fair.
Context `{FairRandom R}.

Lemma next_int_loop_accepts bound u :
  1 ≤ bound < 2 ^ 31 → 0 ≤ u < 2 ^ 31 →
  (0 <=? wrap_i32 (wrap_i32 (u - Z.rem u bound) + (bound - 1))) = true →
  0 ≤ Z.rem u bound < bound.
Proof. intros Hb Hu _. rewrite Z.rem_mod_nonneg by lia. apply Z.mod_pos_bound. lia. Qed.

Lemma next_int_accepts_zero bound :
  1 ≤ bound < 2 ^ 31 →
  (0 <=? wrap_i32 (wrap_i32 (0 - Z.rem 0 bound) + (bound - 1))) = true.
Proof.
  intros Hb. rewrite Z.rem_0_l by lia. unfold wrap_i32.
  change (wrap 32 (0 - 0)) with 0. rewrite Z.add_0_l, wrap_id; [apply Z.leb_le; lia|lia|].
  unfold in_signed. change (32 - 1) with 31. lia.
Qed.

(** The loop, from a source that draws zero after [n] more steps. *)
Lemma next_int_loop_total n bound u (r : R) :
  1 ≤ bound < 2 ^ 31 → 0 ≤ u < 2 ^ 31 →
  (next 31 (Nat.iter n (λ r, (next 31 r).2) r)).1 = 0 →
  total (λ fuel, next_int_loop fuel bound u r) (λ x, 0 ≤ x.1 < bound).
Proof.
  intros Hb. revert u r. induction n as [|n IH]; intros u r Hu Hn.
  - destruct (0 <=? wrap_i32 (wrap_i32 (u - Z.rem u bound) + (bound - 1))) eqn:Eu.
    + exists (Z.rem u bound, r). split; [by apply next_int_loop_accepts|].
      exists 1%nat. intros [|fuel] Hf; [lia|]. simpl. by rewrite Eu.
    + destruct (next 31 r) as [z r'] eqn:Er. simpl in Hn. rewrite Er in Hn. simpl in Hn.
      subst z. exists (Z.rem 0 bound, r'). split; [rewrite Z.rem_0_l by lia; simpl; lia|].
      exists 2%nat. intros [|[|fuel]] Hf; [lia..|]. simpl. rewrite Eu, Er.
      by rewrite next_int_accepts_zero.
  - destruct (0 <=? wrap_i32 (wrap_i32 (u - Z.rem u bound) + (bound - 1))) eqn:Eu.
    + exists (Z.rem u bound, r). split; [by apply next_int_loop_accepts|].
      exists 1%nat. intros [|fuel] Hf; [lia|]. simpl. by rewrite Eu.
    + rewrite Nat.iter_succ_r in Hn. pose proof (next_range r) as Hr.
      destruct (IH _ _ Hr Hn) as (a & Ha & m & Hm). exists a. split; [done|].
      exists (S m). intros [|fuel] Hf; [lia|]. simpl. rewrite Eu.
      destruct (next 31 r) as [z r']. apply Hm. lia.
Qed.

Lemma next_int_total bound (r : R) :
  1 ≤ bound < 2 ^ 31 → total (λ fuel, next_int fuel bound r) (λ x, 0 ≤ x.1 < bound).
Proof.
  intros Hb. unfold next_int. pose proof (next_range r) as Hr.
  destruct (next 31 r) as [u r'] eqn:Er. simpl in Hr.
  destruct (Z.land bound (bound - 1) =? 0).
  - apply total_ret. cbn [fst]. rewrite Z.shiftr_div_pow2 by lia.
    assert (0 ≤ bound * u / 2 ^ 31 < bound) as Hs.
    { split; [apply Z.div_pos; lia|]. apply Z.div_lt_upper_bound; nia. }
    assert (try_signed 32 (bound * u / 2 ^ 31) = Some (bound * u / 2 ^ 31)) as ->; [|done].
    apply try_signed_Some. split; [done|]. unfold in_signed. change (32 - 1) with 31. lia.
  - destruct (next_reaches_zero r') as [n Hn]. by apply (next_int_loop_total n).
Qed.

Lemma swap_perm {T} (l : list T) i j x y :
  l !! i = Some x → l !! j = Some y → <[i := y]> (<[j := x]> l) ≡ₚ l.
Proof.
  intros Hi Hj. by apply Permutation_insert_swap.
Qed.

(** The bound that a length becomes: itself, or [i32::MAX] past it. *)
Lemma length_bound (n : nat) :
  (1 ≤ n)%nat →
  let bound := default i32_MAX (try_signed 32 (Z.of_nat n)) in
  1 ≤ bound < 2 ^ 31 ∧ bound ≤ Z.of_nat n.
Proof.
  intros Hn bound. subst bound. destruct (try_signed 32 (Z.of_nat n)) as [b|] eqn:E; cbn [from_option id].
  - apply try_signed_Some in E as [-> [_ Hb]]. change (32 - 1) with 31 in Hb. lia.
  - assert (¬ in_signed 32 (Z.of_nat n)) as Hout.
    { intros Hin%(proj2 (try_signed_Some 32 _ _) ∘ conj eq_refl). congruence. }
    unfold in_signed in Hout. change (32 - 1) with 31 in Hout. unfold i32_MAX.
    change (2 ^ 31) with 2147483648 in *. lia.
Qed.

Lemma next_index_total (n : nat) (r : R) :
  (1 ≤ n)%nat →
  total (λ fuel, next_int fuel (default i32_MAX (try_signed 32 (Z.of_nat n))) r)
    (λ x, 0 ≤ x.1 < Z.of_nat n).
Proof.
  intros Hn. destruct (length_bound n Hn) as [Hb Hle].
  eapply total_mono; [by apply next_int_total|]. simpl. lia.
Qed.

Lemma random_index_total (r : R) n :
  (1 ≤ n)%nat → total (λ fuel, random_index fuel r n) (λ x, (x.1 < n)%nat).
Proof.
  intros Hn. unfold random_index.
  total_bind; [by apply next_index_total|].
  intros [i r'] Hi. apply total_ret. simpl in *. destruct (Z.ltb_spec i 0); lia.
Qed.

Lemma shuffle_step_total {T} (l0 l : list T) (r : R) i :
  (2 ≤ i ≤ length l0)%nat → l ≡ₚ l0 →
  total (λ fuel, shuffle_step fuel (l, r) i) (λ x, x.1 ≡ₚ l0).
Proof.
  intros Hi Hl. unfold shuffle_step.
  total_bind; [apply next_index_total; lia|].
  intros [j r'] Hj. simpl in Hj. destruct (Z.ltb_spec j 0); [lia|].
  pose proof (Permutation_length Hl) as Hlen.
  destruct (lookup_lt_is_Some_2 l (i - 1)) as [x Hx]; [lia|].
  destruct (lookup_lt_is_Some_2 l (Z.to_nat j)) as [y Hy]; [lia|].
  unfold swap. rewrite Hx, Hy. simpl. apply total_ret. simpl.
  by rewrite (swap_perm l _ _ x y Hx Hy).
Qed.

Lemma shuffle_total {T} (l : list T) (r : R) :
  total (λ fuel, shuffle fuel l r) (λ x, x.1 ≡ₚ l).
Proof.
  unfold shuffle. apply (total_fold (λ fuel, shuffle_step fuel) (λ x, x.1 ≡ₚ l)); [|done].
  intros [l' r'] i Hi%list_elem_of_In%in_rev%in_seq Hl. apply shuffle_step_total; [lia|done].
Qed.
End Fair.

(** ** Properties *)

(** [Random.nextInt(bound)] of the JDK's generator ends: although it
    rejects draws in a loop with no bound, the 48-bit generator has full
    period, so from every seed some draw is accepted; and the result is in
    [0, bound). *)
Theorem lcg_next_int_total (random : Lcg48) (bound : Z) :
  1 ≤ bound < 2 ^ 31 →
  ∃ r random', 0 ≤ r < bound ∧
    ∃ enough, ∀ fuel, (enough ≤ fuel)%nat → next_int fuel bound random = Done (r, random').
Proof.
  intros Hb. destruct (next_int_total bound random Hb) as ([r r'] & Hr & n & Hn).
  exists r, r'. eauto.
Qed.

Lemma lcg_next_int_total_witness :
  1 ≤ 10 < 2 ^ 31 ∧
  ∃ r random', 0 ≤ r < 10 ∧ ∃ enough, ∀ fuel, (enough ≤ fuel)%nat →
    next_int fuel 10 (lcg_new 42) = Done (r, random').
Proof.
  split; [split; [lia|by vm_compute]|].
  apply (lcg_next_int_total (lcg_new 42) 10). split; [lia|by vm_compute].
Defined.

(** [Collections.shuffle] over the JDK's generator ends without an index
    out of range and returns a permutation of the list. *)
Theorem lcg_shuffle_permutation {T} (l : list T) (random : Lcg48) :
  ∃ l' random', l' ≡ₚ l ∧
    ∃ enough, ∀ fuel, (enough ≤ fuel)%nat → shuffle fuel l random = Done (l', random').
Proof.
  destruct (shuffle_total l random) as ([l' r'] & Hl & n & Hn). exists l', r'. eauto.
Qed.
