(* ===== verification/Placer.v ===== *)
(** [src/crates/krabka-cli/src/replica_placer.rs], the placer: Kafka's
    [StripedReplicaPlacer] over racks of fenced and unfenced brokers. State is
    passed explicitly, and every loop without a bound takes fuel; the theorems
    show that enough fuel exists. *)

From S2P Require Import Prelude Collections Rust Jvm JavaRandom.

#[local] Open Scope Z_scope.

(** ** Data *)

Record UsableBroker : Type := {
  id : Z;
  rack : option string;
  fenced : bool
}.

Record BrokerList : Type := {
  brokers : list Z;
  index : nat;
  offset : nat;
  epoch : nat
}.
Definition empty_list : BrokerList := {| brokers := []; index := 0; offset := 0; epoch := 0 |}.

Record Rack : Type := { rack_fenced : BrokerList; rack_unfenced : BrokerList }.
Definition empty_rack : Rack := {| rack_fenced := empty_list; rack_unfenced := empty_list |}.

Record RackList (R : Type) : Type := {
  random : R;
  racks : list (option string * Rack);
  rack_names : list nat;
  total_brokers : nat;
  unfenced_brokers : nat;
  list_epoch : nat;
  list_offset : nat
}.
Arguments random {R} _.
Arguments racks {R} _.
Arguments rack_names {R} _.
Arguments total_brokers {R} _.
Arguments unfenced_brokers {R} _.
Arguments list_epoch {R} _.
Arguments list_offset {R} _.

(** ** [BrokerList] and [Rack] *)

Definition push_broker (b : Z) (l : BrokerList) : BrokerList :=
  {| brokers := brokers l ++ [b]; index := index l; offset := offset l; epoch := epoch l |}.

(** [BrokerList::next]. The list is not empty where it is indexed, so the
    index is in range. *)
Definition list_next (e : nat) (l : BrokerList) : option Z * BrokerList :=
  match brokers l with
  | [] => (None, l)
  | _ :: _ =>
      let len := length (brokers l) in
      let l :=
        if (epoch l =? e)%nat then l
        else {| brokers := brokers l; index := 0;
                offset := ((offset l + 1) mod len)%nat; epoch := e |} in
      if (len <=? index l)%nat then (None, l)
      else (brokers l !! ((index l + offset l) mod len)%nat,
            {| brokers := brokers l; index := S (index l); offset := offset l;
               epoch := epoch l |})
  end.

(** [Rack::next]: the unfenced brokers first. *)
Definition rack_next (e : nat) (r : Rack) : option Z * Rack :=
  let '(b, u) := list_next e (rack_unfenced r) in
  match b with
  | Some b => (Some b, {| rack_fenced := rack_fenced r; rack_unfenced := u |})
  | None =>
      let '(b, f) := list_next e (rack_fenced r) in
      (b, {| rack_fenced := f; rack_unfenced := u |})
  end.

Section RackListOps.
Context `{JavaRandom R}.

(** [BrokerList::initialize]. *)
Definition initialize (fuel : nat) (l : BrokerList) (random : R) : outcome (BrokerList * R) :=
  match brokers l with
  | [] => Done (l, random)
  | _ :: _ =>
      let sorted := sort (brokers l) in
      '(o, random) ← random_index fuel random (length sorted);
      Done ({| brokers := sorted; index := index l; offset := o; epoch := epoch l |}, random)
  end.

(** One broker of the loading loop of [RackList::new]: the racks in
    insertion order, and the two counts. *)
Definition load_broker (st : list (option string * Rack) * nat * nat) (b : UsableBroker)
    : list (option string * Rack) * nat * nat :=
  let '(inserted, total, unfenced) := st in
  let '(inserted, position) :=
    match list_find (λ x, x.1 = rack b) inserted with
    | Some (position, _) => (inserted, position)
    | None => (inserted ++ [(rack b, empty_rack)], length inserted)
    end in
  let add (x : option string * Rack) :=
    (x.1,
     if fenced b
     then {| rack_fenced := push_broker (id b) (rack_fenced x.2);
             rack_unfenced := rack_unfenced x.2 |}
     else {| rack_fenced := rack_fenced x.2;
             rack_unfenced := push_broker (id b) (rack_unfenced x.2) |}) in
  (alter add position inserted, S total, if fenced b then unfenced else S unfenced).

(** [for (_, rack) in &mut list.racks { .. }] of [RackList::new] and of
    [shuffle]: [f] on the fenced list, then on the unfenced list. *)
Fixpoint each_rack (f : BrokerList → R → outcome (BrokerList * R))
    (l : list (option string * Rack)) (random : R)
    : outcome (list (option string * Rack) * R) :=
  match l with
  | [] => Done ([], random)
  | (name, r) :: l =>
      '(fe, random) ← f (rack_fenced r) random;
      '(un, random) ← f (rack_unfenced r) random;
      '(l, random) ← each_rack f l random;
      Done ((name, {| rack_fenced := fe; rack_unfenced := un |}) :: l, random)
  end.

Definition rack_hash (x : option string * Rack) : Z :=
  match x.1 with Some name => string_hash name | None => 0 end.

(** The indexes of the racks, sorted by rack name, no rack first. *)
Definition sorted_names (l : list (option string * Rack)) : list nat :=
  sort_by (λ a b, cmp (l !! a ≫= fst) (l !! b ≫= fst)) (seq 0 (length l)).

(** [RackList::new]. *)
Definition rack_list_new (fuel : nat) (random : R) (bs : list UsableBroker)
    : outcome (RackList R) :=
  let '(inserted, total, unfenced) := fold_left load_broker bs ([], 0%nat, 0%nat) in
  let l := hash_order inserted Default rack_hash in
  '(l, random) ← each_rack (initialize fuel) l random;
  let names := sorted_names l in
  '(o, random) ←
    match names with
    | [] => Done (0%nat, random)
    | _ :: _ => random_index fuel random (length names)
    end;
  Done {| random := random; racks := l; rack_names := names; total_brokers := total;
          unfenced_brokers := unfenced; list_epoch := 0; list_offset := o |}.

Definition shuffle_list (fuel : nat) (l : BrokerList) (random : R) : outcome (BrokerList * R) :=
  '(bs, random) ← shuffle fuel (brokers l) random;
  Done ({| brokers := bs; index := index l; offset := offset l; epoch := epoch l |}, random).

(** [RackList::shuffle]. *)
Definition rack_list_shuffle (fuel : nat) (rl : RackList R) : outcome (RackList R) :=
  '(names, random) ← shuffle fuel (rack_names rl) (random rl);
  '(l, random) ← each_rack (shuffle_list fuel) (racks rl) random;
  Done {| random := random; racks := l; rack_names := names;
          total_brokers := total_brokers rl; unfenced_brokers := unfenced_brokers rl;
          list_epoch := list_epoch rl; list_offset := list_offset rl |}.

(** The first loop of [RackList::place]: the first rack from [first_rack] on
    with an unfenced broker left. *)
Fixpoint first_replica (fuel : nat) (names : list nat) (e : nat)
    (l : list (option string * Rack)) (first_rack : nat)
    : outcome (Z * nat * list (option string * Rack)) :=
  match fuel with
  | O => Timeout
  | S fuel =>
      i ← or_panic (names !! first_rack);
      x ← or_panic (l !! i);
      let '(b, u) := list_next e (rack_unfenced x.2) in
      let l := <[i := (x.1, {| rack_fenced := rack_fenced x.2; rack_unfenced := u |})]> l in
      match b with
      | Some b => Done (b, first_rack, l)
      | None => first_replica fuel names e l ((first_rack + 1) mod length names)%nat
      end
  end.

(** The inner loop of [RackList::place]: the next rack in turn with a broker
    left, passing over the first replica's rack once. *)
Fixpoint next_replica (fuel : nat) (names : list nat) (e : nat)
    (l : list (option string * Rack)) (first_rack : option nat) (rack_index : nat)
    : outcome (Z * (list (option string * Rack) * option nat * nat)) :=
  match fuel with
  | O => Timeout
  | S fuel =>
      '(b, l, first_rack) ←
        (if decide (first_rack = Some rack_index) then Done (None, l, None)
         else
           i ← or_panic (names !! rack_index);
           x ← or_panic (l !! i);
           let '(b, r) := rack_next e x.2 in
           Done (b, <[i := (x.1, r)]> l, first_rack));
      let rack_index := ((rack_index + 1) mod length names)%nat in
      match b with
      | Some b => Done (b, (l, first_rack, rack_index))
      | None => next_replica fuel names e l first_rack rack_index
      end
  end.

(** [for _ in 1..replication_factor]. *)
Fixpoint more_replicas (fuel : nat) (names : list nat) (e : nat) (n : nat)
    (st : list (option string * Rack) * option nat * nat)
    : outcome (list Z * list (option string * Rack)) :=
  let '(l, first_rack, rack_index) := st in
  match n with
  | O => Done ([], l)
  | S n =>
      '(b, st) ← next_replica fuel names e l first_rack rack_index;
      '(bs, l) ← more_replicas fuel names e n st;
      Done (b :: bs, l)
  end.
End RackListOps.

(** ** The checks *)

Definition check_positive (replication_factor : Z) : result string unit :=
  if replication_factor <=? 0 then
    Err ("Invalid replication factor " +:+ pretty replication_factor +:+
         ": the replication factor must be positive.")
  else Ok tt.

Definition check_enough_brokers (replication_factor : Z) (total : nat) : result string unit :=
  let wanted := if replication_factor <? 0 then usize_MAX else replication_factor in
  if Z.of_nat total <? wanted then
    Err ("The target replication factor of " +:+ pretty replication_factor +:+
         " cannot be reached because only " +:+ pretty total +:+
         " broker(s) are registered or some brokers have all their log directories cordoned.")
  else Ok tt.

Definition check_unfenced (unfenced : nat) : result string unit :=
  if (unfenced =? 0)%nat then
    Err "All brokers are currently fenced, or have all their log directories cordoned."
  else Ok tt.

Definition check_replication_factor (replication_factor : Z) (total unfenced : nat)
    : result string unit :=
  check_positive replication_factor;;
  check_enough_brokers replication_factor total;;
  check_unfenced unfenced.

Section Place.
Context `{JavaRandom R}.

(** [RackList::place] past its checks. *)
Definition place_unchecked (fuel : nat) (rl : RackList R) (replication_factor : Z)
    : outcome (list Z * RackList R) :=
  rl ←
    (if (list_epoch rl =? unfenced_brokers rl)%nat && (1 <? unfenced_brokers rl)%nat then
       rl ← rack_list_shuffle fuel rl;
       Done {| random := random rl; racks := racks rl; rack_names := rack_names rl;
               total_brokers := total_brokers rl; unfenced_brokers := unfenced_brokers rl;
               list_epoch := 0; list_offset := list_offset rl |}
     else Done rl);
  let names := rack_names rl in
  let o := if (list_offset rl =? length names)%nat then 0%nat else list_offset rl in
  '(b, first_rack, l) ← first_replica fuel names (list_epoch rl) (racks rl) o;
  '(bs, l) ← more_replicas fuel names (list_epoch rl) (Z.to_nat (replication_factor - 1))
               (l, Some first_rack, o);
  Done (b :: bs,
        {| random := random rl; racks := l; rack_names := names;
           total_brokers := total_brokers rl; unfenced_brokers := unfenced_brokers rl;
           list_epoch := S (list_epoch rl); list_offset := S o |}).

(** [RackList::place]. *)
Definition rack_list_place (fuel : nat) (rl : RackList R) (replication_factor : Z)
    : outcome (result string (list Z) * RackList R) :=
  match check_replication_factor replication_factor (total_brokers rl) (unfenced_brokers rl) with
  | Err e => Done (Err e, rl)
  | Ok _ =>
      '(bs, rl) ← place_unchecked fuel rl replication_factor;
      Done (Ok bs, rl)
  end.

(** [(0..partitions).map(|_| racks.place(rf)).collect()]. *)
Fixpoint place_partitions (fuel : nat) (partitions : nat) (replication_factor : Z)
    (rl : RackList R) : outcome (result string (list (list Z)) * RackList R) :=
  match partitions with
  | O => Done (Ok [], rl)
  | S partitions =>
      '(bs, rl) ← rack_list_place fuel rl replication_factor;
      match bs with
      | Err e => Done (Err e, rl)
      | Ok bs =>
          '(rest, rl) ← place_partitions fuel partitions replication_factor rl;
          Done (rest ≫= (λ rest, Ok (bs :: rest)), rl)
      end
  end.

(** [place], with the random source returned. *)
Definition place (fuel : nat) (source : R) (partitions : nat) (replication_factor : Z)
    (bs : list UsableBroker) : outcome (result string (list (list Z)) * R) :=
  rl ← rack_list_new fuel source bs;
  match check_positive replication_factor;;
        check_unfenced (unfenced_brokers rl);;
        check_enough_brokers replication_factor (total_brokers rl) with
  | Err e => Done (Err e, random rl)
  | Ok _ =>
      '(ps, rl) ← place_partitions fuel partitions replication_factor rl;
      Done (ps, random rl)
  end.
End Place.

(** ** Kafka's own placer tests, with their fixed-seed source *)

Record MockRandom : Type := { mock_state : Z }.
#[export] Instance mock_next : JavaRandom MockRandom := λ bits r,
  let s := (mock_state r * 2862933555777941757 + 3037000493) mod 2 ^ 64 in
  (wrap_i32 (Z.shiftr s (64 - bits) mod 2 ^ 32), {| mock_state := s |}).

Definition broker (i : Z) (r : option string) (f : bool) : UsableBroker :=
  {| id := i; rack := r; fenced := f |}.

Example avoid_fenced_replica :
  ('(ps, _) ← place 20 {| mock_state := 17 |} 5 4
     [broker 3 None false; broker 1 None true; broker 0 None false;
      broker 4 None false; broker 2 None false];
   Done ps) =
  Done (Ok [[3; 4; 0; 2]; [4; 0; 2; 3]; [0; 2; 3; 4]; [2; 3; 4; 0]; [0; 4; 3; 2]]).
Proof. vm_compute. reflexivity. Qed.

Example multiple_racks :
  ('(ps, _) ← place 20 {| mock_state := 17 |} 3 4
     [broker 11 (Some "1") false; broker 10 (Some "1") false; broker 30 (Some "3") false;
      broker 31 (Some "3") false; broker 21 (Some "2") false; broker 20 (Some "2") true];
   Done ps) =
  Done (Ok [[11; 21; 31; 10]; [21; 30; 10; 20]; [31; 11; 21; 30]]).
Proof. vm_compute. reflexivity. Qed.

(** ** [propose] *)

(** One entry of the counting loop of [propose]: partitions so far, and the
    replica count of the topic's first partition. *)
Definition count_partition (topics : list (string * (nat * Z)))
    (entry : (string * Z) * list Z) : list (string * (nat * Z)) :=
  let '((topic, _), replicas) := entry in
  bt_alter (0%nat, 0)
    (λ '(partitions, rf),
       (S partitions,
        if (partitions =? 0)%nat
        then default i32_MAX (try_signed 32 (Z.of_nat (length replicas))) else rf))
    topic topics.

Definition topic_shapes (current : list ((string * Z) * list Z)) : list (string * (nat * Z)) :=
  fold_left count_partition current [].

(** [proposed.insert((topic, partition), replicas)] for each enumerated
    placement. *)
Definition insert_placements (topic : string) (placements : list (list Z))
    (proposed : list ((string * Z) * list Z)) : list ((string * Z) * list Z) :=
  fold_left
    (λ proposed '(partition, replicas),
       bt_insert (topic, default i32_MAX (try_signed 32 (Z.of_nat partition))) replicas proposed)
    (imap pair placements) proposed.

Section Propose.
Context `{JavaRandom R}.

Fixpoint propose_topics (fuel : nat) (source : R) (topics : list (string * (nat * Z)))
    (bs : list UsableBroker) (names : list string) (proposed : list ((string * Z) * list Z))
    : outcome (result string (list ((string * Z) * list Z)) * R) :=
  match names with
  | [] => Done (Ok proposed, source)
  | topic :: names =>
      '(partitions, rf) ← or_panic (bt_get topic topics);
      '(placements, source) ← place fuel source partitions rf bs;
      match placements with
      | Err e => Done (Err e, source)
      | Ok placements =>
          propose_topics fuel source topics bs names
            (insert_placements topic placements proposed)
      end
  end.

Definition propose (fuel : nat) (source : R) (current : list ((string * Z) * list Z))
    (bs : list UsableBroker) : outcome (result string (list ((string * Z) * list Z)) * R) :=
  let topics := topic_shapes current in
  propose_topics fuel source topics bs
    (hash_order (bt_keys topics) Default string_hash) [].
End Propose.
