(* ===== verification/PlacerFacts.v ===== *)
(** What the placer promises: [place] ends, and each partition gets the wanted
    number of distinct brokers, an unfenced one first. The proof views a broker
    list as the queue of brokers it has left in an epoch, and a placement as
    pops from those queues. *)

From S2P Require Import Prelude Collections Rust Jvm JavaRandom Placer.

#[local] Open Scope Z_scope.

(** ** A broker list as a queue *)

(** The brokers that [list_next e] has yet to return in the epoch [e]. *)
Definition left_in (e : nat) (l : BrokerList) : list Z :=
  if (epoch l =? e)%nat then drop (index l) (rotate (offset l) (brokers l))
  else rotate (offset l + 1) (brokers l).

(** The brokers of a list that was last used in the epoch [e]. *)
Definition used_in (e : nat) (l : BrokerList) : list Z :=
  if (epoch l =? e)%nat then brokers l else [].

Lemma rotate_mod {A} n (l : list A) : rotate (n mod length l) l = rotate n l.
Proof. unfold rotate. by rewrite Nat.Div0.mod_mod. Qed.

Lemma rotate_perm {A} n (l : list A) : rotate n l ≡ₚ l.
Proof. unfold rotate. by rewrite Permutation_app_comm, take_drop. Qed.

Lemma lookup_rotate {A} n (l : list A) i :
  (i < length l)%nat → rotate n l !! i = l !! ((i + n) mod length l)%nat.
Proof.
  intros Hi. unfold rotate. set (k := (n mod length l)%nat).
  assert (k < length l)%nat as Hk by (apply Nat.mod_upper_bound; lia).
  rewrite <-Nat.Div0.add_mod_idemp_r. fold k.
  destruct (decide (i < length l - k)%nat) as [Hlt|Hge].
  - rewrite lookup_app_l, lookup_drop by (rewrite length_drop; lia).
    f_equal. rewrite Nat.mod_small by lia. lia.
  - rewrite lookup_app_r by (rewrite length_drop; lia).
    rewrite length_drop, lookup_take_lt by lia. f_equal.
    replace (i + k)%nat with ((i - (length l - k)) + 1 * length l)%nat by lia.
    rewrite Nat.Div0.mod_add, Nat.mod_small by lia. done.
Qed.

Lemma left_in_all e l : epoch l ≠ e → left_in e l ≡ₚ brokers l.
Proof.
  intros He. unfold left_in. rewrite (proj2 (Nat.eqb_neq _ _)) by done. apply rotate_perm.
Qed.

Lemma left_in_fresh l : index l = 0%nat → ∀ e, left_in e l ≡ₚ brokers l.
Proof.
  intros Hi e. unfold left_in. rewrite Hi. destruct (_ =? _)%nat; apply rotate_perm.
Qed.

Lemma left_in_elem e l b : b ∈ left_in e l → b ∈ brokers l.
Proof.
  unfold left_in. destruct (_ =? _)%nat; intros Hb;
    [apply (subseteq_drop (index l)) in Hb|]; by rewrite rotate_perm in Hb.
Qed.

Lemma left_in_nil e l : brokers l = [] → left_in e l = [].
Proof.
  intros Hbs. unfold left_in, rotate. rewrite Hbs, !drop_nil, !take_nil. simpl.
  rewrite drop_nil. by destruct (_ =? _)%nat.
Qed.

(** The pop, in a list already at the epoch. *)
Lemma drop_rotate_next (bs : list Z) i o :
  (i < length bs)%nat → ∃ b,
    bs !! ((i + o) mod length bs)%nat = Some b ∧
    drop i (rotate o bs) = b :: drop (S i) (rotate o bs).
Proof.
  intros Hi. destruct (lookup_lt_is_Some_2 (rotate o bs) i) as [b Hb].
  { by rewrite length_rotate. }
  exists b. split; [by rewrite <-lookup_rotate|]. by apply drop_S.
Qed.

(** [list_next] pops the queue. *)
Lemma list_next_spec e l :
  match left_in e l with
  | [] => list_next e l = (None, l)
  | b :: rest => ∃ l', list_next e l = (Some b, l') ∧ left_in e l' = rest ∧
      brokers l' = brokers l ∧ epoch l' = e
  end.
Proof.
  destruct (brokers l) as [|b0 bs] eqn:Hbs.
  { rewrite left_in_nil by done. unfold list_next. by rewrite Hbs. }
  assert (0 < length (brokers l))%nat as Hlen by (rewrite Hbs; simpl; lia).
  unfold list_next, left_in. destruct (epoch l =? e)%nat eqn:He.
  - rewrite Hbs, <-Hbs. destruct (Nat.leb_spec (length (brokers l)) (index l)) as [Hge|Hlt].
    + by rewrite drop_ge by (rewrite length_rotate; lia).
    + destruct (drop_rotate_next (brokers l) (index l) (offset l) Hlt) as (b & Hb & ->).
      rewrite Hb. eexists. split; [done|]. simpl. rewrite He.
      apply Nat.eqb_eq in He. done.
  - rewrite Hbs, <-Hbs. simpl. rewrite (proj2 (Nat.leb_gt _ _)) by done.
    destruct (drop_rotate_next (brokers l) 0 (offset l + 1) Hlen) as (b & Hb & Hd).
    rewrite drop_0 in Hd. rewrite Hd. simpl in Hb.
    rewrite Nat.Div0.mod_mod, Hb. eexists. split; [done|]. simpl.
    by rewrite Nat.eqb_refl, rotate_mod.
Qed.

(** ** A rack as a queue *)

Definition rack_all (r : Rack) : list Z := brokers (rack_unfenced r) ++ brokers (rack_fenced r).
Definition rack_left (e : nat) (r : Rack) : list Z :=
  left_in e (rack_unfenced r) ++ left_in e (rack_fenced r).
Definition rack_used (e : nat) (r : Rack) : list Z :=
  used_in e (rack_unfenced r) ++ used_in e (rack_fenced r).

(** [r'] is [r] after the broker [b] was popped in the epoch [e]. *)
Record popped (e : nat) (b : Z) (r r' : Rack) : Prop := {
  popped_left : rack_left e r ≡ₚ b :: rack_left e r';
  popped_unfenced : brokers (rack_unfenced r') = brokers (rack_unfenced r);
  popped_fenced : brokers (rack_fenced r') = brokers (rack_fenced r);
  popped_used : b ∈ rack_used e r';
  popped_keeps : rack_used e r ⊆ rack_used e r';
  popped_keeps_unfenced : used_in e (rack_unfenced r) ⊆ used_in e (rack_unfenced r')
}.

Lemma used_in_current e l : epoch l = e → used_in e l = brokers l.
Proof. unfold used_in. by intros ->%Nat.eqb_eq. Qed.

Lemma used_in_subseteq e l : used_in e l ⊆ brokers l.
Proof. unfold used_in. destruct (_ =? _)%nat; set_solver. Qed.

Lemma unfenced_next_spec e r :
  match left_in e (rack_unfenced r) with
  | [] => list_next e (rack_unfenced r) = (None, rack_unfenced r)
  | b :: _ => ∃ u, list_next e (rack_unfenced r) = (Some b, u) ∧
      popped e b r {| rack_fenced := rack_fenced r; rack_unfenced := u |} ∧
      b ∈ used_in e u
  end.
Proof.
  pose proof (list_next_spec e (rack_unfenced r)) as H.
  destruct (left_in e (rack_unfenced r)) as [|b rest] eqn:Hl; [done|].
  destruct H as (u & -> & Hrest & Hu & He). exists u. split; [done|].
  assert (b ∈ brokers (rack_unfenced r)) as Hb by (apply (left_in_elem e); rewrite Hl; left).
  pose proof (used_in_subseteq e (rack_unfenced r)).
  assert (b ∈ used_in e u) by (by rewrite used_in_current, Hu).
  split; [|done].
  split; unfold rack_left, rack_used; simpl; rewrite ?Hl, ?Hrest, ?(used_in_current e u), ?Hu by done;
    (done || set_solver).
Qed.

Lemma rack_next_spec e r :
  match rack_next e r with
  | (None, r') => rack_left e r = [] ∧ r' = r
  | (Some b, r') => popped e b r r'
  end.
Proof.
  pose proof (unfenced_next_spec e r) as Hu. unfold rack_next.
  destruct (left_in e (rack_unfenced r)) as [|b rest] eqn:Hul.
  - rewrite Hu. pose proof (list_next_spec e (rack_fenced r)) as H.
    destruct (left_in e (rack_fenced r)) as [|b rest] eqn:Hl.
    + rewrite H. split; [unfold rack_left; by rewrite Hul, Hl|by destruct r].
    + destruct H as (f & -> & Hrest & Hf & He).
      assert (b ∈ brokers (rack_fenced r)) by (apply (left_in_elem e); rewrite Hl; left).
      pose proof (used_in_subseteq e (rack_fenced r)).
      split; unfold rack_left, rack_used; simpl;
        rewrite ?Hul, ?Hl, ?Hrest, ?(used_in_current e f), ?Hf by done; (done || set_solver).
  - by destruct Hu as (u & -> & Hp & _).
Qed.

(** ** The racks of a list *)

Definition flat (f : Rack → list Z) (l : list (option string * Rack)) : list Z :=
  concat (map (λ x, f x.2) l).

Definition unfenced_used (e : nat) (r : Rack) : list Z := used_in e (rack_unfenced r).
Definition unfenced_all (r : Rack) : list Z := brokers (rack_unfenced r).

(** The brokers of every list, which a placement does not change. *)
Definition contents (l : list (option string * Rack)) : list (list Z * list Z) :=
  map (λ x, (brokers (rack_unfenced x.2), brokers (rack_fenced x.2))) l.

(** [l'] is [l] after the brokers [chosen] were popped in the epoch [e]. *)
Record placed (e : nat) (chosen : list Z) (l l' : list (option string * Rack)) : Prop := {
  placed_left : flat (rack_left e) l ≡ₚ chosen ++ flat (rack_left e) l';
  placed_contents : contents l' = contents l;
  placed_used : chosen ⊆ flat (rack_used e) l';
  placed_keeps : flat (rack_used e) l ⊆ flat (rack_used e) l';
  placed_keeps_unfenced : flat (unfenced_used e) l ⊆ flat (unfenced_used e) l'
}.

Lemma flat_lookup f l i x : l !! i = Some x → flat f l ≡ₚ f x.2 ++ flat f (delete i l).
Proof.
  intros Hi. unfold flat. by rewrite (delete_Permutation l i x Hi) at 1.
Qed.

Lemma flat_insert f l i x y :
  l !! i = Some x → flat f (<[i := y]> l) ≡ₚ f y.2 ++ flat f (delete i l).
Proof.
  intros Hi. rewrite (flat_lookup _ _ i y).
  - by rewrite list_delete_insert_eq.
  - apply list_lookup_insert_eq. by eapply lookup_lt_Some.
Qed.

Lemma elem_of_flat f l b : b ∈ flat f l ↔ ∃ i x, l !! i = Some x ∧ b ∈ f x.2.
Proof.
  unfold flat. rewrite list_elem_of_In, in_concat. split.
  - intros (bs & Hbs & Hb). apply in_map_iff in Hbs as (x & <- & Hx).
    apply list_elem_of_In, list_elem_of_lookup in Hx as [i Hi].
    exists i, x. by rewrite list_elem_of_In.
  - intros (i & x & Hi & Hb). exists (f x.2). split; [|by apply list_elem_of_In].
    apply in_map_iff. exists x. split; [done|]. apply list_elem_of_In.
    by eapply list_elem_of_lookup_2.
Qed.

Lemma placed_refl e l : placed e [] l l.
Proof. split; set_solver. Qed.

Lemma placed_trans e c1 c2 l1 l2 l3 :
  placed e c1 l1 l2 → placed e c2 l2 l3 → placed e (c1 ++ c2) l1 l3.
Proof.
  intros [A1 B1 C1 D1 E1] [A2 B2 C2 D2 E2]. split; [|congruence|set_solver..].
  by rewrite A1, A2, app_assoc.
Qed.

Lemma placed_insert e b l i x r' :
  l !! i = Some x → popped e b x.2 r' → placed e [b] l (<[i := (x.1, r')]> l).
Proof.
  intros Hi [A B C D E F].
  assert (∀ f, flat f (<[i := (x.1, r')]> l) ≡ₚ f r' ++ flat f (delete i l)) as Hins
    by (intros f; by apply (flat_insert f l i x)).
  split; rewrite ?Hins, ?(flat_lookup _ _ _ _ Hi); unfold unfenced_used; [|..|set_solver|set_solver].
  - by rewrite A.
  - unfold contents. apply list_eq. intros j. rewrite !list_lookup_fmap.
    destruct (decide (i = j)) as [<-|Hne].
    + rewrite list_lookup_insert_eq by (by eapply lookup_lt_Some). rewrite Hi. simpl.
      by rewrite B, C.
    + by rewrite list_lookup_insert_ne.
  - set_solver.
Qed.

(** ** The loops of a placement end *)

(** The names are the racks, in some order. *)
Definition names_ok (names : list nat) (l : list (option string * Rack)) : Prop :=
  names ≡ₚ seq 0 (length l).

Lemma names_lookup names l i :
  names_ok names l → (i < length l)%nat → ∃ k, (k < length names)%nat ∧ names !! k = Some i.
Proof.
  intros Hn Hi. assert (i ∈ names) as Hin.
  { rewrite Hn. apply list_elem_of_In, in_seq. lia. }
  apply list_elem_of_lookup in Hin as [k Hk]. exists k. split; [by eapply lookup_lt_Some|done].
Qed.

Lemma names_rack names l k :
  names_ok names l → (k < length names)%nat →
  ∃ i x, names !! k = Some i ∧ l !! i = Some x.
Proof.
  intros Hn Hk. destruct (lookup_lt_is_Some_2 _ _ Hk) as [i Hi].
  assert (i < length l)%nat as Hlt.
  { apply list_elem_of_lookup_2 in Hi. rewrite Hn in Hi.
    apply list_elem_of_In, in_seq in Hi. lia. }
  destruct (lookup_lt_is_Some_2 _ _ Hlt) as [x Hx]. eauto.
Qed.

Lemma names_ok_length names l : names_ok names l → length names = length l.
Proof. intros Hn%Permutation_length. by rewrite length_seq in Hn. Qed.

Lemma names_ok_contents names l l' :
  names_ok names l → contents l' = contents l → names_ok names l'.
Proof.
  unfold names_ok. intros Hn Hc. apply (f_equal length) in Hc.
  unfold contents in Hc. rewrite !length_map in Hc. by rewrite Hc.
Qed.

(** Going round from [pos], the target [k] is some number of turns away. *)
Lemma turns_to n pos k : (pos < n)%nat → (k < n)%nat → ∃ d, ((pos + d) mod n = k)%nat.
Proof.
  intros Hp Hk. exists (n - pos + k)%nat.
  replace (pos + (n - pos + k))%nat with (k + 1 * n)%nat by lia.
  rewrite Nat.Div0.mod_add. by apply Nat.mod_small.
Qed.

Lemma turn_step n pos d : (((pos + 1) mod n + d) mod n = (pos + S d) mod n)%nat.
Proof. rewrite Nat.Div0.add_mod_idemp_l. f_equal. lia. Qed.

Section Loops.
Context (names : list nat) (e : nat) (l : list (option string * Rack)).
Hypothesis Hnames : names_ok names l.

Lemma first_replica_total d pos i x :
  (pos < length names)%nat →
  names !! ((pos + d) mod length names)%nat = Some i → l !! i = Some x →
  left_in e (rack_unfenced x.2) ≠ [] →
  total (λ fuel, first_replica fuel names e l pos)
    (λ '(b, first_rack, l'), placed e [b] l l' ∧ b ∈ flat (unfenced_used e) l' ∧
       (first_rack < length names)%nat).
Proof.
  intros Hpos Hi Hx Hne. revert pos Hpos Hi. induction d as [|d IH]; intros pos Hpos Hi;
    destruct (names_rack names l pos Hnames Hpos) as (j & y & Hj & Hy);
    pose proof (unfenced_next_spec e y.2) as Hnext;
    (destruct (left_in e (rack_unfenced y.2)) as [|b rest] eqn:Hl;
     [|destruct Hnext as (u & Hnext & Hpop & Hu);
       eapply (total_succ _ (λ _, Done (b, pos, _)));
         [intros fuel; simpl; by rewrite Hj; simpl; rewrite Hy; simpl; rewrite Hnext|];
       apply total_ret; split; [by apply placed_insert|]; split; [|done];
       apply elem_of_flat; do 2 eexists; split;
         [apply list_lookup_insert_eq; by eapply lookup_lt_Some|done]]).
  - rewrite Nat.add_0_r, Nat.mod_small in Hi by done. congruence.
  - eapply (total_succ _ (λ fuel, first_replica fuel names e l ((pos + 1) mod length names)%nat)).
    + intros fuel. simpl. rewrite Hj. simpl. rewrite Hy. simpl. rewrite Hnext.
      f_equal. apply list_insert_id. rewrite Hy. f_equal. by destruct y as [? []].
    + apply IH; [apply Nat.mod_upper_bound; lia|]. by rewrite turn_step.
Qed.

(** What one turn of the inner loop leaves. *)
Definition replica_placed (x : Z * (list (option string * Rack) * option nat * nat)) : Prop :=
  let '(b, (l', _, rack_index)) := x in
  placed e [b] l l' ∧ (rack_index < length names)%nat.

Lemma next_replica_turn first_rack pos :
  (pos < length names)%nat → first_rack ≠ Some pos →
  total (λ fuel, next_replica fuel names e l first_rack ((pos + 1) mod length names)%nat)
    replica_placed ∨ (∃ i x, names !! pos = Some i ∧ l !! i = Some x ∧ rack_left e x.2 ≠ []) →
  total (λ fuel, next_replica fuel names e l first_rack pos) replica_placed.
Proof.
  intros Hpos Hfirst Hnext.
  destruct (names_rack names l pos Hnames Hpos) as (i & x & Hi & Hx).
  pose proof (rack_next_spec e x.2) as Hspec.
  destruct (rack_next e x.2) as [[b|] r] eqn:Er.
  - eapply (total_succ _ (λ _, Done (b, (_, first_rack, _)))).
    + intros fuel. simpl. rewrite decide_False by done. rewrite Hi. simpl. rewrite Hx. simpl.
      by rewrite Er.
    + apply total_ret. split; [by apply placed_insert|]. apply Nat.mod_upper_bound. lia.
  - destruct Hspec as [Hnil ->].
    destruct Hnext as [Hnext|(i' & x' & Hi' & Hx' & Hne)]; [|congruence].
    eapply total_succ; [|exact Hnext]. intros fuel. simpl.
    rewrite decide_False by done. rewrite Hi. simpl. rewrite Hx. simpl. rewrite Er. simpl.
    f_equal. apply list_insert_id. rewrite Hx. by destruct x.
Qed.

Lemma next_replica_total_none d pos i x :
  (pos < length names)%nat →
  names !! ((pos + d) mod length names)%nat = Some i → l !! i = Some x →
  rack_left e x.2 ≠ [] →
  total (λ fuel, next_replica fuel names e l None pos) replica_placed.
Proof.
  intros Hpos Hi Hx Hne. revert pos Hpos Hi. induction d as [|d IH]; intros pos Hpos Hi;
    apply next_replica_turn; [done|done| |done|done|].
  - right. rewrite Nat.add_0_r, Nat.mod_small in Hi by done. eauto.
  - left. apply IH; [apply Nat.mod_upper_bound; lia|]. by rewrite turn_step.
Qed.

Lemma next_replica_total first_rack pos :
  (pos < length names)%nat → flat (rack_left e) l ≠ [] →
  total (λ fuel, next_replica fuel names e l first_rack pos) replica_placed.
Proof.
  intros Hpos Hne. assert (∃ b, b ∈ flat (rack_left e) l) as [b Hb].
  { destruct (flat (rack_left e) l) as [|b]; [done|]. exists b. left. }
  apply elem_of_flat in Hb as (i & x & Hx & Hb).
  assert (rack_left e x.2 ≠ []) as Hx' by (intros E; rewrite E in Hb; set_solver).
  destruct (names_lookup names l i Hnames) as (k & Hk & Hi); [by eapply lookup_lt_Some|].
  assert (∀ p, (p < length names)%nat →
    total (λ fuel, next_replica fuel names e l None p) replica_placed) as Hnone.
  { intros p Hp. destruct (turns_to (length names) p k Hp Hk) as [d Hd].
    apply (next_replica_total_none d p i x); [done|by rewrite Hd|done..]. }
  destruct (turns_to (length names) pos k Hpos Hk) as [d Hd].
  revert pos Hpos Hd. induction d as [|d IH]; intros pos Hpos Hd;
    (destruct (decide (first_rack = Some pos)) as [->|Hfirst];
     [eapply total_succ;
        [intros fuel; simpl; rewrite decide_True by done; simpl; reflexivity|];
      apply Hnone, Nat.mod_upper_bound; lia|]);
    apply next_replica_turn; [done|done| |done|done|].
  - right. rewrite Nat.add_0_r, Nat.mod_small in Hd by done. subst. eauto.
  - left. apply IH; [apply Nat.mod_upper_bound; lia|]. by rewrite turn_step.
Qed.
End Loops.

Lemma more_replicas_total names e n l first_rack pos :
  names_ok names l → (pos < length names)%nat → (n ≤ length (flat (rack_left e) l))%nat →
  total (λ fuel, more_replicas fuel names e n (l, first_rack, pos))
    (λ '(bs, l'), placed e bs l l' ∧ length bs = n).
Proof.
  revert l first_rack pos. induction n as [|n IH]; intros l first_rack pos Hnames Hpos Hn; simpl.
  - apply total_ret. split; [apply placed_refl|done].
  - total_bind.
    + apply next_replica_total; [done..|]. intros E. rewrite E in Hn. simpl in Hn. lia.
    + intros [b [[l1 fr] pos1]] [Hb Hpos1].
      pose proof (Permutation_length (placed_left _ _ _ _ Hb)) as Hlen. simpl in Hlen.
      total_bind.
      * apply IH; [|done|lia]. eapply names_ok_contents, placed_contents; done.
      * intros [bs l2] [Hbs Hlbs]. apply total_ret.
        split; [exact (placed_trans _ _ _ _ _ _ Hb Hbs)|simpl; lia].
Qed.

(** ** Steps that only reorder or re-seed the lists *)

(** [l'] has the brokers of [l] in some order, at the same place in its
    epoch. *)
Definition reordered (l l' : BrokerList) : Prop :=
  brokers l' ≡ₚ brokers l ∧ index l' = index l ∧ epoch l' = epoch l.
Definition reordered_rack (x y : option string * Rack) : Prop :=
  reordered (rack_fenced x.2) (rack_fenced y.2) ∧
  reordered (rack_unfenced x.2) (rack_unfenced y.2).

Lemma used_in_reordered e l l' : reordered l l' → used_in e l' ≡ₚ used_in e l.
Proof. intros (Hb & _ & He). unfold used_in. rewrite He. by destruct (_ =? _)%nat. Qed.

Lemma flat_reordered (f : Rack → list Z) l l' :
  (∀ x y, reordered_rack x y → f y.2 ≡ₚ f x.2) →
  Forall2 reordered_rack l l' → flat f l' ≡ₚ flat f l.
Proof.
  intros Hf. induction 1 as [|x y l l' Hxy _ IH]; [done|].
  unfold flat in *. simpl. by rewrite (Hf _ _ Hxy), IH.
Qed.

Lemma rack_all_reordered x y : reordered_rack x y → rack_all y.2 ≡ₚ rack_all x.2.
Proof. intros [[Hf _] [Hu _]]. unfold rack_all. by rewrite Hf, Hu. Qed.

Lemma unfenced_all_reordered x y : reordered_rack x y → unfenced_all y.2 ≡ₚ unfenced_all x.2.
Proof. by intros [_ [Hu _]]. Qed.

Lemma rack_used_reordered e x y : reordered_rack x y → rack_used e y.2 ≡ₚ rack_used e x.2.
Proof. intros [Hf Hu]. unfold rack_used.
  by rewrite (used_in_reordered _ _ _ Hf), (used_in_reordered _ _ _ Hu). Qed.

Lemma unfenced_used_reordered e x y :
  reordered_rack x y → unfenced_used e y.2 ≡ₚ unfenced_used e x.2.
Proof. intros [_ Hu]. by apply used_in_reordered. Qed.

Section Reordering.
Context `{FairRandom R}.

Lemma each_rack_total (f : nat → BrokerList → R → outcome (BrokerList * R)) l r :
  (∀ bl r, total (λ fuel, f fuel bl r) (λ x, reordered bl x.1)) →
  total (λ fuel, each_rack (f fuel) l r) (λ x, Forall2 reordered_rack l x.1).
Proof.
  intros Hf. revert r. induction l as [|[name rk] l IH]; intros r; simpl.
  - apply total_ret. constructor.
  - total_bind; [apply Hf|]. intros [fe r1] Hfe.
    total_bind; [apply Hf|]. intros [un r2] Hun.
    total_bind; [apply IH|]. intros [l' r3] Hl. apply total_ret. by constructor.
Qed.

Lemma initialize_total bl (r : R) :
  total (λ fuel, initialize fuel bl r) (λ x, reordered bl x.1).
Proof.
  unfold initialize. destruct (brokers bl) as [|b bs] eqn:E; [by apply total_ret|].
  total_bind.
  - apply random_index_total. unfold sort. rewrite sort_by_perm. simpl. lia.
  - intros [o r'] _. apply total_ret. split; [|done]. cbn [fst brokers].
    rewrite E. apply sort_by_perm.
Qed.

Lemma shuffle_list_total bl (r : R) :
  total (λ fuel, shuffle_list fuel bl r) (λ x, reordered bl x.1).
Proof.
  unfold shuffle_list. total_bind; [apply shuffle_total|].
  intros [bs r'] Hbs. by apply total_ret.
Qed.
End Reordering.

(** ** The invariant between placements *)

Definition is_unfenced (b : UsableBroker) : Prop := fenced b = false.
#[export] Instance is_unfenced_dec b : Decision (is_unfenced b).
Proof. unfold is_unfenced. apply _. Defined.

Definition unfenced_ids (bs : list UsableBroker) : list Z := map id (filter is_unfenced bs).

(** The state holds the brokers [bs]. *)
Record holds {R} (bs : list UsableBroker) (rl : RackList R) : Prop := {
  holds_names : names_ok (rack_names rl) (racks rl);
  holds_all : flat rack_all (racks rl) ≡ₚ map id bs;
  holds_unfenced : flat unfenced_all (racks rl) ≡ₚ unfenced_ids bs;
  holds_total : total_brokers rl = length bs;
  holds_count : unfenced_brokers rl = length (unfenced_ids bs);
  holds_offset : (list_offset rl ≤ length (rack_names rl))%nat
}.

(** No list has been used yet. *)
Definition fresh (l : list (option string * Rack)) : Prop :=
  Forall (λ x, index (rack_unfenced x.2) = 0%nat ∧ index (rack_fenced x.2) = 0%nat) l.

(** The next placement of [n] replicas cannot run dry: either nothing was
    placed, or the lists that the last placement used hold [n] brokers. *)
Definition ready {R} (n : nat) (rl : RackList R) : Prop :=
  (list_epoch rl = 0%nat ∧ fresh (racks rl)) ∨
  ∃ e, list_epoch rl = S e ∧ (n ≤ length (flat (rack_used e) (racks rl)))%nat ∧
    flat (unfenced_used e) (racks rl) ≠ [].

(** In the epoch [e], [n] brokers are left, an unfenced one among them. *)
Definition available (e n : nat) (l : list (option string * Rack)) : Prop :=
  (n ≤ length (flat (rack_left e) l))%nat ∧
  ∃ i x, l !! i = Some x ∧ left_in e (rack_unfenced x.2) ≠ [].

Lemma flat_length_le (f g : Rack → list Z) l :
  Forall (λ x, (length (f x.2) ≤ length (g x.2))%nat) l →
  (length (flat f l) ≤ length (flat g l))%nat.
Proof.
  unfold flat. induction 1 as [|x l Hx _ IH]; simpl; [done|]. rewrite !length_app. lia.
Qed.

Lemma flat_perm (f g : Rack → list Z) l :
  Forall (λ x, f x.2 ≡ₚ g x.2) l → flat f l ≡ₚ flat g l.
Proof. unfold flat. induction 1 as [|x l Hx _ IH]; simpl; [done|]. by rewrite Hx, IH. Qed.

Lemma flat_submseteq (f g : Rack → list Z) l :
  (∀ r, f r ⊆+ g r) → flat f l ⊆+ flat g l.
Proof.
  intros Hfg. unfold flat. induction l as [|x l IH]; simpl; [done|]. by apply submseteq_app.
Qed.

Lemma used_left p e l : p ≠ e → (length (used_in p l) ≤ length (left_in e l))%nat.
Proof.
  intros Hpe. unfold used_in. destruct (Nat.eqb_spec (epoch l) p) as [<-|]; simpl; [|lia].
  by rewrite left_in_all.
Qed.

Lemma left_in_submseteq e l : left_in e l ⊆+ brokers l.
Proof.
  unfold left_in. destruct (_ =? _)%nat.
  - etrans; [apply submseteq_drop|]. by rewrite rotate_perm.
  - by rewrite rotate_perm.
Qed.

Lemma available_fresh {R} e n bs (rl : RackList R) :
  holds bs rl → fresh (racks rl) → (n ≤ length bs)%nat → unfenced_ids bs ≠ [] →
  available e n (racks rl).
Proof.
  intros [_ Hall Hunf _ _ _] Hf Hn Hu. unfold fresh in Hf. split.
  - rewrite (flat_perm _ rack_all), Hall, length_map; [done|].
    eapply Forall_impl; [exact Hf|]. intros x [H1 H2]. unfold rack_left, rack_all.
    by rewrite !left_in_fresh.
  - assert (∃ b, b ∈ flat unfenced_all (racks rl)) as [b Hb].
    { destruct (unfenced_ids bs) as [|b bs']; [done|]. exists b. rewrite Hunf. left. }
    apply elem_of_flat in Hb as (i & x & Hx & Hb). exists i, x. split; [done|].
    rewrite Forall_forall in Hf. destruct (Hf x) as [H1 _]; [by eapply list_elem_of_lookup_2|].
    intros E. pose proof (left_in_fresh _ H1 e) as Hp. rewrite E in Hp.
    apply Permutation_nil_l in Hp. unfold unfenced_all in Hb. rewrite <-Hp in Hb. set_solver.
Qed.

Lemma available_used p e n l :
  p ≠ e → (n ≤ length (flat (rack_used p) l))%nat → flat (unfenced_used p) l ≠ [] →
  available e n l.
Proof.
  intros Hpe Hn Hu. split.
  - etrans; [exact Hn|]. apply flat_length_le, Forall_forall. intros x _.
    unfold rack_used, rack_left. rewrite !length_app.
    pose proof (used_left p e (rack_unfenced x.2) Hpe).
    pose proof (used_left p e (rack_fenced x.2) Hpe). lia.
  - assert (∃ b, b ∈ flat (unfenced_used p) l) as [b Hb].
    { destruct (flat (unfenced_used p) l) as [|b]; [done|]. exists b. left. }
    apply elem_of_flat in Hb as (i & x & Hx & Hb). exists i, x. split; [done|].
    intros E. pose proof (used_left p e (rack_unfenced x.2) Hpe) as Hle. rewrite E in Hle.
    unfold unfenced_used in Hb. destruct (used_in p (rack_unfenced x.2)); [set_solver|].
    simpl in Hle. lia.
Qed.

#[export] Instance flat_proper f : Proper ((≡ₚ) ==> (≡ₚ)) (flat f).
Proof. intros l l' Hl. unfold flat. by rewrite Hl. Qed.

(** ** Loading the brokers *)

Record loaded (bs : list UsableBroker) (st : list (option string * Rack) * nat * nat) : Prop := {
  loaded_all : flat rack_all st.1.1 ≡ₚ map id bs;
  loaded_unfenced : flat unfenced_all st.1.1 ≡ₚ unfenced_ids bs;
  loaded_total : st.1.2 = length bs;
  loaded_count : st.2 = length (unfenced_ids bs);
  loaded_fresh : fresh st.1.1
}.

Lemma unfenced_ids_snoc bs b :
  unfenced_ids (bs ++ [b]) = unfenced_ids bs ++ (if fenced b then [] else [id b]).
Proof.
  unfold unfenced_ids. rewrite filter_app, map_app. f_equal. rewrite filter_cons, filter_nil.
  case_decide as E; unfold is_unfenced in E; [by rewrite E|by destruct (fenced b)].
Qed.

(** Adding the broker [b] to the rack at a position that holds one. *)
Lemma load_at l i x (r : Rack) :
  l !! i = Some x →
  fresh l → index (rack_unfenced r) = 0%nat → index (rack_fenced r) = 0%nat →
  fresh (<[i := (x.1, r)]> l).
Proof. intros Hx Hl H1 H2. apply Forall_insert; done. Qed.

Lemma load_broker_loaded bs st b : loaded bs st → loaded (bs ++ [b]) (load_broker st b).
Proof.
  destruct st as [[inserted total] unfenced]. intros [Hall Hunf Ht Hc Hf]. simpl in *.
  assert (∃ l pos x,
    match list_find (λ x, x.1 = rack b) inserted with
    | Some (position, _) => (inserted, position)
    | None => (inserted ++ [(rack b, empty_rack)], length inserted)
    end = (l, pos) ∧ l !! pos = Some x ∧ flat rack_all l = flat rack_all inserted ∧
    flat unfenced_all l = flat unfenced_all inserted ∧ fresh l)
    as (l & pos & x & Heq & Hx & Ha & Hu & Hfl).
  { destruct (list_find _ inserted) as [[pos x]|] eqn:Hfind.
    - apply list_find_Some in Hfind as (Hx & _ & _). eauto 10.
    - do 3 eexists. split; [done|]. split; [by rewrite lookup_app_r, Nat.sub_diag|].
      unfold flat. rewrite !map_app, !concat_app. simpl. rewrite !app_nil_r.
      repeat split; [done..|]. apply Forall_app. split; [done|]. by repeat constructor. }
  unfold load_broker. rewrite Heq. rewrite (list_alter_lookup _ _ _ _ Hx). simpl.
  pose proof (Forall_lookup_1 _ _ _ _ Hfl Hx) as [Hi1 Hi2].
  rewrite <-Ha in Hall. rewrite <-Hu in Hunf.
  rewrite (flat_lookup rack_all _ _ _ Hx) in Hall.
  rewrite (flat_lookup unfenced_all _ _ _ Hx) in Hunf.
  split; cbn [fst snd].
  - rewrite (flat_insert _ _ _ _ _ Hx), map_app, <-Hall. simpl. unfold rack_all.
    destruct (fenced b); simpl; solve_Permutation.
  - rewrite (flat_insert _ _ _ _ _ Hx), unfenced_ids_snoc, <-Hunf. unfold unfenced_all.
    destruct (fenced b); simpl; solve_Permutation.
  - rewrite length_app. simpl. lia.
  - rewrite unfenced_ids_snoc, length_app. destruct (fenced b); simpl; lia.
  - apply (load_at _ _ x); [done..| |]; by destruct (fenced b).
Qed.

Lemma load_brokers_loaded bs :
  loaded bs (fold_left load_broker bs ([], 0%nat, 0%nat)).
Proof.
  induction bs as [|b bs IH] using rev_ind; [by repeat constructor|].
  rewrite fold_left_app. by apply load_broker_loaded.
Qed.

Lemma fresh_reordered l l' : Forall2 reordered_rack l l' → fresh l → fresh l'.
Proof.
  unfold fresh. induction 1 as [|x y l l' [(_ & Hf & _) (_ & Hu & _)] _ IH]; intros Hl;
    [constructor|].
  apply Forall_cons in Hl as [[H1 H2] Hl]. constructor; [split; congruence|auto].
Qed.

Section Placing.
Context `{FairRandom R}.

Lemma rack_list_new_total bs (r : R) :
  total (λ fuel, rack_list_new fuel r bs)
    (λ rl, holds bs rl ∧ list_epoch rl = 0%nat ∧ fresh (racks rl)).
Proof.
  unfold rack_list_new. pose proof (load_brokers_loaded bs) as Hload.
  destruct (fold_left load_broker bs ([], 0%nat, 0%nat)) as [[inserted t] u].
  destruct Hload as [Hall Hunf Ht Hc Hf]. simpl in *.
  rewrite <-(hash_order_perm inserted Default rack_hash) in Hall, Hunf.
  assert (fresh (hash_order inserted Default rack_hash)) as Hf'.
  { unfold fresh. by rewrite hash_order_perm. }
  total_bind; [apply each_rack_total, initialize_total|].
  intros [l r1] Hl. simpl in Hl.
  total_bind.
  { instantiate (1 := λ x, (x.1 ≤ length (sorted_names l))%nat).
    destruct (sorted_names l) as [|n names] eqn:E; [by apply total_ret|].
    eapply total_mono; [apply random_index_total; simpl; lia|]. simpl. intros; lia. }
  intros [o r2] Ho. apply total_ret. simpl in *. split; [|split; [done|]].
  - split; simpl; [apply sort_by_perm| | |done..].
    + by rewrite (flat_reordered _ _ _ rack_all_reordered Hl).
    + by rewrite (flat_reordered _ _ _ unfenced_all_reordered Hl).
  - by eapply fresh_reordered.
Qed.

Lemma rack_list_shuffle_total bs (rl : RackList R) :
  holds bs rl →
  total (λ fuel, rack_list_shuffle fuel rl)
    (λ rl', holds bs rl' ∧ Forall2 reordered_rack (racks rl) (racks rl')).
Proof.
  intros [Hn Hall Hunf Ht Hc Ho]. unfold rack_list_shuffle.
  total_bind; [apply shuffle_total|]. intros [names r1] Hnames. simpl in Hnames.
  total_bind; [apply each_rack_total, shuffle_list_total|]. intros [l r2] Hl. simpl in Hl.
  apply total_ret. simpl. split; [|done]. split; simpl; [| | |done|done|].
  - unfold names_ok in *. rewrite Hnames, Hn. by rewrite (Forall2_length _ _ _ Hl).
  - by rewrite (flat_reordered _ _ _ rack_all_reordered Hl).
  - by rewrite (flat_reordered _ _ _ unfenced_all_reordered Hl).
  - by rewrite Hnames.
Qed.

(** The replicas of one partition: as many as wanted, all different, all
    among the brokers, and led by an unfenced broker. *)
Definition good_replicas (bs : list UsableBroker) (n : nat) (ps : list Z) : Prop :=
  length ps = n ∧ NoDup ps ∧ ps ⊆ map id bs ∧
  ∃ b, b ∈ bs ∧ fenced b = false ∧ head ps = Some (id b).

Lemma ready_available bs n (rl : RackList R) e :
  holds bs rl → ready n rl → (n ≤ length bs)%nat → unfenced_ids bs ≠ [] →
  e = list_epoch rl ∨ (e = 0%nat ∧ (1 < list_epoch rl)%nat) →
  available e n (racks rl).
Proof.
  intros Hh [[_ Hf]|(p & Hp & Hn & Hu)] Hlen Hne He.
  - by eapply available_fresh.
  - apply (available_used p); [lia|done..].
Qed.

Lemma contents_flat l l' :
  contents l' = contents l → flat rack_all l' = flat rack_all l ∧
    flat unfenced_all l' = flat unfenced_all l.
Proof.
  intros Hc.
  assert (∀ l, flat rack_all l = concat (map (λ x, x.1 ++ x.2) (contents l)) ∧
    flat unfenced_all l = concat (map fst (contents l))) as Hflat.
  { intros l0. unfold flat, contents. by rewrite !map_map. }
  destruct (Hflat l) as [-> ->], (Hflat l') as [-> ->]. by rewrite Hc.
Qed.

(** What the replicas popped from the racks are. *)
Lemma placed_good bs e n b ps l l' :
  NoDup (map id bs) → flat rack_all l ≡ₚ map id bs → flat unfenced_all l ≡ₚ unfenced_ids bs →
  placed e (b :: ps) l l' → b ∈ flat (unfenced_used e) l' → length (b :: ps) = n →
  good_replicas bs n (b :: ps) ∧ (n ≤ length (flat (rack_used e) l'))%nat.
Proof.
  intros Hnd Hall Hunf [Hleft Hcont Hused _ _] Hbu Hn.
  destruct (contents_flat _ _ Hcont) as [Hall2 Hunf2].
  assert (b :: ps ⊆+ map id bs) as Hsub.
  { rewrite <-Hall. transitivity (flat (rack_left e) l).
    - rewrite Hleft. by apply submseteq_inserts_r.
    - apply flat_submseteq. intros r. apply submseteq_app; apply left_in_submseteq. }
  pose proof (submseteq_NoDup _ _ Hsub Hnd) as Hndp. split.
  - split; [done|]. split; [done|]. split.
    { intros y Hy. by eapply elem_of_submseteq. }
    assert (b ∈ unfenced_ids bs) as Hbid.
    { rewrite <-Hunf, <-Hunf2. apply elem_of_flat in Hbu as (j & y & Hy & Hby).
      apply elem_of_flat. exists j, y. split; [done|]. by eapply used_in_subseteq. }
    apply list_elem_of_fmap in Hbid as (ub & -> & [Hub Hin]%list_elem_of_filter). eauto.
  - rewrite <-Hn. apply submseteq_length, NoDup_submseteq; [done|]. apply Hused.
Qed.

(** The placement proper, from an available state. *)
Lemma place_epoch_total bs (n : nat) (rl : RackList R) :
  NoDup (map id bs) → holds bs rl → (1 ≤ n)%nat → available (list_epoch rl) n (racks rl) →
  let names := rack_names rl in
  let o := if (list_offset rl =? length names)%nat then 0%nat else list_offset rl in
  total (λ fuel,
    '(b, first_rack, l) ← first_replica fuel names (list_epoch rl) (racks rl) o;
    '(bs, l) ← more_replicas fuel names (list_epoch rl) (n - 1) (l, Some first_rack, o);
    Done (b :: bs,
        {| random := random rl; racks := l; rack_names := names;
           total_brokers := total_brokers rl; unfenced_brokers := unfenced_brokers rl;
           list_epoch := S (list_epoch rl); list_offset := S o |}))
    (λ '(ps, rl'), good_replicas bs n ps ∧ holds bs rl' ∧ ready n rl').
Proof.
  intros Hnd [Hnames Hall Hunf Ht Hc Ho] Hn [Hav (i & x & Hx & Hu)] names o.
  destruct (names_lookup names (racks rl) i Hnames) as (k & Hk & Hi);
    [by eapply lookup_lt_Some|].
  assert (o < length names)%nat as Hol.
  { subst o names. destruct (Nat.eqb_spec (list_offset rl) (length (rack_names rl))); lia. }
  destruct (turns_to (length names) o k Hol Hk) as [d Hd].
  total_bind; [apply (first_replica_total names _ _ Hnames d o i x); [done|by rewrite Hd|done..]|].
  intros [[b fr] l1] (Hb & Hbu & _).
  pose proof (Permutation_length (placed_left _ _ _ _ Hb)) as Hlen. simpl in Hlen.
  total_bind.
  { apply more_replicas_total; [|done|lia]. eapply names_ok_contents, placed_contents; done. }
  intros [ps l2] [Hps Hlps]. apply total_ret.
  pose proof (placed_trans _ _ _ _ _ _ Hb Hps) as Hplaced. simpl in Hplaced.
  assert (b ∈ flat (unfenced_used (list_epoch rl)) l2) as Hbu2
    by (by apply (placed_keeps_unfenced _ _ _ _ Hps)).
  destruct (placed_good bs _ n b ps _ _ Hnd Hall Hunf Hplaced Hbu2) as [Hgood Hcount];
    [simpl; lia|].
  pose proof (placed_contents _ _ _ _ Hplaced) as Hcont.
  destruct (contents_flat _ _ Hcont) as [Hall2 Hunf2].
  split; [done|]. split.
  - split; simpl; [by eapply names_ok_contents|by rewrite Hall2|by rewrite Hunf2|done..].
  - right. exists (list_epoch rl). split; [done|]. split; [done|].
    intros E. simpl in E. rewrite E in Hbu2. set_solver.
Qed.

Lemma place_unchecked_total bs rf (rl : RackList R) :
  NoDup (map id bs) → holds bs rl → ready (Z.to_nat rf) rl →
  1 ≤ rf ≤ Z.of_nat (length bs) → unfenced_ids bs ≠ [] →
  total (λ fuel, place_unchecked fuel rl rf)
    (λ '(ps, rl'), good_replicas bs (Z.to_nat rf) ps ∧ holds bs rl' ∧ ready (Z.to_nat rf) rl').
Proof.
  intros Hnd Hh Hr Hrf Hne. unfold place_unchecked.
  replace (Z.to_nat (rf - 1)) with (Z.to_nat rf - 1)%nat by lia.
  total_bind.
  { instantiate (1 := λ rl1, holds bs rl1 ∧ available (list_epoch rl1) (Z.to_nat rf) (racks rl1)).
    destruct (_ && _) eqn:Ereset.
    - apply andb_true_iff in Ereset as [He Hu].
      apply Nat.eqb_eq in He. apply Nat.ltb_lt in Hu.
      total_bind; [by apply (rack_list_shuffle_total bs)|].
      intros rl1 [Hh1 Hre]. apply total_ret. simpl. split; [destruct Hh1; by split|].
      destruct Hr as [[He0 _]|(p & Hp & Hn & Hunf)]; [lia|].
      apply (available_used p); [lia| |].
      + by rewrite (flat_reordered _ _ _ (rack_used_reordered p) Hre).
      + intros E. pose proof (flat_reordered _ _ _ (unfenced_used_reordered p) Hre) as Hp'.
        rewrite E in Hp'. by apply Permutation_nil_l in Hp'.
    - apply total_ret. split; [done|]. eapply ready_available; eauto. lia. }
  intros rl1 [Hh1 Hav1]. apply (place_epoch_total bs _ rl1); [done|exact Hh1|lia|exact Hav1].
Qed.

Lemma check_replication_factor_Ok rf t u :
  check_replication_factor rf t u = Ok tt ↔ 1 ≤ rf ≤ Z.of_nat t ∧ u ≠ 0%nat.
Proof.
  unfold check_replication_factor, check_positive, check_enough_brokers, check_unfenced.
  destruct (Z.leb_spec rf 0), (Z.ltb_spec rf 0); simpl; try lia;
    (split; [|intros; try lia]); try done.
  - destruct (Z.ltb_spec (Z.of_nat t) rf); simpl; [done|].
    destruct (Nat.eqb_spec u 0); simpl; [done|]. intros _. lia.
  - destruct (Z.ltb_spec (Z.of_nat t) rf); simpl; [lia|].
    destruct (Nat.eqb_spec u 0); simpl; [lia|done].
Qed.

Lemma place_partitions_total bs rf n (rl : RackList R) :
  NoDup (map id bs) → holds bs rl → ready (Z.to_nat rf) rl →
  1 ≤ rf ≤ Z.of_nat (length bs) → unfenced_ids bs ≠ [] →
  total (λ fuel, place_partitions fuel n rf rl)
    (λ '(res, _), ∃ ps, res = Ok ps ∧ length ps = n ∧
       Forall (good_replicas bs (Z.to_nat rf)) ps).
Proof.
  intros Hnd Hh Hr Hrf Hne. revert rl Hh Hr. induction n as [|n IH]; intros rl Hh Hr; simpl.
  - apply total_ret. eauto.
  - total_bind.
    { unfold rack_list_place.
      assert (check_replication_factor rf (total_brokers rl) (unfenced_brokers rl) = Ok tt) as ->.
      { apply check_replication_factor_Ok. rewrite (holds_total _ _ Hh), (holds_count _ _ Hh).
        split; [done|]. by destruct (unfenced_ids bs). }
      total_bind; [by apply (place_unchecked_total bs)|].
      intros [ps rl1] Hps. apply total_ret.
      instantiate (1 := λ '(res, rl'), ∃ ps, res = Ok ps ∧ good_replicas bs (Z.to_nat rf) ps ∧
        holds bs rl' ∧ ready (Z.to_nat rf) rl'). simpl. eauto. }
    intros [res rl1] (ps & -> & Hps & Hh1 & Hr1).
    total_bind; [by apply IH|]. intros [res rl2] (rest & -> & Hrest & Hall).
    apply total_ret. exists (ps :: rest). simpl. auto.
Qed.
End Placing.

(** ** [place] *)

Section PlaceFacts.
Context `{FairRandom R}.

Lemma place_total bs n rf (r : R) :
  NoDup (map id bs) → 1 ≤ rf ≤ Z.of_nat (length bs) → unfenced_ids bs ≠ [] →
  total (λ fuel, place fuel r n rf bs)
    (λ '(res, _), ∃ ps, res = Ok ps ∧ length ps = n ∧
       Forall (good_replicas bs (Z.to_nat rf)) ps).
Proof.
  intros Hnd Hrf Hne. unfold place. total_bind; [apply rack_list_new_total|].
  intros rl (Hh & He & Hf).
  assert ((check_positive rf;; check_unfenced (unfenced_brokers rl);;
    check_enough_brokers rf (total_brokers rl)) = Ok tt) as ->.
  { rewrite (holds_total _ _ Hh), (holds_count _ _ Hh).
    unfold check_positive, check_unfenced, check_enough_brokers.
    rewrite (proj2 (Z.leb_gt rf 0)), (proj2 (Z.ltb_ge rf 0)), (proj2 (Z.ltb_ge _ rf)) by lia.
    destruct (unfenced_ids bs); done. }
  total_bind; [apply (place_partitions_total bs); [done|done|by left|done..]|].
  intros [res rl'] Hres. by apply total_ret.
Qed.

(** The refusal of [place], in the order of its checks. *)
Definition place_refusal (rf : Z) (bs : list UsableBroker) : option string :=
  if rf <=? 0 then
    Some ("Invalid replication factor " +:+ pretty rf +:+
          ": the replication factor must be positive.")
  else if decide (unfenced_ids bs = []) then
    Some "All brokers are currently fenced, or have all their log directories cordoned."
  else if Z.of_nat (length bs) <? rf then
    Some ("The target replication factor of " +:+ pretty rf +:+
          " cannot be reached because only " +:+ pretty (length bs) +:+
          " broker(s) are registered or some brokers have all their log directories cordoned.")
  else None.

Lemma place_refusal_total bs n rf (r : R) e :
  place_refusal rf bs = Some e →
  total (λ fuel, place fuel r n rf bs) (λ '(res, _), res = Err e).
Proof.
  intros Hr. unfold place. total_bind; [apply rack_list_new_total|].
  intros rl (Hh & _ & _). apply (total_ext (λ _, Done (Err e, random rl)));
    [|by apply total_ret].
  intros fuel. rewrite (holds_total _ _ Hh), (holds_count _ _ Hh).
  unfold place_refusal in Hr. unfold check_positive, check_unfenced, check_enough_brokers.
  destruct (Z.leb_spec rf 0); simpl; [by simplify_eq|].
  case_decide as Hu; [rewrite Hu; simpl; by simplify_eq|].
  destruct (unfenced_ids bs); [done|]. simpl.
  rewrite (proj2 (Z.ltb_ge rf 0)) by lia.
  destruct (Z.ltb_spec (Z.of_nat (length bs)) rf); simpl; by simplify_eq.
Qed.
End PlaceFacts.

(** ** [propose] *)

Lemma topic_shapes_wf current : bt_wf (topic_shapes current).
Proof.
  unfold topic_shapes. assert (bt_wf (V:=nat * Z) ([] : list (string * (nat * Z)))) as Hw
    by apply bt_nil_wf.
  revert Hw. generalize ([] : list (string * (nat * Z))).
  induction current as [|[[t p] reps] current IH]; intros m Hm; simpl; [done|].
  apply IH. by apply bt_alter_wf.
Qed.

(** The shape of a topic: how many of the entries are its, and the replica
    count of the first of them. *)
Definition entries_of (topic : string) (current : list ((string * Z) * list Z))
    : list ((string * Z) * list Z) := filter (λ x, x.1.1 = topic) current.

Definition shape_of (entries : list ((string * Z) * list Z)) : option (nat * Z) :=
  match entries with
  | [] => None
  | x :: _ =>
      Some (length entries, default i32_MAX (try_signed 32 (Z.of_nat (length x.2))))
  end.

Lemma topic_shapes_get current topic :
  bt_get topic (topic_shapes current) = shape_of (entries_of topic current).
Proof.
  unfold topic_shapes, entries_of. induction current as [|[[t p] reps] current IH] using rev_ind;
    [done|].
  rewrite fold_left_app, filter_app. simpl.
  rewrite bt_get_alter by apply topic_shapes_wf. rewrite filter_cons, filter_nil. simpl.
  case_decide as Ht; [subst|by rewrite app_nil_r].
  unfold topic_shapes in IH. rewrite IH.
  destruct (filter _ current) as [|x l]; simpl; [done|].
  rewrite length_app. simpl. do 2 f_equal. lia.
Qed.

Lemma insert_placements_snoc topic pl ps m :
  insert_placements topic (pl ++ [ps]) m =
  bt_insert (topic, default i32_MAX (try_signed 32 (Z.of_nat (length pl)))) ps
    (insert_placements topic pl m).
Proof.
  unfold insert_placements. rewrite imap_app, fold_left_app. simpl. by rewrite Nat.add_0_r.
Qed.

Lemma insert_placements_wf topic pl m : bt_wf m → bt_wf (insert_placements topic pl m).
Proof.
  intros Hm. induction pl as [|ps pl IH] using rev_ind; [done|].
  rewrite insert_placements_snoc. by apply bt_insert_wf.
Qed.

Lemma insert_placements_get topic pl m t p :
  bt_wf m → Z.of_nat (length pl) ≤ 2 ^ 31 →
  bt_get (t, p) (insert_placements topic pl m) =
    if decide (t = topic ∧ 0 ≤ p < Z.of_nat (length pl)) then pl !! Z.to_nat p
    else bt_get (t, p) m.
Proof.
  intros Hm. induction pl as [|ps pl IH] using rev_ind; intros Hlen.
  { rewrite decide_False by (simpl; lia). done. }
  rewrite length_app in Hlen. simpl in Hlen.
  rewrite insert_placements_snoc, bt_get_insert by (by apply insert_placements_wf).
  assert (try_signed 32 (Z.of_nat (length pl)) = Some (Z.of_nat (length pl))) as ->.
  { apply try_signed_Some. split; [done|]. unfold in_signed. change (32 - 1) with 31. lia. }
  cbn [from_option Datatypes.id]. rewrite length_app. simpl.
  destruct (decide ((topic, Z.of_nat (length pl)) = (t, p))) as [Heq|Heq]; simplify_eq.
  - rewrite decide_True by (split; [done|lia]).
    rewrite Nat2Z.id, lookup_app_r, Nat.sub_diag by lia. done.
  - rewrite IH by lia. destruct (decide (t = topic)) as [->|Hne].
    + assert (p ≠ Z.of_nat (length pl)) by congruence.
      destruct (decide (0 ≤ p < Z.of_nat (length pl))) as [Hp|Hp].
      * rewrite !decide_True by (split; [done|lia]). rewrite lookup_app_l by lia. done.
      * rewrite !decide_False by lia. done.
    + rewrite !decide_False by naive_solver. done.
Qed.

Section ProposeFacts.
Context `{FairRandom R} (bs : list UsableBroker) (topics : list (string * (nat * Z))).
Hypothesis Hids : NoDup (map id bs).
Hypothesis Hunf : unfenced_ids bs ≠ [].
Hypothesis Htopics : ∀ t n rf, bt_get t topics = Some (n, rf) →
  1 ≤ rf ≤ Z.of_nat (length bs) ∧ Z.of_nat n ≤ 2 ^ 31.

(** The proposal for one topic. *)
Definition proposes (m : list ((string * Z) * list Z)) (t : string) : Prop :=
  ∃ n rf, bt_get t topics = Some (n, rf) ∧ ∀ p,
    if decide (0 ≤ p < Z.of_nat n)
    then ∃ ps, bt_get (t, p) m = Some ps ∧ good_replicas bs (Z.to_nat rf) ps
    else bt_get (t, p) m = None.

Lemma propose_topics_total names m (r : R) :
  NoDup names → (∀ t, t ∈ names → is_Some (bt_get t topics)) → bt_wf m →
  (∀ t p, t ∈ names → bt_get (t, p) m = None) →
  total (λ fuel, propose_topics fuel r topics bs names m)
    (λ '(res, _), ∃ m', res = Ok m' ∧ bt_wf m' ∧ (∀ t, t ∈ names → proposes m' t) ∧
       (∀ t p, t ∉ names → bt_get (t, p) m' = bt_get (t, p) m)).
Proof.
  revert m r. induction names as [|t names IH]; intros m r Hnd Hin Hm Hnone; simpl.
  { apply total_ret. exists m. split; [done|]. split; [done|]. split; [set_solver|done]. }
  apply NoDup_cons in Hnd as [Hnin Hnd].
  destruct (Hin t) as [[n rf] Ht]; [left|]. rewrite Ht. simpl.
  destruct (Htopics _ _ _ Ht) as [Hrf Hn].
  total_bind; [by apply place_total|]. intros [res r1] (ps & -> & Hlen & Hgood).
  eapply total_mono; [apply IH; [done|set_solver|by apply insert_placements_wf|]|].
  - intros t' p Ht'. rewrite insert_placements_get by (rewrite ?Hlen; done).
    rewrite decide_False by set_solver. apply Hnone. by right.
  - intros [res r2] (m' & -> & Hm' & Hprop & Hrest). exists m'.
    split; [done|]. split; [done|]. split.
    + intros t' [->|Ht']%elem_of_cons; [|by apply Hprop].
      exists n, rf. split; [done|]. intros p. rewrite (Hrest t p Hnin).
      rewrite insert_placements_get by (rewrite ?Hlen; done). rewrite Hlen.
      case_decide as Hp.
      * rewrite decide_True by done.
        destruct (lookup_lt_is_Some_2 ps (Z.to_nat p)) as [q Hq]; [lia|].
        exists q. split; [done|]. by eapply Forall_lookup_1.
      * rewrite decide_False by naive_solver. apply Hnone. left.
    + intros t' p Ht'. rewrite Hrest by set_solver.
      rewrite insert_placements_get by (rewrite ?Hlen; done).
      rewrite decide_False by set_solver. done.
Qed.
End ProposeFacts.

(** ** Exhaustion *)

(** With no broker left in the epoch, the inner loop of a placement goes round
    for ever. *)
Lemma next_replica_exhausted names e l first_rack pos fuel :
  names_ok names l → (pos < length names)%nat → flat (rack_left e) l = [] →
  next_replica fuel names e l first_rack pos = Timeout.
Proof.
  intros Hn Hpos Hnil. revert first_rack pos Hpos.
  induction fuel as [|fuel IH]; intros first_rack pos Hpos; [done|]. simpl.
  assert ((pos + 1) mod length names < length names)%nat by (apply Nat.mod_upper_bound; lia).
  destruct (decide (first_rack = Some pos)); simpl; [by apply IH|].
  destruct (names_rack names l pos Hn Hpos) as (i & x & Hi & Hx).
  rewrite Hi. simpl. rewrite Hx. simpl. pose proof (rack_next_spec e x.2) as Hspec.
  destruct (rack_next e x.2) as [[b|] r]; simpl.
  - exfalso. pose proof (popped_left _ _ _ _ Hspec) as Hl.
    assert (b ∈ flat (rack_left e) l) as Hb.
    { apply elem_of_flat. exists i, x. split; [done|]. rewrite Hl. left. }
    rewrite Hnil in Hb. set_solver.
  - destruct Hspec as [_ ->]. rewrite list_insert_id by (rewrite Hx; by destruct x). by apply IH.
Qed.

(** Two unfenced brokers in two racks. *)
Definition two_racks : list UsableBroker :=
  [broker 0 (Some "a") false; broker 1 (Some "b") false].

(** The state after a placement of two replicas and one of a single replica. *)
Definition after_mixed : outcome (RackList Lcg48) :=
  rl ← rack_list_new 20 (lcg_new 0) two_racks;
  '(_, rl) ← rack_list_place 20 rl 2;
  '(_, rl) ← rack_list_place 20 rl 1;
  Done rl.

(** ** Properties *)

(** C8. [place] is total and correct for the JDK's generator: with distinct
    broker IDs, a replication factor between 1 and the number of brokers, and
    an unfenced broker, it ends without a panic for every seed, and gives each
    partition exactly that many distinct brokers of the list, the first of them
    unfenced. *)
Theorem place_correct (bs : list UsableBroker) (partitions : nat) (rf : Z) (source : Lcg48) :
  NoDup (map id bs) → 1 ≤ rf ≤ Z.of_nat (length bs) →
  (∃ b, b ∈ bs ∧ fenced b = false) →
  ∃ ps source', length ps = partitions ∧
    Forall (good_replicas bs (Z.to_nat rf)) ps ∧
    ∃ enough, ∀ fuel, (enough ≤ fuel)%nat →
      place fuel source partitions rf bs = Done (Ok ps, source').
Proof.
  intros Hnd Hrf (b & Hb & Hf).
  assert (unfenced_ids bs ≠ []) as Hne.
  { intros E. assert (id b ∈ unfenced_ids bs) as Hin; [|rewrite E in Hin; set_solver].
    apply list_elem_of_fmap. exists b. split; [done|]. by apply list_elem_of_filter. }
  destruct (place_total bs partitions rf source Hnd Hrf Hne)
    as ([res source'] & (ps & -> & Hlen & Hgood) & n & Hn).
  exists ps, source'. eauto.
Qed.

Lemma place_correct_witness :
  NoDup (map id two_racks) ∧
  ∃ ps source', length ps = 5%nat ∧
    Forall (good_replicas two_racks 2) ps ∧
    ∃ enough, ∀ fuel, (enough ≤ fuel)%nat →
      place fuel (lcg_new 7) 5 2 two_racks = Done (Ok ps, source').
Proof.
  assert (NoDup (map id two_racks)) as Hnd by (apply (bool_decide_unpack _); by vm_compute).
  split; [exact Hnd|]. apply (place_correct two_racks 5 2 (lcg_new 7) Hnd); [simpl; lia|].
  exists (broker 0 (Some "a") false). split; [left|reflexivity].
Defined.

(** Where the checks refuse, [place] returns Kafka's message, in the order
    of the checks: a replication factor that is not positive, then no unfenced
    broker, then too few brokers. *)
Theorem place_refuses (bs : list UsableBroker) (partitions : nat) (rf : Z) (source : Lcg48)
    (message : string) :
  place_refusal rf bs = Some message →
  ∃ source' enough, ∀ fuel, (enough ≤ fuel)%nat →
    place fuel source partitions rf bs = Done (Err message, source').
Proof.
  intros Hm. destruct (place_refusal_total bs partitions rf source message Hm)
    as ([res source'] & -> & n & Hn). eauto.
Qed.

Lemma place_refuses_witness :
  ∃ source' enough, ∀ fuel, (enough ≤ fuel)%nat →
    place fuel (lcg_new 7) 1 3 two_racks =
    Done (Err "The target replication factor of 3 cannot be reached because only 2 broker(s) are registered or some brokers have all their log directories cordoned.", source').
Proof. apply (place_refuses two_racks 1 3 (lcg_new 7)). reflexivity. Defined.

(** [propose] keeps each topic's partition count and replication factor:
    where every topic's first partition has between 1 and as many replicas as
    there are brokers, it ends and proposes, for each topic, exactly the
    partitions 0 to count - 1, each with that many distinct brokers, an
    unfenced one first. *)
Theorem propose_correct (current : list ((string * Z) * list Z)) (bs : list UsableBroker)
    (source : Lcg48) :
  NoDup (map id bs) → (∃ b, b ∈ bs ∧ fenced b = false) →
  Z.of_nat (length current) ≤ 2 ^ 31 →
  (∀ t n rf, shape_of (entries_of t current) = Some (n, rf) → 1 ≤ rf ≤ Z.of_nat (length bs)) →
  ∃ proposed source', bt_wf proposed ∧
    (∀ t p, match shape_of (entries_of t current) with
      | Some (n, rf) =>
          if decide (0 ≤ p < Z.of_nat n)
          then ∃ ps, bt_get (t, p) proposed = Some ps ∧ good_replicas bs (Z.to_nat rf) ps
          else bt_get (t, p) proposed = None
      | None => bt_get (t, p) proposed = None
      end) ∧
    ∃ enough, ∀ fuel, (enough ≤ fuel)%nat →
      propose fuel source current bs = Done (Ok proposed, source').
Proof.
  intros Hnd (b & Hb & Hf) Hlen Hrf.
  assert (unfenced_ids bs ≠ []) as Hne.
  { intros E. assert (id b ∈ unfenced_ids bs) as Hin; [|rewrite E in Hin; set_solver].
    apply list_elem_of_fmap. exists b. split; [done|]. by apply list_elem_of_filter. }
  assert (∀ t n rf, bt_get t (topic_shapes current) = Some (n, rf) →
    1 ≤ rf ≤ Z.of_nat (length bs) ∧ Z.of_nat n ≤ 2 ^ 31) as Htopics.
  { intros t n rf. rewrite topic_shapes_get. intros Hs. split; [by eapply Hrf|].
    assert (n = length (entries_of t current)) as ->.
    { unfold shape_of in Hs. destruct (entries_of t current); by simplify_eq. }
    pose proof (length_filter (λ x : (string * Z) * list Z, x.1.1 = t) current).
    unfold entries_of. lia. }
  pose proof (topic_shapes_wf current) as Hwf.
  destruct (propose_topics_total bs (topic_shapes current) Hnd Hne Htopics
    (hash_order (bt_keys (topic_shapes current)) Default string_hash) [] source)
    as ([res source'] & (m & -> & Hm & Hin & Hout) & n & Hn).
  - rewrite hash_order_perm. by apply bt_keys_NoDup.
  - intros t Ht. rewrite elem_of_hash_order in Ht. by apply elem_of_bt_keys.
  - apply bt_nil_wf.
  - done.
  - exists m, source'. split; [done|]. split; [|eauto]. intros t p. rewrite <-topic_shapes_get.
    destruct (bt_get t (topic_shapes current)) as [[k rf]|] eqn:Ht.
    + destruct (Hin t) as (k' & rf' & Ht' & Hp); [|simplify_eq; apply Hp].
      rewrite elem_of_hash_order. apply elem_of_bt_keys; [done|]. by eexists.
    + rewrite Hout; [done|]. rewrite elem_of_hash_order, elem_of_bt_keys by done.
      rewrite Ht. by intros [].
Qed.

Lemma propose_correct_witness :
  ∃ proposed source', bt_wf proposed ∧
    (∃ ps, bt_get ("t", 1) proposed = Some ps ∧ good_replicas two_racks 2 ps) ∧
    ∃ enough, ∀ fuel, (enough ≤ fuel)%nat →
      propose fuel (lcg_new 3) [(("t", 0), [1; 0]); (("t", 1), [0; 1])] two_racks
      = Done (Ok proposed, source').
Proof.
  destruct (propose_correct [(("t", 0), [1; 0]); (("t", 1), [0; 1])] two_racks (lcg_new 3))
    as (m & source' & Hm & Hp & Hn).
  - apply (bool_decide_unpack _). by vm_compute.
  - exists (broker 0 (Some "a") false). split; [left|reflexivity].
  - simpl. lia.
  - intros t n rf. unfold entries_of. simpl. rewrite !filter_cons, filter_nil. simpl.
    case_decide; simpl; intros Hs; [|done].
    injection Hs as Hs1 Hs2. subst rf. vm_compute. split; discriminate.
  - exists m, source'. split; [exact Hm|]. split; [exact (Hp "t" 1)|exact Hn].
Defined.

(** C38. [RackList::place] is only safe at one replication factor: over two
    unfenced brokers in two racks, a placement of two replicas, then of one,
    then of two again never returns, since the epoch wraps to the value that
    the unused list last saw and that list is taken for exhausted. *)
Theorem rack_list_place_mixed_factors_diverges :
  ∃ rl, after_mixed = Done rl ∧ ∀ fuel, rack_list_place fuel rl 2 = Timeout.
Proof.
  eexists. split; [vm_compute; reflexivity|]. intros fuel.
  unfold rack_list_place. cbn [total_brokers unfenced_brokers].
  change (check_replication_factor 2 2 2) with (Ok (E := string) tt).
  cbv beta iota.
  unfold place_unchecked. cbn [list_epoch unfenced_brokers].
  set (sh := rack_list_shuffle fuel _). vm_compute in sh. subst sh.
  cbn -[first_replica more_replicas].
  destruct fuel as [|[|fuel]]; [reflexivity|reflexivity|].
  set (fr := first_replica _ _ _ _ _). vm_compute in fr. subst fr. 
  change (Z.to_nat (2 - 1)) with 1%nat. cbn -[next_replica].
  rewrite next_replica_exhausted; [reflexivity| | |reflexivity].
  - unfold names_ok. reflexivity.
  - simpl. lia.
Qed.
