(* ===== verification/Json.v ===== *)
(** [serde_json::Value], the parts of [serde_json] the sources call, and
    [kafka_json.rs]: Kafka's [DecodeJson] reading of tool input files, with its
    messages.

    [serde_json] itself is a dependency, so reading and writing text are the
    operations of the class [SerdeJson]; everything else is computed. *)

From S2P Require Import Prelude Collections Rust.

#[local] Set Warnings "-register-all".

(** A JSON number: an integer, which [serde_json] keeps at 64 bits, or a
    fraction, which no function here looks into. *)
Inductive Number :=
  | Int (z : Z)
  | Float (text : string).

(** [serde_json::Value]. A parsed object is a [BTreeMap], so its entries are
    in key order; a serialized struct lists its fields in declaration order. *)
Inductive Value :=
  | Null
  | Bool (b : bool)
  | Num (n : Number)
  | Str (s : string)
  | Array (items : list Value)
  | Object (entries : list (string * Value)).

(** [serde_json::from_str::<Value>], and [serde_json::to_string], which is also
    how a [Value] displays. *)
Class SerdeJson := {
  from_str : string → result string Value;
  json_text : Value → string
}.

(** The value that a text written from [v] reads as: each object's entries in
    key order, a later duplicate replacing an earlier one. *)
Fixpoint canonical (v : Value) : Value :=
  match v with
  | Array items => Array (map canonical items)
  | Object entries => Object (bt_collect (map (λ '(k, x), (k, canonical x)) entries))
  | _ => v
  end.

(** [Number::as_i64] through [Value::as_i64]. *)
Definition as_i64 (v : Value) : option Z :=
  match v with Num (Int z) => try_signed 64 z | _ => None end.

Definition as_str (v : Value) : option string :=
  match v with Str s => Some s | _ => None end.

Definition as_array (v : Value) : option (list Value) :=
  match v with Array items => Some items | _ => None end.

Definition as_object (v : Value) : option (list (string * Value)) :=
  match v with Object entries => Some entries | _ => None end.

(** Shorthands of the [json!] macro. *)
Definition num (z : Z) : Value := Num (Int z).
Definition nums (l : list Z) : Value := Array (map num l).
Definition strs (l : list string) : Value := Array (map Str l).
Definition opt_str (o : option string) : Value := from_option Str Null o.
Definition opt_num (value : option Z) : Value := from_option num Null value.

(** [json!({...})] and [serde_json::to_value]: entries go into a map. *)
Definition object_of (entries : list (string * Value)) : Value := Object (bt_collect entries).

(** ** [kafka_json.rs] *)

(** A value, or Jackson's [MissingNode] for a text of only whitespace. *)
Definition Document : Type := option Value.

Section KafkaJson.
Context `{SerdeJson}.

Definition try_parse_full (text : string) : result string Document :=
  if bool_decide (text = "") then Err "The input string shouldn't be empty"
  else if bool_decide (trim text = "") then Ok None
  else Some <$> from_str text.

Definition parse_full (text : string) : option Document := result_ok (try_parse_full text).

Definition object (value : Value) : result string (list (string * Value)) :=
  ok_or (as_object value) ("Expected JSON object, received " +:+ json_text value).

Definition document_object (document : Document) : result string (list (string * Value)) :=
  match document with
  | None => Err "Expected JSON object, received "
  | Some value => object value
  end.

Definition array (value : Value) : result string (list Value) :=
  ok_or (as_array value) ("Expected JSON array, received " +:+ json_text value).

Definition field (object : list (string * Value)) (name : string) : result string Value :=
  ok_or (bt_get name object) ("No such field exists: `" +:+ name +:+ "`").

Definition mismatch (expected : string) (value : Value) : string :=
  "Expected `" +:+ expected +:+ "` value, received " +:+ json_text value.

Definition int (value : Value) : result string Z :=
  ok_or (number ← as_i64 value; try_signed 32 number) (mismatch "Integer" value).

(** [kafka_json::string]; the plain name is the type of strings here. *)
Definition string_value (value : Value) : result string string :=
  ok_or (as_str value) (mismatch "String" value).

Definition int_list (value : Value) : result string (list Z) :=
  items ← ok_or (as_array value) (mismatch "JSON array" value); try_map int items.

Definition string_list (value : Value) : result string (list string) :=
  items ← ok_or (as_array value) (mismatch "JSON array" value); try_map string_value items.
End KafkaJson.

(** ** A compact writer, for examples *)

(** What [serde_json] writes for values without characters to escape. *)
Definition dquote : string := String (Ascii.ascii_of_nat 34) "".

Fixpoint compact (v : Value) : string :=
  match v with
  | Null => "null"
  | Bool b => if b then "true" else "false"
  | Num (Int z) => pretty z
  | Num (Float t) => t
  | Str s => dquote +:+ s +:+ dquote
  | Array items => "[" +:+ join "," (map compact items) +:+ "]"
  | Object entries =>
      "{" +:+ join "," (map (λ '(k, x), dquote +:+ k +:+ dquote +:+ ":" +:+ compact x) entries)
      +:+ "}"
  end.

(** How deep the arrays and objects of a value nest. *)
Fixpoint depth (v : Value) : nat :=
  match v with
  | Array items => S (foldr (λ x d, Nat.max (depth x) d) 0%nat items)
  | Object entries => S (foldr (λ '(_, x) d, Nat.max (depth x) d) 0%nat entries)
  | _ => 0
  end.

(** A text of [v] with the members of its objects in the order they have, and
    every other part as [serde_json] writes it. *)
Fixpoint written `{SerdeJson} (v : Value) : string :=
  match v with
  | Array items => "[" +:+ join "," (map written items) +:+ "]"
  | Object entries =>
      "{" +:+ join "," (map (λ '(k, x), json_text (Str k) +:+ ":" +:+ written x) entries) +:+ "}"
  | v => json_text v
  end.

(** What a program that writes JSON by hand relies on: how the simplest values
    are written, and that the text of an object reads as an object, up to the
    depth at which [serde_json] gives up. *)
Class SerdeReads `{SerdeJson} : Prop := {
  text_null : json_text Null = "null";
  text_bool b : json_text (Bool b) = if b then "true" else "false";
  text_num z : json_text (num z) = pretty z;
  text_plain s : all_bytes is_ascii_alpha s = true → json_text (Str s) = dquote +:+ s +:+ dquote;
  reads_object entries :
    (depth (Object entries) < 128)%nat →
    ∃ entries', from_str (written (Object entries)) = Ok (Object entries')
}.

(** An instance that reads every text as [v]. *)
Definition reads_as (v : Value) : SerdeJson :=
  {| from_str _ := Ok v; json_text := compact |}.

(** ** Lemmas *)

Section JsonLemmas.
Context `{SerdeJson}.

Lemma int_num z : i32_ok z → int (num z) = Ok z.
Proof.
  intros Hz. unfold int. simpl.
  assert (try_signed 64 z = Some z) as ->.
  { apply try_signed_Some. split; [done|]. unfold i32_ok, in_signed in *. lia. }
  simpl. assert (try_signed 32 z = Some z) as -> by (by apply try_signed_Some). done.
Qed.

(** [int] accepts exactly the JSON integers of 32 bits. *)
Lemma int_Ok v z : int v = Ok z ↔ v = num z ∧ i32_ok z.
Proof.
  split.
  - unfold int. destruct v as [| |[n|t]| | |]; simpl; try done.
    destruct (try_signed 64 n) as [m|] eqn:E1; simpl; [|done].
    destruct (try_signed 32 m) as [k|] eqn:E2; simpl; [|done].
    apply try_signed_Some in E1 as [-> _]. apply try_signed_Some in E2 as [-> ?].
    by intros [= <-].
  - intros [-> Hz]. by apply int_num.
Qed.

Lemma int_list_nums l : Forall i32_ok l → int_list (nums l) = Ok l.
Proof.
  intros Hl. unfold int_list, nums. simpl. apply try_map_Ok.
  induction Hl as [|z l Hz _ IH]; simpl; constructor; [by apply int_num|done].
Qed.

Lemma string_list_strs l : string_list (strs l) = Ok l.
Proof.
  unfold string_list, strs. simpl. apply try_map_Ok.
  induction l as [|s l IH]; simpl; constructor; done.
Qed.

Lemma canonical_nums l : canonical (nums l) = nums l.
Proof.
  unfold nums. simpl. f_equal. rewrite map_map. by apply map_ext.
Qed.

Lemma canonical_strs l : canonical (strs l) = strs l.
Proof.
  unfold strs. simpl. f_equal. rewrite map_map. by apply map_ext.
Qed.
End JsonLemmas.
