(* ===== verification/TopicPartition.v ===== *)
(** [topic_partition.rs]: Kafka's [TopicPartition], ordered by topic and then
    by index. *)

From S2P Require Import Prelude Collections Rust Jvm.

Record TopicPartition := { topic : string; partition : Z }.

#[export] Instance TopicPartition_eq_dec : EqDecision TopicPartition.
Proof. solve_decision. Defined.

(** The derived [Ord]: by topic name, then by partition index. *)
#[export] Instance TopicPartition_ord : Ord TopicPartition :=
  ord_via (λ p, (topic p, partition p)) (λ '(t, i), {| topic := t; partition := i |})
    (λ p, match p with {| topic := t; partition := i |} => eq_refl end).

Definition tp_new (topic : string) (partition : Z) : TopicPartition :=
  {| topic := topic; partition := partition |}.

Definition java_hash (p : TopicPartition) : Z := topic_partition_hash (topic p) (partition p).

(** [Display]. *)
Definition tp_display (p : TopicPartition) : string := topic p +:+ "-" +:+ pretty (partition p).

(** [topic_partition::join]. *)
Definition join_partitions (partitions : list TopicPartition) (separator : string) : string :=
  join separator (map tp_display partitions).

Example join_sorted :
  join_partitions (sort [tp_new "foo" 10; tp_new "bar" 2; tp_new "foo" 9]) "," =
  "bar-2,foo-9,foo-10".
Proof. vm_compute. reflexivity. Qed.

Example java_hash_foo_9 : java_hash (tp_new "foo" 9) = 102814.
Proof. vm_compute. reflexivity. Qed.
