(* ===== verification/Output.v ===== *)
(** How a command ends: exit codes ([exit.rs]), the confirmation guard
    ([safety.rs]), payloads, failures and their rendering ([output.rs]), the
    naming of admin errors ([kafka_errors.rs]), and the driver that renders a
    command's result or its cancellation ([lib.rs]). *)

From Stdlib Require Import Ascii.
From S2P Require Import Prelude Collections Rust Json KafkaErrors.

(** ** [exit.rs] *)

Inductive Exit :=
  | Success
  | Failure
  | UsageExit
  | CannotExecute
  | NotFound
  | Signal (signal : Z)
  | Cancelled
  | Passthrough (code : Z).

Definition exit_code (e : Exit) : Z :=
  match e with
  | Success => 0
  | Failure => 1
  | UsageExit => 2
  | CannotExecute => 126
  | NotFound => 127
  | Signal signal => 128 + signal
  | Cancelled => 130
  | Passthrough code => code
  end.

Definition from_failed (failed : bool) : Exit := if failed then Failure else Success.

(** ** [safety.rs] *)

Record ConfirmArgs := { dry_run_flag : bool; yes_flag : bool }.

Record Impact := { summary : string; resources : list string }.

Inductive Refusal := NonInteractive | Declined.

Definition refusal_exit (r : Refusal) : Exit :=
  match r with NonInteractive => UsageExit | Declined => Cancelled end.

Definition refusal_message (r : Refusal) : string :=
  match r with
  | NonInteractive =>
      "refusing to prompt for confirmation on a non-interactive stdin; pass --yes to proceed"
  | Declined => "not confirmed; nothing was changed"
  end.

Definition newline : string := String (ascii_of_nat 10) "".
Definition tab : string := String (ascii_of_nat 9) "".

(** [writeln!] of each line. *)
Definition lines_text (lines : list string) : string :=
  String.concat "" (map (λ line, line +:+ newline) lines).

(** [BufRead::read_line]: the text up to and with the first newline, and what
    is left unread. *)
Fixpoint read_line (input : string) : string * string :=
  match input with
  | EmptyString => ("", "")
  | String c rest =>
      if bool_decide (c = ascii_of_nat 10) then (String c "", rest)
      else let '(line, rest) := read_line rest in (String c line, rest)
  end.

Definition prompt_text (command : string) (impact : Impact) : string :=
  lines_text ((command +:+ ": this will " +:+ summary impact +:+ ":") ::
              map (λ resource, "  " +:+ resource) (resources impact)) +:+
  "Proceed? [y/N] ".

Definition answers_yes (answer : string) : bool :=
  bool_decide (to_ascii_lowercase (trim answer) ∈ ["y"; "yes"]).

(** [confirm_with] on streams: [prompt_ok] says whether the prompt stream
    takes the writes, and the input is [None] where reading fails. Returns the
    decision, what was written to the prompt, and what is left of the input. *)
Definition confirm_with (yes interactive : bool) (command : string) (impact : Impact)
    (input : option string) (prompt_ok : bool)
    : result Refusal unit * string * option string :=
  if yes then (Ok tt, "", input)
  else if negb interactive then (Err NonInteractive, "", input)
  else if negb prompt_ok then (Err Declined, "", input)
  else
    match input with
    | None => (Err Declined, prompt_text command impact, input)
    | Some text =>
        let '(answer, rest) := read_line text in
        (if answers_yes answer then Ok tt else Err Declined,
         prompt_text command impact, Some rest)
    end.

(** ** Admin client errors *)

(** [krabka_client_core::ClientError], by what the commands tell apart; the
    text of the others is what they display as. *)
Inductive ClientError :=
  | IncompatibleVersion (broker_max : Z) (text : string)
  | OtherClientError (text : string).

(** [krabka_client_admin::AdminError]. *)
Inductive AdminError :=
  | BrokerError (api : string) (code : Z) (name : string) (message : option string)
  | Transport (error : ClientError)
  | OtherAdminError (text : string).

(** What an error other than [BrokerError] displays as. *)
Definition admin_error_text (error : AdminError) : string :=
  match error with
  | BrokerError _ _ name _ => name
  | Transport (IncompatibleVersion _ text) | Transport (OtherClientError text) => text
  | OtherAdminError text => text
  end.

(** ** [output.rs] *)

Inductive OutputFormat := Human | JsonFormat.

Inductive LastLine := Newline | Bare.

Record CommandResult := {
  human : list string;
  data : Value;
  failed : bool;
  dry_run : bool;
  notices : list string;
  marker_on_stderr : bool;
  last_line : LastLine
}.

Definition rows (human : list string) (data : Value) (failed : bool) : CommandResult :=
  {| human := human; data := data; failed := failed; dry_run := false; notices := [];
     marker_on_stderr := false; last_line := Newline |}.

(** [CommandResult::success]. *)
Definition success (human : list string) (data : Value) : CommandResult := rows human data false.

Definition without_final_newline (r : CommandResult) : CommandResult :=
  {| human := human r; data := data r; failed := failed r; dry_run := dry_run r;
     notices := notices r; marker_on_stderr := marker_on_stderr r; last_line := Bare |}.

Definition with_notices (r : CommandResult) (more : list string) : CommandResult :=
  {| human := human r; data := data r; failed := failed r; dry_run := dry_run r;
     notices := notices r ++ more; marker_on_stderr := marker_on_stderr r;
     last_line := last_line r |}.

Definition into_dry_run (r : CommandResult) : CommandResult :=
  {| human := human r; data := data r; failed := failed r; dry_run := true;
     notices := notices r; marker_on_stderr := marker_on_stderr r; last_line := last_line r |}.

Definition into_kafka_dry_run (r : CommandResult) : CommandResult :=
  {| human := human r; data := data r; failed := failed r; dry_run := true;
     notices := notices r; marker_on_stderr := true; last_line := last_line r |}.

Definition DRY_RUN_MARKER : string := "DRY RUN: no change was made.".

(** The lines of [Emit::human] for [CommandResult]: each with its newline,
    but a [Bare] last line. *)
Fixpoint human_lines (last : LastLine) (lines : list string) : string :=
  match lines with
  | [] => ""
  | [line] => match last with Bare => line | Newline => line +:+ newline end
  | line :: lines => (line +:+ newline) +:+ human_lines last lines
  end.

(** [Emit::human]. *)
Definition emit_human (r : CommandResult) : string :=
  (if dry_run r && negb (marker_on_stderr r) then DRY_RUN_MARKER +:+ newline else "") +:+
  human_lines (last_line r) (human r).

(** [Emit::notices]. *)
Definition emit_notices (r : CommandResult) : list string :=
  (if dry_run r && marker_on_stderr r then [DRY_RUN_MARKER] else []) ++ notices r.

Inductive CommandError :=
  | Broker (api : string) (code : Z) (name : string) (message : option string)
  | Refused (refusal : Refusal)
  | Usage (message : string)
  | Other (message : string).

Definition command_exit (e : CommandError) : Exit :=
  match e with
  | Refused refusal => refusal_exit refusal
  | Usage _ => UsageExit
  | Broker _ _ _ _ | Other _ => Failure
  end.

(** [From<AdminError> for CommandError]. *)
Definition from_admin_error (e : AdminError) : CommandError :=
  match e with
  | BrokerError api code name message =>
      Broker api code (if bool_decide (name = "UNKNOWN") then exc_name (for_code code) else name)
        message
  | other => Other (admin_error_text other)
  end.

(** [Display for CommandError]. *)
Definition command_error_text (e : CommandError) : string :=
  match e with
  | Broker api code name message =>
      api +:+ " failed: " +:+ name +:+ " (" +:+ pretty code +:+ ")" +:+
      match message with
      | Some message => if bool_decide (message = "") then "" else ": " +:+ message
      | None => ""
      end
  | Refused refusal => refusal_message refusal
  | Usage message | Other message => message
  end.

(** [output::kafka_error]. *)
Definition kafka_error_json (error : option KafkaError) : Value :=
  match error with
  | None => Null
  | Some error =>
      object_of [("code", num (error_code error)); ("name", Str (error_name error));
                 ("message", opt_str (error_message error))]
  end.

(** [kafka_errors::admin_error]. *)
Definition admin_error (e : AdminError) : CommandError :=
  match e with
  | BrokerError api code name message =>
      let exception := for_code code in
      Broker api code (if is_known code then exc_name exception else name)
        (match message with
         | Some message' =>
             if bool_decide (message' = "") then
               (if is_known code then Some (exc_message exception) else None)
             else Some message'
         | None => if is_known code then Some (exc_message exception) else None
         end)
  | other => from_admin_error other
  end.

Section Render.
Context `{SerdeJson}.

(** The envelope of [render_success] under [--output json]. *)
Definition success_envelope (r : CommandResult) : Value :=
  object_of (("data", data r) :: if dry_run r then [("dry_run", Bool true)] else []).

Definition render_success (r : CommandResult) (format : OutputFormat) : string :=
  match format with
  | Human => emit_human r
  | JsonFormat => json_text (success_envelope r) +:+ newline
  end.

Definition error_envelope (message : string) (code : Exit) : Value :=
  object_of [("error", object_of [("code", num (exit_code code)); ("message", Str message)])].

Definition render_error (command message : string) (code : Exit) (format : OutputFormat)
    : string :=
  match format with
  | Human => command +:+ ": " +:+ message +:+ newline
  | JsonFormat => json_text (error_envelope message code) +:+ newline
  end.

Definition render_notices (r : CommandResult) (format : OutputFormat) : string :=
  match format with Human => lines_text (emit_notices r) | JsonFormat => "" end.

(** ** The driver, [lib.rs] *)

(** An [io::Error] of stdout or stderr. *)
Record IoError := { broken_pipe : bool; io_text : string }.

(** What ends the [select!] of [run_until_cancelled]: the command's result, with
    what writing a success comes to, or the cancellation. *)
Inductive Ended :=
  | Finished (ended : result CommandError CommandResult) (write : result IoError unit)
  | CtrlC.

(** The exit code, and the text on stdout and on stderr; [None] where a failed
    write leaves it incomplete. *)
Record Report := {
  report_exit : Exit;
  report_stdout : option string;
  report_stderr : option string
}.

Definition CANCELLED_MESSAGE : string :=
  "cancelled; a request in flight may already have reached the broker".

Definition run_until_cancelled (command : string) (ended : Ended) (format : OutputFormat)
    : Report :=
  match ended with
  | Finished (Ok r) (Err error) =>
      {| report_exit := if broken_pipe error then from_failed (failed r) else Failure;
         report_stdout := None; report_stderr := None |}
  | Finished (Ok r) (Ok _) =>
      {| report_exit := from_failed (failed r);
         report_stdout := Some (render_success r format);
         report_stderr := Some (render_notices r format) |}
  | Finished (Err error) _ =>
      {| report_exit := command_exit error; report_stdout := Some "";
         report_stderr :=
           Some (render_error command (command_error_text error) (command_exit error) format) |}
  | CtrlC =>
      {| report_exit := Cancelled; report_stdout := Some "";
         report_stderr := Some (render_error command CANCELLED_MESSAGE Cancelled format) |}
  end.

(** [default_filter]. *)
Definition default_filter (verbose quiet : Z) : string :=
  if (verbose =? 0) && (quiet =? 0) then "info"
  else if verbose =? 1 then "debug"
  else if 2 <=? verbose then "trace"
  else if quiet =? 1 then "warn"
  else if quiet =? 2 then "error"
  else "off".
End Render.

(** ** Cases of the sources' tests *)

Example prompt_example :
  prompt_text "krabka topics" {| summary := "delete 2 topic(s)"; resources := ["orders"; "payments"] |} =
  lines_text ["krabka topics: this will delete 2 topic(s):"; "  orders"; "  payments"] +:+
  "Proceed? [y/N] ".
Proof. reflexivity. Qed.

Example default_filters :
  map (λ '(v, q), default_filter v q) [(0, 0); (1, 0); (2, 0); (5, 0); (0, 1); (0, 2); (0, 3)] =
  ["info"; "debug"; "trace"; "trace"; "warn"; "error"; "off"].
Proof. reflexivity. Qed.

Example admin_error_unknown_code :
  command_error_text (admin_error (BrokerError "CreateDelegationToken" 9999 "UNKNOWN" None)) =
  "CreateDelegationToken failed: UNKNOWN (9999)".
Proof. vm_compute. reflexivity. Qed.

(** ** Properties *)

(** [confirm_with] lets an operation proceed in exactly two cases: [--yes]
    was given, or stdin is a terminal, the prompt was written and the next line
    of the input, trimmed and in any case, is [y] or [yes]. Without a terminal
    it refuses with [NonInteractive], and it reads at most one line. *)
Theorem confirm_with_spec (yes interactive : bool) (command : string) (impact : Impact)
    (input : option string) (prompt_ok : bool) :
  let '(decision, prompt, unread) :=
    confirm_with yes interactive command impact input prompt_ok in
  (decision = Ok tt ↔ yes = true ∨
     (interactive = true ∧ prompt_ok = true ∧
      ∃ text, input = Some text ∧ answers_yes (read_line text).1 = true)) ∧
  (decision = Err NonInteractive ↔ yes = false ∧ interactive = false) ∧
  (yes = true ∨ interactive = false → prompt = "" ∧ unread = input) ∧
  (unread = input ∨ ∃ text, input = Some text ∧ unread = Some (read_line text).2).
Proof.
  unfold confirm_with. destruct yes; [naive_solver|].
  destruct interactive; [|naive_solver]. destruct prompt_ok; simpl; [|naive_solver].
  destruct input as [text|]; [|naive_solver].
  destruct (read_line text) as [answer rest] eqn:E. destruct (answers_yes answer) eqn:Ha.
  - repeat split; try done; try naive_solver.
    + right. repeat split; try done. exists text. split; [done|]. by rewrite E.
    + right. exists text. by rewrite E.
  - repeat split; try done; try naive_solver.
    + intros [|(_ & _ & t & [= <-] & Ht)]; [done|]. rewrite E in Ht. simpl in Ht. congruence.
    + right. exists text. by rewrite E.
Qed.

(** The code that an error envelope carries. *)
Definition envelope_code (envelope : Value) : option Z :=
  entries ← as_object envelope; error ← bt_get "error" entries; fields ← as_object error;
  code ← bt_get "code" fields; as_i64 code.

(** Under [--output json] a script that reads [$?] and one that reads the
    documents agree. A command that fails as a whole, or is cancelled, writes
    nothing to stdout and one error envelope to stderr, whose code is the
    process's exit code and is not 0. A command that finishes writes one
    document with its data to stdout, marked exactly when it is a dry run, and
    exits 1 exactly when a row failed. *)
Theorem json_documents_agree_with_exit `{SerdeJson} (command : string) (ended : Ended) :
  let r := run_until_cancelled command ended JsonFormat in
  match ended with
  | Finished (Ok result) (Ok _) =>
      ∃ envelope, report_stdout r = Some (json_text (Object envelope) +:+ newline) ∧
        bt_get "data" envelope = Some (data result) ∧
        bt_get "dry_run" envelope = (if dry_run result then Some (Bool true) else None) ∧
        report_stderr r = Some "" ∧
        exit_code (report_exit r) = if failed result then 1 else 0
  | Finished (Ok result) (Err error) =>
      exit_code (report_exit r) = if broken_pipe error && negb (failed result) then 0 else 1
  | _ =>
      ∃ envelope, report_stdout r = Some "" ∧
        report_stderr r = Some (json_text envelope +:+ newline) ∧
        envelope_code envelope = Some (exit_code (report_exit r)) ∧
        exit_code (report_exit r) ≠ 0
  end.
Proof.
  destruct ended as [[result|error] [|e]|]; simpl.
  - eexists. split; [reflexivity|]. destruct (dry_run result), (failed result); done.
  - by destruct (broken_pipe e), (failed result).
  - eexists. repeat split; by destruct error as [| [] | |].
  - eexists. repeat split; by destruct error as [| [] | |].
  - eexists. repeat split. done.
Qed.
