(* ===== verification/Program.v ===== *)
(** Commands as interactive programs: a tree of the calls that a command makes
    on the outside world (the cluster through the admin client, the terminal,
    the file system, the clock), each continued by what the world answers.

    Nothing is assumed about the answers, so a property of a tree holds for
    every cluster and every timing. [monitored] states such properties: it runs
    an automaton beside the program that watches each call and its answer. *)

From S2P Require Import Prelude Rust Json KafkaErrors Output.

(** The calls of a world and the type of each one's answer. *)
Record Signature := { call : Type; answer : call → Type }.

Section Programs.
Context {Σ : Signature}.

Inductive prog (A : Type) : Type :=
  | Halt (o : outcome A)
  | Vis (c : call Σ) (k : answer Σ c → prog A).
Arguments Halt {A} o.
Arguments Vis {A} c k.

Fixpoint prog_bind {A B} (f : A → prog B) (p : prog A) : prog B :=
  match p with
  | Halt (Done a) => f a
  | Halt Panic => Halt Panic
  | Halt Timeout => Halt Timeout
  | Vis c k => Vis c (λ r, prog_bind f (k r))
  end.

Definition ask (c : call Σ) : prog (answer Σ c) := Vis c (λ r, Halt (Done r)).

(** An event: a call and its answer. *)
Definition event : Type := {c : call Σ & answer Σ c}.

(** Runs a program against a world that answers from its own state, and lists
    the events in order. *)
Fixpoint run {W A} (world : ∀ c : call Σ, W → answer Σ c * W) (p : prog A) (w : W)
    : outcome A * W * list event :=
  match p with
  | Halt o => (o, w, [])
  | Vis c k =>
      let '(r, w) := world c w in
      let '(o, w, log) := run world (k r) w in
      (o, w, existT c r :: log)
  end.

(** An automaton that watches a program: what it allows in a state, and the
    state after an answer. *)
Record Monitor (S : Type) := {
  allows : S → call Σ → Prop;
  after : S → ∀ c : call Σ, answer Σ c → S
}.
Arguments allows {S} _.
Arguments after {S} _.

(** Every call of every run of [p] from [s] is allowed, and each run ends in a
    state and an outcome that satisfy [post]. *)
Fixpoint monitored {S A} (m : Monitor S) (s : S) (p : prog A) (post : S → outcome A → Prop)
    : Prop :=
  match p with
  | Halt o => post s o
  | Vis c k => allows m s c ∧ ∀ r, monitored m (after m s c r) (k r) post
  end.

(** The state of the automaton after a list of events, and whether it allowed
    each of them. *)
Fixpoint accepts {S} (m : Monitor S) (s : S) (log : list event) (post : S → Prop) : Prop :=
  match log with
  | [] => post s
  | existT c r :: log => allows m s c ∧ accepts m (after m s c r) log post
  end.

(** Soundness: what is monitored holds of every run against every world. *)
Lemma run_monitored {W S A} (world : ∀ c : call Σ, W → answer Σ c * W) (m : Monitor S)
    (s : S) (p : prog A) (post : S → outcome A → Prop) w :
  monitored m s p post →
  accepts m s (run world p w).2 (λ s', post s' (run world p w).1.1).
Proof.
  revert s w. induction p as [o|c k IH]; intros s w Hp; simpl in *; [done|].
  destruct Hp as [Hc Hk]. destruct (world c w) as [r w'].
  destruct (run world (k r) w') as [[o w''] log] eqn:E. simpl. split; [done|].
  specialize (IH r (after m s c r) w' (Hk r)). by rewrite E in IH.
Qed.

Lemma monitored_mono {S A} (m : Monitor S) s (p : prog A) (P Q : S → outcome A → Prop) :
  monitored m s p P → (∀ s' o, P s' o → Q s' o) → monitored m s p Q.
Proof.
  revert s. induction p as [o|c k IH]; simpl; intros s Hp HPQ; [auto|].
  destruct Hp as [Hc Hk]. split; [done|]. intros r. by apply IH.
Qed.

(** The post of the first part of a bind. *)
Definition bind_post {S A B} (m : Monitor S) (f : A → prog B) (post : S → outcome B → Prop)
    : S → outcome A → Prop :=
  λ s o, match o with
         | Done a => monitored m s (f a) post
         | Panic => post s Panic
         | Timeout => post s Timeout
         end.

Lemma monitored_bind {S A B} (m : Monitor S) s (p : prog A) (f : A → prog B) post :
  monitored m s p (bind_post m f post) → monitored m s (prog_bind f p) post.
Proof.
  revert s. induction p as [[]|c k IH]; simpl; intros s Hp; try done.
  destruct Hp as [Hc Hk]. split; [done|]. intros r. by apply IH.
Qed.

Lemma run_bind_full {W A B} (world : ∀ c : call Σ, W → answer Σ c * W) (p : prog A)
    (f : A → prog B) w :
  run world (prog_bind f p) w =
    let '(o, w', l) := run world p w in
    match o with
    | Done a => let '(o', w'', l') := run world (f a) w' in (o', w'', l ++ l')
    | Panic => (Panic, w', l)
    | Timeout => (Timeout, w', l)
    end.
Proof.
  revert w. induction p as [[]|c k IH]; intros w; cbn [prog_bind run].
  - by destruct (run world (f a) w) as [[o' w''] l'].
  - done.
  - done.
  - destruct (world c w) as [r w']. rewrite IH. destruct (run world (k r) w') as [[o1 w1] l1].
    destruct o1; [|done..]. by destruct (run world (f a) w1) as [[o2 w2] l2].
Qed.

Lemma run_bind {W A B} (world : ∀ c : call Σ, W → answer Σ c * W) (p : prog A)
    (f : A → prog B) w :
  (run world (prog_bind f p) w).1.1 =
    match (run world p w).1.1 with
    | Done a => (run world (f a) (run world p w).1.2).1.1
    | Panic => Panic
    | Timeout => Timeout
    end.
Proof.
  rewrite run_bind_full. destruct (run world p w) as [[[a| |] w'] l]; [|done..]. cbn.
  by destruct (run world (f a) w') as [[]].
Qed.

Lemma run_ask {W A} (world : ∀ c : call Σ, W → answer Σ c * W) c (f : answer Σ c → prog A) w :
  (run world (prog_bind f (ask c)) w).1.1 =
    (run world (f (world c w).1) (world c w).2).1.1.
Proof.
  simpl. destruct (world c w) as [r w']. simpl. by destruct (run world (f r) w') as [[o w''] log].
Qed.

(** ** Traces *)

(** [p] can go through the events [log] and end in [o]. *)
Fixpoint trace {A} (p : prog A) (log : list event) (o : outcome A) : Prop :=
  match p with
  | Halt o' => log = [] ∧ o = o'
  | Vis c k => ∃ r log', log = existT c r :: log' ∧ trace (k r) log' o
  end.

Lemma run_trace {W A} (world : ∀ c : call Σ, W → answer Σ c * W) (p : prog A) w :
  trace p (run world p w).2 (run world p w).1.1.
Proof.
  revert w. induction p as [o|c k IH]; intros w; simpl; [done|].
  destruct (world c w) as [r w']. specialize (IH r w').
  destruct (run world (k r) w') as [[o w''] log]. by exists r, log.
Qed.

(** The world gives the answers of the events, one after the other. *)
Fixpoint replays {W} (world : ∀ c : call Σ, W → answer Σ c * W) (w : W) (log : list event) (w' : W) : Prop :=
  match log with
  | [] => w = w'
  | existT c r :: log => (world c w).1 = r ∧ replays world (world c w).2 log w'
  end.

Lemma run_replays {W A} (world : ∀ c : call Σ, W → answer Σ c * W) (p : prog A) w :
  replays world w (run world p w).2 (run world p w).1.2.
Proof.
  revert w. induction p as [o|c k IH]; intros w; simpl; [done|].
  destruct (world c w) as [r w'] eqn:E. specialize (IH r w').
  destruct (run world (k r) w') as [[o w''] log]. cbn. by rewrite E.
Qed.

(** A trace of a bind is one of its first part, then one of the rest. *)
Lemma trace_bind_inv {A B} (f : A → prog B) (p : prog A) log o :
  trace (prog_bind f p) log o →
  ∃ log1 o1, trace p log1 o1 ∧
    match o1 with
    | Done a => ∃ log2, log = log1 ++ log2 ∧ trace (f a) log2 o
    | Panic => log = log1 ∧ o = Panic
    | Timeout => log = log1 ∧ o = Timeout
    end.
Proof.
  revert log. induction p as [[a| |]|c k IH]; intros log Ht; simpl in Ht.
  - exists [], (Done a). split; [done|]. by exists log.
  - by exists [], Panic.
  - by exists [], Timeout.
  - destruct Ht as (r & log' & -> & Ht). apply IH in Ht as (log1 & o1 & H1 & H2).
    exists (existT c r :: log1), o1. split; [by exists r, log1|].
    destruct o1; [destruct H2 as (log2 & -> & H2); by exists log2|by destruct H2 as [-> ->]..].
Qed.

(** ** Whole histories *)

(** Allows a call by the events before it. *)
Definition history (P : list event → call Σ → Prop) : Monitor (list event) :=
  {| allows := P; after := λ past c r, past ++ [existT c r] |}.

Lemma history_log P past log post pre e rest :
  accepts (history P) past log post → log = pre ++ e :: rest → P (past ++ pre) (projT1 e).
Proof.
  revert past log. induction pre as [|[c r] pre IH]; intros past log Hlog ->; simpl in Hlog.
  - destruct e as [c r]. destruct Hlog as [Hc _]. by rewrite app_nil_r.
  - destruct Hlog as [_ Hlog]. specialize (IH _ _ Hlog eq_refl). by rewrite <-app_assoc in IH.
Qed.

(** Every call of every run, by the events before it. *)
Lemma run_history {W A} (world : ∀ c : call Σ, W → answer Σ c * W) P (p : prog A) post w pre e rest :
  monitored (history P) [] p post → (run world p w).2 = pre ++ e :: rest → P pre (projT1 e).
Proof.
  intros Hp%(run_monitored world _ _ _ _ w) E. by apply (history_log _ [] _ _ _ _ _ Hp E).
Qed.

(** What holds of every trace holds of the histories that a monitor sees. *)
Lemma monitored_trace {A} P past (p : prog A) :
  monitored (history P) past p (λ _ _, True) →
  monitored (history P) past p (λ past' o, ∃ log, past' = past ++ log ∧ trace p log o).
Proof.
  revert past. induction p as [o|c k IH]; simpl; intros past Hp.
  - exists []. by rewrite app_nil_r.
  - destruct Hp as [Hc Hk]. split; [done|]. intros r. eapply monitored_mono; [by apply IH|].
    intros past' o (log & -> & Ht). exists (existT c r :: log). rewrite <-app_assoc.
    split; [done|]. by exists r, log.
Qed.
(** ** Returning *)

(** Against [world] in the state [w] the program returns a value, and the two satisfy
    [Q]. *)
Definition returns_to {W A} (world : ∀ c : call Σ, W → answer Σ c * W) (p : prog A) (w : W)
    (Q : A → W → Prop) : Prop :=
  ∃ a w' log, run world p w = (Done a, w', log) ∧ Q a w'.

Lemma returns_to_bind {W A B} (world : ∀ c : call Σ, W → answer Σ c * W) (p : prog A) (f : A → prog B) w Q :
  returns_to world p w (λ a w', returns_to world (f a) w' Q) → returns_to world (prog_bind f p) w Q.
Proof.
  intros (a & w1 & log1 & Hrun & b & w2 & log2 & Hrun2 & HQ). exists b, w2, (log1 ++ log2).
  by rewrite run_bind_full, Hrun, Hrun2.
Qed.

Lemma returns_to_vis {W A} (world : ∀ c : call Σ, W → answer Σ c * W) c (k : answer Σ c → prog A) w Q :
  returns_to world (k (world c w).1) (world c w).2 Q → returns_to world (Vis c k) w Q.
Proof.
  intros (a & w' & log & Hrun & HQ). exists a, w', (existT c (world c w).1 :: log). split; [|done]. cbn.
  destruct (world c w) as [r w1]. cbn in Hrun |- *. by rewrite Hrun.
Qed.

Lemma returns_to_halt {W A} (world : ∀ c : call Σ, W → answer Σ c * W) (a : A) w (Q : A → W → Prop) :
  Q a w → returns_to world (Halt (Done a)) w Q.
Proof. intros HQ. by exists a, w, []. Qed.

Lemma returns_to_mono {W A} (world : ∀ c : call Σ, W → answer Σ c * W) (p : prog A) w (P Q : A → W → Prop) :
  returns_to world p w P → (∀ a w', P a w' → Q a w') → returns_to world p w Q.
Proof. intros (a & w' & log & Hrun & HP) HPQ. exists a, w', log. auto. Qed.

(** Against worlds where [left], a measure of what the world still has to give, is
    at most [bound], the program returns a value, and gives nothing back. *)
Definition returns {W A} (world : ∀ c : call Σ, W → answer Σ c * W) (left : W → nat) (bound : nat)
    (p : prog A) : Prop :=
  ∀ w, (left w ≤ bound)%nat → returns_to world p w (λ _ w', (left w' ≤ left w)%nat).

Lemma returns_bind {W A B} (world : ∀ c : call Σ, W → answer Σ c * W) left bound (p : prog A) (f : A → prog B) :
  returns world left bound p → (∀ a, returns world left bound (f a)) → returns world left bound (prog_bind f p).
Proof.
  intros Hp Hf w Hw. apply returns_to_bind. eapply returns_to_mono; [by apply Hp|]. intros a w1 H1. cbn in H1.
  eapply returns_to_mono; [apply Hf; lia|]. cbn. intros. lia.
Qed.

Lemma returns_halt {W A} (world : ∀ c : call Σ, W → answer Σ c * W) left bound (a : A) :
  returns world left bound (Halt (Done a)).
Proof. intros w Hw. by apply returns_to_halt. Qed.

Lemma returns_vis {W A} (world : ∀ c : call Σ, W → answer Σ c * W) left bound c (k : answer Σ c → prog A) :
  (∀ c w, (left (world c w).2 ≤ left w)%nat) → (∀ r, returns world left bound (k r)) →
  returns world left bound (Vis c k).
Proof.
  intros Hworld Hk w Hw. pose proof (Hworld c w). apply returns_to_vis.
  eapply returns_to_mono; [apply Hk; lia|]. cbn. intros. lia.
Qed.
End Programs.
Arguments prog Σ A : clear implicits.
Arguments event Σ : clear implicits.
Arguments Monitor Σ S : clear implicits.
Arguments Halt {Σ A} o.
Arguments Vis {Σ A} c k.
Arguments allows {Σ S} _.
Arguments after {Σ S} _.

#[export] Instance prog_ret {Σ} : MRet (prog Σ) := λ A a, Halt (Done a).
#[export] Instance prog_mbind {Σ} : MBind (prog Σ) := λ A B f p, prog_bind f p.

(** ** Commands *)

(** An [async fn] that returns [Result<A, CommandError>]. *)
Definition cmd (Σ : Signature) (A : Type) : Type := prog Σ (result CommandError A).

#[export] Instance cmd_ret {Σ} : MRet (cmd Σ) := λ A a, Halt (Done (Ok a)).
#[export] Instance cmd_bind {Σ} : MBind (cmd Σ) := λ A B f p,
  prog_bind (λ r, match r with Ok a => f a | Err e => Halt (Done (Err e)) end) p.

Section Commands.
Context {Σ : Signature}.

Definition throw {A} (e : CommandError) : cmd Σ A := Halt (Done (Err e)).

(** A value without effects, as a command. *)
Definition pure {A} (a : A) : cmd Σ A := Halt (Done (Ok a)).

(** [?] on a [Result<A, String>]. *)
Definition lift {A} (r : result string A) : cmd Σ A :=
  match r with Ok a => pure a | Err message => throw (Other message) end.

(** [?] on a [Result<A, CommandError>]. *)
Definition lift_cmd {A} (r : result CommandError A) : cmd Σ A := Halt (Done r).

(** An operation that panics, inside a command. *)
Definition expect {A} (o : option A) : cmd Σ A :=
  match o with Some a => pure a | None => Halt Panic end.

(** [?] on the answer of a call whose errors are [AdminError]s. *)
Definition try_admin {A} (p : prog Σ (result AdminError A)) : cmd Σ A :=
  prog_bind (λ r, Halt (Done (map_err from_admin_error r))) p.

(** Runs a call and goes on with its answer. *)
Definition await {A} (p : prog Σ A) : cmd Σ A :=
  prog_bind (λ a, Halt (Done (Ok a))) p.

Lemma trace_cmd_bind_inv {A B} (p : cmd Σ A) (f : A → cmd Σ B) log o :
  trace (p ≫= f) log o →
  ∃ log1 o1, trace p log1 o1 ∧
    match o1 with
    | Done (Ok a) => ∃ log2, log = log1 ++ log2 ∧ trace (f a) log2 o
    | Done (Err e) => log = log1 ∧ o = Done (Err e)
    | Panic => log = log1 ∧ o = Panic
    | Timeout => log = log1 ∧ o = Timeout
    end.
Proof.
  intros (log1 & o1 & H1 & H2)%trace_bind_inv. exists log1, o1. split; [done|].
  destruct o1 as [[a|e]| |]; try done. by destruct H2 as (log2 & -> & -> & ->); rewrite app_nil_r.
Qed.

Lemma trace_ok_bind_inv {A B} (p : cmd Σ A) (f : A → cmd Σ B) log b :
  trace (p ≫= f) log (Done (Ok b)) →
  ∃ a log1 log2, log = log1 ++ log2 ∧ trace p log1 (Done (Ok a)) ∧ trace (f a) log2 (Done (Ok b)).
Proof.
  intros (log1 & [[a|e]| |] & H1 & H2)%trace_cmd_bind_inv; [|by destruct H2..].
  destruct H2 as (log2 & -> & H2). eauto 10.
Qed.

(** A post that constrains only successful results. *)
Definition on_ok {S A} (P : S → A → Prop) : S → outcome (result CommandError A) → Prop :=
  λ s o, match o with Done (Ok a) => P s a | _ => True end.

Lemma monitored_cmd_bind {S A B} (m : Monitor Σ S) s (p : cmd Σ A) (f : A → cmd Σ B)
    (P : S → A → Prop) (Q : S → B → Prop) :
  monitored m s p (on_ok P) → (∀ s' a, P s' a → monitored m s' (f a) (on_ok Q)) →
  monitored m s (p ≫= f) (on_ok Q).
Proof.
  intros Hp Hf. apply monitored_bind. eapply monitored_mono; [exact Hp|].
  intros s' [[a|e]| |] H; simpl in *; [by apply Hf|done..].
Qed.

(** A check that passed leaves the rest of the command. *)
Lemma monitored_ok {S A B} (m : Monitor Σ S) s (a : A) (f : A → cmd Σ B) post :
  monitored m s (f a) post → monitored m s (lift (Ok a) ≫= f) post.
Proof. done. Qed.

Lemma monitored_pure {S A} (m : Monitor Σ S) s (a : A) (P : S → A → Prop) :
  P s a → monitored m s (pure a) (on_ok P).
Proof. done. Qed.

Lemma monitored_lift {S A} (m : Monitor Σ S) s (r : result string A) (P : S → A → Prop) :
  (∀ a, r = Ok a → P s a) → monitored m s (lift r) (on_ok P).
Proof. destruct r; simpl; auto. Qed.

Lemma monitored_throw {S A} (m : Monitor Σ S) s e (P : S → A → Prop) :
  monitored m s (throw e) (on_ok P).
Proof. done. Qed.

Lemma monitored_expect {S A} (m : Monitor Σ S) s (o : option A) (P : S → A → Prop) :
  (∀ a, o = Some a → P s a) → monitored m s (expect o) (on_ok P).
Proof. destruct o; simpl; auto. Qed.
End Commands.
#[export] Hint Resolve monitored_throw : krabka.

(** Runs a command up to its next call or decision. *)
Ltac steps := cbn [monitored allows after history mbind cmd_bind prog_bind lift lift_cmd pure throw map_err].
