(* ===== verification/Connection.v ===== *)
(** [connection.rs], its mapping: from the connection flags and a properties
    file to the settings of the client, and [ConnectionArgs::connect]. The texts
    are read in [Properties].

    [krabka_security] and the defaults of the client are a parameter, the class
    [KrabkaClient]; the file, the environment and the client are calls. *)

From Stdlib Require Import Ascii.
From S2P Require Import Prelude Collections Rust Properties Json KafkaErrors Output Program.

(** ** Data *)

Record ConnectionArgs := {
  bootstrap_server : list string;
  bootstrap_controller : list string;
  command_config : option string;
  client_id : option string;
  request_timeout_ms : option Z
}.

(** [connection.command_config = Some(path)], as the deprecated flags of some
    commands set it. *)
Definition with_command_config (args : ConnectionArgs) (path : string) : ConnectionArgs :=
  {| bootstrap_server := bootstrap_server args; bootstrap_controller := bootstrap_controller args;
     command_config := Some path; client_id := client_id args;
     request_timeout_ms := request_timeout_ms args |}.

Inductive ListenerProtocol := Plaintext | Ssl | SaslPlaintext | SaslSsl.

#[export] Instance ListenerProtocol_eq_dec : EqDecision ListenerProtocol.
Proof. solve_decision. Defined.

Inductive ScramMechanism := ScramSha256 | ScramSha512.

Inductive SaslCredentials :=
  | PlainCredentials (username password : string)
  | ScramCredentials (mechanism : ScramMechanism) (username password : string)
      (delegation_token : bool)
  | GssapiCredentials (keytab_path client_principal service_name kdc_url : string)
  | OAuthBearerFile (path : string).

(** What the code sets of [TlsConnectorConfig]; the rest is its default. *)
Record TlsConnectorConfig := {
  trust_store : string;
  key_store : option string;
  server_name : string
}.

Record ClientSecurity := {
  protocol : ListenerProtocol;
  security_tls : option TlsConnectorConfig;
  security_sasl : option SaslCredentials
}.

(** What the code reads of the client: which protocols need TLS and SASL
    ([krabka_security]), and the defaults of its settings, in milliseconds. *)
Class KrabkaClient := {
  requires_tls : ListenerProtocol → bool;
  requires_sasl : ListenerProtocol → bool;
  default_request_timeout : Z;
  default_setup_timeout : Z;
  default_retry_backoff : Z;
  default_retry_backoff_max : Z
}.

Record ConnectionOptions := {
  options_client_id : string;
  options_request_timeout : Z;
  options_setup_timeout : Z;
  options_security : option ClientSecurity
}.

Record AdminClientConfig := {
  config_client_id : string;
  config_request_timeout : Z;
  config_setup_timeout : Z;
  config_security : option ClientSecurity;
  config_default_api_timeout : option Z;
  config_retry_backoff : Z;
  config_retry_backoff_max : Z
}.

Inductive ConnectionError :=
  | MissingBootstrap
  | ReadConfig (path source : string)
  | Config (error : ConfigError)
  | AdminFailed (error : AdminError).

(** [From<ConnectionError> for CommandError]. *)
Definition from_connection_error (e : ConnectionError) : CommandError :=
  match e with
  | AdminFailed error => from_admin_error error
  | MissingBootstrap =>
      Other "one of --bootstrap-server or --bootstrap-controller is required"
  | ReadConfig path source => Other ("read command config " +:+ path +:+ ": " +:+ source)
  | Config error => Other ("command config: " +:+ config_error_text error)
  end.

(** ** Names *)

Definition KDC_URL_ENV : string := "SSPI_KDC_URL".
Definition PLAIN_LOGIN_MODULE : string := "org.apache.kafka.common.security.plain.PlainLoginModule".
Definition SCRAM_LOGIN_MODULE : string := "org.apache.kafka.common.security.scram.ScramLoginModule".
Definition KRB5_LOGIN_MODULE : string := "com.sun.security.auth.module.Krb5LoginModule".
Definition OAUTHBEARER_LOGIN_MODULE : string :=
  "org.apache.kafka.common.security.oauthbearer.OAuthBearerLoginModule".
Definition OAUTHBEARER_LOGIN_CALLBACK_HANDLER : string :=
  "org.apache.kafka.common.security.oauthbearer.OAuthBearerLoginCallbackHandler".

(** ** TLS *)

Definition require_pem (properties : Properties) (key : string) : result ConfigError unit :=
  let kind := prop_get properties key in
  if bool_decide (kind = Some "PEM") then Ok tt
  else Err (Unsupported key
    (default "JKS (the default)" kind +:+
     " is not supported; krabka reads PEM stores only, so set " +:+ key +:+ "=PEM")).

(** [if cond { return Err(error) }]. *)
Definition refuse_if {E} (condition : bool) (error : E) : result E unit :=
  if condition then Err error else Ok tt.

(** Refuses the first of [keys] that the file sets. *)
Fixpoint refuse_set (properties : Properties) (keys : list string) (error : string → ConfigError)
    : result ConfigError unit :=
  match keys with
  | [] => Ok tt
  | key :: keys =>
      if prop_contains properties key then Err (error key) else refuse_set properties keys error
  end.

Definition tls_key_store (properties : Properties) : result ConfigError (option string) :=
  match prop_get properties "ssl.keystore.location" with
  | None => Ok None
  | Some key_store =>
      _ ← require_pem properties "ssl.keystore.type";
      _ ← refuse_if (prop_contains properties "ssl.keystore.password")
            (Invalid "ssl.keystore.password" "a PEM key store takes only ssl.key.password");
      _ ← refuse_if (prop_contains properties "ssl.key.password")
            (Unsupported "ssl.key.password"
              "an encrypted private key needs krabka-client-core support");
      Ok (Some key_store)
  end.

(** The check of [ssl.endpoint.identification.algorithm]. *)
Definition endpoint_identification (properties : Properties) : result ConfigError unit :=
  let key := "ssl.endpoint.identification.algorithm" in
  match to_ascii_lowercase <$> prop_get properties key with
  | None => Ok tt
  | Some algorithm =>
      if bool_decide (algorithm = "https") then Ok tt
      else if bool_decide (algorithm = "") then
        Err (Unsupported key "turning hostname verification off needs krabka-client-core support")
      else Err (Invalid key (algorithm +:+ " is not https or empty"))
  end.

Definition tls (properties : Properties) (bootstrap_host : string)
    : result ConfigError TlsConnectorConfig :=
  _ ← refuse_set properties
        ["ssl.truststore.certificates"; "ssl.keystore.key"; "ssl.keystore.certificate.chain"]
        (λ key, Unsupported key
          "PEM content in the config needs krabka-client-core support; name a PEM file with the .location property");
  trust_store ← ok_or (prop_get properties "ssl.truststore.location")
    (Unsupported "ssl.truststore.location"
      "the platform trust store needs krabka-client-core support; name a PEM file of CA certificates");
  _ ← require_pem properties "ssl.truststore.type";
  _ ← refuse_if (prop_contains properties "ssl.truststore.password")
        (Invalid "ssl.truststore.password" "a PEM trust store has no password");
  key_store ← tls_key_store properties;
  _ ← endpoint_identification properties;
  Ok {| trust_store := trust_store; key_store := key_store;
        server_name := default bootstrap_host (prop_get properties "ssl.server.name") |}.

(** ** SASL *)

(** [option.is_some_and(|value| value.eq_ignore_ascii_case("true"))]. *)
Definition option_is_true (jaas : JaasEntry) (key : string) : bool :=
  match jaas_option jaas key with Some value => eq_ignore_ascii_case value "true" | None => false end.

Definition SERVICE_NAME : string := "sasl.kerberos.service.name".

Definition gssapi_service_name (jaas_name config_name : option string) : result ConfigError string :=
  match jaas_name, config_name with
  | Some jaas_name, Some config_name =>
      if bool_decide (jaas_name = config_name) then Ok jaas_name
      else Err (Invalid SERVICE_NAME
        ("conflicts with serviceName=" +:+ jaas_name +:+ " in " +:+ SASL_JAAS_CONFIG))
  | Some name, None | None, Some name => Ok name
  | None, None =>
      Err (Missing SERVICE_NAME "no serviceName is defined in either the JAAS or the Kafka config")
  end.

Definition gssapi (properties : Properties) (jaas : JaasEntry) (kdc_url : option string)
    : result ConfigError SaslCredentials :=
  _ ← refuse_if (prop_contains properties "sasl.kerberos.kdc")
        (Unsupported "sasl.kerberos.kdc"
          ("the JVM reads the KDC from krb5.conf; krabka reads it from " +:+ KDC_URL_ENV +:+
           " until krabka-client-rs decides the property"));
  _ ← refuse_if (negb (option_is_true jaas "useKeyTab"))
        (Unsupported SASL_JAAS_CONFIG
          "Krb5LoginModule without useKeyTab=true reads a ticket cache, which krabka-client-core does not");
  service_name ← gssapi_service_name (jaas_option jaas "serviceName")
                   (prop_get properties SERVICE_NAME);
  keytab_path ← jaas_required jaas "keyTab";
  client_principal ← jaas_required jaas "principal";
  kdc_url ← ok_or kdc_url
    (Missing KDC_URL_ENV "GSSAPI needs the KDC address, for example tcp://kdc.example:88");
  Ok (GssapiCredentials keytab_path client_principal service_name kdc_url).

(** [s.find('/').map_or("", |start| &s[start..])]. *)
Fixpoint from_slash (s : string) : string :=
  match s with
  | EmptyString => ""
  | String c s' => if (c =? "/")%char then s else from_slash s'
  end.

Definition TOKEN_ENDPOINT : string := "sasl.oauthbearer.token.endpoint.url".

Definition oauthbearer_token_file (properties : Properties) : result ConfigError string :=
  url ← ok_or (prop_get properties TOKEN_ENDPOINT)
    (Missing TOKEN_ENDPOINT "OAuthBearerLoginCallbackHandler needs a token endpoint");
  parts ← ok_or (split_once (λ c, (c =? ":")%char) url)
    (Invalid TOKEN_ENDPOINT (url +:+ " is a URL with no protocol"));
  let '(scheme, rest) := (parts : string * string) in
  let scheme := to_ascii_lowercase scheme in
  if bool_decide (scheme = "file") then
    let path := match strip_prefix "//" rest with
                | Some authority_and_path => from_slash authority_and_path
                | None => rest
                end in
    if bool_decide (path = "") then Err (Invalid TOKEN_ENDPOINT (url +:+ " names no file"))
    else Ok path
  else if bool_decide (scheme ∈ ["http"; "https"]) then
    Err (Unsupported TOKEN_ENDPOINT
      "the client-credentials grant needs krabka-client-core support; use a file: URL")
  else Err (Invalid TOKEN_ENDPOINT (scheme +:+ " is not one of http, https, file")).

Definition expect_module (jaas : JaasEntry) (mechanism : string) (modules : list string)
    : result ConfigError unit :=
  refuse_if (negb (bool_decide (jaas_module jaas ∈ modules)))
    (Invalid SASL_JAAS_CONFIG (jaas_module jaas +:+ " does not log in for " +:+ mechanism)).

(** The arm of [PLAIN], [SCRAM-SHA-256] and [SCRAM-SHA-512]. *)
Definition password_credentials (jaas : JaasEntry) (mechanism : string)
    : result ConfigError SaslCredentials :=
  _ ← expect_module jaas mechanism [PLAIN_LOGIN_MODULE; SCRAM_LOGIN_MODULE];
  let delegation_token := option_is_true jaas "tokenauth" in
  username ← jaas_required jaas "username";
  password ← jaas_required jaas "password";
  Ok (if bool_decide (mechanism = "PLAIN") then PlainCredentials username password
      else if bool_decide (mechanism = "SCRAM-SHA-256") then
        ScramCredentials ScramSha256 username password delegation_token
      else ScramCredentials ScramSha512 username password delegation_token).

Definition oauthbearer (properties : Properties) (jaas : JaasEntry) (mechanism : string)
    : result ConfigError SaslCredentials :=
  let key := "sasl.login.callback.handler.class" in
  _ ← expect_module jaas mechanism [OAUTHBEARER_LOGIN_MODULE];
  _ ← refuse_if (negb (bool_decide (prop_get properties key = Some OAUTHBEARER_LOGIN_CALLBACK_HANDLER)))
        (Unsupported key ("the default is Kafka's unsecured-token handler; set " +:+
                          OAUTHBEARER_LOGIN_CALLBACK_HANDLER));
  OAuthBearerFile <$> oauthbearer_token_file properties.

Definition sasl (properties : Properties) (kdc_url : option string)
    : result ConfigError SaslCredentials :=
  let mechanism := default "GSSAPI" (prop_get properties "sasl.mechanism") in
  text ← ok_or (prop_get properties SASL_JAAS_CONFIG)
    (Missing SASL_JAAS_CONFIG
      "krabka reads no JVM-wide JAAS file, so the login module must be in the command config");
  jaas ← parse_jaas text;
  if bool_decide (mechanism ∈ ["PLAIN"; "SCRAM-SHA-256"; "SCRAM-SHA-512"]) then
    password_credentials jaas mechanism
  else if bool_decide (mechanism = "GSSAPI") then
    _ ← expect_module jaas mechanism [KRB5_LOGIN_MODULE]; gssapi properties jaas kdc_url
  else if bool_decide (mechanism = "OAUTHBEARER") then oauthbearer properties jaas mechanism
  else Err (Invalid "sasl.mechanism"
    (mechanism +:+ " is not one of PLAIN, SCRAM-SHA-256, SCRAM-SHA-512, GSSAPI, OAUTHBEARER")).

(** ** The settings *)

(** The protocol that [security.protocol] names; [None] is [PLAINTEXT]. *)
Definition security_protocol (properties : Properties)
    : result ConfigError (option ListenerProtocol) :=
  let name := to_ascii_uppercase (default "PLAINTEXT" (prop_get properties "security.protocol")) in
  if bool_decide (name = "PLAINTEXT") then Ok None
  else if bool_decide (name = "SSL") then Ok (Some Ssl)
  else if bool_decide (name = "SASL_PLAINTEXT") then Ok (Some SaslPlaintext)
  else if bool_decide (name = "SASL_SSL") then Ok (Some SaslSsl)
  else Err (Invalid "security.protocol"
    (name +:+ " is not one of PLAINTEXT, SSL, SASL_PLAINTEXT, SASL_SSL")).

Definition positive_millis (properties : Properties) (key : string)
    : result ConfigError (option Z) :=
  match prop_get properties key with
  | None => Ok None
  | Some value =>
      let refused := Err (Invalid key (value +:+ " is not a positive number of milliseconds")) in
      match parse_i64 value with
      | Some millis => if 0 <? millis then Ok (Some millis) else refused
      | None => refused
      end
  end.

(** The workspace's version, [env!("CARGO_PKG_VERSION")]. *)
Definition CARGO_PKG_VERSION : string := "0.4.6".

(** The host of an address: inside the brackets, or before the last colon. *)
Definition address_host (address : string) : string :=
  match strip_prefix "[" address with
  | Some bracketed =>
      match split_once (λ c, (c =? "]")%char) bracketed with
      | Some (host, _) => host
      | None => bracketed
      end
  | None => match rsplit_once ":" address with Some (host, _) => host | None => address end
  end.

Definition bootstrap_host (args : ConnectionArgs) : string :=
  match bootstrap_server args, bootstrap_controller args with
  | address :: _, _ | [], address :: _ => address_host address
  | [], [] => "localhost"
  end.

Section Client.
Context `{KrabkaClient}.

Definition security (properties : Properties) (bootstrap_host : string) (kdc_url : option string)
    : result ConfigError (option ClientSecurity) :=
  protocol ← security_protocol properties;
  match protocol with
  | None => Ok None
  | Some protocol =>
      tls ← if requires_tls protocol then Some <$> tls properties bootstrap_host else Ok None;
      sasl ← if requires_sasl protocol then Some <$> sasl properties kdc_url else Ok None;
      Ok (Some {| protocol := protocol; security_tls := tls; security_sasl := sasl |})
  end.

(** [properties.get("client.id").filter(|id| !id.is_empty())]. *)
Definition property_client_id (properties : Properties) : option string :=
  id ← prop_get properties "client.id"; if bool_decide (id = "") then None else Some id.

Definition flag_request_timeout (args : ConnectionArgs) (properties : Properties)
    : result ConfigError (option Z) :=
  match request_timeout_ms args with
  | Some millis =>
      if 0 <? millis then Ok (Some millis)
      else Err (Invalid "--request-timeout-ms"
        (pretty millis +:+ " is not a positive number of milliseconds"))
  | None => positive_millis properties "request.timeout.ms"
  end.

Definition options_from (args : ConnectionArgs) (properties : Properties) (command : string)
    (kdc_url : option string) : result ConfigError ConnectionOptions :=
  let id := match client_id args with
            | Some id => id
            | None => default ("krabka-cli/" +:+ CARGO_PKG_VERSION +:+ " " +:+ command)
                        (property_client_id properties)
            end in
  request_timeout ← flag_request_timeout args properties;
  setup_timeout ← positive_millis properties "socket.connection.setup.timeout.ms";
  security ← security properties (bootstrap_host args) kdc_url;
  Ok {| options_client_id := id;
        options_request_timeout := default default_request_timeout request_timeout;
        options_setup_timeout := default default_setup_timeout setup_timeout;
        options_security := security |}.

Definition admin_config_of (args : ConnectionArgs) (properties : Properties) (command : string)
    (kdc_url : option string) : result ConfigError AdminClientConfig :=
  options ← options_from args properties command kdc_url;
  api_timeout ← positive_millis properties "default.api.timeout.ms";
  backoff ← positive_millis properties "retry.backoff.ms";
  backoff_max ← positive_millis properties "retry.backoff.max.ms";
  Ok {| config_client_id := options_client_id options;
        config_request_timeout := options_request_timeout options;
        config_setup_timeout := options_setup_timeout options;
        config_security := options_security options;
        config_default_api_timeout := api_timeout;
        config_retry_backoff := default default_retry_backoff backoff;
        config_retry_backoff_max := default default_retry_backoff_max backoff_max |}.

(** [ConnectionArgs::client_options], for the tools that merge their own
    properties; [kdc_url] is what the environment holds. *)
Definition client_options (properties : Properties) (bootstrap : list string)
    (default_client_id : string) (kdc_url : option string) : result ConfigError ConnectionOptions :=
  options_from
    {| bootstrap_server := bootstrap; bootstrap_controller := []; command_config := None;
       client_id := Some (default default_client_id (property_client_id properties));
       request_timeout_ms := None |}
    properties default_client_id kdc_url.

(** ** Connecting *)

(** The calls of [connect]: the file and the environment it reads, and the two
    constructors of the client. *)
Inductive connect_call :=
  | ReadBytes (path : string)
  | EnvVar (name : string)
  | ConnectBrokers (addresses : list string) (config : AdminClientConfig)
  | ConnectControllers (addresses : list string) (config : AdminClientConfig).

Definition connect_answer (c : connect_call) : Type :=
  match c with
  | ReadBytes _ => result string (list Z)
  | EnvVar _ => option string
  | ConnectBrokers _ _ | ConnectControllers _ _ => result AdminError unit
  end.

Definition connecting : Signature := {| call := connect_call; answer := connect_answer |}.

Definition tell (c : connect_call) : prog connecting (connect_answer c) := ask (Σ := connecting) c.

(** [ConnectionArgs::properties]. *)
Definition read_properties (args : ConnectionArgs)
    : prog connecting (result ConnectionError Properties) :=
  match command_config args with
  | Some path =>
      prog_bind (λ r, Halt (Done
        (bytes ← map_err (ReadConfig path) r; map_err Config (parse_properties bytes))))
        (tell (ReadBytes path))
  | None => Halt (Done (Ok []))
  end.

(** [ConnectionArgs::options]. *)
Definition connection_options (args : ConnectionArgs) (command : string)
    : prog connecting (result ConnectionError ConnectionOptions) :=
  prog_bind (λ r, match r with
    | Err e => Halt (Done (Err e))
    | Ok properties =>
        prog_bind (λ kdc_url, Halt (Done
          (map_err Config (options_from args properties command kdc_url))))
          (tell (EnvVar KDC_URL_ENV))
    end) (read_properties args).

(** [ConnectionArgs::connect], after the settings are known. *)
Definition connect_client (args : ConnectionArgs) (config : AdminClientConfig)
    : prog connecting (result ConnectionError unit) :=
  if negb (bool_decide (bootstrap_controller args = [])) then
    prog_bind (λ r, Halt (Done (map_err AdminFailed r)))
      (tell (ConnectControllers (bootstrap_controller args) config))
  else if bool_decide (bootstrap_server args = []) then Halt (Done (Err MissingBootstrap))
  else
    prog_bind (λ r, Halt (Done (map_err AdminFailed r)))
      (tell (ConnectBrokers (bootstrap_server args) config)).

Definition connection_connect (args : ConnectionArgs) (command : string)
    : prog connecting (result ConnectionError unit) :=
  prog_bind (λ r, match r with
    | Err e => Halt (Done (Err e))
    | Ok properties =>
        prog_bind (λ kdc_url,
          match admin_config_of args properties command kdc_url with
          | Err e => Halt (Done (Err (Config e)))
          | Ok config => connect_client args config
          end) (tell (EnvVar KDC_URL_ENV))
    end) (read_properties args).
End Client.

(** ** Cases of the sources' tests *)

Example hosts :
  map (λ address, bootstrap_host {| bootstrap_server := [address]; bootstrap_controller := [];
    command_config := None; client_id := None; request_timeout_ms := None |})
    ["broker:9092"; "broker"; "[::1]:9092"; "10.0.0.1:9092"] =
  ["broker"; "broker"; "::1"; "10.0.0.1"].
Proof. reflexivity. Qed.

(** ** What a secured connection is made of *)

(** What [krabka_security] documents of its protocols. *)
Definition protocol_laws `{KrabkaClient} : Prop :=
  (∀ p, requires_tls p = bool_decide (p = Ssl ∨ p = SaslSsl)) ∧
  (∀ p, requires_sasl p = bool_decide (p = SaslPlaintext ∨ p = SaslSsl)).

(** The settings a TLS configuration was read from: stores in PEM files that
    the file names, and the endpoint's name checked. *)
Definition tls_from (properties : Properties) (bootstrap_host : string) (t : TlsConnectorConfig)
    : Prop :=
  prop_get properties "ssl.truststore.location" = Some (trust_store t) ∧
  prop_get properties "ssl.truststore.type" = Some "PEM" ∧
  prop_get properties "ssl.keystore.location" = key_store t ∧
  (is_Some (key_store t) → prop_get properties "ssl.keystore.type" = Some "PEM") ∧
  server_name t = default bootstrap_host (prop_get properties "ssl.server.name") ∧
  match prop_get properties "ssl.endpoint.identification.algorithm" with
  | None => True
  | Some algorithm => to_ascii_lowercase algorithm = "https"
  end.

Lemma ok_or_inv {E A} (o : option A) (e : E) a : ok_or o e = Ok a → o = Some a.
Proof. by destruct o; intros [= ->]. Qed.

Lemma refuse_if_inv {E} b (e : E) u : refuse_if b e = Ok u → b = false.
Proof. by destruct b. Qed.

Lemma require_pem_Ok properties key u :
  require_pem properties key = Ok u → prop_get properties key = Some "PEM".
Proof. unfold require_pem. case_bool_decide; [done|discriminate]. Qed.

Lemma tls_Ok properties host t : tls properties host = Ok t → tls_from properties host t.
Proof.
  unfold tls, tls_from. intros E. binds E. injection E as <-. cbn [trust_store key_store server_name].
  match goal with H : ok_or (prop_get _ "ssl.truststore.location") _ = _ |- _ =>
    rewrite (ok_or_inv _ _ _ H) end.
  match goal with H : require_pem _ "ssl.truststore.type" = _ |- _ =>
    rewrite (require_pem_Ok _ _ _ H) end.
  split_and!; try done.
  - match goal with H : tls_key_store _ = Ok _ |- _ => revert H end.
    unfold tls_key_store. case_match; [|by intros [= <-]]. intros Hk. binds Hk. by simplify_eq.
  - match goal with H : tls_key_store _ = Ok _ |- _ => revert H end.
    unfold tls_key_store. case_match; [|intros [= <-]; by intros []].
    intros Hk _. binds Hk. by eapply require_pem_Ok.
  - match goal with H : endpoint_identification _ = Ok _ |- _ => revert H end.
    unfold endpoint_identification. destruct (prop_get _ "ssl.endpoint.identification.algorithm");
      [|done]. cbn [fmap option_fmap option_map]. by repeat case_bool_decide.
Qed.

(** The login that credentials are for, and where they come from. *)
Definition sasl_from (properties : Properties) (kdc_url : option string) (s : SaslCredentials)
    : Prop :=
  let mechanism := default "GSSAPI" (prop_get properties "sasl.mechanism") in
  ∃ text jaas, prop_get properties SASL_JAAS_CONFIG = Some text ∧ parse_jaas text = Ok jaas ∧
    match s with
    | PlainCredentials username password =>
        mechanism = "PLAIN" ∧ jaas_module jaas ∈ [PLAIN_LOGIN_MODULE; SCRAM_LOGIN_MODULE] ∧
        jaas_option jaas "username" = Some username ∧ jaas_option jaas "password" = Some password
    | ScramCredentials kind username password token =>
        mechanism = match kind with ScramSha256 => "SCRAM-SHA-256" | ScramSha512 => "SCRAM-SHA-512" end ∧
        jaas_module jaas ∈ [PLAIN_LOGIN_MODULE; SCRAM_LOGIN_MODULE] ∧
        jaas_option jaas "username" = Some username ∧ jaas_option jaas "password" = Some password ∧
        token = option_is_true jaas "tokenauth"
    | GssapiCredentials keytab principal service kdc =>
        mechanism = "GSSAPI" ∧ jaas_module jaas = KRB5_LOGIN_MODULE ∧
        option_is_true jaas "useKeyTab" = true ∧
        jaas_option jaas "keyTab" = Some keytab ∧ jaas_option jaas "principal" = Some principal ∧
        (jaas_option jaas "serviceName" = Some service ∨
         jaas_option jaas "serviceName" = None ∧ prop_get properties SERVICE_NAME = Some service) ∧
        kdc_url = Some kdc
    | OAuthBearerFile path =>
        mechanism = "OAUTHBEARER" ∧ jaas_module jaas = OAUTHBEARER_LOGIN_MODULE ∧ path ≠ ""
    end.

Lemma expect_module_inv jaas mechanism modules u :
  expect_module jaas mechanism modules = Ok u → jaas_module jaas ∈ modules.
Proof. by intros H%refuse_if_inv%negb_false_iff%bool_decide_eq_true. Qed.

Lemma gssapi_service_name_inv jaas_name config_name name :
  gssapi_service_name jaas_name config_name = Ok name →
  jaas_name = Some name ∨ jaas_name = None ∧ config_name = Some name.
Proof. unfold gssapi_service_name. repeat case_match; naive_solver. Qed.

Lemma oauthbearer_token_file_inv properties path :
  oauthbearer_token_file properties = Ok path → path ≠ "".
Proof.
  unfold oauthbearer_token_file. intros H. binds H.
  match goal with p : string * string |- _ => destruct p as [scheme rest] end.
  repeat case_bool_decide; by simplify_eq/=.
Qed.

Lemma sasl_Ok properties kdc_url s : sasl properties kdc_url = Ok s → sasl_from properties kdc_url s.
Proof.
  unfold sasl, sasl_from. intros H. binds H. apply ok_or_inv in E.
  eexists _, _. split; [exact E|]. split; [exact E0|]. clear E E0.
  case_bool_decide as Hp; [|case_bool_decide as Hg; [|case_bool_decide as Ho; [|done]]].
  - unfold password_credentials in H. binds H. apply expect_module_inv in E. apply ok_or_inv in E0, E1.
    injection H as <-. set_unfold in Hp.
    repeat case_bool_decide; destruct_or!; naive_solver.
  - binds H. apply expect_module_inv in E. unfold gssapi in H. binds H. injection H as <-.
    apply refuse_if_inv, negb_false_iff in E1. apply gssapi_service_name_inv in E2.
    apply ok_or_inv in E3, E4, E5. set_unfold in E. naive_solver.
  - unfold oauthbearer in H. binds H. apply expect_module_inv in E. set_unfold in E.
    destruct (oauthbearer_token_file properties) eqn:Ef; [|done]. injection H as <-.
    apply oauthbearer_token_file_inv in Ef. naive_solver.
Qed.

(** How [security.protocol] spells the protocols that need settings. *)
Definition protocol_name (p : ListenerProtocol) : string :=
  match p with
  | Plaintext => "PLAINTEXT" | Ssl => "SSL" | SaslPlaintext => "SASL_PLAINTEXT"
  | SaslSsl => "SASL_SSL"
  end.

Lemma security_protocol_Ok properties p :
  security_protocol properties = Ok p →
  to_ascii_uppercase (default "PLAINTEXT" (prop_get properties "security.protocol")) =
    protocol_name (default Plaintext p) ∧ p ≠ Some Plaintext.
Proof. unfold security_protocol. intros E. repeat case_bool_decide; by simplify_eq. Qed.

Lemma optional_Ok {E A} (b : bool) (r : result E A) o :
  (if b then Some <$> r else Ok None) = Ok o →
  match o with Some a => b = true ∧ r = Ok a | None => b = false end.
Proof. destruct b, r; cbn; by intros [= <-]. Qed.

(** The security policy of a connection is what its properties say, or no
    connection is set up. Under [PLAINTEXT] there is none; otherwise it has TLS
    settings exactly under [SSL] and [SASL_SSL], from PEM files that the
    properties name and with the check of the server's name on, and
    credentials exactly under [SASL_PLAINTEXT] and [SASL_SSL], for the mechanism
    that the properties name, from its login module. *)
Theorem security_spec `{KrabkaClient} (properties : Properties) (host : string)
    (kdc_url : option string) (s : option ClientSecurity) :
  protocol_laws → security properties host kdc_url = Ok s →
  to_ascii_uppercase (default "PLAINTEXT" (prop_get properties "security.protocol")) =
    protocol_name (default Plaintext (protocol <$> s)) ∧
  match s with
  | None => True
  | Some s =>
      protocol s ≠ Plaintext ∧
      match security_tls s with
      | Some t => protocol s ∈ [Ssl; SaslSsl] ∧ tls_from properties host t
      | None => protocol s = SaslPlaintext
      end ∧
      match security_sasl s with
      | Some c => protocol s ∈ [SaslPlaintext; SaslSsl] ∧ sasl_from properties kdc_url c
      | None => protocol s = Ssl
      end
  end.
Proof.
  intros [Htls Hsasl] E. unfold security in E.
  destruct (security_protocol properties) as [p|] eqn:Ep; [|done]. cbn in E.
  apply security_protocol_Ok in Ep as [Hname Hp]. destruct p as [p|]; [|by simplify_eq].
  rewrite Htls, Hsasl in E. bind_case E; [|done]. bind_case E; [|done]. injection E as <-.
  apply optional_Ok in E0, E1. cbn [protocol security_tls security_sasl fmap option_fmap option_map default].
  split; [done|]. split; [congruence|]. clear Hname. split.
  - destruct a as [t|]; [destruct E0 as [Hb Ht]|]; bool_to_prop; [|by destruct p; naive_solver].
    split; [set_solver|by apply tls_Ok].
  - destruct a0 as [c|]; [destruct E1 as [Hb Hc]|]; bool_to_prop; [|by destruct p; naive_solver].
    split; [set_solver|by apply sasl_Ok].
Qed.

(** The protocols as [krabka_security] has them, for concrete cases. *)
#[local] Instance sample_client : KrabkaClient := {|
  requires_tls := λ p, bool_decide (p = Ssl ∨ p = SaslSsl);
  requires_sasl := λ p, bool_decide (p = SaslPlaintext ∨ p = SaslSsl);
  default_request_timeout := 30000; default_setup_timeout := 10000;
  default_retry_backoff := 100; default_retry_backoff_max := 1000 |}.

Definition sample_properties : Properties :=
  bt_collect [("security.protocol", "sasl_ssl"); ("ssl.truststore.location", "/ca.pem");
    ("ssl.truststore.type", "PEM"); ("sasl.mechanism", "PLAIN");
    ("sasl.jaas.config", PLAIN_LOGIN_MODULE +:+ " required username='a' password='b';")].

Lemma security_spec_witness :
  ∃ s, security sample_properties "broker" None = Ok (Some s) ∧
    match security_tls s with
    | Some t => protocol s ∈ [Ssl; SaslSsl] ∧ tls_from sample_properties "broker" t
    | None => protocol s = SaslPlaintext
    end.
Proof.
  destruct (security sample_properties "broker" None) as [[s|]|] eqn:E;
    [|vm_compute in E; discriminate..].
  exists s. split; [done|].
  apply (security_spec sample_properties "broker" None (Some s)); [by split|exact E].
Defined.

(** *** Connecting *)

(** The events before a client is made: the command config where there is one,
    read whole, and the environment; and the settings that they give. *)
Definition settled `{KrabkaClient} (args : ConnectionArgs) (command : string)
    (reads : list (event connecting)) (config : AdminClientConfig) : Prop :=
  ∃ properties kdc_url, admin_config_of args properties command kdc_url = Ok config ∧
    match command_config args with
    | None => properties = [] ∧ reads = [existT (EnvVar KDC_URL_ENV) kdc_url]
    | Some path => ∃ bytes, parse_properties bytes = Ok properties ∧
        reads = [existT (ReadBytes path) (Ok bytes); existT (EnvVar KDC_URL_ENV) kdc_url]
    end.

Definition reading (e : event connecting) : bool :=
  match projT1 e with ReadBytes _ | EnvVar _ => true | _ => false end.

(** [connect] contacts a cluster at most once, as its last step, and only
    with the settings that a command config which was read whole and accepted
    gives: the controllers where the flags name some, else the brokers. In
    every other case it fails before it contacts anything, and says why. *)
Theorem connect_spec `{KrabkaClient} {W} (world : ∀ c : connect_call, W → connect_answer c * W)
    (args : ConnectionArgs) (command : string) (w : W) :
  let '(outcome, _, log) := run (Σ := connecting) world (connection_connect args command) w in
  (∃ reads config r, settled args command reads config ∧ bootstrap_controller args ≠ [] ∧
     log = reads ++ [existT (ConnectControllers (bootstrap_controller args) config) r] ∧
     outcome = Done (map_err AdminFailed r)) ∨
  (∃ reads config r, settled args command reads config ∧ bootstrap_controller args = [] ∧
     bootstrap_server args ≠ [] ∧
     log = reads ++ [existT (ConnectBrokers (bootstrap_server args) config) r] ∧
     outcome = Done (map_err AdminFailed r)) ∨
  (∃ e, outcome = Done (Err e) ∧ (∀ error, e ≠ AdminFailed error) ∧
     Forall (λ event, reading event = true) log ∧
     (e = MissingBootstrap → bootstrap_server args = [] ∧ bootstrap_controller args = [])).
Proof.
  unfold connection_connect, read_properties.
  destruct (command_config args) as [path|] eqn:Hc; cbn.
  - destruct (world (ReadBytes path) w) as [[bytes|source] w1]; cbn.
    2:{ right. right. eexists. repeat split; try done. by repeat constructor. }
    destruct (parse_properties bytes) as [properties|e] eqn:Hp; cbn.
    2:{ right. right. eexists. repeat split; try done. by repeat constructor. }
    destruct (world (EnvVar KDC_URL_ENV) w1) as [kdc_url w2]; cbn.
    destruct (admin_config_of args properties command kdc_url) as [config|e] eqn:Ha; cbn.
    2:{ right. right. eexists. repeat split; try done. by repeat constructor. }
    assert (settled args command [existT (ReadBytes path) (Ok bytes) : event connecting;
      existT (EnvVar KDC_URL_ENV) kdc_url] config) as Hs.
    { exists properties, kdc_url. split; [done|]. rewrite Hc. by exists bytes. }
    unfold connect_client. case_bool_decide as H1; cbn; [case_bool_decide as H2; cbn|].
    + right. right. eexists. repeat split; try done. by repeat constructor.
    + destruct (world (ConnectBrokers _ config) w2) as [r w3]; cbn. right. left.
      by eexists _, config, r.
    + destruct (world (ConnectControllers _ config) w2) as [r w3]; cbn. left.
      by eexists _, config, r.
  - destruct (world (EnvVar KDC_URL_ENV) w) as [kdc_url w2]; cbn.
    destruct (admin_config_of args [] command kdc_url) as [config|e] eqn:Ha; cbn.
    2:{ right. right. eexists. repeat split; try done. by repeat constructor. }
    assert (settled args command [existT (EnvVar KDC_URL_ENV) kdc_url : event connecting] config)
      as Hs by (exists [], kdc_url; by rewrite Hc).
    unfold connect_client. case_bool_decide as H1; cbn; [case_bool_decide as H2; cbn|].
    + right. right. eexists. repeat split; try done. by repeat constructor.
    + destruct (world (ConnectBrokers _ config) w2) as [r w3]; cbn. right. left.
      by eexists _, config, r.
    + destruct (world (ConnectControllers _ config) w2) as [r w3]; cbn. left.
      by eexists _, config, r.
Qed.
