(* ===== verification/Admin.v ===== *)
(** The world of the admin commands: the requests of [krabka_client_admin] that
    the modelled commands send, the connection, the files they read, the
    confirmation prompt, the clock and the random seed.

    The client is a dependency: a request is a call of the signature and its
    answer is anything of the request's type. Only the data the commands look
    at is here; a deadline passed to the client is not. *)

From S2P Require Import Connection.
From S2P Require Import Prelude Collections Rust Json TopicPartition KafkaErrors Output Program.

(** ** Data of the client *)

Record PartitionAssignment := {
  pa_topic : string;
  pa_partition : Z;
  pa_replicas : list Z;
  pa_adding_replicas : list Z;
  pa_removing_replicas : list Z
}.

Record ClusterNode := {
  node_id : Z;
  node_host : string;
  node_port : Z;
  node_rack : option string;
  node_is_fenced : bool
}.

Record ClusterDescription := { description_cluster_id : string; description_nodes : list ClusterNode }.

Record TopicPartitionReplica := { tpr_topic : string; tpr_partition : Z; tpr_broker_id : Z }.

(** [ReplicaLogDirInfo]: the path of the current and of the future log dir. *)
Record ReplicaLogDirInfo := { info_current : option string; info_future : option string }.

Inductive ConfigResourceType :=
  | TopicType | BrokerType | BrokerLoggerType | ClientMetricsType | GroupType.

(** [ConfigResource::topic], [::broker] and [::new]. *)
Inductive ConfigResource :=
  | TopicResource (name : string)
  | BrokerResource (id : Z)
  | ResourceNew (kind : ConfigResourceType) (name : string).

#[export] Instance ConfigResourceType_eq_dec : EqDecision ConfigResourceType.
Proof. solve_decision. Defined.
#[export] Instance ConfigResource_eq_dec : EqDecision ConfigResource.
Proof. solve_decision. Defined.

(** [DeleteValueOp] is a delete that carries a value. *)
Inductive AlterConfigOp :=
  | SetOp (name value : string)
  | DeleteOp (name : string)
  | DeleteValueOp (name value : string).

Record DeleteRecordsOp := { op_topic : string; op_partition : Z; op_offset : Z }.

Record DeleteRecordsOutcome := {
  outcome_topic : string;
  outcome_partition : Z;
  outcome_low_watermark : Z;
  outcome_error_code : Z
}.

(** A UUID is its 16 bytes. *)
Definition Uuid : Type := string.

Record TopicMetadata := {
  metadata_name : string;
  metadata_topic_id : option Uuid;
  metadata_partition_count : Z;
  metadata_replication_factor : Z;
  metadata_error : option KafkaError
}.

(** [TopicDescription], with the id of a node for the node. *)
Record PartitionDescription := {
  pd_partition : Z;
  pd_leader : option Z;
  pd_replicas : list Z;
  pd_isr : list Z;
  pd_elr : list Z;
  pd_last_known_elr : list Z
}.
Record TopicDescription := {
  td_name : string;
  td_topic_id : option Uuid;
  td_partitions : list PartitionDescription
}.

(** [OffsetSpec] and [IsolationLevel] of [list_offsets]. *)
Inductive OffsetSpec :=
  | Earliest
  | Latest
  | MaxTimestamp
  | EarliestLocal
  | LatestTiered
  | EarliestPendingUpload
  | ForTimestamp (timestamp : Z).

#[export] Instance OffsetSpec_eq_dec : EqDecision OffsetSpec.
Proof. solve_decision. Defined.

Inductive IsolationLevel := ReadUncommitted | ReadCommitted.

(** [ListGroupsOptions::for_consumer_groups()], with the states and the types
    that replace its own; a state or a type is the name it is parsed from. *)
Record ListGroupsOptions := { lg_states : list string; lg_types : option (list string) }.

(** A listed group: its type and state by name, where the broker gave them. *)
Record GroupListing := {
  gl_group_id : string;
  gl_group_type : option string;
  gl_group_state : option string
}.
Record ListGroupsError := {
  lge_host : string; lge_port : Z; lge_node_id : Z; lge_error : KafkaError
}.

(** [ConsumerGroupDescription], with the state by name. *)
Record MemberDescription := {
  md_member_id : string;
  md_group_instance_id : option string;
  md_client_id : string;
  md_host : string;
  md_assignment : list (string * Z);
  md_target_assignment : option (list (string * Z));
  md_member_epoch : option Z;
  md_upgraded : option bool
}.
Record ConsumerGroupDescription := {
  cg_group_state : string;
  cg_coordinator : string * Z * Z;
  cg_partition_assignor : string;
  cg_members : list MemberDescription;
  cg_group_epoch : option Z;
  cg_target_assignment_epoch : option Z
}.

Record OffsetOutcome := {
  oo_topic : string; oo_partition : Z; oo_error : option KafkaError
}.

(** What [create_topics], [create_partitions] and [delete_topics] are asked. *)
Record CreateTopicSpec := {
  spec_name : string;
  spec_partitions : Z;
  spec_replicas : Z;
  spec_configs : list (string * string);
  spec_assignments : list (Z * list Z)
}.
Record CreatePartitionsOp := {
  cp_name : string;
  cp_new_total_count : Z;
  cp_assignments : option (list (list Z))
}.
Record TopicOutcome := {
  to_name : string; to_topic_id : option Uuid; to_error : option KafkaError
}.

(** An entry of [Config]: its value, whether it is the built-in default, where
    it comes from (a [ConfigSource] is its wire id) and what it falls back on. *)
Record ConfigSynonym := { cs_name : string; cs_value : option string; cs_source : Z }.
Record ConfigEntry := {
  ce_name : string;
  ce_value : option string;
  ce_is_default : bool;
  ce_source : Z;
  ce_is_sensitive : bool;
  ce_synonyms : list ConfigSynonym
}.

(** An ACL: the resource pattern and the entry on it, and the filter of both,
    where [None] matches anything. *)
Inductive AclResourceType :=
  | AclTopic | AclGroup | AclCluster | AclTransactionalId | AclDelegationToken | AclUser.
Inductive AclPatternType := AclLiteral | AclPrefixed | AclMatch.
Inductive WireOperation :=
  | OpAll | OpRead | OpWrite | OpCreate | OpDelete | OpAlter | OpDescribe | OpClusterAction
  | OpDescribeConfigs | OpAlterConfigs | OpIdempotentWrite | OpTwoPhaseCommit | OpCreateTokens
  | OpDescribeTokens.
Inductive AclPermissionType := AclAllow | AclDeny.
Record AclBinding := {
  ab_resource_type : AclResourceType;
  ab_resource_name : string;
  ab_pattern_type : AclPatternType;
  ab_principal : string;
  ab_host : string;
  ab_operation : WireOperation;
  ab_permission_type : AclPermissionType
}.
Record AclBindingFilter := {
  af_resource_type : option AclResourceType;
  af_resource_name : option string;
  af_pattern_type : option AclPatternType;
  af_principal : option string;
  af_host : option string;
  af_operation : option WireOperation;
  af_permission_type : option AclPermissionType
}.
Record DeleteAclsOutcome := { da_matched : list AclBinding; da_error : option KafkaError }.

(** An [f64] is the integer of its 64 bits. A quota entity is the name of each
    of its types, [None] for the default; a component of a filter names an
    entity of its type, the default one, or any. *)
Definition F64 : Type := Z.
Definition ClientQuotaEntity : Type := list (string * option string).
Inductive ClientQuotaFilterComponent :=
  | OfEntity (entity_type name : string)
  | OfDefaultEntity (entity_type : string)
  | OfEntityType (entity_type : string).
Inductive QuotaOp :=
  | QuotaSet (key : string) (value : F64)
  | QuotaRemove (key : string).

Record ScramUpsertion := { su_username : string; su_password : string; su_iterations : Z }.
Record UserScramCredentials := {
  us_username : string;
  us_credentials : list (string * Z);
  us_error : option KafkaError
}.

(** [KafkaPrincipal], and a delegation token, with its HMAC as its bytes. *)
Record KafkaPrincipal := { principal_type : string; principal_name : string }.
Record DelegationToken := {
  dt_token_id : string;
  dt_hmac : string;
  dt_owner : KafkaPrincipal;
  dt_token_requester : KafkaPrincipal;
  dt_renewers : list KafkaPrincipal;
  dt_issue_timestamp_ms : Z;
  dt_expiry_timestamp_ms : Z;
  dt_max_timestamp_ms : Z
}.

(** The features of a cluster, and what an update asks of one of them. *)
Record FeatureRange := { fr_name : string; fr_min_version : Z; fr_max_version : Z }.
Record FeatureMetadata := {
  fm_supported : list FeatureRange;
  fm_finalized : list FeatureRange;
  fm_finalized_features_epoch : option Z
}.
Inductive UpgradeType := Upgrade | SafeDowngrade | UnsafeDowngrade.
Record FeatureUpdate := { fu_max_version_level : Z; fu_upgrade_type : UpgradeType }.

#[export] Instance UpgradeType_eq_dec : EqDecision UpgradeType.
Proof. solve_decision. Defined.

(** The quorum of the controllers. *)
Record RaftVoterEndpoint := { rv_listener : string; rv_host : string; rv_port : Z }.
Record QuorumReplica := {
  qr_node_id : Z;
  qr_directory_id : Uuid;
  qr_log_end_offset : Z;
  qr_last_fetch_timestamp : Z;
  qr_last_caught_up_timestamp : Z
}.
Record QuorumNode := { qn_node_id : Z; qn_endpoints : list RaftVoterEndpoint }.
Record MetadataQuorum := {
  mq_leader_id : Z;
  mq_leader_epoch : Z;
  mq_high_watermark : Z;
  mq_voters : list QuorumReplica;
  mq_observers : list QuorumReplica;
  mq_nodes : list QuorumNode
}.

(** [krabka_format::MetaProperties], with the ids as their texts, and an error of
    [std::fs::read]. *)
Record MetaProperties := {
  mp_cluster_id : string; mp_node_id : Z; mp_directory_id : option string
}.
Record ReadError := { re_not_found : bool; re_text : string }.

(** [LogDirInfo]: a log dir, the replicas it holds by topic, and its error. *)
Record LogDirReplica := {
  lr_partition_index : Z;
  lr_partition_size : Z;
  lr_offset_lag : Z;
  lr_is_future_key : bool
}.
Record LogDirInfo := {
  ld_log_dir : string;
  ld_topics : list (string * list LogDirReplica);
  ld_error : option KafkaError
}.

(** The state of a producer on a partition. *)
Record ProducerStateInfo := {
  ps_producer_id : Z;
  ps_producer_epoch : Z;
  ps_last_sequence : Z;
  ps_last_timestamp_ms : Z;
  ps_coordinator_epoch : Z;
  ps_current_txn_start_offset : option Z
}.

(** [TransactionDescription], with its timeout in milliseconds. *)
Record TransactionDescription := {
  tx_coordinator_id : Z;
  tx_transactional_id : string;
  tx_producer_id : Z;
  tx_producer_epoch : Z;
  tx_state : string;
  tx_timeout_ms : Z;
  tx_start_time_ms : option Z;
  tx_topic_partitions : list (string * Z)
}.
Record TransactionListing := {
  tl_transactional_id : string; tl_producer_id : Z; tl_state : string
}.
Record AbortTransactionSpec := {
  ab_topic : string;
  ab_partition : Z;
  ab_producer_id : Z;
  ab_producer_epoch : Z;
  ab_coordinator_epoch : Z
}.

(** The requests of [krabka_protocol] that go to one broker, and their answers. *)
Record ListTransactionsRequest := {
  lt_duration_filter : Z; lt_transactional_id_pattern : option string
}.
Record ListTransactionsResponse := {
  lt_error_code : Z; lt_transaction_states : list TransactionListing
}.
Record DescribeProducersPartition := {
  dp_partition_index : Z;
  dp_error_code : Z;
  dp_error_message : option string;
  dp_active_producers : list ProducerStateInfo
}.

(** A connection of the command's own to one broker. *)
Definition Handle : Type := nat.

(** [krabka_client_admin::ElectionType]. *)
Inductive ElectionType := Preferred | Unclean.

(** ** The calls *)

Inductive admin_call :=
  | Connect (connection : ConnectionArgs) (command : string)
  | ReadFile (path : string)
  | AskConfirm (command : string) (impact : Impact)
  | Eprintln (line : string)
  | Elapsed
  | Sleep
  | TimeSeed
  | DescribeCluster (include_fenced_brokers : bool)
  | Metadata (topics : list string)
  | DescribePartitionAssignments (topics : list string)
  | ListPartitionReassignments (filter : list (string * list Z))
  | DescribeReplicaLogDirs (replicas : list TopicPartitionReplica)
  | AlterReplicaLogDirs (request : list (TopicPartitionReplica * string))
  | AlterPartitionAssignments (request : list ((string * Z) * option (list Z)))
      (allow_replication_factor_change : bool)
  | IncrementalAlterConfigs (configs : list (ConfigResource * list AlterConfigOp))
  | ReconcileReplicationFactor (topic : string) (replication_factor : Z)
  | UnregisterBroker (id : Z)
  | DeleteRecords (ops : list DeleteRecordsOp)
  | ElectLeaders (kind : ElectionType) (partitions : option (list (string * Z)))
  | EpochMillis
  | ListTopics (list_internal : bool)
  | DescribeTopics (topics : list string) (partition_limit : option Z)
  | DescribeTopicsById (id : Uuid)
  | ListOffsets (specs : list ((string * Z) * OffsetSpec)) (isolation : IsolationLevel)
  | ListGroups (options : ListGroupsOptions)
  | DescribeConsumerGroups (groups : list string)
  | ListConsumerGroupOffsets (group : string)
  | DeleteConsumerGroups (groups : list string)
  | DeleteConsumerGroupOffsets (group : string) (partitions : list (string * Z))
  | AlterConsumerGroupOffsets (group : string) (offsets : list ((string * Z) * Z))
  | CreateTopics (specs : list CreateTopicSpec)
  | CreatePartitions (ops : list CreatePartitionsOp)
  | DeleteTopics (topics : list string)
  | DescribeConfigs (resources : list ConfigResource) (include_synonyms : bool)
  | DescribeLogDirs (brokers : list Z) (filter : option (list (string * list Z)))
  | LoadOptions (connection : ConnectionArgs) (command : string)
  | Resolve (address : string)
  | OpenConnection (socket : string) (address : string)
  | AdvertisedMax (handle : Handle) (api_key : Z)
  | SendListTransactions (handle : Handle) (request : ListTransactionsRequest)
  | SendDescribeProducers (handle : Handle) (topics : list (string * list Z))
  | DescribeProducers (partitions : list (string * Z))
  | ListTransactions (producer_ids : list Z)
  | DescribeTransaction (transactional_id : string)
  | AbortTransaction (spec : AbortTransactionSpec)
  | ForceTerminateTransaction (transactional_id : string)
  | DescribeAcls (filter : AclBindingFilter)
  | CreateAcls (acls : list AclBinding)
  | DeleteAcls (filters : list AclBindingFilter)
  | ListConfigResources (kind : ConfigResourceType)
  | ListAllGroups
  | DescribeClientQuotas (components : list ClientQuotaFilterComponent)
  | AlterClientQuotas (entity : ClientQuotaEntity) (ops : list QuotaOp)
  | DescribeUserScramCredentials (users : list string)
  | AlterUserScramCredentials (mechanism : ScramMechanism) (upsertions : list ScramUpsertion)
      (deletions : list string)
  | HostResolves (host : string)
  | EnvVar (name : string)
  | CreateDelegationToken (owner : option KafkaPrincipal) (renewers : list KafkaPrincipal)
      (max_lifetime_ms : option Z)
  | RenewDelegationToken (hmac : string) (period_ms : option Z)
  | ExpireDelegationToken (hmac : string) (period_ms : option Z)
  | DescribeDelegationToken (owners : list KafkaPrincipal)
  | DescribeFeatures (node_id : option Z)
  | UpdateFeatures (updates : list (string * FeatureUpdate)) (validate_only : bool)
  | DescribeMetadataQuorum
  | AddRaftVoter (id : Z) (directory_id : Uuid) (endpoints : list RaftVoterEndpoint)
  | RemoveRaftVoter (id : Z) (directory_id : Uuid)
  | ReadText (path : string)
  | IsDir (path : string)
  | PathExists (path : string)
  | ReadMetaProperties (directory : string)
  | ReadBytes (path : string)
  | RandomUuid.

(** What each call answers. A map that the client returns is the list of its
    entries in iteration order; [Elapsed] says whether the command's deadline
    has passed, [EpochMillis] is [None] for a clock before the epoch.
    [AdvertisedMax] is the newest version of an API that a broker advertised.
    The active producers of [SendDescribeProducers] have their start offset as
    the broker sent it, in [Some]. [CreateAcls] and [AlterUserScramCredentials]
    answer the error of each outcome, [ListConfigResources] the names of the
    resources of the type, [HostResolves] whether a host that is not empty is an
    IP address or resolves, [ReadText] the contents of a file that is read and is
    UTF-8, [ReadMetaProperties] what [MetaProperties::read] answers. *)
Definition admin_answer (c : admin_call) : Type :=
  match c with
  | Connect _ _ => result CommandError unit
  | ReadFile _ => result string string
  | AskConfirm _ _ => result Refusal unit
  | Eprintln _ => unit
  | Elapsed => bool
  | Sleep => unit
  | TimeSeed => Z
  | DescribeCluster _ => result AdminError ClusterDescription
  | Metadata _ => result AdminError (list TopicMetadata)
  | DescribePartitionAssignments _ | ListPartitionReassignments _ =>
      result AdminError (list PartitionAssignment)
  | DescribeReplicaLogDirs _ =>
      list (TopicPartitionReplica * result KafkaError ReplicaLogDirInfo)
  | AlterReplicaLogDirs _ => list (TopicPartitionReplica * result KafkaError unit)
  | AlterPartitionAssignments _ _ =>
      result AdminError (list (string * Z * option KafkaError))
  | IncrementalAlterConfigs _ =>
      result AdminError (list (ConfigResource * result KafkaError unit))
  | ReconcileReplicationFactor _ _ => result AdminError string
  | UnregisterBroker _ => result AdminError unit
  | DeleteRecords _ => result AdminError (list DeleteRecordsOutcome)
  | ElectLeaders _ _ => result AdminError (list ((string * Z) * result KafkaError unit))
  | EpochMillis => option Z
  | ListTopics _ => result AdminError (list string)
  | DescribeTopics _ _ => list (string * result KafkaError TopicDescription)
  | DescribeTopicsById _ => list (Uuid * result KafkaError TopicDescription)
  | ListOffsets _ _ => list ((string * Z) * result KafkaError Z)
  | ListGroups _ => result AdminError (result ListGroupsError (list GroupListing))
  | DescribeConsumerGroups _ => list (string * result KafkaError ConsumerGroupDescription)
  | ListConsumerGroupOffsets _ => result AdminError (list ((string * Z) * Z))
  | DeleteConsumerGroups _ => list (string * result KafkaError unit)
  | DeleteConsumerGroupOffsets _ _ | AlterConsumerGroupOffsets _ _ =>
      result AdminError (list OffsetOutcome)
  | CreateTopics _ | CreatePartitions _ | DeleteTopics _ => result AdminError (list TopicOutcome)
  | DescribeConfigs _ _ =>
      result AdminError (list (ConfigResource * result KafkaError (list ConfigEntry)))
  | DescribeLogDirs _ _ => list (Z * result KafkaError (list LogDirInfo))
  | LoadOptions _ _ => result CommandError unit
  | Resolve _ => result string (list string)
  | OpenConnection _ _ => result ClientError Handle
  | AdvertisedMax _ _ => option Z
  | SendListTransactions _ _ => result ClientError ListTransactionsResponse
  | SendDescribeProducers _ _ =>
      result ClientError (list (string * list DescribeProducersPartition))
  | DescribeProducers _ => list ((string * Z) * result KafkaError (list ProducerStateInfo))
  | ListTransactions _ => result AdminError (list TransactionListing)
  | DescribeTransaction _ => result AdminError TransactionDescription
  | AbortTransaction _ | ForceTerminateTransaction _ => result AdminError unit
  | DescribeAcls _ => result AdminError (list AclBinding)
  | CreateAcls _ => result AdminError (list (option KafkaError))
  | DeleteAcls _ => result AdminError (list DeleteAclsOutcome)
  | ListConfigResources _ => result AdminError (list string)
  | ListAllGroups => result AdminError (result ListGroupsError (list GroupListing))
  | DescribeClientQuotas _ =>
      result AdminError (list (ClientQuotaEntity * list (string * F64)))
  | AlterClientQuotas _ _ => result AdminError (list (ClientQuotaEntity * result KafkaError unit))
  | DescribeUserScramCredentials _ => result AdminError (list UserScramCredentials)
  | AlterUserScramCredentials _ _ _ => result AdminError (list (option KafkaError))
  | HostResolves _ => bool
  | EnvVar _ => option string
  | CreateDelegationToken _ _ _ => result AdminError DelegationToken
  | RenewDelegationToken _ _ | ExpireDelegationToken _ _ => result AdminError Z
  | DescribeDelegationToken _ => result AdminError (list DelegationToken)
  | DescribeFeatures _ => result AdminError FeatureMetadata
  | UpdateFeatures _ _ => result AdminError (list (string * result KafkaError unit))
  | DescribeMetadataQuorum => result AdminError MetadataQuorum
  | AddRaftVoter _ _ _ | RemoveRaftVoter _ _ => result AdminError unit
  | ReadText _ => option string
  | IsDir _ | PathExists _ => bool
  | ReadMetaProperties _ => result string (option MetaProperties)
  | ReadBytes _ => result ReadError string
  | RandomUuid => Uuid
  end.

Definition admin : Signature := {| call := admin_call; answer := admin_answer |}.

(** A call, with the answer type computed. *)
Definition send (c : admin_call) : prog admin (admin_answer c) := ask (Σ := admin) c.

Lemma run_send {W A} (world : ∀ c : admin_call, W → admin_answer c * W) c
    (f : admin_answer c → prog admin A) w :
  (run (Σ := admin) world (prog_bind f (send c)) w).1.1 =
    (run (Σ := admin) world (f (world c w).1) (world c w).2).1.1.
Proof. apply (run_ask (Σ := admin)). Qed.

(** The requests that change the cluster. *)
Definition mutating (c : admin_call) : bool :=
  match c with
  | AlterReplicaLogDirs _ | AlterPartitionAssignments _ _ | IncrementalAlterConfigs _
  | ReconcileReplicationFactor _ _ | UnregisterBroker _ | DeleteRecords _
  | ElectLeaders _ _ | DeleteConsumerGroups _ | DeleteConsumerGroupOffsets _ _
  | AlterConsumerGroupOffsets _ _ | CreateTopics _ | CreatePartitions _ | DeleteTopics _
  | AbortTransaction _ | ForceTerminateTransaction _ | CreateAcls _ | DeleteAcls _
  | AlterClientQuotas _ _ | AlterUserScramCredentials _ _ _ | CreateDelegationToken _ _ _
  | RenewDelegationToken _ _ | ExpireDelegationToken _ _ | AddRaftVoter _ _ _
  | RemoveRaftVoter _ _ => true
  | UpdateFeatures _ validate_only => negb validate_only
  | _ => false
  end.

(** [safety::confirm]: under [--yes] it asks nothing. *)
Definition confirm (yes : bool) (command : string) (impact : Impact) : cmd admin unit :=
  if yes then pure tt
  else prog_bind (λ r, Halt (Done (map_err Refused r))) (send (AskConfirm command impact)).

(** [ConnectionArgs::connect], as the commands see it; [Connection] has its
    steps, none of which changes a cluster. *)
Definition connect (connection : ConnectionArgs) (command : string) : cmd admin unit :=
  send (Connect connection command).

(** A computation that may panic, inside a command. *)
Definition run_outcome {A} (o : outcome A) : cmd admin A :=
  match o with Done a => pure a | Panic => Halt Panic | Timeout => Halt Timeout end.

(** ** Monitors *)

(** Allows every call, for posts that hold whatever is sent and answered. *)
Definition unrestricted : Monitor admin unit :=
  Build_Monitor (Σ := admin) unit (λ _ _, True) (λ _ _ _, tt).

(** Allows no request that changes the cluster: the contract of [--dry-run]. *)
Definition read_only : Monitor admin unit :=
  Build_Monitor (Σ := admin) unit (λ _ c, mutating c = false) (λ _ _ _, tt).

(** The state of a guarded command: whether the operator accepted. *)
Definition accepted (c : admin_call) (r : admin_answer c) : bool :=
  match c, r with
  | AskConfirm _ _, Ok _ => true
  | _, _ => false
  end.

(** Allows a request that changes the cluster only once a confirmation was
    accepted. *)
Definition guarded : Monitor admin bool :=
  Build_Monitor (Σ := admin) bool (λ s c, mutating c = true → s = true)
    (λ s c r, s || accepted c r).

(** ** Contracts, as properties of every run *)

Definition changes (e : event admin) : bool := mutating (projT1 e).
Definition accepts_prompt (e : event admin) : bool := accepted (projT1 e) (projT2 e).

(** The outcome and the events of a run against a world. *)
Definition outcome_of {W A} (world : ∀ c : admin_call, W → admin_answer c * W)
    (p : prog admin A) (w : W) : outcome A := (run (Σ := admin) world p w).1.1.
Definition events_of {W A} (world : ∀ c : admin_call, W → admin_answer c * W)
    (p : prog admin A) (w : W) : list (event admin) := (run (Σ := admin) world p w).2.

(** What [--dry-run] promises: whatever the cluster answers, no request that
    changes it, and a report that is marked. *)
Definition dry_run_contract (p : cmd admin CommandResult) : Prop :=
  ∀ W (world : ∀ c : admin_call, W → admin_answer c * W) (w : W),
    Forall (λ e, changes e = false) (events_of world p w) ∧
    ∀ r, outcome_of world p w = Done (Ok r) → dry_run r = true.

(** What the confirmation promises: without [--yes], a request that changes the
    cluster comes after a prompt that the operator accepted. *)
Definition confirm_contract {A} (yes : bool) (p : cmd admin A) : Prop :=
  ∀ W (world : ∀ c : admin_call, W → admin_answer c * W) (w : W) pre e post,
    events_of world p w = pre ++ e :: post → changes e = true →
    yes = true ∨ ∃ e', e' ∈ pre ∧ accepts_prompt e' = true.

(** A command that only reads. *)
Definition read_only_contract {A} (p : prog admin A) : Prop :=
  ∀ W (world : ∀ c : admin_call, W → admin_answer c * W) (w : W),
    Forall (λ e, changes e = false) (events_of world p w).

Lemma read_only_log log post :
  accepts read_only tt log post → Forall (λ e, changes e = false) log.
Proof.
  induction log as [|[c r] log IH]; simpl; [constructor|]. intros [Hc Hlog].
  constructor; [done|]. by apply IH.
Qed.

Lemma guarded_log s log post pre e rest :
  accepts guarded s log post → log = pre ++ e :: rest → changes e = true →
  s = true ∨ ∃ e', e' ∈ pre ∧ accepts_prompt e' = true.
Proof.
  revert s log. induction pre as [|[c r] pre IH]; intros s log Hlog -> He; simpl in Hlog.
  - destruct e as [c r]. destruct Hlog as [Hc _]. left. by apply Hc.
  - destruct Hlog as [_ Hlog]. destruct (IH _ _ Hlog eq_refl He) as [Hs|(e' & Hin & Ha)].
    + apply orb_true_iff in Hs as [Hs|Hs]; [by left|]. right. exists (existT c r).
      split; [left|done].
    + right. exists e'. split; [by right|done].
Qed.

Lemma dry_run_intro (p : cmd admin CommandResult) :
  monitored read_only tt p (on_ok (λ _ r, dry_run r = true)) → dry_run_contract p.
Proof.
  intros Hp W world w. pose proof (run_monitored (Σ := admin) world _ _ _ _ w Hp) as Ha.
  split; [by eapply read_only_log|]. intros r E. unfold outcome_of in E.
  clear Hp. revert Ha. generalize (run (Σ := admin) world p w).2. rewrite E. simpl.
  intros log. induction log as [|[c x] log IH]; simpl; [done|]. intros [_ Hlog]. by apply IH.
Qed.

Lemma confirm_intro {A} yes (p : cmd admin A) :
  monitored guarded yes p (on_ok (λ _ _, True)) → confirm_contract yes p.
Proof.
  intros Hp W world w pre e post. apply (guarded_log _ _ (λ s', on_ok (λ _ _, True) s'
    (outcome_of world p w))). by apply (run_monitored (Σ := admin)).
Qed.

(** ** Proof rules *)

(** A program that changes nothing, whatever the answers. *)
Definition harmless {A} (p : prog admin A) : Prop :=
  monitored read_only tt p (λ _ _, True).

Lemma harmless_intro {A} (p : prog admin A) : harmless p → read_only_contract p.
Proof.
  intros Hp W world w. eapply read_only_log. by apply (run_monitored (Σ := admin)).
Qed.

Lemma harmless_halt {A} (o : outcome A) : harmless (Halt o).
Proof. done. Qed.

Lemma harmless_send c : mutating c = false → harmless (send c).
Proof. intros Hc. split; [done|]. intros r. done. Qed.

Lemma harmless_prog_bind {A B} (p : prog admin A) (f : A → prog admin B) :
  harmless p → (∀ a, harmless (f a)) → harmless (prog_bind f p).
Proof.
  intros Hp Hf. apply monitored_bind. eapply monitored_mono; [exact Hp|].
  intros [] [a| |] _; simpl; [apply Hf|done..].
Qed.

Lemma harmless_bind {A B} (p : cmd admin A) (f : A → cmd admin B) :
  harmless p → (∀ a, harmless (f a)) → harmless (p ≫= f).
Proof.
  intros Hp Hf. apply harmless_prog_bind; [done|]. intros [a|e]; [apply Hf|done].
Qed.

Lemma read_only_bind {A B} (p : cmd admin A) (f : A → cmd admin B) Q :
  harmless p → (∀ a, monitored read_only tt (f a) (on_ok Q)) →
  monitored read_only tt (p ≫= f) (on_ok Q).
Proof.
  intros Hp Hf. apply monitored_bind. eapply monitored_mono; [exact Hp|].
  intros [] [[a|e]| |] _; simpl; [apply Hf|done..].
Qed.

(** Once the operator accepted, every call is allowed. *)
Lemma guarded_true {A} (p : cmd admin A) : monitored guarded true p (on_ok (λ _ _, True)).
Proof.
  induction p as [o|c k IH]; simpl; [by destruct o as [[]| |]|]. split; [done|]. exact IH.
Qed.

(** A harmless program is allowed in every state, and leaves an acceptance
    standing. *)
Lemma harmless_guarded {A} s (p : prog admin A) :
  harmless p → monitored guarded s p (λ s' _, s = true → s' = true).
Proof.
  assert (∀ s', (s = true → s' = true) → harmless p →
    monitored guarded s' p (λ s' _, s = true → s' = true)) as H; [|intros Hp; by apply H].
  induction p as [o|c k IH]; simpl; intros s' Hs Hp; [done|].
  destruct Hp as [Hc Hk]. split; [by rewrite Hc|]. intros r. apply IH; [|by apply Hk].
  intros E. by rewrite (Hs E).
Qed.

Lemma guarded_bind {A B} s (p : cmd admin A) (f : A → cmd admin B) :
  harmless p →
  (∀ s' a, (s = true → s' = true) → monitored guarded s' (f a) (on_ok (λ _ _, True))) →
  monitored guarded s (p ≫= f) (on_ok (λ _ _, True)).
Proof.
  intros Hp Hf. apply monitored_bind.
  eapply monitored_mono; [by apply (harmless_guarded s)|].
  intros s' [[a|e]| |] Hs; simpl; [by apply Hf|done..].
Qed.

Lemma guarded_confirm {A} yes s command impact (f : unit → cmd admin A) :
  (yes = true → s = true) →
  monitored guarded s (confirm yes command impact ≫= f) (on_ok (λ _ _, True)).
Proof.
  intros Hs. destruct yes; simpl.
  - rewrite (Hs eq_refl). apply guarded_true.
  - split; [done|]. intros [[]|refusal]; simpl; [|done]. rewrite orb_true_r. apply guarded_true.
Qed.

Lemma guarded_harmless {A} s (p : cmd admin A) :
  harmless p → monitored guarded s p (on_ok (λ _ _, True)).
Proof.
  intros Hp. eapply monitored_mono; [by apply (harmless_guarded s)|]. by intros s' [[]| |] _.
Qed.

Lemma harmless_confirm yes command impact : harmless (confirm yes command impact).
Proof. destruct yes; [done|]. split; [done|]. by intros [|]. Qed.

Lemma harmless_lift {A} (r : result string A) : harmless (lift (Σ := admin) r).
Proof. by destruct r. Qed.

Lemma harmless_expect {A} (o : option A) : harmless (expect (Σ := admin) o).
Proof. by destruct o. Qed.

Lemma harmless_try_admin {A} (p : prog admin (result AdminError A)) :
  harmless p → harmless (try_admin p).
Proof. intros Hp. apply harmless_prog_bind; [done|]. by intros. Qed.

Lemma harmless_await {A} (p : prog admin A) : harmless p → harmless (await p).
Proof. intros Hp. apply harmless_prog_bind; [done|]. by intros. Qed.

#[export] Hint Resolve harmless_halt harmless_confirm harmless_lift harmless_expect
  harmless_try_admin harmless_await : krabka.
#[export] Hint Extern 1 (harmless (send _)) => (apply harmless_send; reflexivity) : krabka.
#[export] Hint Extern 1 (harmless (pure _)) => exact I : krabka.
#[export] Hint Extern 1 (harmless (throw _)) => exact I : krabka.

Lemma harmless_connect connection command : harmless (connect connection command).
Proof. unfold connect. by apply harmless_send. Qed.
#[export] Hint Resolve harmless_connect : krabka.

Lemma harmless_lift_cmd {A} (r : result CommandError A) : harmless (lift_cmd r).
Proof. done. Qed.
#[export] Hint Resolve harmless_lift_cmd : krabka.

Lemma harmless_run_outcome {A} (o : outcome A) : harmless (run_outcome o).
Proof. by destruct o. Qed.
#[export] Hint Resolve harmless_run_outcome : krabka.

(** Walks the binds of a command that only reads, up to a goal that is not a
    bind. *)
Ltac ro_step := apply read_only_bind; [auto with krabka|intros].
Ltac guarded_step := apply guarded_bind; [auto with krabka|intros].

(** Walks a command that sends no request which changes the cluster. *)
Ltac harmless :=
  repeat first
    [ progress intros
    | solve [auto with krabka]
    | apply harmless_bind
    | apply harmless_prog_bind
    | lazymatch goal with
      | |- harmless (match ?x with _ => _ end) => destruct x
      | |- harmless (let '_ := ?x in _) => destruct x
      end ].

(** ** Requests by what came before them *)

(** Steps that only read pass a monitor that allows reads, and leave a trace. *)
Lemma history_harmless {A} (P : list (event admin) → admin_call → Prop) past (p : prog admin A) :
  (∀ past c, mutating c = false → P past c) → harmless p →
  monitored (history (Σ := admin) P) past p (λ past' o, ∃ log, past' = past ++ log ∧ trace p log o).
Proof.
  intros HP Hp. apply monitored_trace. revert past. unfold harmless in Hp.
  induction p as [o|c k IH]; intros past; [done|]. destruct Hp as [Hc Hk]. split; [by apply HP|].
  intros r. by apply IH, Hk.
Qed.

Lemma history_bind {A B} (P : list (event admin) → admin_call → Prop) past (p : cmd admin A)
    (f : A → cmd admin B) (Q : list (event admin) → B → Prop) :
  (∀ past c, mutating c = false → P past c) → harmless p →
  (∀ log a, trace p log (Done (Ok a)) →
     monitored (history (Σ := admin) P) (past ++ log) (f a) (on_ok Q)) →
  monitored (history (Σ := admin) P) past (p ≫= f) (on_ok Q).
Proof.
  intros HP Hp Hf. apply monitored_bind.
  eapply monitored_mono; [by apply history_harmless|].
  intros past' [[a|e]| |] (log & -> & Ht); simpl; [by apply Hf|done..].
Qed.

(** What the steps of a command leave in a trace. *)
Lemma harmless_trace {A} (p : prog admin A) log o :
  harmless p → trace p log o → Forall (λ e, changes e = false) log.
Proof.
  revert log. induction p as [o'|c k IH]; intros log Hp Ht.
  - destruct Ht as [-> _]. done.
  - destruct Hp as [Hc Hk]. destruct Ht as (r & log' & -> & Ht). constructor; [exact Hc|].
    exact (IH r log' (Hk r) Ht).
Qed.

Lemma trace_confirm yes command impact log :
  trace (confirm yes command impact) log (Done (Ok tt)) →
  yes = true ∨ log = [existT (AskConfirm command impact : call admin) (Ok tt) : event admin].
Proof.
  destruct yes; [by left|]. intros ([[]|refusal] & log' & -> & Ht); [|by destruct Ht].
  destruct Ht as [-> _]. by right.
Qed.

Lemma trace_lift {A} (r : result string A) log a :
  trace (lift (Σ := admin) r) log (Done (Ok a)) → r = Ok a ∧ log = [].
Proof. destruct r; intros [-> E]; by simplify_eq. Qed.

(** ** Runs, step by step *)

(** [p] ends in [r] after the events [log]. *)
Definition ends_in {W A} (world : ∀ c : admin_call, W → admin_answer c * W) (p : cmd admin A)
    (w : W) (r : result CommandError A) (w' : W) (log : list (event admin)) : Prop :=
  run (Σ := admin) world p w = (Done r, w', log).

Section Runs.
Context {W : Type} (world : ∀ c : admin_call, W → admin_answer c * W).

Lemma ends_in_bind {A B} (p : cmd admin A) (f : A → cmd admin B) w a w1 log1 r w2 log2 :
  ends_in world p w (Ok a) w1 log1 → ends_in world (f a) w1 r w2 log2 →
  ends_in world (p ≫= f) w r w2 (log1 ++ log2).
Proof.
  unfold ends_in. revert w log1. induction p as [[]|c k IH]; intros w log1 Hp Hf; cbn in Hp |- *;
    simplify_eq; [done|].
  destruct (world c w) as [x w']. destruct (run (Σ := admin) world (k x) w') as [[o w''] log] eqn:E.
  simplify_eq. specialize (IH x w' log E Hf). unfold mbind, cmd_bind in IH.
  by rewrite IH.
Qed.

Lemma ends_in_err {A B} (p : cmd admin A) (f : A → cmd admin B) w e w1 log1 :
  ends_in world p w (Err e) w1 log1 → ends_in world (p ≫= f) w (Err e) w1 log1.
Proof.
  unfold ends_in. revert w log1. induction p as [[]|c k IH]; intros w log1 Hp; cbn in Hp |- *;
    simplify_eq; [done|].
  destruct (world c w) as [x w']. destruct (run (Σ := admin) world (k x) w') as [[o w''] log] eqn:E.
  simplify_eq. specialize (IH x w' log E). unfold mbind, cmd_bind in IH.
  by rewrite IH.
Qed.

(** A run of a bind that succeeds goes through a run of its first part. *)
Lemma ends_in_bind_inv {A B} (p : cmd admin A) (f : A → cmd admin B) w b w2 log :
  ends_in world (p ≫= f) w (Ok b) w2 log →
  ∃ a w1 log1 log2, ends_in world p w (Ok a) w1 log1 ∧ ends_in world (f a) w1 (Ok b) w2 log2 ∧
    log = log1 ++ log2.
Proof.
  unfold ends_in, mbind, cmd_bind. revert w log.
  induction p as [[[a|e]| |]|c k IH]; intros w log Hp; cbn in Hp |- *; simplify_eq.
  - by exists a, w, [], log.
  - destruct (world c w) as [x w'].
    destruct (run (Σ := admin) world (prog_bind _ (k x)) w') as [[o w''] log'] eqn:E.
    simplify_eq. destruct (IH x w' log' E) as (a & w1 & log1 & log2 & H1 & H2 & ->).
    exists a, w1, (existT c x :: log1), log2. rewrite H1. by split_and!.
Qed.

Lemma ends_in_lift_inv {A} (r : result string A) w a w' log :
  ends_in world (lift r) w (Ok a) w' log → r = Ok a ∧ w' = w ∧ log = [].
Proof. destruct r; intros H; inversion H; by subst. Qed.

Lemma ends_in_await_inv c w a w' log :
  ends_in world (await (send c)) w (Ok a) w' log → log = [existT c a] ∧ world c w = (a, w').
Proof.
  unfold ends_in. cbn. destruct (world c w) as [x w1]. intros [= <- <- <-]. done.
Qed.
End Runs.

(** A world that grants everything and knows nothing, for examples. *)
Definition obliging_world (c : admin_call) (w : unit) : admin_answer c * unit :=
  (match c return admin_answer c with
   | Connect _ _ => Ok tt
   | ReadFile _ => Ok ""
   | AskConfirm _ _ => Ok tt
   | Eprintln _ => tt
   | Elapsed => true
   | Sleep => tt
   | TimeSeed => 0
   | DescribeCluster _ => Ok {| description_cluster_id := "c"; description_nodes := [] |}
   | Metadata _ => Ok []
   | DescribePartitionAssignments _ => Ok []
   | ListPartitionReassignments _ => Ok []
   | DescribeReplicaLogDirs _ => []
   | AlterReplicaLogDirs _ => []
   | AlterPartitionAssignments _ _ => Ok []
   | IncrementalAlterConfigs _ => Ok []
   | ReconcileReplicationFactor _ _ => Ok ""
   | UnregisterBroker _ => Ok tt
   | DeleteRecords _ => Ok []
   | ElectLeaders _ _ => Ok []
   | EpochMillis => Some 0
   | ListTopics _ => Ok []
   | DescribeTopics _ _ => []
   | DescribeTopicsById _ => []
   | ListOffsets _ _ => []
   | ListGroups _ => Ok (Ok [])
   | DescribeConsumerGroups _ => []
   | ListConsumerGroupOffsets _ => Ok []
   | DeleteConsumerGroups _ => []
   | DeleteConsumerGroupOffsets _ _ => Ok []
   | AlterConsumerGroupOffsets _ _ => Ok []
   | CreateTopics _ => Ok []
   | CreatePartitions _ => Ok []
   | DeleteTopics _ => Ok []
   | DescribeConfigs _ _ => Ok []
   | DescribeLogDirs _ _ => []
   | LoadOptions _ _ => Ok tt
   | Resolve address => Ok [address]
   | OpenConnection _ _ => Ok 0%nat
   | AdvertisedMax _ _ => Some 2
   | SendListTransactions _ _ => Ok {| lt_error_code := 0; lt_transaction_states := [] |}
   | SendDescribeProducers _ _ => Ok []
   | DescribeProducers _ => []
   | ListTransactions _ => Ok []
   | DescribeTransaction id => Err (OtherAdminError id)
   | AbortTransaction _ => Ok tt
   | ForceTerminateTransaction _ => Ok tt
   | DescribeAcls _ => Ok []
   | CreateAcls acls => Ok (map (λ _, None) acls)
   | DeleteAcls filters => Ok (map (λ _, {| da_matched := []; da_error := None |}) filters)
   | ListConfigResources _ => Ok []
   | ListAllGroups => Ok (Ok [])
   | DescribeClientQuotas _ => Ok []
   | AlterClientQuotas entity _ => Ok [(entity, Ok tt)]
   | DescribeUserScramCredentials _ => Ok []
   | AlterUserScramCredentials _ _ _ => Ok []
   | HostResolves _ => true
   | EnvVar _ => None
   | CreateDelegationToken _ _ _ => Err (OtherAdminError "no tokens")
   | RenewDelegationToken _ _ => Ok 0
   | ExpireDelegationToken _ _ => Ok 0
   | DescribeDelegationToken _ => Ok []
   | DescribeFeatures _ =>
       Ok {| fm_supported := []; fm_finalized := []; fm_finalized_features_epoch := None |}
   | UpdateFeatures updates _ => Ok (map (λ update : string * _, (update.1, Ok tt)) updates)
   | DescribeMetadataQuorum =>
       Ok {| mq_leader_id := 0; mq_leader_epoch := 0; mq_high_watermark := 0; mq_voters := [];
             mq_observers := []; mq_nodes := [] |}
   | AddRaftVoter _ _ _ => Ok tt
   | RemoveRaftVoter _ _ => Ok tt
   | ReadText _ => Some ""
   | IsDir _ => true
   | PathExists _ => true
   | ReadMetaProperties _ => Ok None
   | ReadBytes _ => Ok ""
   | RandomUuid => ""
   end, w).
