(* ===== verification/Cluster.v ===== *)
(** [cluster.rs]: [krabka cluster], and the node list that other commands ask it
    for. *)

From S2P Require Import Connection.
From S2P Require Import Prelude Collections Rust Jvm Json KafkaErrors Output Program Admin.

Definition UNSUPPORTED_VERSION : Z := 35.

Record ClusterConnection := { connection : ConnectionArgs; config : option string }.

(** [ClusterConnection::resolve]. *)
Definition resolve (c : ClusterConnection) : result CommandError (ConnectionArgs * list string) :=
  match config c, command_config (connection c) with
  | Some _, Some _ =>
      Err (Other "--config and --command-config cannot be specified together.")
  | Some config, None =>
      Ok (with_command_config (connection c) config,
          ["Option --config has been deprecated and will be removed in a future version. Use --command-config instead."])
  | None, _ => Ok (connection c, [])
  end.

(** ** The nodes *)

(** [cluster_id]. *)
Definition cluster_id : prog admin (result AdminError string) :=
  prog_bind (λ r, Halt (Done (description_cluster_id <$> r))) (send (DescribeCluster false)).

(** Replaces the node with the same ID, or appends. *)
Fixpoint put_node (node : ClusterNode) (unique : list ClusterNode) : list ClusterNode :=
  match unique with
  | [] => [node]
  | known :: unique =>
      if node_id known =? node_id node then node :: unique else known :: put_node node unique
  end.

Definition node_order (nodes : list ClusterNode) : list ClusterNode :=
  hash_order (fold_left (λ unique node, put_node node unique) nodes []) Default node_id.

Definition cluster_nodes (include_fenced_brokers : bool)
    : prog admin (result AdminError (list ClusterNode)) :=
  prog_bind (λ r, Halt (Done ((λ d, node_order (description_nodes d)) <$> r)))
    (send (DescribeCluster include_fenced_brokers)).

(** ** [cluster-id] *)

Definition cluster_id_line (cluster_id : option string) : string :=
  match cluster_id with
  | None => "No cluster ID found. The Kafka version is probably too old."
  | Some id => "Cluster ID: " +:+ id
  end.

Definition cluster_id_command (c : ClusterConnection) : cmd admin CommandResult :=
  '(connection, human) ← lift_cmd (resolve c);
  _ ← connect connection "cluster";
  id ← try_admin cluster_id;
  pure (success (human ++ [cluster_id_line (Some id)]) (object_of [("cluster_id", Str id)])).

(** ** [unregister] *)

Inductive Unregistered := UnregisterDone | UnregisterNotSupported.

Definition unregister_outcome (r : result AdminError unit) : result CommandError Unregistered :=
  match r with
  | Ok _ => Ok UnregisterDone
  | Err (Transport (IncompatibleVersion _ _)) => Ok UnregisterNotSupported
  | Err (BrokerError api code name message) =>
      if code =? UNSUPPORTED_VERSION then Ok UnregisterNotSupported
      else Err (from_admin_error (BrokerError api code name message))
  | Err error => Err (from_admin_error error)
  end.

Definition unregistered_line (id : Z) : string :=
  "Broker " +:+ pretty id +:+ " is no longer registered.".

Definition unregister_data (id : Z) (unregistered : bool) : Value :=
  object_of [("broker_id", num id); ("unregistered", Bool unregistered)].

Definition unregister_command (c : ClusterConnection) (id : Z) (args : ConfirmArgs)
    : cmd admin CommandResult :=
  '(connection, human) ← lift_cmd (resolve c);
  _ ← connect connection "cluster";
  if dry_run_flag args then
    pure (into_dry_run (success (human ++ [unregistered_line id]) (unregister_data id true)))
  else
    _ ← confirm (yes_flag args) "krabka cluster unregister"
          {| summary := "unregister broker " +:+ pretty id;
             resources := ["broker " +:+ pretty id] |};
    r ← await (send (UnregisterBroker id));
    outcome ← lift_cmd (unregister_outcome r);
    match outcome with
    | UnregisterDone => pure (success (human ++ [unregistered_line id]) (unregister_data id true))
    | UnregisterNotSupported =>
        pure (success
          (human ++ ["The target cluster does not support the broker unregistration API."])
          (unregister_data id false))
    end.

(** ** [list-endpoints] *)

Definition endpoint_row (host_width rack_width : nat) (id host port rack : string)
    (state : option string) (kind : string) : string :=
  pad id 10 +:+ " " +:+ pad host host_width +:+ " " +:+ pad port 10 +:+ " " +:+
  pad rack rack_width +:+ " " +:+
  match state with Some state => pad state 10 +:+ " " | None => "" end +:+
  pad kind 15.

(** [iter.max().unwrap_or(default)]. *)
Definition max_or (default : nat) (l : list nat) : nat :=
  match l with [] => default | _ => foldr Nat.max 0%nat l end.

Definition endpoint_lines (nodes : list ClusterNode) (controllers : bool) : list string :=
  let host_width := max_or 100 (map (λ node, length (chars (node_host node))) nodes) in
  let rack_width := max_or 10 (omap (λ node, (λ r, length (chars r)) <$> node_rack node) nodes) in
  let row := endpoint_row host_width rack_width in
  row "ID" "HOST" "PORT" "RACK" (if controllers then None else Some "STATE") "ENDPOINT_TYPE" ::
  map (λ node,
    row (pretty (node_id node)) (node_host node) (pretty (node_port node))
      (default "null" (node_rack node))
      (if controllers then None
       else Some (if node_is_fenced node then "fenced" else "unfenced"))
      (if controllers then "controller" else "broker")) nodes.

Definition endpoint_json (kind : string) (node : ClusterNode) : Value :=
  object_of [("id", num (node_id node)); ("host", Str (node_host node));
             ("port", num (node_port node)); ("rack", opt_str (node_rack node));
             ("fenced", Bool (node_is_fenced node)); ("endpoint_type", Str kind)].

Definition list_endpoints_command (c : ClusterConnection) (include_fenced_brokers : bool)
    : cmd admin CommandResult :=
  '(connection, human) ← lift_cmd (resolve c);
  let controllers := negb (bool_decide (bootstrap_controller connection = [])) in
  if include_fenced_brokers && controllers then
    throw (Other "The option --include-fenced-brokers is only supported with --bootstrap-server option")
  else
    _ ← connect connection "cluster";
    r ← await (cluster_nodes include_fenced_brokers);
    match r with
    | Ok nodes =>
        pure (success (human ++ endpoint_lines nodes controllers)
          (Array (map (endpoint_json (if controllers then "controller" else "broker")) nodes)))
    | Err (Transport (IncompatibleVersion broker_max text)) =>
        if include_fenced_brokers then
          pure (success (human ++
            ["Attempted to write a non-default includeFencedBrokers at version " +:+
             pretty broker_max]) (Array []))
        else throw (from_admin_error (Transport (IncompatibleVersion broker_max text)))
    | Err error => throw (from_admin_error error)
    end.

(** [ClusterArgs::run]. *)
Inductive ClusterCommand :=
  | ClusterId (c : ClusterConnection)
  | Unregister (c : ClusterConnection) (id : Z) (args : ConfirmArgs)
  | ListEndpoints (c : ClusterConnection) (include_fenced_brokers : bool).

Definition cluster_run (command : ClusterCommand) : cmd admin CommandResult :=
  match command with
  | ClusterId c => cluster_id_command c
  | Unregister c id args => unregister_command c id args
  | ListEndpoints c fenced => list_endpoints_command c fenced
  end.

(** ** Cases of the sources' tests *)

Definition test_node (id : Z) (host : string) (rack : option string) (fenced : bool) : ClusterNode :=
  {| node_id := id; node_host := host; node_port := 9092; node_rack := rack;
     node_is_fenced := fenced |}.

Example node_order_cases :
  map (λ ids, map node_id (node_order (map (λ i, test_node i "h" None false) ids)))
    [[3; 1; 2]; [17; 1; 16]; [2; 2; 1]] = [[1; 2; 3]; [16; 17; 1]; [1; 2]].
Proof. vm_compute. reflexivity. Qed.

Example endpoint_table :
  endpoint_lines [test_node 1 "a.example" (Some "r1") false; test_node 12 "b" None true] false =
  ["ID         HOST      PORT       RACK STATE      ENDPOINT_TYPE  ";
   "1          a.example 9092       r1 unfenced   broker         ";
   "12         b         9092       null fenced     broker         "].
Proof. vm_compute. reflexivity. Qed.

(** ** Lemmas *)

Lemma harmless_cluster_nodes fenced : harmless (cluster_nodes fenced).
Proof. unfold cluster_nodes. harmless. Qed.
#[export] Hint Resolve harmless_cluster_nodes : krabka.

Lemma put_node_ids node unique :
  map node_id (put_node node unique) =
    if decide (node_id node ∈ map node_id unique) then map node_id unique
    else map node_id unique ++ [node_id node].
Proof.
  induction unique as [|known l IH]; simpl; [done|].
  destruct (Z.eqb_spec (node_id known) (node_id node)) as [E|E]; simpl.
  - rewrite E. rewrite decide_True by left. done.
  - rewrite IH. repeat case_decide; set_solver.
Qed.

Lemma put_node_NoDup node unique :
  NoDup (map node_id unique) → NoDup (map node_id (put_node node unique)).
Proof.
  intros Hnd. rewrite put_node_ids. case_decide; [done|].
  apply NoDup_app. split; [done|]. split; [set_solver|apply NoDup_singleton].
Qed.

Lemma elem_of_put_node node unique n :
  NoDup (map node_id unique) →
  n ∈ put_node node unique ↔ n = node ∨ (n ∈ unique ∧ node_id n ≠ node_id node).
Proof.
  induction unique as [|known l IH]; simpl; [set_solver|].
  intros [Hk Hnd]%NoDup_cons.
  destruct (Z.eqb_spec (node_id known) (node_id node)) as [E|E]; rewrite !elem_of_cons.
  - split; [|naive_solver]. intros [->|Hn]; [by left|]. right. split; [by right|].
    rewrite <-E. intros E'. apply Hk. rewrite <-E'. apply list_elem_of_fmap. by exists n.
  - rewrite (IH Hnd). naive_solver.
Qed.

(** The node that the list ends up with for its ID: the last one. *)
Definition last_with_id (nodes : list ClusterNode) (n : ClusterNode) : Prop :=
  ∃ pre post, nodes = pre ++ n :: post ∧ node_id n ∉ map node_id post.

Lemma last_with_id_snoc nodes node n :
  last_with_id (nodes ++ [node]) n ↔ n = node ∨ (last_with_id nodes n ∧ node_id n ≠ node_id node).
Proof.
  unfold last_with_id. split.
  - intros (pre & post & E & Hn). destruct post as [|x post _] using rev_ind.
    + apply app_inj_tail in E as [-> ->]. by left.
    + rewrite app_comm_cons, app_assoc in E. apply app_inj_tail in E as [-> ->].
      rewrite map_app in Hn. right. split; [|set_solver].
      exists pre, post. split; [done|]. set_solver.
  - intros [->|[(pre & post & -> & Hn) Hne]].
    + exists nodes, []. split; [done|]. set_solver.
    + exists pre, (post ++ [node]). rewrite <-app_assoc. split; [done|].
      rewrite map_app. set_solver.
Qed.

Lemma unique_nodes nodes :
  let unique := fold_left (λ unique node, put_node node unique) nodes [] in
  NoDup (map node_id unique) ∧ ∀ n, n ∈ unique ↔ last_with_id nodes n.
Proof.
  induction nodes as [|node nodes IH] using rev_ind; simpl.
  - split; [constructor|]. intros n. split; [set_solver|].
    intros ([] & post & E & _); discriminate E.
  - rewrite fold_left_app. simpl. destruct IH as [Hnd Hin].
    split; [by apply put_node_NoDup|]. intros n.
    rewrite elem_of_put_node by done. by rewrite last_with_id_snoc, Hin.
Qed.

(** ** Properties *)

(** [node_order] is Kafka's map by node ID: no ID occurs twice, and a node is
    in it exactly when it is the last of the description with its ID. *)
Theorem node_order_spec (nodes : list ClusterNode) :
  NoDup (map node_id (node_order nodes)) ∧
  ∀ n, n ∈ node_order nodes ↔ last_with_id nodes n.
Proof.
  unfold node_order. destruct (unique_nodes nodes) as [Hnd Hin]. split.
  - by rewrite hash_order_perm.
  - intros n. by rewrite elem_of_hash_order.
Qed.

(** [krabka cluster] keeps both guards for every cluster: under [--dry-run]
    no action unregisters a broker and an [unregister] is reported as a dry
    run, and otherwise nothing is unregistered before the operator accepted or
    gave [--yes]; the other actions only read. *)
Theorem cluster_run_contracts (command : ClusterCommand) :
  match command with
  | Unregister _ _ args =>
      (dry_run_flag args = true → dry_run_contract (cluster_run command)) ∧
      confirm_contract (yes_flag args) (cluster_run command)
  | _ => read_only_contract (cluster_run command)
  end.
Proof.
  destruct command as [c|c id args|c fenced]; simpl.
  - apply harmless_intro. unfold cluster_id_command, cluster_id. harmless.
  - unfold unregister_command. split.
    + intros Hd. apply dry_run_intro. rewrite Hd.
      apply read_only_bind; [auto with krabka|]. intros [connection human].
      by apply read_only_bind; [auto with krabka|].
    + apply confirm_intro.
      apply guarded_bind; [auto with krabka|]. intros s1 [connection human] H1.
      apply guarded_bind; [auto with krabka|]. intros s2 _ H2.
      destruct (dry_run_flag args); [done|]. apply guarded_confirm. auto.
  - apply harmless_intro. unfold list_endpoints_command. harmless.
Qed.
