(* ===== verification/ReassignFiles.v ===== *)
(** [reassign_partitions/files.rs]: the reassignment file and the
    topics-to-move file of [kafka-reassign-partitions], read and written. *)

From Stdlib Require Import Ascii.
From S2P Require Import Prelude Collections Rust Jvm Json TopicPartition.

Definition ANY_LOG_DIR : string := "any".

Record PartitionTarget := {
  target_partition : TopicPartition;
  target_replicas : list Z;
  target_log_dirs : list string
}.

Record ReassignmentFile := { partitions : list PartitionTarget }.

Record Replica := { replica_broker : Z; replica_topic : string; replica_partition : Z }.

#[export] Instance Replica_eq_dec : EqDecision Replica.
Proof. solve_decision. Defined.

(** The derived [Ord]: by broker, topic, then partition. *)
#[export] Instance Replica_ord : Ord Replica :=
  ord_via (λ r, (replica_broker r, (replica_topic r, replica_partition r)))
    (λ '(b, (t, p)), {| replica_broker := b; replica_topic := t; replica_partition := p |})
    (λ r, match r with
          {| replica_broker := b; replica_topic := t; replica_partition := p |} => eq_refl end).

(** [Display for Replica]. *)
Definition replica_display (r : Replica) : string :=
  replica_topic r +:+ "-" +:+ pretty (replica_partition r) +:+ "-" +:+ pretty (replica_broker r).

Definition targets (file : ReassignmentFile) : list (TopicPartition * list Z) :=
  map (λ t, (target_partition t, target_replicas t)) (partitions file).

(** One target's named log dirs, put into the map. *)
Definition target_moves (moves : list (Replica * string)) (t : PartitionTarget)
    : list (Replica * string) :=
  fold_left (λ moves '(broker, log_dir),
    if bool_decide (log_dir = ANY_LOG_DIR) then moves
    else bt_insert {| replica_broker := broker;
                      replica_topic := topic (target_partition t);
                      replica_partition := partition (target_partition t) |} log_dir moves)
    (zip (target_replicas t) (target_log_dirs t)) moves.

Definition log_dir_moves (file : ReassignmentFile) : list (Replica * string) :=
  fold_left target_moves (partitions file) [].

(** ** Reading *)

Definition duplicates {T} `{EqDecision T} (values : list T) (hash : T → Z) : list T :=
  hash_set_order (repeated_values values) hash.

(** [while parts.last() == Some(&"")]: drops the trailing empty strings. *)
Fixpoint drop_trailing_empty (parts : list string) : list string :=
  match parts with
  | [] => []
  | p :: parts =>
      match drop_trailing_empty parts with
      | [] => if bool_decide (p = "") then [] else [p]
      | rest => p :: rest
      end
  end.

Definition java_split (value : string) (separator : Ascii.ascii) : list string :=
  let parts := split_char separator value in
  if bool_decide (value = "") then parts else drop_trailing_empty parts.

Section Files.
Context `{SerdeJson}.

(** The file's version, which must be 1. *)
Definition check_version (object : list (string * Value)) : result string unit :=
  version ← match bt_get "version" object with None => Ok 1 | Some v => int v end;
  if version =? 1 then Ok tt
  else Err ("Not supported version field value " +:+ pretty version).

Definition parse_entry (entry : Value) : result string PartitionTarget :=
  entry ← Json.object entry;
  t ← field entry "topic"; t ← string_value t;
  p ← field entry "partition"; p ← int p;
  replicas ← field entry "replicas"; replicas ← int_list replicas;
  log_dirs ← match bt_get "log_dirs" entry with
             | Some log_dirs => string_list log_dirs
             | None => Ok (replicate (length replicas) ANY_LOG_DIR)
             end;
  let part := tp_new t p in
  if bool_decide (length replicas ≠ length log_dirs) then
    Err ("Size of replicas list " +:+ collection_to_string pretty replicas +:+
         " is different from size of log dirs list " +:+
         collection_to_string (λ s, s) log_dirs +:+ " for partition " +:+ tp_display part)
  else Ok {| target_partition := part; target_replicas := replicas; target_log_dirs := log_dirs |}.

Definition parse_reassignment (text : string) : result string ReassignmentFile :=
  document ← try_parse_full text;
  object ← document_object document;
  _ ← check_version object;
  match bt_get "partitions" object with
  | None => Ok {| partitions := [] |}
  | Some entries =>
      entries ← array entries;
      entries ← try_map parse_entry entries;
      Ok {| partitions := entries |}
  end.

Definition repeated_line (t : PartitionTarget) : option string :=
  let repeated := duplicates (target_replicas t) integer_hash in
  if bool_decide (repeated = []) then None
  else Some (tp_display (target_partition t) +:+ " contains multiple entries for " +:+
             join "," (map pretty repeated)).

Definition check_execute (file : ReassignmentFile) : result string unit :=
  if bool_decide (partitions file = []) then Err "Partition reassignment list cannot be empty"
  else if existsb (λ t, bool_decide (target_replicas t = [])) (partitions file) then
    Err "Partition replica list cannot be empty"
  else
    let repeated := duplicates (map target_partition (partitions file)) java_hash in
    if bool_decide (repeated ≠ []) then
      Err ("Partition reassignment contains duplicate topic partitions: " +:+
           join "," (map tp_display repeated))
    else
      let repeated_replicas := omap repeated_line (partitions file) in
      if bool_decide (repeated_replicas ≠ []) then
        Err ("Partition replica lists may not contain duplicate entries: " +:+
             join ". " repeated_replicas)
      else Ok tt.

Definition parse_topics (text : string) : result string (list string) :=
  document ← ok_or (parse_full text) "The input string is not a valid JSON";
  object ← document_object document;
  _ ← check_version object;
  match bt_get "topics" object with
  | None => Ok []
  | Some topics =>
      topics ← array topics;
      try_map (λ entry, entry ← Json.object entry; t ← field entry "topic"; string_value t) topics
  end.

Definition parse_broker (id : string) : result string Z :=
  ok_or (parse_i32 id) ("For input string: " +:+ dquote +:+ id +:+ dquote).

Definition parse_generate (topics_json broker_list : string)
    : result string (list Z * list string) :=
  brokers ← try_map parse_broker (java_split broker_list ","%char);
  let repeated := duplicates brokers integer_hash in
  if bool_decide (repeated ≠ []) then
    Err ("Broker list contains duplicate entries: " +:+ collection_to_string pretty repeated)
  else
    topics ← parse_topics topics_json;
    let repeated := duplicates topics string_hash in
    if bool_decide (repeated ≠ []) then
      Err ("List of topics to reassign contains duplicate entries: " +:+
           collection_to_string (λ s, s) repeated)
    else Ok (brokers, topics).

(** ** Writing *)

(** The log dir that [format_reassignment] writes for a replica. *)
Definition log_dir_of (log_dirs : list (Replica * string)) (p : TopicPartition) (broker : Z)
    : string :=
  from_option (λ s, s) ANY_LOG_DIR
    (bt_get {| replica_broker := broker; replica_topic := topic p;
               replica_partition := partition p |} log_dirs).

(** [EntryJson], in the order of its fields. *)
Definition entry_json (log_dirs : list (Replica * string))
    (entry : TopicPartition * list Z) : Value :=
  let '(p, replicas) := entry in
  Object [("topic", Str (topic p)); ("partition", num (partition p));
          ("replicas", nums replicas);
          ("log_dirs", strs (map (log_dir_of log_dirs p) replicas))].

(** [FileJson], in the order of its fields. *)
Definition file_json (assignment : list (TopicPartition * list Z))
    (log_dirs : list (Replica * string)) : Value :=
  Object [("version", num 1); ("partitions", Array (map (entry_json log_dirs) assignment))].

Definition format_reassignment (assignment : list (TopicPartition * list Z))
    (log_dirs : list (Replica * string)) : string :=
  json_text (file_json assignment log_dirs).
End Files.

(** ** Kafka's own cases *)

Definition two_partitions : list (TopicPartition * list Z) :=
  [(tp_new "bar" 0, [1; 2]); (tp_new "foo" 3, [3])].

(** A text with [']s for the double quotes of JSON. *)
Definition quoted (s : string) : string :=
  map_bytes (λ c, if bool_decide (c = "'"%char) then Ascii.ascii_of_nat 34 else c) s.

Example format_is_jacksons :
  @format_reassignment (reads_as Null) two_partitions
    [({| replica_broker := 2; replica_topic := "bar"; replica_partition := 0 |}, "/d2")] =
  quoted "{'version':1,'partitions':[{'topic':'bar','partition':0,'replicas':[1,2],'log_dirs':['any','/d2']},{'topic':'foo','partition':3,'replicas':[3],'log_dirs':['any']}]}".
Proof. vm_compute. reflexivity. Qed.

Example java_split_drops_trailing :
  (java_split "1,2,," ","%char, java_split "" ","%char, java_split ",1" ","%char) = (["1"; "2"], [""], [""; "1"]).
Proof. vm_compute. reflexivity. Qed.

(** ** Lemmas *)

Lemma duplicates_nil {T} `{EqDecision T} (values : list T) hash :
  duplicates values hash = [] ↔ NoDup values.
Proof. unfold duplicates. by rewrite hash_set_order_nil, repeated_values_nil. Qed.

Lemma repeated_line_None t : repeated_line t = None ↔ NoDup (target_replicas t).
Proof.
  unfold repeated_line. rewrite <-(duplicates_nil _ integer_hash).
  case_bool_decide; naive_solver.
Qed.

Lemma omap_nil {A B} (f : A → option B) (l : list A) :
  omap f l = [] ↔ Forall (λ x, f x = None) l.
Proof.
  induction l as [|x l IH]; simpl; [by split|].
  rewrite Forall_cons, <-IH. destruct (f x); simpl; naive_solver.
Qed.

(** What a file must be for [--execute] to accept it. *)
Record executable (file : ReassignmentFile) : Prop := {
  executable_nonempty : partitions file ≠ [];
  executable_replicas : Forall (λ t, target_replicas t ≠ []) (partitions file);
  executable_partitions : NoDup (map target_partition (partitions file));
  executable_distinct : Forall (λ t, NoDup (target_replicas t)) (partitions file)
}.

Lemma existsb_false {A} (f : A → bool) (l : list A) :
  existsb f l = false ↔ Forall (λ x, f x = false) l.
Proof.
  induction l as [|x l IH]; simpl; [by split|].
  rewrite orb_false_iff, Forall_cons. by rewrite IH.
Qed.

Lemma check_execute_Ok file : check_execute file = Ok tt ↔ executable file.
Proof.
  assert (check_execute file = Ok tt ↔
    partitions file ≠ [] ∧
    existsb (λ t, bool_decide (target_replicas t = [])) (partitions file) = false ∧
    duplicates (map target_partition (partitions file)) java_hash = [] ∧
    omap repeated_line (partitions file) = []) as ->.
  { unfold check_execute. case_bool_decide; [naive_solver|].
    destruct (existsb _ _); [naive_solver|].
    repeat case_bool_decide; naive_solver. }
  rewrite existsb_false, duplicates_nil, omap_nil.
  assert (Forall (λ t, bool_decide (target_replicas t = []) = false) (partitions file) ↔
    Forall (λ t, target_replicas t ≠ []) (partitions file)) as ->.
  { apply Forall_iff. intros t. apply bool_decide_eq_false. }
  assert (Forall (λ t, repeated_line t = None) (partitions file) ↔
    Forall (λ t, NoDup (target_replicas t)) (partitions file)) as ->.
  { apply Forall_iff. apply repeated_line_None. }
  split; [intros (?&?&?&?); by constructor|]. by intros [].
Qed.

Definition replica_of_target (t : PartitionTarget) (broker : Z) : Replica :=
  {| replica_broker := broker; replica_topic := topic (target_partition t);
     replica_partition := partition (target_partition t) |}.

(** The moves a target names, in file order. *)
Definition named_moves (t : PartitionTarget) : list (Replica * string) :=
  omap (λ '(broker, log_dir),
    if bool_decide (log_dir = ANY_LOG_DIR) then None
    else Some (replica_of_target t broker, log_dir))
    (zip (target_replicas t) (target_log_dirs t)).

Lemma target_moves_named t m :
  target_moves m t = fold_left (λ m kv, bt_insert kv.1 kv.2 m) (named_moves t) m.
Proof.
  unfold target_moves, named_moves. generalize (zip (target_replicas t) (target_log_dirs t)).
  intros l. revert m. induction l as [|[b d] l IH]; intros m; simpl; [done|].
  rewrite IH. by case_bool_decide.
Qed.

Lemma log_dir_moves_collect file :
  log_dir_moves file = bt_collect (partitions file ≫= named_moves).
Proof.
  unfold log_dir_moves, bt_collect. generalize (@nil (Replica * string)).
  induction (partitions file) as [|t l IH]; intros m; simpl; [done|].
  by rewrite fold_left_app, IH, target_moves_named.
Qed.

Lemma elem_of_named_moves t r d :
  (r, d) ∈ named_moves t ↔
  d ≠ ANY_LOG_DIR ∧ ∃ i b, target_replicas t !! i = Some b ∧ target_log_dirs t !! i = Some d ∧
    r = replica_of_target t b.
Proof.
  unfold named_moves. rewrite list_elem_of_omap. split.
  - intros ([b d'] & Hin & Hif). case_bool_decide; simplify_eq. split; [done|].
    apply list_elem_of_lookup in Hin as [i Hi]. apply lookup_zip_Some in Hi as [??].
    by exists i, b.
  - intros (Hd & i & b & Hb & Hl & ->). exists (b, d). split.
    + apply list_elem_of_lookup. exists i. apply lookup_zip_Some. done.
    + by rewrite bool_decide_false.
Qed.

Lemma named_moves_NoDup t : NoDup (target_replicas t) → NoDup (named_moves t).*1.
Proof.
  unfold named_moves. generalize (target_log_dirs t).
  induction (target_replicas t) as [|b l IH]; intros [|d ds]; simpl; try constructor.
  intros [Hb Hl]%NoDup_cons. case_bool_decide; simpl; [auto|]. constructor; [|auto].
  intros ([r d'] & E & ([b' d''] & Hin & Hif)%list_elem_of_omap)%list_elem_of_fmap.
  case_bool_decide; simplify_eq/=. apply elem_of_zip_l in Hin. done.
Qed.

Lemma all_named_NoDup file :
  executable file → NoDup (partitions file ≫= named_moves).*1.
Proof.
  intros [_ _ Hnd Hd]. induction (partitions file) as [|t l IH]; simpl; [constructor|].
  apply NoDup_cons in Hnd as [Ht Hnd]. apply Forall_cons in Hd as [Hdt Hd].
  rewrite fmap_app. apply NoDup_app. split; [by apply named_moves_NoDup|]. split; [|by apply IH].
  intros r ([r1 d1] & -> & H1)%list_elem_of_fmap ([r2 d2] & E & H2)%list_elem_of_fmap.
  apply list_elem_of_bind in H2 as (t' & H2 & Ht'). simpl in E. subst r2.
  apply elem_of_named_moves in H1 as (_ & i1 & b1 & _ & _ & E1).
  apply elem_of_named_moves in H2 as (_ & i2 & b2 & _ & _ & E2).
  apply Ht. apply list_elem_of_fmap. exists t'. split; [|done].
  rewrite E1 in E2. unfold replica_of_target in E2.
  destruct (target_partition t), (target_partition t'); simpl in *. congruence.
Qed.

Section RoundTrip.
Context `{SerdeJson}.

(** What [format_reassignment] writes for one partition. *)
Definition written_target (log_dirs : list (Replica * string))
    (entry : TopicPartition * list Z) : PartitionTarget :=
  {| target_partition := entry.1; target_replicas := entry.2;
     target_log_dirs := map (log_dir_of log_dirs entry.1) entry.2 |}.

Definition assignment_ok (entry : TopicPartition * list Z) : Prop :=
  i32_ok (partition entry.1) ∧ Forall i32_ok entry.2.

Lemma parse_entry_written log_dirs entry :
  assignment_ok entry →
  parse_entry (canonical (entry_json log_dirs entry)) = Ok (written_target log_dirs entry).
Proof.
  destruct entry as [[t p] replicas]. intros [Hp Hr]. simpl in Hp, Hr.
  unfold entry_json. cbn [canonical map]. rewrite canonical_nums, canonical_strs.
  unfold parse_entry, Json.object, field. simpl.
  change (Num (Int p)) with (num p).
  rewrite int_num by done. simpl. rewrite int_list_nums by done. simpl.
  rewrite string_list_strs. simpl. rewrite length_map.
  by rewrite bool_decide_false by lia.
Qed.

Lemma parse_written assignment log_dirs :
  Forall assignment_ok assignment →
  from_str (json_text (file_json assignment log_dirs)) =
    Ok (canonical (file_json assignment log_dirs)) →
  trim (json_text (file_json assignment log_dirs)) ≠ "" →
  parse_reassignment (format_reassignment assignment log_dirs) =
    Ok {| partitions := map (written_target log_dirs) assignment |}.
Proof.
  intros Hok Hread Htrim. unfold parse_reassignment, format_reassignment, try_parse_full.
  assert (json_text (file_json assignment log_dirs) ≠ "") by (intros E; by rewrite E in Htrim).
  rewrite !bool_decide_false by done. rewrite Hread. unfold file_json. simpl.
  rewrite map_map. rewrite (proj2 (try_map_Ok _ _ (map (written_target log_dirs) assignment)));
    [done|]. clear -Hok.
  induction Hok as [|e l He _ IH]; simpl; constructor; [|done]. by apply parse_entry_written.
Qed.
End RoundTrip.

(** ** Properties *)

(** [check_execute] accepts exactly the files Kafka may execute: some
    partition, no partition twice, and for each a replica list that is not
    empty and names no broker twice. *)
Theorem check_execute_accepts (file : ReassignmentFile) :
  check_execute file = Ok tt ↔ executable file.
Proof. apply check_execute_Ok. Qed.

(** For a file that [check_execute] accepts, [log_dir_moves] holds exactly
    the replicas that the file sends to a named log dir: broker [i] of a
    target's replica list goes to entry [i] of its log dirs, unless that is
    [any]. *)
Theorem log_dir_moves_spec (file : ReassignmentFile) (r : Replica) (d : string) :
  check_execute file = Ok tt →
  bt_get r (log_dir_moves file) = Some d ↔
  d ≠ ANY_LOG_DIR ∧ ∃ t i, t ∈ partitions file ∧
    target_partition t = tp_new (replica_topic r) (replica_partition r) ∧
    target_replicas t !! i = Some (replica_broker r) ∧ target_log_dirs t !! i = Some d.
Proof.
  intros Hex%check_execute_Ok. rewrite log_dir_moves_collect.
  rewrite bt_get_elem by apply bt_collect_wf.
  rewrite elem_of_bt_collect by (by apply all_named_NoDup).
  rewrite list_elem_of_bind. split.
  - intros (t & (Hd & i & b & Hb & Hl & ->)%elem_of_named_moves & Ht). split; [done|].
    exists t, i. split; [done|]. simpl. split; [by destruct (target_partition t)|done].
  - intros (Hd & t & i & Ht & Hp & Hb & Hl). exists t. split; [|done].
    apply elem_of_named_moves. split; [done|]. exists i, (replica_broker r).
    split; [done|]. split; [done|]. unfold replica_of_target. rewrite Hp.
    by destruct r.
Qed.

Definition sample_file : ReassignmentFile :=
  {| partitions := [{| target_partition := tp_new "foo" 0; target_replicas := [1; 2];
                       target_log_dirs := ["any"; "/d2"] |}] |}.

Lemma log_dir_moves_spec_witness :
  ∃ t i, t ∈ partitions sample_file ∧ target_partition t = tp_new "foo" 0 ∧
    target_replicas t !! i = Some 2 ∧ target_log_dirs t !! i = Some "/d2".
Proof.
  destruct (proj1 (log_dir_moves_spec sample_file
    {| replica_broker := 2; replica_topic := "foo"; replica_partition := 0 |} "/d2" eq_refl)
    eq_refl) as [_ Hd].
  exact Hd.
Defined.

(** C37. What [format_reassignment] writes, [parse_reassignment] reads back:
    the same partitions in the same order, with their replicas and with each
    replica's log dir or [any]. The reader and the writer of JSON text enter
    through one fact: the written text is not blank and reads as the value it
    was written from, objects in key order. *)
Theorem reassignment_round_trip `{SerdeJson} (assignment : list (TopicPartition * list Z))
    (log_dirs : list (Replica * string)) :
  Forall assignment_ok assignment →
  from_str (json_text (file_json assignment log_dirs)) =
    Ok (canonical (file_json assignment log_dirs)) →
  trim (json_text (file_json assignment log_dirs)) ≠ "" →
  ∃ file, parse_reassignment (format_reassignment assignment log_dirs) = Ok file ∧
    targets file = assignment ∧
    Forall (λ t, target_log_dirs t =
      map (log_dir_of log_dirs (target_partition t)) (target_replicas t)) (partitions file).
Proof.
  intros Hok Hread Htrim. eexists. split; [by apply parse_written|]. split.
  - unfold targets. simpl. rewrite map_map. rewrite (map_ext _ (λ x, x)); [apply map_id|].
    by intros [].
  - simpl. apply Forall_fmap. by apply Forall_true.
Qed.

Definition sample_log_dirs : list (Replica * string) :=
  [({| replica_broker := 2; replica_topic := "bar"; replica_partition := 0 |}, "/d2")].

Lemma reassignment_round_trip_witness :
  let serde := reads_as (canonical (file_json two_partitions sample_log_dirs)) in
  ∃ file, @parse_reassignment serde
      (@format_reassignment serde two_partitions sample_log_dirs) = Ok file ∧
    targets file = two_partitions.
Proof.
  destruct (@reassignment_round_trip
    (reads_as (canonical (file_json two_partitions sample_log_dirs)))
    two_partitions sample_log_dirs) as (file & Hf & Ht & _); [|reflexivity|by vm_compute|].
  - repeat constructor; unfold i32_ok, in_signed; simpl; lia.
  - exists file. split; [exact Hf|exact Ht].
Defined.
