(* ===== verification/ReassignPlan.v ===== *)
(** [reassign_partitions/plan.rs]: the pure parts of
    [kafka-reassign-partitions]: partition states, moves, throttle values, and
    the lines that the tool prints. *)

From S2P Require Import Prelude Collections Rust Jvm JavaRandom Placer Json TopicPartition.
From S2P Require Import KafkaErrors Output Program Admin ReassignFiles.

Definition LEADER_RATE : string := "leader.replication.throttled.rate".
Definition FOLLOWER_RATE : string := "follower.replication.throttled.rate".
Definition LOG_DIR_RATE : string := "replica.alter.log.dirs.io.max.bytes.per.second".
Definition LEADER_REPLICAS : string := "leader.replication.throttled.replicas".
Definition FOLLOWER_REPLICAS : string := "follower.replication.throttled.replicas".

Definition ids (l : list Z) : string := join "," (map pretty l).

Definition with_label (label : string) (replicas : list Z) : string :=
  if bool_decide (replicas = []) then "" else label +:+ ids replicas +:+ ".".

Definition list_line (entry : TopicPartition * PartitionAssignment) : string :=
  let '(p, assignment) := entry in
  tp_display p +:+ ": replicas: " +:+ ids (pa_replicas assignment) +:+ "." +:+
  with_label " adding: " (pa_adding_replicas assignment) +:+
  with_label " removing: " (pa_removing_replicas assignment).

Definition list_lines (active : list (TopicPartition * PartitionAssignment)) : list string :=
  if bool_decide (bt_keys active = []) then ["No partition reassignments found."]
  else "Current partition reassignments:" :: map list_line active.

(** ** Partition states *)

Record PartitionState := { state_current : list Z; state_target : list Z; state_done : bool }.

Definition partition_state (active : list (TopicPartition * PartitionAssignment))
    (described : list (TopicPartition * list Z)) (entry : TopicPartition * list Z)
    : TopicPartition * PartitionState :=
  let '(p, target) := entry in
  (p, match bt_get p active with
      | Some assignment =>
          {| state_current := pa_replicas assignment; state_target := target;
             state_done := false |}
      | None =>
          {| state_current := default [] (bt_get p described); state_target := target;
             state_done := true |}
      end).

Definition partition_states (targets : list (TopicPartition * list Z))
    (active : list (TopicPartition * PartitionAssignment))
    (described : list (TopicPartition * list Z)) : list (TopicPartition * PartitionState) :=
  bt_collect (map (partition_state active described) targets).

Definition status_line (entry : TopicPartition * PartitionState) : string :=
  let '(p, state) := entry in
  if negb (state_done state) then
    "Reassignment of partition " +:+ tp_display p +:+ " is still in progress."
  else if bool_decide (state_current state = state_target state) then
    "Reassignment of partition " +:+ tp_display p +:+ " is completed."
  else
    "There is no active reassignment of partition " +:+ tp_display p +:+
    ", but replica set is " +:+ ids (state_current state) +:+ " rather than " +:+
    ids (state_target state) +:+ ".".

Definition status_lines (states : list (TopicPartition * PartitionState)) : list string :=
  "Status of partition reassignment:" :: map status_line states.

Definition state_progress (state : PartitionState) : string :=
  match state_done state, bool_decide (state_current state = state_target state) with
  | false, _ => "in_progress"
  | true, true => "completed"
  | true, false => "mismatch"
  end.

Definition states_json (states : list (TopicPartition * PartitionState)) : list Value :=
  map (λ '(p, state),
    object_of [("topic", Str (topic p)); ("partition", num (partition p));
               ("current_replicas", nums (state_current state));
               ("target_replicas", nums (state_target state));
               ("status", Str (state_progress state))]) states.

(** ** Moves *)

(** Both sets are [BTreeSet]s: sorted, without repetition. *)
Record PartitionMove := { sources : list Z; destinations : list Z }.

(** [MoveMap]: every moving partition, by topic and by index. *)
Definition MoveMap : Type := list (string * list (Z * PartitionMove)).

(** [moves.entry(topic).or_default().insert(partition, movement)]. *)
Definition insert_move (p : TopicPartition) (movement : PartitionMove) (moves : MoveMap)
    : MoveMap :=
  bt_insert2 (topic p) (partition p) movement moves.

(** [ids.iter().filter(|id| !of.contains(id)).collect::<BTreeSet<_>>()]. *)
Definition set_without (l excluded : list Z) : list Z :=
  set_collect (filter (λ x, x ∉ excluded) l).

Definition active_move (assignment : PartitionAssignment) : PartitionMove :=
  let destinations := set_collect (pa_adding_replicas assignment) in
  {| sources := set_without (pa_replicas assignment) destinations;
     destinations := destinations |}.

Definition active_moves (active : list (TopicPartition * PartitionAssignment)) : MoveMap :=
  fold_left (λ moves '(p, assignment), insert_move p (active_move assignment) moves) active [].

(** The sources of a proposal: those of the movement it replaces, or the
    current replicas. *)
Definition proposed_sources (moves : MoveMap) (current : list (TopicPartition * list Z))
    (p : TopicPartition) : result string (list Z) :=
  match bt_get2 (topic p) (partition p) moves, bt_get p current with
  | Some movement, _ => Ok (sources movement)
  | None, Some current => Ok (set_collect current)
  | None, None =>
      Err ("Trying to reassign a topic partition " +:+ tp_display p +:+ " with 0 replicas")
  end.

Fixpoint proposed_moves (current : list (TopicPartition * list Z))
    (proposed : list (TopicPartition * list Z)) (moves : MoveMap) : result string MoveMap :=
  match proposed with
  | [] => Ok moves
  | (p, replicas) :: proposed =>
      sources ← proposed_sources moves current p;
      proposed_moves current proposed
        (insert_move p {| sources := sources;
                          destinations := set_without replicas sources |} moves)
  end.

(** [MoveMap::proposed]. *)
Definition move_map_proposed (active : list (TopicPartition * PartitionAssignment))
    (proposed current : list (TopicPartition * list Z)) : result string MoveMap :=
  proposed_moves current proposed (active_moves active).

(** [MoveMap::throttles]: the [partition:broker] entries of each topic. *)
Definition throttles (brokers : PartitionMove → list Z) (moves : MoveMap)
    : list (string * string) :=
  bt_collect (map (λ '(topic, partitions),
    (topic, join "," (set_collect (partitions ≫= λ '(partition, movement),
       map (λ broker, pretty partition +:+ ":" +:+ pretty broker) (brokers movement)))))
    moves).

Definition leader_throttles (moves : MoveMap) : list (string * string) :=
  throttles sources moves.

(** [BTreeSet::difference], in order. *)
Definition difference (a b : list Z) : list Z := filter (λ x, x ∉ b) a.

Definition follower_throttles (moves : MoveMap) : list (string * string) :=
  throttles (λ movement, difference (destinations movement) (sources movement)) moves.

(** [MoveMap::brokers]. *)
Definition move_brokers (moves : MoveMap) : list Z :=
  set_collect (moves ≫= λ '(_, partitions), partitions ≫= λ '(_, movement),
    sources movement ++ destinations movement).

(** ** Throttles *)

(** Configs by name, as a [BTreeMap<&str, String>]. *)
Definition configs : Type := list (string * string).

Record Throttles := {
  throttle_topics : list (string * configs);
  throttle_brokers : list (Z * configs);
  throttle : Z;
  log_dir_throttle : Z
}.

(** [map.entry(key).or_default().insert(name, value)]. *)
Definition put_config {K} `{Ord K} (key : K) (name value : string) (m : list (K * configs))
    : list (K * configs) :=
  bt_insert2 key name value m.

Definition topic_throttles (moves : MoveMap) : list (string * configs) :=
  let leaders := fold_left (λ m '(topic, value), put_config topic LEADER_REPLICAS value m)
    (leader_throttles moves) [] in
  fold_left (λ m '(topic, value), put_config topic FOLLOWER_REPLICAS value m)
    (follower_throttles moves) leaders.

Definition rate_throttles (moves : MoveMap) (throttle : Z) : list (Z * configs) :=
  fold_left (λ m broker,
    put_config broker FOLLOWER_RATE (pretty throttle)
      (put_config broker LEADER_RATE (pretty throttle) m)) (move_brokers moves) [].

Definition log_dir_throttles (log_dir_moves : list (Replica * string)) (log_dir_throttle : Z)
    (m : list (Z * configs)) : list (Z * configs) :=
  fold_left (λ m replica,
    put_config (replica_broker replica) LOG_DIR_RATE (pretty log_dir_throttle) m)
    (bt_keys log_dir_moves) m.

(** [Throttles::new]. *)
Definition throttles_new (moves : MoveMap) (log_dir_moves : list (Replica * string))
    (throttle log_dir_throttle : Z) : Throttles :=
  let on := 0 <=? throttle in
  let topics := if on then topic_throttles moves else [] in
  let brokers := if on then rate_throttles moves throttle else [] in
  {| throttle_topics := topics;
     throttle_brokers :=
       if 0 <=? log_dir_throttle then log_dir_throttles log_dir_moves log_dir_throttle brokers
       else brokers;
     throttle := throttle; log_dir_throttle := log_dir_throttle |}.

Definition warning_line (t : Throttles) : option string :=
  if (0 <=? throttle t) || (0 <=? log_dir_throttle t) then
    Some "Warning: You must run --verify periodically, until the reassignment completes, to ensure the throttle is removed."
  else None.

Definition inter_broker_line (t : Throttles) : option string :=
  if 0 <=? throttle t then
    Some ("The inter-broker throttle limit was set to " +:+ pretty (throttle t) +:+ " B/s")
  else None.

Definition log_dir_line (t : Throttles) : option string :=
  if 0 <=? log_dir_throttle t then
    Some ("The replica-alter-dir throttle limit was set to " +:+
          pretty (log_dir_throttle t) +:+ " B/s")
  else None.

(** [Throttles::lines]. *)
Definition throttle_lines (t : Throttles) : list string :=
  omap (λ line, line) [warning_line t; inter_broker_line t; log_dir_line t].

Definition broker_configs (t : Throttles) (keys : list string) : list (Z * configs) :=
  bt_collect (filter (λ '(_, configs), configs ≠ [])
    (map (λ '(broker, configs),
       (broker, bt_collect (filter (λ '(name, _), name ∈ keys) configs)))
       (throttle_brokers t))).

Definition configs_json (c : configs) : Value :=
  object_of (map (λ '(name, value), (name, Str value)) c).

(** [Throttles::json]. *)
Definition throttles_json (t : Throttles) : Value :=
  object_of
    [("topics", object_of (map (λ '(topic, c), (topic, configs_json c)) (throttle_topics t)));
     ("brokers", object_of
       (map (λ '(broker, c), (pretty broker, configs_json c)) (throttle_brokers t)))].

(** ** Lines *)

Definition rollback_lines (current_json : string) : list string :=
  ["Current partition replica assignment"; ""; current_json; "";
   "Save this to use as the --reassignment-json-file option during rollback"].

(** The plural that the lines end a noun with. *)
Definition plural (n : nat) : string := if bool_decide (n = 1%nat) then "" else "s".

Definition started_line (partitions : list TopicPartition) : string :=
  "Successfully started partition reassignment" +:+ plural (length partitions) +:+ " for " +:+
  join_partitions partitions ",".

Definition move_lines (moves : list (Replica * string)) : list string :=
  map (λ '(replica, log_dir),
    "Successfully started moving log directory to " +:+ log_dir +:+ " for replica " +:+
    replica_topic replica +:+ "-" +:+ pretty (replica_partition replica) +:+ " with broker " +:+
    pretty (replica_broker replica) +:+ " ") moves.

Definition cancelled_line (partitions : list TopicPartition) : string :=
  "Successfully cancelled partition reassignment" +:+ plural (length partitions) +:+ " for: " +:+
  join_partitions partitions ",".

Definition partition_errors (errors : list (TopicPartition * KafkaError)) : list string :=
  map (λ '(p, error), tp_display p +:+ ": " +:+ java_message error) errors.

(** ** Log dir moves *)

Inductive MoveState :=
  | MissingLogDir
  | Active (current target future : string)
  | CancelledMove (current target : string)
  | Completed.

(** [MoveState::new]. *)
Definition move_state_new (info : ReplicaLogDirInfo) (target : string) : MoveState :=
  match info_current info, info_future info with
  | None, _ => MissingLogDir
  | Some current, None =>
      if bool_decide (current = target) then Completed else CancelledMove current target
  | Some current, Some future => Active current target future
  end.

(** [MoveState::done]. *)
Definition move_done (state : MoveState) : bool :=
  match state with CancelledMove _ _ | Completed => true | _ => false end.

Definition move_state_line (entry : Replica * MoveState) : string :=
  let '(replica, state) := entry in
  let partition := replica_topic replica +:+ "-" +:+ pretty (replica_partition replica) in
  let broker := pretty (replica_broker replica) in
  match state with
  | MissingLogDir =>
      "Partition " +:+ partition +:+ " is not found in any live log dir on broker " +:+ broker +:+
      ". There is likely an offline log directory on the broker."
  | Active _ target future =>
      if bool_decide (target = future) then
        "Reassignment of replica " +:+ replica_display replica +:+ " is still in progress."
      else
        "Partition " +:+ partition +:+ " on broker " +:+ broker +:+
        " is being moved to log dir " +:+ future +:+ " instead of " +:+ target +:+ "."
  | CancelledMove current target =>
      "Partition " +:+ partition +:+ " on broker " +:+ broker +:+
      " is not being moved from log dir " +:+ current +:+ " to " +:+ target +:+ "."
  | Completed =>
      "Reassignment of replica " +:+ replica_display replica +:+ " completed successfully."
  end.

Definition move_state_lines (states : list (Replica * MoveState)) : list string :=
  map move_state_line states.

Definition clearing_line (level noun : string) (names : list string) : string :=
  "Clearing " +:+ level +:+ "-level throttles on " +:+ noun +:+ plural (length names) +:+ " " +:+
  join "," names.

(** ** Brokers *)

Definition usable_broker (rack_aware : bool) (node : ClusterNode) : UsableBroker :=
  {| id := node_id node; rack := if rack_aware then node_rack node else None; fenced := false |}.

Definition rackless (usable : list UsableBroker) : nat :=
  length (filter (λ b, rack b = None) usable).

Definition usable_brokers (nodes : list ClusterNode) (brokers : list Z) (rack_aware : bool)
    : result string (list UsableBroker) :=
  let usable := map (usable_broker rack_aware) (filter (λ node, node_id node ∈ brokers) nodes) in
  if rack_aware && negb (bool_decide (rackless usable = 0%nat))
     && negb (bool_decide (rackless usable = length usable)) then
    Err "Not all brokers have rack information. Add --disable-rack-aware in command line to make replica assignment without rack information."
  else Ok usable.

(** ** Kafka's own cases *)

Definition sample_active : list (TopicPartition * PartitionAssignment) :=
  [(tp_new "foo" 1, {| pa_topic := "foo"; pa_partition := 1; pa_replicas := [1; 2; 3];
     pa_adding_replicas := [3]; pa_removing_replicas := [1] |})].

Definition sample_proposed : list (TopicPartition * list Z) :=
  [(tp_new "bar" 10, [5]); (tp_new "foo" 0, [2; 3]); (tp_new "foo" 1, [3; 4])].

Definition sample_current : list (TopicPartition * list Z) :=
  [(tp_new "bar" 10, [4]); (tp_new "foo" 0, [1; 2]); (tp_new "foo" 1, [1; 2])].

Example sample_throttles :
  (λ m, (leader_throttles m, follower_throttles m, move_brokers m)) <$>
    move_map_proposed sample_active sample_proposed sample_current =
  Ok ([("bar", "10:4"); ("foo", "0:1,0:2,1:1,1:2")],
      [("bar", "10:5"); ("foo", "0:3,1:3,1:4")], [1; 2; 3; 4; 5]).
Proof. vm_compute. reflexivity. Qed.

Example sample_states :
  status_lines (partition_states
    [(tp_new "foo" 0, [1; 2]); (tp_new "foo" 1, [2; 3]); (tp_new "bar" 0, [1]); (tp_new "gone" 0, [1])]
    sample_active [(tp_new "bar" 0, [2]); (tp_new "foo" 0, [1; 2])]) =
  ["Status of partition reassignment:";
   "There is no active reassignment of partition bar-0, but replica set is 2 rather than 1.";
   "Reassignment of partition foo-0 is completed.";
   "Reassignment of partition foo-1 is still in progress.";
   "There is no active reassignment of partition gone-0, but replica set is  rather than 1."].
Proof. vm_compute. reflexivity. Qed.

Example refused_proposal :
  move_map_proposed [] [(tp_new "foo" 0, [1])] [] =
  Err "Trying to reassign a topic partition foo-0 with 0 replicas".
Proof. vm_compute. reflexivity. Qed.

(** ** The move map *)

(** The movement of a partition. *)
Definition move_of (moves : MoveMap) (p : TopicPartition) : option PartitionMove :=
  bt_get2 (topic p) (partition p) moves.

Definition moves_wf (moves : MoveMap) : Prop := bt_wf2 moves.

Lemma insert_move_wf p movement moves : moves_wf moves → moves_wf (insert_move p movement moves).
Proof. apply bt_insert2_wf. Qed.

Lemma move_of_insert p movement moves q :
  moves_wf moves →
  move_of (insert_move p movement moves) q =
    if decide (p = q) then Some movement else move_of moves q.
Proof.
  intros Hm. unfold move_of, insert_move. rewrite bt_get2_insert2 by done.
  destruct p, q; simpl. repeat case_decide; naive_solver.
Qed.

Lemma active_moves_get active p :
  bt_wf active →
  moves_wf (active_moves active) ∧
  move_of (active_moves active) p = active_move <$> bt_get p active.
Proof.
  intros Hwf. unfold active_moves.
  assert (∀ moves, moves_wf moves →
    let moves' := fold_left (λ moves '(p, assignment),
      insert_move p (active_move assignment) moves) active moves in
    moves_wf moves' ∧
    move_of moves' p = match bt_get p active with
                       | Some a => Some (active_move a)
                       | None => move_of moves p
                       end) as H.
  { induction active as [|[q a] active IH]; intros moves Hm; [done|].
    destruct (IH ltac:(by inversion Hwf) (insert_move q (active_move a) moves)) as [Hw Hg];
      [by apply insert_move_wf|]. cbn [fold_left] in *. split; [done|]. rewrite Hg.
    rewrite bt_get_cons by done. rewrite move_of_insert by done. case_decide; [subst|done].
    by rewrite (bt_get_tail_None _ _ _ Hwf). }
  destruct (H [] bt_wf2_nil) as [Hw Hg]. split; [done|]. rewrite Hg.
  by destruct (bt_get p active).
Qed.

(** The movement that a proposal for [p] records. *)
Definition proposal_move (moves : MoveMap) (current : list (TopicPartition * list Z))
    (p : TopicPartition) (replicas : list Z) : option PartitionMove :=
  (λ s, {| sources := s; destinations := set_without replicas s |}) <$>
    result_ok (proposed_sources moves current p).

Lemma proposed_sources_insert q movement moves current p :
  moves_wf moves → q ≠ p →
  proposed_sources (insert_move q movement moves) current p = proposed_sources moves current p.
Proof.
  intros Hm Hne. unfold proposed_sources.
  change (bt_get2 (topic p) (partition p) ?m) with (move_of m p).
  rewrite move_of_insert by done. by case_decide.
Qed.

Lemma proposed_moves_Ok current proposed moves moves' :
  bt_wf proposed → moves_wf moves → proposed_moves current proposed moves = Ok moves' →
  moves_wf moves' ∧
  (∀ p, p ∈ bt_keys proposed → is_ok (proposed_sources moves current p) = true) ∧
  ∀ p, move_of moves' p = match bt_get p proposed with
                          | Some replicas => proposal_move moves current p replicas
                          | None => move_of moves p
                          end.
Proof.
  revert moves. induction proposed as [|[q rs] proposed IH]; intros moves Hp Hm H; simpl in H.
  - simplify_eq. split; [done|]. split; [set_solver|done].
  - bind_case H; [|done]. destruct (IH _ ltac:(by inversion Hp) (insert_move_wf _ _ _ Hm) H)
      as (Hw & Hok & Hg). split; [done|]. split.
    + intros p [->|Hin]%elem_of_cons; [simpl; by rewrite E|].
      assert (q ≠ p). { intros ->. apply elem_of_bt_keys in Hin as [v Hv]; [|by inversion Hp].
        by rewrite (bt_get_tail_None _ _ _ Hp) in Hv. }
      rewrite <-(proposed_sources_insert q {| sources := a; destinations := set_without rs a |})
        by done. by apply Hok.
    + intros p. rewrite Hg, bt_get_cons by done. case_decide; subst.
      * rewrite (bt_get_tail_None _ _ _ Hp). rewrite move_of_insert by done.
        rewrite decide_True by done. unfold proposal_move. by rewrite E.
      * destruct (bt_get p proposed) as [rs'|].
        -- unfold proposal_move. by rewrite proposed_sources_insert.
        -- rewrite move_of_insert by done. by rewrite decide_False.
Qed.

Lemma proposed_moves_Err current proposed moves e :
  bt_wf proposed → moves_wf moves → proposed_moves current proposed moves = Err e →
  ∃ p, p ∈ bt_keys proposed ∧ proposed_sources moves current p = Err e.
Proof.
  revert moves. induction proposed as [|[q rs] proposed IH]; intros moves Hp Hm H; simpl in H;
    [done|].
  bind_case H; [|simplify_eq; exists q; split; [left|done]].
  destruct (IH _ ltac:(by inversion Hp) (insert_move_wf _ _ _ Hm) H) as (p & Hin & Hs).
  exists p. split; [by right|]. rewrite proposed_sources_insert in Hs; [done|done|].
  intros ->. apply elem_of_bt_keys in Hin as [v Hv]; [|by inversion Hp].
  by rewrite (bt_get_tail_None _ _ _ Hp) in Hv.
Qed.

Lemma elem_of_set_without l excluded b : b ∈ set_without l excluded ↔ b ∈ l ∧ b ∉ excluded.
Proof. unfold set_without. rewrite elem_of_set_collect, list_elem_of_filter. naive_solver. Qed.

Lemma elem_of_active_sources a b :
  b ∈ sources (active_move a) ↔ b ∈ pa_replicas a ∧ b ∉ pa_adding_replicas a.
Proof. simpl. by rewrite elem_of_set_without, elem_of_set_collect. Qed.

(** ** Throttles *)

Definition broker_config (t : Throttles) (broker : Z) (name : string) : option string :=
  bt_get2 broker name (throttle_brokers t).

Definition topic_config (t : Throttles) (topic name : string) : option string :=
  bt_get2 topic name (throttle_topics t).

Lemma rate_throttles_put moves t :
  rate_throttles moves t = put_all (move_brokers moves ≫= λ b,
    [(b, LEADER_RATE, pretty t); (b, FOLLOWER_RATE, pretty t)]) [].
Proof.
  unfold rate_throttles, configs. generalize (@nil (Z * list (string * string))).
  induction (move_brokers moves) as [|b l IH]; intros m; simpl; [done|]. by rewrite IH.
Qed.

Lemma log_dir_throttles_put moves t m :
  log_dir_throttles moves t m =
    put_all (map (λ r, (replica_broker r, LOG_DIR_RATE, pretty t)) (bt_keys moves)) m.
Proof.
  unfold log_dir_throttles. revert m.
  induction (bt_keys moves) as [|r l IH]; intros m; simpl; [done|]. by rewrite IH.
Qed.

Lemma topic_throttles_put moves :
  topic_throttles moves =
    put_all (map (λ '(t, v), (t, FOLLOWER_REPLICAS, v)) (follower_throttles moves))
      (put_all (map (λ '(t, v), (t, LEADER_REPLICAS, v)) (leader_throttles moves)) []).
Proof.
  assert (∀ name (l : list (string * string)) m,
    fold_left (λ m '(t, v), put_config t name v m) l m =
    put_all (map (λ '(t, v), (t, name, v)) l) m) as Hput.
  { intros name l. induction l as [|[t v] l IH]; intros m; simpl; [done|]. by rewrite IH. }
  unfold topic_throttles. by rewrite !Hput.
Qed.

Lemma put_all_map (name : string) (l : list (string * string)) acc t :
  bt_wf l → bt_wf2 acc →
  bt_get2 t name (put_all (map (λ '(t, v), (t, name, v)) l) acc) =
    match bt_get t l with Some v => Some v | None => bt_get2 t name acc end.
Proof.
  intros Hl Hacc. destruct (bt_get t l) as [v|] eqn:E.
  - apply put_all_present; [done|..].
    + apply list_elem_of_fmap. exists (t, v). split; [done|]. by apply bt_get_elem.
    + intros v' ([t' v''] & [= -> ->] & Hin)%list_elem_of_fmap.
      apply bt_get_elem in Hin; [|done]. congruence.
  - apply put_all_absent; [done|]. intros v ([t' v''] & [= -> ->] & Hin)%list_elem_of_fmap.
    apply bt_get_elem in Hin; [|done]. congruence.
Qed.

Lemma put_all_other {K} `{Ord K} `{!EqDecision K} (l : list (K * string * string)) m k name :
  bt_wf2 m → name ∉ map (λ '(_, n, _), n) l → bt_get2 k name (put_all l m) = bt_get2 k name m.
Proof.
  intros Hm Hn. apply put_all_absent; [done|]. intros v Hv. apply Hn.
  apply list_elem_of_fmap. by exists (k, name, v).
Qed.

Lemma rate_throttles_get moves t b name :
  bt_get2 b name (rate_throttles moves t) =
    if decide (b ∈ move_brokers moves ∧ (name = LEADER_RATE ∨ name = FOLLOWER_RATE))
    then Some (pretty t) else None.
Proof.
  rewrite rate_throttles_put.
  assert (∀ v, (b, name, v) ∈ (move_brokers moves ≫= λ b,
    [(b, LEADER_RATE, pretty t); (b, FOLLOWER_RATE, pretty t)]) ↔
    v = pretty t ∧ b ∈ move_brokers moves ∧ (name = LEADER_RATE ∨ name = FOLLOWER_RATE)) as Hin.
  { intros v. rewrite list_elem_of_bind. set_solver. }
  case_decide as Hd.
  - apply put_all_present; [apply bt_wf2_nil|by apply Hin|]. by intros v' [-> _]%Hin.
  - rewrite put_all_absent; [done|apply bt_wf2_nil|]. by intros v [_ Hv]%Hin.
Qed.

Lemma log_dir_throttles_get moves t m b :
  bt_wf2 m →
  bt_get2 b LOG_DIR_RATE (log_dir_throttles moves t m) =
    if decide (b ∈ map replica_broker (bt_keys moves)) then Some (pretty t)
    else bt_get2 b LOG_DIR_RATE m.
Proof.
  intros Hm. rewrite log_dir_throttles_put. case_decide as Hb.
  - apply list_elem_of_fmap in Hb as (r & -> & Hr). apply put_all_present; [done|..].
    + apply list_elem_of_fmap. by exists r.
    + by intros v (r' & [= _ ->] & _)%list_elem_of_fmap.
  - apply put_all_absent; [done|]. intros v (r & [= -> ->] & Hr)%list_elem_of_fmap.
    apply Hb. apply list_elem_of_fmap. by exists r.
Qed.

Lemma log_dir_throttles_other moves t m b name :
  bt_wf2 m → name ≠ LOG_DIR_RATE →
  bt_get2 b name (log_dir_throttles moves t m) = bt_get2 b name m.
Proof.
  intros Hm Hn. rewrite log_dir_throttles_put. apply put_all_other; [done|].
  by intros ([[b' n'] v'] & E & (r & [= _ -> _] & _)%list_elem_of_fmap)%list_elem_of_fmap.
Qed.

Lemma rate_throttles_wf moves t : bt_wf2 (rate_throttles moves t).
Proof. rewrite rate_throttles_put. apply put_all_wf, bt_wf2_nil. Qed.

Lemma topic_throttles_get moves t :
  bt_get2 t LEADER_REPLICAS (topic_throttles moves) = bt_get t (leader_throttles moves) ∧
  bt_get2 t FOLLOWER_REPLICAS (topic_throttles moves) = bt_get t (follower_throttles moves).
Proof.
  rewrite topic_throttles_put. split.
  - rewrite put_all_other; [rewrite put_all_map| |].
    + by destruct (bt_get t (leader_throttles moves)).
    + apply bt_collect_wf.
    + apply bt_wf2_nil.
    + apply put_all_wf, bt_wf2_nil.
    + intros ([[b' n'] v'] & E & ([] & [= _ -> _] & _)%list_elem_of_fmap)%list_elem_of_fmap.
      discriminate E.
  - rewrite put_all_map; [|apply bt_collect_wf|apply put_all_wf, bt_wf2_nil].
    destruct (bt_get t (follower_throttles moves)); [done|].
    rewrite put_all_other; [done|apply bt_wf2_nil|].
    intros ([[b' n'] v'] & E & ([] & [= _ -> _] & _)%list_elem_of_fmap)%list_elem_of_fmap.
      discriminate E.
Qed.

Lemma bt_get_throttles brokers moves t :
  bt_wf moves →
  bt_get t (throttles brokers moves) =
    (λ partitions, join "," (set_collect (partitions ≫= λ '(partition, movement),
       map (λ broker, pretty partition +:+ ":" +:+ pretty broker) (brokers movement)))) <$>
    bt_get t moves.
Proof.
  intros Hm. unfold throttles. rewrite bt_get_map_collect by done.
  by destruct (bt_get t moves).
Qed.

(** ** Properties *)

(** [MoveMap::proposed] gives each proposed partition the sources Kafka
    throttles: those of a movement in progress (its replicas that are not being
    added), or else the partition's current replicas; and as destinations the
    proposed replicas that are not sources. Partitions that only move already
    keep their movement. It fails only for a proposal that neither moves nor
    exists. *)
Theorem move_map_proposed_spec (active : list (TopicPartition * PartitionAssignment))
    (proposed current : list (TopicPartition * list Z)) :
  bt_wf active → bt_wf proposed →
  match move_map_proposed active proposed current with
  | Err message =>
      ∃ p, p ∈ bt_keys proposed ∧ bt_get p active = None ∧ bt_get p current = None ∧
        message = "Trying to reassign a topic partition " +:+ tp_display p +:+ " with 0 replicas"
  | Ok moves =>
      (∀ p replicas, bt_get p proposed = Some replicas →
        ∃ m, move_of moves p = Some m ∧
          (∀ b, b ∈ sources m ↔
            match bt_get p active with
            | Some a => b ∈ pa_replicas a ∧ b ∉ pa_adding_replicas a
            | None => b ∈ default [] (bt_get p current)
            end) ∧
          (∀ b, b ∈ destinations m ↔ b ∈ replicas ∧ b ∉ sources m)) ∧
      (∀ p, bt_get p proposed = None → move_of moves p = active_move <$> bt_get p active)
  end.
Proof.
  intros Ha Hp. unfold move_map_proposed.
  assert (∀ p, move_of (active_moves active) p = active_move <$> bt_get p active) as Hact
    by (intros p; by apply active_moves_get).
  assert (moves_wf (active_moves active)) as Hw by (by apply (active_moves_get active (tp_new "" 0))).
  destruct (proposed_moves current proposed (active_moves active)) as [moves|e] eqn:E.
  - destruct (proposed_moves_Ok _ _ _ _ Hp Hw E) as (_ & Hok & Hg). split.
    + intros p replicas Hrs. rewrite Hg, Hrs. unfold proposal_move.
      assert (p ∈ bt_keys proposed) as Hin by (apply elem_of_bt_keys; by eauto).
      specialize (Hok p Hin). unfold proposed_sources in *. fold (move_of (active_moves active) p) in *.
      rewrite Hact in *. destruct (bt_get p active) as [a|]; simpl in *.
      * eexists. split; [done|]. split; [apply elem_of_active_sources|].
        intros b. apply elem_of_set_without.
      * destruct (bt_get p current) as [c|]; [|done]. simpl. eexists. split; [done|]. simpl.
        split; [apply elem_of_set_collect|]. intros b. apply elem_of_set_without.
    + intros p Hno. by rewrite Hg, Hno.
  - destruct (proposed_moves_Err _ _ _ _ Hp Hw E) as (p & Hin & Hs). exists p. split; [done|].
    unfold proposed_sources in Hs. fold (move_of (active_moves active) p) in Hs.
    rewrite Hact in Hs. destruct (bt_get p active); [done|]. destruct (bt_get p current); [done|].
    by simplify_eq/=.
Qed.

Lemma move_map_proposed_spec_witness :
  bt_wf sample_active ∧ bt_wf sample_proposed ∧
  ∃ moves m, move_map_proposed sample_active sample_proposed sample_current = Ok moves ∧
    move_of moves (tp_new "foo" 1) = Some m ∧ (∀ b, b ∈ sources m ↔ b ∈ [1; 2; 3] ∧ b ∉ [3]).
Proof.
  assert (bt_wf sample_active) as Ha by (repeat constructor).
  assert (bt_wf sample_proposed) as Hp by (repeat constructor).
  split; [exact Ha|]. split; [exact Hp|].
  pose proof (move_map_proposed_spec sample_active sample_proposed sample_current Ha Hp) as H.
  destruct (move_map_proposed sample_active sample_proposed sample_current) as [moves|e] eqn:E;
    [|discriminate E].
  destruct H as [H _]. destruct (H (tp_new "foo" 1) [3; 4] eq_refl) as (m & Hm & Hs & _).
  exists moves, m. split; [reflexivity|]. split; [exact Hm|]. exact Hs.
Defined.

(** [Throttles::new] writes the rates of exactly the moving brokers, the log
    dir rate of exactly the brokers with a log dir move, and each topic's
    throttled replicas, each group only where its throttle is not negative. *)
Theorem throttles_new_spec (moves : MoveMap) (log_dir_moves : list (Replica * string))
    (rate log_dir_rate : Z) :
  let t := throttles_new moves log_dir_moves rate log_dir_rate in
  (∀ b name, name = LEADER_RATE ∨ name = FOLLOWER_RATE →
    broker_config t b name =
      if decide (0 ≤ rate ∧ b ∈ move_brokers moves) then Some (pretty rate) else None) ∧
  (∀ b, broker_config t b LOG_DIR_RATE =
      if decide (0 ≤ log_dir_rate ∧ b ∈ map replica_broker (bt_keys log_dir_moves))
      then Some (pretty log_dir_rate) else None) ∧
  (∀ topic, topic_config t topic LEADER_REPLICAS =
      if decide (0 ≤ rate) then bt_get topic (leader_throttles moves) else None) ∧
  (∀ topic, topic_config t topic FOLLOWER_REPLICAS =
      if decide (0 ≤ rate) then bt_get topic (follower_throttles moves) else None).
Proof.
  intros t. subst t. unfold broker_config, topic_config, throttles_new.
  cbn [throttle_brokers throttle_topics].
  set (brokers := if 0 <=? rate then rate_throttles moves rate else []).
  assert (bt_wf2 brokers) as Hb.
  { subst brokers. destruct (0 <=? rate); [apply rate_throttles_wf|apply bt_wf2_nil]. }
  split; [|split; [|split]].
  - intros b name Hn.
    transitivity (bt_get2 b name brokers).
    { destruct (0 <=? log_dir_rate); [|done]. apply log_dir_throttles_other; [done|].
      by destruct Hn as [-> | ->]. }
    subst brokers. destruct (Z.leb_spec 0 rate).
    + rewrite rate_throttles_get. repeat case_decide; naive_solver.
    + rewrite decide_False by lia. done.
  - intros b. assert (bt_get2 b LOG_DIR_RATE brokers = None) as Hnone.
    { subst brokers. destruct (0 <=? rate); [|done]. rewrite rate_throttles_get.
      rewrite decide_False; [done|]. by intros [_ [|]]. }
    destruct (Z.leb_spec 0 log_dir_rate).
    + rewrite log_dir_throttles_get by done. repeat case_decide; naive_solver.
    + rewrite decide_False by lia. done.
  - intros topic. destruct (Z.leb_spec 0 rate); [|rewrite decide_False by lia; done].
    rewrite decide_True by done. apply topic_throttles_get.
  - intros topic. destruct (Z.leb_spec 0 rate); [|rewrite decide_False by lia; done].
    rewrite decide_True by done. apply topic_throttles_get.
Qed.

(** [usable_brokers] keeps the requested nodes of the cluster in order, with
    their racks exactly when rack-aware; it refuses exactly a rack-aware choice
    where some but not all of them have a rack. *)
Theorem usable_brokers_spec (nodes : list ClusterNode) (brokers : list Z) (rack_aware : bool) :
  let chosen := filter (λ node, node_id node ∈ brokers) nodes in
  match usable_brokers nodes brokers rack_aware with
  | Ok usable => usable = map (usable_broker rack_aware) chosen ∧
      (rack_aware = true → Forall (λ n, node_rack n = None) chosen ∨
                           Forall (λ n, is_Some (node_rack n)) chosen)
  | Err _ => rack_aware = true ∧ (∃ n, n ∈ chosen ∧ node_rack n = None) ∧
      (∃ n, n ∈ chosen ∧ is_Some (node_rack n))
  end.
Proof.
  intros chosen. unfold usable_brokers. fold chosen. destruct rack_aware; simpl; [|done].
  assert (rackless (map (usable_broker true) chosen) =
    length (filter (λ n, node_rack n = None) chosen)) as ->.
  { unfold rackless. clearbody chosen. induction chosen as [|n l IH]; [done|].
    rewrite map_cons, !filter_cons. simpl. case_decide; simpl; by rewrite IH. }
  rewrite length_map. set (none := filter (λ n, node_rack n = None) chosen).
  destruct (decide (length none = 0%nat)) as [E|E];
    [rewrite (bool_decide_true _ E)|rewrite (bool_decide_false _ E)]; cbn [negb andb].
  { split; [done|]. intros _. right. apply Forall_forall. intros n Hn.
    destruct (node_rack n) eqn:Er; [done|]. apply nil_length_inv in E.
    assert (n ∈ none) as H by (by apply list_elem_of_filter). rewrite E in H. set_solver. }
  destruct (decide (length none = length chosen)) as [E'|E'];
    [rewrite (bool_decide_true _ E')|rewrite (bool_decide_false _ E')]; cbn [negb andb].
  { split; [done|]. intros _. left. apply Forall_forall. intros n Hn.
    by apply (filter_full _ _ E'). }
  split; [done|]. split.
  - destruct none as [|n l] eqn:Ef; [done|]. exists n. apply and_comm.
    apply (list_elem_of_filter (λ n, node_rack n = None)). fold none. rewrite Ef. left.
  - destruct (filter_not_full _ _ E') as (n & Hn & Hr). exists n. split; [done|].
    destruct (node_rack n); [done|]. by destruct Hr.
Qed.
