(* ===== verification/Reassign.v ===== *)
(** [reassign_partitions.rs]: the [krabka reassign-partitions] command, from its
    validated command line to the requests it sends and the report it prints. *)

From S2P Require Import Connection.
From S2P Require Import Prelude Collections Rust Jvm JavaRandom Placer Json TopicPartition.
From S2P Require Import KafkaErrors Output Program Admin Cluster ReassignFiles ReassignPlan.

Definition BROKER_LEVEL_THROTTLES : list string := [LEADER_RATE; FOLLOWER_RATE; LOG_DIR_RATE].
Definition TOPIC_LEVEL_THROTTLES : list string := [LEADER_REPLICAS; FOLLOWER_REPLICAS].
Definition REPLICA_NOT_AVAILABLE : Z := 9.

Definition CANNOT_EXECUTE_BECAUSE_OF_EXISTING : string :=
  "Cannot execute because there is an existing partition assignment.  Use --additional to override this and create a new partition assignment in addition to the existing one. The --additional flag can also be used to change the throttle by resubmitting the current reassignment.".

Definition ALLOW_REPLICATION_FACTOR_CHANGE_UNSUPPORTED : string :=
  "The broker does not support the AllowReplicationFactorChange option for the AlterPartitionReassignments API. Consider re-sending the request without the option or updating the server version".

(** ** The command line *)

(** Each flag is an [Option<bool>] that is set when the flag is present. *)
Record ReassignPartitionsArgs := {
  args_connection : ConnectionArgs;
  args_generate : option bool;
  args_execute : option bool;
  args_verify : option bool;
  args_cancel : option bool;
  args_list : option bool;
  args_reassignment_json_file : option string;
  args_topics_to_move_json_file : option string;
  args_broker_list : option string;
  args_disable_rack_aware : option bool;
  args_throttle : option Z;
  args_replica_alter_log_dirs_throttle : option Z;
  args_additional : option bool;
  args_preserve_throttles : option bool;
  args_disallow_replication_factor_change : option bool;
  args_topic : option string;
  args_replication_factor : option Z;
  args_confirm : ConfirmArgs
}.

Inductive Action :=
  | Generate (topics_file broker_list : string) (rack_aware : bool)
  | Execute (file : string) (additional : bool) (throttle log_dir_throttle : Z)
      (disallow_replication_factor_change : bool)
  | Verify (file : string) (preserve_throttles : bool)
  | Cancel (file : string) (preserve_throttles : bool)
  | ListActive
  | ReplicationFactor (topic : string) (replication_factor : Z) (execute : bool).

Definition permitted_options (action : string) (bootstrap_server : bool) : list string :=
  let bootstrap := if bootstrap_server then "bootstrap-server" else "bootstrap-controller" in
  if bool_decide (action = "verify") then
    ["bootstrap-server"; "reassignment-json-file"; "preserve-throttles"]
  else if bool_decide (action = "generate") then
    ["bootstrap-server"; "topics-to-move-json-file"; "broker-list"; "disable-rack-aware"]
  else if bool_decide (action = "execute") then
    ["reassignment-json-file"; "additional"; "bootstrap-server"; "throttle";
     "replica-alter-log-dirs-throttle"; "disallow-replication-factor-change"]
  else if bool_decide (action = "cancel") then
    [bootstrap; "reassignment-json-file"; "preserve-throttles"]
  else [bootstrap].

Definition DRY_RUN_ONLY : string :=
  "--dry-run and --yes are only valid with --execute or --cancel".

Definition validate_replication_factor (a : ReassignPartitionsArgs) (action : string)
    : result string Action :=
  match args_topic a, args_replication_factor a with
  | Some topic, Some replication_factor =>
      let others :=
        is_some (args_reassignment_json_file a)
        || is_some (args_topics_to_move_json_file a)
        || is_some (args_broker_list a)
        || is_some (args_disable_rack_aware a)
        || is_some (args_throttle a)
        || is_some (args_replica_alter_log_dirs_throttle a)
        || is_some (args_additional a)
        || is_some (args_preserve_throttles a)
        || is_some (args_disallow_replication_factor_change a)
        || negb (bool_decide (bootstrap_controller (args_connection a) = [])) in
      if negb (bool_decide (action ∈ ["execute"; "verify"])) || others then
        Err "--topic and --replication-factor take only --execute or --verify and the broker connection flags"
      else if bool_decide (action = "verify")
              && (dry_run_flag (args_confirm a) || yes_flag (args_confirm a)) then
        Err DRY_RUN_ONLY
      else Ok (ReplicationFactor topic replication_factor (bool_decide (action = "execute")))
  | _, _ => Err "--topic and --replication-factor must be given together"
  end.

(** The names of the chosen actions. *)
Definition chosen_actions (a : ReassignPartitionsArgs) : list string :=
  map fst (filter (λ '(_, chosen), chosen = true)
    [("generate", is_some (args_generate a)); ("execute", is_some (args_execute a));
     ("verify", is_some (args_verify a)); ("cancel", is_some (args_cancel a));
     ("list", is_some (args_list a))]).

Definition required_options (a : ReassignPartitionsArgs) (action : string)
    : list (string * bool) :=
  if bool_decide (action = "generate") then
    [("topics-to-move-json-file", is_some (args_topics_to_move_json_file a));
     ("broker-list", is_some (args_broker_list a))]
  else if bool_decide (action = "list") then []
  else [("reassignment-json-file", is_some (args_reassignment_json_file a))].

Definition given_options (a : ReassignPartitionsArgs) (server controller : bool)
    : list (string * bool) :=
  [("bootstrap-server", server);
   ("bootstrap-controller", controller);
   ("reassignment-json-file", is_some (args_reassignment_json_file a));
   ("topics-to-move-json-file", is_some (args_topics_to_move_json_file a));
   ("broker-list", is_some (args_broker_list a));
   ("disable-rack-aware", is_some (args_disable_rack_aware a));
   ("throttle", is_some (args_throttle a));
   ("replica-alter-log-dirs-throttle", is_some (args_replica_alter_log_dirs_throttle a));
   ("additional", is_some (args_additional a));
   ("preserve-throttles", is_some (args_preserve_throttles a));
   ("disallow-replication-factor-change",
     is_some (args_disallow_replication_factor_change a))].

(** The action of a command line that passed every check. *)
Definition action_of (a : ReassignPartitionsArgs) (action : string) : Action :=
  let file := default "" (args_reassignment_json_file a) in
  if bool_decide (action = "generate") then
    Generate (default "" (args_topics_to_move_json_file a)) (default "" (args_broker_list a))
      (negb (is_some (args_disable_rack_aware a)))
  else if bool_decide (action = "execute") then
    Execute file (is_some (args_additional a)) (default (-1) (args_throttle a))
      (default (-1) (args_replica_alter_log_dirs_throttle a))
      (is_some (args_disallow_replication_factor_change a))
  else if bool_decide (action = "verify") then
    Verify file (is_some (args_preserve_throttles a))
  else if bool_decide (action = "cancel") then
    Cancel file (is_some (args_preserve_throttles a))
  else ListActive.

(** A name in the brackets and quotes of joptsimple's messages. *)
Definition bracketed (name : string) : string := dquote +:+ "[" +:+ name +:+ "]" +:+ dquote.

Definition validate (a : ReassignPartitionsArgs) : result string Action :=
  match chosen_actions a with
  | [action] =>
      let server := negb (bool_decide (bootstrap_server (args_connection a) = [])) in
      let controller := negb (bool_decide (bootstrap_controller (args_connection a) = [])) in
      if server && controller then
        Err "Please don't specify both --bootstrap-server and --bootstrap-controller"
      else if negb server && negb controller then
        Err "Please specify either --bootstrap-server or --bootstrap-controller"
      else if is_some (args_topic a) || is_some (args_replication_factor a) then
        validate_replication_factor a action
      else
        match list_find (λ o, o.2 = false) (required_options a action) with
        | Some (_, (name, _)) => Err ("Missing required argument " +:+ bracketed name)
        | None =>
            match list_find (λ o, o.2 = true ∧ o.1 ∉ permitted_options action server)
                    (given_options a server controller) with
            | Some (_, (name, _)) =>
                Err ("Option " +:+ bracketed name +:+ " can't be used with action " +:+
                     bracketed action)
            | None =>
                if (dry_run_flag (args_confirm a) || yes_flag (args_confirm a))
                   && negb (bool_decide (action ∈ ["execute"; "cancel"])) then
                  Err DRY_RUN_ONLY
                else Ok (action_of a action)
            end
        end
  | _ =>
      Err "Command must include exactly one action: --generate, --execute, --verify, --cancel, --list"
  end.

(** ** Reading the cluster *)

(** [read]. *)
Definition read_file (path : string) : cmd admin string :=
  prog_bind (λ r, Halt (Done (map_err (λ error, Other (path +:+ ": " +:+ error)) r)))
    (send (ReadFile path)).

Definition assignment_key (a : PartitionAssignment) : TopicPartition :=
  tp_new (pa_topic a) (pa_partition a).

Definition active_reassignments (filter : list (string * list Z))
    : cmd admin (list (TopicPartition * PartitionAssignment)) :=
  assignments ← try_admin (send (ListPartitionReassignments filter));
  pure (bt_collect (map (λ a, (assignment_key a, a)) assignments)).

Definition topic_replicas (topics : list string) : cmd admin (list (TopicPartition * list Z)) :=
  if bool_decide (topics = []) then pure []
  else
    assignments ← try_admin (send (DescribePartitionAssignments topics));
    pure (bt_collect (map (λ a, (assignment_key a, pa_replicas a))
      (filter (λ a, pa_topic a ∈ topics) assignments))).

Definition UNKNOWN_TOPIC_OR_PARTITION_EXCEPTION : string :=
  "org.apache.kafka.common.errors.UnknownTopicOrPartitionException: ".

Definition missing_topic (topics : list string) (found : list (TopicPartition * list Z))
    : result string unit :=
  match list_find (λ t, t ∉ map topic (bt_keys found)) topics with
  | Some (_, t) =>
      Err (UNKNOWN_TOPIC_OR_PARTITION_EXCEPTION +:+ "Topic " +:+ t +:+ " not found.")
  | None => Ok tt
  end.

Definition missing_partitions (partitions : list TopicPartition)
    (found : list (TopicPartition * list Z)) : result string unit :=
  let missing := filter (λ p, bt_contains p found = false) partitions in
  if bool_decide (missing = []) then Ok tt
  else Err (UNKNOWN_TOPIC_OR_PARTITION_EXCEPTION +:+ "Unable to find partition: " +:+
            join_partitions (hash_set_order missing java_hash) ", ").

Definition partition_replicas (partitions : list TopicPartition)
    : cmd admin (list (TopicPartition * list Z)) :=
  let topics := set_collect (map topic partitions) in
  all ← topic_replicas topics;
  _ ← lift (missing_topic topics all);
  _ ← lift (missing_partitions partitions all);
  pure (bt_collect (filter (λ '(p, _), p ∈ partitions) all)).

Definition client_replica (r : Replica) : TopicPartitionReplica :=
  {| tpr_topic := replica_topic r; tpr_partition := replica_partition r;
     tpr_broker_id := replica_broker r |}.

Definition replica_of (r : TopicPartitionReplica) : Replica :=
  {| replica_broker := tpr_broker_id r; replica_topic := tpr_topic r;
     replica_partition := tpr_partition r |}.

Definition future_error (error : KafkaError) : CommandError := Other (java_exception error).

(** The replicas of [current] on a live node. *)
Definition live_replicas (current : list (TopicPartition * list Z)) (nodes : list ClusterNode)
    : list TopicPartitionReplica :=
  current ≫= λ '(p, brokers),
    map (λ broker, {| tpr_topic := topic p; tpr_partition := partition p;
                      tpr_broker_id := broker |})
      (filter (λ broker, broker ∈ map node_id nodes) brokers).

(** The log dirs of the answer, or its first error. *)
Fixpoint described_log_dirs
    (infos : list (TopicPartitionReplica * result KafkaError ReplicaLogDirInfo))
    (log_dirs : list (Replica * string)) : result CommandError (list (Replica * string)) :=
  match infos with
  | [] => Ok log_dirs
  | (replica, info) :: infos =>
      info ← map_err future_error info;
      described_log_dirs infos
        (match info_current info with
         | Some path => bt_insert (replica_of replica) path log_dirs
         | None => log_dirs
         end)
  end.

Definition replica_log_dirs (current : list (TopicPartition * list Z)) (nodes : list ClusterNode)
    : cmd admin (list (Replica * string)) :=
  let replicas := live_replicas current nodes in
  if bool_decide (map tpr_broker_id replicas = []) then pure []
  else
    infos ← await (send (DescribeReplicaLogDirs replicas));
    lift_cmd (described_log_dirs infos []).

(** The states of the answer; a replica that was not asked for panics. *)
Fixpoint described_states (targets : list (Replica * string))
    (infos : list (TopicPartitionReplica * result KafkaError ReplicaLogDirInfo))
    (states : list (Replica * MoveState)) : cmd admin (list (Replica * MoveState)) :=
  match infos with
  | [] => pure states
  | (replica, info) :: infos =>
      info ← lift_cmd (map_err future_error info);
      target ← expect (bt_get (replica_of replica) targets);
      described_states targets infos
        (bt_insert (replica_of replica) (move_state_new info target) states)
  end.

Definition move_states (targets : list (Replica * string))
    : cmd admin (list (Replica * MoveState)) :=
  if bool_decide (bt_keys targets = []) then pure []
  else
    infos ← await (send (DescribeReplicaLogDirs (map client_replica (bt_keys targets))));
    described_states targets infos [].

(** [verifyBrokerIds]. *)
Definition unknown_broker (brokers : list (TopicPartition * list Z)) (nodes : list ClusterNode)
    : result string unit :=
  let ids := hash_set_order (brokers ≫= snd) integer_hash in
  match list_find (λ i, i ∉ map node_id nodes) ids with
  | Some (_, i) => Err ("Unknown broker id " +:+ pretty i)
  | None => Ok tt
  end.

(** ** Writing to the cluster *)

Definition alter_configs (configs : list (ConfigResource * list AlterConfigOp)) : cmd admin unit :=
  match configs with
  | [] => pure tt
  | _ =>
      results ← try_admin (send (IncrementalAlterConfigs configs));
      match list_find (λ r, is_ok r.2 = false) results with
      | Some (_, (_, Err error)) => throw (future_error error)
      | _ => pure tt
      end
  end.

Definition set_ops (c : configs) (order : list string) : list AlterConfigOp :=
  omap (λ name, SetOp name <$> bt_get name c) order.

(** Each group of throttle configs in its own call, each followed by its line.
    Returns the lines. *)
Definition write_throttles (t : Throttles) : cmd admin (list string) :=
  inter ← match inter_broker_line t with
    | None => pure []
    | Some line =>
        _ ← alter_configs (filter (λ '(_, ops), ops ≠ [])
              (map (λ '(topic, c), (TopicResource topic, set_ops c TOPIC_LEVEL_THROTTLES))
                (throttle_topics t)));
        _ ← alter_configs
              (map (λ '(broker, c), (BrokerResource broker, set_ops c [LEADER_RATE; FOLLOWER_RATE]))
                (broker_configs t [LEADER_RATE; FOLLOWER_RATE]));
        pure [line]
    end;
  log_dir ← match log_dir_line t with
    | None => pure []
    | Some line =>
        _ ← alter_configs
              (map (λ '(broker, c), (BrokerResource broker, set_ops c [LOG_DIR_RATE]))
                (broker_configs t [LOG_DIR_RATE]));
        pure [line]
    end;
  pure (inter ++ log_dir).

Definition delete_ops (names : list string) : list AlterConfigOp := map DeleteOp names.

Definition clear_all_throttles (targets : list (TopicPartition * list Z)) (dry_run : bool)
    : cmd admin (list string) :=
  nodes ← try_admin (cluster_nodes false);
  let brokers := hash_set_order (map node_id nodes ++ (targets ≫= snd)) integer_hash in
  let topics := hash_set_order (map (λ '(p, _), topic p) targets) string_hash in
  _ ← (if dry_run then pure tt
       else alter_configs (map (λ b, (BrokerResource b, delete_ops BROKER_LEVEL_THROTTLES)) brokers));
  _ ← (if dry_run then pure tt
       else alter_configs (map (λ t, (TopicResource t, delete_ops TOPIC_LEVEL_THROTTLES)) topics));
  pure [clearing_line "broker" "broker" (map pretty brokers);
        clearing_line "topic" "topic" topics].

(** The error of every partition where the controller is too old for the
    option. *)
Definition unsupported_option : KafkaError :=
  {| error_code := UNSUPPORTED_VERSION; error_name := "UNSUPPORTED_VERSION";
     error_message := Some ALLOW_REPLICATION_FACTOR_CHANGE_UNSUPPORTED |}.

Definition alter_reassignments (request : list ((string * Z) * option (list Z)))
    (allow_replication_factor_change : bool) : cmd admin (list (TopicPartition * KafkaError)) :=
  r ← await (send (AlterPartitionAssignments request allow_replication_factor_change));
  match r with
  | Ok outcomes =>
      pure (bt_collect (omap (λ '(t, p, error), (λ e, (tp_new t p, e)) <$> error) outcomes))
  | Err (Transport (IncompatibleVersion broker_max text)) =>
      if allow_replication_factor_change then
        throw (from_admin_error (Transport (IncompatibleVersion broker_max text)))
      else pure (bt_collect (map (λ '(t, p, _), (tp_new t p, unsupported_option)) request))
  | Err error => throw (from_admin_error error)
  end.

(** The moves that the answer says have started, or the first replica that
    failed for good. *)
Fixpoint started_moves (pending : list (Replica * string))
    (answers : list (TopicPartitionReplica * result KafkaError unit))
    (started : list (Replica * string)) : outcome (result Replica (list (Replica * string))) :=
  match answers with
  | [] => Done (Ok started)
  | (replica, r) :: answers =>
      let replica := replica_of replica in
      match r with
      | Ok _ =>
          path ← or_panic (bt_get replica pending);
          started_moves pending answers (bt_insert replica path started)
      | Err error =>
          if error_code error =? REPLICA_NOT_AVAILABLE then started_moves pending answers started
          else Done (Err replica)
      end
  end.

Definition timed_out_line (pending : list (Replica * string)) : string :=
  "Timed out before log directory move" +:+ plural (length pending) +:+
  " could be started for: " +:+ join "," (map replica_display (bt_keys pending)).

(** Each turn of the loop spends one unit of fuel. Returns the lines and whether
    it failed. *)
Fixpoint execute_moves (fuel : nat) (pending : list (Replica * string)) (lines : list string)
    : prog admin (list string * bool) :=
  match fuel with
  | O => Halt Timeout
  | S fuel =>
      prog_bind (λ answers,
        match started_moves pending answers [] with
        | Done (Err replica) =>
            Halt (Done (lines ++ ["Error: Failed to alter dir for " +:+ replica_display replica],
                        true))
        | Done (Ok started) =>
            let lines := lines ++ move_lines started in
            let pending := foldr bt_remove pending (bt_keys started) in
            if bool_decide (bt_keys pending = []) then Halt (Done (lines, false))
            else
              prog_bind (λ elapsed : bool,
                if elapsed then Halt (Done (lines ++ [timed_out_line pending], true))
                else prog_bind (λ _, execute_moves fuel pending lines) (send Sleep))
              (send Elapsed)
        | Panic => Halt Panic
        | Timeout => Halt Timeout
        end)
      (send (AlterReplicaLogDirs (map (λ '(r, path), (client_replica r, path)) pending)))
  end.

(** ** The actions *)

Section Actions.
Context `{SerdeJson}.

Definition assignment_json (a : PartitionAssignment) : Value :=
  object_of [("topic", Str (pa_topic a)); ("partition", num (pa_partition a));
             ("replicas", nums (pa_replicas a));
             ("adding_replicas", nums (pa_adding_replicas a));
             ("removing_replicas", nums (pa_removing_replicas a))].

(** [list]. *)
Definition list_action : cmd admin CommandResult :=
  active ← active_reassignments [];
  pure (success (list_lines active) (Array (map (λ '(_, a), assignment_json a) active))).

(** [Lcg48::from_time], from the nanoseconds of the clock. *)
Definition lcg_from_time (nanos : Z) : Lcg48 := lcg_new (wrap_i64 nanos).

(** [serde_json::from_str::<Value>(text).unwrap_or(Value::Null)]. *)
Definition parse_or_null (text : string) : Value := default Null (result_ok (from_str text)).

Definition generate (fuel : nat) (topics_json broker_list : string) (rack_aware : bool)
    : cmd admin CommandResult :=
  '(brokers, topics) ← lift (parse_generate topics_json broker_list);
  let topics := set_collect topics in
  current ← topic_replicas topics;
  _ ← lift (missing_topic topics current);
  nodes ← try_admin (cluster_nodes false);
  current_log_dirs ← replica_log_dirs current nodes;
  usable ← lift (usable_brokers nodes brokers rack_aware);
  let by_key := bt_collect (map (λ '(p, replicas), ((topic p, partition p), replicas)) current) in
  nanos ← await (send TimeSeed);
  '(proposal, _) ← run_outcome (propose fuel (lcg_from_time nanos) by_key usable);
  proposal ← lift proposal;
  let proposed := bt_collect (map (λ '((t, p), replicas), (tp_new t p, replicas)) proposal) in
  let current_json := format_reassignment current current_log_dirs in
  let proposed_json := format_reassignment proposed [] in
  pure (success
    ["Current partition replica assignment"; current_json; "";
     "Proposed partition reassignment configuration"; proposed_json]
    (object_of [("current", parse_or_null current_json);
                ("proposed", parse_or_null proposed_json)])).

Record ExecuteOptions := {
  execute_additional : bool;
  execute_throttle : Z;
  execute_log_dir_throttle : Z;
  execute_disallow_replication_factor_change : bool;
  execute_confirm : ConfirmArgs
}.

Definition proposal_json (entry : TopicPartition * list Z) : Value :=
  let '(p, replicas) := entry in
  object_of [("topic", Str (topic p)); ("partition", num (partition p));
             ("replicas", nums replicas)].

(** The request that sets the replicas of each proposed partition. *)
Definition reassign_request (proposed : list (TopicPartition * list Z))
    : list ((string * Z) * option (list Z)) :=
  bt_collect (map (λ '(p, replicas), ((topic p, partition p), Some replicas)) proposed).

Definition execute (fuel : nat) (file : ReassignmentFile) (options : ExecuteOptions)
    : cmd admin CommandResult :=
  _ ← lift (check_execute file);
  let proposed := bt_collect (targets file) in
  let moves := log_dir_moves file in
  active ← active_reassignments [];
  if negb (execute_additional options) && negb (bool_decide (bt_keys active = [])) then
    throw (Other CANNOT_EXECUTE_BECAUSE_OF_EXISTING)
  else
  nodes ← try_admin (cluster_nodes false);
  _ ← lift (unknown_broker proposed nodes);
  let partitions := bt_keys proposed in
  current ← partition_replicas partitions;
  current_log_dirs ← replica_log_dirs current nodes;
  let rollback := format_reassignment current current_log_dirs in
  let human := rollback_lines rollback in
  move_map ← lift (move_map_proposed active proposed current);
  let t := throttles_new move_map moves (execute_throttle options)
             (execute_log_dir_throttle options) in
  let started := started_line partitions in
  let data := object_of [("rollback", parse_or_null rollback);
                         ("partitions", Array (map proposal_json proposed));
                         ("throttles", throttles_json t)] in
  if dry_run_flag (execute_confirm options) then
    pure (into_dry_run
      (success (human ++ throttle_lines t ++ [started] ++ move_lines moves) data))
  else
  _ ← confirm (yes_flag (execute_confirm options)) "krabka reassign-partitions"
        {| summary := "reassign " +:+ pretty (length partitions) +:+ " partition(s)";
           resources := map (λ '(p, replicas), tp_display p +:+ ": replicas " +:+ ids replicas)
                          proposed |};
  let human := human ++ option_list (warning_line t) in
  lines ← write_throttles t;
  let human := human ++ lines in
  errors ← alter_reassignments (reassign_request proposed)
             (negb (execute_disallow_replication_factor_change options));
  if negb (bool_decide (bt_keys errors = [])) then
    pure (rows (human ++ ["Error reassigning partition(s):"] ++ partition_errors errors)
            data true)
  else
    let human := human ++ [started] in
    if bool_decide (bt_keys moves = []) then pure (rows human data false)
    else
      '(lines, moves_failed) ← await (execute_moves fuel moves []);
      pure (rows (human ++ lines) data moves_failed).

Definition verify (file : ReassignmentFile) (preserve_throttles : bool)
    : cmd admin CommandResult :=
  active ← active_reassignments [];
  let targets := targets file in
  let topics := set_collect (map (λ '(p, _), topic p)
    (filter (λ '(p, _), bt_contains p active = false) targets)) in
  described ← topic_replicas topics;
  let states := partition_states targets active described in
  move_states ← move_states (log_dir_moves file);
  let lines := move_state_lines move_states in
  let human := status_lines states ++ (if bool_decide (lines = []) then [""] else lines) in
  let parts_ongoing := negb (bool_decide (bt_keys active = [])) in
  let moves_ongoing := existsb (λ '(_, state), negb (move_done state)) move_states in
  let clear := negb parts_ongoing && negb moves_ongoing && negb preserve_throttles in
  cleared ← (if clear then clear_all_throttles targets false else pure []);
  let incomplete := moves_ongoing
    || existsb (λ '(_, state), negb (state_done state)
                 || negb (bool_decide (state_current state = state_target state))) states in
  pure (rows (human ++ cleared)
    (object_of
      [("partitions", Array (states_json states));
       ("moves", Array (map (λ '(replica, state),
          object_of [("topic", Str (replica_topic replica));
                     ("partition", num (replica_partition replica));
                     ("broker", num (replica_broker replica));
                     ("done", Bool (move_done state))]) move_states));
       ("throttles_cleared", Bool clear)]) incomplete).

Record CancelOptions := { cancel_preserve_throttles : bool; cancel_confirm : ConfirmArgs }.

(** Adds a partition to the filter of [ListPartitionReassignments], once. *)
Definition add_filter (filter : list (string * list Z)) (p : TopicPartition)
    : list (string * list Z) :=
  bt_alter [] (λ indexes, if bool_decide (partition p ∈ indexes) then indexes
                          else indexes ++ [partition p]) (topic p) filter.

Definition reassigning_partitions (active : list (TopicPartition * PartitionAssignment))
    : list TopicPartition :=
  set_collect (map (λ '(_, a), assignment_key a)
    (filter (λ '(_, a), pa_adding_replicas a ≠ [] ∨ pa_removing_replicas a ≠ []) active)).

(** The moves in progress, with the log dir to move back to. *)
Definition moving_replicas (states : list (Replica * MoveState)) : list (Replica * string) :=
  bt_collect (omap (λ '(replica, state),
    match state with Active current _ _ => Some (replica, current) | _ => None end) states).

Definition cancel_data (reassigning : list TopicPartition) (moving : list (Replica * string))
    (cleared : bool) : Value :=
  object_of
    [("cancelled", Array (map (λ p, object_of [("topic", Str (topic p));
                                               ("partition", num (partition p))]) reassigning));
     ("moves", Array (map (λ r, object_of [("topic", Str (replica_topic r));
                                           ("partition", num (replica_partition r));
                                           ("broker", num (replica_broker r))])
                        (bt_keys moving)));
     ("throttles_cleared", Bool cleared)].

(** The end of [cancel]: the log dir moves and the throttles. *)
Definition cancel_moves (fuel : nat) (file : ReassignmentFile) (options : CancelOptions)
    (reassigning : list TopicPartition) (moving : list (Replica * string)) (human : list string)
    : cmd admin CommandResult :=
  let dry_run := dry_run_flag (cancel_confirm options) in
  let preserve := cancel_preserve_throttles options in
  '(lines, failed) ←
    (if bool_decide (bt_keys moving = []) then pure ([], false)
     else if dry_run then pure (move_lines moving, false)
     else await (execute_moves fuel moving []));
  let human := human ++ lines in
  if failed : bool then pure (rows human (cancel_data reassigning moving false) true)
  else
    clearing ← (if preserve then pure [] else clear_all_throttles (targets file) dry_run);
    let tail :=
      if bool_decide (bt_keys moving = []) then
        match clearing with
        | [] => ["None of the specified partition moves are active."]
        | line :: clearing =>
            ("None of the specified partition moves are active." +:+ line) :: clearing
        end
      else clearing in
    let result := success (human ++ tail)
      (cancel_data reassigning moving (negb preserve && negb dry_run)) in
    pure (if dry_run then into_dry_run result else result).

Definition cancel (fuel : nat) (file : ReassignmentFile) (options : CancelOptions)
    : cmd admin CommandResult :=
  let dry_run := dry_run_flag (cancel_confirm options) in
  active ← active_reassignments (fold_left add_filter (map fst (targets file)) []);
  let reassigning := reassigning_partitions active in
  states ← move_states (log_dir_moves file);
  let moving := moving_replicas states in
  let changes := negb (bool_decide (reassigning = [])) || negb (bool_decide (bt_keys moving = []))
                 || negb (cancel_preserve_throttles options) in
  _ ← (if changes && negb dry_run then
         confirm (yes_flag (cancel_confirm options)) "krabka reassign-partitions"
           {| summary := "cancel " +:+ pretty (length reassigning) +:+
                " partition reassignment(s) and " +:+ pretty (length moving) +:+
                " log dir move(s)";
              resources := map tp_display reassigning ++ map replica_display (bt_keys moving) |}
       else pure tt);
  if bool_decide (reassigning = []) then
    cancel_moves fuel file options reassigning moving
      ["None of the specified partition reassignments are active."]
  else if dry_run then
    cancel_moves fuel file options reassigning moving [cancelled_line reassigning]
  else
    errors ← alter_reassignments
      (bt_collect (map (λ p, ((topic p, partition p), None)) reassigning)) true;
    if negb (bool_decide (bt_keys errors = [])) then
      pure (rows (("Error cancelling partition reassignment" +:+ plural (length errors) +:+
                   " for:") :: partition_errors errors)
              (cancel_data reassigning moving false) true)
    else cancel_moves fuel file options reassigning moving [cancelled_line reassigning].

Definition convergence_report (topic status : string) (incomplete : bool) : CommandResult :=
  rows [topic +:+ ": " +:+ status]
    (object_of [("topic", Str topic); ("status", Str status)]) incomplete.

Definition convergence (topic : string) (replication_factor : Z) : cmd admin CommandResult :=
  assignments ← try_admin (send (DescribePartitionAssignments [topic]));
  active ← try_admin (send (ListPartitionReassignments [(topic, map pa_partition assignments)]));
  let status :=
    if negb (bool_decide (map pa_topic active = [])) then "ReassignmentInProgress"
    else if negb (bool_decide (map pa_topic assignments = []))
            && forallb (λ a, bool_decide (try_signed 32 (Z.of_nat (length (pa_replicas a))) =
                                          Some replication_factor)) assignments
    then "InSync" else "ReplicationFactorMismatch" in
  pure (convergence_report topic status (negb (bool_decide (status = "InSync")))).

Definition converge (topic : string) (replication_factor : Z) (args : ConfirmArgs)
    : cmd admin CommandResult :=
  if dry_run_flag args then
    report ← convergence topic replication_factor;
    pure (into_dry_run report)
  else
    _ ← confirm (yes_flag args) "krabka reassign-partitions"
          {| summary := "converge topic " +:+ topic +:+ " to replication factor " +:+
               pretty replication_factor;
             resources := [topic] |};
    status ← try_admin (send (ReconcileReplicationFactor topic replication_factor));
    pure (convergence_report topic status false).

(** The body of [run], once the command line is valid. *)
Definition run_action (fuel : nat) (args : ConfirmArgs) (action : Action)
    : cmd admin CommandResult :=
  match action with
  | ListActive => list_action
  | Generate topics_file broker_list rack_aware =>
      text ← read_file topics_file; generate fuel text broker_list rack_aware
  | Execute file additional throttle log_dir_throttle disallow =>
      text ← read_file file; file ← lift (parse_reassignment text);
      execute fuel file
        {| execute_additional := additional; execute_throttle := throttle;
           execute_log_dir_throttle := log_dir_throttle;
           execute_disallow_replication_factor_change := disallow;
           execute_confirm := args |}
  | Verify file preserve_throttles =>
      text ← read_file file; file ← lift (parse_reassignment text);
      verify file preserve_throttles
  | Cancel file preserve_throttles =>
      text ← read_file file; file ← lift (parse_reassignment text);
      cancel fuel file {| cancel_preserve_throttles := preserve_throttles; cancel_confirm := args |}
  | ReplicationFactor topic replication_factor true => converge topic replication_factor args
  | ReplicationFactor topic replication_factor false => convergence topic replication_factor
  end.

(** [ReassignPartitionsArgs::run]. *)
Definition reassign_run (fuel : nat) (a : ReassignPartitionsArgs) : cmd admin CommandResult :=
  action ← lift (validate a);
  _ ← connect (args_connection a) "reassign-partitions";
  run_action fuel (args_confirm a) action.
End Actions.

(** ** The guards *)

Lemma harmless_read_file path : harmless (read_file path).
Proof. unfold read_file. harmless. Qed.

Lemma harmless_active filter : harmless (active_reassignments filter).
Proof. unfold active_reassignments. harmless. Qed.

Lemma harmless_topic_replicas topics : harmless (topic_replicas topics).
Proof. unfold topic_replicas. harmless. Qed.
#[export] Hint Resolve harmless_read_file harmless_active harmless_topic_replicas : krabka.

Lemma harmless_partition_replicas partitions : harmless (partition_replicas partitions).
Proof. unfold partition_replicas. harmless. Qed.

Lemma harmless_replica_log_dirs current nodes : harmless (replica_log_dirs current nodes).
Proof. unfold replica_log_dirs. harmless. Qed.

Lemma harmless_described_states targets infos states :
  harmless (described_states targets infos states).
Proof.
  revert states. induction infos as [|[replica info] infos IH]; intros states; [done|].
  simpl. apply harmless_bind; [auto with krabka|]. intros i.
  apply harmless_bind; [auto with krabka|]. intros target. apply IH.
Qed.
#[export] Hint Resolve harmless_partition_replicas harmless_replica_log_dirs
  harmless_described_states : krabka.

Lemma harmless_move_states targets : harmless (move_states targets).
Proof. unfold move_states. harmless. Qed.

Lemma harmless_clear_dry_run targets : harmless (clear_all_throttles targets true).
Proof. unfold clear_all_throttles. harmless. Qed.

#[export] Hint Resolve harmless_move_states harmless_clear_dry_run : krabka.

Lemma harmless_convergence topic replication_factor :
  harmless (convergence topic replication_factor).
Proof. unfold convergence. harmless. Qed.
#[export] Hint Resolve harmless_convergence : krabka.

Section Guards.
Context `{SerdeJson}.

Lemma harmless_list : harmless list_action.
Proof. unfold list_action. harmless. Qed.

Lemma harmless_generate fuel topics_json broker_list rack_aware :
  harmless (generate fuel topics_json broker_list rack_aware).
Proof. unfold generate. harmless. Qed.

Lemma execute_dry_run fuel file options :
  dry_run_flag (execute_confirm options) = true →
  monitored read_only tt (execute fuel file options) (on_ok (λ _ r, dry_run r = true)).
Proof.
  intros Hd. unfold execute. rewrite Hd. do 2 ro_step.
  destruct (_ && _); [done|]. by do 5 ro_step.
Qed.

Lemma cancel_dry_run fuel file options :
  dry_run_flag (cancel_confirm options) = true →
  monitored read_only tt (cancel fuel file options) (on_ok (λ _ r, dry_run r = true)).
Proof.
  intros Hd. unfold cancel. rewrite Hd. do 2 ro_step.
  rewrite andb_false_r. ro_step.
  assert (∀ reassigning moving human,
    monitored read_only tt (cancel_moves fuel file options reassigning moving human)
      (on_ok (λ _ r, dry_run r = true))) as Hmoves.
  { intros reassigning moving human. unfold cancel_moves. rewrite Hd.
    destruct (bool_decide (bt_keys moving = [])); simpl;
      destruct (cancel_preserve_throttles options); try done; ro_step; done. }
  destruct (bool_decide _); apply Hmoves.
Qed.

Lemma converge_dry_run topic replication_factor args :
  dry_run_flag args = true →
  monitored read_only tt (converge topic replication_factor args)
    (on_ok (λ _ r, dry_run r = true)).
Proof.
  intros Hd. unfold converge. rewrite Hd. ro_step. done.
Qed.

Lemma execute_confirmed fuel file options s :
  (yes_flag (execute_confirm options) = true → s = true) →
  monitored guarded s (execute fuel file options) (on_ok (λ _ _, True)).
Proof.
  intros Hs. unfold execute. do 2 guarded_step.
  destruct (_ && _); [done|]. do 5 guarded_step.
  destruct (dry_run_flag _); [done|]. apply guarded_confirm. auto 10.
Qed.

Lemma cancel_confirmed fuel file options s :
  (yes_flag (cancel_confirm options) = true → s = true) →
  monitored guarded s (cancel fuel file options) (on_ok (λ _ _, True)).
Proof.
  intros Hs. unfold cancel. do 2 guarded_step. set (dry := dry_run_flag (cancel_confirm options)).
  destruct dry eqn:Hd; simpl.
  - rewrite andb_false_r. guarded_step. apply guarded_harmless.
    assert (∀ reassigning moving human,
      harmless (cancel_moves fuel file options reassigning moving human)) as Hmoves.
    { intros reassigning moving human. unfold cancel_moves. fold dry. rewrite Hd. harmless. }
    destruct (bool_decide _); apply Hmoves.
  - rewrite andb_true_r. destruct (_ || _) eqn:Hc; [apply guarded_confirm; auto|].
    apply orb_false_iff in Hc as [[Hr Hm]%orb_false_iff Hp].
    rewrite negb_false_iff in Hr, Hm, Hp. guarded_step. rewrite Hr.
    apply guarded_harmless. unfold cancel_moves. rewrite Hm, Hp. harmless.
Qed.

Lemma converge_confirmed topic replication_factor args s :
  (yes_flag args = true → s = true) →
  monitored guarded s (converge topic replication_factor args) (on_ok (λ _ _, True)).
Proof.
  intros Hs. unfold converge. destruct (dry_run_flag args); [|by apply guarded_confirm].
  apply guarded_harmless. harmless.
Qed.
End Guards.

(** The actions that change the cluster behind the confirmation prompt. *)
Definition confirmed_action (action : Action) : bool :=
  match action with
  | Execute _ _ _ _ _ | Cancel _ _ | ReplicationFactor _ _ true => true
  | _ => false
  end.

Lemma validate_flags a action :
  dry_run_flag (args_confirm a) || yes_flag (args_confirm a) = true →
  validate a = Ok action → confirmed_action action = true.
Proof.
  intros Hf. unfold validate. destruct (chosen_actions a) as [|name [|? ?]]; [done| |done].
  destruct (_ && _); [done|]. destruct (_ && _); [done|].
  destruct (is_some (args_topic a) || _); [|destruct (list_find _ _) as [[? []]|]; [done|];
    destruct (list_find _ _) as [[? []]|]; [done|]].
  - unfold validate_replication_factor.
    destruct (args_topic a), (args_replication_factor a); try done.
    rewrite Hf, andb_true_r. destruct (bool_decide (name ∈ _)) eqn:Hn; simpl; [|done].
    match goal with |- (if ?others then _ else _) = _ → _ => destruct others end; [done|].
    destruct (bool_decide (name = "verify")) eqn:Hv; [done|]. intros [= <-].
    apply bool_decide_eq_false in Hv. apply bool_decide_eq_true in Hn. rewrite bool_decide_true; [done|]. set_solver.
  - rewrite Hf, andb_true_l. case_bool_decide as Hn; simpl; [|done]. intros [= <-].
    apply elem_of_cons in Hn as [->|Hn]; [done|]. apply list_elem_of_singleton in Hn as ->.
    done.
Qed.

(** Deletes only throttle configs. *)
Definition clears_throttles (c : admin_call) : Prop :=
  match c with
  | IncrementalAlterConfigs configs =>
      Forall (λ '(_, ops), Forall (λ op, ∃ name, op = DeleteOp name ∧
        name ∈ BROKER_LEVEL_THROTTLES ++ TOPIC_LEVEL_THROTTLES) ops) configs
  | _ => mutating c = false
  end.

Definition throttle_clearing : Monitor admin unit :=
  Build_Monitor (Σ := admin) unit (λ _ c, clears_throttles c) (λ _ _ _, tt).

Lemma harmless_clearing {A} (p : cmd admin A) :
  harmless p → monitored throttle_clearing tt p (on_ok (λ _ _, True)).
Proof.
  induction p as [o|c k IH]; simpl; intros Hp; [by destruct o as [[]| |]|].
  destruct Hp as [Hc Hk]. simpl in Hc. split; [by destruct c; try discriminate Hc|].
  intros r. exact (IH r (Hk r)).
Qed.

Lemma clearing_bind {A B} (p : cmd admin A) (f : A → cmd admin B) :
  monitored throttle_clearing tt p (on_ok (λ _ _, True)) →
  (∀ a, monitored throttle_clearing tt (f a) (on_ok (λ _ _, True))) →
  monitored throttle_clearing tt (p ≫= f) (on_ok (λ _ _, True)).
Proof.
  intros Hp Hf. eapply monitored_cmd_bind; [exact Hp|]. intros [] a _. apply Hf.
Qed.

Lemma alter_configs_clearing configs :
  clears_throttles (IncrementalAlterConfigs configs) →
  monitored throttle_clearing tt (alter_configs configs) (on_ok (λ _ _, True)).
Proof.
  intros Hc. destruct configs as [|c configs]; [done|]. split; [done|].
  intros [results|e]; [|done]. simpl.
  by destruct (list_find _ results) as [[? [? []]]|].
Qed.

Lemma delete_ops_clear {A} (f : A → ConfigResource) names (l : list A) :
  names ⊆ BROKER_LEVEL_THROTTLES ++ TOPIC_LEVEL_THROTTLES →
  clears_throttles (IncrementalAlterConfigs (map (λ x, (f x, delete_ops names)) l)).
Proof.
  intros Hn. simpl. apply Forall_fmap, Forall_true. intros x.
  apply Forall_forall. intros op (name & -> & Hin)%list_elem_of_fmap. eauto.
Qed.

Lemma clear_all_clearing targets dry_run :
  monitored throttle_clearing tt (clear_all_throttles targets dry_run) (on_ok (λ _ _, True)).
Proof.
  apply clearing_bind; [apply harmless_clearing; auto with krabka|]. intros nodes.
  apply clearing_bind; [|intros _; apply clearing_bind; [|done]];
    (destruct dry_run; [done|]); apply alter_configs_clearing, delete_ops_clear; set_solver.
Qed.

(** ** Fail-stop *)

(** Whether a request that changes the cluster was refused. A log dir move that
    has to wait is not a refusal. *)
Definition refused (c : admin_call) : admin_answer c → bool :=
  match c with
  | IncrementalAlterConfigs _ => λ r,
      match r with Ok results => existsb (λ x, negb (is_ok x.2)) results | Err _ => true end
  | AlterPartitionAssignments _ _ => λ r,
      match r with Ok outcomes => existsb (λ x, is_some x.2) outcomes | Err _ => true end
  | ReconcileReplicationFactor _ _ => λ r, negb (is_ok r)
  | _ => λ _, false
  end.

(** Allows no call after a refused request. *)
Definition fail_stop : Monitor admin bool :=
  Build_Monitor (Σ := admin) bool (λ s _, s = false)
    (λ s c r, s || refused c r).

Lemma harmless_fail_stop {A} (p : prog admin A) :
  harmless p → monitored fail_stop false p (λ s' _, s' = false).
Proof.
  induction p as [o|c k IH]; simpl; intros Hp; [done|].
  destruct Hp as [Hc Hk]. simpl in Hc. split; [done|]. intros r.
  assert (refused c r = false) as Hr by (destruct c; try discriminate Hc; reflexivity).
  cbn [after fail_stop]. rewrite Hr. apply IH, Hk.
Qed.

Lemma fail_stop_bind {A B} (p : cmd admin A) (f : A → cmd admin B) :
  harmless p → (∀ a, monitored fail_stop false (f a) (on_ok (λ _ _, True))) →
  monitored fail_stop false (p ≫= f) (on_ok (λ _ _, True)).
Proof.
  intros Hp Hf. apply monitored_bind. eapply monitored_mono; [by apply harmless_fail_stop|].
  intros s' [[a|e]| |] ->; simpl; [apply Hf|done..].
Qed.

Lemma alter_configs_fail_stop configs :
  monitored fail_stop false (alter_configs configs) (on_ok (λ s _, s = false)).
Proof.
  destruct configs as [|c configs]; [done|]. split; [done|].
  intros [results|e]; [|done]. cbn -[list_find existsb].
  destruct (list_find _ results) as [[i [c' [[]|e]]]|] eqn:E; [|done|].
  - apply list_find_Some in E as (_ & E & _). discriminate E.
  - apply list_find_None in E. simpl. destruct (existsb _ results) eqn:Hx; [|done].
    apply existsb_exists in Hx as (x & Hin & Hr). rewrite Forall_forall in E.
    apply list_elem_of_In in Hin. apply E in Hin. by destruct (is_ok x.2).
Qed.

Lemma execute_moves_fail_stop fuel pending lines :
  monitored fail_stop false (execute_moves fuel pending lines) (λ s _, s = false).
Proof.
  revert pending lines. induction fuel as [|fuel IH]; intros pending lines; [done|].
  split; [done|]. intros answers. cbn -[started_moves move_lines bt_remove].
  destruct (started_moves pending answers []) as [[started|replica]| |]; [|done..].
  destruct (bool_decide _); [done|]. split; [done|]. intros [|]; [done|].
  split; [done|]. intros r. exact (IH _ _).
Qed.

(** The rule of a bind whose first part leaves the automaton running. *)
Lemma fail_stop_running {A B} (p : cmd admin A) (f : A → cmd admin B) :
  monitored fail_stop false p (on_ok (λ s _, s = false)) →
  (∀ a, monitored fail_stop false (f a) (on_ok (λ _ _, True))) →
  monitored fail_stop false (p ≫= f) (on_ok (λ _ _, True)).
Proof.
  intros Hp Hf. eapply monitored_cmd_bind; [exact Hp|]. intros s a Hs. simpl in Hs.
  rewrite Hs. apply Hf.
Qed.

Lemma await_execute_moves_fail_stop fuel pending :
  monitored fail_stop false (await (execute_moves fuel pending [])) (on_ok (λ s _, s = false)).
Proof.
  apply monitored_bind. eapply monitored_mono; [apply execute_moves_fail_stop|].
  intros s o Hs. by destruct o.
Qed.

Lemma write_throttles_fail_stop t :
  monitored fail_stop false (write_throttles t) (on_ok (λ s _, s = false)).
Proof.
  assert (∀ A B (p : cmd admin A) (f : A → cmd admin B),
    monitored fail_stop false p (on_ok (λ s _, s = false)) →
    (∀ a, monitored fail_stop false (f a) (on_ok (λ s _, s = false))) →
    monitored fail_stop false (p ≫= f) (on_ok (λ s _, s = false))) as Hbind.
  { intros A B p f Hp Hf. eapply monitored_cmd_bind; [exact Hp|]. intros s a ->. apply Hf. }
  unfold write_throttles. apply Hbind; [|intros; apply Hbind; [|done]].
  - destruct (inter_broker_line t); [|done].
    apply Hbind; [apply alter_configs_fail_stop|intros _].
    apply Hbind; [apply alter_configs_fail_stop|done].
  - destruct (log_dir_line t); [|done]. apply Hbind; [apply alter_configs_fail_stop|done].
Qed.

Lemma alter_reassignments_fail_stop request allow :
  request ≠ [] →
  monitored fail_stop false (alter_reassignments request allow)
    (on_ok (λ s errors, bt_keys errors = [] → s = false)).
Proof.
  intros Hne. split; [done|]. intros [outcomes|[api code name message|[m text|text]|text]];
    [|done| |done..].
  - cbn -[bt_collect existsb]. intros E%bt_collect_nil. rewrite omap_nil in E.
    destruct (existsb _ outcomes) eqn:Hx; [|done].
    apply existsb_exists in Hx as ([[t p] e] & Hin & He). rewrite Forall_forall in E.
    apply list_elem_of_In in Hin. apply E in Hin. by destruct e.
  - simpl. destruct allow; [done|]. cbn -[bt_collect]. intros E%bt_collect_nil.
    by apply map_eq_nil in E.
Qed.

Section FailStop.
Context `{SerdeJson}.

Ltac fs_step := apply fail_stop_bind; [auto with krabka|intros].

(** The end of both [execute] and [cancel]: a reassignment request, and the rest
    only where every partition was accepted. *)
Lemma after_reassignments {A} request allow (f : list (TopicPartition * KafkaError) → cmd admin A) :
  request ≠ [] →
  (∀ errors, bt_keys errors ≠ [] → ∃ r, f errors = pure r) →
  (∀ errors, bt_keys errors = [] → monitored fail_stop false (f errors) (on_ok (λ _ _, True))) →
  monitored fail_stop false (alter_reassignments request allow ≫= f) (on_ok (λ _ _, True)).
Proof.
  intros Hne Herr Hok.
  eapply monitored_cmd_bind; [by apply alter_reassignments_fail_stop|].
  intros s errors Hs. destruct (decide (bt_keys errors = [])) as [E|E].
  - rewrite (Hs E). by apply Hok.
  - by destruct (Herr errors E) as [r ->].
Qed.

Lemma execute_fail_stop fuel file options :
  monitored fail_stop false (execute fuel file options) (on_ok (λ _ _, True)).
Proof.
  unfold execute. destruct (check_execute file) as [[]|e] eqn:Hc; [|done].
  fs_step. fs_step. destruct (_ && _); [done|]. do 5 fs_step.
  destruct (dry_run_flag _); [done|]. fs_step.
  apply fail_stop_running; [apply write_throttles_fail_stop|]. intros lines.
  apply after_reassignments.
  - intros E. apply check_execute_Ok in Hc. apply (executable_nonempty _ Hc).
    assert (bt_collect (targets file) = []) as E'.
    { unfold reassign_request in E.
      assert (bt_keys (bt_collect (map (λ '(p, replicas),
        ((topic p, partition p), Some replicas)) (bt_collect (targets file)))) = []) as E2
        by (by rewrite E).
      apply bt_collect_nil in E2. by apply map_eq_nil in E2. }
    assert (bt_keys (bt_collect (targets file)) = []) as E3%bt_collect_nil by (by rewrite E').
    by apply map_eq_nil in E3.
  - intros errors E. rewrite bool_decide_false by done. by eexists.
  - intros errors E. rewrite bool_decide_true by done. cbn [negb].
    destruct (bool_decide (bt_keys (log_dir_moves file) = [])); [done|].
    apply fail_stop_running; [apply await_execute_moves_fail_stop|]. by intros [].
Qed.

Lemma clear_all_fail_stop targets dry_run :
  monitored fail_stop false (clear_all_throttles targets dry_run) (on_ok (λ _ _, True)).
Proof.
  unfold clear_all_throttles. fs_step.
  apply fail_stop_running; [|intros _; apply fail_stop_running; [|done]];
    (destruct dry_run; [done|]); apply alter_configs_fail_stop.
Qed.

Lemma verify_fail_stop file preserve :
  monitored fail_stop false (verify file preserve) (on_ok (λ _ _, True)).
Proof.
  unfold verify. do 3 fs_step.
  eapply monitored_cmd_bind; [|done].
  destruct (_ && _); [apply clear_all_fail_stop|done].
Qed.

Lemma cancel_fail_stop fuel file options :
  monitored fail_stop false (cancel fuel file options) (on_ok (λ _ _, True)).
Proof.
  assert (∀ reassigning moving human, monitored fail_stop false
    (cancel_moves fuel file options reassigning moving human) (on_ok (λ _ _, True))) as Hmoves.
  { intros reassigning moving human. unfold cancel_moves. apply fail_stop_running.
    - destruct (bool_decide _); [done|]. destruct (dry_run_flag _); [done|].
      apply await_execute_moves_fail_stop.
    - intros [lines [|]]; [done|]. destruct (cancel_preserve_throttles options); [done|].
      eapply monitored_cmd_bind; [apply clear_all_fail_stop|]. done. }
  unfold cancel. do 2 fs_step. apply fail_stop_bind; [harmless|]. intros _.
  destruct (bool_decide _) eqn:Hr; [apply Hmoves|].
  destruct (dry_run_flag _); [apply Hmoves|]. apply bool_decide_eq_false in Hr.
  apply after_reassignments.
  - intros E. apply Hr.
    assert (bt_keys (bt_collect (map (λ p, ((topic p, partition p), @None (list Z)))
      (reassigning_partitions a))) = []) as E2 by (by rewrite E).
    apply bt_collect_nil in E2. by apply map_eq_nil in E2.
  - intros errors E. rewrite bool_decide_false by done. by eexists.
  - intros errors E. rewrite bool_decide_true by done. apply Hmoves.
Qed.
End FailStop.

(** ** Starting the log dir moves *)

Lemma started_moves_subset pending answers started started' :
  bt_wf started → (∀ kv, kv ∈ started → kv ∈ pending) → bt_wf pending →
  started_moves pending answers started = Done (Ok started') →
  bt_wf started' ∧ ∀ kv, kv ∈ started' → kv ∈ pending.
Proof.
  revert started. induction answers as [|[replica r] answers IH]; intros started Hw Hs Hp H;
    simpl in H; [by simplify_eq|].
  destruct r as [[]|error].
  - destruct (bt_get (replica_of replica) pending) as [path|] eqn:E; simpl in H; [|done].
    apply (IH (bt_insert (replica_of replica) path started)); [by apply bt_insert_wf| |done..].
    intros [k v] Hkv. apply bt_get_elem in Hkv; [|by apply bt_insert_wf].
    rewrite bt_get_insert in Hkv by done. case_decide; simplify_eq.
    + by apply bt_get_elem in E.
    + apply Hs. by apply bt_get_elem.
  - destruct (error_code error =? REPLICA_NOT_AVAILABLE); [|done]. by apply (IH started).
Qed.

Lemma bt_remove_all (pending : list (Replica * string)) ks :
  foldr bt_remove pending ks = filter (λ kv, kv.1 ∉ ks) pending.
Proof.
  induction ks as [|k ks IH]; simpl.
  - symmetry. apply filter_keep. intros kv _. set_solver.
  - rewrite IH. unfold bt_remove. rewrite list_filter_filter. apply list_filter_iff.
    intros kv. set_solver.
Qed.

Lemma split_started (pending started : list (Replica * string)) :
  bt_wf pending → bt_wf started → (∀ kv, kv ∈ started → kv ∈ pending) →
  started ++ foldr bt_remove pending (bt_keys started) ≡ₚ pending.
Proof.
  intros Hp Hs Hsub. rewrite bt_remove_all.
  assert (∀ m : list (Replica * string), bt_wf m → NoDup m) as Hnd.
  { intros m Hm. eapply NoDup_fmap_1, bt_keys_NoDup, Hm. }
  apply NoDup_Permutation.
  - apply NoDup_app. split; [by apply Hnd|]. split; [|by apply NoDup_filter, Hnd].
    intros kv Hkv [Hno _]%list_elem_of_filter. apply Hno, list_elem_of_fmap. by exists kv.
  - by apply Hnd.
  - intros [k v]. rewrite elem_of_app, list_elem_of_filter. simpl. split; [naive_solver|].
    intros Hkv. destruct (decide (k ∈ bt_keys started)) as [Hk|Hk]; [left|by right].
    apply list_elem_of_fmap in Hk as ([k' v'] & -> & Hin).
    assert (v' = v) as ->; [|done].
    apply (NoDup_fst_functional pending k'); [by apply bt_keys_NoDup|by apply Hsub|done].
Qed.

Lemma filter_wf {K V} `{Ord K} (P : K * V → Prop) `{∀ x, Decision (P x)} (m : list (K * V)) :
  bt_wf m → bt_wf (filter P m).
Proof.
  induction 1 as [|kv m Hm IH Hall]; [constructor|]. rewrite filter_cons.
  case_decide; [|done]. constructor; [done|]. rewrite Forall_forall in Hall |- *.
  intros x [_ Hx]%list_elem_of_filter. by apply Hall.
Qed.

#[export] Instance move_lines_proper : Proper ((≡ₚ) ==> (≡ₚ)) move_lines.
Proof. intros l k Hlk. unfold move_lines. by apply Permutation_map. Qed.

(** The post of [execute_moves]: a success reports each pending move once. *)
Lemma execute_moves_reports fuel pending lines :
  bt_wf pending →
  monitored unrestricted tt (execute_moves fuel pending lines)
    (λ _ o, match o with
            | Done (report, false) => report ≡ₚ lines ++ move_lines pending
            | _ => True
            end).
Proof.
  revert pending lines. induction fuel as [|fuel IH]; intros pending lines Hp; [done|].
  split; [done|]. intros answers. cbn -[started_moves move_lines bt_remove].
  destruct (started_moves pending answers []) as [[started|replica]| |] eqn:E; [|done..].
  destruct (started_moves_subset pending answers [] started) as [Hw Hs];
    [apply bt_nil_wf|set_solver|done|done|].
  pose proof (split_started _ _ Hp Hw Hs) as Hperm.
  set (pending' := foldr bt_remove pending (bt_keys started)) in *.
  assert (move_lines started ++ move_lines pending' ≡ₚ move_lines pending) as Hlines.
  { rewrite <-Hperm. unfold move_lines. by rewrite map_app. }
  case_bool_decide as Hk.
  - simpl. assert (pending' = []) as E' by (by destruct pending').
    rewrite E' in Hlines. simpl in Hlines. rewrite app_nil_r in Hlines. by rewrite Hlines.
  - split; [done|]. intros [|]; [done|]. split; [done|]. intros r.
    eapply monitored_mono; [apply IH|].
    + subst pending'. rewrite bt_remove_all. by apply filter_wf.
    + intros s' [[report [|]]| |]; simpl; try done. intros ->.
      by rewrite <-app_assoc, Hlines.
Qed.

Lemma started_moves_total pending answers started :
  (∀ replica r, (replica, r) ∈ answers → is_Some (bt_get (replica_of replica) pending)) →
  ∃ r, started_moves pending answers started = Done r.
Proof.
  revert started. induction answers as [|[replica r] answers IH]; intros started Ha; simpl; [eauto|].
  destruct (Ha replica r) as [path Hpath]; [left|].
  assert (∀ replica r, (replica, r) ∈ answers → is_Some (bt_get (replica_of replica) pending))
    as Ha' by (intros; eapply Ha; by right).
  destruct r as [[]|error]; [rewrite Hpath; simpl; by apply IH|].
  destruct (error_code error =? REPLICA_NOT_AVAILABLE); [by apply IH|eauto].
Qed.

Section Clock.
Context {W : Type} (world : ∀ c : admin_call, W → admin_answer c * W) (remaining : W → nat).

(** The turns left before the deadline bound the loop: the clock runs while
    the command sleeps and never runs back, and the client answers only for the
    replicas it was asked about. *)
Record clock_ok : Prop := {
  clock_elapsed w : (world Elapsed w).1 = bool_decide (remaining w = 0%nat);
  clock_elapsed_mono w : (remaining (world Elapsed w).2 ≤ remaining w)%nat;
  clock_sleep w : (remaining (world Sleep w).2 ≤ remaining w - 1)%nat;
  clock_alter request w :
    (remaining (world (AlterReplicaLogDirs request) w).2 ≤ remaining w)%nat;
  answers_requested request w replica r :
    (replica, r) ∈ (world (AlterReplicaLogDirs request) w).1 → replica ∈ request.*1
}.

Lemma execute_moves_ends fuel pending lines w :
  clock_ok → bt_wf pending → (remaining w < fuel)%nat →
  ∃ report, outcome_of world (execute_moves fuel pending lines) w = Done report.
Proof.
  unfold outcome_of. intros Hc. revert pending lines w. induction fuel as [|fuel IH]; intros pending lines w Hp Hf;
    [lia|].
  cbn [execute_moves].
  set (request := map (λ '(r, path), (client_replica r, path)) pending).
  rewrite (run_send world (AlterReplicaLogDirs request)).
  pose proof (clock_alter Hc request w) as Halter.
  pose proof (answers_requested Hc request w) as Hreq.
  destruct (world (AlterReplicaLogDirs request) w) as [answers w1]. cbn [fst snd] in *.
  destruct (started_moves_total pending answers []) as [r Hr].
  { intros replica x Hin. apply Hreq in Hin. apply list_elem_of_fmap in Hin as ([r' p'] & -> & Hin).
    apply list_elem_of_fmap in Hin as ([r p] & [= -> ->] & Hin). exists p. simpl.
    apply bt_get_elem; [done|]. by destruct r. }
  rewrite Hr. destruct r as [started|replica]; [|simpl; eauto].
  destruct (bool_decide _); [simpl; eauto|]. rewrite (run_send world Elapsed).
  pose proof (clock_elapsed Hc w1) as He. pose proof (clock_elapsed_mono Hc w1) as Hm.
  destruct (world Elapsed w1) as [elapsed w2]. cbn [fst snd] in *. subst elapsed.
  case_bool_decide as Hz; [simpl; eauto|]. rewrite (run_send world Sleep).
  pose proof (clock_sleep Hc w2) as Hs. apply IH; [|lia].
  rewrite bt_remove_all. by apply filter_wf.
Qed.
End Clock.

(** ** What [--verify] changes *)

Lemma clearing_log log post :
  accepts throttle_clearing tt log post → Forall (λ e, clears_throttles (projT1 e)) log.
Proof.
  induction log as [|[c r] log IH]; simpl; [constructor|]. intros [Hc Hlog].
  constructor; [done|]. by apply IH.
Qed.

Lemma verify_harmless `{SerdeJson} file : harmless (verify file true).
Proof. unfold verify. do 3 (apply harmless_bind; [auto with krabka|intros]). rewrite andb_false_r. done. Qed.

Lemma verify_clearing `{SerdeJson} file preserve :
  monitored throttle_clearing tt (verify file preserve) (on_ok (λ _ _, True)).
Proof.
  unfold verify.
  do 3 (apply clearing_bind; [apply harmless_clearing; auto with krabka|intros]).
  apply clearing_bind; [|done].
  destruct (_ && _); [apply clear_all_clearing|done].
Qed.

(** ** [--verify] asks nothing *)

Definition sends_prompt (c : admin_call) : bool := match c with AskConfirm _ _ => true | _ => false end.

(** Allows no prompt. *)
Definition no_prompt : Monitor admin unit :=
  Build_Monitor (Σ := admin) unit (λ _ c, sends_prompt c = false) (λ _ _ _, tt).
Definition unasked {A} (p : prog admin A) : Prop := monitored no_prompt tt p (λ _ _, True).

Lemma unasked_send c : sends_prompt c = false → unasked (send c).
Proof. intros Hc. split; [done|]. intros r. done. Qed.

Lemma unasked_halt {A} (o : outcome A) : unasked (Halt (Σ := admin) o).
Proof. done. Qed.

Lemma unasked_prog_bind {A B} (p : prog admin A) (f : A → prog admin B) :
  unasked p → (∀ a, unasked (f a)) → unasked (prog_bind f p).
Proof.
  intros Hp Hf. apply monitored_bind. eapply monitored_mono; [exact Hp|].
  intros [] [a| |] _; simpl; [apply Hf|done..].
Qed.

Lemma unasked_bind {A B} (p : cmd admin A) (f : A → cmd admin B) :
  unasked p → (∀ a, unasked (f a)) → unasked (p ≫= f).
Proof. intros Hp Hf. apply unasked_prog_bind; [done|]. intros [a|e]; [apply Hf|done]. Qed.

Lemma unasked_lift {A} (r : result string A) : unasked (lift (Σ := admin) r).
Proof. by destruct r. Qed.

Lemma unasked_expect {A} (o : option A) : unasked (expect (Σ := admin) o).
Proof. by destruct o. Qed.

Lemma unasked_try_admin {A} (p : prog admin (result AdminError A)) :
  unasked p → unasked (try_admin p).
Proof. intros Hp. apply unasked_prog_bind; [done|]. by intros. Qed.

Lemma unasked_await {A} (p : prog admin A) : unasked p → unasked (await p).
Proof. intros Hp. apply unasked_prog_bind; [done|]. by intros. Qed.

#[local] Hint Resolve unasked_halt unasked_lift unasked_expect unasked_try_admin
  unasked_await : krabka.
#[local] Hint Extern 1 (unasked (send _)) => (apply unasked_send; reflexivity) : krabka.
#[local] Hint Extern 1 (unasked (pure _)) => exact I : krabka.
#[local] Hint Extern 1 (unasked (throw _)) => exact I : krabka.

(** Walks a command that sends no prompt. *)
Ltac unasked :=
  repeat first
    [ progress intros
    | solve [auto with krabka]
    | apply unasked_bind
    | apply unasked_prog_bind
    | lazymatch goal with
      | |- unasked (match ?x with _ => _ end) => destruct x
      | |- unasked (let '_ := ?x in _) => destruct x
      end ].

Lemma unasked_described_states targets infos states :
  unasked (described_states targets infos states).
Proof.
  revert states. induction infos as [|info infos IH]; intros states; [done|]. simpl. unasked.
Qed.
#[local] Hint Resolve unasked_described_states : krabka.

Lemma verify_unasked file preserve : unasked (verify file preserve).
Proof.
  unfold verify, active_reassignments, topic_replicas, move_states, clear_all_throttles,
    alter_configs. unasked.
Qed.
#[local] Hint Resolve verify_unasked : krabka.

Lemma verify_run_unasked `{SerdeJson} fuel a file preserve :
  validate a = Ok (Verify file preserve) → unasked (reassign_run fuel a).
Proof.
  intros Hv. unfold reassign_run. rewrite Hv.
  apply (unasked_bind (connect _ _) (λ _, run_action fuel (args_confirm a) (Verify file preserve)));
    [by apply unasked_send|]. intros _. unfold run_action, read_file. unasked.
Qed.

Lemma unasked_log log post :
  accepts no_prompt tt log post → Forall (λ e, sends_prompt (projT1 e) = false) log.
Proof.
  induction log as [|[c r] log IH]; simpl; [constructor|]. intros [Hc Hlog].
  constructor; [done|]. by apply IH.
Qed.

(** ** Properties *)

(** C1. [--dry-run] is a contract of the whole command: for every cluster, every
    answer and every command line, [krabka reassign-partitions --dry-run] sends
    no request that changes the cluster, and a report it gives is marked as a
    dry run. *)
Theorem reassign_dry_run `{SerdeJson} (fuel : nat) (a : ReassignPartitionsArgs) :
  dry_run_flag (args_confirm a) = true → dry_run_contract (reassign_run fuel a).
Proof.
  intros Hd. apply dry_run_intro. unfold reassign_run.
  destruct (validate a) as [action|e] eqn:Hv; [|done].
  assert (confirmed_action action = true) as Ha.
  { eapply validate_flags; [|done]. by rewrite Hd. }
  apply monitored_ok, read_only_bind; [auto with krabka|]. intros _.
  clear Hv. destruct action as [| | | | |topic n []]; try done; cbn [run_action].
  - do 2 (apply read_only_bind; [auto with krabka|intros]). by apply execute_dry_run.
  - do 2 (apply read_only_bind; [auto with krabka|intros]). by apply cancel_dry_run.
  - by apply converge_dry_run.
Qed.

(** The command line of [--execute --dry-run] on a file. *)
Definition dry_run_args : ReassignPartitionsArgs :=
  {| args_connection := {| bootstrap_server := ["h:9092"]; bootstrap_controller := [];
                           command_config := None; client_id := None;
                         request_timeout_ms := None |};
     args_generate := None; args_execute := Some true; args_verify := None; args_cancel := None;
     args_list := None; args_reassignment_json_file := Some "plan.json";
     args_topics_to_move_json_file := None; args_broker_list := None;
     args_disable_rack_aware := None; args_throttle := Some 50000000;
     args_replica_alter_log_dirs_throttle := None; args_additional := None;
     args_preserve_throttles := None; args_disallow_replication_factor_change := None;
     args_topic := None; args_replication_factor := None;
     args_confirm := {| dry_run_flag := true; yes_flag := false |} |}.

Lemma reassign_dry_run_witness :
  validate dry_run_args = Ok (Execute "plan.json" false 50000000 (-1) false) ∧
  dry_run_contract (@reassign_run (reads_as Null) 10 dry_run_args).
Proof.
  split; [vm_compute; reflexivity|]. apply (@reassign_dry_run (reads_as Null)). reflexivity.
Defined.

(** C3. The confirmation guards every action but [--verify]: without [--yes], a
    request of [krabka reassign-partitions] that changes the cluster follows a
    prompt that the operator accepted. [--verify] sends no prompt at all; the
    one thing it may change is to delete throttle configs, and it changes nothing
    with [--preserve-throttles]. *)
Theorem reassign_confirmation `{SerdeJson} (fuel : nat) (a : ReassignPartitionsArgs) :
  match validate a with
  | Ok (Verify _ preserve_throttles) =>
      ∀ W (world : ∀ c : admin_call, W → admin_answer c * W) (w : W),
        Forall (λ e, sends_prompt (projT1 e) = false ∧
                     if preserve_throttles then changes e = false
                     else clears_throttles (projT1 e)) (events_of world (reassign_run fuel a) w)
  | _ => confirm_contract (yes_flag (args_confirm a)) (reassign_run fuel a)
  end.
Proof.
  pose proof (verify_run_unasked fuel a) as Hask. revert Hask.
  unfold reassign_run. destruct (validate a) as [action|e] eqn:Hv; [|by intros; apply confirm_intro].
  intros Hask. assert (∀ s, (yes_flag (args_confirm a) = true → s = true) →
    match action with
    | Verify _ _ => True
    | _ => monitored guarded s (run_action fuel (args_confirm a) action) (on_ok (λ _ _, True))
    end) as Hrun.
  { clear Hv. intros s Hs. destruct action as [| | | | |topic n []]; cbn [run_action]; try done.
    - apply guarded_bind; [auto with krabka|]. intros s1 text H1.
      apply guarded_harmless, harmless_generate.
    - apply guarded_bind; [auto with krabka|]. intros s1 text H1.
      apply guarded_bind; [auto with krabka|]. intros s2 file' H2.
      apply execute_confirmed. simpl. auto.
    - apply guarded_bind; [auto with krabka|]. intros s1 text H1.
      apply guarded_bind; [auto with krabka|]. intros s2 file' H2.
      apply cancel_confirmed. simpl. auto.
    - apply guarded_harmless, harmless_list.
    - by apply converge_confirmed.
    - apply guarded_harmless. auto with krabka. }
  clear Hv. destruct action as [| |file preserve| | |];
    try (apply confirm_intro, monitored_ok, guarded_bind; [auto with krabka|];
         intros s _ Hs; by apply Hrun).
  intros W world w. apply Forall_and. split.
  { eapply unasked_log, (run_monitored (Σ := admin) world no_prompt tt _ (λ _ _, True) w).
    by apply (Hask file preserve). }
  clear Hask. destruct preserve.
  - apply harmless_intro, monitored_ok. apply harmless_bind; [auto with krabka|]. intros _.
    do 2 (apply harmless_bind; [auto with krabka|intros]). apply verify_harmless.
  - eapply clearing_log.
    apply (run_monitored (Σ := admin) world throttle_clearing tt _ (on_ok (λ _ _, True)) w).
    apply monitored_ok, clearing_bind; [apply harmless_clearing; auto with krabka|]. intros _.
    do 2 (apply clearing_bind; [apply harmless_clearing; auto with krabka|intros]).
    apply verify_clearing.
Qed.

(** A refused request. *)
Definition refuses (e : event admin) : bool := refused (projT1 e) (projT2 e).

Lemma fail_stop_log s log post pre e rest :
  accepts fail_stop s log post → log = pre ++ e :: rest → refuses e = true → rest = [].
Proof.
  revert s log. induction pre as [|[c r] pre IH]; intros s log Hlog -> He; simpl in Hlog.
  - destruct e as [c r]. destruct Hlog as [_ Hlog]. unfold refuses in He. simpl in He.
    rewrite He, orb_true_r in Hlog. destruct rest as [|[c' r'] rest]; [done|].
    destruct Hlog as [Hc _]. discriminate Hc.
  - destruct Hlog as [_ Hlog]. by eapply IH.
Qed.

(** C2. [krabka reassign-partitions] stops at the first refusal: a throttle
    write, a reassignment or a convergence that the cluster refuses, in whole
    or for one resource, is the last thing the run asks of it. In particular no
    partition moves unthrottled because its throttle was refused. *)
Theorem reassign_fail_stop `{SerdeJson} (fuel : nat) (a : ReassignPartitionsArgs)
    (W : Type) (world : ∀ c : admin_call, W → admin_answer c * W) (w : W) pre e post :
  events_of world (reassign_run fuel a) w = pre ++ e :: post → refuses e = true → post = [].
Proof.
  intros Hlog He. eapply fail_stop_log; [|exact Hlog|exact He].
  apply (run_monitored (Σ := admin) world fail_stop false _ (on_ok (λ _ _, True)) w).
  unfold reassign_run. destruct (validate a) as [action|]; [|done].
  apply monitored_ok, fail_stop_bind; [auto with krabka|]. intros _.
  assert (∀ p : cmd admin CommandResult, harmless p →
    monitored fail_stop false p (on_ok (λ _ _, True))) as Hread.
  { intros p Hp. eapply monitored_mono; [by apply harmless_fail_stop|].
    by intros s' [[]| |] _. }
  destruct action as [| | | | |topic n []]; cbn [run_action].
  - apply fail_stop_bind; [auto with krabka|intros]. apply Hread, harmless_generate.
  - do 2 (apply fail_stop_bind; [auto with krabka|intros]). apply execute_fail_stop.
  - do 2 (apply fail_stop_bind; [auto with krabka|intros]). apply verify_fail_stop.
  - do 2 (apply fail_stop_bind; [auto with krabka|intros]). apply cancel_fail_stop.
  - apply Hread, harmless_list.
  - unfold converge. destruct (dry_run_flag _); [apply Hread; harmless|].
    apply fail_stop_bind; [auto with krabka|intros]. split; [done|]. by intros [].
  - apply Hread. auto with krabka.
Qed.

(** A cluster of two brokers with one partition on the first, which refuses
    config changes. Its state is the turns left before the deadline; its log
    dir moves wait until the last of them. *)
Definition sample_world (c : admin_call) : nat → admin_answer c * nat :=
  match c return nat → admin_answer c * nat with
  | Connect _ _ => λ w, (Ok tt, w)
  | ReadFile _ => λ w, (Ok "plan", w)
  | AskConfirm _ _ => λ w, (Ok tt, w)
  | Elapsed => λ w, (bool_decide (w = 0%nat), w)
  | Sleep => λ w, (tt, (w - 1)%nat)
  | TimeSeed => λ w, (0, w)
  | DescribeCluster _ => λ w,
      (Ok {| description_cluster_id := "c";
             description_nodes := [test_node 1 "h1" None false; test_node 2 "h2" None false] |}, w)
  | Metadata _ => λ w, (Ok [], w)
  | DescribePartitionAssignments _ => λ w,
      (Ok [{| pa_topic := "foo"; pa_partition := 0; pa_replicas := [1];
              pa_adding_replicas := []; pa_removing_replicas := [] |}], w)
  | ListPartitionReassignments _ => λ w, (Ok [], w)
  | DescribeReplicaLogDirs replicas => λ w,
      (map (λ r, (r, Ok {| info_current := Some "/d1"; info_future := None |})) replicas, w)
  | AlterReplicaLogDirs request => λ w,
      (map (λ '(r, _), (r, if bool_decide (w = 0%nat) then Ok tt
                           else Err (row_error REPLICA_NOT_AVAILABLE))) request, w)
  | AlterPartitionAssignments _ _ => λ w, (Ok [], w)
  | IncrementalAlterConfigs _ => λ w,
      (Err (BrokerError "IncrementalAlterConfigs" 31 "CLUSTER_AUTHORIZATION_FAILED" None), w)
  | c => λ w, ((obliging_world c tt).1, w)
  end.

Definition execute_args : ReassignPartitionsArgs :=
  {| args_connection := args_connection dry_run_args;
     args_generate := None; args_execute := Some true; args_verify := None; args_cancel := None;
     args_list := None; args_reassignment_json_file := Some "plan.json";
     args_topics_to_move_json_file := None; args_broker_list := None;
     args_disable_rack_aware := None; args_throttle := Some 50000000;
     args_replica_alter_log_dirs_throttle := None; args_additional := None;
     args_preserve_throttles := None; args_disallow_replication_factor_change := None;
     args_topic := None; args_replication_factor := None;
     args_confirm := {| dry_run_flag := false; yes_flag := true |} |}.

(** The plan that moves [foo-0] to both brokers. *)
Definition sample_plan : SerdeJson :=
  reads_as (canonical (file_json [(tp_new "foo" 0, [1; 2])] [])).

Definition refused_run : list (event admin) :=
  events_of sample_world (@reassign_run sample_plan 5 execute_args) 3%nat.

Lemma reassign_fail_stop_witness :
  ∃ pre e post, refused_run = pre ++ e :: post ∧ refuses e = true ∧ post = [].
Proof.
  destruct (refused_run !! 6%nat) as [e|] eqn:E; [|vm_compute in E; discriminate E].
  assert (refuses e = true) as He by (vm_compute in E; injection E as <-; reflexivity).
  exists (take 6 refused_run), e, (drop 7 refused_run).
  assert (refused_run = take 6 refused_run ++ e :: drop 7 refused_run) as Hlog
    by (symmetry; apply take_drop_middle; exact E).
  split; [exact Hlog|]. split; [exact He|].
  exact (@reassign_fail_stop sample_plan 5 execute_args nat sample_world 3%nat
    (take 6 refused_run) e (drop 7 refused_run) Hlog He).
Defined.

(** [execute_moves] ends, and is right about success: with more turns than
    the clock leaves before the deadline it returns, and where it reports no
    failure its lines are exactly one success line per requested move. *)
Theorem execute_moves_correct {W} (world : ∀ c : admin_call, W → admin_answer c * W)
    (remaining : W → nat) (fuel : nat) (moves : list (Replica * string)) (w : W) :
  clock_ok world remaining → bt_wf moves → (remaining w < fuel)%nat →
  ∃ lines failed, outcome_of world (execute_moves fuel moves []) w = Done (lines, failed) ∧
    (failed = false → lines ≡ₚ move_lines moves).
Proof.
  intros Hc Hm Hf. destruct (execute_moves_ends world remaining fuel moves [] w Hc Hm Hf)
    as [[lines failed] E]. exists lines, failed. split; [exact E|]. intros ->.
  pose proof (run_monitored (Σ := admin) world unrestricted tt _ _ w
    (execute_moves_reports fuel moves [] Hm)) as Ha. unfold outcome_of in E.
  revert Ha. rewrite E. simpl. generalize (run (Σ := admin) world (execute_moves fuel moves []) w).2.
  intros log. induction log as [|[c r] log IH]; simpl; [done|]. intros [_ Hlog]. by apply IH.
Qed.

Lemma sample_clock : clock_ok sample_world (λ w, w).
Proof.
  constructor; simpl; try lia; try done.
  intros request w replica r ([r' p] & [= -> ->] & Hin)%list_elem_of_fmap.
  apply list_elem_of_fmap. by exists (r', p).
Qed.

Lemma execute_moves_correct_witness :
  bt_wf sample_log_dirs ∧
  ∃ lines failed, outcome_of sample_world (execute_moves 4 sample_log_dirs []) 3%nat =
      Done (lines, failed) ∧ (failed = false → lines ≡ₚ move_lines sample_log_dirs).
Proof.
  assert (bt_wf sample_log_dirs) as Hm by (repeat constructor).
  split; [exact Hm|].
  exact (execute_moves_correct sample_world (λ w, w) 4 sample_log_dirs 3%nat sample_clock Hm
    (Nat.lt_succ_diag_r 3)).
Defined.
