(* ===== verification/Reset.v ===== *)
(** [consumer_groups/reset.rs]: the plan of [--reset-offsets], and the readers
    of its [--topic], [--from-file], [--to-datetime] and [--by-duration]. *)

From Stdlib Require Import Ascii.
From S2P Require Import Prelude Collections Rust Jvm Json KafkaErrors Output Program Admin.

(** A partition, [(topic, partition)]. *)
Definition Partition : Type := string * Z.

(** The new offsets of one group, in the order Kafka prints them. *)
Definition Plan : Type := list (Partition * Z).

Inductive Scenario :=
  | ToOffset (offset : Z)
  | ToEarliest
  | ToLatest
  | ToCurrent
  | ShiftBy (shift : Z)
  | ToDatetime (timestamp : Z)
  | ByDuration (timestamp : Z)
  | FromFile (requested : option (list (Partition * Z))).

Record Planned := { plan_of : Plan; plan_stdout : list string; plan_notices : list string }.

(** The effect that a lookup runs in: one in which a command can fail. The
    planner is generic in it, as the source is in the trait below. *)
Class Fallible (M : Type → Type) := {
  fallible_ret :: MRet M;
  fallible_bind :: MBind M;
  fallible : ∀ {A}, result CommandError A → M A
}.

(** The effect of a lookup in a table. *)
#[export] Instance result_fallible : Fallible (result CommandError) := {|
  fallible_ret := result_ret; fallible_bind := result_bind; fallible := λ A r, r |}.

(** The trait [OffsetLookup]: for each partition the answer knows, its offset or
    its Kafka error code. *)
Class OffsetLookup (M : Type → Type) := {
  offsets : list Partition → OffsetSpec → M (list (Partition * result Z Z))
}.

(** [name]. *)
Definition partition_name (p : Partition) : string := p.1 +:+ "-" +:+ pretty p.2.

Definition ordered (offsets : list (Partition * Z)) : Plan :=
  hash_order offsets Default (λ '((topic, partition), _), topic_partition_hash topic partition).

(** [known]: the offsets of an answer, or the error of its first failed
    partition. *)
Definition known (answers : list (Partition * result Z Z))
    : result CommandError (list (Partition * Z)) :=
  bt_collect <$> try_map (λ '(p, answer),
    match answer with
    | Ok offset => Ok (p, offset)
    | Err code => Err (Other (to_java_string (for_code code)))
    end) answers.

(** The first partition without an entry. *)
Definition first_missing (partitions : list Partition) (m : list (Partition * Z))
    : option Partition :=
  snd <$> list_find (λ p, bt_contains p m = false) partitions.

Section Planner.
Context {M : Type → Type} `{Fallible M} `{OffsetLookup M}.

Definition required (partitions : list Partition) (spec : OffsetSpec) (missing : string)
    : M (list (Partition * Z)) :=
  answers ← offsets partitions spec;
  offsets ← fallible (known answers);
  match first_missing partitions offsets with
  | Some p => fallible (Err (Other (missing +:+ partition_name p)))
  | None => fallible (Ok offsets)
  end.

(** One requested offset against its partition's log: the new offset and the
    warning of a clamp. *)
Definition clamp_one (starts ends : list (Partition * Z)) (entry : Partition * Z)
    : result CommandError (Partition * Z * option string) :=
  let '(p, offset) := entry in
  last ← ok_or (bt_get p ends)
           (Other ("Unexpected non-existing offset value for topic partition " +:+
                   partition_name p));
  if last <? offset then
    Ok (p, last, Some ("WARN New offset (" +:+ pretty offset +:+
      ") is higher than latest offset for topic partition " +:+ partition_name p +:+
      ". Value will be set to " +:+ pretty last))
  else
    match bt_get p starts with
    | Some start =>
        if offset <? start then
          Ok (p, start, Some ("WARN New offset (" +:+ pretty offset +:+
            ") is lower than earliest offset for topic partition " +:+ partition_name p +:+
            ". Value will be set to " +:+ pretty start))
        else Ok (p, offset, None)
    | None => Ok (p, offset, None)
    end.

(** [clamped]: the plan and the notices. *)
Definition clamped (requested : list (Partition * Z)) : M (Plan * list string) :=
  let partitions := bt_keys requested in
  starts ← offsets partitions Earliest; starts ← fallible (known starts);
  ends ← offsets partitions Latest; ends ← fallible (known ends);
  entries ← fallible (try_map (clamp_one starts ends) requested);
  fallible (Ok (ordered (map fst entries), omap snd entries)).

Definition empty_warning (p : Partition) : list string :=
  ["";
   "Warn: Partition " +:+ pretty p.2 +:+ " from topic " +:+ p.1 +:+
   " is empty. Falling back to latest known offset."].

Definition TIMESTAMP_MISSING : string := "Error getting offset by timestamp of topic partition: ".

(** [by_timestamp]: the plan and the lines for stdout. Both lookups answered
    for every partition that is read here. *)
Definition by_timestamp (partitions : list Partition) (timestamp : Z)
    : M (Plan * list string) :=
  found ← required partitions (ForTimestamp timestamp) TIMESTAMP_MISSING;
  let empty := filter (λ p, bt_get p found = Some (-1)) partitions in
  ends ← (if bool_decide (empty = []) then fallible (Ok [])
          else required empty Latest TIMESTAMP_MISSING);
  fallible (Ok (ordered (omap (λ p,
        offset ← bt_get p found;
        offset ← (if offset =? -1 then bt_get p ends else Some offset);
        Some (p, offset)) partitions),
      empty ≫= empty_warning)).

(** The requested offsets of [--shift-by]. *)
Fixpoint shifted (committed : list (Partition * Z)) (shift : Z) (partitions : list Partition)
    (requested : list (Partition * Z)) : result CommandError (list (Partition * Z)) :=
  match partitions with
  | [] => Ok requested
  | p :: partitions =>
      current ← ok_or (bt_get p committed)
        (Other ("Cannot shift offset for partition " +:+ partition_name p +:+
                " since there is no current committed offset"));
      shifted committed shift partitions (bt_insert p (saturating_add current shift) requested)
  end.

Definition planned_quietly (plan : Plan) : Planned :=
  {| plan_of := plan; plan_stdout := []; plan_notices := [] |}.

Definition planned_clamped (r : M (Plan * list string)) : M Planned :=
  '(plan, notices) ← r;
  fallible (Ok {| plan_of := plan; plan_stdout := []; plan_notices := notices |}).

Definition plan (scenario : Scenario) (group : string) (partitions : list Partition)
    (committed : list (Partition * Z)) : M Planned :=
  match scenario with
  | ToOffset offset =>
      planned_clamped (clamped (bt_collect (map (λ p, (p, offset)) partitions)))
  | ToEarliest =>
      starts ← required partitions Earliest "Error getting starting offset of topic partition: ";
      fallible (Ok (planned_quietly (ordered (filter (λ '(p, _), p ∈ partitions) starts))))
  | ToLatest =>
      ends ← required partitions Latest "Error getting ending offset of topic partition: ";
      fallible (Ok (planned_quietly (ordered (filter (λ '(p, _), p ∈ partitions) ends))))
  | ShiftBy shift =>
      requested ← fallible (shifted committed shift partitions []);
      planned_clamped (clamped requested)
  | ToDatetime timestamp | ByDuration timestamp =>
      '(plan, stdout) ← by_timestamp partitions timestamp;
      fallible (Ok {| plan_of := plan; plan_stdout := stdout; plan_notices := [] |})
  | FromFile None =>
      fallible (Ok {| plan_of := [];
            plan_stdout := [""; "Error: No reset plan for group " +:+ group +:+ " found"];
            plan_notices := [] |})
  | FromFile (Some requested) => planned_clamped (clamped requested)
  | ToCurrent =>
      let kept := omap (λ p, (λ offset, (p, offset)) <$> bt_get p committed) partitions in
      let without := filter (λ p, bt_contains p committed = false) partitions in
      ends ← (if bool_decide (without = []) then fallible (Ok [])
              else required without Latest "Error getting ending offset of topic partition: ");
      fallible (Ok (planned_quietly (ordered (kept ++ filter (λ '(p, _), p ∈ without) ends))))
  end.
End Planner.
#[global] Arguments required : simpl never.
#[global] Arguments clamped : simpl never.
#[global] Arguments by_timestamp : simpl never.

(** ** [--topic] and [--from-file] *)

(** [java_split] of this file: keeps one part. *)
Definition java_split (value : string) (separator : ascii) : list string :=
  match split_char separator value with
  | [] => []
  | first :: rest =>
      first :: foldr (λ part acc, match acc with [] => if bool_decide (part = "") then [] else [part]
                                  | _ => part :: acc end) [] rest
  end.

Definition topic_arg (arg : string) : result CommandError (string * option (list Z)) :=
  if negb (contains_byte (λ c, bool_decide (c = ":"%char)) arg) then Ok (arg, None)
  else
    match java_split arg ":"%char with
    | [topic; partitions] =>
        partitions ← try_map (λ partition,
          ok_or (parse_i32 partition)
            (Other ("Invalid partition '" +:+ partition +:+ "' specified in topic arg '" +:+
                    arg +:+ "''"))) (java_split partitions ","%char);
        Ok (topic, Some partitions)
    | _ => Err (Other ("Invalid topic arg '" +:+ arg +:+ "', expected topic name and partitions"))
    end.

(** [record] with three fields, and with four. *)
Definition record3 (line : string) : option (string * Z * Z) :=
  match split_char ","%char line with
  | [topic; partition; offset] =>
      partition ← parse_i32 partition; offset ← parse_i64 offset; Some (topic, partition, offset)
  | _ => None
  end.

Definition record4 (line : string) : option (string * (string * Z * Z)) :=
  match split_char ","%char line with
  | [group; topic; partition; offset] =>
      partition ← parse_i32 partition; offset ← parse_i64 offset;
      Some (group, (topic, partition, offset))
  | _ => None
  end.

Fixpoint parse_reset_lines (without_group : option string) (lines : list string)
    (plans : list (string * list (Partition * Z)))
    : result CommandError (list (string * list (Partition * Z))) :=
  match lines with
  | [] => Ok plans
  | line :: lines =>
      '(group, (topic, partition, offset)) ←
        ok_or (match without_group with
               | Some group => (λ r, (group, r)) <$> record3 line
               | None => record4 line
               end) (Other ("Unable to parse the reset plan line: " +:+ line));
      parse_reset_lines without_group lines (bt_insert2 group (topic, partition) offset plans)
  end.

Definition parse_reset_file (csv : string) (groups : list string)
    : result CommandError (list (string * list (Partition * Z))) :=
  let lines := java_split csv (ascii_of_nat 10) in
  let without_group :=
    match groups, lines with
    | [group], line :: _ => if is_some (record3 line) then Some group else None
    | _, _ => None
    end in
  parse_reset_lines without_group lines [].

(** ** [--to-datetime] *)

Definition days_from_civil (year month day : Z) : Z :=
  let year := if month <=? 2 then year - 1 else year in
  let era := year / 400 in
  let year_of_era := year - era * 400 in
  let day_of_year := (153 * (month + (if 2 <? month then -3 else 9)) + 2) ÷ 5 + day - 1 in
  let day_of_era := year_of_era * 365 + year_of_era ÷ 4 - year_of_era ÷ 100 + day_of_year in
  era * 146097 + day_of_era - 719468.

Definition is_leap (year : Z) : bool :=
  (Z.rem year 4 =? 0) && negb (Z.rem year 100 =? 0) || (Z.rem year 400 =? 0).

Definition days_in_month (year month : Z) : Z :=
  if month =? 2 then if is_leap year then 29 else 28
  else if bool_decide (month ∈ [4; 6; 9; 11]) then 30
  else 31.

Definition digits (text : string) (width : nat) : option Z :=
  if bool_decide (String.length text = width) && all_bytes is_ascii_digit text
  then parse_i64 text else None.

(** [text.split_at(i)] at the first byte that satisfies [p]. *)
Fixpoint split_before (p : ascii → bool) (text : string) : option (string * string) :=
  match text with
  | EmptyString => None
  | String c rest =>
      if p c then Some ("", text)
      else match split_before p rest with
           | Some (before, after) => Some (String c before, after)
           | None => None
           end
  end.

(** [text.replacen(c, '', 1)]. *)
Definition remove_first (p : ascii → bool) (text : string) : string :=
  match split_once p text with Some (before, after) => before +:+ after | None => text end.

Definition is_continuation (c : ascii) : bool := (128 <=? byte_of c) && (byte_of c <? 192).

(** [(&text[..n], &text[n..])], which panics inside a character. *)
Fixpoint slice_at (n : nat) (text : string) : outcome (string * string) :=
  match n, text with
  | O, String c _ => if is_continuation c then Panic else Done ("", text)
  | O, EmptyString => Done ("", "")
  | S n, String c rest =>
      '(before, after) ← slice_at n rest; Done (String c before, after)
  | S _, EmptyString => Panic
  end.

Definition char_in (set : list ascii) (c : ascii) : bool := bool_decide (c ∈ set).
Definition zone_start : ascii → bool := char_in ["+"; "-"; "Z"]%char.

Definition zone_minutes (zone : string) : outcome (option Z) :=
  if bool_decide (zone = "Z") then Done (Some 0)
  else
    match zone with
    | EmptyString => Done None
    | String c rest =>
        if negb (char_in ["+"; "-"]%char c) then Done None
        else
          let sign := if bool_decide (c = "+"%char) then 1 else -1 in
          let rest := remove_first (char_in [":"%char]) rest in
          let minutes hours minutes :=
            if (hours <? 24) && (minutes <? 60) then Some (sign * (hours * 60 + minutes))
            else None in
          match String.length rest with
          | 2%nat => Done (hours ← digits rest 2; minutes hours 0)
          | 4%nat =>
              '(hh, mm) ← slice_at 2 rest;
              Done (hours ← digits hh 2; mins ← digits mm 2; minutes hours mins)
          | _ => Done None
          end
    end.

(** The date part, as days since the epoch. *)
Definition parse_date (date : string) : option Z :=
  match split_char "-"%char date with
  | [year; month; day] =>
      year ← digits year 4; month ← digits month 2; day ← digits day 2;
      if (1 <=? month) && (month <=? 12) && (1 <=? day) && (day <=? days_in_month year month)
      then Some (days_from_civil year month day) else None
  | _ => None
  end.

(** The clock part, as seconds and milliseconds. *)
Definition parse_clock (clock : string) : option (Z * Z) :=
  '(hms, millis) ← split_once (char_in ["."%char]) clock;
  match split_char ":"%char hms with
  | [hour; minute; second] =>
      hour ← digits hour 2; minute ← digits minute 2; second ← digits second 2;
      millis ← (if negb (bool_decide (millis = "")) && (String.length millis <=? 3)%nat
                   && all_bytes is_ascii_digit millis
                then parse_i64 millis else None);
      if (hour <=? 23) && (minute <=? 59) && (second <=? 59)
      then Some ((hour * 60 + minute) * 60 + second, millis) else None
  | _ => None
  end.

(** The closure [parse]. *)
Definition parse_instant (value : string) : outcome (option Z) :=
  match split_once (char_in ["T"%char]) value with
  | None => Done None
  | Some (date, time) =>
      match parse_date date, split_before zone_start time with
      | Some days, Some (clock, zone) =>
          match parse_clock clock with
          | Some (seconds, millis) =>
              minutes ← zone_minutes zone;
              Done (minutes ← minutes;
                    Some ((days * 86400 + seconds - minutes * 60) * 1000 + millis))
          | None => Done None
          end
      | _, _ => Done None
      end
  end.

Definition parse_datetime (value : string) : outcome (result CommandError Z) :=
  match split_once (char_in ["T"%char]) value with
  | None =>
      Done (Err (Other "java.text.ParseException: Error parsing timestamp. It does not contain a 'T' according to ISO8601 format"))
  | Some (_, time) =>
      let value := if contains_byte zone_start time then value else value +:+ "Z" in
      parsed ← parse_instant value;
      Done (ok_or parsed (Other ("java.text.ParseException: Unparseable date: " +:+ dquote +:+
                                 value +:+ dquote)))
  end.

(** ** [--by-duration] *)

(** How the build treats an overflow of 128 bits: a panic where overflow checks
    are on, the wrapped value where they are off. *)
Definition i128 (checks : bool) (z : Z) : outcome Z :=
  if fits_signed 128 z then Done z else if checks then Panic else Done (wrap 128 z).

Definition INVALID_DURATION : CommandError := Other "Text cannot be parsed to a Duration".

(** [number]. *)
Definition duration_number (text : string) : option Z :=
  let unsigned := match text with
                  | String c rest => if char_in ["+"; "-"]%char c then rest else text
                  | EmptyString => text
                  end in
  if negb (bool_decide (unsigned = "")) && all_bytes is_ascii_digit unsigned
  then parse_signed 128 text else None.

(** [millis += number(text)? * scale]. *)
Definition add_scaled (checks : bool) (millis : Z) (text : string) (scale : Z)
    : outcome (option Z) :=
  match duration_number text with
  | None => Done None
  | Some n => product ← i128 checks (n * scale); sum ← i128 checks (millis + product); Done (Some sum)
  end.

(** [format!("{fraction:0<3}")[..3].parse()] of a text of digits. *)
Definition fraction_millis (fraction : string) : Z :=
  default 0 (parse_signed 128 (String.substring 0 3 (fraction +:+ "000"))).

(** The seconds of the time part. *)
Definition add_seconds (checks : bool) (millis : Z) (time : string) : outcome (option Z) :=
  match strip_suffix "S" time with
  | None => Done None
  | Some seconds =>
      let '(whole, fraction) := default (seconds, "") (split_once (char_in ["."; ","]%char) seconds) in
      if (9 <? String.length fraction)%nat || negb (all_bytes is_ascii_digit fraction)
      then Done None
      else
        match duration_number whole with
        | None => Done None
        | Some n =>
            let sign := match whole with
                        | String c _ => if bool_decide (c = "-"%char) then -1 else 1
                        | EmptyString => 1
                        end in
            product ← i128 checks (n * 1000);
            added ← i128 checks (product + sign * fraction_millis fraction);
            sum ← i128 checks (millis + added);
            Done (Some sum)
        end
  end.

(** One unit of the time part, where it is present: the milliseconds, the rest
    and whether there was one. *)
Definition add_unit (checks : bool) (unit : ascii) (scale : Z) (state : Z * string * bool)
    : outcome (option (Z * string * bool)) :=
  let '(millis, time, any) := state in
  match split_once (char_in [unit]) time with
  | None => Done (Some state)
  | Some (amount, tail) =>
      sum ← add_scaled checks millis amount scale;
      Done (sum ← sum; Some (sum, tail, true))
  end.

(** [?] inside [parse_duration]. *)
Definition then_or_invalid {A} (o : outcome (option A))
    (k : A → outcome (result CommandError Z)) : outcome (result CommandError Z) :=
  r ← o; match r with Some a => k a | None => Done (Err INVALID_DURATION) end.

(** The sign before the [P]. *)
Definition duration_sign (upper : string) : bool * string :=
  match upper with
  | String c rest =>
      if bool_decide (c = "-"%char) then (true, rest)
      else if bool_decide (c = "+"%char) then (false, rest) else (false, upper)
  | EmptyString => (false, upper)
  end.

(** The date and the time part; a [T] needs a time. *)
Definition duration_parts (rest : string) : option (string * option string) :=
  match split_once (char_in ["T"%char]) rest with
  | Some (date, time) => if bool_decide (time = "") then None else Some (date, Some time)
  | None => Some (rest, None)
  end.

(** The milliseconds so far, and whether any unit was given. *)
Definition duration_date (checks : bool) (date : string) : outcome (option (Z * bool)) :=
  if bool_decide (date = "") then Done (Some (0, false))
  else
    match strip_suffix "D" date with
    | Some days =>
        sum ← add_scaled checks 0 days 86400000;
        Done (match sum with Some sum => Some (sum, true) | None => None end)
    | None => Done None
    end.

Definition duration_time (checks : bool) (time : string) (millis : Z) (any : bool)
    : outcome (option (Z * bool)) :=
  hours ← add_unit checks "H"%char 3600000 (millis, time, any);
  match hours with
  | None => Done None
  | Some state =>
      minutes ← add_unit checks "M"%char 60000 state;
      match minutes with
      | None => Done None
      | Some (millis, time, any) =>
          if bool_decide (time = "") then Done (Some (millis, any))
          else
            sum ← add_seconds checks millis time;
            Done (match sum with Some sum => Some (sum, true) | None => None end)
      end
  end.

Definition parse_duration (checks : bool) (value : string) : outcome (result CommandError Z) :=
  let '(negate, rest) := duration_sign (to_ascii_uppercase value) in
  then_or_invalid (Done (strip_prefix "P" rest)) (λ rest,
  then_or_invalid (Done (duration_parts rest)) (λ '(date, time),
  then_or_invalid (duration_date checks date) (λ '(millis, any),
  then_or_invalid
    (match time with
     | None => Done (Some (millis, any))
     | Some time => duration_time checks time millis any
     end) (λ '(millis, any),
  if negb any then Done (Err INVALID_DURATION)
  else
    millis ← (if (negate : bool) then i128 checks (- millis) else Done millis);
    Done (ok_or (try_signed 64 millis) INVALID_DURATION))))).

(** ** Cases of the sources' tests *)

Definition sample_starts : list (Partition * Z) := [(("orders", 0), 2); (("orders", 1), 0)].
Definition sample_ends : list (Partition * Z) := [(("orders", 0), 10); (("orders", 1), 0)].
Definition sample_at : list (Partition * Z) := [(("orders", 0), 5); (("orders", 1), -1)].

(** Log offsets from fixed tables. *)
#[local] Instance fixed : OffsetLookup (result CommandError) := {|
  offsets partitions spec :=
    let table := match spec with
                 | Earliest => sample_starts
                 | Latest => sample_ends
                 | _ => sample_at
                 end in
    Ok (bt_collect (omap (λ p, (λ o, (p, Ok o)) <$> bt_get p table) partitions))
|}.

Definition sample_partitions : list Partition := [("orders", 0); ("orders", 1)].

Example plans :
  map (λ '(scenario, committed), plan_of <$> plan scenario "g" sample_partitions committed)
    [(ToOffset 3, []); (ToOffset 1, []); (ToEarliest, []); (ToLatest, []);
     (ShiftBy (-3), [(("orders", 0), 9); (("orders", 1), 0)]);
     (ToDatetime 1700000000000, []); (ToCurrent, [(("orders", 0), 7)])] =
  map (λ '(a, b), Ok [(("orders", 0), a); (("orders", 1), b)])
    [(3, 0); (2, 0); (2, 0); (10, 0); (6, 0); (5, 0); (7, 0)].
Proof. vm_compute. reflexivity. Qed.

Example clamp_notices :
  plan_notices <$> plan (ToOffset 1) "g" sample_partitions [] =
  Ok ["WARN New offset (1) is lower than earliest offset for topic partition orders-0. Value will be set to 2";
      "WARN New offset (1) is higher than latest offset for topic partition orders-1. Value will be set to 0"].
Proof. vm_compute. reflexivity. Qed.

Example shift_without_offset :
  plan (ShiftBy 1) "g" sample_partitions [(("orders", 1), 0)] =
  Err (Other "Cannot shift offset for partition orders-0 since there is no current committed offset").
Proof. vm_compute. reflexivity. Qed.

Example datetimes :
  map parse_datetime
    ["2024-01-01T00:00:00.000"; "2024-01-01T00:00:00.5"; "2024-02-29T12:30:15.250Z";
     "2024-01-01T02:00:00.000+02:00"; "2024-01-01T00:00:00.000-0130"; "1969-12-31T23:59:59.999"] =
  map (λ t, Done (Ok t))
    [1704067200000; 1704067200005; 1709209815250; 1704067200000; 1704072600000; -1].
Proof. vm_compute. reflexivity. Qed.

Example durations :
  map (parse_duration true) ["PT1H"; "P1DT2H3M4.5S"; "pt15m"; "-PT1S"; "PT-1.5S"; "P2D"] =
  map (λ t, Done (Ok t)) [3600000; 93784500; 900000; -1000; -1500; 172800000].
Proof. vm_compute. reflexivity. Qed.

Example invalid_durations :
  map (parse_duration true) ["PT"; "P"; "XX"; "PT1X"] = replicate 4 (Done (Err INVALID_DURATION)).
Proof. vm_compute. reflexivity. Qed.

Example reset_files :
  (parse_reset_file (join newline ["orders,0,3"; "orders,1,4"; ""; ""]) ["g1"],
   parse_reset_file (join newline ["g1,orders,0,3"; "g2,orders,1,4"; ""]) ["g1"; "g2"],
   parse_reset_file (join newline ["orders,0,x"; ""]) ["g1"]) =
  (Ok [("g1", [(("orders", 0), 3); (("orders", 1), 4)])],
   Ok [("g1", [(("orders", 0), 3)]); ("g2", [(("orders", 1), 4)])],
   Err (Other "Unable to parse the reset plan line: orders,0,x")).
Proof. vm_compute. reflexivity. Qed.

(** ** Lemmas: the plan *)

(** Every answer is a map. *)
Definition lookup_wf `{OffsetLookup (result CommandError)} : Prop :=
  ∀ partitions spec answers, offsets partitions spec = Ok answers → bt_wf answers.

Lemma known_get answers m p :
  bt_wf answers → known answers = Ok m →
  bt_wf m ∧ ∀ o, bt_get p m = Some o ↔ bt_get p answers = Some (Ok o).
Proof.
  intros Hw Hk. unfold known in Hk.
  destruct (try_map _ answers) as [l|] eqn:E; [|done]. simpl in Hk. injection Hk as <-.
  apply try_map_Ok in E. split; [apply bt_collect_wf|]. intros o.
  assert (l.*1 = answers.*1) as Hkeys.
  { clear Hw. induction E as [|[q r] [q' o'] answers l Hx _ IH]; [done|].
    destruct r; simplify_eq. cbn. by rewrite IH. }
  rewrite bt_get_elem by apply bt_collect_wf.
  rewrite elem_of_bt_collect by (rewrite Hkeys; by apply bt_keys_NoDup).
  rewrite bt_get_elem by done. clear Hw Hkeys.
  induction E as [|[q r] [q' o'] answers l Hx _ IH]; [set_solver|].
  rewrite !elem_of_cons, IH. destruct r; simplify_eq. naive_solver.
Qed.

Lemma first_missing_None partitions (m : list (Partition * Z)) :
  first_missing partitions m = None ↔ ∀ p, p ∈ partitions → is_Some (bt_get p m).
Proof.
  unfold first_missing. destruct (list_find _ partitions) as [[i q]|] eqn:E; simpl.
  - apply list_find_Some in E as (Hi & Hq & _). split; [done|]. intros Hall.
    apply list_elem_of_lookup_2 in Hi. apply Hall, bt_contains_true in Hi. congruence.
  - apply list_find_None in E. rewrite Forall_forall in E. split; [|done]. intros _ p Hp.
    apply bt_contains_true. specialize (E p Hp). by destruct (bt_contains p m).
Qed.

(** What a clamped offset becomes. *)
Definition clamp_to (start : option Z) (last offset : Z) : Z :=
  if last <? offset then last else match start with Some s => Z.max offset s | None => offset end.

Lemma clamp_one_Ok starts ends p r q o warning :
  clamp_one starts ends (p, r) = Ok (q, o, warning) →
  q = p ∧ ∃ last, bt_get p ends = Some last ∧ o = clamp_to (bt_get p starts) last r ∧
    (warning = None ↔ o = r).
Proof.
  unfold clamp_one, clamp_to. destruct (bt_get p ends) as [l|]; [|done]. simpl.
  intros Hc. enough (q = p ∧ o = (if l <? r then l else
    match bt_get p starts with Some s => r `max` s | None => r end) ∧ (warning = None ↔ o = r))
    by naive_solver.
  destruct (Z.ltb_spec l r); [|destruct (bt_get p starts) as [s|]; [destruct (Z.ltb_spec r s)|]];
    simplify_eq; split_and!; try done; try lia; split; intros; (done || lia).
Qed.

Lemma ordered_perm l : ordered l ≡ₚ l.
Proof. apply hash_order_perm. Qed.

Lemma elem_of_ordered l x : x ∈ ordered l ↔ x ∈ l.
Proof. apply elem_of_hash_order. Qed.

Lemma required_Ok `{OffsetLookup (result CommandError)} partitions spec missing m :
  lookup_wf → required partitions spec missing = Ok m →
  bt_wf m ∧ ∀ p, p ∈ partitions → is_Some (bt_get p m).
Proof.
  intros Hw. unfold required. destruct (offsets partitions spec) as [answers|] eqn:Ea; [|done].
  simpl. destruct (known answers) as [m'|] eqn:Ek; [|done]. simpl.
  destruct (first_missing partitions m') eqn:Ef; [done|]. intros [= <-].
  split; [|by apply first_missing_None].
  by destruct (known_get answers m' ("", 0) (Hw _ _ _ Ea) Ek).
Qed.

(** The clamped entries are the requested ones with their offsets moved. *)
Lemma clamped_entries starts ends requested entries :
  try_map (clamp_one starts ends) requested = Ok entries →
  Forall2 (λ entry clamped, entry.1 = clamped.1.1 ∧ ∃ last, bt_get entry.1 ends = Some last ∧
    clamped.1.2 = clamp_to (bt_get entry.1 starts) last entry.2 ∧
    (clamped.2 = None ↔ clamped.1.2 = entry.2)) requested entries.
Proof.
  intros H%try_map_Ok. eapply Forall2_impl; [exact H|].
  intros [p r] [[q o] w] ?%clamp_one_Ok. naive_solver.
Qed.

Lemma clamped_entries_keys {R : Partition * Z → Partition * Z * option string → Prop} requested entries :
  Forall2 (λ entry clamped, entry.1 = clamped.1.1 ∧ R entry clamped) requested entries →
  (map fst entries).*1 = requested.*1.
Proof. induction 1 as [|x y ? ? [Hx _] _ IH]; [done|]. cbn. by rewrite Hx, <-IH. Qed.

Lemma clamped_Ok `{OffsetLookup (result CommandError)} requested plan notices :
  clamped requested = Ok (plan, notices) →
  ∃ a b starts ends entries,
    offsets (bt_keys requested) Earliest = Ok a ∧ known a = Ok starts ∧
    offsets (bt_keys requested) Latest = Ok b ∧ known b = Ok ends ∧
    try_map (clamp_one starts ends) requested = Ok entries ∧
    plan = ordered (map fst entries) ∧ notices = omap snd entries.
Proof.
  unfold clamped. destruct (offsets _ Earliest) as [a|]; [|done]. simpl.
  destruct (known a) as [starts|] eqn:?; [|done]. simpl.
  destruct (offsets _ Latest) as [b|]; [|done]. simpl.
  destruct (known b) as [ends|] eqn:?; [|done]. simpl.
  destruct (try_map _ requested) as [entries|] eqn:?; [|done]. simpl. intros [= <- <-].
  naive_solver.
Qed.

Lemma clamped_keys `{OffsetLookup (result CommandError)} requested p w :
  clamped requested = Ok (p, w) → p.*1 ≡ₚ requested.*1.
Proof.
  intros (a & b & starts & ends & entries & _ & _ & _ & _ & E & -> & _)%clamped_Ok.
  apply clamped_entries in E. rewrite ordered_perm. by rewrite (clamped_entries_keys _ _ E).
Qed.

(** The entries that moved are the ones with a notice. *)
Lemma notices_length requested (entries : list (Partition * Z * option string)) :
  NoDup requested.*1 →
  Forall2 (λ entry clamped, entry.1 = clamped.1.1 ∧ (clamped.2 = None ↔ clamped.1.2 = entry.2))
    requested entries →
  length (omap snd entries) = length (filter (λ e, e ∉ map fst entries) requested).
Proof.
  intros Hn E.
  enough (∀ kept, (∀ e, e ∈ kept → e.1 ∉ requested.*1) →
    length (omap snd entries) = length (filter (λ e, e ∉ kept ++ map fst entries) requested)) as Hg
    by (apply (Hg []); set_solver).
  induction E as [|[p r] [[q o] w] requested entries [Hp Hw] E IH]; [done|]. intros kept Hk.
  simpl in *. subst q. apply NoDup_cons in Hn as [Hp Hn].
  assert (∀ e, e ∈ map fst entries → e.1 ∈ requested.*1) as Hin.
  { intros e He. rewrite <-(clamped_entries_keys _ _ E). set_solver. }
  specialize (IH Hn (kept ++ [(p, o)])). rewrite <-app_assoc in IH.
  assert ((p, r) ∈ kept ++ (p, o) :: map fst entries ↔ r = o) as Hpr.
  { rewrite elem_of_app, elem_of_cons. split; [|naive_solver].
    intros [Hi|[[= ->]|Hi]]; [|done|by apply Hin in Hi]. by apply Hk in Hi; set_solver. }
  rewrite filter_cons. destruct w as [w|]; simpl.
  - rewrite decide_True by (rewrite Hpr; naive_solver). simpl. f_equal. apply IH. set_solver.
  - rewrite decide_False by (rewrite Hpr; naive_solver). apply IH. set_solver.
Qed.

(** ** The properties of the plan *)

(** C12. [clamped] puts every requested partition into the plan once, with the
    requested offset moved into the partition's log: at the end of the log where
    it lies beyond it, at the start where it lies below that, and unchanged
    otherwise (and where the cluster knows no start); so in a log that
    starts before its end it lies between the two. It prints one warning for each offset that is
    not the requested one. *)
Theorem clamped_spec `{OffsetLookup (result CommandError)} (requested : list (Partition * Z)) plan notices :
  lookup_wf → bt_wf requested → clamped requested = Ok (plan, notices) →
  ∃ starts ends,
    offsets (bt_keys requested) Earliest = Ok starts ∧
    offsets (bt_keys requested) Latest = Ok ends ∧
    plan.*1 ≡ₚ requested.*1 ∧
    (∀ p o, (p, o) ∈ plan → ∃ r last, (p, r) ∈ requested ∧ bt_get p ends = Some (Ok last) ∧
       (last < r → o = last) ∧
       (∀ start, bt_get p starts = Some (Ok start) → start ≤ last → start ≤ o ≤ last) ∧
       (r ≤ last → o = match bt_get p starts with Some (Ok start) => Z.max r start | _ => r end)) ∧
    length notices = length (filter (λ e, e ∉ plan) requested).
Proof.
  intros Hw Hr Hc. pose proof (clamped_keys _ _ _ Hc) as Hkeys.
  apply clamped_Ok in Hc as (a & b & starts & ends & entries & Ea & Ka & Eb & Kb & E & -> & ->).
  apply clamped_entries in E. exists a, b. split_and!; [done|done|done| |].
  - intros p o Hpo. apply elem_of_ordered, list_elem_of_fmap in Hpo as ([[q o'] w] & [= <- <-] & Hin).
    destruct (Forall2_elem_r _ _ _ _ E Hin) as ([p' r] & Hpr & Hp & l & Hl & Ho & _).
    simpl in *. subst p'. exists r, l.
    apply (known_get _ _ _ (Hw _ _ _ Eb) Kb) in Hl.
    destruct (known_get _ _ p (Hw _ _ _ Ea) Ka) as [_ Hs].
    subst o. assert (bt_get p starts = match bt_get p a with Some (Ok start) => Some start | _ => None end)
      as ->.
    { destruct (bt_get p starts) as [s|]; [by rewrite (proj1 (Hs s) eq_refl)|].
      destruct (bt_get p a) as [[s|]|]; [by apply Hs|done..]. }
    split_and!; [done|done|..]; unfold clamp_to; destruct (Z.ltb_spec l r); try lia;
      destruct (bt_get p a) as [[s|]|]; intros; simplify_eq; lia.
  - etrans; [apply (notices_length requested); [by apply bt_keys_NoDup|]|].
    + eapply Forall2_impl; [exact E|]. naive_solver.
    + f_equal. apply list_filter_iff. intros x. by rewrite elem_of_ordered.
Qed.

Lemma fixed_wf : lookup_wf.
Proof. intros partitions spec answers [= <-]. apply bt_collect_wf. Qed.

Lemma clamped_spec_witness :
  clamped (bt_collect (map (λ p, (p, 1)) sample_partitions)) =
    Ok ([(("orders", 0), 2); (("orders", 1), 0)],
        ["WARN New offset (1) is lower than earliest offset for topic partition orders-0. Value will be set to 2";
         "WARN New offset (1) is higher than latest offset for topic partition orders-1. Value will be set to 0"]) ∧
  ∃ starts ends,
    offsets sample_partitions Earliest = Ok starts ∧ offsets sample_partitions Latest = Ok ends.
Proof.
  split; [vm_compute; reflexivity|].
  destruct (clamped_spec (bt_collect (map (λ p, (p, 1)) sample_partitions)) _ _ fixed_wf
    (bt_collect_wf _) ltac:(vm_compute; reflexivity)) as (starts & ends & H1 & H2 & _).
  exists starts, ends. split; [exact H1|exact H2].
Defined.

(** ** Which partitions a plan covers *)

(** The partitions of a scenario's plan: those of the file for [--from-file],
    the group's otherwise. *)
Definition planned_partitions (scenario : Scenario) (partitions : list Partition)
    : list Partition :=
  match scenario with
  | FromFile None => []
  | FromFile (Some requested) => requested.*1
  | _ => partitions
  end.

Lemma filter_keys_perm (partitions : list Partition) (m : list (Partition * Z)) :
  NoDup partitions → bt_wf m → (∀ p, p ∈ partitions → is_Some (bt_get p m)) →
  (filter (λ '(p, _), p ∈ partitions) m).*1 ≡ₚ partitions.
Proof.
  intros Hn Hw Hall. apply NoDup_Permutation; [|done|].
  - apply (submseteq_NoDup _ m.*1); [|by apply bt_keys_NoDup].
    apply sublist_submseteq, fmap_sublist, sublist_filter.
  - intros p. rewrite list_elem_of_fmap. setoid_rewrite list_elem_of_filter. split.
    + intros ([q o] & -> & Hq & _). done.
    + intros Hp. destruct (Hall p Hp) as [o Ho]. exists (p, o). split_and!; [done..|].
      by apply bt_get_elem.
Qed.

Lemma shifted_keys committed shift partitions requested m :
  shifted committed shift partitions requested = Ok m → bt_wf requested →
  bt_wf m ∧ ∀ p, p ∈ m.*1 ↔ p ∈ requested.*1 ∨ p ∈ partitions.
Proof.
  revert requested. induction partitions as [|q partitions IH]; intros requested; simpl.
  { intros [= <-] ?. set_solver. }
  destruct (bt_get q committed) as [current|]; [|done]. simpl. intros Hm Hw.
  destruct (IH _ Hm) as [Hwm Hk]; [by apply bt_insert_wf|]. split; [done|].
  intros p. rewrite Hk. change ((bt_insert q ?v requested).*1) with (bt_keys (bt_insert q v requested)).
  rewrite elem_of_bt_keys, bt_get_insert by eauto using bt_insert_wf.
  change (requested.*1) with (bt_keys requested). rewrite elem_of_bt_keys by done.
  rewrite elem_of_cons. case_decide; naive_solver.
Qed.

Lemma omap_keys (f : Partition → option Z) (partitions : list Partition) :
  (∀ p, p ∈ partitions → is_Some (f p)) →
  (omap (λ p, (λ o, (p, o)) <$> f p) partitions).*1 = partitions.
Proof.
  induction partitions as [|p partitions IH]; intros Hall; [done|]. cbn.
  destruct (Hall p ltac:(set_solver)) as [o ->]. cbn. f_equal. apply IH. set_solver.
Qed.

Lemma by_timestamp_keys `{OffsetLookup (result CommandError)} partitions timestamp plan stdout :
  lookup_wf → by_timestamp partitions timestamp = Ok (plan, stdout) → plan.*1 ≡ₚ partitions.
Proof.
  intros Hw. unfold by_timestamp. destruct (required partitions _ _) as [found|] eqn:Ef; [|done].
  simpl. apply required_Ok in Ef as [_ Hf]; [|done]. set (empty := filter _ partitions).
  destruct (if bool_decide (empty = []) then _ else _) as [ends|] eqn:Ee; [|done]. simpl.
  intros [= <- _]. rewrite ordered_perm.
  assert (∀ p, p ∈ empty → is_Some (bt_get p ends)) as He.
  { case_bool_decide as E0; [rewrite E0; set_solver|]. by apply required_Ok in Ee as [_ He]. }
  rewrite <-(omap_keys (λ p, offset ← bt_get p found; if offset =? -1 then bt_get p ends else Some offset)
    partitions) at 2.
  - apply reflexive_eq. f_equal. apply omap_ext_in. intros p _.
    destruct (bt_get p found) as [o|]; [|done]. simpl. by destruct (if _ =? _ then _ else _).
  - intros p Hp. destruct (Hf p Hp) as [o Ho]. rewrite Ho. simpl.
    destruct (Z.eqb_spec o (-1)) as [->|]; [|done]. apply He. unfold empty.
    by apply list_elem_of_filter.
Qed.

Lemma to_offset_keys (offset : Z) (partitions : list Partition) :
  NoDup partitions → (bt_collect (map (λ p, (p, offset)) partitions)).*1 ≡ₚ partitions.
Proof.
  intros Hn. apply NoDup_Permutation; [by apply bt_keys_NoDup, bt_collect_wf|done|].
  assert ((map (λ p, (p, offset)) partitions).*1 = partitions) as Hk
    by (rewrite <-list_fmap_compose; apply list_fmap_id).
  intros p. rewrite list_elem_of_fmap. split.
  - intros ([q o] & -> & Hq). rewrite elem_of_bt_collect in Hq by (by rewrite Hk).
    apply list_elem_of_fmap in Hq as (? & [= <- <-] & ?). done.
  - intros Hp. exists (p, offset). split; [done|].
    apply elem_of_bt_collect; [exact (eq_ind_r NoDup Hn Hk)|]. apply list_elem_of_fmap. eauto.
Qed.

Lemma to_current_keys (partitions without : list Partition) (committed ends : list (Partition * Z)) :
  NoDup partitions → bt_wf ends → without = filter (λ p, bt_contains p committed = false) partitions →
  (∀ p, p ∈ without → is_Some (bt_get p ends)) →
  (omap (λ p, (λ offset, (p, offset)) <$> bt_get p committed) partitions ++
   filter (λ '(p, _), p ∈ without) ends).*1 ≡ₚ partitions.
Proof.
  intros Hn Hw -> He. rewrite fmap_app, filter_keys_perm; [|by apply NoDup_filter|done|done].
  clear Hn He. induction partitions as [|p partitions IH]; [done|]. rewrite filter_cons.
  cbn. destruct (bt_get p committed) as [o|] eqn:E; cbn; case_decide as Hc; unfold bt_contains in Hc;
    rewrite E in Hc; try done.
  - by rewrite IH.
  - rewrite <-Permutation_middle. by rewrite IH.
Qed.

(** A plan names each partition it is asked to reset exactly once, and no
    other: under every scenario the partitions of the plan are, up to the order
    Kafka prints them in, those of the group (or of the file), even where the
    lookup answers for partitions it was not asked for. *)
Theorem plan_partitions `{OffsetLookup (result CommandError)} scenario group partitions committed planned :
  lookup_wf → NoDup partitions → plan scenario group partitions committed = Ok planned →
  (plan_of planned).*1 ≡ₚ planned_partitions scenario partitions.
Proof.
  intros Hw Hn. unfold plan, planned_clamped.
  destruct scenario as [offset| | | |shift|timestamp|timestamp|[requested|]]; simpl.
  - destruct (clamped (M := result CommandError) _) as [[p w]|] eqn:E; [|done]. intros [= <-]. simpl.
    rewrite (clamped_keys _ _ _ E). by apply to_offset_keys.
  - destruct (required (M := result CommandError) _ _ _) as [starts|] eqn:E; [|done]. intros [= <-]. simpl.
    apply required_Ok in E as [??]; [|done]. rewrite ordered_perm. by apply filter_keys_perm.
  - destruct (required (M := result CommandError) _ _ _) as [starts|] eqn:E; [|done]. intros [= <-]. simpl.
    apply required_Ok in E as [??]; [|done]. rewrite ordered_perm. by apply filter_keys_perm.
  - set (without := filter _ partitions).
    destruct (if bool_decide (without = []) then _ else _) as [ends|] eqn:E; [|done].
    intros [= <-]. simpl. rewrite ordered_perm. apply to_current_keys; [done| |done|].
    all: case_bool_decide as E0; [simplify_eq; rewrite ?E0|by apply required_Ok in E as []].
    all: [> apply bt_nil_wf|set_solver].
  - destruct (shifted _ _ _ _) as [requested|] eqn:E; [|done]. simpl.
    destruct (clamped (M := result CommandError) _) as [[p w]|] eqn:Ec; [|done]. intros [= <-]. simpl.
    rewrite (clamped_keys _ _ _ Ec). apply shifted_keys in E as [Hwf Hk]; [|apply bt_nil_wf].
    apply NoDup_Permutation; [by apply bt_keys_NoDup|done|]. intros q. rewrite Hk. set_solver.
  - destruct (by_timestamp (M := result CommandError) _ _) as [[p w]|] eqn:E; [|done]. intros [= <-].
    by eapply by_timestamp_keys.
  - destruct (by_timestamp (M := result CommandError) _ _) as [[p w]|] eqn:E; [|done]. intros [= <-].
    by eapply by_timestamp_keys.
  - destruct (clamped (M := result CommandError) _) as [[p w]|] eqn:E; [|done]. intros [= <-]. simpl.
    by apply clamped_keys in E.
  - by intros [= <-].
Qed.

Lemma plan_partitions_witness :
  ∃ planned, plan ToCurrent "g" sample_partitions [(("orders", 0), 7)] = Ok planned ∧
    (plan_of planned).*1 ≡ₚ sample_partitions.
Proof.
  eexists. split; [vm_compute; reflexivity|].
  apply (plan_partitions ToCurrent "g" sample_partitions [(("orders", 0), 7)] _ fixed_wf).
  - repeat constructor; set_solver.
  - vm_compute. reflexivity.
Defined.

(** ** The calendar *)

Definition valid_date (year month day : Z) : Prop :=
  1 ≤ month ≤ 12 ∧ 1 ≤ day ≤ days_in_month year month.

(** The day after a date of the Gregorian calendar. *)
Definition next_day (year month day : Z) : Z * Z * Z :=
  if day <? days_in_month year month then (year, month, day + 1)
  else if month <? 12 then (year, month + 1, 1)
  else (year + 1, 1, 1).

Lemma year_step year :
  let days y := y / 400 * 146097 + ((y - y / 400 * 400) * 365 + (y - y / 400 * 400) ÷ 4
                - (y - y / 400 * 400) ÷ 100) in
  days year - days (year - 1) = if is_leap year then 366 else 365.
Proof.
  unfold is_leap. cbv zeta.
  destruct (Z.eqb_spec (Z.rem year 4) 0), (Z.eqb_spec (Z.rem year 100) 0), (Z.eqb_spec (Z.rem year 400) 0);
    simpl; Z.to_euclidean_division_equations; lia.
Qed.

(** The days before March of a year, and the days of a month from March on. *)
Definition march_days (y : Z) : Z :=
  y / 400 * 146097 + ((y - y / 400 * 400) * 365 + (y - y / 400 * 400) ÷ 4
    - (y - y / 400 * 400) ÷ 100).

Lemma days_from_civil_march year month day :
  days_from_civil year month day =
  march_days (if month <=? 2 then year - 1 else year) +
  ((153 * (month + (if 2 <? month then -3 else 9)) + 2) ÷ 5 + day - 1) - 719468.
Proof. unfold days_from_civil, march_days. lia. Qed.

Ltac each_month month :=
  let H := fresh in
  assert (month = 1 ∨ month = 2 ∨ month = 3 ∨ month = 4 ∨ month = 5 ∨ month = 6 ∨ month = 7 ∨
          month = 8 ∨ month = 9 ∨ month = 10 ∨ month = 11 ∨ month = 12) as H by lia;
  destruct_or! H; subst month.

(** [days_from_civil] counts the days of the Gregorian calendar from the
    epoch: 1 January 1970 is day 0, and the day after any date, with the leap
    years of [days_in_month], is one more. *)
Theorem days_from_civil_spec :
  days_from_civil 1970 1 1 = 0 ∧
  ∀ year month day, valid_date year month day →
    let '(year', month', day') := next_day year month day in
    valid_date year' month' day' ∧
    days_from_civil year' month' day' = days_from_civil year month day + 1.
Proof.
  split; [vm_compute; reflexivity|]. intros year month day [Hm Hd]. unfold next_day.
  destruct (Z.ltb_spec day (days_in_month year month)) as [Hlt|Hge].
  { rewrite !days_from_civil_march. unfold valid_date. lia. }
  assert (day = days_in_month year month) as -> by lia. pose proof (year_step year) as Hy.
  change (march_days year - march_days (year - 1) = (if is_leap year then 366 else 365)) in Hy.
  assert (march_days (year + 1 - 1) = march_days year) as Hy' by (f_equal; lia).
  unfold valid_date, days_in_month in *.
  each_month month; (destruct (is_leap year) eqn:Hl; simpl in *; rewrite !days_from_civil_march;
    rewrite ?Hl; simpl in *; rewrite ?Hy'; Z.to_euclidean_division_equations; lia).
Qed.

(** ** Timestamps as text *)

(** [n] in [w] decimal digits. *)
Fixpoint padded (w : nat) (n : Z) : string :=
  match w with
  | O => ""
  | S w => padded w (n / 10) +:+ String (ascii_of_N (48 + Z.to_N (n mod 10))) ""
  end.

Lemma digit_char n :
  0 ≤ n < 10 → byte_of (ascii_of_N (48 + Z.to_N n)) = 48 + n.
Proof. intros Hn. unfold byte_of. rewrite N_ascii_embedding by lia. lia. Qed.

Lemma padded_spec w n :
  0 ≤ n < 10 ^ Z.of_nat w →
  String.length (padded w n) = w ∧ all_bytes is_ascii_digit (padded w n) = true ∧
  ∀ acc, digits_value acc (padded w n) = Some (acc * 10 ^ Z.of_nat w + n).
Proof.
  revert n. induction w as [|w IH]; intros n Hn; cbn [padded].
  { split_and!; [done..|]. intros acc. cbn. f_equal. change (10 ^ Z.of_nat 0) with 1 in *. lia. }
  rewrite Nat2Z.inj_succ, Z.pow_succ_r in * by lia.
  destruct (IH (n / 10)) as (Hl & Ha & Hv).
  { split; [apply Z.div_pos; lia|apply Z.div_lt_upper_bound; lia]. }
  pose proof (Z.mod_pos_bound n 10 ltac:(lia)) as Hm.
  rewrite str_length_app, all_bytes_app, Hl, Ha. cbn [String.length all_bytes].
  unfold is_ascii_digit at 1. rewrite digit_char by done. split_and!; [lia| |].
  { destruct (Z.leb_spec 48 (48 + n mod 10)), (Z.leb_spec (48 + n mod 10) 57); simpl; lia. }
  intros acc. rewrite digits_value_app, Hv. cbn [digits_value mbind option_bind].
  unfold is_ascii_digit, digit_value. rewrite digit_char by done.
  destruct (Z.leb_spec 48 (48 + n mod 10)), (Z.leb_spec (48 + n mod 10) 57); simpl; try lia.
  f_equal. pose proof (Z.div_mod n 10 ltac:(lia)). lia.
Qed.

Lemma parse_i64_padded w n :
  (0 < w ≤ 18)%nat → 0 ≤ n < 10 ^ Z.of_nat w → parse_i64 (padded w n) = Some n.
Proof.
  intros Hw Hn. destruct (padded_spec w n Hn) as (Hl & Ha & Hv). specialize (Hv 0).
  unfold parse_i64, parse_signed.
  assert (signed_value (padded w n) = Some n) as ->.
  { destruct (padded w n) as [|c s] eqn:E; [cbn in Hl; lia|].
    cbn in Ha. apply andb_true_iff in Ha as [Hc _].
    assert (signed_value (String c s) = unsigned_value (String c s)) as ->.
    { destruct c as [[][][][][][][][]]; try done; by vm_compute in Hc. }
    unfold unsigned_value. by rewrite Hv. }
  cbn. apply try_signed_Some. split; [done|].
  assert (10 ^ Z.of_nat w ≤ 10 ^ 18) by (apply Z.pow_le_mono_r; lia).
  unfold in_signed. change (10 ^ 18) with 1000000000000000000 in *. simpl. lia.
Qed.

Lemma digits_padded w n :
  (0 < w ≤ 18)%nat → 0 ≤ n < 10 ^ Z.of_nat w → digits (padded w n) w = Some n.
Proof.
  intros Hw Hn. unfold digits. destruct (padded_spec w n Hn) as (-> & -> & _).
  rewrite bool_decide_eq_true_2 by done. by apply parse_i64_padded.
Qed.

Lemma split_before_app p a c b :
  all_bytes (λ c, negb (p c)) a = true → p c = true →
  split_before p (a +:+ String c b) = Some (a, String c b).
Proof.
  intros Ha Hc. induction a as [|x a IH]; [change ("" +:+ ?s) with s; cbn; by rewrite Hc|].
  rewrite str_app_cons. cbn in *.
  apply andb_true_iff in Ha as [Hx%negb_true_iff Ha]. by rewrite Hx, IH.
Qed.

Lemma padded_no w n (p : ascii → bool) :
  0 ≤ n < 10 ^ Z.of_nat w → (∀ c, is_ascii_digit c = true → p c = false) →
  all_bytes (λ c, negb (p c)) (padded w n) = true.
Proof.
  intros Hn Hp. destruct (padded_spec w n Hn) as (_ & Ha & _). eapply all_bytes_impl; [|exact Ha].
  intros c Hc. by rewrite Hp.
Qed.

Lemma digit_not_sep c sep :
  is_ascii_digit sep = false → is_ascii_digit c = true → (c =? sep)%char = false.
Proof. intros Hs Hc. destruct (Ascii.eqb_spec c sep) as [->|]; congruence. Qed.

Lemma digit_not_in c set :
  forallb (λ s, negb (is_ascii_digit s)) set = true → is_ascii_digit c = true →
  char_in set c = false.
Proof.
  intros Hs Hc. unfold char_in. apply bool_decide_eq_false_2. intros Hin.
  rewrite forallb_forall in Hs. specialize (Hs c). rewrite Hc in Hs.
  apply list_elem_of_In, Hs in Hin. done.
Qed.

(** A date, a clock and a zone as [--to-datetime] takes them. *)
Definition date_text (year month day : Z) : string :=
  padded 4 year +:+ "-" +:+ padded 2 month +:+ "-" +:+ padded 2 day.
Definition clock_text (hour minute second millis : Z) : string :=
  padded 2 hour +:+ ":" +:+ padded 2 minute +:+ ":" +:+ padded 2 second +:+ "." +:+ padded 3 millis.
Definition zone_text (zone : option (bool * Z * Z)) : string :=
  match zone with
  | None => ""
  | Some (west, hours, minutes) =>
      (if west then "-" else "+") +:+ padded 2 hours +:+ ":" +:+ padded 2 minutes
  end.
Definition zone_offset (zone : option (bool * Z * Z)) : Z :=
  match zone with
  | None => 0
  | Some (west, hours, minutes) => (if west then -1 else 1) * (hours * 60 + minutes)
  end.

Ltac separated :=
  try (rewrite !all_bytes_app, ?andb_true_iff; split_and!);
  first
    [ apply padded_no; [simpl; lia|intros c Hc; first
        [ apply digit_not_sep; [done|exact Hc] | apply digit_not_in; [done|exact Hc] ]]
    | done ].

Lemma days_in_month_le year month : days_in_month year month ≤ 31.
Proof. unfold days_in_month. repeat case_match; lia. Qed.

Lemma parse_date_text year month day :
  0 ≤ year < 10000 → valid_date year month day →
  parse_date (date_text year month day) = Some (days_from_civil year month day).
Proof.
  intros Hy [Hm Hd]. pose proof (days_in_month_le year month). unfold parse_date, date_text.
  rewrite !str_app_sep, !(split_char_app "-"%char), split_char_whole by separated.
  rewrite !digits_padded by (simpl; lia). cbn [mbind option_bind].
  replace ((1 <=? month) && (month <=? 12) && (1 <=? day) && (day <=? days_in_month year month))
    with true by lia. done.
Qed.

Lemma parse_clock_text hour minute second millis :
  0 ≤ hour < 24 → 0 ≤ minute < 60 → 0 ≤ second < 60 → 0 ≤ millis < 1000 →
  parse_clock (clock_text hour minute second millis) =
  Some ((hour * 60 + minute) * 60 + second, millis).
Proof.
  intros Hh Hm Hs Hms. unfold parse_clock, clock_text.
  set (hms := padded 2 hour +:+ ":" +:+ padded 2 minute +:+ ":" +:+ padded 2 second).
  replace (padded 2 hour +:+ _) with (hms +:+ String "." (padded 3 millis))
    by (unfold hms; by rewrite !str_app_assoc).
  rewrite split_once_app; [|unfold hms; separated|done]. cbn [mbind option_bind].
  unfold hms. rewrite !str_app_sep, !(split_char_app ":"%char), split_char_whole by separated.
  rewrite !digits_padded by (simpl; lia). cbn [mbind option_bind].
  destruct (padded_spec 3 millis ltac:(simpl; lia)) as (Hl & -> & _). rewrite Hl.
  rewrite bool_decide_eq_false_2 by (intros E; by rewrite E in Hl). cbn [negb andb Nat.leb].
  rewrite parse_i64_padded by (simpl; lia). cbn [mbind option_bind].
  replace ((hour <=? 23) && (minute <=? 59) && (second <=? 59)) with true by lia. done.
Qed.

Lemma slice_at_app a b :
  match b with String c _ => is_continuation c = false | _ => True end →
  slice_at (String.length a) (a +:+ b) = Done (a, b).
Proof.
  intros Hb. induction a as [|c a IH].
  - change ("" +:+ b) with b. cbn. destruct b as [|c b]; [done|]. by rewrite Hb.
  - rewrite str_app_cons. cbn. by rewrite IH.
Qed.

Lemma padded_head w n :
  0 ≤ n < 10 ^ Z.of_nat w →
  match padded w n with String c _ => is_continuation c = false | _ => True end.
Proof.
  intros Hn. destruct (padded_spec w n Hn) as (_ & Ha & _). destruct (padded w n) as [|c s]; [done|].
  cbn in Ha. apply andb_true_iff in Ha as [Hc _]. unfold is_continuation, is_ascii_digit in *. lia.
Qed.

Lemma zone_minutes_text west hours minutes :
  0 ≤ hours < 24 → 0 ≤ minutes < 60 →
  zone_minutes (zone_text (Some (west, hours, minutes))) =
  Done (Some (zone_offset (Some (west, hours, minutes)))).
Proof.
  intros Hh Hm. unfold zone_minutes, zone_text, zone_offset.
  replace ((if west then "-" else "+") +:+ _) with
    (String (if west then "-"%char else "+"%char) (padded 2 hours +:+ String ":" (padded 2 minutes)))
    by (destruct west; by rewrite !str_app_sep).
  rewrite bool_decide_eq_false_2 by (by destruct west).
  unfold remove_first. rewrite split_once_app; [|separated|done].
  destruct (padded_spec 2 hours ltac:(simpl; lia)) as (Hl & _ & _).
  destruct (padded_spec 2 minutes ltac:(simpl; lia)) as (Hl' & _ & _).
  rewrite str_length_app, Hl, Hl'. cbn [Nat.add].
  rewrite <-Hl at 1. rewrite slice_at_app by (apply padded_head; simpl; lia).
  cbn [mbind outcome_bind]. rewrite !digits_padded by (simpl; lia).
  destruct west; cbn -[padded];
    replace ((hours <? 24) && (minutes <? 60)) with true by lia; done.
Qed.

Lemma date_text_no_T year month day :
  0 ≤ year < 10000 → 0 ≤ month < 100 → 0 ≤ day < 100 →
  all_bytes (λ c, negb (char_in ["T"%char] c)) (date_text year month day) = true.
Proof. intros. unfold date_text. separated. Qed.

Lemma clock_text_no_zone hour minute second millis :
  0 ≤ hour < 100 → 0 ≤ minute < 100 → 0 ≤ second < 100 → 0 ≤ millis < 1000 →
  all_bytes (λ c, negb (zone_start c)) (clock_text hour minute second millis) = true.
Proof. intros. unfold clock_text, zone_start. separated. Qed.

Lemma parse_instant_text date clock c zone days seconds millis :
  all_bytes (λ c, negb (char_in ["T"%char] c)) date = true →
  all_bytes (λ c, negb (zone_start c)) clock = true → zone_start c = true →
  parse_date date = Some days → parse_clock clock = Some (seconds, millis) →
  parse_instant (date +:+ String "T" (clock +:+ String c zone)) =
  minutes ← zone_minutes (String c zone);
  Done (minutes ← minutes; Some ((days * 86400 + seconds - minutes * 60) * 1000 + millis)).
Proof.
  intros HT Hz Hc Hd Hk. unfold parse_instant.
  by rewrite split_once_app, Hd, split_before_app, Hk by done.
Qed.

(** [parse_datetime] reads every timestamp of the form
    [YYYY-MM-DDThh:mm:ss.SSS] with a valid date and clock, with no zone (UTC) or
    a zone [+hh:mm] or [-hh:mm], as the milliseconds since the epoch of that
    instant. *)
Theorem parse_datetime_reads year month day hour minute second millis zone :
  0 ≤ year < 10000 → valid_date year month day →
  0 ≤ hour < 24 → 0 ≤ minute < 60 → 0 ≤ second < 60 → 0 ≤ millis < 1000 →
  match zone with Some (_, hours, minutes) => 0 ≤ hours < 24 ∧ 0 ≤ minutes < 60 | None => True end →
  parse_datetime (date_text year month day +:+ "T" +:+ clock_text hour minute second millis +:+
                  zone_text zone) =
  Done (Ok ((days_from_civil year month day * 86400 + (hour * 60 + minute) * 60 + second
             - zone_offset zone * 60) * 1000 + millis)).
Proof.
  intros Hy Hd Hh Hm Hs Hms Hz. pose proof (days_in_month_le year month). destruct Hd as [Hmo Hda].
  pose proof (date_text_no_T year month day ltac:(lia) ltac:(lia) ltac:(lia)) as HT.
  pose proof (clock_text_no_zone hour minute second millis ltac:(lia) ltac:(lia) ltac:(lia) ltac:(lia))
    as HC.
  assert (parse_date (date_text year month day) = Some _) as HD by (apply parse_date_text; done).
  pose proof (parse_clock_text hour minute second millis Hh Hm Hs Hms) as HK.
  unfold parse_datetime. rewrite str_app_sep, split_once_app by done.
  rewrite contains_byte_app, contains_byte_none, HC. cbn [negb orb].
  destruct zone as [[[west hours] minutes]|].
  - destruct Hz as [Hzh Hzm]. pose proof (zone_minutes_text west hours minutes Hzh Hzm) as HZ.
    assert (∃ c z, zone_text (Some (west, hours, minutes)) = String c z ∧ zone_start c = true)
      as (c & z & Ez & Hc) by (destruct west; eexists _, _; split; [apply str_app_sep| |apply str_app_sep|]; done).
    rewrite Ez in *. cbn [contains_byte]. rewrite Hc. cbn [orb].
    erewrite parse_instant_text, HZ by done. cbn. do 3 f_equal. lia.
  - cbn [zone_text contains_byte zone_offset]. rewrite str_app_nil_r.
    rewrite !(str_app_assoc (date_text _ _ _)), !(str_app_cons _ (clock_text _ _ _ _)).
    erewrite parse_instant_text by done. change (zone_minutes "Z") with (Done (Some 0)). cbn.
    do 3 f_equal. lia.
Qed.

Lemma parse_datetime_reads_witness :
  parse_datetime "2024-02-29T12:30:15.250-01:30" = Done (Ok 1709215215250).
Proof.
  apply (parse_datetime_reads 2024 2 29 12 30 15 250 (Some (true, 1, 30)));
    try (vm_compute; split; congruence); vm_compute; repeat split; congruence.
Defined.

(** ** ASCII texts *)

Definition ascii_text (s : string) : bool := all_bytes (λ c, byte_of c <? 128) s.

Lemma split_before_eq p s a b : split_before p s = Some (a, b) → s = a +:+ b.
Proof.
  revert a. induction s as [|c s IH]; intros a; cbn; [done|]. destruct (p c).
  - by intros [= <- <-].
  - destruct (split_before p s) as [[x y]|]; [|done]. intros [= <- <-]. by rewrite (IH x eq_refl) at 1.
Qed.

Lemma split_once_ascii p s a b :
  split_once p s = Some (a, b) → ascii_text s = true → ascii_text a = true ∧ ascii_text b = true.
Proof.
  intros [c ->]%split_once_eq. unfold ascii_text. rewrite all_bytes_app. cbn.
  rewrite !andb_true_iff. naive_solver.
Qed.

Lemma slice_at_ascii n s :
  (n ≤ String.length s)%nat → ascii_text s = true → ∃ r, slice_at n s = Done r.
Proof.
  revert n. induction s as [|c s IH]; intros [|n] Hn Ha; cbn in *; [by eexists|lia| |].
  - apply andb_true_iff in Ha as [Hc _]. unfold is_continuation.
    replace ((128 <=? byte_of c) && (byte_of c <? 192)) with false by lia. by eexists.
  - apply andb_true_iff in Ha as [_ Ha]. destruct (IH n ltac:(lia) Ha) as [[a b] ->]. by eexists.
Qed.

Lemma remove_first_ascii p s : ascii_text s = true → ascii_text (remove_first p s) = true.
Proof.
  intros Hs. unfold remove_first. destruct (split_once p s) as [[a b]|] eqn:E; [|done].
  apply split_once_ascii in E as [??]; [|done]. unfold ascii_text in *.
  by rewrite all_bytes_app, andb_true_iff.
Qed.

Lemma zone_minutes_ascii zone : ascii_text zone = true → ∃ r, zone_minutes zone = Done r.
Proof.
  intros Ha. unfold zone_minutes. case_bool_decide; [by eexists|]. destruct zone as [|c rest]; [by eexists|].
  destruct (negb _); [by eexists|]. cbn in Ha. apply andb_true_iff in Ha as [_ Ha].
  apply (remove_first_ascii (char_in [":"%char])) in Ha. set (r := remove_first _ rest) in *.
  clearbody r. destruct (String.length r) as [|[|[|[|[|]]]]] eqn:El; try by eexists.
  destruct (slice_at_ascii 2 r ltac:(lia) Ha) as [[a b] ->]. by eexists.
Qed.

Lemma parse_instant_ascii value : ascii_text value = true → ∃ r, parse_instant value = Done r.
Proof.
  intros Ha. unfold parse_instant. destruct (split_once _ value) as [[date time]|] eqn:E; [|by eexists].
  apply split_once_ascii in E as [_ Ht]; [|done].
  destruct (parse_date date); [|by eexists].
  destruct (split_before zone_start time) as [[clock zone]|] eqn:Eb; [|by eexists].
  apply split_before_eq in Eb as ->. unfold ascii_text in Ht. rewrite all_bytes_app in Ht.
  apply andb_true_iff in Ht as [_ Hz]. destruct (parse_clock clock) as [[s m]|]; [|by eexists].
  destruct (zone_minutes_ascii zone Hz) as [r ->]. by eexists.
Qed.

(** ** Where [parse_datetime] panics *)

Lemma split_once_Some p s a b :
  split_once p s = Some (a, b) ↔
  ∃ c, s = a +:+ String c b ∧ p c = true ∧ all_bytes (λ c, negb (p c)) a = true.
Proof.
  split; [|intros (c & -> & Hc & Ha); by apply split_once_app].
  revert a. induction s as [|c s IH]; intros a; cbn; [done|]. destruct (p c) eqn:Hc.
  - intros [= <- <-]. by exists c.
  - destruct (split_once p s) as [[x y]|]; [|done]. intros [= <- <-].
    destruct (IH x eq_refl) as (d & -> & Hd & Hx). exists d. cbn. by rewrite Hc.
Qed.

Lemma split_before_Some p s a b :
  split_before p s = Some (a, b) →
  ∃ c z, b = String c z ∧ s = a +:+ b ∧ p c = true ∧ all_bytes (λ c, negb (p c)) a = true.
Proof.
  revert a. induction s as [|c s IH]; intros a; cbn; [done|]. destruct (p c) eqn:Hc.
  - intros [= <- <-]. by exists c, s.
  - destruct (split_before p s) as [[x y]|]; [|done]. intros [= <- <-].
    destruct (IH x eq_refl) as (d & z & -> & -> & Hd & Hx). exists d, z. cbn. by rewrite Hc.
Qed.

(** A zone that [zone_minutes] cuts inside a character: a sign and, less its first
    colon, four bytes of which the third continues a character. *)
Definition cut_inside_character (zone : string) : Prop :=
  ∃ sign rest a b c d, zone = String sign rest ∧ char_in ["+"; "-"]%char sign = true ∧
    remove_first (char_in [":"%char]) rest = String a (String b (String c (String d ""))) ∧
    is_continuation c = true.

Lemma slice_at_panic r :
  String.length r = 4%nat →
  slice_at 2 r = Panic ↔
  ∃ a b c d, r = String a (String b (String c (String d ""))) ∧ is_continuation c = true.
Proof.
  destruct r as [|a [|b [|c [|d [|]]]]]; try discriminate. intros _. cbn.
  destruct (is_continuation c) eqn:Hc; cbn; [naive_solver|].
  split; [done|]. intros (? & ? & ? & ? & [= <- <- <- <-] & ?). congruence.
Qed.

Lemma zone_minutes_panic zone : zone_minutes zone = Panic ↔ cut_inside_character zone.
Proof.
  unfold zone_minutes, cut_inside_character. case_bool_decide as Hz.
  { subst. split; [done|]. intros (? & ? & ? & ? & ? & ? & [= <- <-] & [=] & _). }
  destruct zone as [|s rest]; [split; [done|naive_solver]|].
  destruct (char_in ["+"; "-"]%char s) eqn:Hs; cbn [negb];
    [|split; [done|]; intros (? & ? & ? & ? & ? & ? & [= <- <-] & ? & _); congruence].
  set (r := remove_first _ rest). destruct (decide (String.length r = 4%nat)) as [Hr|Hr].
  - rewrite Hr. pose proof (slice_at_panic r Hr) as Hp.
    trans (slice_at 2 r = Panic); [by destruct (slice_at 2 r) as [[]| |]|]. rewrite Hp. clear Hp Hr.
    split; [intros (a & b & c & d & ? & ?); by exists s, rest, a, b, c, d|].
    intros (? & ? & a & b & c & d & [= <- <-] & _ & ? & ?). by exists a, b, c, d.
  - split; [intros H; exfalso; destruct (String.length r) as [|[|[|[|[|]]]]]; done|].
    intros (? & ? & a & b & c & d & [= <- <-] & _ & E & _). exfalso. apply Hr. subst r. by rewrite E.
Qed.

(** A date, a [T], a clock and a zone that is cut inside a character. *)
Definition panicking_instant (value : string) : Prop :=
  ∃ date clock zone, value = date +:+ "T" +:+ clock +:+ zone ∧
    contains_byte (char_in ["T"%char]) date = false ∧ contains_byte zone_start clock = false ∧
    parse_date date ≠ None ∧ parse_clock clock ≠ None ∧ cut_inside_character zone.

Lemma parse_instant_panic value : parse_instant value = Panic ↔ panicking_instant value.
Proof.
  unfold parse_instant, panicking_instant. split.
  - destruct (split_once _ value) as [[date time]|] eqn:E; [|done].
    apply split_once_Some in E as (t & -> & Ht & Hd). apply bool_decide_eq_true in Ht.
    apply list_elem_of_singleton in Ht as ->. destruct (parse_date date) eqn:Ed; [|done].
    destruct (split_before zone_start time) as [[clock zone]|] eqn:Eb; [|done].
    apply split_before_Some in Eb as (c & rest & _ & -> & _ & Hc).
    destruct (parse_clock clock) as [[s m]|] eqn:Ek; [|done]. intros Hz.
    exists date, clock, zone. rewrite !contains_byte_none, Hd, Hc. split_and!; try done; [congruence..|].
    apply zone_minutes_panic. by destruct (zone_minutes zone) as [[]| |].
  - intros (date & clock & zone & -> & Hd & Hc & Ed & Ek & Hz).
    pose proof Hz as Hp%zone_minutes_panic. destruct Hz as (s & rest & _ & _ & _ & _ & -> & Hs & _).
    rewrite contains_byte_none in Hd, Hc. apply negb_false_iff in Hd, Hc.
    rewrite str_app_sep, split_once_app by done.
    rewrite split_before_app; [|done|].
    + destruct (parse_date date); [|done]. destruct (parse_clock clock) as [[]|]; [|done]. by rewrite Hp.
    + apply bool_decide_eq_true in Hs. apply bool_decide_eq_true. set_solver.
Qed.

(** A text without a zone, as it is and as [parse_datetime] completes it. *)
Lemma parse_instant_no_zone date time :
  contains_byte (char_in ["T"%char]) date = false → contains_byte zone_start time = false →
  parse_instant (date +:+ String "T" time) ≠ Panic ∧
  parse_instant ((date +:+ String "T" time) +:+ "Z") ≠ Panic.
Proof.
  rewrite str_app_assoc, str_app_cons.
  rewrite !contains_byte_none, !negb_false_iff. intros Hd Ht. unfold parse_instant.
  rewrite !split_once_app, split_before_app by done. split.
  - destruct (parse_date date); [|done].
    destruct (split_before zone_start time) as [[clock zone]|] eqn:Eb; [|done].
    apply split_before_Some in Eb as (c & rest & -> & -> & Hc & _).
    rewrite all_bytes_app in Ht. cbn in Ht. rewrite Hc, andb_false_r in Ht. done.
  - destruct (parse_date date); [|done]. by destruct (parse_clock time) as [[]|].
Qed.

(** C39. The zone of [--to-datetime] is cut after its second byte, without a look
    at the characters: [parse_datetime] panics, instead of reporting the value,
    on exactly the texts that begin with a valid date and a valid clock and end
    in a zone of a sign and four bytes (less the first colon) of which the third
    is inside a character. No text of ASCII characters is one of them. *)
Theorem parse_datetime_panics value :
  (parse_datetime value = Panic ↔ panicking_instant value) ∧
  (ascii_text value = true → ∃ r, parse_datetime value = Done r).
Proof.
  unfold parse_datetime. split.
  - rewrite <-parse_instant_panic. destruct (split_once _ value) as [[date time]|] eqn:E;
      [|unfold parse_instant; by rewrite E].
    destruct (contains_byte zone_start time) eqn:Hz; [by destruct (parse_instant value) as [[]| |]|].
    apply split_once_Some in E as (t & -> & Ht & Hd). apply bool_decide_eq_true in Ht.
    apply list_elem_of_singleton in Ht as ->.
    destruct (parse_instant_no_zone date time) as [H1 H2];
      [by rewrite contains_byte_none, Hd|done|].
    split; [|done]. by destruct (parse_instant ((date +:+ String "T" time) +:+ "Z")) as [[]| |].
  - destruct (split_once _ value) as [[date time]|] eqn:E; [|by eexists]. intros Ha.
    assert (ascii_text (if contains_byte zone_start time then value else value +:+ "Z") = true) as Ha'.
    { destruct (contains_byte _ _); [done|]. unfold ascii_text in *. by rewrite all_bytes_app, Ha. }
    destruct (parse_instant_ascii _ Ha') as [r ->]. by eexists.
Qed.

(** The zone "+aéb" is cut inside a character, "+éé" between two. *)
Example zone_cuts :
  parse_datetime ("2024-01-01T00:00:00.000+a" +:+ String (ascii_of_nat 195) (String (ascii_of_nat 169) "b"))
    = Panic ∧
  zone_minutes (String "+" (String (ascii_of_nat 195) (String (ascii_of_nat 169)
    (String (ascii_of_nat 195) (String (ascii_of_nat 169) ""))))) = Done None.
Proof. split; vm_compute; reflexivity. Qed.

(** ** Where [parse_duration] overflows *)

(** What the two builds make of a step: the same where overflow is not met, a
    panic of the checked one otherwise; the unchecked one always answers. *)
Definition unchecked_answers {A} (checked unchecked : outcome A) : Prop :=
  ∃ a, unchecked = Done a ∧ (checked = Done a ∨ checked = Panic).

Lemma unchecked_done {A} (a : A) : unchecked_answers (Done a) (Done a).
Proof. exists a. auto. Qed.

Lemma unchecked_bind {A B} (p q : outcome A) (f g : A → outcome B) :
  unchecked_answers p q → (∀ a, unchecked_answers (f a) (g a)) →
  unchecked_answers (p ≫= f) (q ≫= g).
Proof.
  intros (a & -> & Hp) Hf. destruct (Hf a) as (b & Hb & Ha). exists b. split; [done|].
  destruct Hp as [->| ->]; [done|by right].
Qed.

Lemma unchecked_i128 z : unchecked_answers (i128 true z) (i128 false z).
Proof. unfold i128. destruct (fits_signed 128 z); [apply unchecked_done|]. eexists. eauto. Qed.

#[local] Hint Resolve unchecked_done unchecked_i128 : krabka.

(** Walks the steps that both builds share. *)
Ltac unchecked :=
  repeat first
    [ progress intros
    | solve [auto with krabka]
    | apply unchecked_bind
    | lazymatch goal with
      | |- unchecked_answers (match ?x with _ => _ end) _ => destruct x
      end ].

Lemma unchecked_add_scaled millis text scale :
  unchecked_answers (add_scaled true millis text scale) (add_scaled false millis text scale).
Proof. unfold add_scaled. unchecked. Qed.

Lemma unchecked_add_seconds millis time :
  unchecked_answers (add_seconds true millis time) (add_seconds false millis time).
Proof. unfold add_seconds. unchecked. Qed.

Lemma unchecked_add_unit unit scale state :
  unchecked_answers (add_unit true unit scale state) (add_unit false unit scale state).
Proof. unfold add_unit. pose proof unchecked_add_scaled. unchecked. Qed.
#[local] Hint Resolve unchecked_add_scaled unchecked_add_seconds unchecked_add_unit : krabka.

Lemma unchecked_duration_time time millis any :
  unchecked_answers (duration_time true time millis any) (duration_time false time millis any).
Proof. unfold duration_time. unchecked. Qed.

Lemma unchecked_duration_date date :
  unchecked_answers (duration_date true date) (duration_date false date).
Proof. unfold duration_date. unchecked. Qed.
#[local] Hint Resolve unchecked_duration_time unchecked_duration_date : krabka.

Lemma unchecked_duration value :
  unchecked_answers (parse_duration true value) (parse_duration false value).
Proof. unfold parse_duration, then_or_invalid. unchecked. Qed.

Lemma upper_pretty (z : Z) : to_ascii_uppercase (pretty z) = pretty z.
Proof.
  pose proof (pretty_bytes z) as H. induction (pretty z) as [|c s IH]; [done|]. cbn in *.
  apply andb_true_iff in H as [Hc Hs]. unfold to_ascii_uppercase in *. cbn. rewrite IH by done. f_equal.
  by destruct c as [[] [] [] [] [] [] [] []].
Qed.

Lemma pretty_N_digits (n : N) : all_bytes is_ascii_digit (pretty n) = true.
Proof.
  pose proof (unsigned_value_pretty n) as H. unfold unsigned_value in H.
  destruct (pretty n) as [|c s] eqn:E; [by apply pretty_N_nonempty in E|].
  by apply digits_value_digits in H.
Qed.

Lemma duration_number_pretty z : in_signed 128 z → duration_number (pretty z) = Some z.
Proof.
  intros Hz. unfold duration_number. rewrite parse_signed_pretty by done.
  assert (∀ n : N, negb (bool_decide (pretty n = "")) && all_bytes is_ascii_digit (pretty n) = true) as Hn.
  { intros n. by rewrite pretty_N_digits, bool_decide_eq_false_2 by apply pretty_N_nonempty. }
  destruct z as [|p|p]; [done| |].
  - change (pretty (Z.pos p)) with (pretty (N.pos p)). specialize (Hn (N.pos p)).
    destruct (pretty (N.pos p)) as [|c s] eqn:E; [done|].
    destruct (char_in _ c) eqn:Hc; [|by rewrite Hn].
    apply pretty_N_head in E. apply bool_decide_eq_true in Hc.
    exfalso. set_unfold in Hc. destruct Hc as [->|[->|[]]]; done.
  - change (pretty (Z.neg p)) with (String "-" (pretty (N.pos p))).
    cbv beta iota zeta. change (char_in ["+"; "-"]%char "-"%char) with true. cbv iota. by rewrite Hn.
Qed.

(** What [n] days read as, once their milliseconds are known. *)
Definition duration_result (millis : Z) : result CommandError Z :=
  ok_or (try_signed 64 millis) INVALID_DURATION.

Lemma upper_app a b : to_ascii_uppercase (a +:+ b) = to_ascii_uppercase a +:+ to_ascii_uppercase b.
Proof.
  induction a as [|c a IH]; [done|]. rewrite str_app_cons. unfold to_ascii_uppercase in *. cbn.
  by rewrite IH.
Qed.

Lemma parse_duration_days checks n :
  in_signed 128 n →
  parse_duration checks ("P" +:+ pretty n +:+ "D") =
  millis ← i128 checks (n * 86400000); Done (duration_result millis).
Proof.
  intros Hn. unfold parse_duration. rewrite !upper_app, upper_pretty.
  change (duration_sign _) with (false, "P" +:+ pretty n +:+ "D"). cbv beta iota zeta.
  rewrite strip_prefix_app. unfold then_or_invalid at 1. cbn [mbind outcome_bind].
  unfold duration_parts. rewrite split_once_none.
  2: { rewrite all_bytes_app. apply andb_true_iff. split; [|done].
       eapply all_bytes_impl; [|apply pretty_bytes]. intros c.
       by destruct c as [[] [] [] [] [] [] [] []]. }
  unfold then_or_invalid at 1. cbn [mbind outcome_bind]. unfold duration_date.
  rewrite bool_decide_eq_false_2 by (by destruct (pretty n)).
  rewrite strip_suffix_snoc. unfold add_scaled. rewrite duration_number_pretty by done.
  unfold i128. destruct (fits_signed 128 (n * 86400000)) eqn:Hf.
  - cbn [mbind outcome_bind]. rewrite Z.add_0_l, Hf. done.
  - destruct checks; cbn [mbind outcome_bind]; [done|]. rewrite Z.add_0_l.
    by rewrite (proj2 (fits_signed_spec 128 _) (wrap_range 128 _ ltac:(lia))).
Qed.

(** C40. The sum of [parse_duration] is kept in 128 bits without a check. A build
    without overflow checks always answers, and a build with them answers the
    same or panics. Both panic and wrong answer are met: of a number of days that
    128 bits hold, the milliseconds are read, and refused beyond 64 bits, as long
    as 128 bits hold them; beyond, the checked build panics and the unchecked one
    takes the wrapped product, a duration that was not given, for it. *)
Theorem parse_duration_overflows (n : Z) :
  in_signed 128 n →
  (∀ value, unchecked_answers (parse_duration true value) (parse_duration false value)) ∧
  parse_duration true ("P" +:+ pretty n +:+ "D") =
    (if fits_signed 128 (n * 86400000) then Done (duration_result (n * 86400000)) else Panic) ∧
  parse_duration false ("P" +:+ pretty n +:+ "D") =
    Done (duration_result (if fits_signed 128 (n * 86400000) then n * 86400000
                           else wrap 128 (n * 86400000))).
Proof.
  intros Hn. split; [apply unchecked_duration|]. rewrite !parse_duration_days by done.
  unfold i128. by destruct (fits_signed _ _).
Qed.

(** [2 ^ 118] days read as no time at all. *)
Lemma parse_duration_overflows_witness :
  parse_duration true "P332306998946228968225951765070086144D" = Panic ∧
  parse_duration false "P332306998946228968225951765070086144D" = Done (Ok 0).
Proof.
  destruct (parse_duration_overflows (2 ^ 118)) as (_ & H1 & H2).
  { unfold in_signed. lia. }
  split; [exact H1|exact H2].
Defined.
