(* ===== verification/Patterns.v ===== *)
(** Topic patterns: Kafka's [TopicFilter.IncludeList], which [get_offsets.rs] and
    [topics/java.rs] each build over the crate [regex]. The crate is the class
    [RegexCrate]: a pattern compiles to a matcher or is refused with a text. *)

From Stdlib Require Import Ascii.
From S2P Require Import Prelude Collections Rust.

Class RegexCrate := {
  Regex : Type;
  regex_new : string → result string Regex;
  is_match : Regex → string → bool
}.

(** [s.replace(c, t)]. *)
Fixpoint replace_char (c : ascii) (t s : string) : string :=
  match s with
  | EmptyString => ""
  | String d s => (if (d =? c)%char then t else String d "") +:+ replace_char c t s
  end.

(** A double quote and a single quote. *)
Definition is_quote (c : ascii) : bool := (byte_of c =? 34) || (byte_of c =? 39).

(** [s.trim_start_matches(p)] and [s.trim_end_matches(p)]. *)
Fixpoint trim_start_matches (p : ascii → bool) (s : string) : string :=
  match s with
  | EmptyString => ""
  | String c s' => if p c then trim_start_matches p s' else s
  end.
Definition trim_end_matches (p : ascii → bool) (s : string) : string :=
  str_rev (trim_start_matches p (str_rev s)).

(** The pattern of a [--topic] value: trimmed, commas as alternatives, spaces
    and surrounding quotes removed. *)
Definition cleaned_pattern (raw : string) : string :=
  trim_end_matches is_quote
    (trim_start_matches is_quote (replace_char " " "" (replace_char "," "|" (trim raw)))).

Section Filters.
Context `{RegexCrate}.

(** [TopicPattern::new] and [IncludeList::new]: the pattern against the whole
    name. *)
Definition include_list (raw : string) : result string Regex :=
  let cleaned := cleaned_pattern raw in
  map_err (λ _, cleaned +:+ " is an invalid regex.") (regex_new ("^(?:" +:+ cleaned +:+ ")$")).
End Filters.

(** Java's [String.split]: trailing empty parts are dropped, but from an input
    without a separator. *)
Definition drop_empty_tail (parts : list string) : list string :=
  foldr (λ part rest, if bool_decide (part = "" ∧ rest = []) then [] else part :: rest) [] parts.
Definition java_parts (parts : list string) : list string :=
  if (1 <? length parts)%nat then drop_empty_tail parts else parts.

(** The topics that Kafka's [Topic.isInternal] names. *)
Definition INTERNAL_TOPICS : list string :=
  ["__consumer_offsets"; "__transaction_state"; "__share_group_state"].

Definition is_internal (topic : string) : bool := bool_decide (topic ∈ INTERNAL_TOPICS).

(** ** A matcher for examples *)

(** Alternatives of literal names, where a name may end in [.*]: enough of
    [regex] for the patterns of the sources' tests. *)
Definition literal_match (alternative topic : string) : bool :=
  match strip_suffix ".*" alternative with
  | Some prefix => is_some (strip_prefix prefix topic)
  | None => bool_decide (alternative = topic)
  end.

Definition sample_regex : RegexCrate := {|
  Regex := list string;
  regex_new pattern :=
    match strip_prefix "^(?:" pattern ≫= strip_suffix ")$" with
    | Some inner => if contains_byte (λ c, (c =? "(")%char) inner then Err "error: unclosed group"
                    else Ok (split_char "|" inner)
    | None => Err "error: not anchored"
    end;
  is_match alternatives topic := existsb (λ a, literal_match a topic) alternatives
|}.

Example cleaned_patterns :
  map cleaned_pattern [" ord.*,audit "; "'a b'"; "x"] = ["ord.*|audit"; "ab"; "x"].
Proof. vm_compute. reflexivity. Qed.
