(* ===== verification/GetOffsets.v ===== *)
(** [get_offsets.rs]: the selection of partitions, the lookup of their offsets
    and the report; and [ListOffsets], the lookup that the reset planner runs
    with. *)

From Stdlib Require Import Ascii.
From S2P Require Import Connection.
From S2P Require Import Prelude Collections Rust Patterns Json KafkaErrors Output Program Admin Reset.

(** ** [--time] *)

Definition malformed_time (value : string) : string :=
  "Malformed time argument " +:+ value +:+
  ". Please use -1 or latest / -2 or earliest / -3 or max-timestamp / -4 or earliest-local / -5 or latest-tiered / -6 or earliest-pending-upload, or a specified long format timestamp".

Definition parse_offset_spec (value : string) : result string OffsetSpec :=
  if bool_decide (value = "earliest") then Ok Earliest
  else if bool_decide (value = "latest") then Ok Latest
  else if bool_decide (value = "max-timestamp") then Ok MaxTimestamp
  else if bool_decide (value = "earliest-local") then Ok EarliestLocal
  else if bool_decide (value = "latest-tiered") then Ok LatestTiered
  else if bool_decide (value = "earliest-pending-upload") then Ok EarliestPendingUpload
  else
    match parse_i64 value with
    | Some (-1) => Ok Latest
    | Some (-2) => Ok Earliest
    | Some (-3) => Ok MaxTimestamp
    | Some (-4) => Ok EarliestLocal
    | Some (-5) => Ok LatestTiered
    | Some (-6) => Ok EarliestPendingUpload
    | Some timestamp => Ok (ForTimestamp timestamp)
    | None => Err (malformed_time value)
    end.

(** ** The selection *)

(** [java_split]. *)
Definition split_commas (value : string) : list string := java_parts (split_char "," value).

Inductive PartitionFilter :=
  | PartitionSet (ids : list Z)
  | Unique (id : Z)
  | Range (lower upper : Z).

Definition filter_allows (f : PartitionFilter) (partition : Z) : bool :=
  match f with
  | PartitionSet ids => bool_decide (ids = []) || bool_decide (partition ∈ ids)
  | Unique id => id =? partition
  | Range lower upper => (lower <=? partition) && (partition <? upper)
  end.

Section Selection.
Context `{RegexCrate}.

Record Rule := { rule_topic : Regex; rule_partitions : PartitionFilter }.
Definition OffsetSelection : Type := list Rule.

Definition allows_topic (s : OffsetSelection) (topic : string) : bool :=
  existsb (λ rule, is_match (rule_topic rule) topic) s.
Definition allows_partition (s : OffsetSelection) (topic : string) (partition : Z) : bool :=
  existsb (λ rule, is_match (rule_topic rule) topic && filter_allows (rule_partitions rule) partition) s.

Definition rule_int (digits : string) : result string Z :=
  ok_or (parse_i32 digits) ("For input string: " +:+ dquote +:+ digits +:+ dquote).

Definition all_digits (value : string) : bool := all_bytes is_ascii_digit value.

(** The partition filter of a rule. *)
Definition parse_filter (spec : string) (partitions : option string) : result string PartitionFilter :=
  let invalid := "Invalid rule specification: " +:+ spec in
  match partitions with
  | None => Ok (Range 0 i32_MAX)
  | Some partitions =>
      if bool_decide (partitions = "") then Ok (Range 0 i32_MAX)
      else if all_digits partitions then Unique <$> rule_int partitions
      else
        bounds ← ok_or (split_once (λ c, (c =? "-")%char) partitions) invalid;
        let '(lower, upper) := (bounds : string * string) in
        if negb (all_digits lower) || negb (all_digits upper) then Err invalid
        else
          lower ← if bool_decide (lower = "") then Ok 0 else rule_int lower;
          upper ← if bool_decide (upper = "") then Ok i32_MAX else rule_int upper;
          Ok (Range lower upper)
  end.

Definition parse_rule (spec : string) : result string Rule :=
  let '(topic, partitions) :=
    match split_once (λ c, (c =? ":")%char) spec with
    | None => (spec, None)
    | Some (topic, partitions) => (topic, Some partitions)
    end in
  filter ← parse_filter spec partitions;
  pattern ← include_list (if bool_decide (topic = "") then ".*" else topic);
  Ok {| rule_topic := pattern; rule_partitions := filter |}.

(** The ids of [--partitions]. *)
Definition partition_ids (partitions : option string) : result string (list Z) :=
  match partitions with
  | None => Ok []
  | Some list =>
      if bool_decide (list = "") then Ok []
      else
        try_map (λ id, ok_or (parse_i32 id)
          ("--partitions expects a comma separated list of numeric partition ids, but received: " +:+
           list)) (split_commas list)
  end.

Definition selection (topic_partitions topic partitions : option string)
    : result string OffsetSelection :=
  if is_some topic_partitions && (is_some topic || is_some partitions) then
    Err "--topic-partitions cannot be used with --topic or --partitions"
  else
    match topic_partitions with
    | Some spec => try_map parse_rule (split_commas spec)
    | None =>
        ids ← partition_ids partitions;
        pattern ← include_list (default ".*" topic);
        Ok [{| rule_topic := pattern; rule_partitions := PartitionSet ids |}]
    end.

Definition selects (selection : OffsetSelection) (exclude_internal : bool) (p : Partition) : bool :=
  negb (exclude_internal && is_internal p.1) && allows_topic selection p.1
  && allows_partition selection p.1 p.2.

Definition select_partitions (cluster : list Partition) (selection : OffsetSelection)
    (exclude_internal : bool) : list Partition :=
  filter (λ p, selects selection exclude_internal p = true) cluster.
End Selection.
#[global] Arguments Rule {_}.
#[global] Arguments OffsetSelection {_}.

(** ** The lookup *)

(** The effect of a lookup on a cluster. *)
#[export] Instance cmd_fallible {Σ} : Fallible (cmd Σ) := {|
  fallible_ret := cmd_ret; fallible_bind := cmd_bind; fallible := λ A, lift_cmd |}.

(** What [ListOffsets::offsets] makes of an answer. *)
Definition listed_offsets (answer : list (Partition * result KafkaError Z))
    : list (Partition * result Z Z) :=
  bt_collect (map (λ '(p, r), (p, map_err error_code r)) answer).

(** [ListOffsets]: the lookup through the client, with the isolation of
    [ListOffsets::new]. *)
#[export] Instance ListOffsetsLookup : OffsetLookup (cmd admin) := {|
  offsets partitions spec :=
    await (prog_bind (λ answer, Halt (Done (listed_offsets answer)))
      (send (ListOffsets (bt_collect (map (λ p, (p, spec)) partitions)) ReadUncommitted)))
|}.

(** ** The report *)

(** [TopicPartition.toString()], which [by_name] compares. *)
Definition by_name (left right : Partition * result Z Z) : comparison :=
  cmp (partition_name left.1) (partition_name right.1).

Definition offset_json (topic : string) (partition : Z) (offset error : Value) : Value :=
  object_of [("topic", Str topic); ("partition", num partition); ("offset", offset); ("error", error)].

(** One partition of the report: its line, its notice and its value. *)
Definition offset_line (entry : Partition * result Z Z) : option string :=
  let '((topic, partition), answer) := entry in
  match answer with
  | Ok offset =>
      if offset =? -1 then None
      else Some (topic +:+ ":" +:+ pretty partition +:+ ":" +:+ pretty offset)
  | Err _ => None
  end.

Definition offset_notice (entry : Partition * result Z Z) : option string :=
  match entry.2 with
  | Ok _ => None
  | Err code =>
      Some ("Skip getting offsets for topic-partition " +:+ partition_name entry.1 +:+
            " due to error: " +:+ to_java_string (for_code code))
  end.

Definition offset_value (entry : Partition * result Z Z) : Value :=
  let '((topic, partition), answer) := entry in
  match answer with
  | Ok offset => offset_json topic partition (if offset =? -1 then Null else num offset) Null
  | Err code =>
      offset_json topic partition Null
        (object_of [("code", num code); ("message", Str (exc_message (for_code code)))])
  end.

Definition offsets_result (answers : list (Partition * result Z Z)) : CommandResult :=
  let answers := sort_by by_name answers in
  let notices := omap offset_notice answers in
  with_notices
    (rows (omap offset_line answers) (Array (map offset_value answers))
      (negb (bool_decide (notices = []))))
    notices.

(** ** The command *)

Record GetOffsetsArgs := {
  go_connection : ConnectionArgs;
  go_topic_partitions : option string;
  go_topic : option string;
  go_partitions : option string;
  go_time : string;
  go_exclude_internal_topics : bool
}.

(** The text of a topic that cannot be described. *)
Definition describe_failure (error : KafkaError) : CommandError := Other (throwable_text error).

Section Command.
Context `{RegexCrate}.

Definition described_partitions (answer : list (string * result KafkaError TopicDescription))
    : result CommandError (list Partition) :=
  (λ partitions, concat partitions) <$> try_map (λ '(topic, description),
    description ← map_err describe_failure description;
    Ok (map (λ p, (topic, pd_partition p)) (td_partitions description))) answer.

Definition list_partitions (selection : OffsetSelection) (exclude_internal : bool)
    : cmd admin (list Partition) :=
  topics ← try_admin (send (ListTopics (negb exclude_internal)));
  let allowed := filter (λ topic, allows_topic selection topic = true) topics in
  if bool_decide (allowed = []) then pure []
  else
    descriptions ← await (send (DescribeTopics allowed None));
    lift_cmd (described_partitions descriptions).

Definition get_offsets_run (args : GetOffsetsArgs) : cmd admin CommandResult :=
  selection ← lift (selection (go_topic_partitions args) (go_topic args) (go_partitions args));
  spec ← lift (parse_offset_spec (go_time args));
  _ ← connect (go_connection args) "get-offsets";
  cluster ← list_partitions selection (go_exclude_internal_topics args);
  let partitions := select_partitions cluster selection (go_exclude_internal_topics args) in
  if bool_decide (partitions = []) then
    throw (Other "Could not match any topic-partitions with the specified filters")
  else
    answers ← offsets (M := cmd admin) partitions spec;
    pure (offsets_result answers).
End Command.

(** ** Cases of the sources' tests *)

Definition sample_cluster : list Partition :=
  [("orders", 0); ("orders", 1); ("events", 0); ("events", 8); ("events", 9); ("events", 10);
   ("events", 11); ("__consumer_offsets", 0); ("__consumer_offsets", 1); ("audit", 0)].

Definition sample_selects (topic_partitions topic partitions : option string) (exclude : bool)
    : result string (list Partition) :=
  (λ s, select_partitions (H := sample_regex) sample_cluster s exclude) <$>
    selection (H := sample_regex) topic_partitions topic partitions.

Example selections :
  sample_selects None (Some "orders") (Some "1") false = Ok [("orders", 1)] ∧
  sample_selects None (Some "ord.*,audit") (Some "0,") false = Ok [("orders", 0); ("audit", 0)] ∧
  sample_selects None (Some "(") None false = Err "( is an invalid regex." ∧
  sample_selects (Some "events:8-11,orders:1") None None false =
    Ok [("orders", 1); ("events", 8); ("events", 9); ("events", 10)] ∧
  sample_selects (Some "events:-2,audit") None None false = Ok [("events", 0); ("audit", 0)] ∧
  sample_selects (Some ":1") None None true = Ok [("orders", 1)] ∧
  sample_selects (Some "orders:x") None None false = Err "Invalid rule specification: orders:x" ∧
  sample_selects (Some "orders:1-2-3") None None false =
    Err "Invalid rule specification: orders:1-2-3" ∧
  sample_selects (Some "orders") (Some "orders") None false =
    Err "--topic-partitions cannot be used with --topic or --partitions".
Proof. vm_compute. done. Qed.

Example times :
  map parse_offset_spec ["-1"; "latest"; "-6"; "1700000000000"; "-7"; "Latest"] =
  [Ok Latest; Ok Latest; Ok EarliestPendingUpload; Ok (ForTimestamp 1700000000000);
   Ok (ForTimestamp (-7)); Err (malformed_time "Latest")].
Proof. vm_compute. reflexivity. Qed.

Example report_order :
  let r := offsets_result [(("events", 10), Ok 4); (("events", 8), Ok 0); (("orders", 1), Err 6);
                           (("orders", 0), Ok (-1)); (("events", 9), Ok 12)] in
  (human r, failed r, length (notices r)) =
  (["events:10:4"; "events:8:0"; "events:9:12"], true, 1%nat).
Proof. vm_compute. reflexivity. Qed.

(** ** The planner on a cluster *)

(** A lookup in two tables: [first] answers the queries of one spec, [second]
    the others. *)
Definition two_tables (spec : OffsetSpec) (first second : list (Partition * result Z Z))
    : OffsetLookup (result CommandError) :=
  {| offsets _ spec' := Ok (if decide (spec' = spec) then first else second) |}.

Lemma listed_offsets_wf answer : bt_wf (listed_offsets answer).
Proof. apply bt_collect_wf. Qed.

Lemma two_tables_wf spec first second :
  bt_wf first → bt_wf second → @lookup_wf (two_tables spec first second).
Proof. intros H1 H2 partitions spec' answers [= <-]. by case_decide. Qed.

(** The event of a lookup that answered [answer]. *)
Definition lookup_event (partitions : list Partition) (spec : OffsetSpec)
    (answer : list (Partition * result KafkaError Z)) : event admin :=
  existT (ListOffsets (bt_collect (map (λ p, (p, spec)) partitions)) ReadUncommitted : call admin)
    answer.

(** The event is a lookup, and the table [L] has what it answered. *)
Definition answered (L : OffsetLookup (result CommandError)) (e : event admin) : Prop :=
  ∃ partitions spec answer, e = lookup_event partitions spec answer ∧
    offsets partitions spec = Ok (listed_offsets answer).

(** Against every cluster, [p] only looks offsets up, and ends in what [q] makes
    of a table with the cluster's answers. *)
Definition consults {A} (p : cmd admin A)
    (q : OffsetLookup (result CommandError) → result CommandError A) : Prop :=
  ∀ log o, trace p log o → ∃ L, @lookup_wf L ∧ o = Done (q L) ∧ Forall (answered L) log.

Lemma trace_offsets partitions spec log o :
  trace (offsets (M := cmd admin) partitions spec) log o →
  ∃ answer, log = [lookup_event partitions spec answer] ∧ o = Done (Ok (listed_offsets answer)).
Proof. intros (answer & log' & -> & -> & ->). by exists answer. Qed.

Lemma trace_required partitions spec missing log o :
  trace (required (M := cmd admin) partitions spec missing) log o →
  ∃ answer r, log = [lookup_event partitions spec answer] ∧ o = Done r ∧
    ∀ L : OffsetLookup (result CommandError),
      offsets partitions spec = Ok (listed_offsets answer) → required partitions spec missing = r.
Proof.
  intros (log1 & o1 & (answer & -> & ->)%trace_offsets & log2 & -> & Ht)%trace_cmd_bind_inv.
  exists answer. unfold required.
  destruct (known (listed_offsets answer)) as [m|e] eqn:Hk;
    [destruct (first_missing partitions m) eqn:Hm|]; cbn in Ht; rewrite ?Hm in Ht;
    destruct Ht as [-> ->]; eexists _; (split_and!; [done..|]);
    intros L ->; cbn; rewrite Hk; cbn; by rewrite ?Hm.
Qed.

Lemma answered_two_tables spec first second partitions answer :
  listed_offsets answer = first → answered (two_tables spec first second)
    (lookup_event partitions spec answer).
Proof. intros <-. exists partitions, spec, answer. split; [done|]. cbn. by rewrite decide_True. Qed.

Lemma answered_two_tables_other spec spec' first second partitions answer :
  spec' ≠ spec → listed_offsets answer = second → answered (two_tables spec first second)
    (lookup_event partitions spec' answer).
Proof. intros Hs <-. exists partitions, spec', answer. split; [done|]. cbn. by rewrite decide_False. Qed.
#[local] Hint Resolve answered_two_tables answered_two_tables_other two_tables_wf
  listed_offsets_wf bt_nil_wf : krabka.

Lemma consults_fallible {A} (r : result CommandError A) : consults (fallible r) (λ _, r).
Proof.
  intros log o [-> ->]. exists (two_tables Latest [] []). auto with krabka.
Qed.

Lemma consults_map {A B} (p : cmd admin A) q (g : A → cmd admin B) (f : A → result CommandError B) :
  consults p q → (∀ a, g a = fallible (f a)) → consults (p ≫= g) (λ L, q L ≫= f).
Proof.
  intros Hp Hg log o (log1 & o1 & (L & Hwf & -> & Hl)%Hp & Ht)%trace_cmd_bind_inv.
  exists L. split; [done|]. destruct (q L) as [a|e]; [|by destruct Ht as [-> ->]].
  rewrite Hg in Ht. destruct Ht as (log2 & -> & -> & ->). by rewrite app_nil_r.
Qed.

Lemma consults_required partitions spec missing :
  consults (required partitions spec missing) (λ L, required partitions spec missing).
Proof.
  intros log o (answer & r & -> & -> & HL)%trace_required.
  exists (two_tables spec (listed_offsets answer) []). split; [auto with krabka|]. split.
  - rewrite HL; [done|]. cbn. by rewrite decide_True.
  - auto with krabka.
Qed.

Lemma two_tables_first spec first second partitions :
  @offsets _ (two_tables spec first second) partitions spec = Ok first.
Proof. cbn. by rewrite decide_True. Qed.

Lemma two_tables_second spec spec' first second partitions :
  spec' ≠ spec → @offsets _ (two_tables spec first second) partitions spec' = Ok second.
Proof. intros. cbn. by rewrite decide_False. Qed.

Lemma consults_clamped requested : consults (clamped requested) (λ L, clamped requested).
Proof.
  intros log o (log1 & o1 & (a & -> & ->)%trace_offsets & log2 & -> & Ht)%trace_cmd_bind_inv.
  unfold clamped. destruct (known (listed_offsets a)) as [starts|e] eqn:Hs.
  - apply (trace_cmd_bind_inv (offsets _ Latest))
      in Ht as (log3 & o3 & (b & -> & ->)%trace_offsets & log4 & -> & Ht).
    exists (two_tables Earliest (listed_offsets a) (listed_offsets b)).
    rewrite two_tables_first, two_tables_second by done. split; [auto with krabka|].
    cbn [mbind fallible fallible_bind result_fallible result_bind]. rewrite Hs. cbn in Ht |- *.
    destruct (known (listed_offsets b)) as [ends|]; cbn in Ht |- *;
      [destruct (try_map (clamp_one starts ends) requested); cbn in Ht |- *|];
      destruct Ht as [-> ->]; auto 7 with krabka.
  - exists (two_tables Earliest (listed_offsets a) []). rewrite two_tables_first. cbn.
    rewrite Hs. cbn. destruct Ht as [-> ->]. auto 7 with krabka.
Qed.

Lemma consults_by_timestamp partitions timestamp :
  consults (by_timestamp partitions timestamp) (λ L, by_timestamp partitions timestamp).
Proof.
  intros log o (log1 & o1 & (a & r & -> & -> & HL)%trace_required & Ht)%trace_cmd_bind_inv.
  set (at_ := ForTimestamp timestamp) in *. unfold by_timestamp. fold at_.
  assert (∀ second, @required _ _ (two_tables at_ (listed_offsets a) second) partitions at_
    TIMESTAMP_MISSING = r) as Hr by (intros; apply HL; cbn; by rewrite decide_True).
  destruct r as [found|e].
  2:{ destruct Ht as [-> ->]. exists (two_tables at_ (listed_offsets a) []). rewrite Hr.
      auto 7 with krabka. }
  set (empty := filter (λ p, bt_get p found = Some (-1)) partitions).
  destruct Ht as (log2 & -> & Ht). cbn zeta in Ht. fold empty in Ht.
  destruct (decide (empty = [])) as [He|He].
  - exists (two_tables at_ (listed_offsets a) []). rewrite Hr. cbn. fold empty.
    rewrite bool_decide_true in Ht |- * by done. destruct Ht as [-> ->]. auto 7 with krabka.
  - rewrite bool_decide_false in Ht by done.
    apply (trace_cmd_bind_inv (required empty Latest TIMESTAMP_MISSING))
      in Ht as (log3 & o3 & (b & r2 & -> & -> & HL2)%trace_required & Ht).
    exists (two_tables at_ (listed_offsets a) (listed_offsets b)). rewrite Hr. cbn. fold empty.
    rewrite bool_decide_false by done.
    rewrite HL2 by (cbn; by rewrite decide_False). split; [auto with krabka|].
    destruct r2 as [ends|e]; [destruct Ht as (log4 & -> & -> & ->)|destruct Ht as [-> ->]];
      cbn; auto 7 with krabka.
Qed.

Lemma consults_plan (scenario : Scenario) (group : string) (partitions : list Partition)
    (committed : list (Partition * Z)) :
  consults (plan scenario group partitions committed)
    (λ L, plan scenario group partitions committed).
Proof.
  assert (∀ requested, consults (planned_clamped (clamped requested))
    (λ L, planned_clamped (clamped requested))) as Hclamped.
  { intros requested. apply (consults_map _ _ _ _ (consults_clamped requested)). by intros []. }
  destruct scenario as [offset| | | |shift|timestamp|timestamp|[requested|]]; cbn [plan].
  - apply Hclamped.
  - by apply (consults_map _ _ _ _ (consults_required _ _ _)).
  - by apply (consults_map _ _ _ _ (consults_required _ _ _)).
  - case_bool_decide; [by apply consults_fallible|].
    by apply (consults_map _ _ _ _ (consults_required _ _ _)).
  - destruct (shifted committed shift partitions []) as [requested|e]; [apply Hclamped|].
    apply (consults_fallible (Err e)).
  - apply (consults_map _ _ _ _ (consults_by_timestamp partitions timestamp)). by intros [].
  - apply (consults_map _ _ _ _ (consults_by_timestamp partitions timestamp)). by intros [].
  - apply Hclamped.
  - apply consults_fallible.
Qed.

(** ** What the planner asks and plans on a cluster *)

(** A lookup: the partitions and the spec that were asked for, and the answer. *)
Definition Lookup : Type := list Partition * OffsetSpec * list (Partition * result KafkaError Z).
Definition event_of (lookup : Lookup) : event admin :=
  let '(partitions, spec, answer) := lookup in lookup_event partitions spec answer.

(** A lookup asked for the partition and answered the offset. *)
Definition looked_up (lookups : list Lookup) (spec : OffsetSpec) (p : Partition) (o : Z) : Prop :=
  ∃ partitions answer, (partitions, spec, answer) ∈ lookups ∧ p ∈ partitions ∧ (p, Ok o) ∈ answer.

(** A requested offset, moved into the log that the lookups found. *)
Definition moved_into_log (lookups : list Lookup) (p : Partition) (requested o : Z) : Prop :=
  ∃ last, looked_up lookups Latest p last ∧
    if last <? requested then o = last
    else (∃ start, looked_up lookups Earliest p start ∧ o = Z.max requested start) ∨
         ((∀ start, ¬ looked_up lookups Earliest p start) ∧ o = requested).

(** The offset of a partition, by what the scenario says. *)
Definition reset_rule (lookups : list Lookup) (scenario : Scenario) (committed : list (Partition * Z))
    (p : Partition) (o : Z) : Prop :=
  match scenario with
  | ToOffset requested => moved_into_log lookups p requested o
  | ToEarliest => looked_up lookups Earliest p o
  | ToLatest => looked_up lookups Latest p o
  | ToCurrent =>
      match bt_get p committed with Some current => o = current | None => looked_up lookups Latest p o end
  | ShiftBy shift =>
      ∃ current, bt_get p committed = Some current ∧ moved_into_log lookups p (saturating_add current shift) o
  | ToDatetime timestamp | ByDuration timestamp =>
      ∃ found, looked_up lookups (ForTimestamp timestamp) p found ∧
        if found =? -1 then looked_up lookups Latest p o else o = found
  | FromFile (Some file) => ∃ requested, bt_get p file = Some requested ∧ moved_into_log lookups p requested o
  | FromFile None => False
  end.

(** The partitions of a plan. *)
Definition reset_scope (scenario : Scenario) (partitions : list Partition) (p : Partition) : Prop :=
  match scenario with
  | FromFile file => is_Some (file ≫= bt_get p)
  | _ => p ∈ partitions
  end.

Lemma known_listed answer m p :
  known (listed_offsets answer) = Ok m →
  (∀ o, bt_get p m = Some o → (p, Ok o) ∈ answer) ∧ (∀ o, (p, Ok o) ∈ answer → is_Some (bt_get p m)).
Proof.
  intros Hk. destruct (known_get _ _ p (listed_offsets_wf answer) Hk) as [Hwf Hget]. split.
  - intros o Ho%Hget%bt_get_collect_elem. apply list_elem_of_fmap in Ho as ([q [o'|e]] & E & Hin); by simplify_eq/=.
  - intros o Hin. assert (is_Some (bt_get p (listed_offsets answer))) as [[o'|code] E].
    { apply (bt_get_collect_Some _ p (Ok o)). apply list_elem_of_fmap. by exists (p, Ok o). }
    + exists o'. by apply Hget.
    + exfalso. unfold known in Hk. destruct (try_map _ _) as [l|] eqn:Et; [|done]. apply try_map_Ok in Et.
      apply bt_get_elem in E; [|apply listed_offsets_wf]. apply list_elem_of_lookup in E as [i Hi].
      by destruct (Forall2_lookup_l _ _ _ _ _ Et Hi) as (y & _ & Hy).
Qed.

Lemma trace_required_Ok partitions spec missing log m :
  trace (required (M := cmd admin) partitions spec missing) log (Done (Ok m)) →
  ∃ answer, log = [lookup_event partitions spec answer] ∧ known (listed_offsets answer) = Ok m ∧
    (∀ p, p ∈ partitions → is_Some (bt_get p m)) ∧
    ∀ lookups p o, (partitions, spec, answer) ∈ lookups → p ∈ partitions → bt_get p m = Some o →
      looked_up lookups spec p o.
Proof.
  intros (log1 & o1 & (answer & -> & ->)%trace_offsets & log2 & -> & Ht)%trace_cmd_bind_inv.
  exists answer. destruct (known (listed_offsets answer)) as [m'|e] eqn:Hk; [|by destruct Ht].
  destruct (first_missing partitions m') eqn:Hm; cbn in Ht; rewrite Hm in Ht; [by destruct Ht|].
  destruct Ht as [-> [= ->]]. split_and!; [done..|by apply first_missing_None|].
  intros lookups p o Hl Hp Ho. exists partitions, answer. split_and!; [done..|]. by eapply known_listed.
Qed.

Lemma trace_clamped requested log plan notices :
  trace (clamped (M := cmd admin) requested) log (Done (Ok (plan, notices))) →
  ∃ lookups, log = map event_of lookups ∧ NoDup (map (λ l : Lookup, l.1.2) lookups) ∧
    (∀ p o, (p, o) ∈ plan → ∃ r, (p, r) ∈ requested ∧ moved_into_log lookups p r o) ∧
    (∀ p, p ∈ plan.*1 ↔ p ∈ requested.*1).
Proof.
  intros (log1 & o1 & (a & -> & ->)%trace_offsets & log2 & -> & Ht)%trace_cmd_bind_inv.
  destruct (known (listed_offsets a)) as [starts|e] eqn:Hs; [|by destruct Ht].
  apply (trace_cmd_bind_inv (offsets _ Latest)) in Ht as (log3 & o3 & (b & -> & ->)%trace_offsets & log4 & -> & Ht).
  destruct (known (listed_offsets b)) as [ends|e] eqn:He; cbn in Ht; [|by destruct Ht].
  destruct (try_map (clamp_one starts ends) requested) as [entries|e] eqn:Et; cbn in Ht; [|by destruct Ht].
  destruct Ht as [-> [= -> ->]]. apply clamped_entries in Et.
  exists [(bt_keys requested, Earliest, a); (bt_keys requested, Latest, b)]. split_and!; [done|by apply (bool_decide_unpack _)| |].
  - intros p o Hin. rewrite elem_of_ordered in Hin. apply list_elem_of_fmap in Hin as ([[q o'] w] & [= -> ->] & Hin).
    destruct (Forall2_elem_r _ _ _ _ Et Hin) as ([p r] & Hpr & Hp & last & Hl & Ho & _). cbn in *. subst q.
    assert (p ∈ bt_keys requested) as Hk by (apply list_elem_of_fmap; by exists (p, r)).
    destruct (known_listed _ _ p He) as [He1 _]. destruct (known_listed _ _ p Hs) as [Hs1 Hs2].
    exists r. split; [done|]. exists last. split; [exists (bt_keys requested), b; set_solver|].
    unfold clamp_to in Ho. destruct (last <? r); [done|].
    destruct (bt_get p starts) as [start|] eqn:Hst; [left|right].
    + exists start. split; [|done]. exists (bt_keys requested), a. set_solver.
    + split; [|done]. intros start (ps & ans & Hin' & _ & Ha).
      apply elem_of_cons in Hin' as [[= -> ->]|Hin']; [by apply Hs2 in Ha as []|].
      apply list_elem_of_singleton in Hin'. done.
  - intros p. rewrite ordered_perm. by rewrite (clamped_entries_keys _ _ Et).
Qed.

Lemma trace_by_timestamp partitions timestamp log plan stdout :
  trace (by_timestamp (M := cmd admin) partitions timestamp) log (Done (Ok (plan, stdout))) →
  ∃ lookups, log = map event_of lookups ∧ NoDup (map (λ l : Lookup, l.1.2) lookups) ∧
    (∀ p o, (p, o) ∈ plan → reset_rule lookups (ToDatetime timestamp) [] p o) ∧
    (∀ p, p ∈ plan.*1 ↔ p ∈ partitions).
Proof.
  unfold by_timestamp. set (at_ := ForTimestamp timestamp).
  intros (found & log1 & log2 & -> & (a & -> & Hk & Hall & Hfound)%trace_required_Ok & Ht)%trace_ok_bind_inv.
  cbv zeta in Ht. set (empty := filter _ partitions) in Ht.
  apply trace_ok_bind_inv in Ht as (ends & log3 & log4 & -> & He & [-> [= -> ->]]).
  assert (∃ lookups, log3 = map event_of lookups ∧ NoDup (at_ :: map (λ l : Lookup, l.1.2) lookups) ∧
    (∀ p, p ∈ empty → is_Some (bt_get p ends)) ∧
    ∀ l p o, p ∈ empty → bt_get p ends = Some o → looked_up (l :: lookups) Latest p o) as (lookups & -> & Hnd & Hends & Hlast).
  { case_bool_decide as Hem.
    - destruct He as [-> [= ->]]. exists []. rewrite Hem. split_and!; [done|apply NoDup_singleton|set_solver|set_solver].
    - apply trace_required_Ok in He as (b & -> & Hk' & Hall' & Hlast). exists [(empty, Latest, b)].
      split_and!; [done| |done|].
      + apply NoDup_cons. split; [|apply NoDup_singleton]. intros E%list_elem_of_singleton. done.
      + intros l p o Hp Ho. eapply Hlast; [|done|done]. set_solver. }
  exists ((partitions, at_, a) :: lookups). split_and!; [by rewrite app_nil_r|done| |].
  - intros p o Hin. rewrite elem_of_ordered in Hin. apply list_elem_of_omap in Hin as (q & Hq & E).
    destruct (bt_get q found) as [f|] eqn:Hf; [|done]. cbn in E. exists f.
    destruct (Z.eqb_spec f (-1)) as [->|Hne].
    + destruct (bt_get q ends) as [z|] eqn:Hz; [|done]. injection E as -> ->.
      split; [eapply Hfound; [set_solver|done..]|]. apply Hlast; [|done]. by apply list_elem_of_filter.
    + injection E as -> ->. split; [|done]. eapply Hfound; [set_solver|done..].
  - intros p. rewrite list_elem_of_fmap. split.
    + intros ([q o] & -> & Hin). rewrite elem_of_ordered in Hin. apply list_elem_of_omap in Hin as (q' & Hq & E).
      destruct (bt_get q' found) as [f|]; [|done]. cbn in E. destruct (f =? -1); [destruct (bt_get q' ends); [|done]|];
        by injection E as <- _.
    + intros Hp. destruct (Hall p Hp) as [f Hf].
      assert (∃ o, (p, o) ∈ omap (λ p, offset ← bt_get p found;
        offset ← (if offset =? -1 then bt_get p ends else Some offset); Some (p, offset)) partitions) as [o Ho].
      { destruct (Z.eqb_spec f (-1)) as [->|Hne].
        - destruct (Hends p) as [z Hz]; [by apply list_elem_of_filter|]. exists z. apply list_elem_of_omap. exists p.
          rewrite Hf. cbn. by rewrite Hz.
        - exists f. apply list_elem_of_omap. exists p. rewrite Hf. cbn. by rewrite (proj2 (Z.eqb_neq _ _) Hne). }
      exists (p, o). split; [done|]. by apply elem_of_ordered.
Qed.

Lemma shifted_values committed shift partitions requested m p r :
  shifted committed shift partitions requested = Ok m → bt_wf requested → (p, r) ∈ m →
  (p, r) ∈ requested ∨ ∃ current, bt_get p committed = Some current ∧ r = saturating_add current shift.
Proof.
  revert requested. induction partitions as [|q partitions IH]; intros requested; cbn [shifted].
  { intros [= <-]. by left. }
  destruct (bt_get q committed) as [current|] eqn:Hq; [|done]. cbn [ok_or mbind result_bind]. intros Hs Hw Hin.
  destruct (IH _ Hs (bt_insert_wf _ _ _ Hw) Hin) as [Hr|]; [|by right].
  apply bt_get_elem in Hr; [|by apply bt_insert_wf]. rewrite bt_get_insert in Hr by done.
  case_decide as E; [injection Hr as <-; subst; right; by exists current|]. left. by apply bt_get_elem.
Qed.

(** The plan of a filter of required offsets. *)
Lemma required_plan (partitions : list Partition) (m : list (Partition * Z)) :
  bt_wf m → (∀ p, p ∈ partitions → is_Some (bt_get p m)) →
  (∀ p o, (p, o) ∈ filter (λ '(p, _), p ∈ partitions) m → p ∈ partitions ∧ bt_get p m = Some o) ∧
  (∀ p, p ∈ (filter (λ '(p, _), p ∈ partitions) m).*1 ↔ p ∈ partitions).
Proof.
  intros Hwf Hall. assert (∀ p o, (p, o) ∈ filter (λ '(p, _), p ∈ partitions) m ↔ p ∈ partitions ∧ bt_get p m = Some o) as H.
  { intros p o. by rewrite list_elem_of_filter, bt_get_elem. }
  split; [intros p o; apply H|]. intros p. rewrite list_elem_of_fmap. split.
  - intros ([q o] & -> & Hin). by apply H in Hin as [].
  - intros Hp. destruct (Hall p Hp) as [o Ho]. exists (p, o). split; [done|]. by apply H.
Qed.

Lemma trace_required_plan partitions spec missing log m :
  trace (required (M := cmd admin) partitions spec missing) log (Done (Ok m)) →
  ∃ answer, log = [lookup_event partitions spec answer] ∧
    (∀ lookups p o, (partitions, spec, answer) ∈ lookups → (p, o) ∈ filter (λ '(p, _), p ∈ partitions) m →
       looked_up lookups spec p o) ∧
    (∀ p, p ∈ (filter (λ '(p, _), p ∈ partitions) m).*1 ↔ p ∈ partitions).
Proof.
  intros (answer & -> & Hk & Hall & Hup)%trace_required_Ok. exists answer. split; [done|].
  destruct (known_get _ _ ("", 0) (listed_offsets_wf answer) Hk) as [Hwf _].
  destruct (required_plan partitions m Hwf Hall) as [H1 H2]. split; [|done].
  intros lookups p o Hl [Hp Ho]%H1. by eapply Hup.
Qed.

(** [ToCurrent] keeps the committed offsets, and looks the end up for the others. *)
Lemma trace_to_current group partitions committed log planned :
  trace (plan (M := cmd admin) ToCurrent group partitions committed) log (Done (Ok planned)) →
  ∃ lookups, log = map event_of lookups ∧ NoDup (map (λ l : Lookup, l.1.2) lookups) ∧
    (∀ p o, (p, o) ∈ plan_of planned → reset_rule lookups ToCurrent committed p o) ∧
    (∀ p, p ∈ (plan_of planned).*1 ↔ reset_scope ToCurrent partitions p).
Proof.
  cbn [plan]. set (kept := omap _ partitions). set (without := filter _ partitions).
  intros (ends & log1 & log2 & -> & He & [-> [= ->]])%trace_ok_bind_inv.
  assert (∃ lookups, log1 = map event_of lookups ∧ NoDup (map (λ l : Lookup, l.1.2) lookups) ∧
    (∀ p o, (p, o) ∈ filter (λ '(p, _), p ∈ without) ends → p ∈ without ∧ looked_up lookups Latest p o) ∧
    (∀ p, p ∈ (filter (λ '(p, _), p ∈ without) ends).*1 ↔ p ∈ without)) as (lookups & -> & Hnd & Hup & Hkeys).
  { case_bool_decide as Hw.
    - destruct He as [-> [= ->]]. exists []. rewrite Hw. split_and!; [done|by apply NoDup_nil_2|set_solver|set_solver].
    - apply trace_required_plan in He as (a & -> & Hup & Hkeys). exists [(without, Latest, a)].
      split_and!; [done|apply NoDup_singleton| |done]. intros p o Hin. split; [|eapply Hup; [left|done]].
      by apply list_elem_of_filter in Hin as []. }
  assert (∀ p, p ∈ without ↔ bt_get p committed = None ∧ p ∈ partitions) as Hwithout.
  { intros p. unfold without. rewrite list_elem_of_filter, <-not_true_iff_false, bt_contains_true, <-eq_None_not_Some. done. }
  assert (∀ p o, (p, o) ∈ kept ↔ bt_get p committed = Some o ∧ p ∈ partitions) as Hkept.
  { intros p o. unfold kept. rewrite list_elem_of_omap. split.
    - intros (q & Hq & E). destruct (bt_get q committed) eqn:Hc; [|done]. by injection E as -> ->.
    - intros [Hc Hp]. exists p. by rewrite Hc. }
  exists lookups. rewrite app_nil_r. split_and!; [done..| |].
  - intros p o Hin. cbn [plan_of planned_quietly] in Hin. rewrite elem_of_ordered, elem_of_app in Hin.
    cbn [reset_rule]. destruct Hin as [[-> _]%Hkept|[[-> _]%Hwithout Hl]%Hup]; done.
  - intros p. cbn [plan_of planned_quietly reset_scope]. rewrite ordered_perm, fmap_app, elem_of_app, Hkeys, Hwithout.
    split.
    + intros [([q o] & -> & [_ ?]%Hkept)%list_elem_of_fmap|[]]; done.
    + intros Hp. destruct (bt_get p committed) as [o|] eqn:Hc; [left|by right].
      apply list_elem_of_fmap. exists (p, o). split; [done|]. by apply Hkept.
Qed.

(** What the planner plans on a cluster: for each partition of its scope, and for no
    other, the offset that the scenario says of the offsets just looked up, each kind
    of which it looked up once. *)
Lemma trace_plan scenario group partitions committed log planned :
  match scenario with FromFile (Some file) => bt_wf file | _ => True end →
  trace (plan (M := cmd admin) scenario group partitions committed) log (Done (Ok planned)) →
  ∃ lookups, log = map event_of lookups ∧ NoDup (map (λ l : Lookup, l.1.2) lookups) ∧
    (∀ p o, (p, o) ∈ plan_of planned → reset_rule lookups scenario committed p o) ∧
    (∀ p, p ∈ (plan_of planned).*1 ↔ reset_scope scenario partitions p).
Proof.
  intros Hfile. assert (∀ requested log, trace (planned_clamped (M := cmd admin) (clamped requested)) log (Done (Ok planned)) →
    ∃ lookups, log = map event_of lookups ∧ NoDup (map (λ l : Lookup, l.1.2) lookups) ∧
    (∀ p o, (p, o) ∈ plan_of planned → ∃ r, (p, r) ∈ requested ∧ moved_into_log lookups p r o) ∧
    (∀ p, p ∈ (plan_of planned).*1 ↔ p ∈ requested.*1)) as Hclamped.
  { intros requested log' ([pl notices] & log1 & log2 & -> & Hc & [-> [= ->]])%trace_ok_bind_inv.
    rewrite app_nil_r. by apply trace_clamped in Hc. }
  destruct scenario as [offset| | | |shift|timestamp|timestamp|[file|]]; cbn [plan].
  - intros (lookups & -> & Hnd & Hrule & Hkeys)%Hclamped. exists lookups. split_and!; [done..| |].
    + intros p o (r & Hr & Hm)%Hrule. apply bt_get_elem, bt_get_collect_elem, list_elem_of_fmap in Hr as (q & [= -> ->] & _);
        [done|apply bt_collect_wf].
    + intros p. rewrite Hkeys. cbn [reset_scope]. change ((bt_collect ?l).*1) with (bt_keys (bt_collect l)).
      rewrite elem_of_bt_keys by apply bt_collect_wf. split.
      * intros [r Hr%bt_get_collect_elem]. by apply list_elem_of_fmap in Hr as (q & [= -> ->] & ?).
      * intros Hp. apply (bt_get_collect_Some _ p offset), list_elem_of_fmap. by exists p.
  - intros (starts & log1 & log2 & -> & (a & -> & Hup & Hkeys)%trace_required_plan & [-> [= ->]])%trace_ok_bind_inv.
    exists [(partitions, Earliest, a)]. split_and!; [done|apply NoDup_singleton| |].
    + intros p o Hin. cbn [plan_of planned_quietly] in Hin. rewrite elem_of_ordered in Hin. eapply Hup; [left|done].
    + intros p. cbn [plan_of planned_quietly]. by rewrite ordered_perm.
  - intros (ends & log1 & log2 & -> & (a & -> & Hup & Hkeys)%trace_required_plan & [-> [= ->]])%trace_ok_bind_inv.
    exists [(partitions, Latest, a)]. split_and!; [done|apply NoDup_singleton| |].
    + intros p o Hin. cbn [plan_of planned_quietly] in Hin. rewrite elem_of_ordered in Hin. eapply Hup; [left|done].
    + intros p. cbn [plan_of planned_quietly]. by rewrite ordered_perm.
  - exact (trace_to_current group partitions committed log planned).
  - intros (requested & log1 & log2 & -> & [-> [= Hs]] & Ht)%trace_ok_bind_inv.
    apply Hclamped in Ht as (lookups & -> & Hnd & Hrule & Hkeys). exists lookups. split_and!; [done..| |].
    + intros p o (r & Hr & Hm)%Hrule. symmetry in Hs.
      destruct (shifted_values _ _ _ _ _ p r Hs bt_nil_wf Hr) as [Hn|(current & Hc & ->)]; [by apply elem_of_nil in Hn|].
      by exists current.
    + intros p. rewrite Hkeys. symmetry in Hs. destruct (shifted_keys _ _ _ _ _ Hs bt_nil_wf) as [_ ->].
      cbn. set_solver.
  - intros ([pl stdout] & log1 & log2 & -> & Ht & [-> [= ->]])%trace_ok_bind_inv.
    rewrite app_nil_r. by apply trace_by_timestamp in Ht.
  - intros ([pl stdout] & log1 & log2 & -> & Ht & [-> [= ->]])%trace_ok_bind_inv.
    rewrite app_nil_r. by apply trace_by_timestamp in Ht.
  - intros (lookups & -> & Hnd & Hrule & Hkeys)%Hclamped. exists lookups. split_and!; [done..| |].
    + intros p o (r & Hr & Hm)%Hrule. exists r. split; [by apply bt_get_elem|done].
    + intros p. rewrite Hkeys. by apply elem_of_bt_keys.
  - intros [-> [= ->]]. exists []. split_and!; [done|by apply NoDup_nil_2| |].
    + by intros p o ?%elem_of_nil.
    + intros p. cbn. split; [by intros ?%elem_of_nil|by intros []].
Qed.

(** C6. The planner of [--reset-offsets] on a cluster refines the planner on
    tables: whatever the cluster answers, and however it changes between two
    requests, the command only looks offsets up, and its plan is the one that
    the pure planner makes of a table with the answers it got. So what is
    proved of plans on tables holds of the plans that are executed. *)
Theorem plan_refines (scenario : Scenario) (group : string) (partitions : list Partition)
    (committed : list (Partition * Z)) :
  ∀ W (world : ∀ c : admin_call, W → admin_answer c * W) (w : W),
    ∃ L w' log,
      @lookup_wf L ∧ Forall (answered L) log ∧
      ends_in world (plan scenario group partitions committed) w
        (plan scenario group partitions committed) w' log.
Proof.
  intros W world w.
  pose proof (run_trace (Σ := admin) world (plan (M := cmd admin) scenario group partitions committed) w)
    as (L & Hwf & Ho & Hl)%consults_plan.
  exists L. unfold ends_in.
  destruct (run (Σ := admin) world _ w) as [[o w'] log]. simpl in *. exists w', log. by rewrite Ho.
Qed.

(** ** The command *)

(** The lines of a report are those of the partitions with an offset, each
    once, ordered by the partition's name; and it fails exactly when some
    partition did. *)
Lemma offsets_result_lines (answers : list (Partition * result Z Z)) line :
  line ∈ human (offsets_result answers) ↔
  ∃ topic partition offset, ((topic, partition), Ok offset) ∈ answers ∧ offset ≠ -1 ∧
    line = topic +:+ ":" +:+ pretty partition +:+ ":" +:+ pretty offset.
Proof.
  cbn. rewrite list_elem_of_omap. split.
  - intros ([[topic partition] [offset|code]] & Hin & Hl); cbn in Hl; [|done].
    destruct (Z.eqb_spec offset (-1)); [done|]. injection Hl as <-.
    rewrite sort_by_perm in Hin. by exists topic, partition, offset.
  - intros (topic & partition & offset & Hin & Ho & ->).
    exists ((topic, partition), Ok offset). rewrite sort_by_perm. split; [done|]. cbn.
    by rewrite (proj2 (Z.eqb_neq offset (-1))).
Qed.

Lemma offsets_result_failed (answers : list (Partition * result Z Z)) :
  failed (offsets_result answers) = true ↔ ∃ p code, (p, Err code) ∈ answers.
Proof.
  cbn. rewrite negb_true_iff, bool_decide_eq_false. split.
  - intros Hne. destruct (omap offset_notice (sort_by by_name answers)) as [|line l] eqn:E; [done|].
    assert (line ∈ omap offset_notice (sort_by by_name answers)) as Hin by (rewrite E; left).
    apply list_elem_of_omap in Hin as ([p [offset|code]] & Hin & Hn); [done|].
    rewrite sort_by_perm in Hin. by exists p, code.
  - intros (p & code & Hin) E.
    assert (is_Some (offset_notice (p, Err code))) as [line Hl] by done.
    rewrite <-(sort_by_perm by_name) in Hin.
    assert (line ∈ omap offset_notice (sort_by by_name answers)) as Hin'
      by (apply list_elem_of_omap; by exists (p, Err code)).
    rewrite E in Hin'. set_solver.
Qed.

Lemma elem_of_select `{RegexCrate} cluster selection exclude_internal p :
  p ∈ select_partitions cluster selection exclude_internal ↔
  p ∈ cluster ∧ (exclude_internal = true → is_internal p.1 = false) ∧
  ∃ rule, rule ∈ selection ∧ is_match (rule_topic rule) p.1 = true ∧
    filter_allows (rule_partitions rule) p.2 = true.
Proof.
  unfold select_partitions, selects, allows_topic, allows_partition.
  rewrite list_elem_of_filter, !andb_true_iff, negb_true_iff, andb_false_iff, !existsb_exists.
  setoid_rewrite list_elem_of_In. setoid_rewrite andb_true_iff.
  destruct exclude_internal; naive_solver.
Qed.

(** [get-offsets] reports what it was asked for. When it succeeds, its last
    request asked for the offset that [--time] names of exactly the partitions
    of the described topics that a rule of the flags matches, internal topics
    left out under the flag; and its lines are the partitions of the answer that
    have an offset. It never changes the cluster. *)
Theorem get_offsets_spec `{RegexCrate} (args : GetOffsetsArgs) :
  read_only_contract (get_offsets_run args) ∧
  ∀ W (world : ∀ c : admin_call, W → admin_answer c * W) (w w' : W) r log,
    ends_in world (get_offsets_run args) w (Ok r) w' log →
    ∃ s spec cluster partitions answer before,
      selection (go_topic_partitions args) (go_topic args) (go_partitions args) = Ok s ∧
      parse_offset_spec (go_time args) = Ok spec ∧
      partitions = select_partitions cluster s (go_exclude_internal_topics args) ∧
      partitions ≠ [] ∧
      log = before ++ [lookup_event partitions spec answer] ∧
      r = offsets_result (listed_offsets answer).
Proof.
  split.
  - apply harmless_intro. unfold get_offsets_run, list_partitions. harmless.
  - intros W world w w' r log Hrun. unfold get_offsets_run in Hrun.
    apply ends_in_bind_inv in Hrun as (s & w1 & l1 & l1' & [Hs [-> ->]]%ends_in_lift_inv & Hrun & ->).
    apply ends_in_bind_inv in Hrun as (spec & w2 & l2 & l2' & [Hp [-> ->]]%ends_in_lift_inv & Hrun & ->).
    apply ends_in_bind_inv in Hrun as ([] & w3 & l3 & l3' & _ & Hrun & ->).
    apply ends_in_bind_inv in Hrun as (cluster & w4 & l4 & l4' & _ & Hrun & ->).
    cbn zeta in Hrun. case_bool_decide as Hne; [done|].
    apply ends_in_bind_inv in Hrun as (answers & w5 & l5 & l5' & Hq & Hrun & ->).
    pose proof (run_trace (Σ := admin) world (offsets (M := cmd admin) (select_partitions cluster s
      (go_exclude_internal_topics args)) spec) w4) as (answer & Hl & Ho)%trace_offsets.
    unfold ends_in in Hq, Hrun. rewrite Hq in Hl, Ho. simpl in Hl, Ho. simplify_eq.
    cbn in Hrun. simplify_eq.
    eexists s, spec, cluster, _, answer, (l3 ++ l4). split_and!; try done.
    by rewrite app_nil_l, app_nil_l, app_nil_r, app_assoc.
Qed.
