(* ===== verification/GroupTables.v ===== *)
(** [consumer_groups/render.rs]: the tables that the consumer-groups command
    prints, and the CSV of [--export]. *)

From Stdlib Require Import Ascii.
From S2P Require Import Prelude Collections Rust Jvm Json KafkaErrors Output Program Admin Reset.

Definition MISSING : string := "-".


(** The widest of [widths], and at least [least]. *)
Definition width (least : nat) (widths : list nat) : nat := foldl Nat.max least widths.

(** [values.concat()], for the lines of a table. *)
Definition concat_text (lines : list string) : string := foldr (λ line text, line +:+ text) "" lines.

Definition or_missing {A} (show : A → string) (value : option A) : string :=
  match value with Some a => show a | None => MISSING end.

(** ** [--list] *)

Record ListedGroup := { lg_group_id : string; lg_group_type : string; lg_state : string }.

Definition listed_line (group_width : nat) (include_type include_state : bool)
    (id kind state : string) : string :=
  pad id group_width +:+ (if include_type then " " +:+ pad kind 20 else "") +:+
  (if include_state then " " +:+ pad state 20 else "") +:+ newline.

Definition list_table (groups : list ListedGroup) (include_type include_state : bool) : string :=
  let group_width := (width 15 (map (λ group, char_count (lg_group_id group)) groups) + 10)%nat in
  concat_text
    (listed_line group_width include_type include_state "GROUP" "TYPE" "STATE" ::
     map (λ group, listed_line group_width include_type include_state (lg_group_id group)
       (lg_group_type group) (lg_state group)) groups).

(** ** [--describe --offsets] *)

Record OffsetRow := {
  or_group : string;
  or_topic : option string;
  or_partition : option Z;
  or_leader_epoch : option Z;
  or_offset : option Z;
  or_log_end_offset : option Z;
  or_lag : option Z;
  or_consumer_id : option string;
  or_host : option string;
  or_client_id : option string
}.

(** [lag]: [end - offset] in [i64], which panics or wraps where it overflows;
    [checks] says which. *)
Definition lag (checks : bool) (offset log_end_offset : option Z) : outcome (option Z) :=
  match offset, log_end_offset with
  | Some offset, Some log_end =>
      if offset =? -1 then Done None
      else if fits_signed 64 (log_end - offset) then Done (Some (log_end - offset))
      else if checks then Panic else Done (Some (wrap_i64 (log_end - offset)))
  | _, _ => Done None
  end.

(** One line of the offsets table, from its ten columns. *)
Definition offsets_line (verbose : bool) (group_width topic_width consumer_width host_width : nat)
    (group topic partition epoch offset log_end lag consumer host client : string) : string :=
  newline +:+ pad group group_width +:+ " " +:+ pad topic topic_width +:+ " " +:+
  pad partition 10 +:+ " " +:+
  (if verbose then pad epoch 15 +:+ " " else "") +:+
  pad offset 15 +:+ " " +:+ pad log_end 15 +:+ " " +:+ pad lag 15 +:+ " " +:+
  pad consumer consumer_width +:+ " " +:+ pad host host_width +:+ " " +:+ client.

Definition offsets_table (rows : list OffsetRow) (verbose : bool) : string :=
  let text (field : OffsetRow → option string) row := default MISSING (field row) in
  let line := offsets_line verbose
    (width 15 (map (λ row, char_count (or_group row)) rows))
    (width 15 (map (λ row, char_count (text or_topic row)) rows))
    (width 15 (map (λ row, char_count (text or_consumer_id row)) rows))
    (width 15 (map (λ row, char_count (text or_host row)) rows)) in
  concat_text
    (line "GROUP" "TOPIC" "PARTITION" "LEADER-EPOCH" "CURRENT-OFFSET" "LOG-END-OFFSET" "LAG"
       "CONSUMER-ID" "HOST" "CLIENT-ID" ::
     map (λ row, line (or_group row) (text or_topic row) (or_missing pretty (or_partition row))
       (or_missing pretty (or_leader_epoch row)) (or_missing pretty (or_offset row))
       (or_missing pretty (or_log_end_offset row)) (or_missing pretty (or_lag row))
       (text or_consumer_id row) (text or_host row) (text or_client_id row)) rows) +:+ newline.

(** ** [--describe --members] *)

Record MemberRow := {
  mr_group : string;
  mr_consumer_id : string;
  mr_group_instance_id : string;
  mr_host : string;
  mr_client_id : string;
  mr_assignment : list Partition;
  mr_target_assignment : list Partition;
  mr_current_epoch : option Z;
  mr_target_epoch : option Z;
  mr_upgraded : option bool
}.

(** The partitions of each topic, in the order they come in. *)
Definition by_topic (assignment : list Partition) : list (string * list Z) :=
  foldl (λ topics '(topic, partition), bt_alter [] (λ ids, ids ++ [partition]) topic topics)
    [] assignment.

Definition assignment_string (assignment : list Partition) : string :=
  join ";" (sort (map (λ '(topic, partitions),
    topic +:+ ":" +:+ join "," (map pretty (sort partitions))) (by_topic assignment))).

Definition assignment_or_missing (assignment : list Partition) : string :=
  if bool_decide (assignment = []) then MISSING else assignment_string assignment.

Definition show_bool (b : bool) : string := if b then "true" else "false".

(** The columns that name a member, and those that [--verbose] adds. *)
Definition identity_columns (include_instance : bool)
    (group_width consumer_width instance_width host_width client_width : nat)
    (group consumer instance host client count : string) : string :=
  pad group group_width +:+ " " +:+ pad consumer consumer_width +:+ " " +:+
  (if include_instance then pad instance instance_width +:+ " " else "") +:+
  pad host host_width +:+ " " +:+ pad client client_width +:+ " " +:+ pad count 15 +:+ " ".

Definition detail_columns (migrating : bool) (current_width target_width : nat)
    (current_epoch current target_epoch target upgraded : string) : string :=
  pad current_epoch 15 +:+ " " +:+ pad current current_width +:+ " " +:+ pad target_epoch 15 +:+
  " " +:+ pad target target_width +:+ (if migrating then " " +:+ upgraded else "").

Definition members_table (rows : list MemberRow) (verbose : bool) : string :=
  let widest least (field : MemberRow → string) :=
    width least (map (λ row, char_count (field row)) rows) in
  let migrating := existsb (λ row, bool_decide (mr_upgraded row = Some false)) rows
    && existsb (λ row, bool_decide (mr_upgraded row = Some true)) rows in
  let identity := identity_columns
    (existsb (λ row, negb (bool_decide (mr_group_instance_id row = ""))) rows)
    (widest 15%nat mr_group) (widest 15%nat mr_consumer_id) (widest 17%nat mr_group_instance_id)
    (widest 15%nat mr_host) (widest 15%nat mr_client_id) in
  let detail := detail_columns migrating
    (widest 20%nat (λ row, assignment_or_missing (mr_assignment row)))
    (widest 20%nat (λ row, assignment_or_missing (mr_target_assignment row))) in
  newline +:+
  identity "GROUP" "CONSUMER-ID" "GROUP-INSTANCE-ID" "HOST" "CLIENT-ID" "#PARTITIONS" +:+
  (if verbose then
     detail "CURRENT-EPOCH" "CURRENT-ASSIGNMENT" "TARGET-EPOCH" "TARGET-ASSIGNMENT" "UPGRADED"
   else "") +:+ newline +:+
  concat_text (map (λ row,
    identity (mr_group row) (mr_consumer_id row) (mr_group_instance_id row) (mr_host row)
      (mr_client_id row) (pretty (Z.of_nat (length (mr_assignment row)))) +:+
    (if verbose then
       detail (or_missing pretty (mr_current_epoch row)) (assignment_or_missing (mr_assignment row))
         (or_missing pretty (mr_target_epoch row))
         (assignment_or_missing (mr_target_assignment row)) (or_missing show_bool (mr_upgraded row))
     else "") +:+ newline) rows).

(** ** [--describe --state] *)

Record StateRow := {
  sr_group : string;
  sr_coordinator : string;
  sr_assignment_strategy : string;
  sr_state : string;
  sr_members : nat;
  sr_group_epoch : option Z;
  sr_target_assignment_epoch : option Z
}.

Definition state_line (verbose : bool) (group_width coordinator_width : nat)
    (group coordinator strategy state epoch target members : string) : string :=
  newline +:+ pad group group_width +:+ " " +:+ pad coordinator coordinator_width +:+ " " +:+
  pad strategy 20 +:+ " " +:+ pad state 20 +:+ " " +:+
  (if verbose then pad epoch 15 +:+ " " +:+ pad target 25 +:+ " " else "") +:+ members.

Definition state_table (row : StateRow) (verbose : bool) : string :=
  let line := state_line verbose (char_count (sr_group row) `max` 15)%nat
    (char_count (sr_coordinator row) `max` 25)%nat in
  line "GROUP" "COORDINATOR (ID)" "ASSIGNMENT-STRATEGY" "STATE" "GROUP-EPOCH"
    "TARGET-ASSIGNMENT-EPOCH" "#MEMBERS" +:+
  line (sr_group row) (sr_coordinator row)
    (if bool_decide (sr_assignment_strategy row = "") then MISSING else sr_assignment_strategy row)
    (sr_state row) (or_missing pretty (sr_group_epoch row))
    (or_missing pretty (sr_target_assignment_epoch row)) (pretty (Z.of_nat (sr_members row))) +:+
  newline.

(** ** [--reset-offsets] *)

Definition GroupPlan : Type := string * Plan.

Definition reset_line (group_width topic_width : nat) (group topic partition offset : string)
    : string :=
  newline +:+ pad group group_width +:+ " " +:+ pad topic topic_width +:+ " " +:+
  pad partition 10 +:+ " " +:+ offset.

Definition reset_table (plans : list GroupPlan) : string :=
  let line := reset_line (width 15 (map (λ '(group, _), char_count group) plans))
    (width 15 (plans ≫= λ '(_, plan), map (λ '((topic, _), _), char_count topic) plan)) in
  (if bool_decide (plans = []) then "" else line "GROUP" "TOPIC" "PARTITION" "NEW-OFFSET") +:+
  concat_text (plans ≫= λ '(group, plan), map (λ '((topic, partition), offset),
    line group topic (pretty partition) (pretty offset)) plan) +:+ newline.

(** A character that makes Jackson quote a field. *)
Definition csv_special (c : ascii) : bool :=
  (c =? ",")%char || (byte_of c =? 34) || (byte_of c =? 10) || (byte_of c =? 13).

Fixpoint double_quotes (s : string) : string :=
  match s with
  | EmptyString => ""
  | String c s => (if byte_of c =? 34 then dquote +:+ dquote else String c "") +:+ double_quotes s
  end.

Definition csv_field (value : string) : string :=
  if contains_byte csv_special value then dquote +:+ double_quotes value +:+ dquote else value.

Definition csv_record (single_group : bool) (group : string) (entry : Partition * Z) : string :=
  let '((topic, partition), offset) := entry in
  (if single_group then "" else csv_field group +:+ ",") +:+
  csv_field topic +:+ "," +:+ pretty partition +:+ "," +:+ pretty offset.

Definition export_csv (plans : list GroupPlan) (single_group : bool) : string :=
  concat_text (plans ≫= λ '(group, plan),
    map (λ entry, csv_record single_group group entry +:+ newline) plan) +:+ newline.

(** ** [--delete-offsets] *)

Definition DeleteOffsetRow : Type := (string * option Z) * option string.

Definition delete_line (topic_width : nat) (topic partition status : string) : string :=
  newline +:+ pad topic topic_width +:+ " " +:+ pad partition 10 +:+ " " +:+ pad status 15.

(** The key that the rows are sorted by. *)
Definition delete_key (row : DeleteOffsetRow) : string := row.1.1 +:+ pretty (default (-1) row.1.2).

Definition delete_offsets_table (rows : list DeleteOffsetRow) : string :=
  let line := delete_line (width 15 (map (λ row, char_count row.1.1) rows)) in
  concat_text
    (line "TOPIC" "PARTITION" "STATUS" ::
     map (λ row : DeleteOffsetRow, line row.1.1 (or_missing pretty row.1.2)
       (match row.2 with None => "Successful" | Some error => "Error: " +:+ error end))
       (sort_by (λ a b, cmp (delete_key a) (delete_key b)) rows)) +:+ newline.

(** ** [--export] and [--from-file] *)

(** The entries of the plans, in order. *)
Definition plan_entries (plans : list GroupPlan) : list (string * Partition * Z) :=
  plans ≫= λ '(group, plan), map (λ entry : Partition * Z, (group, entry.1, entry.2)) plan.

Definition entry_record (single_group : bool) (entry : string * Partition * Z) : string :=
  csv_record single_group entry.1.1 (entry.1.2, entry.2).

Lemma export_csv_entries plans single_group :
  export_csv plans single_group =
    concat_text (map (λ record, record +:+ newline) (map (entry_record single_group) (plan_entries plans)))
      +:+ newline.
Proof.
  unfold export_csv. do 2 f_equal. induction plans as [|[group plan] plans IH]; [done|].
  unfold plan_entries in *. rewrite !bind_cons, !map_app, IH. f_equal. rewrite !map_map.
  by apply map_ext; intros [[topic partition] offset].
Qed.

(** A field that is written as it is. *)
Definition plain (value : string) : bool := negb (contains_byte csv_special value).

Definition plain_entry (entry : string * Partition * Z) : Prop :=
  let '(group, (topic, partition), offset) := entry in
  plain group = true ∧ plain topic = true ∧ in_signed 32 partition ∧ in_signed 64 offset.

Lemma plain_no sep value :
  plain value = true → csv_special sep = true → all_bytes (λ c, negb (c =? sep)%char) value = true.
Proof.
  unfold plain. rewrite contains_byte_none, negb_involutive. intros Hv Hs.
  eapply all_bytes_impl; [|exact Hv]. intros c Hc. apply negb_true_iff.
  apply Ascii.eqb_neq. intros ->. by rewrite Hs in Hc.
Qed.

Lemma plain_pretty (z : Z) : plain (pretty z) = true.
Proof.
  unfold plain. rewrite contains_byte_none, negb_involutive.
  eapply all_bytes_impl; [|apply pretty_bytes]. intros c Hc.
  by destruct c as [[] [] [] [] [] [] [] []].
Qed.

Lemma csv_field_plain value : plain value = true → csv_field value = value.
Proof. unfold plain, csv_field. by intros ->%negb_true_iff. Qed.

(** The fields of a record. *)
Definition record_fields (single_group : bool) (entry : string * Partition * Z) : list string :=
  let '(group, (topic, partition), offset) := entry in
  (if single_group then [] else [group]) ++ [topic; pretty partition; pretty offset].

Lemma split_record single_group entry :
  plain_entry entry →
  split_char "," (entry_record single_group entry) = record_fields single_group entry.
Proof.
  destruct entry as [[group [topic partition]] offset]. intros (Hg & Ht & _ & _).
  assert (∀ value rest, plain value = true →
    split_char "," (value +:+ "," +:+ rest) = value :: split_char "," rest) as Hsplit.
  { intros value rest Hv. by apply split_char_app, plain_no. }
  assert (split_char "," (csv_field topic +:+ "," +:+ pretty partition +:+ "," +:+ pretty offset) =
    [topic; pretty partition; pretty offset]) as Htail.
  { rewrite csv_field_plain, !Hsplit by (done || apply plain_pretty).
    by rewrite split_char_whole by (apply plain_no; [apply plain_pretty|done]). }
  unfold entry_record, csv_record, record_fields. cbn [fst snd].
  destruct single_group; [by rewrite str_app_nil_l|].
  by rewrite csv_field_plain, str_app_assoc, Hsplit, Htail.
Qed.

(** A record has no line break, and is not empty. *)
Lemma record_line single_group entry :
  plain_entry entry →
  all_bytes (λ c, negb (c =? ascii_of_nat 10)%char) (entry_record single_group entry) = true ∧
  entry_record single_group entry ≠ "".
Proof.
  intros He. split.
  - destruct entry as [[group [topic partition]] offset]. destruct He as (Hg & Ht & _ & _).
    unfold entry_record, csv_record. cbn [fst snd]. rewrite !csv_field_plain by done.
    rewrite !all_bytes_app.
    rewrite (plain_no _ topic), (plain_no _ (pretty partition)), (plain_no _ (pretty offset))
      by (done || apply plain_pretty).
    destruct single_group; [done|]. by rewrite all_bytes_app, (plain_no _ group).
  - intros E. apply (split_record single_group) in He. rewrite E in He.
    destruct entry as [[group [topic partition]] offset]. by destruct single_group.
Qed.

Lemma split_lines (records : list string) :
  Forall (λ r, all_bytes (λ c, negb (c =? ascii_of_nat 10)%char) r = true) records →
  split_char (ascii_of_nat 10) (concat_text (map (λ r, r +:+ newline) records) +:+ newline) =
    records ++ [""; ""].
Proof.
  induction 1 as [|r records Hr _ IH]; [done|]. cbn [map concat_text foldr].
  change (newline) with (String (ascii_of_nat 10) "") at 1.
  rewrite str_app_assoc, str_app_assoc. change (String ?c "" +:+ ?s) with (String c s).
  rewrite split_char_app by done. cbn [app]. f_equal. exact IH.
Qed.

(** The lines that [--from-file] reads of an export. *)
Lemma export_lines plans single_group :
  plan_entries plans ≠ [] → Forall plain_entry (plan_entries plans) →
  java_split (export_csv plans single_group) (ascii_of_nat 10) =
    map (entry_record single_group) (plan_entries plans).
Proof.
  intros Hne Hp. unfold java_split. rewrite export_csv_entries, split_lines.
  2:{ apply Forall_map. eapply Forall_impl; [exact Hp|]. intros e He. by apply record_line. }
  destruct (plan_entries plans) as [|e entries]; [done|]. cbn [map app]. f_equal. clear Hne.
  apply Forall_cons in Hp as [_ Hp]. induction Hp as [|e' entries He' _ IH]; [done|].
  cbn [map app foldr]. rewrite IH. destruct (map _ entries); [|done].
  apply (record_line single_group) in He' as [_ He']. by rewrite bool_decide_false.
Qed.

Lemma record3_entry group topic partition offset :
  plain_entry (group, (topic, partition), offset) →
  record3 (entry_record true (group, (topic, partition), offset)) = Some (topic, partition, offset).
Proof.
  intros He. unfold record3. rewrite split_record by done. destruct He as (_ & _ & Hp & Ho).
  simpl. unfold parse_i32, parse_i64. by rewrite !parse_signed_pretty.
Qed.

Lemma record4_entry group topic partition offset :
  plain_entry (group, (topic, partition), offset) →
  record4 (entry_record false (group, (topic, partition), offset)) =
    Some (group, (topic, partition, offset)).
Proof.
  intros He. unfold record4. rewrite split_record by done. destruct He as (_ & _ & Hp & Ho).
  simpl. unfold parse_i32, parse_i64. by rewrite !parse_signed_pretty.
Qed.

Lemma parse_exported_lines without_group entries file :
  Forall plain_entry entries →
  (∀ g, without_group = Some g → Forall (λ e : string * Partition * Z, e.1.1 = g) entries) →
  parse_reset_lines without_group (map (entry_record (is_some without_group)) entries) file =
    Ok (put_all entries file).
Proof.
  intros Hp. revert file. induction Hp as [|[[group [topic partition]] offset] entries He _ IH];
    intros file Hg; [done|].
  cbn [map parse_reset_lines]. destruct without_group as [g|]; cbn [is_some] in *.
  - destruct (proj1 (Forall_cons _ _ _) (Hg g eq_refl)) as [Hgroup Hrest]. simpl in Hgroup. subst g.
    rewrite record3_entry by done. cbn. apply IH. by intros g [= <-].
  - rewrite record4_entry by done. cbn. by apply IH.
Qed.

(** C13. [--from-file] reads back what [--export] writes: for plans that have an entry
    and at most one for each group and partition, whose names need no quoting and whose
    numbers fit their types, and that are all of the one group where the command line
    names one only, the text of the export, read with the same [--group] flags, gives
    each group exactly the offsets of its plan. Without an entry the export is refused,
    see [export_not_read_back]. *)
Theorem export_round_trip (plans : list GroupPlan) (groups : list string) :
  plan_entries plans ≠ [] → Forall plain_entry (plan_entries plans) →
  NoDup (map fst (plan_entries plans)) →
  (∀ group, groups = [group] → Forall (λ e : string * Partition * Z, e.1.1 = group) (plan_entries plans)) →
  ∃ file,
    parse_reset_file (export_csv plans (length groups =? 1)%nat) groups = Ok file ∧
    ∀ group p offset, bt_get2 group p file = Some offset ↔ (group, p, offset) ∈ plan_entries plans.
Proof.
  intros Hne Hp Hnd Hg. exists (put_all (plan_entries plans) []). split.
  - unfold parse_reset_file. rewrite export_lines by done.
    destruct groups as [|group [|group' groups]]; cbn [length Nat.eqb];
      [by apply (parse_exported_lines None)| |by apply (parse_exported_lines None)].
    specialize (Hg group eq_refl).
    destruct (plan_entries plans) as [|[[g [topic partition]] offset] entries] eqn:E; [done|].
    cbn [map]. rewrite record3_entry by (by apply Forall_cons in Hp as [? _]). cbn [is_some].
    apply (parse_exported_lines (Some group) (_ :: _)); [done|]. by intros g' [= <-].
  - intros group p offset. split.
    + intros Hget. destruct (decide (Exists (λ e, e.1 = (group, p)) (plan_entries plans))) as [Hin|Hno].
      * apply Exists_exists in Hin as ([key v] & Hin & [= ->]).
        rewrite (put_all_present _ _ group p v) in Hget; [by simplify_eq|apply bt_wf2_nil|done|].
        intros v' Hin'. by apply (NoDup_fst_functional (plan_entries plans) (group, p)).
      * rewrite put_all_absent in Hget; [done|apply bt_wf2_nil|]. intros v Hin. apply Hno.
        apply Exists_exists. by exists (group, p, v).
    + intros Hin. apply put_all_present; [apply bt_wf2_nil|done|].
      intros v' Hin'. by apply (NoDup_fst_functional (plan_entries plans) (group, p)).
Qed.

Definition sample_plans : list GroupPlan :=
  [("billing", [(("orders", 0), 5); (("orders", 1), 0)]); ("audit", [(("orders", 0), -1)])].

Lemma export_round_trip_witness :
  export_csv sample_plans false =
    "billing,orders,0,5" +:+ newline +:+ "billing,orders,1,0" +:+ newline +:+
    "audit,orders,0,-1" +:+ newline +:+ newline ∧
  ∃ file, parse_reset_file (export_csv sample_plans false) [] = Ok file ∧
    ∀ group p offset, bt_get2 group p file = Some offset ↔ (group, p, offset) ∈ plan_entries sample_plans.
Proof.
  split; [vm_compute; reflexivity|]. apply (export_round_trip sample_plans []); [done|..|done].
  - unfold plan_entries. simpl. repeat constructor; vm_compute; done.
  - apply (bool_decide_unpack _). vm_compute. exact I.
Defined.

(** ** What [--from-file] does not read back *)

(** A name that needs quotes is written in quotes, but read without regard to
    them: the record is refused, or taken for one of another group. The export of
    plans without entries, one empty line, is refused. *)
Theorem export_not_read_back :
  parse_reset_file (export_csv [("billing", [(("a,b", 0), 5)])] true) ["billing"] =
    Ok [(dquote +:+ "a", [(("b" +:+ dquote, 0), 5)])] ∧
  parse_reset_file (export_csv [("a,b", [(("orders", 0), 5)])] false) ["a,b"; "billing"] =
    Err (Other ("Unable to parse the reset plan line: " +:+ dquote +:+ "a,b" +:+ dquote +:+ ",orders,0,5")) ∧
  parse_reset_file (export_csv [("billing", [])] true) ["billing"] =
    Err (Other "Unable to parse the reset plan line: ").
Proof. vm_compute. done. Qed.
