(* ===== verification/Interleave.v ===== *)
(** [fan_out.rs] over commands: a batch of futures that send requests of their
    own, with a bounded number in flight.

    [FanOut] has the loop of [bounded] itself, for futures of which only the
    moment they are ready is known. Here a future is a program, so that its calls
    and those of the others interleave: a schedule says which future in flight
    makes its next call. What is proved for every schedule holds for every order
    in which the answers arrive. *)

From S2P Require Import Prelude Program Admin.

Section Interleave.
Context {Σ : Signature} {A : Type}.

Definition unfinished (p : prog Σ A) : bool := match p with Vis _ _ => true | Halt _ => false end.

Definition panicked (p : prog Σ A) : bool := match p with Halt Panic => true | _ => false end.

(** The futures in flight: the first that are not finished, at least one, since
    [bounded] starts the items in order whenever there is room. *)
Definition in_flight (limit : nat) (futures : list (prog Σ A)) : list nat :=
  take (Nat.max limit 1)
    (omap (λ '(i, p), if unfinished p then Some i else None) (imap pair futures)).

(** Runs what is left in order. *)
Fixpoint in_order (futures : list (prog Σ A)) : prog Σ (list A) :=
  match futures with
  | [] => Halt (Done [])
  | p :: futures =>
      prog_bind (λ a, prog_bind (λ rest, Halt (Done (a :: rest))) (in_order futures)) p
  end.

(** [fan_out::bounded], where each number of the schedule picks the future in
    flight that goes on. A future that panics takes the task with it. *)
Fixpoint interleave (limit : nat) (schedule : list nat) (futures : list (prog Σ A))
    : prog Σ (list A) :=
  match schedule with
  | [] => in_order futures
  | slot :: schedule =>
      if existsb panicked futures then Halt Panic
      else
        match i ← in_flight limit futures !! slot; (i,.) <$> futures !! i with
        | Some (i, Vis c k) => Vis c (λ r, interleave limit schedule (<[i := k r]> futures))
        | _ => interleave limit schedule futures
        end
  end.

(** ** What every schedule has in common *)

(** The step that a schedule takes: some future makes its next call. *)
Lemma interleave_cons limit slot schedule futures :
  (interleave limit (slot :: schedule) futures = Halt Panic ∧ existsb panicked futures = true) ∨
  interleave limit (slot :: schedule) futures = interleave limit schedule futures ∨
  ∃ i c k, futures !! i = Some (Vis c k) ∧
    interleave limit (slot :: schedule) futures =
      Vis c (λ r, interleave limit schedule (<[i := k r]> futures)).
Proof.
  cbn [interleave]. destruct (existsb panicked futures); [by left|right].
  destruct (in_flight limit futures !! slot) as [i|]; [|by left]. cbn.
  destruct (futures !! i) as [[o|c k]|] eqn:Hi; cbn; [by left| |by left]. right. by exists i, c, k.
Qed.

(** The events of the futures, kept apart: each future has its own trace, in
    order, and together they are all that happened. *)
Definition each_trace (futures : list (prog Σ A)) (logs : list (list (event Σ))) (l : list A) : Prop :=
  Forall2 (λ p entry, trace p entry.1 (Done entry.2)) futures (zip logs l) ∧
  length logs = length l.

Lemma trace_in_order futures log l :
  trace (in_order futures) log (Done l) →
  ∃ logs, each_trace futures logs l ∧ log = concat logs.
Proof.
  revert log l. induction futures as [|p futures IH]; intros log l Ht; cbn [in_order] in Ht.
  { destruct Ht as [-> [= ->]]. exists []. split; [|done]. split; [constructor|done]. }
  apply trace_bind_inv in Ht as (log1 & [a| |] & Hp & Ht); [|by destruct Ht..].
  destruct Ht as (log2 & -> & Ht).
  apply trace_bind_inv in Ht as (log3 & [rest| |] & Hrest & Ht); [|by destruct Ht..].
  destruct Ht as (log4 & -> & [-> [= ->]]). apply IH in Hrest as (logs & [HF Hl] & ->).
  exists (log1 :: logs). split; [split; [by constructor|cbn; by f_equal]|]. cbn. by rewrite app_nil_r.
Qed.

(** The events of one run belong to the futures that made them. *)
Lemma trace_interleave limit schedule futures log l :
  trace (interleave limit schedule futures) log (Done l) →
  ∃ logs, each_trace futures logs l ∧ log ≡ₚ concat logs ∧
    Forall (λ own, own `sublist_of` log) logs.
Proof.
  revert futures log. induction schedule as [|slot schedule IH]; intros futures log Ht.
  { apply trace_in_order in Ht as (logs & Hlogs & ->). exists logs. split_and!; [done..|].
    clear Hlogs. induction logs as [|own logs IH]; [done|]. constructor; cbn.
    - by apply sublist_inserts_r.
    - eapply Forall_impl; [exact IH|]. intros own' Hown. by apply sublist_inserts_l. }
  destruct (interleave_cons limit slot schedule futures) as [[E _]|[E|(i & c & k & Hi & E)]];
    rewrite E in Ht; [by destruct Ht|by apply IH|].
  destruct Ht as (r & log' & -> & Ht). apply IH in Ht as (logs & [HF Hl] & Hperm & Hsub).
  apply Forall2_length in HF as Hlen. rewrite length_insert, length_zip, Hl, Nat.min_id in Hlen.
  assert (is_Some (logs !! i)) as [own Hown].
  { apply lookup_lt_is_Some. apply lookup_lt_Some in Hi. lia. }
  assert (is_Some (l !! i)) as [a Ha].
  { apply lookup_lt_is_Some. apply lookup_lt_Some in Hi. lia. }
  exists (<[i := existT c r :: own]> logs). split_and!.
  - split; [|by rewrite length_insert].
    replace futures with (<[i := Vis c k]> (<[i := k r]> futures))
      by (by rewrite list_insert_insert_eq, list_insert_id).
    assert (zip (<[i := existT c r :: own]> logs) l =
      <[i := (existT c r :: own, a)]> (zip logs l)) as ->.
    { rewrite <-(list_insert_id l i a) at 1 by done. by rewrite insert_zip_with. }
    apply Forall2_insert; [done|]. cbn. exists r, own. split; [done|].
    apply (Forall2_lookup_lr _ _ _ i (k r) (own, a) HF).
    + apply list_lookup_insert_eq. by apply lookup_lt_Some in Hi.
    + by apply lookup_zip_Some.
  - rewrite Hperm. rewrite <-(take_drop_middle logs i own Hown) at 1.
    rewrite insert_take_drop by (by apply lookup_lt_Some in Hown).
    rewrite !concat_app. cbn. apply Permutation_middle.
  - apply Forall_insert; [|].
    + eapply Forall_impl; [exact Hsub|]. intros x Hx. by apply sublist_cons.
    + apply sublist_skip. by eapply (Forall_lookup_1 _ _ _ _ Hsub).
Qed.
End Interleave.

(** Futures that only read make a batch that only reads. *)
Lemma harmless_interleave {A} limit schedule (futures : list (prog admin A)) :
  (∀ p, p ∈ futures → harmless p) → harmless (interleave limit schedule futures).
Proof.
  revert futures. induction schedule as [|slot schedule IH]; intros futures Hf.
  { cbn. induction futures as [|p futures IH]; [done|]. cbn [in_order].
    apply harmless_prog_bind; [apply Hf; left|]. intros a.
    apply harmless_prog_bind; [|done]. apply IH. intros q Hq. apply Hf. by right. }
  destruct (interleave_cons limit slot schedule futures) as [[-> _]|[-> |(i & c & k & Hi & ->)]];
    [done|by apply IH|].
  destruct (Hf _ (list_elem_of_lookup_2 _ _ _ Hi)) as [Hc Hk]. split; [done|]. intros r. apply IH.
  intros p Hin. apply list_elem_of_lookup in Hin as [j Hj].
  destruct (decide (i = j)) as [<-|Hij].
  - rewrite list_lookup_insert_eq in Hj by (by apply lookup_lt_Some in Hi). injection Hj as <-. apply Hk.
  - rewrite list_lookup_insert_ne in Hj by done. apply Hf. by apply list_elem_of_lookup_2 in Hj.
Qed.
