(* ===== verification/ConsumerGroups.v ===== *)
(** [consumer_groups.rs]: list, describe, delete, delete offsets and reset
    offsets, as a tree of admin calls; the tables are in [GroupTables], the
    planner of a reset in [Reset].

    The groups of [--describe --offsets] are read concurrently ([Interleave]); what
    is proved holds for every schedule. *)

From Stdlib Require Import Ascii.
From S2P Require Import Connection.
From S2P Require Import Prelude Collections Rust Patterns Jvm Json KafkaErrors Output Program Admin.
From S2P Require Import Reset GetOffsets GroupTables Interleave.

Definition GROUP_FAN_OUT : nat := 8.
Definition GROUP_ID_NOT_FOUND : Z := 69.
Definition NON_EMPTY_GROUP : Z := 68.
Definition UNKNOWN_SERVER_ERROR : Z := -1.

Definition CONSUMER_GROUP_STATES : list string :=
  ["Dead"; "CompletingRebalance"; "Empty"; "Stable"; "Assigning"; "Reconciling";
   "PreparingRebalance"].
Definition CONSUMER_GROUP_TYPES : list string := ["Consumer"; "Classic"].

(** The flags. A flag without a value is whether it was given. *)
Record ConsumerGroupsArgs := {
  cga_connection : ConnectionArgs;
  cga_list : bool;
  cga_describe : bool;
  cga_delete : bool;
  cga_reset_offsets : bool;
  cga_delete_offsets : bool;
  cga_validate_regex : option string;
  cga_group : list string;
  cga_all_groups : bool;
  cga_topic : list string;
  cga_all_topics : bool;
  cga_execute : bool;
  cga_export : bool;
  cga_to_offset : option Z;
  cga_to_earliest : bool;
  cga_to_latest : bool;
  cga_to_current : bool;
  cga_shift_by : option Z;
  cga_to_datetime : option string;
  cga_by_duration : option string;
  cga_from_file : option string;
  cga_members : bool;
  cga_offsets : bool;
  cga_state : option string;
  cga_group_type : option string;
  cga_confirm : ConfirmArgs
}.

(** ** Data *)

Record Member := {
  consumer_id : string;
  group_instance_id : option string;
  member_client_id : string;
  host : string;
  assignment : list Partition;
  target_assignment : option (list Partition);
  epoch : option Z;
  upgraded : option bool
}.

Record GroupDescription := {
  gd_state : string;
  gd_coordinator : string * Z * Z;
  gd_partition_assignor : string;
  gd_members : list Member;
  gd_group_epoch : option Z;
  gd_target_assignment_epoch : option Z
}.

Definition member_of (m : MemberDescription) : Member :=
  {| consumer_id := md_member_id m; group_instance_id := md_group_instance_id m;
     member_client_id := md_client_id m; host := md_host m; assignment := md_assignment m;
     target_assignment := md_target_assignment m; epoch := md_member_epoch m;
     upgraded := md_upgraded m |}.

Definition group_description (d : ConsumerGroupDescription) : GroupDescription :=
  {| gd_state := cg_group_state d; gd_coordinator := cg_coordinator d;
     gd_partition_assignor := cg_partition_assignor d; gd_members := map member_of (cg_members d);
     gd_group_epoch := cg_group_epoch d;
     gd_target_assignment_epoch := cg_target_assignment_epoch d |}.

Definition listing_order (listed : list GroupListing) : list GroupListing :=
  hash_order listed Default (λ group, string_hash (gl_group_id group)).

Definition list_failure (failure : ListGroupsError) : CommandError :=
  let exception := for_code (error_code (lge_error failure)) in
  let node := lge_host failure +:+ ":" +:+ pretty (lge_port failure) +:+ " (id: " +:+
    pretty (lge_node_id failure) +:+ " rack: null isFenced: false)" in
  let text := exc_class exception +:+ ": Error listing groups on " +:+ node in
  Other (match error_message (lge_error failure) with
         | Some message => if bool_decide (message = "") then text else text +:+ ": " +:+ message
         | None => text
         end).

(** [lines]: the lines of a rendered table. *)
Definition text_lines (text : string) : list string :=
  if bool_decide (text = "") then []
  else split_char (ascii_of_nat 10) (default text (strip_suffix newline text)).

(** [usage]. *)
Definition usage_error (message : string) : CommandError := Other message.

(** ** The checks of the flags *)

Definition takes_group (action : string) : CommandError :=
  usage_error ("Option [" +:+ action +:+ "] takes one of these options: [all-groups], [group]").

(** [if condition { return Err(error) }]. *)
Definition refuse (condition : bool) (error : CommandError) : result CommandError unit :=
  if condition then Err error else Ok tt.

Definition check_describe (args : ConsumerGroupsArgs) (groups : bool) : result CommandError unit :=
  _ ← refuse (negb groups && negb (cga_all_groups args)) (takes_group "describe");
  _ ← refuse (1 <? length (filter (eq true)
                [cga_members args; cga_offsets args; is_some (cga_state args)]))%nat
        (usage_error "Option [describe] takes at most one of these options: [members], [offsets], [state]");
  refuse (match cga_state args with Some state => negb (bool_decide (state = "")) | None => false end)
    (usage_error "Option [describe] does not take a value for [state]").

Definition check_delete (args : ConsumerGroupsArgs) (groups : bool) : result CommandError unit :=
  _ ← refuse (negb groups && negb (cga_all_groups args)) (takes_group "delete");
  refuse (negb (bool_decide (cga_topic args = [])))
    (usage_error "The consumer does not support topic-specific offset deletion from a consumer group.").

Definition check_args (args : ConsumerGroupsArgs) (verbose : bool) : result CommandError unit :=
  let groups := negb (bool_decide (cga_group args = [])) in
  let no_topic := bool_decide (cga_topic args = []) in
  let cannot (option other : string) :=
    usage_error ("Option " +:+ dquote +:+ "[" +:+ option +:+ "]" +:+ dquote +:+
                 " can't be used with option " +:+ dquote +:+ "[" +:+ other +:+ "]" +:+ dquote) in
  _ ← refuse (verbose && negb (cga_describe args))
        (usage_error "Option(s) [verbose] are unavailable given other options on the command line");
  _ ← if cga_describe args then check_describe args groups else Ok tt;
  _ ← if cga_delete args then check_delete args groups else Ok tt;
  _ ← refuse (cga_delete_offsets args && (negb groups || no_topic))
        (usage_error "Option [delete-offsets] takes the following options: [topic], [group]");
  _ ← refuse (cga_reset_offsets args && negb groups && negb (cga_all_groups args))
        (takes_group "reset-offsets");
  _ ← refuse (groups && cga_all_groups args) (cannot "group" "all-groups");
  _ ← refuse (groups && cga_list args) (cannot "group" "list");
  _ ← refuse (negb no_topic && (cga_list args || cga_describe args))
        (cannot "topic" (if cga_list args then "list" else "describe"));
  refuse (dry_run_flag (cga_confirm args) && (cga_list args || cga_describe args))
    (usage_error "--dry-run is only valid with --reset-offsets, --delete or --delete-offsets").

(** ** The groups *)

(** [listed.all()], in Kafka's order. *)
Definition listed_all (options : ListGroupsOptions) : cmd admin (list GroupListing) :=
  listed ← try_admin (send (ListGroups options));
  listed ← lift_cmd (map_err list_failure listed);
  pure (listing_order listed).

Definition for_consumer_groups : ListGroupsOptions := {| lg_states := []; lg_types := None |}.

Definition all_groups : cmd admin (list string) :=
  listed ← listed_all for_consumer_groups; pure (map gl_group_id listed).

(** [groups.retain(|group| seen.insert(group.clone()))]: the first of each. *)
Fixpoint first_of_each (seen groups : list string) : list string :=
  match groups with
  | [] => []
  | group :: groups =>
      if bool_decide (group ∈ seen) then first_of_each seen groups
      else group :: first_of_each (group :: seen) groups
  end.

Definition target_groups (args : ConsumerGroupsArgs) : cmd admin (list string) :=
  groups ← if cga_all_groups args then all_groups else pure (cga_group args);
  pure (first_of_each [] groups).

(** ** [--list] *)

Definition known_names (kind : string) (valid : list string) (input : string)
    : result CommandError (list string) :=
  try_map (λ name,
    ok_or (snd <$> list_find (λ known, eq_ignore_ascii_case known (trim name) = true) valid)
      (usage_error ("Invalid " +:+ kind +:+ " list '" +:+ input +:+ "'. Valid " +:+
                    (if bool_decide (kind = "state") then "states" else kind) +:+ " are: " +:+
                    join ", " valid))) (split_char "," input).

Definition group_states : string → result CommandError (list string) :=
  known_names "state" CONSUMER_GROUP_STATES.
Definition group_types : string → result CommandError (list string) :=
  known_names "types" CONSUMER_GROUP_TYPES.

(** The names of a [--state] or [--type] value; none for an empty one. *)
Definition optional_names (parse : string → result CommandError (list string))
    (value : option string) : result CommandError (list string) :=
  match value with
  | Some value => if bool_decide (value = "") then Ok [] else parse value
  | None => Ok []
  end.

Definition listed_group (listing : GroupListing) : ListedGroup :=
  {| lg_group_id := gl_group_id listing;
     lg_group_type := default "Unknown" (gl_group_type listing);
     lg_state := default "Unknown" (gl_group_state listing) |}.

Definition listed_json (group : string) (kind state : Value) : Value :=
  object_of [("group", Str group); ("type", kind); ("state", state)].

Definition list_groups (args : ConsumerGroupsArgs) : cmd admin CommandResult :=
  if is_some (cga_state args) || is_some (cga_group_type args) then
    states ← lift_cmd (optional_names group_states (cga_state args));
    types ← lift_cmd (optional_names group_types (cga_group_type args));
    listed ← listed_all {| lg_states := states; lg_types := Some types |};
    let listed := map listed_group listed in
    pure (success
      (text_lines (list_table listed (is_some (cga_group_type args)) (is_some (cga_state args))))
      (Array (map (λ group, listed_json (lg_group_id group) (Str (lg_group_type group))
        (Str (lg_state group))) listed)))
  else
    groups ← all_groups;
    pure (success groups (Array (map (λ group, listed_json group Null Null) groups))).

(** ** Descriptions and layouts *)

(** [describe_raw]: the answer as the map it is. *)
Definition describe_raw (groups : list string)
    : prog admin (list (string * result KafkaError ConsumerGroupDescription)) :=
  if bool_decide (groups = []) then Halt (Done [])
  else prog_bind (λ answer, Halt (Done (bt_collect answer))) (send (DescribeConsumerGroups groups)).

Definition describe (groups : list string)
    : prog admin (list (string * result CommandError GroupDescription)) :=
  prog_bind (λ described, Halt (Done (map (λ group,
    (group, match bt_get group described with
            | Some (Ok description) => Ok (group_description description)
            | Some (Err error) => Err (Other (throwable_text error))
            | None => Err (Other ("the coordinator did not describe group " +:+ group))
            end)) groups))) (describe_raw groups).

Definition TopicLayout : Type := list (string * result KafkaError (list (Z * bool))).

Definition layout_of (description : TopicDescription) : list (Z * bool) :=
  map (λ p, (pd_partition p, is_some (pd_leader p))) (td_partitions description).

Definition topic_layout (topics : list string) : prog admin TopicLayout :=
  if bool_decide (topics = []) then Halt (Done [])
  else
    prog_bind (λ answer, Halt (Done (bt_collect
      (map (λ '(topic, description),
        (topic, match description with Ok d => Ok (layout_of d) | Err e => Err e end)) answer))))
      (send (DescribeTopics topics None)).

(** [sort_unstable(); dedup()]. *)
Definition topics_of (partitions : list Partition) : list string :=
  set_collect (map fst partitions).

Definition layout_failure (layout : TopicLayout) : option KafkaError :=
  head (omap (λ '(_, layout), match layout with Err error => Some error | Ok _ => None end) layout).

(** The partitions that have a leader. *)
Definition is_led (layout : TopicLayout) (p : Partition) : bool :=
  match bt_get p.1 layout with Some (Ok ids) => bool_decide ((p.2, true) ∈ ids) | _ => false end.
Definition led_partitions (layout : TopicLayout) (partitions : list Partition) : list Partition :=
  filter (λ p, is_led layout p = true) partitions.

Definition log_end_offsets (partitions : list Partition) : cmd admin (list (Partition * Z)) :=
  if bool_decide (partitions = []) then pure []
  else
    layout ← await (topic_layout (topics_of partitions));
    match layout_failure layout with
    | Some error => throw (Other (throwable_text error))
    | None =>
        let led := led_partitions layout partitions in
        if bool_decide (led = []) then pure []
        else
          answers ← offsets (M := cmd admin) led Latest;
          lift_cmd (known answers)
    end.

(** The leader flag of a partition, where the layout has it. *)
Definition find_partition (layout : TopicLayout) (p : Partition) : option bool :=
  match bt_get p.1 layout with
  | Some (Ok ids) => (λ x : nat * (Z * bool), x.2.2) <$> list_find (λ x : Z * bool, x.1 = p.2) ids
  | _ => None
  end.

Definition names_where (wanted : option bool → bool) (layout : TopicLayout)
    (partitions : list Partition) : string :=
  join "," (map partition_name (filter (λ p, wanted (find_partition layout p) = true) partitions)).

Definition check_partitions_valid (partitions : list Partition) : cmd admin unit :=
  if bool_decide (partitions = []) then pure tt
  else
    layout ← await (topic_layout (topics_of partitions));
    let missing := names_where (λ found, negb (is_some found)) layout partitions in
    if negb (bool_decide (missing = "")) then
      throw (Other ("The partitions " +:+ dquote +:+ missing +:+ dquote +:+ " do not exist"))
    else
      let leaderless := names_where (λ found, bool_decide (found = Some false)) layout partitions in
      if negb (bool_decide (leaderless = "")) then
        throw (Other ("The partitions " +:+ dquote +:+ leaderless +:+ dquote +:+ " have no leader"))
      else pure tt.

(** ** [--describe] *)

(** What [member_state] prints: text for stdout, lines for stderr, and whether
    the group's table follows. *)
Definition member_state (group state : string) (rows : nat)
    : result CommandError (string * list string * bool) :=
  let some_rows := (0 <? rows)%nat in
  if bool_decide (state = "Dead") then
    Ok (newline +:+ "Error: Consumer group '" +:+ group +:+ "' does not exist." +:+ newline, [], false)
  else if bool_decide (state = "Empty") then
    Ok ("", [""; "Consumer group '" +:+ group +:+ "' has no active members."], some_rows)
  else if bool_decide (state ∈ ["PreparingRebalance"; "CompletingRebalance"; "Assigning"; "Reconciling"])
  then Ok ("", [""; "Warning: Consumer group '" +:+ group +:+ "' is rebalancing."], some_rows)
  else if bool_decide (state = "Stable") then Ok ("", [], some_rows)
  else Err (Other
    ("org.apache.kafka.common.KafkaException: Expected a valid consumer group state, but found '" +:+
     state +:+ "'.")).

Definition group_failure (group : string) (error : CommandError) : string :=
  "Error: Executing consumer group command failed for group '" +:+ group +:+ "' due to " +:+
  command_error_text error.

Definition failure_json (group : string) (error : CommandError) : Value :=
  object_of [("group", Str group); ("error", Str (command_error_text error))].

(** What one group adds to a report. *)
Record GroupReport := {
  gr_text : string; gr_data : list Value; gr_notices : list string; gr_failed : bool
}.

Definition failed_group (group : string) (error : CommandError) : GroupReport :=
  {| gr_text := ""; gr_data := [failure_json group error];
     gr_notices := [group_failure group error]; gr_failed := true |}.

(** The report of the groups, in order. *)
Definition group_reports (reports : list GroupReport) : CommandResult :=
  with_notices
    (rows (text_lines (concat_text (map gr_text reports))) (Array (reports ≫= gr_data))
      (existsb gr_failed reports))
    (reports ≫= gr_notices).

Definition member_row_json (row : MemberRow) : Value :=
  object_of [("consumer_id", Str (mr_consumer_id row));
    ("group_instance_id", Str (mr_group_instance_id row)); ("host", Str (mr_host row));
    ("client_id", Str (mr_client_id row));
    ("partitions", num (Z.of_nat (length (mr_assignment row))))].

Definition member_rows (group : string) (description : GroupDescription) : list MemberRow :=
  map (λ member, {| mr_group := group; mr_consumer_id := consumer_id member;
    mr_group_instance_id := default "" (group_instance_id member); mr_host := host member;
    mr_client_id := member_client_id member; mr_assignment := assignment member;
    mr_target_assignment := default [] (target_assignment member);
    mr_current_epoch := epoch member;
    mr_target_epoch := gd_target_assignment_epoch description;
    mr_upgraded := upgraded member |}) (gd_members description).

Definition state_row (group : string) (description : GroupDescription) : StateRow :=
  let '(host, port, id) := gd_coordinator description in
  {| sr_group := group;
     sr_coordinator := host +:+ ":" +:+ pretty port +:+ "  (" +:+ pretty id +:+ ")";
     sr_assignment_strategy := gd_partition_assignor description;
     sr_state := gd_state description; sr_members := length (gd_members description);
     sr_group_epoch := gd_group_epoch description;
     sr_target_assignment_epoch := gd_target_assignment_epoch description |}.

(** One group of [members_or_state_report]. *)
Definition members_report (verbose : bool) (group : string) (description : GroupDescription)
    (stdout : string) (stderr : list string) : GroupReport :=
  let rows := member_rows group description in
  {| gr_text := stdout +:+ members_table rows verbose;
     gr_data := [object_of [("group", Str group); ("state", Str (gd_state description));
                            ("members", Array (map member_row_json rows))]];
     gr_notices := stderr; gr_failed := false |}.

Definition state_report (verbose : bool) (group : string) (description : GroupDescription)
    (stdout : string) (stderr : list string) (print : bool) : GroupReport :=
  let row := state_row group description in
  {| gr_text := stdout +:+ (if print then state_table row verbose else "");
     gr_data := [object_of [("group", Str group); ("coordinator", Str (sr_coordinator row));
       ("assignment_strategy", Str (sr_assignment_strategy row)); ("state", Str (sr_state row));
       ("members", num (Z.of_nat (sr_members row)))]];
     gr_notices := stderr; gr_failed := false |}.

Definition members_or_state (members verbose : bool)
    (described : string * result CommandError GroupDescription) : GroupReport :=
  let '(group, answer) := described in
  match answer with
  | Err error => failed_group group error
  | Ok description =>
      match member_state group (gd_state description)
              (if members then length (gd_members description) else 1%nat) with
      | Err error => failed_group group error
      | Ok (stdout, stderr, print) =>
          if members then members_report verbose group description stdout stderr
          else state_report verbose group description stdout stderr print
      end
  end.

Definition members_or_state_report (described : list (string * result CommandError GroupDescription))
    (members verbose : bool) : CommandResult :=
  group_reports (map (members_or_state members verbose) described).

Definition offset_row_json (row : OffsetRow) : Value :=
  object_of [("group", Str (or_group row)); ("topic", opt_str (or_topic row));
    ("partition", opt_num (or_partition row)); ("leader_epoch", opt_num (or_leader_epoch row));
    ("current_offset", opt_num (or_offset row)); ("log_end_offset", opt_num (or_log_end_offset row));
    ("lag", opt_num (or_lag row)); ("consumer_id", opt_str (or_consumer_id row));
    ("host", opt_str (or_host row)); ("client_id", opt_str (or_client_id row))].

(** One group of [offsets_report]: its state and rows, or why they could not be
    read. *)
Definition offsets_group (verbose : bool)
    (answer : string * result CommandError (string * list OffsetRow)) : GroupReport :=
  let '(group, answer) := answer in
  match answer with
  | Err error => failed_group group error
  | Ok (state, rows) =>
      match member_state group state (length rows) with
      | Err error => failed_group group error
      | Ok (stdout, stderr, print) =>
          {| gr_text := stdout +:+ (if print then offsets_table rows verbose else "");
             gr_data := map offset_row_json rows; gr_notices := stderr; gr_failed := false |}
      end
  end.

Definition offsets_report (answers : list (string * result CommandError (string * list OffsetRow)))
    (verbose : bool) : CommandResult := group_reports (map (offsets_group verbose) answers).

(** A row of [offset_rows]. *)
Definition offset_row (checks : bool) (group : string) (committed log_end : list (Partition * Z))
    (member : option Member) (p : Partition) : outcome OffsetRow :=
  let text (field : Member → string) :=
    Some (match member with Some member => field member | None => MISSING end) in
  lag ← lag checks (bt_get p committed) (bt_get p log_end);
  Done {| or_group := group; or_topic := Some p.1; or_partition := Some p.2;
          or_leader_epoch := None; or_offset := bt_get p committed;
          or_log_end_offset := bt_get p log_end; or_lag := lag;
          or_consumer_id := text consumer_id; or_host := text host;
          or_client_id := text member_client_id |}.

(** The members with an assignment, those with the most partitions first. *)
Definition assigned_members (members : list Member) : list Member :=
  sort_by (λ a b, Nat.compare (length (assignment b)) (length (assignment a)))
    (filter (λ member, assignment member ≠ []) members).

(** The committed partitions that no member holds. *)
Definition unheld (assigned : list Member) (committed : list (Partition * Z)) : list Partition :=
  filter (λ p, Forall (λ member, p ∉ assignment member) assigned) (bt_keys committed).

Definition offset_rows (checks : bool) (group : string) (members : list Member)
    (committed log_end : list (Partition * Z)) : outcome (list OffsetRow) :=
  let assigned := assigned_members members in
  held ← map_outcome (λ '(member, p), offset_row checks group committed log_end (Some member) p)
    (assigned ≫= λ member, map (λ p, (member, p)) (sort (assignment member)));
  rest ← map_outcome (offset_row checks group committed log_end None) (unheld assigned committed);
  Done (held ++ rest).

Section Commands.
(** [checks]: whether the build has overflow checks; [schedule]: the order in
    which the groups that are read concurrently go on. *)
Context (checks : bool) (schedule : list nat).

Definition group_offsets (args : ConsumerGroupsArgs) (group : string)
    (description : GroupDescription) : cmd admin (list OffsetRow) :=
  _ ← connect (cga_connection args) "consumer-groups";
  committed ← try_admin (send (ListConsumerGroupOffsets group));
  let committed := bt_collect committed in
  let partitions := set_collect
    (bt_keys committed ++ (gd_members description ≫= assignment)) in
  log_end ← log_end_offsets partitions;
  run_outcome (offset_rows checks group (gd_members description) committed log_end).

(** The future of one group. *)
Definition group_future (args : ConsumerGroupsArgs)
    (entry : string * result CommandError GroupDescription)
    : prog admin (string * result CommandError (string * list OffsetRow)) :=
  let '(group, description) := entry in
  prog_bind (λ answer, Halt (Done (group, answer)))
    (match description with
     | Ok description =>
         rows ← group_offsets args group description; pure (gd_state description, rows)
     | Err error => throw error
     end).

Definition describe_groups (args : ConsumerGroupsArgs) (verbose : bool)
    : cmd admin CommandResult :=
  groups ← target_groups args;
  described ← await (describe (sort groups));
  if cga_members args || is_some (cga_state args) then
    pure (members_or_state_report described (cga_members args) verbose)
  else
    answers ← await (interleave GROUP_FAN_OUT schedule (map (group_future args) described));
    pure (offsets_report answers verbose).

(** ** [--delete] *)

(** [error_of]. *)
Definition error_of (code : Z) : KafkaError :=
  {| error_code := code; error_name := exc_name (for_code code); error_message := None |}.

Definition group_error_json (error : KafkaError) : Value :=
  let exception := for_code (error_code error) in
  object_of [("code", num (error_code error)); ("name", Str (exc_name exception));
             ("message", Str (default (exc_message exception) (error_message error)))].

(** The groups with an error, or those without, in Kafka's order. *)
Definition pick_groups (failed : bool) (results : list (string * option KafkaError))
    : list (string * option KafkaError) :=
  hash_order (filter (λ r, is_some r.2 = failed) results) Default (λ r, string_hash r.1).

Definition quoted_groups (groups : list (string * option KafkaError)) : string :=
  join ", " (map (λ r, "'" +:+ r.1 +:+ "'") groups).

Definition delete_report (results : list (string * option KafkaError)) : CommandResult :=
  let failed := pick_groups true results in
  let succeeded := pick_groups false results in
  rows
    (if bool_decide (failed = []) then
       ["Deletion of requested consumer groups (" +:+ quoted_groups succeeded +:+ ") was successful."]
     else
       ["": string; "Error: Deletion of some consumer groups failed:"] ++
       omap (λ r : string * option KafkaError,
         (λ error, "* Group '" +:+ r.1 +:+ "' could not be deleted due to: " +:+
                   throwable_text error) <$> r.2) failed ++
       (if bool_decide (succeeded = []) then []
        else ["": string; "These consumer groups were deleted successfully: " +:+ quoted_groups succeeded]))
    (Array (map (λ r, object_of [("group", Str r.1); ("error", from_option group_error_json Null r.2)])
      results))
    (negb (bool_decide (failed = []))).

(** What deleting a described group would answer. *)
Definition predicted_deletion (described : option (result KafkaError ConsumerGroupDescription))
    : option KafkaError :=
  match described with
  | Some (Ok description) =>
      if bool_decide (cg_group_state description = "Dead") then Some (error_of GROUP_ID_NOT_FOUND)
      else if bool_decide (cg_group_state description = "Empty") then None
      else Some (error_of NON_EMPTY_GROUP)
  | Some (Err error) => Some error
  | None => None
  end.

Definition deletion_error (group : string) (deleted : option (result KafkaError unit))
    : option KafkaError :=
  match deleted with
  | Some (Ok _) => None
  | Some (Err error) => Some error
  | None =>
      Some {| error_code := UNKNOWN_SERVER_ERROR; error_name := exc_name (for_code UNKNOWN_SERVER_ERROR);
              error_message := Some ("Group " +:+ group +:+ " was not included in the response") |}
  end.

Definition delete_groups_impact (groups : list string) : Impact :=
  {| summary := "delete " +:+ pretty (Z.of_nat (length groups)) +:+ " consumer group(s)";
     resources := groups |}.

Definition delete_groups (args : ConsumerGroupsArgs) : cmd admin CommandResult :=
  groups ← target_groups args;
  if dry_run_flag (cga_confirm args) then
    described ← await (describe_raw groups);
    pure (into_kafka_dry_run (delete_report
      (map (λ group, (group, predicted_deletion (bt_get group described))) groups)))
  else
    _ ← confirm (yes_flag (cga_confirm args)) "krabka consumer-groups" (delete_groups_impact groups);
    deleted ← (if bool_decide (groups = []) then pure []
               else await (send (DeleteConsumerGroups groups)));
    pure (delete_report
      (map (λ group, (group, deletion_error group (bt_get group (bt_collect deleted)))) groups)).

(** ** [--delete-offsets] *)

(** The named partitions of each [--topic], and the topics named whole. *)
Fixpoint topic_args (topics : list string) : result CommandError (list Partition * list string) :=
  match topics with
  | [] => Ok ([], [])
  | topic :: topics =>
      '(name, named) ← topic_arg topic;
      '(partitions, whole) ← topic_args topics;
      Ok (match named with
          | Some ids => (map (λ id, (name, id)) ids ++ partitions, whole)
          | None => (partitions, name :: whole)
          end)
  end.

(** [dedup]. *)
Fixpoint dedup {A} `{EqDecision A} (l : list A) : list A :=
  match l with
  | [] => []
  | x :: l =>
      match dedup l with
      | [] => [x]
      | y :: l' => if decide (x = y) then y :: l' else x :: y :: l'
      end
  end.

Definition scope_rows (named : list Partition) (layout : TopicLayout) : list DeleteOffsetRow :=
  map (λ p, ((p.1, Some p.2), None)) named ++
  (layout ≫= λ '(topic, layout),
    match layout with
    | Err error => [((topic, None), Some (throwable_text error))]
    | Ok ids => map (λ id : Z * bool, ((topic, Some id.1), None)) ids
    end).

Definition delete_offsets_scope (args : ConsumerGroupsArgs) : cmd admin (list DeleteOffsetRow) :=
  '(named, whole) ← lift_cmd (topic_args (cga_topic args));
  layout ← await (topic_layout whole);
  pure (dedup (sort (scope_rows named layout))).

Definition DELETE_OFFSETS_DRY_RUN_CAVEAT : string :=
  "WARN: the group has members, and a dry run does not check whether it is subscribed to these topics, for which OffsetDelete answers GROUP_SUBSCRIBED_TO_TOPIC".

Definition PARTITION_LEVEL_ERROR : string :=
  newline +:+ "Error: Encountered some partition-level error, see the follow-up details.".

Definition delete_offsets_verdict (group : string) (top_level : option Z) (partition_failed : bool)
    : string :=
  match top_level with
  | None =>
      if partition_failed then PARTITION_LEVEL_ERROR
      else "Request succeeded for deleting offsets from group " +:+ group +:+ "."
  | Some code =>
      let exception := for_code code in
      if bool_decide (exc_name exception ∈
           ["INVALID_GROUP_ID"; "GROUP_ID_NOT_FOUND"; "GROUP_AUTHORIZATION_FAILED"; "NON_EMPTY_GROUP"])
      then newline +:+ "Error: " +:+ exc_message exception
      else if bool_decide (exc_name exception ∈
           ["GROUP_SUBSCRIBED_TO_TOPIC"; "TOPIC_AUTHORIZATION_FAILED"; "UNKNOWN_TOPIC_OR_PARTITION"])
      then PARTITION_LEVEL_ERROR
      else newline +:+ "Error: Encountered some unknown error: " +:+ exc_name exception
  end.

Definition delete_offsets_report (group : string) (top_level : option Z)
    (rows_of : list DeleteOffsetRow) : CommandResult :=
  let partition_failed := existsb (λ row : DeleteOffsetRow, is_some row.2) rows_of in
  rows
    (text_lines (delete_offsets_verdict group top_level partition_failed +:+ newline +:+
                 delete_offsets_table rows_of))
    (object_of [("group", Str group);
       ("error", from_option (λ code, Str (exc_name (for_code code))) Null top_level);
       ("partitions", Array (map (λ row : DeleteOffsetRow,
          object_of [("topic", Str row.1.1); ("partition", opt_num row.1.2);
                     ("error", opt_str row.2)]) rows_of))])
    (is_some top_level || partition_failed).

(** What the answer says of a partition: the code and the text of its failure. *)
Definition offset_deletion_failure (answered : list (Partition * option Z)) (p : Partition)
    : option (Z * string) :=
  match bt_get p answered with
  | None =>
      Some (UNKNOWN_SERVER_ERROR,
        "java.lang.IllegalArgumentException: Offset deletion result for partition " +:+ dquote +:+
        partition_name p +:+ dquote +:+ " was not included in the response")
  | Some None => None
  | Some (Some code) => Some (code, to_java_string (for_code code))
  end.

(** The rows with their statuses, and the top-level error. *)
Definition apply_offset_deletions (rows_of : list DeleteOffsetRow) (partitions : list Partition)
    (outcomes : list OffsetOutcome) : list DeleteOffsetRow * option Z :=
  let answered := bt_collect (map (λ outcome,
    ((oo_topic outcome, oo_partition outcome), error_code <$> oo_error outcome)) outcomes) in
  (map (λ row : DeleteOffsetRow,
     match row.1.2 with
     | Some partition =>
         match offset_deletion_failure answered (row.1.1, partition) with
         | Some (_, text) => (row.1, Some text)
         | None => row
         end
     | None => row
     end) rows_of,
   head (omap (λ p, fst <$> offset_deletion_failure answered p)
     (hash_set_order partitions (λ p, topic_partition_hash p.1 p.2)))).

Definition delete_offsets_impact (group : string) (partitions : list Partition) : Impact :=
  {| summary := "delete the committed offsets of " +:+ pretty (Z.of_nat (length partitions)) +:+
                " partition(s) from group " +:+ group;
     resources := map partition_name partitions |}.

(** The top-level error and the notices of a dry run. *)
Definition predicted_offset_deletion
    (described : option (result KafkaError ConsumerGroupDescription)) : option Z * list string :=
  match described with
  | Some (Ok description) =>
      if bool_decide (cg_group_state description = "Dead") then (Some GROUP_ID_NOT_FOUND, [])
      else if bool_decide (cg_group_state description = "Empty") then (None, [])
      else (None, [DELETE_OFFSETS_DRY_RUN_CAVEAT])
  | Some (Err error) => (Some (error_code error), [])
  | None => (None, [])
  end.

Definition row_partitions (rows_of : list DeleteOffsetRow) : list Partition :=
  omap (λ row : DeleteOffsetRow, (λ partition, (row.1.1, partition)) <$> row.1.2) rows_of.

(** What [OffsetDelete] answered, as rows and the top-level error; [?] on an
    error that is not the broker's. *)
Definition offset_delete_answer (rows_of : list DeleteOffsetRow) (partitions : list Partition)
    (answer : result AdminError (list OffsetOutcome))
    : result CommandError (list DeleteOffsetRow * option Z) :=
  match answer with
  | Ok outcomes => Ok (apply_offset_deletions rows_of partitions outcomes)
  | Err (BrokerError _ code _ _) =>
      let text := to_java_string (for_code code) in
      Ok (map (λ row : DeleteOffsetRow, if is_some row.1.2 then (row.1, Some text) else row) rows_of,
          Some code)
  | Err other => Err (from_admin_error other)
  end.

Definition delete_group_offsets (args : ConsumerGroupsArgs) : cmd admin CommandResult :=
  group ← expect (head (cga_group args));
  rows_of ← delete_offsets_scope args;
  if dry_run_flag (cga_confirm args) then
    described ← await (describe_raw [group]);
    let '(top_level, notices) := predicted_offset_deletion (bt_get group described) in
    pure (into_kafka_dry_run (with_notices (delete_offsets_report group top_level rows_of) notices))
  else
    let partitions := row_partitions rows_of in
    _ ← confirm (yes_flag (cga_confirm args)) "krabka consumer-groups"
          (delete_offsets_impact group partitions);
    answer ← await (send (DeleteConsumerGroupOffsets group partitions));
    '(rows_of, top_level) ← lift_cmd (offset_delete_answer rows_of partitions answer);
    pure (delete_offsets_report group top_level rows_of).

(** ** [--reset-offsets] *)

(** [now.saturating_sub(duration)]. *)
Definition clock_millis (since_epoch : option Z) : Z :=
  match since_epoch with Some millis => default i64_MAX (try_signed 64 millis) | None => 0 end.

(** [?] on a reader that may panic. *)
Definition lift_reader {A} (o : outcome (result CommandError A)) : cmd admin A :=
  r ← run_outcome o; lift_cmd r.

Definition scenario_of (args : ConsumerGroupsArgs) (group : string)
    (file : option (list (string * list (Partition * Z)))) : cmd admin Scenario :=
  match cga_to_offset args with Some offset => pure (ToOffset offset) | None =>
  if cga_to_earliest args then pure ToEarliest
  else if cga_to_latest args then pure ToLatest
  else match cga_shift_by args with Some shift => pure (ShiftBy shift) | None =>
  match cga_to_datetime args with
  | Some datetime => timestamp ← lift_reader (parse_datetime datetime); pure (ToDatetime timestamp)
  | None =>
  match cga_by_duration args with
  | Some duration =>
      now ← await (send EpochMillis);
      duration ← lift_reader (parse_duration checks duration);
      pure (ByDuration (saturating_add (clock_millis now) (- duration)))
  | None =>
  match file with
  | Some file => pure (FromFile (bt_get group file))
  | None => pure ToCurrent
  end end end end end.

(** [topic_partitions]: the named partitions, then every partition of each topic
    named whole. *)
Definition layout_partitions (layout : TopicLayout) : result CommandError (list Partition) :=
  (λ partitions, concat partitions) <$> try_map (λ '(topic, layout),
    match layout with
    | Ok ids => Ok (map (λ id : Z * bool, (topic, id.1)) ids)
    | Err error => Err (Other (java_message error))
    end) layout.

Definition topic_partitions (topics : list string) : cmd admin (list Partition) :=
  '(named, whole) ← lift_cmd (topic_args topics);
  layout ← await (topic_layout whole);
  partitions ← lift_cmd (layout_partitions layout);
  pure (named ++ partitions).

Definition reset_json (plans : list GroupPlan) : Value :=
  Array (plans ≫= λ '(group, plan), map (λ '((topic, partition), offset),
    object_of [("group", Str group); ("topic", Str topic); ("partition", num partition);
               ("new_offset", num offset)]) plan).

(** The error's message, or the default one of its code for an empty one. *)
Definition nonempty_message (error : KafkaError) : string :=
  match error_message error with
  | Some message => if bool_decide (message = "") then exc_message (for_code (error_code error)) else message
  | None => exc_message (for_code (error_code error))
  end.

Definition reset_report (plans : list GroupPlan) (failure : option KafkaError)
    (stdout : list string) (export single_group : bool) : CommandResult :=
  let plans := hash_order plans Default (λ plan, string_hash plan.1) in
  let text :=
    match failure with
    | Some error =>
        newline +:+ "Error: Executing consumer group command failed due to " +:+
        nonempty_message error +:+ newline
    | None => if export then export_csv plans single_group else reset_table plans
    end in
  rows (stdout ++ text_lines text)
    (object_of [("plans", reset_json plans); ("error", kafka_error_json failure)]) (is_some failure).

(** What the loop over the groups has gathered. *)
Record ResetState := {
  rs_stdout : list string;
  rs_notices : list string;
  rs_plans : list GroupPlan;
  rs_failure : option KafkaError
}.

(** The lines for a group that is not inactive. *)
Definition active_group (group state : string) : list string :=
  [""; "Error: Assignments can only be reset if the group '" +:+ group +:+
       "' is inactive, but the current state is " +:+ state +:+ "."].

(** The group's state, where its description forbids a reset. *)
Definition active_state (described : option (result KafkaError ConsumerGroupDescription))
    : option string :=
  match described with
  | Some (Ok description) =>
      if bool_decide (cg_group_state description ∈ ["Empty"; "Dead"]) then None
      else Some (cg_group_state description)
  | _ => None
  end.

Definition describe_error (described : option (result KafkaError ConsumerGroupDescription))
    : option KafkaError :=
  match described with
  | Some (Err error) => if error_code error =? GROUP_ID_NOT_FOUND then None else Some error
  | _ => None
  end.

Definition needs_committed (args : ConsumerGroupsArgs) (scenario : Scenario) : bool :=
  cga_all_topics args || match scenario with ShiftBy _ | ToCurrent => true | _ => false end.

(** The plan of one inactive group. *)
Definition plan_group (args : ConsumerGroupsArgs)
    (file : option (list (string * list (Partition * Z)))) (group : string) : cmd admin Planned :=
  scenario ← scenario_of args group file;
  committed ← (if needs_committed args scenario
               then try_admin (send (ListConsumerGroupOffsets group)) else pure []);
  let committed := bt_collect committed in
  partitions ← (if cga_all_topics args then pure (bt_keys committed)
                else if bool_decide (cga_topic args = []) then pure []
                else topic_partitions (cga_topic args));
  _ ← check_partitions_valid partitions;
  plan (M := cmd admin) scenario group partitions committed.

(** Sends a plan, and returns the first error of its answer. *)
Definition execute_plan (group : string) (plan : Plan) : cmd admin (option KafkaError) :=
  outcomes ← try_admin (send (AlterConsumerGroupOffsets group (bt_collect plan)));
  pure (head (omap oo_error outcomes)).

Fixpoint reset_groups (args : ConsumerGroupsArgs)
    (file : option (list (string * list (Partition * Z))))
    (described : list (string * result KafkaError ConsumerGroupDescription))
    (groups : list string) (s : ResetState) : cmd admin ResetState :=
  match groups with
  | [] => pure s
  | group :: groups =>
      match active_state (bt_get group described) with
      | Some state =>
          reset_groups args file described groups
            {| rs_stdout := rs_stdout s ++ active_group group state; rs_notices := rs_notices s;
               rs_plans := rs_plans s ++ [(group, [])]; rs_failure := rs_failure s |}
      | None =>
          match describe_error (bt_get group described) with
          | Some error => throw (Other (throwable_text error))
          | None =>
              planned ← plan_group args file group;
              failure ← (if cga_execute args && negb (bool_decide (plan_of planned = []))
                         then execute_plan group (plan_of planned) else pure (rs_failure s));
              let s' plans failure :=
                {| rs_stdout := rs_stdout s ++ plan_stdout planned;
                   rs_notices := rs_notices s ++ plan_notices planned;
                   rs_plans := plans; rs_failure := failure |} in
              if is_some failure then pure (s' (rs_plans s) failure)
              else reset_groups args file described groups
                     (s' (rs_plans s ++ [(group, plan_of planned)]) failure)
          end
      end
  end.

Definition read_reset_file (args : ConsumerGroupsArgs)
    : cmd admin (option (list (string * list (Partition * Z)))) :=
  match cga_from_file args with
  | None => pure None
  | Some path =>
      csv ← await (send (ReadFile path));
      csv ← lift (map_err (λ _, "java.io.IOException: Unable to read file " +:+ path) csv);
      file ← lift_cmd (parse_reset_file csv (cga_group args));
      pure (Some file)
  end.

Definition reset (args : ConsumerGroupsArgs) : cmd admin CommandResult :=
  groups ← target_groups args;
  file ← read_reset_file args;
  if negb (cga_all_topics args) && bool_decide (cga_topic args = []) && negb (is_some file) then
    throw (usage_error "One of the reset scopes should be defined: --all-topics, --topic.")
  else
    described ← await (describe_raw groups);
    s ← reset_groups args file described (hash_order groups Default string_hash)
          {| rs_stdout := []; rs_notices := []; rs_plans := []; rs_failure := None |};
    let result := with_notices
      (reset_report (rs_plans s) (rs_failure s) (rs_stdout s) (cga_export args)
        (length (cga_group args) =? 1)%nat) (rs_notices s) in
    pure (if cga_execute args then result else into_kafka_dry_run result).

(** ** The command *)

Context `{RegexCrate}.

(** [str::lines], whose last line is not needed here when it is empty. *)
Definition str_lines (text : string) : list string :=
  map (λ line, default line (strip_suffix (String (ascii_of_nat 13) "") line))
    (split_char (ascii_of_nat 10) text).

(** The description of a regex error: its line after [error: ], or the whole
    text. *)
Definition regex_description (text : string) : string :=
  default text (head (omap (strip_prefix "error: ") (str_lines text))).

Definition validate_regex (regex : string) : CommandResult :=
  match regex_new regex with
  | Ok _ =>
      success ["The regular expression `" +:+ regex +:+ "` is valid."]
        (object_of [("regex", Str regex); ("valid", Bool true); ("error", Null)])
  | Err text =>
      let description := regex_description text in
      success ["The regular expression `" +:+ regex +:+ "` is invalid: " +:+ description +:+ "."]
        (object_of [("regex", Str regex); ("valid", Bool false); ("error", Str description)])
  end.

Definition consumer_groups_run (args : ConsumerGroupsArgs) (verbose : bool)
    : cmd admin CommandResult :=
  _ ← lift_cmd (check_args args verbose);
  match cga_validate_regex args with
  | Some regex => pure (validate_regex regex)
  | None =>
      _ ← connect (cga_connection args) "consumer-groups";
      if cga_list args then list_groups args
      else if cga_describe args then describe_groups args verbose
      else if cga_delete args then delete_groups args
      else if cga_reset_offsets args then reset args
      else delete_group_offsets args
  end.
End Commands.

(** ** Guards *)

Section Guards.
Context (checks : bool) (schedule : list nat) `{RegexCrate}.

Lemma harmless_target_groups args : harmless (target_groups args).
Proof. unfold target_groups, all_groups, listed_all. harmless. Qed.

Lemma harmless_describe_raw groups : harmless (describe_raw groups).
Proof. unfold describe_raw. harmless. Qed.

Lemma harmless_topic_layout topics : harmless (topic_layout topics).
Proof. unfold topic_layout. harmless. Qed.
#[local] Hint Resolve harmless_target_groups harmless_describe_raw harmless_topic_layout : krabka.

Lemma harmless_offsets partitions spec : harmless (offsets (M := cmd admin) partitions spec).
Proof. cbn [offsets ListOffsetsLookup]. harmless. Qed.
#[local] Hint Resolve harmless_offsets : krabka.

Lemma harmless_list_groups args : harmless (list_groups args).
Proof. unfold list_groups, all_groups, listed_all. harmless. Qed.

Lemma harmless_group_offsets args group description :
  harmless (group_offsets checks args group description).
Proof. unfold group_offsets, log_end_offsets. harmless. Qed.
#[local] Hint Resolve harmless_group_offsets : krabka.

Lemma harmless_group_futures args described :
  harmless (interleave GROUP_FAN_OUT schedule (map (group_future checks args) described)).
Proof.
  apply harmless_interleave. intros p Hp. apply list_elem_of_fmap in Hp as ([group description] & -> & _).
  unfold group_future. harmless.
Qed.
#[local] Hint Resolve harmless_group_futures : krabka.

Lemma harmless_describe_groups args verbose : harmless (describe_groups checks schedule args verbose).
Proof. unfold describe_groups, describe. harmless. Qed.

Lemma harmless_delete_scope args : harmless (delete_offsets_scope args).
Proof. unfold delete_offsets_scope. harmless. Qed.
#[local] Hint Resolve harmless_delete_scope : krabka.

Lemma harmless_fallible {A} (r : result CommandError A) : harmless (fallible (M := cmd admin) r).
Proof. done. Qed.
#[local] Hint Resolve harmless_fallible : krabka.

Lemma harmless_required partitions spec missing :
  harmless (required (M := cmd admin) partitions spec missing).
Proof. unfold required. harmless. Qed.

Lemma harmless_clamped requested : harmless (clamped (M := cmd admin) requested).
Proof. unfold clamped. harmless. Qed.
#[local] Hint Resolve harmless_required harmless_clamped : krabka.

Lemma harmless_plan scenario group partitions committed :
  harmless (plan (M := cmd admin) scenario group partitions committed).
Proof. destruct scenario; cbn [plan]; unfold planned_clamped, by_timestamp; harmless. Qed.

Lemma harmless_scenario args group file : harmless (scenario_of checks args group file).
Proof. unfold scenario_of, lift_reader. harmless. Qed.

Lemma harmless_check_partitions partitions : harmless (check_partitions_valid partitions).
Proof. unfold check_partitions_valid. harmless. Qed.
#[local] Hint Resolve harmless_plan harmless_scenario harmless_check_partitions : krabka.

Lemma harmless_plan_group args file group : harmless (plan_group checks args file group).
Proof. unfold plan_group, topic_partitions. harmless. Qed.
#[local] Hint Resolve harmless_plan_group : krabka.

Lemma harmless_reset_groups args file described groups s :
  cga_execute args = false → harmless (reset_groups checks args file described groups s).
Proof.
  intros He. revert s. induction groups as [|group groups IH]; intros s; [done|].
  cbn [reset_groups]. rewrite He. cbn [andb]. harmless.
Qed.
#[local] Hint Resolve harmless_reset_groups : krabka.

Lemma harmless_read_reset_file args : harmless (read_reset_file args).
Proof. unfold read_reset_file. harmless. Qed.
#[local] Hint Resolve harmless_read_reset_file : krabka.

(** ** Dry runs and prompts *)

(** The flags that ask for no change: [--dry-run], and for [--reset-offsets] the
    lack of [--execute]. *)
Definition asks_dry_run (args : ConsumerGroupsArgs) : bool :=
  if cga_delete args then dry_run_flag (cga_confirm args)
  else if cga_reset_offsets args then negb (cga_execute args)
  else dry_run_flag (cga_confirm args).

Lemma delete_groups_dry_run args :
  dry_run_flag (cga_confirm args) = true →
  monitored read_only tt (delete_groups args) (on_ok (λ _ r, dry_run r = true)).
Proof. intros Hd. unfold delete_groups. rewrite Hd. by do 2 ro_step. Qed.

Lemma delete_offsets_dry_run args :
  dry_run_flag (cga_confirm args) = true →
  monitored read_only tt (delete_group_offsets args) (on_ok (λ _ r, dry_run r = true)).
Proof.
  intros Hd. unfold delete_group_offsets. rewrite Hd. do 3 ro_step.
  by destruct (predicted_offset_deletion _).
Qed.

Lemma reset_dry_run args :
  cga_execute args = false →
  monitored read_only tt (reset checks args) (on_ok (λ _ r, dry_run r = true)).
Proof.
  intros He. unfold reset. do 2 ro_step. destruct (_ && _); [done|]. do 2 ro_step.
  by rewrite He.
Qed.

Lemma delete_groups_confirmed args s :
  (yes_flag (cga_confirm args) = true → s = true) →
  monitored guarded s (delete_groups args) (on_ok (λ _ _, True)).
Proof.
  intros Hs. unfold delete_groups. guarded_step.
  destruct (dry_run_flag _); [by guarded_step|]. apply guarded_confirm. auto.
Qed.

Lemma delete_offsets_confirmed args s :
  (yes_flag (cga_confirm args) = true → s = true) →
  monitored guarded s (delete_group_offsets args) (on_ok (λ _ _, True)).
Proof.
  intros Hs. unfold delete_group_offsets. do 2 guarded_step.
  destruct (dry_run_flag _); [|apply guarded_confirm; auto].
  guarded_step. by destruct (predicted_offset_deletion _).
Qed.

(** The actions that only read. *)
Definition reads_only (args : ConsumerGroupsArgs) : bool :=
  is_some (cga_validate_regex args) || cga_list args || cga_describe args.

(** C14. The guards of [krabka consumer-groups], for every cluster: [--list],
    [--describe] and [--validate-regex] change nothing; [--delete] and
    [--delete-offsets] under [--dry-run], and [--reset-offsets] without
    [--execute], change nothing and mark their report as a dry run; and
    [--delete] and [--delete-offsets] change nothing before the operator
    accepted the prompt or gave [--yes]. *)
Theorem consumer_groups_guards (args : ConsumerGroupsArgs) (verbose : bool) :
  if reads_only args then read_only_contract (consumer_groups_run checks schedule args verbose)
  else
    (asks_dry_run args = true → dry_run_contract (consumer_groups_run checks schedule args verbose)) ∧
    (cga_delete args = false ∧ cga_reset_offsets args = true ∨
     confirm_contract (yes_flag (cga_confirm args)) (consumer_groups_run checks schedule args verbose)).
Proof.
  unfold reads_only, consumer_groups_run.
  destruct (cga_validate_regex args); [apply harmless_intro; harmless|]. cbn [is_some orb].
  pose proof (harmless_list_groups args). pose proof (harmless_describe_groups args verbose).
  destruct (cga_list args); [apply harmless_intro; harmless|].
  destruct (cga_describe args); [apply harmless_intro; harmless|]. cbn [orb].
  unfold asks_dry_run. destruct (cga_delete args); [|destruct (cga_reset_offsets args)].
  - split; [intros Hd; apply dry_run_intro; do 2 ro_step; by apply delete_groups_dry_run|].
    right. apply confirm_intro. do 2 guarded_step. apply delete_groups_confirmed. auto.
  - split; [|by left]. intros Hd%negb_true_iff. apply dry_run_intro. do 2 ro_step.
    by apply reset_dry_run.
  - split; [intros Hd; apply dry_run_intro; do 2 ro_step; by apply delete_offsets_dry_run|].
    right. apply confirm_intro. do 2 guarded_step. apply delete_offsets_confirmed. auto.
Qed.

(** ** What a reset writes *)

(** The file of [--from-file], once it was read. *)
Definition given_reset_file (args : ConsumerGroupsArgs) (past : list (event admin))
    (file : option (list (string * list (Partition * Z)))) : Prop :=
  match cga_from_file args, file with
  | None, None => True
  | Some path, Some file =>
      ∃ csv, (existT (ReadFile path : call admin) (Ok csv : admin_answer (ReadFile path)) : event admin) ∈ past ∧
        parse_reset_file csv (cga_group args) = Ok file
  | _, _ => False
  end.

(** The scenario of the flags: the first of them that is given, with the time that was
    read for [--by-duration]. *)
Definition given_scenario (args : ConsumerGroupsArgs) (group : string) (past asked : list (event admin))
    (scenario : Scenario) : Prop :=
  match cga_to_offset args with
  | Some offset => scenario = ToOffset offset
  | None =>
  if cga_to_earliest args then scenario = ToEarliest
  else if cga_to_latest args then scenario = ToLatest
  else match cga_shift_by args with
  | Some shift => scenario = ShiftBy shift
  | None =>
  match cga_to_datetime args with
  | Some text => ∃ timestamp, parse_datetime text = Done (Ok timestamp) ∧ scenario = ToDatetime timestamp
  | None =>
  match cga_by_duration args with
  | Some text =>
      ∃ now duration, (existT (EpochMillis : call admin) now : event admin) ∈ asked ∧
        parse_duration checks text = Done (Ok duration) ∧
        scenario = ByDuration (saturating_add (clock_millis now) (- duration))
  | None =>
      ∃ file, given_reset_file args past file ∧
        scenario = match file with Some file => FromFile (bt_get group file) | None => ToCurrent end
  end end end end.

(** The committed offsets of the group, as the cluster answered where they are needed. *)
Definition given_committed (args : ConsumerGroupsArgs) (group : string) (scenario : Scenario)
    (asked : list (event admin)) (committed : list (Partition * Z)) : Prop :=
  if cga_all_topics args || match scenario with ShiftBy _ | ToCurrent => true | _ => false end then
    ∃ listed, (existT (ListConsumerGroupOffsets group : call admin) (Ok listed) : event admin) ∈ asked ∧
      committed = bt_collect listed
  else committed = [].

(** A partition of [--topic]: one that an argument names with its topic, or one of the
    layout that the cluster answered for the topics that are named whole. *)
Definition named_partition (topics : list string) (layout : list (event admin)) (p : Partition) : Prop :=
  (∃ arg ids, arg ∈ topics ∧ topic_arg arg = Ok (p.1, Some ids) ∧ p.2 ∈ ids) ∨
  (∃ whole answer description found,
     (existT (DescribeTopics whole None : call admin) answer : event admin) ∈ layout ∧
     (∀ topic, topic ∈ whole ↔ ∃ arg, arg ∈ topics ∧ topic_arg arg = Ok (topic, None)) ∧
     bt_get p.1 (bt_collect answer) = Some (Ok description) ∧
     found ∈ td_partitions description ∧ pd_partition found = p.2).

(** The offsets are those of the command line for the group: one for each partition of
    its scope, and for no other, by the rule of its scenario over the offsets looked up
    just before. [asked], [layout], [checked] and [lookups] are what was read last, with
    no change between. *)
Definition planned_from (args : ConsumerGroupsArgs) (group : string) (past : list (event admin))
    (offsets : list (Partition * Z)) : Prop :=
  ∃ scenario committed partitions before asked layout checked lookups,
    past = before ++ asked ++ layout ++ checked ++ map event_of lookups ∧
    Forall (λ e, changes e = false) (asked ++ layout ++ checked) ∧ (length layout ≤ 1)%nat ∧
    NoDup (map (λ l : Lookup, l.1.2) lookups) ∧
    given_scenario args group before asked scenario ∧ given_committed args group scenario asked committed ∧
    (∀ p, p ∈ partitions ↔ if cga_all_topics args then is_Some (bt_get p committed)
                            else named_partition (cga_topic args) layout p) ∧
    (∀ p o, bt_get p offsets = Some o → reset_rule lookups scenario committed p o) ∧
    (∀ p, is_Some (bt_get p offsets) ↔ reset_scope scenario partitions p).

(** A write of offsets is one that [--execute] asked for, of the plan of the command
    line, for a group that it names and that the cluster described as inactive or could
    not describe. *)
Definition rightful_write (args : ConsumerGroupsArgs) (past : list (event admin)) (c : admin_call)
    : Prop :=
  match c with
  | AlterConsumerGroupOffsets group offsets =>
      cga_execute args = true ∧ offsets ≠ [] ∧ (cga_all_groups args = false → group ∈ cga_group args) ∧
      planned_from args group past offsets ∧
      ∃ groups answer,
        (existT (DescribeConsumerGroups groups : call admin) answer : event admin) ∈ past ∧
        group ∈ groups ∧
        active_state (bt_get group (bt_collect answer)) = None
  | _ => True
  end.

Lemma rightful_reads args past c : mutating c = false → rightful_write args past c.
Proof. by destruct c. Qed.

Lemma given_reset_file_mono args past past' file :
  past ⊆ past' → given_reset_file args past file → given_reset_file args past' file.
Proof.
  unfold given_reset_file. intros Hp. destruct (cga_from_file args), file; try done.
  intros (csv & Hin & Hf). exists csv. auto.
Qed.

Lemma parse_reset_lines_wf without lines plans file :
  bt_wf2 plans → parse_reset_lines without lines plans = Ok file → bt_wf2 file.
Proof.
  revert plans. induction lines as [|line lines IH]; intros plans Hp; cbn [parse_reset_lines]; [by intros [= <-]|].
  destruct (ok_or _ _) as [[group [[topic partition] offset]]|]; [|done]. cbn. apply IH. by apply bt_insert2_wf.
Qed.

Lemma given_reset_file_wf args past file group :
  given_reset_file args past (Some file) → match bt_get group file with Some plan => bt_wf plan | None => True end.
Proof.
  unfold given_reset_file. destruct (cga_from_file args); [|done]. intros (csv & _ & Hf).
  assert (bt_wf2 file) as [_ Hw] by (eapply parse_reset_lines_wf; [apply bt_wf2_nil|exact Hf]).
  destruct (bt_get group file) eqn:E; [by eapply Hw|done].
Qed.

Lemma trace_lift_reader {A} (o : outcome (result CommandError A)) log a :
  trace (lift_reader o) log (Done (Ok a)) → o = Done (Ok a) ∧ log = [].
Proof. by destruct o as [[x|e]| |]; intros [-> E]; simplify_eq. Qed.

Lemma trace_scenario args group file past log scenario :
  given_reset_file args past file →
  trace (scenario_of checks args group file) log (Done (Ok scenario)) →
  given_scenario args group past log scenario ∧
  match scenario with FromFile (Some file) => bt_wf file | _ => True end.
Proof.
  intros Hfile. unfold scenario_of, given_scenario. intros Ht.
  destruct (cga_to_offset args); [by destruct Ht as [_ [= ->]]|].
  destruct (cga_to_earliest args); [by destruct Ht as [_ [= ->]]|].
  destruct (cga_to_latest args); [by destruct Ht as [_ [= ->]]|].
  destruct (cga_shift_by args); [by destruct Ht as [_ [= ->]]|].
  destruct (cga_to_datetime args) as [text|].
  { apply trace_ok_bind_inv in Ht as (t & log1 & log2 & -> & [Hp _]%trace_lift_reader & [_ [= ->]]). eauto. }
  destruct (cga_by_duration args) as [text|].
  { apply trace_ok_bind_inv in Ht as (now & log1 & log2 & -> & (r & l & -> & -> & [= ->]) & Ht).
    apply trace_ok_bind_inv in Ht as (d & log3 & log4 & -> & [Hp _]%trace_lift_reader & [_ [= ->]]).
    split; [|done]. exists r, d. split_and!; [set_solver|done..]. }
  destruct file as [file|]; destruct Ht as [_ [= ->]]; (split; [eauto|]); [|done].
  by eapply given_reset_file_wf.
Qed.

Lemma topic_args_Ok topics named whole :
  topic_args topics = Ok (named, whole) →
  (∀ p, p ∈ named ↔ ∃ arg ids, arg ∈ topics ∧ topic_arg arg = Ok (p.1, Some ids) ∧ p.2 ∈ ids) ∧
  (∀ topic, topic ∈ whole ↔ ∃ arg, arg ∈ topics ∧ topic_arg arg = Ok (topic, None)).
Proof.
  revert named whole. induction topics as [|arg topics IH]; intros named whole; cbn [topic_args].
  { intros [= <- <-]. set_solver. }
  destruct (topic_arg arg) as [[name ids]|] eqn:Ha; [|done]. cbn [mbind result_bind].
  destruct (topic_args topics) as [[named' whole']|]; [|done]. cbn [mbind result_bind].
  destruct (IH _ _ eq_refl) as [IHn IHw]. destruct ids as [ids|]; intros [= <- <-]; split.
  - intros p. rewrite elem_of_app, IHn, list_elem_of_fmap. destruct p as [t i]. cbn. split.
    + intros [(id & [= -> ->] & Hid)|(arg' & ids' & ? & ?)]; [exists arg, ids|exists arg', ids']; set_solver.
    + intros (arg' & ids' & [->|Hin]%elem_of_cons & E & Hi); [left|right; eauto].
      rewrite Ha in E. injection E as -> ->. by exists i.
  - intros topic. rewrite IHw. split.
    + intros (arg' & ? & ?). exists arg'. set_solver.
    + intros (arg' & [->|Hin]%elem_of_cons & E); [congruence|eauto].
  - intros p. rewrite IHn. split.
    + intros (arg' & ids' & ? & ?). exists arg', ids'. set_solver.
    + intros (arg' & ids' & [->|Hin]%elem_of_cons & E & Hi); [congruence|eauto].
  - intros topic. rewrite elem_of_cons, IHw. split.
    + intros [->|(arg' & ? & ?)]; [exists arg|exists arg']; set_solver.
    + intros (arg' & [->|Hin]%elem_of_cons & E); [left; congruence|eauto].
Qed.

Lemma layout_partitions_Ok layout partitions p :
  layout_partitions layout = Ok partitions →
  p ∈ partitions ↔ ∃ ids, (p.1, Ok ids) ∈ layout ∧ p.2 ∈ map fst ids.
Proof.
  unfold layout_partitions. destruct (try_map _ layout) as [lists|] eqn:E; [|done]. intros [= <-].
  apply try_map_Ok in E. rewrite elem_of_concat. split.
  - intros (l & Hp & Hl). destruct (Forall2_elem_r _ _ _ _ E Hl) as ([topic [ids|]] & Hin & Ef); [|done].
    injection Ef as <-. apply list_elem_of_fmap in Hp as (id & -> & Hid). exists ids. split; [done|].
    apply list_elem_of_fmap. by exists id.
  - intros (ids & [i Hi]%list_elem_of_lookup & Hid). destruct (Forall2_lookup_l _ _ _ _ _ E Hi) as (l & Hl & [= <-]).
    exists (map (λ id : Z * bool, (p.1, id.1)) ids). split; [|by eapply list_elem_of_lookup_2].
    apply list_elem_of_fmap in Hid as (id & Hid & Hin). apply list_elem_of_fmap. exists id. split; [|done].
    rewrite <-Hid. by destruct p.
Qed.

(** A map of the values of an answer, as a map. *)
Lemma bt_collect_map {V W} (f : V → W) (answer : list (string * V)) key :
  bt_get key (bt_collect (map (λ '(k, v), (k, f v)) answer)) = f <$> bt_get key (bt_collect answer).
Proof.
  rewrite !bt_get_collect. induction answer as [|[k v] answer IH] using rev_ind; [done|].
  rewrite map_app, !filter_app, !last_app. cbn [map]. rewrite !filter_cons. cbn [fst].
  destruct (decide (k = key)); [done|]. cbn. exact IH.
Qed.

(** The topics and the answer of a layout. *)
Definition layout_event (e : event admin) : option (list string * list (string * result KafkaError TopicDescription)) :=
  match e with existT (DescribeTopics topics _) answer => Some (topics, answer) | _ => None end.

Lemma trace_topic_partitions topics log partitions :
  trace (topic_partitions topics) log (Done (Ok partitions)) →
  (length log ≤ 1)%nat ∧ ∀ p, p ∈ partitions ↔ named_partition topics log p.
Proof.
  unfold topic_partitions. intros ([named whole] & log1 & log2 & -> & Hargs & Ht)%trace_ok_bind_inv.
  destruct (topic_args topics) as [[n w]|] eqn:Ea; destruct Hargs as [-> [= -> ->]].
  destruct (topic_args_Ok _ _ _ Ea) as [Hnamed Hwhole].
  apply trace_ok_bind_inv in Ht as (layout & log3 & log4 & -> & Hlay & Ht).
  apply trace_ok_bind_inv in Ht as (found & log5 & log6 & -> & Hfound & [-> [= ->]]).
  destruct (layout_partitions layout) as [f|] eqn:Ef; destruct Hfound as [-> [= ->]].
  cbn [app]. rewrite !app_nil_r. unfold topic_layout in Hlay. case_bool_decide as Hw.
  - destruct Hlay as [-> [= ->]]. split; [cbn; lia|]. injection Ef as <-. intros p. rewrite app_nil_r, Hnamed.
    split; [by left|]. intros [|(? & ? & ? & ? & ?%elem_of_nil & _)]; done.
  - destruct Hlay as (answer & l & -> & -> & [= ->]). split; [cbn; lia|]. intros p.
    rewrite elem_of_app, Hnamed, (layout_partitions_Ok _ _ _ Ef). unfold named_partition. f_equiv.
    setoid_rewrite <-bt_get_elem; [|apply bt_collect_wf].
    rewrite (bt_collect_map (λ description, match description with Ok d => Ok (layout_of d) | Err e => Err e end)).
    split.
    + intros (ids & Hget & Hid). destruct (bt_get p.1 (bt_collect answer)) as [[d|e]|] eqn:Hd; try done.
      injection Hget as <-. apply list_elem_of_fmap in Hid as (pair & Hp & Hin).
      apply list_elem_of_fmap in Hin as (pd & -> & Hin). exists w, answer, d, pd. split_and!; try done. left.
    + intros (whole' & answer' & d & pd & Hin & _ & Hget & Hpd & Hp). apply list_elem_of_singleton in Hin.
      apply (f_equal layout_event) in Hin. injection Hin as -> ->. rewrite Hget. exists (layout_of d). split; [done|].
      rewrite <-Hp. apply list_elem_of_fmap. exists (pd_partition pd, is_some (pd_leader pd)). split; [done|].
      apply list_elem_of_fmap. by exists pd.
Qed.

Lemma trace_given_committed args group scenario past log listed :
  trace (if needs_committed args scenario then try_admin (send (ListConsumerGroupOffsets group)) else pure [])
    log (Done (Ok listed)) →
  log ⊆ past → given_committed args group scenario past (bt_collect listed).
Proof.
  unfold needs_committed, given_committed. destruct (cga_all_topics args || _).
  - intros ([answer|e] & l & -> & -> & E) Hl; [|done]. injection E as ->. exists answer. split; [|done]. apply Hl. left.
  - by intros [_ [= ->]].
Qed.

Lemma given_scenario_mono args group past asked asked' scenario :
  asked ⊆ asked' → given_scenario args group past asked scenario → given_scenario args group past asked' scenario.
Proof.
  unfold given_scenario. intros Ha. destruct (cga_to_offset args); [done|]. destruct (cga_to_earliest args); [done|].
  destruct (cga_to_latest args); [done|]. destruct (cga_shift_by args); [done|].
  destruct (cga_to_datetime args); [done|]. destruct (cga_by_duration args); [|done].
  intros (now & d & Hin & Hrest). exists now, d. auto.
Qed.

Lemma planned_group args file group past :
  given_reset_file args past file →
  monitored (history (Σ := admin) (rightful_write args)) past (plan_group checks args file group)
    (on_ok (λ past' planned, planned_from args group past' (bt_collect (plan_of planned)) ∧ past `prefix_of` past')).
Proof.
  intros Hfile. eapply monitored_mono; [apply history_harmless; [apply rightful_reads|auto with krabka]|].
  intros past' [[planned|e]| |] (log & -> & Ht); try done. split; [|by eexists].
  unfold plan_group in Ht.
  apply trace_ok_bind_inv in Ht as (scenario & l1 & l2 & -> & Hs & Ht).
  apply trace_ok_bind_inv in Ht as (listed & l3 & l4 & -> & Hc & Ht). cbv zeta in Ht.
  apply trace_ok_bind_inv in Ht as (partitions & l5 & l6 & -> & Hp & Ht).
  apply trace_ok_bind_inv in Ht as ([] & l7 & l8 & -> & Hv & Ht).
  apply harmless_trace in Hs as F1; [|auto with krabka].
  apply harmless_trace in Hc as F3; [|harmless].
  apply harmless_trace in Hp as F5; [|harmless].
  apply harmless_trace in Hv as F7; [|auto with krabka].
  destruct (trace_scenario _ _ _ _ _ _ Hfile Hs) as [Hscenario Hwf].
  apply (trace_given_committed _ _ _ (l1 ++ l3)) in Hc; [|set_solver].
  apply trace_plan in Ht as (lookups & -> & Hnd & Hrule & Hkeys); [|done].
  assert ((length l5 ≤ 1)%nat ∧ ∀ p, p ∈ partitions ↔ if cga_all_topics args
    then is_Some (bt_get p (bt_collect listed)) else named_partition (cga_topic args) l5 p) as [Hl5 Hparts].
  { destruct (cga_all_topics args).
    - destruct Hp as [-> [= ->]]. split; [cbn; lia|]. intros p. apply elem_of_bt_keys, bt_collect_wf.
    - case_bool_decide as Htop; [|by apply trace_topic_partitions].
      destruct Hp as [-> [= ->]]. rewrite Htop. split; [cbn; lia|]. intros p. unfold named_partition. set_solver. }
  exists scenario, (bt_collect listed), partitions, past, (l1 ++ l3), l5, l7, lookups.
  split_and!; [by rewrite <-!app_assoc|by rewrite !Forall_app|done|done|
    eapply given_scenario_mono; [|exact Hscenario]; set_solver|done|done| |].
  - intros p o Ho%bt_get_collect_elem. by apply Hrule.
  - intros p. rewrite <-Hkeys. split.
    + intros [o Ho%bt_get_collect_elem]. apply list_elem_of_fmap. by exists (p, o).
    + intros ([q o] & -> & Hin)%list_elem_of_fmap. by eapply bt_get_collect_Some.
Qed.

(** A step that only reads. *)
Lemma rightful_bind {A B} args past (p : cmd admin A) (f : A → cmd admin B) :
  harmless p →
  (∀ past' a, past `prefix_of` past' →
     monitored (history (Σ := admin) (rightful_write args)) past' (f a) (on_ok (λ _ _, True))) →
  monitored (history (Σ := admin) (rightful_write args)) past (p ≫= f) (on_ok (λ _ _, True)).
Proof.
  intros Hp Hf. apply history_bind; [apply rightful_reads|done|]. intros log a _. apply Hf.
  by eexists.
Qed.

Lemma rightful_harmless {A} args past (p : cmd admin A) :
  harmless p →
  monitored (history (Σ := admin) (rightful_write args)) past p (on_ok (λ _ _, True)).
Proof.
  intros Hp. eapply monitored_mono; [apply history_harmless; [apply rightful_reads|done]|].
  by intros past' [[]| |].
Qed.

Lemma reset_groups_rightful args file asked answer groups s past :
  given_reset_file args past file → (cga_all_groups args = false → asked ⊆ cga_group args) →
  (existT (DescribeConsumerGroups asked : call admin) answer : event admin) ∈ past →
  groups ⊆ asked →
  monitored (history (Σ := admin) (rightful_write args)) past
    (reset_groups checks args file (bt_collect answer) groups s) (on_ok (λ _ _, True)).
Proof.
  intros Hfile Hasked. revert s past Hfile. induction groups as [|group groups IH]; intros s past Hfile Hev Hin; [done|].
  cbn [reset_groups]. destruct (active_state _) as [state|] eqn:Ha; [apply IH; set_solver|].
  destruct (describe_error _); [done|].
  eapply monitored_cmd_bind; [by apply planned_group|]. intros past1 planned [Hplan [log1 ->]].
  eapply (monitored_cmd_bind _ _ _ _ (λ past' _, past `prefix_of` past')).
  - destruct (cga_execute args) eqn:He; cbn [andb]; [|by apply monitored_pure; eexists].
    case_bool_decide as Hne; cbn [negb]; [by apply monitored_pure; eexists|].
    split; [|intros [outcomes|e]; cbn; [|done]; by rewrite <-app_assoc; eexists].
    split_and!; [done|intros E; apply Hne, bt_collect_nil; by rewrite E|set_solver|done|].
    exists asked, answer. split_and!; [set_solver..|done].
  - intros past2 failure [log2 ->]. destruct failure; [done|].
    apply IH; [eapply given_reset_file_mono; [|exact Hfile]|..]; set_solver.
Qed.

Lemma first_of_each_elem seen groups group : group ∈ first_of_each seen groups → group ∈ groups.
Proof.
  revert seen. induction groups as [|g groups IH]; intros seen; cbn [first_of_each]; [done|].
  case_bool_decide; [intros Hg%IH; by right|]. intros [->|Hg%IH]%elem_of_cons; [left|by right].
Qed.

Lemma trace_target_groups args log groups :
  trace (target_groups args) log (Done (Ok groups)) → cga_all_groups args = false → groups ⊆ cga_group args.
Proof.
  unfold target_groups. intros (all & log1 & log2 & -> & Ht & [_ [= ->]])%trace_ok_bind_inv Ha.
  rewrite Ha in Ht. destruct Ht as [_ [= ->]]. intros group. apply first_of_each_elem.
Qed.

Lemma trace_read_reset_file args log file :
  trace (read_reset_file args) log (Done (Ok file)) → given_reset_file args log file.
Proof.
  unfold read_reset_file, given_reset_file. destruct (cga_from_file args) as [path|]; [|by intros [_ [= ->]]].
  intros (read & log1 & log2 & -> & (r & l & -> & -> & [= ->]) & Ht)%trace_ok_bind_inv.
  apply trace_ok_bind_inv in Ht as (csv & log3 & log4 & -> & [Hcsv _]%trace_lift & Ht).
  apply trace_ok_bind_inv in Ht as (f & log5 & log6 & -> & Hf & [_ [= ->]]).
  destruct r as [text|]; [|done]. injection Hcsv as ->. exists csv. split; [set_solver|].
  destruct (parse_reset_file _ _); by destruct Hf as [_ [= ->]].
Qed.

Lemma reset_rightful args past :
  monitored (history (Σ := admin) (rightful_write args)) past (reset checks args)
    (on_ok (λ _ _, True)).
Proof.
  unfold reset. apply history_bind; [apply rightful_reads|auto with krabka|].
  intros log1 groups Ht. pose proof (trace_target_groups _ _ _ Ht) as Hgroups.
  apply history_bind; [apply rightful_reads|auto with krabka|]. intros log2 file Hfile%trace_read_reset_file.
  destruct (_ && _); [done|].
  unfold describe_raw. case_bool_decide as Hg; [by subst|].
  split; [done|]. intros answer. cbn [history after await prog_bind].
  eapply monitored_cmd_bind; [apply (reset_groups_rightful _ _ groups answer)|].
  - eapply given_reset_file_mono; [|exact Hfile]. set_solver.
  - done.
  - set_solver.
  - intros group. by rewrite elem_of_hash_order.
  - intros past3 s _. by destruct (cga_execute args).
Qed.

(** C4. What [krabka consumer-groups] writes. Against every cluster, each write of
    offsets was asked for by [--execute]; is for a group that the command line names
    (or any, under [--all-groups]), among those described, that the cluster did not
    describe as active; and writes the plan of the command line, never an empty one:
    an offset for each partition of the scope, and for no other: with [--from-file] the
    partitions of the group in the file, and otherwise those with a committed offset
    under [--all-topics], or those of the [--topic] arguments and of the layout that the
    cluster answered for the topics named whole.
    Each offset is the one that the scenario of the flags says of the offsets that the
    cluster answered to the lookups just before, each kind of which was looked up once:
    the start or the end of the log, the first one at the time (or the end), the
    committed one (or the end), or the requested, shifted or listed one moved into the
    log. *)
Theorem reset_writes (args : ConsumerGroupsArgs) (verbose : bool) :
  ∀ W (world : ∀ c : admin_call, W → admin_answer c * W) (w : W) pre e post,
    events_of world (consumer_groups_run checks schedule args verbose) w = pre ++ e :: post →
    rightful_write args pre (projT1 e).
Proof.
  intros W world w pre e post. apply (run_history (Σ := admin) world _ _ (on_ok (λ _ _, True))).
  unfold consumer_groups_run. apply rightful_bind; [auto with krabka|]. intros past _ _.
  destruct (cga_validate_regex args); [done|].
  apply rightful_bind; [auto with krabka|]. intros past' _ _.
  destruct (cga_list args); [apply rightful_harmless, harmless_list_groups|].
  destruct (cga_describe args); [apply rightful_harmless, harmless_describe_groups|].
  destruct (cga_delete args); [|destruct (cga_reset_offsets args); [apply reset_rightful|]].
  - unfold delete_groups. apply rightful_bind; [auto with krabka|]. intros past1 groups _.
    destruct (dry_run_flag _); [apply rightful_bind; [auto with krabka|by intros]|].
    apply rightful_bind; [auto with krabka|]. intros past2 _ _. by case_bool_decide.
  - unfold delete_group_offsets. apply rightful_bind; [auto with krabka|]. intros past1 group _.
    apply rightful_bind; [auto with krabka|]. intros past2 rows_of _.
    destruct (dry_run_flag _).
    + apply rightful_bind; [auto with krabka|]. intros past3 described _.
      by destruct (predicted_offset_deletion _).
    + apply rightful_bind; [auto with krabka|]. intros past3 _ _. split; [done|].
      intros [outcomes|[]]; cbn; try done.
Qed.
End Guards.

(** ** The rows of [--describe --offsets] *)

Lemma lag_total checks offset log_end :
  (∀ z, offset = Some z → 0 ≤ z ≤ i64_MAX) → (∀ z, log_end = Some z → 0 ≤ z ≤ i64_MAX) →
  lag checks offset log_end = Done (o ← offset; e ← log_end; Some (e - o)).
Proof.
  intros Ho He. destruct offset as [o|]; [|done]. destruct log_end as [e|]; [|done].
  specialize (Ho o eq_refl). specialize (He e eq_refl). unfold lag.
  destruct (Z.eqb_spec o (-1)); [lia|].
  assert (fits_signed 64 (e - o) = true) as ->; [|done].
  apply fits_signed_spec. unfold in_signed, i64_MAX in *. simpl in *. lia.
Qed.

(** Whose partition a row is, and what the row says of it. *)
Definition row_key (row : OffsetRow) : option string * option Z * option string :=
  (or_topic row, or_partition row, or_consumer_id row).

Definition row_of (checks : bool) (group : string) (committed log_end : list (Partition * Z))
    (row : OffsetRow) : Prop :=
  or_group row = group ∧
  ∃ p, or_topic row = Some p.1 ∧ or_partition row = Some p.2 ∧
    or_offset row = bt_get p committed ∧ or_log_end_offset row = bt_get p log_end ∧
    lag checks (bt_get p committed) (bt_get p log_end) = Done (or_lag row).

Lemma offset_row_spec checks group committed log_end member p row :
  offset_row checks group committed log_end member p = Done row →
  row_key row = (Some p.1, Some p.2,
                 Some (match member with Some m => consumer_id m | None => MISSING end)) ∧
  row_of checks group committed log_end row.
Proof.
  unfold offset_row. destruct (lag checks _ _) as [l| |] eqn:E; [|done..]. intros [= <-].
  split; [by destruct member|]. split; [done|]. by exists p.
Qed.

Lemma unheld_members members committed :
  unheld (assigned_members members) committed =
    filter (λ p, Forall (λ member, p ∉ assignment member) members) (bt_keys committed).
Proof.
  apply list_filter_iff. intros p. rewrite !Forall_forall. unfold assigned_members.
  split; intros Hp member Hm.
  - intros Hin. apply (Hp member); [|done]. rewrite sort_by_perm, list_elem_of_filter.
    split; [|done]. intros E. by rewrite E in Hin; apply not_elem_of_nil in Hin.
  - rewrite sort_by_perm, list_elem_of_filter in Hm. destruct Hm as [_ Hm]. by apply Hp.
Qed.

(** The partitions of the members and those that nobody holds, as keys. *)
Definition member_keys (member : Member) : list (option string * option Z * option string) :=
  map (λ p : Partition, (Some p.1, Some p.2, Some (consumer_id member))) (assignment member).

Lemma assigned_keys members :
  (assigned_members members ≫= λ member,
     map (λ p : Partition, (Some p.1, Some p.2, Some (consumer_id member))) (sort (assignment member)))
  ≡ₚ members ≫= member_keys.
Proof.
  unfold assigned_members. rewrite sort_by_perm.
  induction members as [|member members IH]; [done|]. rewrite filter_cons.
  unfold member_keys in *. destruct (decide (assignment member ≠ [])) as [Ha|Ha].
  - rewrite !bind_cons, IH. f_equiv. unfold sort. by rewrite sort_by_perm.
  - rewrite bind_cons, IH. destruct (assignment member); [done|]. by destruct Ha.
Qed.

Lemma Forall2_map_eq {A B C} (f : A → C) (g : B → C) l k :
  Forall2 (λ x y, g y = f x) l k → map g k = map f l.
Proof. induction 1 as [|x y l k Hxy _ IH]; simpl; [done|]. by rewrite Hxy, IH. Qed.

Lemma Forall2_right {A B} (P : B → Prop) (l : list A) (k : list B) :
  Forall2 (λ _ y, P y) l k → Forall P k.
Proof. induction 1; by constructor. Qed.

Lemma offset_rows_keys checks group members committed log_end rows :
  offset_rows checks group members committed log_end = Done rows →
  map row_key rows ≡ₚ
    (members ≫= member_keys) ++
    map (λ p : Partition, (Some p.1, Some p.2, Some MISSING))
      (filter (λ p, Forall (λ member, p ∉ assignment member) members) (bt_keys committed)) ∧
  Forall (row_of checks group committed log_end) rows.
Proof.
  unfold offset_rows. rewrite unheld_members. intros H.
  destruct (map_outcome (offset_row _ _ _ _ None) _) as [rest| |] eqn:Hr in H;
    destruct (map_outcome _ (_ ≫= _)) as [held| |] eqn:Hh in H; try done.
  simpl in H. simplify_eq.
  apply map_outcome_inv in Hh, Hr. rewrite map_app, Forall_app. split_and!.
  - f_equiv.
    + rewrite <-assigned_keys. rewrite (Forall2_map_eq (λ mp : Member * Partition,
        (Some mp.2.1, Some mp.2.2, Some (consumer_id mp.1))) _ _ _ (Forall2_impl _ _ _ _ Hh
          (λ '(m, p) row H, proj1 (offset_row_spec _ _ _ _ (Some m) p row H)))).
      clear. induction (assigned_members members) as [|m assigned IH]; [done|].
      rewrite !bind_cons, map_app, IH. by rewrite map_map.
    + erewrite Forall2_map_eq; [done|]. eapply Forall2_impl; [exact Hr|].
      intros p row Hrow. by apply offset_row_spec in Hrow as [? _].
  - apply (Forall2_right _ _ _ (Forall2_impl _ _ _ _ Hh
      (λ '(m, p) row H, proj2 (offset_row_spec _ _ _ _ (Some m) p row H)))).
  - eapply Forall2_right, Forall2_impl; [exact Hr|]. intros p row Hrow.
    by apply offset_row_spec in Hrow as [_ ?].
Qed.

(** The rows of [--describe --offsets] for one group. With committed and
    log-end offsets that are not negative the rows are built in every build, no
    lag overflowing; there is exactly one row for each partition that each
    member holds, naming that member, and one for each committed partition that
    no member holds, naming nobody; and each row has the partition's committed
    offset, its log-end offset and their difference. *)
Theorem offset_rows_spec (checks : bool) (group : string) (members : list Member)
    (committed log_end : list (Partition * Z)) :
  (∀ p z, bt_get p committed = Some z ∨ bt_get p log_end = Some z → 0 ≤ z ≤ i64_MAX) →
  ∃ rows, offset_rows checks group members committed log_end = Done rows ∧
    map row_key rows ≡ₚ
      (members ≫= member_keys) ++
      map (λ p : Partition, (Some p.1, Some p.2, Some MISSING))
        (filter (λ p, Forall (λ member, p ∉ assignment member) members) (bt_keys committed)) ∧
    Forall (λ row, ∃ p, or_topic row = Some p.1 ∧ or_partition row = Some p.2 ∧
      or_offset row = bt_get p committed ∧ or_log_end_offset row = bt_get p log_end ∧
      or_lag row = (o ← or_offset row; e ← or_log_end_offset row; Some (e - o))) rows.
Proof.
  intros Hrange.
  assert (∀ p, lag checks (bt_get p committed) (bt_get p log_end) =
    Done (o ← bt_get p committed; e ← bt_get p log_end; Some (e - o))) as Hlag.
  { intros p. apply lag_total; intros z Hz; apply (Hrange p z); auto. }
  assert (∀ member p, ∃ row, offset_row checks group committed log_end member p = Done row) as Hrow.
  { intros member p. unfold offset_row. rewrite Hlag. by eexists. }
  assert (∃ rows, offset_rows checks group members committed log_end = Done rows) as [rows Hrows].
  { unfold offset_rows. edestruct (map_outcome_total (λ '(member, p),
      offset_row checks group committed log_end (Some member) p)) as [held ->]; [by intros [m p]|].
    edestruct (map_outcome_total (offset_row checks group committed log_end None)) as [rest ->];
      [done|]. by eexists. }
  exists rows. split; [done|]. apply offset_rows_keys in Hrows as [Hkeys Hof]. split; [done|].
  eapply Forall_impl; [exact Hof|]. intros row (_ & p & Ht & Hp & Ho & He & Hl). exists p.
  rewrite Hlag in Hl. split_and!; [done..|]. rewrite Ho, He. by injection Hl.
Qed.

Definition sample_member : Member :=
  {| consumer_id := "c-1"; group_instance_id := None; member_client_id := "c"; host := "/h";
     assignment := [("orders", 1); ("orders", 0)]; target_assignment := None; epoch := None;
     upgraded := None |}.

Lemma offset_rows_spec_witness :
  offset_rows true "g" [sample_member] [(("audit", 0), 3); (("orders", 0), 5)]
    [(("audit", 0), 4); (("orders", 0), 9)] ≠ Panic ∧
  ∃ rows, offset_rows true "g" [sample_member] [(("audit", 0), 3); (("orders", 0), 5)]
      [(("audit", 0), 4); (("orders", 0), 9)] = Done rows ∧
    map or_lag rows = [Some 4; None; Some 1] ∧
    map row_key rows ≡ₚ
      [(Some "orders", Some 1, Some "c-1"); (Some "orders", Some 0, Some "c-1");
       (Some "audit", Some 0, Some "-")].
Proof.
  split; [vm_compute; done|].
  destruct (offset_rows_spec true "g" [sample_member] [(("audit", 0), 3); (("orders", 0), 5)]
    [(("audit", 0), 4); (("orders", 0), 9)]) as (rows & Hrows & Hkeys & _).
  - intros p z. unfold bt_get, i64_MAX.
    by destruct (cmp p ("audit", 0)), (cmp p ("orders", 0)); intros [|]; simplify_eq.
  - exists rows. split; [done|]. split; [|exact Hkeys].
    revert Hrows. vm_compute. by intros [= <-].
Defined.

(** ** A run that writes *)

Definition reset_args : ConsumerGroupsArgs :=
  {| cga_connection := {| bootstrap_server := ["localhost:9092"]; bootstrap_controller := [];
       command_config := None; client_id := None; request_timeout_ms := None |};
     cga_list := false; cga_describe := false; cga_delete := false; cga_reset_offsets := true;
     cga_delete_offsets := false; cga_validate_regex := None; cga_group := ["billing"];
     cga_all_groups := false; cga_topic := ["orders:0"]; cga_all_topics := false;
     cga_execute := true; cga_export := false; cga_to_offset := Some 12; cga_to_earliest := false;
     cga_to_latest := false; cga_to_current := false; cga_shift_by := None;
     cga_to_datetime := None; cga_by_duration := None; cga_from_file := None;
     cga_members := false; cga_offsets := false; cga_state := None; cga_group_type := None;
     cga_confirm := {| dry_run_flag := false; yes_flag := false |} |}.

(** A cluster with an empty group and a partition whose log goes from 2 to 9. *)
Definition reset_world (c : admin_call) (w : unit) : admin_answer c * unit :=
  match c return admin_answer c * unit with
  | DescribeConsumerGroups groups =>
      (map (λ group, (group, Ok {| cg_group_state := "Empty"; cg_coordinator := ("h", 9092, 1);
         cg_partition_assignor := ""; cg_members := []; cg_group_epoch := None;
         cg_target_assignment_epoch := None |})) groups, w)
  | DescribeTopics topics options =>
      (map (λ topic, (topic, Ok {| td_name := topic; td_topic_id := None; td_partitions :=
         [{| pd_partition := 0; pd_leader := Some 1; pd_replicas := [1]; pd_isr := [1];
             pd_elr := []; pd_last_known_elr := [] |}] |})) topics, w)
  | ListOffsets specs isolation =>
      (map (λ '(p, spec), (p, Ok (match spec with Earliest => 2 | _ => 9 end))) specs, w)
  | c => obliging_world c w
  end.

Definition reset_events : list (event admin) :=
  events_of reset_world (@consumer_groups_run false [] sample_regex reset_args false) tt.

Lemma reset_writes_witness :
  map (λ e, mutating (projT1 e)) reset_events = [false; false; false; false; false; true] ∧
  ∃ pre e post, reset_events = pre ++ e :: post ∧
    projT1 e = AlterConsumerGroupOffsets "billing" [(("orders", 0), 9)] ∧
    rightful_write false reset_args pre (projT1 e).
Proof.
  split; [vm_compute; reflexivity|].
  assert (∃ e, reset_events !! 5%nat = Some e ∧
    projT1 e = AlterConsumerGroupOffsets "billing" [(("orders", 0), 9)]) as (e & He & Hc).
  { eexists. vm_compute. split; reflexivity. }
  exists (take 5 reset_events), e, (drop 6 reset_events).
  pose proof (take_drop_middle reset_events 5 e He) as Hsplit. split; [done|]. split; [done|].
  exact (@reset_writes false [] sample_regex reset_args false unit reset_world tt _ _ _ (eq_sym Hsplit)).
Defined.
