(* ===== verification/TopicConfigs.v ===== *)
(** [topics/config.rs]: [--config] and [--replica-assignment] of [topics], read and
    checked before a request is sent; and [default_order] of [topics/java.rs]. *)

From Stdlib Require Import Ascii.
From S2P Require Import Prelude Collections Rust Patterns Jvm.

(** ** The value types *)

Inductive ConfigType := TInt | TLong | TDouble | TBoolean | TString | TList.

Definition type_name (kind : ConfigType) : string :=
  match kind with
  | TInt => "INT" | TLong => "LONG" | TDouble => "DOUBLE" | TBoolean => "BOOLEAN"
  | TString => "STRING" | TList => "LIST"
  end.

Definition TOPIC_CONFIGS : list (string * ConfigType) :=
  [("segment.bytes", TInt); ("segment.ms", TLong); ("segment.jitter.ms", TLong);
   ("segment.index.bytes", TInt); ("flush.messages", TLong); ("flush.ms", TLong);
   ("retention.bytes", TLong); ("retention.ms", TLong); ("max.message.bytes", TInt);
   ("index.interval.bytes", TInt); ("delete.retention.ms", TLong);
   ("min.compaction.lag.ms", TLong); ("max.compaction.lag.ms", TLong);
   ("file.delete.delay.ms", TLong); ("min.cleanable.dirty.ratio", TDouble);
   ("cleanup.policy", TList); ("unclean.leader.election.enable", TBoolean);
   ("min.insync.replicas", TInt); ("compression.type", TString);
   ("compression.gzip.level", TInt); ("compression.lz4.level", TInt);
   ("compression.zstd.level", TInt); ("preallocate", TBoolean);
   ("message.timestamp.type", TString); ("message.timestamp.before.max.ms", TLong);
   ("message.timestamp.after.max.ms", TLong); ("leader.replication.throttled.replicas", TList);
   ("follower.replication.throttled.replicas", TList); ("remote.storage.enable", TBoolean);
   ("local.retention.ms", TLong); ("local.retention.bytes", TLong);
   ("remote.log.copy.disable", TBoolean); ("remote.log.delete.on.disable", TBoolean);
   ("internal.segment.bytes", TInt); ("krabka.diskless", TBoolean); ("delivery.mode", TString);
   ("delivery.max.delay.ms", TLong); ("delivery.schedule.monotonic", TBoolean);
   ("schema.validation.key", TBoolean); ("schema.validation.value", TBoolean);
   ("schema.validation.mode", TString)].

(** ** [str::parse::<f64>], as a recogniser

    An optional sign, then [inf], [infinity] or [nan] in any case, or digits with
    at most one point and at least one digit, and an optional exponent. *)
Definition after_sign (s : string) : string :=
  match s with
  | String c rest => if (c =? "-")%char || (c =? "+")%char then rest else s
  | EmptyString => s
  end.

(** Digits up to the first other byte: how many, and the rest. *)
Fixpoint skip_digits (s : string) : nat * string :=
  match s with
  | String c rest => if is_ascii_digit c then let '(n, rest) := skip_digits rest in (S n, rest) else (0%nat, s)
  | EmptyString => (0%nat, s)
  end.

Definition is_exponent (s : string) : bool :=
  match s with
  | EmptyString => true
  | String c rest =>
      ((c =? "e")%char || (c =? "E")%char) &&
      let '(n, rest) := skip_digits (after_sign rest) in (0 <? n)%nat && bool_decide (rest = "")
  end.

Definition is_float_number (s : string) : bool :=
  let '(whole, rest) := skip_digits s in
  let '(fraction, rest) :=
    match rest with
    | String c after => if (c =? ".")%char then skip_digits after else (0%nat, rest)
    | EmptyString => (0%nat, rest)
    end in
  (0 <? whole + fraction)%nat && is_exponent rest.

Definition parses_f64 (s : string) : bool :=
  let s := after_sign s in
  existsb (eq_ignore_ascii_case s) ["inf"; "infinity"; "nan"] || is_float_number s.

(** [strip_suffix(['d', 'D', 'f', 'F']).unwrap_or(value)]. *)
Definition without_float_suffix (value : string) : string :=
  match str_rev value with
  | String c rest => if bool_decide (c ∈ ["d"; "D"; "f"; "F"]%char) then str_rev rest else value
  | EmptyString => value
  end.

Definition parses_as (value : string) (kind : ConfigType) : bool :=
  let value := trim value in
  match kind with
  | TInt => is_some (parse_i32 value)
  | TLong => is_some (parse_i64 value)
  | TDouble => parses_f64 (without_float_suffix value)
  | TBoolean => eq_ignore_ascii_case value "true" || eq_ignore_ascii_case value "false"
  | TString | TList => true
  end.

(** ** [--config] *)

(** [split] at [\s*=\s*]: at each [=], with the white space around it. *)
Fixpoint trimmed_parts (first : bool) (parts : list string) : list string :=
  let start part := if first then part else trim_start part in
  match parts with
  | [] => []
  | [part] => [start part]
  | part :: parts => trim_end (start part) :: trimmed_parts false parts
  end.
Definition split_config (value : string) : list string :=
  java_parts (trimmed_parts true (split_char "=" value)).

(** The pair of a value, trimmed, where it has two parts. *)
Definition config_pair (value : string) : option (string * string) :=
  match split_config value with [key; value] => Some (trim key, trim value) | _ => None end.

Definition CONFIG_FORMAT : string :=
  "requirement failed: Invalid topic config: all configs to be added must be in the format " +:+
  quote +:+ "key=val" +:+ quote +:+ ".".

(** The names in the order of the default [HashMap] that holds them. *)
Definition default_order (names : list string) : list string := hash_order names Default string_hash.

Definition known_config (name : string) : bool := bool_decide (name ∈ map fst TOPIC_CONFIGS).

Definition invalid_value (configs : list (string * string)) (entry : string * ConfigType)
    : option string :=
  let '(name, kind) := entry in
  value ← bt_get name configs;
  if parses_as value kind then None
  else Some ("Invalid value " +:+ value +:+ " for configuration " +:+ name +:+ ": " +:+
    match kind with
    | TBoolean => "Expected value to be either true or false"
    | other => "Not a number of type " +:+ type_name other
    end).

Definition parse_topic_configs (values : list string) : result string (list (string * string)) :=
  match mapM config_pair values with
  | None => Err CONFIG_FORMAT
  | Some pairs =>
      let configs := bt_collect pairs in
      match filter (λ name, known_config name = false) (default_order (unique_values (map fst pairs))) with
      | name :: _ => Err ("Unknown topic config name: " +:+ name)
      | [] =>
          match omap (invalid_value configs) TOPIC_CONFIGS with
          | message :: _ => Err message
          | [] => Ok configs
          end
      end
  end.

(** ** [--replica-assignment] *)

(** The brokers that are named again, each once. *)
Definition repeated_brokers (brokers : list Z) : list Z :=
  sort (unique_values (repeated_values brokers)).

(** One partition of the assignment, after those in [assignment]. *)
Definition assign_partition (assignment : list (list Z)) (partition : string)
    : result string (list (list Z)) :=
  brokers ← try_map (λ broker, parse_int (trim broker)) (java_parts (split_char ":" partition));
  match repeated_brokers brokers with
  | (_ :: _) as duplicates =>
      Err ("Partition replica lists may not contain duplicate entries: " +:+
           join "," (map pretty duplicates))
  | [] =>
      if match assignment with
         | first :: _ => negb (length first =? length brokers)%nat
         | [] => false
         end
      then Err ("Partition " +:+ pretty (Z.of_nat (length assignment)) +:+
                " has different replication factor: [" +:+ join ", " (map pretty brokers) +:+ "]")
      else Ok (assignment ++ [brokers])
  end.

Fixpoint assign_partitions (assignment : list (list Z)) (partitions : list string)
    : result string (list (list Z)) :=
  match partitions with
  | [] => Ok assignment
  | partition :: partitions =>
      assignment ← assign_partition assignment partition; assign_partitions assignment partitions
  end.

Definition parse_replica_assignment (value : string) : result string (list (list Z)) :=
  assign_partitions [] (java_parts (split_char "," value)).

(** ** Cases of the sources' tests *)

Example topic_configs_parsed :
  map parse_topic_configs
    [[]; ["retention.ms=1000"]; [" cleanup.policy = compact "; "retention.ms=5"];
     ["retention.ms=5="]; ["retention.ms=1"; "retention.ms=2"];
     ["min.cleanable.dirty.ratio=0.5d"]; ["preallocate=TRUE"]] =
  map Ok
    [[]; [("retention.ms", "1000")]; [("cleanup.policy", "compact"); ("retention.ms", "5")];
     [("retention.ms", "5")]; [("retention.ms", "2")];
     [("min.cleanable.dirty.ratio", "0.5d")]; [("preallocate", "TRUE")]].
Proof. vm_compute. reflexivity. Qed.

Example topic_configs_refused :
  map parse_topic_configs
    [["krabka.diskless=yes"]; ["delivery.max.delay.ms=soon"]; ["retention.ms"]; ["a=b=c"]; ["="];
     ["=5"]; ["foo=bar"]; ["segment.bytes=1.5"]; ["retention.ms=x"; "segment.ms=y"]] =
  map Err
    ["Invalid value yes for configuration krabka.diskless: Expected value to be either true or false";
     "Invalid value soon for configuration delivery.max.delay.ms: Not a number of type LONG";
     CONFIG_FORMAT; CONFIG_FORMAT; CONFIG_FORMAT; "Unknown topic config name: ";
     "Unknown topic config name: foo";
     "Invalid value 1.5 for configuration segment.bytes: Not a number of type INT";
     "Invalid value y for configuration segment.ms: Not a number of type LONG"].
Proof. vm_compute. reflexivity. Qed.

Example floats :
  map parses_f64 ["1"; "1."; ".5"; "-1.5e-3"; "+nan"; "Infinity"; "1E5"; "."; "e5"; "1e"; ""; "+"; "1.5.2"] =
  [true; true; true; true; true; true; true; false; false; false; false; false; false].
Proof. vm_compute. reflexivity. Qed.

Example replica_assignments :
  map parse_replica_assignment
    ["1"; "1:2,2:3"; " 1 : 2 , 3:4"; "1,1"; "1:"; "1:1"; "3:2:3:2"; "1,1:2"; "a"; ":1"; "1,,2";
     "99999999999"] =
  [Ok [[1]]; Ok [[1; 2]; [2; 3]]; Ok [[1; 2]; [3; 4]]; Ok [[1]; [1]]; Ok [[1]];
   Err "Partition replica lists may not contain duplicate entries: 1";
   Err "Partition replica lists may not contain duplicate entries: 2,3";
   Err "Partition 1 has different replication factor: [1, 2]";
   Err (parse_int_error "a"); Err (parse_int_error ""); Err (parse_int_error "");
   Err (parse_int_error "99999999999")].
Proof. vm_compute. reflexivity. Qed.

(** ** What is accepted *)

Lemma omap_nil_iff {A B} (f : A → option B) (l : list A) :
  omap f l = [] ↔ Forall (λ x, f x = None) l.
Proof.
  induction l as [|x l IH]; simpl; [by split; [constructor|]|]. rewrite Forall_cons.
  destruct (f x); naive_solver.
Qed.

Lemma filter_nil_iff {A} (P : A → Prop) `{∀ x, Decision (P x)} (l : list A) :
  filter P l = [] ↔ Forall (λ x, ¬ P x) l.
Proof.
  induction l as [|x l IH]; [by split; [constructor|]|]. rewrite filter_cons, Forall_cons.
  destruct (decide (P x)); naive_solver.
Qed.

Lemma elem_of_default_order names x : x ∈ default_order (unique_values names) ↔ x ∈ names.
Proof.
  unfold default_order, unique_values. rewrite elem_of_hash_order.
  destruct (unique_values_from names [] (NoDup_nil_2 (A := string))) as [_ ->]. set_solver.
Qed.

Lemma topic_configs_nodup : NoDup (map fst TOPIC_CONFIGS).
Proof. apply (bool_decide_unpack _). vm_compute. exact I. Qed.

(** C29. What [--config] accepts, as a typing judgement. The values are accepted
    exactly when each is one [key=value], and each key is a known topic config
    whose last value is of the config's type; and what is sent is the last value
    of each key. *)
Theorem parse_topic_configs_typed (values : list string) (configs : list (string * string)) :
  parse_topic_configs values = Ok configs ↔
  ∃ pairs,
    Forall2 (λ value pair, config_pair value = Some pair) values pairs ∧
    configs = bt_collect pairs ∧
    ∀ name value, (name, value) ∈ pairs → ∃ kind last,
      (name, kind) ∈ TOPIC_CONFIGS ∧ bt_get name configs = Some last ∧ parses_as last kind = true.
Proof.
  unfold parse_topic_configs. split.
  - destruct (mapM config_pair values) as [pairs|] eqn:Hpairs; [|done].
    destruct (filter _ _) as [|name names] eqn:Hknown; [|done].
    destruct (omap _ _) as [|message messages] eqn:Hvalid; [|done]. intros [= <-].
    exists pairs. split_and!; [by apply mapM_Some|done|]. intros name value Hin.
    apply filter_nil_iff in Hknown. rewrite Forall_forall in Hknown.
    assert (known_config name = true) as Hk.
    { apply not_false_is_true, Hknown, elem_of_default_order, list_elem_of_fmap.
      by exists (name, value). }
    apply bool_decide_eq_true, list_elem_of_fmap in Hk as ([n kind] & [= ->] & Hkind).
    destruct (bt_get_collect_Some pairs n value Hin) as [last Hlast]. exists kind, last.
    split_and!; [done..|]. apply omap_nil_iff in Hvalid. rewrite Forall_forall in Hvalid.
    specialize (Hvalid _ Hkind). simpl in Hvalid. rewrite Hlast in Hvalid. simpl in Hvalid.
    by destruct (parses_as last kind).
  - intros (pairs & Hpairs & -> & Htyped). apply mapM_Some in Hpairs as ->.
    rewrite (proj2 (filter_nil_iff _ _)).
    + rewrite (proj2 (omap_nil_iff _ _)); [done|]. rewrite Forall_forall.
      intros [name kind] Hkind. simpl. destruct (bt_get name (bt_collect pairs)) as [v|] eqn:Hv; [|done].
      simpl. destruct (Htyped name v) as (kind' & last & Hkind' & Hl & Hp);
        [by apply bt_get_collect_elem|]. assert (last = v) as -> by congruence.
      assert (kind' = kind) as ->; [|by rewrite Hp].
      by apply (NoDup_fst_functional TOPIC_CONFIGS name); [apply topic_configs_nodup| |].
    + rewrite Forall_forall. intros name Hname. rewrite elem_of_default_order in Hname.
      apply list_elem_of_fmap in Hname as ([n v] & -> & Hin).
      destruct (Htyped n v Hin) as (kind & last & Hkind & _). unfold known_config.
      rewrite bool_decide_true; [done|]. apply list_elem_of_fmap. by exists (n, kind).
Qed.

(** ** Replica assignments *)

Definition assignment_text (rows : list (list Z)) : string :=
  join "," (map (λ row, join ":" (map pretty row)) rows).

(** Rows of one length, each naming its brokers once. *)
Definition rows_ok (rows : list (list Z)) : Prop :=
  Forall (λ row, NoDup row ∧ Forall (in_signed 32) row) rows ∧
  ∀ row row', row ∈ rows → row' ∈ rows → length row = length row'.

Lemma repeated_brokers_nil brokers : repeated_brokers brokers = [] ↔ NoDup brokers.
Proof.
  rewrite <-repeated_values_nil. unfold repeated_brokers, sort, unique_values.
  destruct (unique_values_from (repeated_values brokers) [] (NoDup_nil_2 (A := Z))) as [_ Hin].
  split; intros E.
  - destruct (repeated_values brokers) as [|b l]; [done|]. exfalso.
    assert (b ∈ sort_by cmp (fold_left (λ unique value, if decide (value ∈ unique) then unique
      else unique ++ [value]) (b :: l) [])) as Hb by (rewrite sort_by_perm; apply Hin; set_solver).
    rewrite E in Hb. set_solver.
  - rewrite E. done.
Qed.

Lemma assign_partition_Ok assignment partition rows :
  assign_partition assignment partition = Ok rows ↔
  ∃ brokers,
    Forall2 (λ text broker, parse_int (trim text) = Ok broker) (java_parts (split_char ":" partition)) brokers ∧
    NoDup brokers ∧ (∀ first, head assignment = Some first → length first = length brokers) ∧
    rows = assignment ++ [brokers].
Proof.
  unfold assign_partition. split.
  - destruct (try_map _ _) as [brokers|] eqn:E; [|done]. apply try_map_Ok in E. cbn.
    destruct (repeated_brokers brokers) eqn:Hr; [|done]. apply repeated_brokers_nil in Hr.
    destruct assignment as [|first assignment]; cbn.
    + intros [= <-]. by exists brokers.
    + destruct (Nat.eqb_spec (length first) (length brokers)); cbn; [|done].
      intros [= <-]. exists brokers. split_and!; [done..| |done]. by intros ? [= <-].
  - intros (brokers & E & Hr & Hlen & ->). apply try_map_Ok in E as ->. cbn.
    apply repeated_brokers_nil in Hr as ->. destruct assignment as [|first assignment]; [done|].
    by rewrite (Hlen first eq_refl), Nat.eqb_refl.
Qed.

Lemma drop_empty_tail_full parts : Forall (λ part, part ≠ "") parts → drop_empty_tail parts = parts.
Proof.
  induction 1 as [|part parts Hp _ IH]; [done|]. simpl. rewrite IH.
  rewrite bool_decide_false; [done|]. naive_solver.
Qed.

Lemma java_parts_full parts : Forall (λ part, part ≠ "") parts → java_parts parts = parts.
Proof. intros Hp. unfold java_parts. rewrite drop_empty_tail_full by done. by case_match. Qed.

Lemma pretty_Z_nonempty (z : Z) : pretty z ≠ "".
Proof. intros E. pose proof (signed_value_pretty z) as H. by rewrite E in H. Qed.

Lemma pretty_no_sep sep (z : Z) :
  is_ascii_digit sep || (sep =? "-")%char = false →
  all_bytes (λ c, negb (c =? sep)%char) (pretty z) = true.
Proof.
  intros Hs. eapply all_bytes_impl; [|apply pretty_bytes]. intros c Hc.
  apply negb_true_iff, Ascii.eqb_neq. intros ->. by rewrite Hc in Hs.
Qed.

Lemma parse_int_pretty z : in_signed 32 z → parse_int (trim (pretty z)) = Ok z.
Proof.
  intros Hz. rewrite trim_pretty, parse_int_is_parse_i32. unfold parse_i32.
  by rewrite parse_signed_pretty.
Qed.

Lemma row_parts (row : list Z) :
  row ≠ [] → java_parts (split_char ":" (join ":" (map pretty row))) = map pretty row.
Proof.
  intros Hne. rewrite split_char_join.
  - apply java_parts_full, Forall_map, Forall_true. intros z. apply pretty_Z_nonempty.
  - by destruct row.
  - apply Forall_map, Forall_true. intros z. by apply pretty_no_sep.
Qed.

Lemma join_nonempty sep parts : parts ≠ [] → Forall (λ part, part ≠ "") parts → join sep parts ≠ "".
Proof.
  intros Hne Hp. destruct parts as [|a parts]; [done|]. apply Forall_cons in Hp as [Ha _].
  destruct a as [|c a]; [done|]. by destruct parts.
Qed.

Lemma all_bytes_join p sep parts :
  all_bytes p sep = true → Forall (λ part, all_bytes p part = true) parts →
  all_bytes p (join sep parts) = true.
Proof.
  intros Hs. induction parts as [|a [|b parts] IH]; intros Hp; [done|..];
    apply Forall_cons in Hp as [Ha Hp]; [done|].
  change (join sep (a :: b :: parts)) with (a +:+ sep +:+ join sep (b :: parts)).
  rewrite !all_bytes_app, Ha, Hs. by apply IH.
Qed.

Lemma assignment_parts rows :
  rows ≠ [] → Forall (λ row, row ≠ []) rows →
  java_parts (split_char "," (assignment_text rows)) = map (λ row, join ":" (map pretty row)) rows.
Proof.
  intros Hne Hrows. unfold assignment_text. rewrite split_char_join.
  - apply java_parts_full, Forall_map. eapply Forall_impl; [exact Hrows|]. intros row Hrow.
    apply join_nonempty; [by destruct row|]. apply Forall_map, Forall_true. intros z.
    apply pretty_Z_nonempty.
  - by destruct rows.
  - apply Forall_map, Forall_true. intros row. apply all_bytes_join; [done|].
    apply Forall_map, Forall_true. intros z. by apply pretty_no_sep.
Qed.

Lemma assign_partitions_text assignment rows :
  Forall (λ row, row ≠ []) rows → rows_ok (assignment ++ rows) →
  assign_partitions assignment (map (λ row, join ":" (map pretty row)) rows) = Ok (assignment ++ rows).
Proof.
  intros Hne. revert assignment. induction Hne as [|row rows Hrow _ IH]; intros assignment Hok; simpl.
  { by rewrite app_nil_r. }
  rewrite (proj2 (assign_partition_Ok _ _ (assignment ++ [row]))).
  - simpl. rewrite IH; [by rewrite <-app_assoc|by rewrite <-app_assoc].
  - destruct Hok as [Hrows Hlen]. apply Forall_app in Hrows as [_ Hrows].
    apply Forall_cons in Hrows as [[Hnd Hin] _]. exists row. rewrite row_parts by done.
    split_and!; [|done| |done].
    + clear -Hin. induction Hin; constructor; [by apply parse_int_pretty|done].
    + intros first Hf. destruct assignment; [done|]. injection Hf as ->.
      apply Hlen; [by left|]. apply elem_of_app. right. left.
Qed.

Lemma parse_int_range text z : parse_int text = Ok z → in_signed 32 z.
Proof.
  rewrite parse_int_is_parse_i32. unfold parse_i32.
  destruct (parse_signed 32 text) eqn:E; [|done]. intros [= <-]. by apply parse_signed_range in E.
Qed.

Lemma assign_partitions_ok assignment partitions rows :
  rows_ok assignment → assign_partitions assignment partitions = Ok rows → rows_ok rows.
Proof.
  revert assignment. induction partitions as [|partition partitions IH]; intros assignment Hok; simpl.
  { by intros [= <-]. }
  destruct (assign_partition assignment partition) as [next|] eqn:E; [|done]. cbn. apply IH.
  apply assign_partition_Ok in E as (brokers & Hb & Hnd & Hlen & ->). destruct Hok as [Hrows Hsame].
  split.
  - apply Forall_app. split; [done|]. apply Forall_singleton. split; [done|].
    clear -Hb. induction Hb; constructor; [by eapply parse_int_range|done].
  - assert (∀ row, row ∈ assignment → length row = length brokers) as Hall.
    { intros row Hrow. destruct assignment as [|first assignment]; [set_solver|].
      rewrite <-(Hlen first eq_refl). apply Hsame; [done|by left]. }
    intros row row' [Hr|Hr%list_elem_of_singleton]%elem_of_app [Hr'|Hr'%list_elem_of_singleton]%elem_of_app;
      subst; auto. symmetry. auto.
Qed.

(** [--replica-assignment]. What is accepted names each broker of a partition
    once, with the same number of replicas for every partition and ids that fit
    an [int]; and every such assignment, with a replica for each partition, is
    read from its text. *)
Theorem replica_assignment_round_trip :
  (∀ value rows, parse_replica_assignment value = Ok rows → rows_ok rows) ∧
  (∀ rows, rows ≠ [] → Forall (λ row, row ≠ []) rows → rows_ok rows →
     parse_replica_assignment (assignment_text rows) = Ok rows).
Proof.
  split.
  - intros value rows. apply assign_partitions_ok. split; [constructor|set_solver].
  - intros rows Hne Hrows Hok. unfold parse_replica_assignment. rewrite assignment_parts by done.
    by apply (assign_partitions_text []).
Qed.
