(* ===== verification/TopicDescribe.v ===== *)
(** [topics/describe.rs]: the lines of [--describe] and the selectors that filter
    them; and the orders of [topics/java.rs] that they print in. The text of a
    topic id is from the crate [krabka_ids], the class [KrabkaIds]. *)

From S2P Require Import Connection.
From S2P Require Import Prelude Collections Rust Jvm Json Output Program Admin.

(** [KafkaUuid]: its text, and the reader of the text with its error. *)
Class KrabkaIds := {
  uuid_to_string : Uuid → string;
  uuid_from_string : string → result string Uuid
}.

(** ** Orders *)

Definition describe_order (sorted : list string) : list string :=
  let len := Z.of_nat (length sorted) in
  let first := hash_order sorted (WithCapacity len) string_hash in
  let copy := hash_order first Copy string_hash in
  hash_order copy (WithCapacity len) string_hash.

(** The entries of a config, by name, as its [BTreeMap] has them. *)
Definition non_default_configs (entries : list ConfigEntry) : list (string * string) :=
  order_in_table
    (map (λ entry, (ce_name entry, default "null" (ce_value entry)))
      (filter (λ entry, ce_is_default entry = false) entries))
    (default_capacity (Z.of_nat (length entries))) (λ config, string_hash config.1).

(** ** Topics and partitions *)

Record PartitionInfo := {
  pi_index : Z;
  pi_leader : option Z;
  pi_replicas : list Z;
  pi_isr : list Z;
  pi_elr : option (list Z);
  pi_last_known_elr : option (list Z)
}.

Record TopicInfo := {
  ti_name : string;
  ti_id : option Uuid;
  ti_partitions : list PartitionInfo
}.

Record Reassignment := {
  ra_replicas : list Z;
  ra_adding : list Z;
  ra_removing : list Z
}.

Definition reassignment_in_progress (partition : PartitionInfo) (reassignment : option Reassignment)
    : bool :=
  match reassignment with
  | Some r => existsb (λ replica, bool_decide (replica ∈ ra_adding r) || bool_decide (replica ∈ ra_removing r))
                (pi_replicas partition)
  | None => false
  end.

(** [saturating_sub] on lengths is the subtraction of [nat]. *)
Definition replication_factor (partition : PartitionInfo) (reassignment : option Reassignment) : nat :=
  match reassignment with
  | Some r =>
      if reassignment_in_progress partition (Some r)
      then (length (ra_replicas r) - length (ra_adding r))%nat
      else length (pi_replicas partition)
  | None => length (pi_replicas partition)
  end.

Definition is_under_replicated (partition : PartitionInfo) (reassignment : option Reassignment) : bool :=
  (length (pi_isr partition) <? replication_factor partition reassignment)%nat.

Definition is_unavailable (partition : PartitionInfo) (live_brokers : list Z) : bool :=
  match pi_leader partition with
  | Some leader => negb (bool_decide (leader ∈ live_brokers))
  | None => true
  end.

Definition isr_count (partition : PartitionInfo) : Z :=
  default i64_MAX (try_signed 64 (Z.of_nat (length (pi_isr partition)))).

(** The minimum is read only for a partition that has a leader. *)
Definition is_under_min_isr (partition : PartitionInfo) (min_isr : result string Z)
    : result string bool :=
  match pi_leader partition with
  | None => Ok true
  | Some _ => min_isr ← min_isr; Ok (isr_count partition <? min_isr)
  end.

Definition is_at_min_isr (partition : PartitionInfo) (min_isr : result string Z)
    : result string bool :=
  min_isr ← min_isr; Ok (min_isr =? isr_count partition).

Definition NO_CONFIG_ENTRY : string :=
  "Cannot invoke " +:+ dquote +:+ "org.apache.kafka.clients.admin.ConfigEntry.value()" +:+ dquote +:+
  " because the return value of " +:+ dquote +:+
  "org.apache.kafka.clients.admin.Config.get(String)" +:+ dquote +:+ " is null".

Definition find_config (name : string) (entries : list ConfigEntry) : option ConfigEntry :=
  snd <$> list_find (λ entry, ce_name entry = name) entries.

Definition min_insync_replicas (entries : list ConfigEntry) : result string Z :=
  entry ← ok_or (find_config "min.insync.replicas" entries) NO_CONFIG_ENTRY;
  match ce_value entry with
  | Some value => parse_int value
  | None => Err "Cannot parse null string: null"
  end.

(** ** Selectors *)

Inductive Selector := UnderReplicated | Unavailable | UnderMinIsr | AtMinIsr | TopicsWithOverrides.

#[export] Instance Selector_eq_dec : EqDecision Selector.
Proof. solve_decision. Defined.

(** A set of selectors, by its members. *)
Definition Selectors : Type := list Selector.

Definition has (selectors : Selectors) (selector : Selector) : bool :=
  bool_decide (selector ∈ selectors).

Definition describe_configs (selectors : Selectors) : bool :=
  negb (has selectors Unavailable || has selectors UnderReplicated
        || has selectors UnderMinIsr || has selectors AtMinIsr).

Definition describe_partitions (selectors : Selectors) : bool :=
  negb (has selectors TopicsWithOverrides).

(** [a || b?] on a bool that may fail. *)
Definition or_try (a : bool) (b : result string bool) : result string bool :=
  if a then Ok true else b.
Definition and_try (a : bool) (b : result string bool) : result string bool :=
  if a then b else Ok false.

Definition should_print (selectors : Selectors) (live_brokers : list Z) (min_isr : result string Z)
    (partition : PartitionInfo) (reassignment : option Reassignment) : result string bool :=
  or_try (describe_configs selectors
          || (has selectors UnderReplicated && is_under_replicated partition reassignment)
          || (has selectors Unavailable && is_unavailable partition live_brokers))
    (under ← and_try (has selectors UnderMinIsr) (is_under_min_isr partition min_isr);
     or_try under (and_try (has selectors AtMinIsr) (is_at_min_isr partition min_isr))).

(** ** The report of one topic *)

Definition tab_char : string := String (Ascii.ascii_of_nat 9) "".

Definition joined (ids : list Z) : string := join "," (map pretty ids).
Definition elr_field (ids : option (list Z)) : string :=
  match ids with Some ids => joined ids | None => "N/A" end.

Section Report.
Context `{KrabkaIds}.

Definition summary_line (topic : TopicInfo) (factor : nat) (configs : list (string * string))
    : string :=
  "Topic: " +:+ ti_name topic +:+
  match ti_id topic with Some id => tab_char +:+ "TopicId: " +:+ uuid_to_string id | None => "" end +:+
  tab_char +:+ "PartitionCount: " +:+ pretty (Z.of_nat (length (ti_partitions topic))) +:+
  tab_char +:+ "ReplicationFactor: " +:+ pretty (Z.of_nat factor) +:+
  tab_char +:+ "Configs: " +:+ join "," (map (λ '(name, value), name +:+ "=" +:+ value) configs).

Definition partition_line (topic : string) (partition : PartitionInfo)
    (reassignment : option Reassignment) : string :=
  tab_char +:+ "Topic: " +:+ topic +:+ tab_char +:+ "Partition: " +:+ pretty (pi_index partition) +:+
  tab_char +:+ "Leader: " +:+ match pi_leader partition with Some l => pretty l | None => "none" end +:+
  tab_char +:+ "Replicas: " +:+ joined (pi_replicas partition) +:+
  tab_char +:+ "Isr: " +:+ joined (pi_isr partition) +:+
  match reassignment with
  | Some r => tab_char +:+ "Adding Replicas: " +:+ joined (ra_adding r) +:+
              tab_char +:+ "Removing Replicas: " +:+ joined (ra_removing r)
  | None => ""
  end +:+
  tab_char +:+ "Elr: " +:+ elr_field (pi_elr partition) +:+
  tab_char +:+ "LastKnownElr: " +:+ elr_field (pi_last_known_elr partition).


Definition partition_json (partition : PartitionInfo) (reassignment : option Reassignment) : Value :=
  object_of [("partition", num (pi_index partition));
    ("leader", from_option num Null (pi_leader partition));
    ("replicas", nums (pi_replicas partition)); ("isr", nums (pi_isr partition));
    ("adding_replicas", from_option (λ r, nums (ra_adding r)) Null reassignment);
    ("removing_replicas", from_option (λ r, nums (ra_removing r)) Null reassignment);
    ("elr", from_option nums Null (pi_elr partition));
    ("last_known_elr", from_option nums Null (pi_last_known_elr partition))].

Record TopicReport := {
  tr_topic : TopicInfo;
  tr_configs : list (string * string);
  tr_min_isr : result string Z;
  tr_reassignments : list (Z * Reassignment)
}.

(** What was printed of a topic before its description failed, and why. *)
Record Failure := { printed : list string; failure_message : string }.

Definition NO_FIRST_PARTITION : string := "Index 0 out of bounds for length 0".

(** The loop over the partitions, after [lines] and [values]. *)
Fixpoint describe_each (report : TopicReport) (selectors : Selectors) (live_brokers : list Z)
    (partitions : list PartitionInfo) (lines : list string) (values : list Value)
    : result Failure (list string * list Value) :=
  match partitions with
  | [] => Ok (lines, values)
  | partition :: partitions =>
      let reassignment := bt_get (pi_index partition) (tr_reassignments report) in
      match should_print selectors live_brokers (tr_min_isr report) partition reassignment with
      | Ok true =>
          describe_each report selectors live_brokers partitions
            (lines ++ [partition_line (ti_name (tr_topic report)) partition reassignment])
            (values ++ [partition_json partition reassignment])
      | Ok false => describe_each report selectors live_brokers partitions lines values
      | Err message => Err {| printed := lines; failure_message := message |}
      end
  end.

(** The factor that the summary names. *)
Definition first_factor (report : TopicReport) : nat :=
  match ti_partitions (tr_topic report) with
  | partition :: _ =>
      replication_factor partition (bt_get (pi_index partition) (tr_reassignments report))
  | [] => 0
  end.

(** The summary line, where the selectors print it. *)
Definition summary_lines (report : TopicReport) (selectors : Selectors) : result Failure (list string) :=
  if describe_configs selectors
     && (negb (has selectors TopicsWithOverrides) || negb (bool_decide (tr_configs report = [])))
  then
    if bool_decide (ti_partitions (tr_topic report) = [])
    then Err {| printed := []; failure_message := NO_FIRST_PARTITION |}
    else Ok [summary_line (tr_topic report) (first_factor report) (tr_configs report)]
  else Ok [].

Definition describe_topic (report : TopicReport) (selectors : Selectors) (live_brokers : list Z)
    : result Failure (option (list string * Value)) :=
  let topic := tr_topic report in
  lines ← summary_lines report selectors;
  '(lines, partitions) ← (if describe_partitions selectors
    then describe_each report selectors live_brokers (ti_partitions topic) lines []
    else Ok (lines, []));
  Ok (if bool_decide (lines = []) then None
      else Some (lines, object_of
        [("topic", Str (ti_name topic));
         ("topic_id", from_option (λ id, Str (uuid_to_string id)) Null (ti_id topic));
         ("partition_count", num (Z.of_nat (length (ti_partitions topic))));
         ("replication_factor", num (Z.of_nat (first_factor report)));
         ("configs", object_of (map (λ '(name, value), (name, Str value)) (tr_configs report)));
         ("partitions", Array partitions)])).
End Report.

(** ** Cases of the sources' tests *)

Definition plain_partition (index : Z) (leader : option Z) (replicas isr : list Z) : PartitionInfo :=
  {| pi_index := index; pi_leader := leader; pi_replicas := replicas; pi_isr := isr;
     pi_elr := None; pi_last_known_elr := None |}.

Example replication_factors :
  let moving := {| ra_replicas := [1; 2; 3; 4]; ra_adding := [3; 4]; ra_removing := [] |} in
  let finished := {| ra_replicas := [5; 6]; ra_adding := [7]; ra_removing := [8] |} in
  [replication_factor (plain_partition 0 (Some 1) [1; 2; 3; 4] [1; 2]) None;
   replication_factor (plain_partition 0 (Some 1) [1; 2; 3; 4] [1; 2]) (Some moving);
   replication_factor (plain_partition 0 (Some 1) [1; 2] [1; 2]) (Some finished)] = [4; 2; 2]%nat.
Proof. vm_compute. reflexivity. Qed.

(** ** What the selectors print *)

(** The partition selectors, as a condition on a partition with [m] for
    [min.insync.replicas]. *)
Definition wanted (selectors : Selectors) (live_brokers : list Z) (m : Z)
    (reassignments : list (Z * Reassignment)) (p : PartitionInfo) : Prop :=
  let isr := Z.of_nat (length (pi_isr p)) in
  (∀ s, s ∈ selectors → s = TopicsWithOverrides) ∨
  UnderReplicated ∈ selectors ∧
    isr < Z.of_nat (replication_factor p (bt_get (pi_index p) reassignments)) ∨
  Unavailable ∈ selectors ∧ (∀ leader, pi_leader p = Some leader → leader ∉ live_brokers) ∨
  UnderMinIsr ∈ selectors ∧ (pi_leader p = None ∨ isr < m) ∨
  AtMinIsr ∈ selectors ∧ isr = m.

Lemma has_spec selectors s : has selectors s = true ↔ s ∈ selectors.
Proof. unfold has. by rewrite bool_decide_eq_true. Qed.

Lemma describe_configs_spec selectors :
  describe_configs selectors = true ↔ ∀ s, s ∈ selectors → s = TopicsWithOverrides.
Proof.
  unfold describe_configs. rewrite negb_true_iff, !orb_false_iff. unfold has.
  rewrite !bool_decide_eq_false. split; [|intros Hs; split_and!; by intros E%Hs].
  intros (((H1 & H2) & H3) & H4) []; done.
Qed.

Lemma isr_count_spec p :
  Z.of_nat (length (pi_isr p)) ≤ i64_MAX → isr_count p = Z.of_nat (length (pi_isr p)).
Proof.
  intros Hp. unfold isr_count. rewrite (proj2 (try_signed_Some _ _ (Z.of_nat (length (pi_isr p)))));
    [done|]. split; [done|]. unfold in_signed, i64_MAX in *. simpl in *. lia.
Qed.

Lemma is_unavailable_spec p live_brokers :
  is_unavailable p live_brokers = true ↔ ∀ leader, pi_leader p = Some leader → leader ∉ live_brokers.
Proof.
  unfold is_unavailable. destruct (pi_leader p) as [leader|]; [|naive_solver].
  rewrite negb_true_iff, bool_decide_eq_false. naive_solver.
Qed.

Lemma wanted_bool selectors live_brokers m reassignments p :
  wanted selectors live_brokers m reassignments p ↔
  describe_configs selectors = true ∨
  has selectors UnderReplicated = true ∧
    is_under_replicated p (bt_get (pi_index p) reassignments) = true ∨
  has selectors Unavailable = true ∧ is_unavailable p live_brokers = true ∨
  has selectors UnderMinIsr = true ∧ (pi_leader p = None ∨ Z.of_nat (length (pi_isr p)) < m) ∨
  has selectors AtMinIsr = true ∧ Z.of_nat (length (pi_isr p)) = m.
Proof.
  unfold wanted, is_under_replicated.
  by rewrite describe_configs_spec, is_unavailable_spec, !has_spec, Nat.ltb_lt, Nat2Z.inj_lt.
Qed.

Lemma should_print_spec selectors live_brokers m reassignments p :
  Z.of_nat (length (pi_isr p)) ≤ i64_MAX →
  ∃ b, should_print selectors live_brokers (Ok m) p (bt_get (pi_index p) reassignments) = Ok b ∧
    (b = true ↔ wanted selectors live_brokers m reassignments p).
Proof.
  intros Hp. setoid_rewrite wanted_bool. unfold should_print. set (r := bt_get _ reassignments).
  destruct (describe_configs selectors); [by eexists; split; [done|]; naive_solver|].
  destruct (has selectors UnderReplicated && is_under_replicated p r) eqn:E1.
  { eexists; split; [done|]. apply andb_true_iff in E1. naive_solver. }
  destruct (has selectors Unavailable && is_unavailable p live_brokers) eqn:E2.
  { eexists; split; [done|]. apply andb_true_iff in E2. naive_solver. }
  apply andb_false_iff in E1, E2. cbn [orb or_try].
  unfold is_under_min_isr, is_at_min_isr. cbn [mbind result_bind]. rewrite isr_count_spec by done.
  destruct (has selectors UnderMinIsr), (has selectors AtMinIsr), (pi_leader p) as [leader|];
    cbn [and_try or_try mbind result_bind]; try destruct (Z.ltb_spec (Z.of_nat (length (pi_isr p))) m);
    cbn [or_try]; try destruct (Z.eqb_spec m (Z.of_nat (length (pi_isr p))));
    (eexists; split; [done|]); clear Hp; intuition (try congruence; try lia).
Qed.

#[export] Instance wanted_dec selectors live_brokers m reassignments p :
  Decision (wanted selectors live_brokers m reassignments p).
Proof.
  refine (cast_if (decide (describe_configs selectors = true ∨
    has selectors UnderReplicated = true ∧
      is_under_replicated p (bt_get (pi_index p) reassignments) = true ∨
    has selectors Unavailable = true ∧ is_unavailable p live_brokers = true ∨
    has selectors UnderMinIsr = true ∧ (pi_leader p = None ∨ Z.of_nat (length (pi_isr p)) < m) ∨
    has selectors AtMinIsr = true ∧ Z.of_nat (length (pi_isr p)) = m))); by rewrite wanted_bool.
Defined.

Section Described.
Context `{KrabkaIds}.

Definition line_of (report : TopicReport) (p : PartitionInfo) : string :=
  partition_line (ti_name (tr_topic report)) p (bt_get (pi_index p) (tr_reassignments report)).

Lemma describe_each_spec report selectors live_brokers m partitions lines values :
  tr_min_isr report = Ok m → Forall (λ p, Z.of_nat (length (pi_isr p)) ≤ i64_MAX) partitions →
  ∃ values',
    describe_each report selectors live_brokers partitions lines values =
      Ok (lines ++ map (line_of report)
            (filter (wanted selectors live_brokers m (tr_reassignments report)) partitions), values').
Proof.
  intros Hm Hp. revert lines values. induction Hp as [|p partitions Hp _ IH]; intros lines values.
  { exists values. by rewrite app_nil_r. }
  cbn [describe_each]. rewrite Hm.
  destruct (should_print_spec selectors live_brokers m (tr_reassignments report) p Hp) as (b & -> & Hb).
  rewrite filter_cons. destruct (decide (wanted _ _ _ _ p)) as [Hw|Hw].
  - apply Hb in Hw as ->. destruct (IH (lines ++ [line_of report p]) (values ++ [partition_json p
      (bt_get (pi_index p) (tr_reassignments report))])) as [values' E].
    exists values'. rewrite <-app_assoc in E. exact E.
  - destruct b; [by destruct Hw; apply Hb|]. apply IH.
Qed.

(** What [--describe] prints of a topic whose [min.insync.replicas] can be
    read. The summary line is printed unless a partition selector is set, and
    under [--topics-with-overrides] only for a topic with overrides; then, unless
    that selector is set, the line of exactly the partitions that some selector
    wants, in order: under-replicated against the replication factor without the
    replicas being added, without a live leader, below or at the minimum. A topic
    without partitions fails exactly where its summary would be printed. *)
Theorem describe_topic_lines (report : TopicReport) (selectors : Selectors) (live_brokers : list Z)
    (m : Z) :
  tr_min_isr report = Ok m →
  Forall (λ p, Z.of_nat (length (pi_isr p)) ≤ i64_MAX) (ti_partitions (tr_topic report)) →
  let summarised := describe_configs selectors
    && (negb (has selectors TopicsWithOverrides) || negb (bool_decide (tr_configs report = []))) in
  let lines :=
    (if summarised then [summary_line (tr_topic report) (first_factor report) (tr_configs report)] else []) ++
    (if has selectors TopicsWithOverrides then []
     else map (line_of report) (filter (wanted selectors live_brokers m (tr_reassignments report))
            (ti_partitions (tr_topic report)))) in
  if summarised && bool_decide (ti_partitions (tr_topic report) = [])
  then describe_topic report selectors live_brokers =
         Err {| printed := []; failure_message := NO_FIRST_PARTITION |}
  else ∃ r, describe_topic report selectors live_brokers = Ok r ∧ from_option fst [] r = lines ∧
         (r = None ↔ lines = []).
Proof.
  intros Hm Hp summarised lines. unfold describe_topic, summary_lines. fold summarised.
  subst lines. clearbody summarised.
  destruct (summarised && bool_decide (ti_partitions (tr_topic report) = [])) eqn:E.
  { apply andb_true_iff in E as [-> ->]. done. }
  assert ((if summarised
    then if bool_decide (ti_partitions (tr_topic report) = [])
         then Err {| printed := []; failure_message := NO_FIRST_PARTITION |}
         else Ok [summary_line (tr_topic report) (first_factor report) (tr_configs report)]
    else Ok []) =
    Ok (if summarised then [summary_line (tr_topic report) (first_factor report) (tr_configs report)] else []))
    as -> by (apply andb_false_iff in E as [-> | ->]; by try destruct summarised).
  cbn [mbind result_bind]. unfold describe_partitions.
  destruct (has selectors TopicsWithOverrides); cbn [negb mbind result_bind].
  - rewrite app_nil_r. eexists. split; [done|]. by destruct summarised.
  - destruct (describe_each_spec report selectors live_brokers m (ti_partitions (tr_topic report))
      (if summarised then [summary_line (tr_topic report) (first_factor report) (tr_configs report)] else [])
      [] Hm Hp) as [values' ->]. cbn [mbind result_bind]. eexists. split; [done|].
    clear E. case_bool_decide as Hl; [by rewrite Hl|]. by split.
Qed.
End Described.

Definition sample_ids : KrabkaIds := {|
  uuid_to_string id := "AAAAAAAAAAAAAAAAAAAAAQ";
  uuid_from_string text := Err ("Input string " +:+ text)
|}.

Definition sample_report : TopicReport :=
  {| tr_topic := {| ti_name := "orders"; ti_id := None; ti_partitions :=
       [plain_partition 0 (Some 1) [1; 2; 3] [1; 2]; plain_partition 1 (Some 2) [2; 3] [2; 3];
        plain_partition 2 None [3; 4] [3]] |};
     tr_configs := []; tr_min_isr := Ok 2; tr_reassignments := [] |}.

Lemma describe_topic_lines_witness :
  tr_min_isr sample_report = Ok 2 ∧
  ∃ r, @describe_topic sample_ids sample_report [UnderMinIsr; UnderReplicated] [1; 2; 3] = Ok r ∧
    from_option fst [] r =
      map (line_of sample_report)
        [plain_partition 0 (Some 1) [1; 2; 3] [1; 2]; plain_partition 2 None [3; 4] [3]].
Proof.
  split; [reflexivity|].
  destruct (@describe_topic_lines sample_ids sample_report [UnderMinIsr; UnderReplicated] [1; 2; 3] 2
    eq_refl) as (r & Hr & Hl & _).
  - repeat constructor; vm_compute; done.
  - exists r. split; [exact Hr|]. rewrite Hl. vm_compute. reflexivity.
Defined.
