(* ===== verification/Topics.v ===== *)
(** [topics/mod.rs]: the command [krabka topics], from the checks of its flags to
    its reports, as a tree of admin calls. The reading of [--config] and
    [--replica-assignment] is in [TopicConfigs], the lines of [--describe] in
    [TopicDescribe]. *)

From Stdlib Require Import Ascii.
From S2P Require Import Connection.
From S2P Require Import Prelude Collections Rust Patterns Jvm Json KafkaErrors Output Program Admin.
From S2P Require Import TopicConfigs TopicDescribe.

Definition ACTIONS : string :=
  "Command must include exactly one action: --list, --describe, --create, --alter or --delete".
Definition ALTER_CONFIGS_HINT : string :=
  " (To alter topic configurations, the kafka-configs tool can be used.)".
Definition DELETE_CONFIG_NOTICE : string :=
  "delete-config option is no longer supported and deprecated since version 4.0. The config will be fully removed in future releases.".
Definition TOPIC_ID_NOTICE : string :=
  "Only topic id will be used when both --topic and --topic-id are specified and topicId is not Uuid.ZERO_UUID".
Definition COLLISION_WARNING : string :=
  "WARNING: Due to limitations in metric names, topics with a period ('.') or underscore ('_') could collide. To avoid issues it is best to use either, but not both.".
Definition ERROR_PREFIX : string := "Error while executing topic command : ".

(** The flags; a counted one is its count. *)
Record TopicsArgs := {
  ta_connection : ConnectionArgs;
  ta_list : Z;
  ta_create : Z;
  ta_delete : Z;
  ta_alter : Z;
  ta_describe : Z;
  ta_topic : list string;
  ta_topic_id : list string;
  ta_config : list string;
  ta_delete_config : list string;
  ta_partitions : list string;
  ta_replication_factor : list string;
  ta_replica_assignment : list string;
  ta_under_replicated_partitions : Z;
  ta_unavailable_partitions : Z;
  ta_under_min_isr_partitions : Z;
  ta_at_min_isr_partitions : Z;
  ta_topics_with_overrides : Z;
  ta_if_exists : bool;
  ta_if_not_exists : bool;
  ta_exclude_internal : bool;
  ta_partition_size_limit_per_response : list string;
  ta_confirm : ConfirmArgs
}.

Record TopicSelection := {
  ts_patterns : list string;
  ts_exclude_internal : bool;
  ts_require_exists : bool
}.

Record CreateRequest := {
  cr_names : list string;
  cr_partitions : option Z;
  cr_replication_factor : option Z;
  cr_configs : list (string * string);
  cr_replica_assignment : list (Z * list Z);
  cr_if_not_exists : bool
}.

Inductive DescribeTarget :=
  | TargetNames (selection : TopicSelection)
  | TargetId (id : Uuid) (exclude_internal require_exists : bool).

Inductive TopicsAction :=
  | ListTopicsAction (selection : TopicSelection)
  | CreateAction (create : CreateRequest)
  | AlterAction (selection : TopicSelection) (partitions : Z) (assignment : option (list (list Z)))
  | DeleteAction (selection : TopicSelection)
  | DescribeAction (target : DescribeTarget) (selectors : Selectors) (partition_limit : Z).

Record TopicsPlan := {
  tp_action : TopicsAction;
  tp_notices : list string;
  tp_delete_config_notice : bool
}.

Definition DEFAULT_PARTITION_LIMIT : Z := 2000.

(** ** Reading the flags *)

Definition set (count : Z) : bool := 0 <? count.

Definition single (values : list string) (option_name : string) : result string (option string) :=
  match values with
  | [] => Ok None
  | [value] => Ok (Some value)
  | _ => Err ("Found multiple arguments for option " +:+ option_name +:+ ", but you asked for only one")
  end.

Definition int_option (values : list string) (option_name : string) : result string (option Z) :=
  value ← single values option_name;
  match value with
  | None => Ok None
  | Some value =>
      n ← ok_or (parse_i32 value)
            ("Cannot parse argument '" +:+ value +:+ "' of option " +:+ option_name);
      Ok (Some n)
  end.

Definition action_flags (args : TopicsArgs) : list (bool * string) :=
  [(set (ta_create args), "create"); (set (ta_list args), "list"); (set (ta_alter args), "alter");
   (set (ta_describe args), "describe"); (set (ta_delete args), "delete")].

(** The first of the names whose flag is set. *)
Definition first_set (flags : list (bool * string)) : option string :=
  head (omap (λ '(flag, name), if flag : bool then Some name else None) flags).

Definition action_name (args : TopicsArgs) : string := default "" (first_set (action_flags args)).

Definition check_invalid (args : TopicsArgs) (used : bool * string) (actions : list string)
    (others : list (bool * string)) : result string unit :=
  let '(present, name) := used in
  if negb present then Ok tt
  else
    let action := action_name args in
    match (if bool_decide (action ∈ actions) then first_set others else Some action) with
    | Some other =>
        Err ("Option " +:+ dquote +:+ "[" +:+ name +:+ "]" +:+ dquote +:+ " can't be used with option " +:+
             dquote +:+ "[" +:+ other +:+ "]" +:+ dquote)
    | None => Ok tt
    end.

(** [if condition { return Err(message) }]. *)
Definition fail_if (condition : bool) (message : string) : result string unit :=
  if condition then Err message else Ok tt.

Definition missing_argument (name : string) : string :=
  "Missing required argument " +:+ dquote +:+ "[" +:+ name +:+ "]" +:+ dquote.

Definition given (values : list string) : bool := negb (bool_decide (values = [])).

Definition check_alter (args : TopicsArgs) : result string unit :=
  _ ← fail_if (given (ta_config args))
        ("Option combination " +:+ dquote +:+ "[[bootstrap-server], [config]]" +:+ dquote +:+
         " can't be used with option " +:+ dquote +:+ "[alter]" +:+ dquote +:+ ALTER_CONFIGS_HINT);
  fail_if (negb (given (ta_partitions args))) (missing_argument "partitions").

(** The reports of [--describe]. *)
Definition report_flags (args : TopicsArgs) : list (bool * string) :=
  [(set (ta_under_replicated_partitions args), "under-replicated-partitions");
   (set (ta_under_min_isr_partitions args), "under-min-isr-partitions");
   (set (ta_at_min_isr_partitions args), "at-min-isr-partitions");
   (set (ta_unavailable_partitions args), "unavailable-partitions")].

(** The checks of [check_args] that a flag goes with its action and its
    companions. *)
Definition check_companions (args : TopicsArgs) : result string unit :=
  let partitions := (given (ta_partitions args), "partitions") in
  let factor := (given (ta_replication_factor args), "replication-factor") in
  let assignment := (given (ta_replica_assignment args), "replica-assignment") in
  let overrides := (set (ta_topics_with_overrides args), "topics-with-overrides") in
  _ ← check_invalid args (given (ta_config args), "config") ["alter"; "create"] [];
  _ ← check_invalid args partitions ["alter"; "create"] [];
  _ ← check_invalid args factor ["create"] [];
  _ ← check_invalid args assignment ["alter"; "create"] [];
  _ ← (if set (ta_create args)
       then check_invalid args assignment ["create"] [partitions; factor] else Ok tt);
  _ ← try_map (λ report, check_invalid args report ["describe"] [overrides]) (report_flags args);
  _ ← check_invalid args overrides ["describe"] (report_flags args);
  _ ← check_invalid args (ta_if_exists args, "if-exists") ["alter"; "delete"; "describe"] [];
  _ ← check_invalid args (ta_if_not_exists args, "if-not-exists") ["create"] [];
  check_invalid args (ta_exclude_internal args, "exclude-internal") ["list"; "describe"] [].

Definition check_topics_args (args : TopicsArgs) : result string unit :=
  let has_topic := given (ta_topic args) in
  let has_id := given (ta_topic_id args) in
  _ ← fail_if (negb (length (filter (λ flag : bool * string, flag.1 = true) (action_flags args)) =? 1)%nat)
        ACTIONS;
  _ ← fail_if (negb (given (bootstrap_server (ta_connection args)))
               && negb (given (bootstrap_controller (ta_connection args))))
        "--bootstrap-server must be specified";
  _ ← fail_if (set (ta_describe args) && ta_if_exists args && negb has_topic && negb has_id)
        "--topic or --topic-id is required to describe a topic";
  _ ← fail_if (negb (set (ta_list args)) && negb (set (ta_describe args)) && negb has_topic)
        (missing_argument "topic");
  _ ← (if set (ta_alter args) then check_alter args else Ok tt);
  check_companions args.

(** ** Planning *)

Definition replica_assignment (args : TopicsArgs) : result string (option (list (list Z))) :=
  value ← single (ta_replica_assignment args) "replica-assignment";
  match value with
  | None => Ok None
  | Some value =>
      if bool_decide (value = "") then Ok None
      else rows ← parse_replica_assignment value; Ok (Some rows)
  end.

Definition plan_create (args : TopicsArgs) : result string CreateRequest :=
  partitions ← int_option (ta_partitions args) "partitions";
  factor ← int_option (ta_replication_factor args) "replication-factor";
  assignment ← replica_assignment args;
  configs ← parse_topic_configs (ta_config args);
  _ ← fail_if (match factor with Some f => negb ((1 <=? f) && (f <=? 32767)) | None => false end)
        "The replication factor must be between 1 and 32767 inclusive";
  _ ← fail_if (match partitions with Some count => count <? 1 | None => false end)
        "The partitions must be greater than 0";
  Ok {| cr_names := ta_topic args; cr_partitions := partitions; cr_replication_factor := factor;
        cr_configs := configs;
        cr_replica_assignment :=
          bt_collect (imap (λ index brokers, (Z.of_nat index, brokers)) (default [] assignment));
        cr_if_not_exists := ta_if_not_exists args |}.

Section Planning.
Context `{RegexCrate} `{KrabkaIds}.

Definition ZERO_UUID : Uuid := foldr String "" (replicate 16 (ascii_of_nat 0)).

(** The id of [--topic-id], where it is not the zero one. *)
Definition target_id (args : TopicsArgs) : result string (option Uuid) :=
  value ← single (ta_topic_id args) "topic-id";
  match value with
  | None => Ok None
  | Some value =>
      id ← uuid_from_string value; Ok (if bool_decide (id = ZERO_UUID) then None else Some id)
  end.

Definition selectors_of (args : TopicsArgs) : Selectors :=
  omap (λ '(flag, selector), if flag : bool then Some selector else None)
    [(set (ta_under_replicated_partitions args), UnderReplicated);
     (set (ta_unavailable_partitions args), Unavailable);
     (set (ta_under_min_isr_partitions args), UnderMinIsr);
     (set (ta_at_min_isr_partitions args), AtMinIsr);
     (set (ta_topics_with_overrides args), TopicsWithOverrides)].

Definition plan_describe (args : TopicsArgs) (selection : TopicSelection) : result string TopicsAction :=
  limit ← int_option (ta_partition_size_limit_per_response args) "partition-size-limit-per-response";
  id ← target_id args;
  Ok (DescribeAction
        (match id with
         | Some id => TargetId id (ta_exclude_internal args) (negb (ta_if_exists args))
         | None => TargetNames selection
         end) (selectors_of args) (default DEFAULT_PARTITION_LIMIT limit)).

Definition selection_of (args : TopicsArgs) (require_exists : bool) : TopicSelection :=
  {| ts_patterns := ta_topic args; ts_exclude_internal := ta_exclude_internal args;
     ts_require_exists := require_exists |}.

Definition plan_action (args : TopicsArgs) : result string TopicsAction :=
  let selection := selection_of args in
  if set (ta_list args) then Ok (ListTopicsAction (selection false))
  else if set (ta_create args) then create ← plan_create args; Ok (CreateAction create)
  else if set (ta_alter args) then
    partitions ← int_option (ta_partitions args) "partitions";
    assignment ← replica_assignment args;
    Ok (AlterAction (selection (negb (ta_if_exists args))) (default 0 partitions) assignment)
  else if set (ta_delete args) then Ok (DeleteAction (selection (negb (ta_if_exists args))))
  else plan_describe args (selection (negb (ta_if_exists args))).

Definition topics_plan (args : TopicsArgs) : result string TopicsPlan :=
  _ ← fail_if (dry_run_flag (ta_confirm args) && negb (set (ta_create args) || set (ta_delete args)))
        "--dry-run is only valid with --create or --delete";
  _ ← check_topics_args args;
  action ← plan_action args;
  _ ← (if set (ta_create args) then Ok [] else try_map include_list (ta_topic args));
  Ok {| tp_action := action;
        tp_notices :=
          if set (ta_describe args) && ta_if_exists args && given (ta_topic args)
             && given (ta_topic_id args)
          then [TOPIC_ID_NOTICE] else [];
        tp_delete_config_notice := given (ta_delete_config args) |}.
End Planning.

(** ** Listing and resolving *)

(** The topics of the cluster, sorted by name. *)
Definition listing : cmd admin (list TopicMetadata) :=
  topics ← try_admin (send (Metadata []));
  pure (sort_by (λ a b, cmp (metadata_name a) (metadata_name b)) topics).

Definition names (entries : list TopicMetadata) : list string := map metadata_name entries.

(** [error_message]. *)
Definition topic_error_message (error : KafkaError) : string :=
  match error_message error with
  | Some message => if bool_decide (message = "") then exc_message (for_code (error_code error)) else message
  | None => exc_message (for_code (error_code error))
  end.

Definition unknown_topic : KafkaError :=
  {| error_code := 3; error_name := "UNKNOWN_TOPIC_OR_PARTITION"; error_message := None |}.

Definition failure_line (error : KafkaError) : string := ERROR_PREFIX +:+ topic_error_message error.

Definition failed_after (human : list string) (values : list Value) (message : string) : CommandResult :=
  rows (human ++ [ERROR_PREFIX +:+ message]) (Array values) true.

Definition topic_allowed (exclude_internal : bool) (topic : string) : bool :=
  negb (exclude_internal && is_internal topic).

(** [has_collision_chars]. *)
Definition has_collision_chars (topic : string) : bool :=
  contains_byte (λ c, (c =? ".")%char || (c =? "_")%char) topic.

(** [result.human.splice(0..0, more)]. *)
Definition with_first_lines (more : list string) (r : CommandResult) : CommandResult :=
  {| human := more ++ human r; data := data r; failed := failed r; dry_run := dry_run r;
     notices := notices r; marker_on_stderr := marker_on_stderr r; last_line := last_line r |}.

Section Resolving.
Context `{RegexCrate}.

(** The topics of [all] that one pattern selects. *)
Definition resolve_pattern (all : list string) (selection : TopicSelection) (pattern : string)
    : result string (list string) :=
  regex ← include_list pattern;
  let found := filter (λ topic, topic_allowed (ts_exclude_internal selection) topic && is_match regex topic = true) all in
  if ts_require_exists selection && negb (bool_decide (pattern = "")) && bool_decide (found = [])
  then Err ("Topic '" +:+ pattern +:+ "' does not exist as expected")
  else Ok found.

Definition resolve_topics (all : list string) (selection : TopicSelection) : result string (list string) :=
  if bool_decide (ts_patterns selection = [])
  then Ok (filter (λ topic, topic_allowed (ts_exclude_internal selection) topic = true) all)
  else
    (λ found, set_collect (concat found)) <$> try_map (resolve_pattern all selection) (ts_patterns selection).
End Resolving.

(** ** [--list] *)

Section Running.
Context `{RegexCrate} `{KrabkaIds}.

Definition opt_id (id : option Uuid) : Value := from_option (λ id, Str (uuid_to_string id)) Null id.

Definition listed_topic (entry : TopicMetadata) : Value :=
  object_of [("topic", Str (metadata_name entry)); ("topic_id", opt_id (metadata_topic_id entry));
    ("partitions", num (metadata_partition_count entry));
    ("replication_factor", num (metadata_replication_factor entry));
    ("error", kafka_error_json (metadata_error entry))].

Definition list_topics (selection : TopicSelection) : cmd admin CommandResult :=
  entries ← listing;
  selected ← lift (resolve_topics (names entries) selection);
  pure (success (if bool_decide (selected = []) then [""] else selected)
    (Array (map listed_topic (filter (λ entry, metadata_name entry ∈ selected) entries)))).

(** ** [--create] *)

(** The line of an outcome: none for a topic that exists and may. *)
Definition created_line (create : CreateRequest) (outcome : TopicOutcome) : option string :=
  match to_error outcome with
  | Some error =>
      if (error_code error =? 36) && cr_if_not_exists create then None else Some (failure_line error)
  | None => Some ("Created topic " +:+ to_name outcome +:+ ".")
  end.

Definition create_failed (create : CreateRequest) (outcome : TopicOutcome) : bool :=
  match to_error outcome with
  | Some error => negb ((error_code error =? 36) && cr_if_not_exists create)
  | None => false
  end.

Definition created (outcomes : list TopicOutcome) (create : CreateRequest) : CommandResult :=
  let outcomes := sort_by (λ a b, cmp (to_name a) (to_name b)) outcomes in
  rows
    ((if existsb has_collision_chars (cr_names create) then [COLLISION_WARNING] else []) ++
     omap (created_line create) outcomes)
    (Array (map (λ outcome, object_of [("topic", Str (to_name outcome));
       ("topic_id", opt_id (to_topic_id outcome)); ("error", kafka_error_json (to_error outcome))]) outcomes))
    (existsb (create_failed create) outcomes).

(** What [CreateTopics] would answer for a topic, from the metadata. *)
Definition predicted_creation (existing : list TopicMetadata) (name : string) : TopicOutcome :=
  {| to_name := name; to_topic_id := None;
     to_error :=
       if existsb (λ topic, bool_decide (metadata_name topic = name) && negb (is_some (metadata_error topic))) existing
       then Some {| error_code := 36; error_name := "TOPIC_ALREADY_EXISTS";
                    error_message := Some ("Topic '" +:+ name +:+ "' already exists.") |}
       else None |}.

Definition create_spec (create : CreateRequest) (name : string) : CreateTopicSpec :=
  {| spec_name := name; spec_partitions := default (-1) (cr_partitions create);
     spec_replicas := default (-1) (cr_replication_factor create); spec_configs := cr_configs create;
     spec_assignments := cr_replica_assignment create |}.

Definition create_topics (create : CreateRequest) (dry : bool) : cmd admin CommandResult :=
  if dry then
    existing ← try_admin (send (Metadata (cr_names create)));
    pure (into_dry_run (created (map (predicted_creation existing) (cr_names create)) create))
  else
    outcomes ← try_admin (send (CreateTopics (map (create_spec create) (cr_names create))));
    pure (created outcomes create).

(** ** [--alter] and [--delete] *)

(** A report that prints only the failed rows. *)
Definition failures_only (rows_of : list (string * option KafkaError * Value)) : CommandResult :=
  let rows_of := sort_by (λ a b : string * option KafkaError * Value, cmp a.1.1 b.1.1) rows_of in
  rows (omap (λ row : string * option KafkaError * Value, failure_line <$> row.1.2) rows_of)
    (Array (map snd rows_of)) (existsb (λ row : string * option KafkaError * Value, is_some row.1.2) rows_of).

(** The rows of the assignment past the partitions that a topic has, in the
    order of the [HashMap] by index. *)
Definition new_rows (assignment : list (list Z)) (count : nat) : list (list Z) :=
  map snd (hash_order (drop count (imap (λ index brokers, (Z.of_nat index, brokers)) assignment))
             Default (λ row, integer_hash row.1)).

Definition new_assignment (assignment : list (list Z))
    (described : list (string * result KafkaError TopicDescription)) (name : string)
    : result string (string * list (list Z)) :=
  match default (Err unknown_topic) (bt_get name described) with
  | Ok description => Ok (name, new_rows assignment (length (td_partitions description)))
  | Err error =>
      Err ("java.util.concurrent.ExecutionException: " +:+ exc_class (for_code (error_code error)) +:+
           ": " +:+ topic_error_message error)
  end.

Definition new_assignments (selected : list string) (assignment : list (list Z))
    (described : list (string * result KafkaError TopicDescription))
    : result string (list (string * list (list Z))) :=
  (λ rows_of, bt_collect rows_of) <$> try_map (new_assignment assignment described) selected.

(** [assignments.remove(name)] for each of [selected] in turn: the second of two
    equal names finds nothing. *)
Fixpoint partition_ops (partitions : Z) (selected : list string)
    (assignments : list (string * list (list Z))) : list CreatePartitionsOp :=
  match selected with
  | [] => []
  | name :: selected =>
      {| cp_name := name; cp_new_total_count := partitions; cp_assignments := bt_get name assignments |}
      :: partition_ops partitions selected (filter (λ entry, entry.1 ≠ name) assignments)
  end.

Definition altered_row (partitions : Z) (outcome : TopicOutcome) : string * option KafkaError * Value :=
  (to_name outcome, to_error outcome,
   object_of [("topic", Str (to_name outcome)); ("partitions", num partitions);
              ("error", kafka_error_json (to_error outcome))]).

Definition alter_topics (selection : TopicSelection) (partitions : Z)
    (assignment : option (list (list Z))) : cmd admin CommandResult :=
  entries ← listing;
  selected ← lift (resolve_topics (names entries) selection);
  if bool_decide (selected = []) then pure (success [] (Array []))
  else
    described ← await (send (DescribeTopics selected None));
    match match assignment with
          | Some assignment => new_assignments selected assignment (bt_collect described)
          | None => Ok []
          end with
    | Err message => pure (failed_after [] [] message)
    | Ok assignments =>
        outcomes ← try_admin (send (CreatePartitions (partition_ops partitions selected assignments)));
        pure (failures_only (map (altered_row partitions) outcomes))
    end.

Definition deleted_topics (outcomes : list TopicOutcome) : CommandResult :=
  failures_only (map (λ outcome, (to_name outcome, to_error outcome,
    object_of [("topic", Str (to_name outcome)); ("error", kafka_error_json (to_error outcome))])) outcomes).

Definition delete_topics_impact (selected : list string) : Impact :=
  {| summary := "delete " +:+ pretty (Z.of_nat (length selected)) +:+ " topic(s)"; resources := selected |}.

Definition delete_topics (selection : TopicSelection) (safety : ConfirmArgs) : cmd admin CommandResult :=
  entries ← listing;
  selected ← lift (resolve_topics (names entries) selection);
  if dry_run_flag safety then
    pure (into_dry_run (with_first_lines selected (deleted_topics
      (map (λ entry, {| to_name := metadata_name entry; to_topic_id := None;
                        to_error := metadata_error entry |})
        (filter (λ entry, metadata_name entry ∈ selected) entries)))))
  else if bool_decide (selected = []) then pure (success [] (Array []))
  else
    _ ← confirm (yes_flag safety) "krabka topics" (delete_topics_impact selected);
    outcomes ← try_admin (send (DeleteTopics selected));
    pure (deleted_topics outcomes).

(** ** [--describe] *)

(** The ongoing reassignments; a broker that does not support or authorize the
    call has none. *)
Definition ongoing (assignments : list PartitionAssignment) : list ((string * Z) * Reassignment) :=
  bt_collect (map (λ a, ((pa_topic a, pa_partition a),
    {| ra_replicas := pa_replicas a; ra_adding := pa_adding_replicas a;
       ra_removing := pa_removing_replicas a |})) assignments).

Definition no_reassignments (error : AdminError) : bool :=
  match error with
  | BrokerError _ code _ _ => (code =? 31) || (code =? 35)
  | Transport (IncompatibleVersion _ _) => true
  | _ => false
  end.

Definition reassignments (topics : list TopicInfo) : cmd admin (list ((string * Z) * Reassignment)) :=
  answer ← await (send (ListPartitionReassignments
    (bt_collect (map (λ topic, (ti_name topic, map pi_index (ti_partitions topic))) topics))));
  match answer with
  | Ok assignments => pure (ongoing assignments)
  | Err error => if no_reassignments error then pure [] else throw (from_admin_error error)
  end.

Definition described (entries : list TopicMetadata) (target : DescribeTarget)
    : result string (list string) :=
  match target with
  | TargetNames selection => describe_order <$> resolve_topics (names entries) selection
  | TargetId id exclude_internal require_exists =>
      let found := map metadata_name (filter (λ entry,
        topic_allowed exclude_internal (metadata_name entry) = true ∧ metadata_topic_id entry = Some id) entries) in
      if require_exists && bool_decide (found = [])
      then Err ("TopicId '" +:+ uuid_to_string id +:+ "' does not exist as expected")
      else Ok found
  end.

Definition topic_from (description : TopicDescription) (elr_known : bool) : TopicInfo :=
  {| ti_name := td_name description; ti_id := td_topic_id description;
     ti_partitions := sort_by (λ a b, Z.compare (pi_index a) (pi_index b))
       (map (λ p, {| pi_index := pd_partition p; pi_leader := pd_leader p; pi_replicas := pd_replicas p;
          pi_isr := pd_isr p; pi_elr := if elr_known then Some (pd_elr p) else None;
          pi_last_known_elr := if elr_known then Some (pd_last_known_elr p) else None |})
         (td_partitions description)) |}.

(** [found.remove(name)] for each of [ordered] in turn. *)
Fixpoint described_in_order (ordered : list string)
    (found : list (string * result KafkaError TopicDescription)) : result KafkaError (list TopicInfo) :=
  match ordered with
  | [] => Ok []
  | name :: ordered =>
      description ← default (Err unknown_topic) (bt_get name found);
      topics ← described_in_order ordered (filter (λ entry, entry.1 ≠ name) found);
      Ok (topic_from description true :: topics)
  end.

Definition descriptions (target : DescribeTarget) (partition_limit : Z) (ordered : list string)
    : prog admin (result KafkaError (list TopicInfo)) :=
  match target with
  | TargetId id _ _ =>
      prog_bind (λ found, Halt (Done (try_map (λ entry : Uuid * result KafkaError TopicDescription,
        match entry.2 with Ok d => Ok (topic_from d false) | Err e => Err e end) found)))
        (send (DescribeTopicsById id))
  | TargetNames _ =>
      prog_bind (λ found, Halt (Done (described_in_order ordered (bt_collect found))))
        (send (DescribeTopics ordered (Some partition_limit)))
  end.

Definition NO_CONFIG : KafkaError :=
  {| error_code := -1; error_name := "UNKNOWN_SERVER_ERROR"; error_message := None |}.


(** [configs.remove(&ConfigResource::topic(name))]: the value and the map without
    it. *)
Definition take_config (name : string) (configs : list (ConfigResource * result KafkaError (list ConfigEntry)))
    : result KafkaError (list ConfigEntry) * list (ConfigResource * result KafkaError (list ConfigEntry)) :=
  (default (Err NO_CONFIG) ((λ x : nat * (ConfigResource * result KafkaError (list ConfigEntry)), x.2.2) <$>
     list_find (λ entry, entry.1 = TopicResource name) configs),
   filter (λ entry, entry.1 ≠ TopicResource name) configs).

(** The reassignments of one topic, by partition. *)
Definition topic_reassignments (name : string) (all : list ((string * Z) * Reassignment))
    : list (Z * Reassignment) :=
  bt_collect (omap (λ entry : (string * Z) * Reassignment,
    if bool_decide (entry.1.1 = name) then Some (entry.1.2, entry.2) else None) all).

Fixpoint describe_reports (selectors : Selectors) (live_brokers : list Z)
    (moving : list ((string * Z) * Reassignment))
    (configs : list (ConfigResource * result KafkaError (list ConfigEntry)))
    (topics : list TopicInfo) (lines : list string) (values : list Value) : CommandResult :=
  match topics with
  | [] => success lines (Array values)
  | topic :: topics =>
      let '(config, configs) := take_config (ti_name topic) configs in
      match config with
      | Err error => failed_after lines values (topic_error_message error)
      | Ok config =>
          match describe_topic
                  {| tr_topic := topic; tr_configs := non_default_configs config;
                     tr_min_isr := min_insync_replicas config;
                     tr_reassignments := topic_reassignments (ti_name topic) moving |}
                  selectors live_brokers with
          | Ok (Some (more, value)) =>
              describe_reports selectors live_brokers moving configs topics (lines ++ more) (values ++ [value])
          | Ok None => describe_reports selectors live_brokers moving configs topics lines values
          | Err failure => failed_after (lines ++ printed failure) values (failure_message failure)
          end
      end
  end.

Definition describe_topics (target : DescribeTarget) (selectors : Selectors) (partition_limit : Z)
    : cmd admin CommandResult :=
  entries ← listing;
  ordered ← lift (described entries target);
  if bool_decide (ordered = []) then pure (success [] (Array []))
  else
    answer ← await (descriptions target partition_limit ordered);
    match answer with
    | Err error => pure (failed_after [] [] (topic_error_message error))
    | Ok topics =>
        configs ← try_admin (send (DescribeConfigs (map (λ topic, TopicResource (ti_name topic)) topics) false));
        cluster ← try_admin (send (DescribeCluster false));
        moving ← reassignments topics;
        pure (describe_reports selectors (set_collect (map node_id (description_nodes cluster))) moving
          configs topics [] [])
    end.

(** ** The command *)

Definition run_topics_action (action : TopicsAction) (safety : ConfirmArgs) : cmd admin CommandResult :=
  match action with
  | ListTopicsAction selection => list_topics selection
  | CreateAction create => create_topics create (dry_run_flag safety)
  | AlterAction selection partitions assignment => alter_topics selection partitions assignment
  | DeleteAction selection => delete_topics selection safety
  | DescribeAction target selectors limit => describe_topics target selectors limit
  end.

Definition topics_run (args : TopicsArgs) : cmd admin CommandResult :=
  plan ← lift (topics_plan args);
  _ ← (if tp_delete_config_notice plan then await (send (Eprintln DELETE_CONFIG_NOTICE)) else pure tt);
  _ ← connect (ta_connection args) "topics";
  result ← run_topics_action (tp_action plan) (ta_confirm args);
  pure (with_first_lines (tp_notices plan) result).
End Running.

(** ** What a plan guarantees *)

Lemma fail_if_Ok condition message : fail_if condition message = Ok tt ↔ condition = false.
Proof. by destruct condition. Qed.

Lemma check_invalid_Ok args used actions others :
  check_invalid args used actions others = Ok tt →
  used.1 = true → action_name args ∈ actions ∧ first_set others = None.
Proof.
  destruct used as [[] name]; [|done]. unfold check_invalid. cbn [negb]. intros Hc _. revert Hc.
  case_bool_decide; [|done]. destruct (first_set others); [done|]. by split.
Qed.

(** The checks that the requests depend on. *)
Record checked (args : TopicsArgs) : Prop := {
  one_action : length (filter (λ flag : bool * string, flag.1 = true) (action_flags args)) = 1%nat;
  has_topic : set (ta_list args) = false → set (ta_describe args) = false → ta_topic args ≠ [];
  internal_reads : ta_exclude_internal args = true → action_name args ∈ ["list"; "describe"];
  placed_by_hand : set (ta_create args) = true → ta_replica_assignment args ≠ [] →
    ta_partitions args = [] ∧ ta_replication_factor args = [];
  counted : set (ta_alter args) = true → ta_partitions args ≠ []
}.

Lemma given_spec values : given values = false ↔ values = [].
Proof. unfold given. rewrite negb_false_iff. apply bool_decide_eq_true. Qed.

(** Takes a check that passed off the front of a chain of checks. *)
Lemma check_companions_Ok args :
  check_companions args = Ok tt →
  (ta_exclude_internal args = true → action_name args ∈ ["list"; "describe"]) ∧
  (set (ta_create args) = true → ta_replica_assignment args ≠ [] →
   ta_partitions args = [] ∧ ta_replication_factor args = []).
Proof.
  unfold check_companions. intros H.
  do 4 apply then_Ok in H as [_ H]. apply then_Ok in H as [Hassign H].
  destruct (try_map _ _) as [reports|]; [|done]. cbn [mbind result_bind] in H.
  do 3 apply then_Ok in H as [_ H]. split.
  - intros He. by apply check_invalid_Ok in H as [Ha _].
  - intros Hc Hr. rewrite Hc in Hassign. apply check_invalid_Ok in Hassign as [_ Hnone].
    + unfold first_set in Hnone. cbn in Hnone.
      destruct (given (ta_partitions args)) eqn:Hp; [done|].
      destruct (given (ta_replication_factor args)) eqn:Hf; [done|]. by rewrite !given_spec in Hp, Hf.
    + cbn. apply not_false_is_true. by rewrite given_spec.
Qed.

Lemma check_topics_args_checked args : check_topics_args args = Ok tt → checked args.
Proof.
  unfold check_topics_args. intros H. apply then_Ok in H as [H1%fail_if_Ok H].
  do 2 apply then_Ok in H as [_ H]. apply then_Ok in H as [H2%fail_if_Ok H].
  apply then_Ok in H as [H3 H]. apply check_companions_Ok in H as [Hint Hplaced]. split; [..|done|done|].
  - apply negb_false_iff in H1. by apply Nat.eqb_eq.
  - intros Hl Hd. rewrite Hl, Hd in H2. cbn in H2. apply negb_false_iff in H2.
    intros E. by rewrite <-given_spec, H2 in E.
  - intros Ha. rewrite Ha in H3. apply then_Ok in H3 as [_ H3%fail_if_Ok].
    apply negb_false_iff in H3. intros E. by rewrite <-given_spec, H3 in E.
Qed.

Section Plans.
Context `{RegexCrate} `{KrabkaIds}.

Lemma topics_plan_Ok args plan :
  topics_plan args = Ok plan →
  checked args ∧ plan_action args = Ok (tp_action plan) ∧
  (dry_run_flag (ta_confirm args) = true → set (ta_create args) = true ∨ set (ta_delete args) = true).
Proof.
  unfold topics_plan. intros H1. apply then_Ok in H1 as [Hdry%fail_if_Ok H1].
  apply then_Ok in H1 as [Hc%check_topics_args_checked H1].
  destruct (plan_action args) as [action|]; [|done]. cbn [mbind result_bind] in H1.
  destruct (if set (ta_create args) then Ok [] else _) in H1; [|done]. cbn in H1.
  injection H1 as <-. split_and!; [done..|]. intros Hd. rewrite Hd in Hdry.
  apply orb_true_iff. by apply negb_false_iff.
Qed.

(** The action of a plan, by the flag that is set. *)
Definition action_matches (args : TopicsArgs) (action : TopicsAction) : Prop :=
  match action with
  | ListTopicsAction _ => set (ta_list args) = true
  | CreateAction create => set (ta_create args) = true ∧ plan_create args = Ok create
  | AlterAction selection partitions assignment =>
      set (ta_alter args) = true ∧ selection = selection_of args (negb (ta_if_exists args)) ∧
      (∃ count, int_option (ta_partitions args) "partitions" = Ok count ∧ partitions = default 0 count) ∧
      replica_assignment args = Ok assignment
  | DeleteAction selection =>
      set (ta_delete args) = true ∧ selection = selection_of args (negb (ta_if_exists args))
  | DescribeAction _ _ _ => set (ta_describe args) = true
  end.

Lemma plan_action_matches args action :
  checked args → plan_action args = Ok action → action_matches args action.
Proof.
  intros Hc. pose proof (one_action _ Hc) as H1. unfold action_flags in H1. unfold plan_action.
  destruct (set (ta_list args)) eqn:Hl; [by intros [= <-]|].
  destruct (set (ta_create args)) eqn:Hcr.
  { destruct (plan_create args) eqn:Hp; [|done]. by intros [= <-]. }
  destruct (set (ta_alter args)) eqn:Ha.
  { destruct (int_option _ _) as [count|] eqn:Hi; [|done]. cbn [mbind result_bind].
    destruct (replica_assignment args) eqn:Hr; [|done]. cbn. intros [= <-].
    split_and!; [done..| |done]. by exists count. }
  destruct (set (ta_delete args)) eqn:Hd; [by intros [= <-]|].
  destruct (set (ta_describe args)) eqn:Hde; [|by vm_compute in H1].
  unfold plan_describe. destruct (int_option _ _); [|done]. cbn [mbind result_bind].
  destruct (target_id args); [|done]. cbn. by intros [= <-].
Qed.

(** Only one action's flag is set. *)
Lemma checked_exclusive args :
  checked args →
  (set (ta_create args) = true → action_name args = "create" ∧ set (ta_list args) = false ∧
     set (ta_alter args) = false ∧ set (ta_describe args) = false ∧ set (ta_delete args) = false) ∧
  (set (ta_alter args) = true → action_name args = "alter" ∧ set (ta_list args) = false ∧
     set (ta_create args) = false ∧ set (ta_describe args) = false ∧ set (ta_delete args) = false) ∧
  (set (ta_delete args) = true → action_name args = "delete" ∧ set (ta_list args) = false ∧
     set (ta_create args) = false ∧ set (ta_describe args) = false ∧ set (ta_alter args) = false).
Proof.
  intros Hc. pose proof (one_action _ Hc) as H1. unfold action_name, action_flags in *.
  by destruct (set (ta_create args)), (set (ta_list args)), (set (ta_alter args)),
    (set (ta_describe args)), (set (ta_delete args)).
Qed.

(** ** What a selection resolves to *)

(** A pattern of the selection matches the topic. *)
Definition selected_by (patterns : list string) (topic : string) : Prop :=
  ∃ pattern regex, pattern ∈ patterns ∧ include_list pattern = Ok regex ∧ is_match regex topic = true.

Lemma resolve_pattern_Ok all selection pattern found :
  resolve_pattern all selection pattern = Ok found →
  ∃ regex, include_list pattern = Ok regex ∧
    found = filter (λ topic, topic_allowed (ts_exclude_internal selection) topic && is_match regex topic = true) all.
Proof.
  unfold resolve_pattern. destruct (include_list pattern) as [regex|]; [|done]. cbn [mbind result_bind].
  destruct (_ && _); [done|]. intros [= <-]. by exists regex.
Qed.

Lemma resolve_Ok all selection found :
  resolve_topics all selection = Ok found →
  ∀ topic, topic ∈ found ↔
    topic ∈ all ∧ topic_allowed (ts_exclude_internal selection) topic = true ∧
    (ts_patterns selection = [] ∨ selected_by (ts_patterns selection) topic).
Proof.
  unfold resolve_topics. case_bool_decide as Hp.
  { intros [= <-] topic. rewrite list_elem_of_filter. naive_solver. }
  destruct (try_map _ _) as [lists|] eqn:E; [|done]. apply try_map_Ok in E. intros [= <-] topic.
  rewrite elem_of_set_collect, list_elem_of_In, in_concat. setoid_rewrite <-list_elem_of_In.
  unfold selected_by. split.
  - intros (l & Hl & Ht). apply list_elem_of_lookup in Hl as [i Hi].
    destruct (Forall2_lookup_r _ _ _ _ _ E Hi) as (pattern & Hpat & (regex & Hr & ->)%resolve_pattern_Ok).
    apply list_elem_of_filter in Ht as [[Ha Hm]%andb_true_iff Hin]. split_and!; [done..|]. right.
    exists pattern, regex. split_and!; [by eapply list_elem_of_lookup_2|done..].
  - intros (Hin & Ha & [Hn|(pattern & regex & Hpat & Hr & Hm)]); [done|].
    apply list_elem_of_lookup in Hpat as [i Hi].
    destruct (Forall2_lookup_l _ _ _ _ _ E Hi) as (l & Hl & (regex' & Hr' & ->)%resolve_pattern_Ok).
    eexists. split; [by eapply list_elem_of_lookup_2|]. apply list_elem_of_filter. split; [|done].
    apply andb_true_iff. split; [done|]. congruence.
Qed.
End Plans.

(** ** Guards *)

Section Guards.
Context `{RegexCrate} `{KrabkaIds}.

Lemma harmless_listing : harmless listing.
Proof. unfold listing. harmless. Qed.
#[local] Hint Resolve harmless_listing : krabka.

Lemma harmless_list_topics selection : harmless (list_topics selection).
Proof. unfold list_topics. harmless. Qed.

Lemma harmless_describe_topics target selectors limit : harmless (describe_topics target selectors limit).
Proof. unfold describe_topics, descriptions, reassignments. harmless. Qed.

Lemma harmless_notice (b : bool) :
  harmless (if b then await (send (Eprintln DELETE_CONFIG_NOTICE)) else pure tt).
Proof. destruct b; harmless. Qed.
#[local] Hint Resolve harmless_list_topics harmless_describe_topics harmless_notice : krabka.

Lemma create_topics_dry_run create :
  monitored read_only tt (create_topics create true) (on_ok (λ _ r, dry_run r = true)).
Proof. unfold create_topics. by ro_step. Qed.

Lemma delete_topics_dry_run selection safety :
  dry_run_flag safety = true →
  monitored read_only tt (delete_topics selection safety) (on_ok (λ _ r, dry_run r = true)).
Proof. intros Hd. unfold delete_topics. rewrite Hd. by do 2 ro_step. Qed.

Lemma delete_topics_confirmed selection safety s :
  (yes_flag safety = true → s = true) →
  monitored guarded s (delete_topics selection safety) (on_ok (λ _ _, True)).
Proof.
  intros Hs. unfold delete_topics. do 2 guarded_step.
  destruct (dry_run_flag safety); [done|]. case_bool_decide; [done|]. apply guarded_confirm. auto.
Qed.

(** The notices come before the report, and leave its marks. *)
Lemma with_notices_post {S} (m : Monitor admin S) s (p : cmd admin CommandResult) more
    (P : S → bool → Prop) :
  monitored m s p (on_ok (λ s r, P s (dry_run r))) →
  monitored m s (p ≫= λ r, pure (with_first_lines more r)) (on_ok (λ s r, P s (dry_run r))).
Proof. intros Hp. by eapply monitored_cmd_bind; [exact Hp|]. Qed.

(** C15. The guards of [krabka topics], for every cluster: under [--dry-run]
    nothing changes and the report is marked, and the flag is refused with any
    action but [--create] and [--delete]; [--list] and [--describe] only read;
    and [--delete] deletes nothing before the operator accepted the prompt or gave
    [--yes]. *)
Theorem topics_guards (args : TopicsArgs) :
  (dry_run_flag (ta_confirm args) = true → dry_run_contract (topics_run args)) ∧
  (dry_run_flag (ta_confirm args) = true → set (ta_create args) = false → set (ta_delete args) = false →
   topics_run args = throw (Other "--dry-run is only valid with --create or --delete")) ∧
  (set (ta_list args) = true ∨ set (ta_describe args) = true → read_only_contract (topics_run args)) ∧
  (set (ta_delete args) = true → confirm_contract (yes_flag (ta_confirm args)) (topics_run args)).
Proof.
  split_and!.
  - intros Hd. apply dry_run_intro. unfold topics_run.
    destruct (topics_plan args) as [plan|] eqn:Hplan; [|done].
    apply topics_plan_Ok in Hplan as (Hc & Ha & Hdry). apply monitored_ok. do 2 ro_step.
    apply (with_notices_post read_only tt _ _ (λ _ b, b = true)).
    apply plan_action_matches in Ha as Hm; [|done].
    destruct (checked_exclusive _ Hc) as (Hcreate & _ & Hdelete).
    destruct (Hdry Hd) as [(Hn & Hl & Hal & Hde & Hdl)%Hcreate|(Hn & Hl & Hcr & Hde & Hal)%Hdelete];
      destruct (tp_action plan); cbn in Hm |- *; try (by destruct_and?; congruence).
    + rewrite Hd. apply create_topics_dry_run.
    + by apply delete_topics_dry_run.
  - intros Hd Hcr Hdl. unfold topics_run, topics_plan. by rewrite Hd, Hcr, Hdl.
  - intros Hread. apply harmless_intro. unfold topics_run.
    destruct (topics_plan args) as [plan|] eqn:Hplan; [|done].
    apply topics_plan_Ok in Hplan as (Hc & Ha & _). apply plan_action_matches in Ha as Hm; [|done].
    destruct (checked_exclusive _ Hc) as (Hcreate & Halter & Hdelete).
    apply monitored_ok. apply harmless_bind; [auto with krabka|]. intros _.
    apply harmless_bind; [auto with krabka|]. intros _. apply harmless_bind; [|done].
    destruct (tp_action plan); cbn [action_matches run_topics_action] in Hm |- *; auto with krabka; exfalso.
    + destruct (Hcreate (proj1 Hm)) as (_ & ? & _ & ? & _). destruct Hread; congruence.
    + destruct (Halter (proj1 Hm)) as (_ & ? & _ & ? & _). destruct Hread; congruence.
    + destruct (Hdelete (proj1 Hm)) as (_ & ? & _ & ? & _). destruct Hread; congruence.
  - intros Hdl. apply confirm_intro. unfold topics_run.
    destruct (topics_plan args) as [plan|] eqn:Hplan; [|done].
    apply topics_plan_Ok in Hplan as (Hc & Ha & _). apply plan_action_matches in Ha as Hm; [|done].
    destruct (checked_exclusive _ Hc) as (_ & _ & Hdelete).
    destruct (Hdelete Hdl) as (Hn & Hl & Hcr & Hde & Hal).
    apply monitored_ok. do 2 guarded_step.
    eapply monitored_cmd_bind; [|done].
    destruct (tp_action plan); cbn in Hm |- *; try (exfalso; by destruct_and?; congruence).
    apply delete_topics_confirmed. auto.
Qed.
End Guards.

(** ** What is requested *)

Section Requests.
Context `{RegexCrate} `{KrabkaIds}.

(** The topics are those that the cluster listed and a [--topic] matches. *)
Definition as_listed (args : TopicsArgs) (past : list (event admin)) (topics : list string) : Prop :=
  topics ≠ [] ∧ ∃ listed,
    (existT (Metadata [] : call admin) (Ok listed) : event admin) ∈ past ∧
    ∀ topic, topic ∈ topics ↔ topic ∈ map metadata_name listed ∧ selected_by (ta_topic args) topic.

(** What a request to create a topic may ask. *)
Definition creates_as_asked (args : TopicsArgs) (spec : CreateTopicSpec) : Prop :=
  (spec_partitions spec = -1 ∨ 1 ≤ spec_partitions spec) ∧
  (spec_replicas spec = -1 ∨ 1 ≤ spec_replicas spec ≤ 32767) ∧
  parse_topic_configs (ta_config args) = Ok (spec_configs spec) ∧
  (spec_assignments spec ≠ [] → spec_partitions spec = -1 ∧ spec_replicas spec = -1).

(** The requests that the flags authorise, by what came before. *)
Definition rightful_topics (args : TopicsArgs) (past : list (event admin)) (c : admin_call) : Prop :=
  match c with
  | CreateTopics specs =>
      set (ta_create args) = true ∧ dry_run_flag (ta_confirm args) = false ∧
      map spec_name specs = ta_topic args ∧ Forall (creates_as_asked args) specs
  | CreatePartitions ops =>
      set (ta_alter args) = true ∧ as_listed args past (map cp_name ops) ∧
      ∃ text count, ta_partitions args = [text] ∧ parse_i32 text = Some count ∧
        Forall (λ op, cp_new_total_count op = count) ops
  | DeleteTopics topics =>
      set (ta_delete args) = true ∧ dry_run_flag (ta_confirm args) = false ∧
      as_listed args past topics
  | c => mutating c = false
  end.

Lemma rightful_topics_reads args past c : mutating c = false → rightful_topics args past c.
Proof. by destruct c. Qed.

Lemma trace_listing log entries :
  trace listing log (Done (Ok entries)) →
  ∃ listed, log = [existT (Metadata [] : call admin) (Ok listed)] ∧
    ∀ topic, topic ∈ names entries ↔ topic ∈ map metadata_name listed.
Proof.
  intros ([listed|e] & log' & -> & -> & E); [|done]. injection E as ->. exists listed.
  split; [done|]. intros topic. unfold names. rewrite !list_elem_of_fmap.
  by setoid_rewrite sort_by_perm.
Qed.

(** A selection of an action that may not leave internal topics out. *)
Lemma resolve_listed args past log entries selected require_exists :
  ta_exclude_internal args = false → ta_topic args ≠ [] →
  trace listing log (Done (Ok entries)) →
  resolve_topics (names entries) (selection_of args require_exists) = Ok selected → selected ≠ [] →
  as_listed args (past ++ log) selected.
Proof.
  intros Hint Htopic (listed & -> & Hlisted)%trace_listing Hres Hne. split; [done|].
  exists listed. split; [set_solver|]. intros topic.
  rewrite (resolve_Ok _ _ _ Hres topic), Hlisted. unfold selection_of. cbn.
  rewrite Hint. unfold topic_allowed. cbn. naive_solver.
Qed.

Lemma partition_ops_names partitions selected assignments :
  map cp_name (partition_ops partitions selected assignments) = selected ∧
  Forall (λ op, cp_new_total_count op = partitions) (partition_ops partitions selected assignments).
Proof.
  revert assignments. induction selected as [|name selected IH]; intros assignments; [by split|].
  cbn [partition_ops map]. destruct (IH (filter (λ entry, entry.1 ≠ name) assignments)) as [-> Hc].
  by split; [|constructor].
Qed.

Lemma plan_create_asked args create :
  checked args → set (ta_create args) = true → plan_create args = Ok create →
  map spec_name (map (create_spec create) (cr_names create)) = ta_topic args ∧
  Forall (creates_as_asked args) (map (create_spec create) (cr_names create)).
Proof.
  intros Hc Hset. unfold plan_create.
  destruct (int_option (ta_partitions args) _) as [partitions|] eqn:Hp; [|done]. cbn [mbind result_bind].
  destruct (int_option (ta_replication_factor args) _) as [factor|] eqn:Hf; [|done]. cbn [mbind result_bind].
  destruct (replica_assignment args) as [assignment|] eqn:Hr; [|done]. cbn [mbind result_bind].
  destruct (parse_topic_configs (ta_config args)) as [configs|] eqn:Hconf; [|done]. cbn [mbind result_bind].
  intros H1. apply then_Ok in H1 as [Hfactor%fail_if_Ok H1].
  apply then_Ok in H1 as [Hcount%fail_if_Ok H1]. injection H1 as <-. cbn [cr_names]. split.
  { rewrite map_map. cbn. apply map_id. }
  apply Forall_map, Forall_true. intros name. unfold creates_as_asked. cbn. split_and!; [..|done|].
  - destruct partitions as [count|]; [right|by left]. apply Z.ltb_ge in Hcount. exact Hcount.
  - destruct factor as [f|]; [right|by left]. apply negb_false_iff, andb_true_iff in Hfactor as [H1 H2].
    apply Z.leb_le in H1, H2. by split.
  - intros Ha. destruct (placed_by_hand _ Hc Hset) as [Hnp Hnf].
    + intros E. unfold replica_assignment in Hr. rewrite E in Hr. by injection Hr as <-.
    + rewrite Hnp in Hp. rewrite Hnf in Hf. injection Hp as <-. by injection Hf as <-.
Qed.

(** A step that only reads. *)
Ltac rightful_step log a Ht :=
  apply history_bind; [apply rightful_topics_reads|auto with krabka|intros log a Ht].

#[local] Hint Resolve harmless_listing harmless_notice : krabka.

(** The actions that change topics leave no internal topic out. *)
Lemma changes_internal args :
  checked args → set (ta_alter args) = true ∨ set (ta_delete args) = true →
  ta_exclude_internal args = false ∧ ta_topic args ≠ [].
Proof.
  intros Hc Hset. destruct (checked_exclusive _ Hc) as (_ & Halter & Hdelete). split.
  - apply not_true_is_false. intros Hint%(internal_reads _ Hc).
    destruct Hset as [(Hn & _)%Halter|(Hn & _)%Hdelete]; rewrite Hn in Hint; set_solver.
  - destruct Hset as [(_ & Hl & _ & Hd & _)%Halter|(_ & Hl & _ & Hd & _)%Hdelete];
      by apply (has_topic _ Hc).
Qed.

Lemma alter_rightful args past selection partitions assignment :
  checked args → action_matches args (AlterAction selection partitions assignment) →
  monitored (history (Σ := admin) (rightful_topics args)) past
    (alter_topics selection partitions assignment) (on_ok (λ _ _, True)).
Proof.
  intros Hc (Hset & -> & (count & Hcount & ->) & _).
  destruct (changes_internal _ Hc (or_introl Hset)) as [Hint Htopic].
  unfold alter_topics. rightful_step log entries Hl. rightful_step log' selected Hr.
  apply trace_lift in Hr as [Hr ->]. rewrite app_nil_r. case_bool_decide as Hne; [done|].
  split; [done|]. intros described. cbn [history after await prog_bind].
  destruct (match assignment with Some _ => _ | None => _ end) as [assignments|message]; [|done].
  destruct (partition_ops_names (default 0 count) selected assignments) as [Hnames Hcounts].
  split; [|by intros [outcomes|e]]. split_and!; [done| |].
  - rewrite Hnames. destruct (resolve_listed args past _ _ _ _ Hint Htopic Hl Hr Hne)
      as (Hne' & listed & Hin & Hall). split; [done|]. exists listed. split; [set_solver|done].
  - unfold int_option in Hcount. pose proof (counted _ Hc Hset) as Hp.
    destruct (ta_partitions args) as [|text [|]]; [done| |done]. cbn in Hcount.
    destruct (parse_i32 text) as [n|] eqn:E; [|done]. injection Hcount as <-. by exists text, n.
Qed.

Lemma delete_rightful args past selection :
  checked args → action_matches args (DeleteAction selection) →
  monitored (history (Σ := admin) (rightful_topics args)) past
    (delete_topics selection (ta_confirm args)) (on_ok (λ _ _, True)).
Proof.
  intros Hc (Hset & ->). destruct (changes_internal _ Hc (or_intror Hset)) as [Hint Htopic].
  unfold delete_topics. rightful_step log entries Hl. rightful_step log' selected Hr.
  apply trace_lift in Hr as [Hr ->]. rewrite app_nil_r.
  destruct (dry_run_flag (ta_confirm args)) eqn:Hd; [done|]. case_bool_decide as Hne; [done|].
  rightful_step log'' accepted_prompt Hok. split; [|by intros [outcomes|e]].
  destruct (resolve_listed args past _ _ _ _ Hint Htopic Hl Hr Hne) as (Hne' & listed & Hin & Hall).
  split_and!; [done..|]. split; [done|]. exists listed. split; [set_solver|done].
Qed.

(** C7. What [krabka topics] asks of a cluster, for every cluster. It creates
    exactly the topics of [--topic], with counts in Kafka's range or left to the
    cluster, the checked configs, and no counts beside an assignment; it adds
    partitions, up to [--partitions], and deletes, after the same listing, exactly
    the listed topics that a [--topic] pattern matches; it does each only with its
    action's flag, creations and deletions not under [--dry-run]; and it makes no
    other change. *)
Theorem topics_requests (args : TopicsArgs) :
  ∀ W (world : ∀ c : admin_call, W → admin_answer c * W) (w : W) pre e post,
    events_of world (topics_run args) w = pre ++ e :: post →
    rightful_topics args pre (projT1 e).
Proof.
  intros W world w pre e post. apply (run_history (Σ := admin) world _ _ (on_ok (λ _ _, True))).
  unfold topics_run. destruct (topics_plan args) as [plan|] eqn:Hplan; [|done].
  apply topics_plan_Ok in Hplan as (Hc & Ha & _). apply plan_action_matches in Ha; [|done].
  apply monitored_ok. rightful_step log1 u1 H1. rightful_step log2 u2 H2.
  apply (monitored_cmd_bind _ _ _ _ (λ _ _, True)); [|done]. cbn [app].
  destruct (tp_action plan) as [selection|create|selection partitions assignment|selection|target
    selectors limit]; cbn [run_topics_action].
  - eapply monitored_mono; [apply history_harmless; [apply rightful_topics_reads|apply harmless_list_topics]|].
    by intros ? [[]| |].
  - unfold create_topics. destruct (dry_run_flag (ta_confirm args)) eqn:Hd.
    + split; [done|]. by intros [existing|error].
    + destruct Ha as [Hset Hcreate]. split; [|by intros [outcomes|error]].
      split_and!; [done..|apply (plan_create_asked args create Hc Hset Hcreate)|].
      apply (plan_create_asked args create Hc Hset Hcreate).
  - by apply alter_rightful.
  - by apply delete_rightful.
  - eapply monitored_mono; [apply history_harmless; [apply rightful_topics_reads|apply harmless_describe_topics]|].
    by intros ? [[]| |].
Qed.
End Requests.

(** ** A run that deletes *)

Definition delete_args : TopicsArgs :=
  {| ta_connection := {| bootstrap_server := ["localhost:9092"]; bootstrap_controller := [];
       command_config := None; client_id := None; request_timeout_ms := None |};
     ta_list := 0; ta_create := 0; ta_delete := 1; ta_alter := 0; ta_describe := 0;
     ta_topic := ["ord.*"]; ta_topic_id := []; ta_config := []; ta_delete_config := [];
     ta_partitions := []; ta_replication_factor := []; ta_replica_assignment := [];
     ta_under_replicated_partitions := 0; ta_unavailable_partitions := 0;
     ta_under_min_isr_partitions := 0; ta_at_min_isr_partitions := 0; ta_topics_with_overrides := 0;
     ta_if_exists := false; ta_if_not_exists := false; ta_exclude_internal := false;
     ta_partition_size_limit_per_response := [];
     ta_confirm := {| dry_run_flag := false; yes_flag := false |} |}.

Definition topics_world (c : admin_call) (w : unit) : admin_answer c * unit :=
  match c return admin_answer c * unit with
  | Metadata topics =>
      (Ok (map (λ name, {| metadata_name := name; metadata_topic_id := None;
         metadata_partition_count := 1; metadata_replication_factor := 1; metadata_error := None |})
         ["payments"; "orders"; "ord"]), w)
  | c => obliging_world c w
  end.

Definition delete_events : list (event admin) :=
  events_of topics_world (@topics_run sample_regex sample_ids delete_args) tt.

Lemma topics_requests_witness :
  map (λ e, mutating (projT1 e)) delete_events = [false; false; false; true] ∧
  ∃ pre e post, delete_events = pre ++ e :: post ∧
    projT1 e = DeleteTopics ["ord"; "orders"] ∧
    @rightful_topics sample_regex delete_args pre (projT1 e).
Proof.
  split; [vm_compute; reflexivity|].
  assert (∃ e, delete_events !! 3%nat = Some e ∧ projT1 e = DeleteTopics ["ord"; "orders"])
    as (e & He & Hc) by (eexists; vm_compute; split; reflexivity).
  exists (take 3 delete_events), e, (drop 4 delete_events).
  pose proof (take_drop_middle delete_events 3 e He) as Hsplit. split; [done|]. split; [done|].
  exact (@topics_requests sample_regex sample_ids delete_args unit topics_world tt _ _ _ (eq_sym Hsplit)).
Defined.
