(* ===== verification/DeleteRecords.v ===== *)
(** [delete_records.rs]: [krabka delete-records], the counterpart of
    [kafka-delete-records]. *)

From Stdlib Require Import Ascii.
From S2P Require Import Connection.
From S2P Require Import Prelude Collections Rust Json TopicPartition KafkaErrors Output Program Admin.

Definition HIGH_WATERMARK : Z := -1.

Record DeleteRecordsArgs := {
  dr_connection : ConnectionArgs;
  offset_json_file : string;
  dr_confirm : ConfirmArgs
}.

(** ** The offset file *)

Section OffsetFile.
Context `{SerdeJson}.

(** [object], [field], [string], [integer] and [long] of this file. *)
Definition op_object (value : Value) : result string (list (string * Value)) :=
  ok_or (as_object value) ("Expected JSON object, received " +:+ json_text value).

Definition op_field (object : list (string * Value)) (name : string) : result string Value :=
  ok_or (bt_get name object) ("No such field exists: `" +:+ name +:+ "`").

Definition op_string (value : Value) : result string string :=
  ok_or (as_str value) ("Expected `String` value, received " +:+ json_text value).

Definition op_integer (value : Value) : result string Z :=
  ok_or (number ← as_i64 value; try_signed 32 number)
    ("Expected `Integer` value, received " +:+ json_text value).

Definition op_long (value : Value) : result string Z :=
  ok_or (as_i64 value) ("Expected `Long` value, received " +:+ json_text value).

(** The operation of one entry. *)
Definition parse_op (entry : Value) : result string DeleteRecordsOp :=
  entry ← op_object entry;
  topic ← op_field entry "topic"; topic ← op_string topic;
  partition ← op_field entry "partition"; partition ← op_integer partition;
  offset ← op_field entry "offset"; offset ← op_long offset;
  Ok {| op_topic := topic; op_partition := partition; op_offset := offset |}.

Definition op_key (op : DeleteRecordsOp) : string * Z := (op_topic op, op_partition op).
Definition op_name (op : DeleteRecordsOp) : string :=
  op_topic op +:+ "-" +:+ pretty (op_partition op).

(** The loop over the entries: the operations so far and the names of the
    partitions that came twice. *)
Fixpoint parse_ops (entries : list Value) (ops : list DeleteRecordsOp) (duplicates : list string)
    : result string (list DeleteRecordsOp * list string) :=
  match entries with
  | [] => Ok (ops, duplicates)
  | entry :: entries =>
      op ← parse_op entry;
      let seen := bool_decide (op_key op ∈ map op_key ops) in
      parse_ops entries (ops ++ [op])
        (if seen && negb (bool_decide (op_name op ∈ duplicates))
         then duplicates ++ [op_name op] else duplicates)
  end.

Definition parse_offset_json (text : string) : result string (list DeleteRecordsOp) :=
  json ← map_err (λ _, "The input string is not a valid JSON") (from_str text);
  root ← op_object json;
  version ← match bt_get "version" root with Some v => op_integer v | None => Ok 1 end;
  if negb (version =? 1) then Err ("Not supported version field value " +:+ pretty version)
  else
    partitions ← ok_or (bt_get "partitions" root) "Missing partitions field";
    partitions ← ok_or (as_array partitions)
                   ("Expected JSON array, received " +:+ json_text partitions);
    '(ops, duplicates) ← parse_ops partitions [] [];
    if bool_decide (duplicates = []) then Ok ops
    else Err ("Offset json file contains duplicate topic partitions: " +:+ join "," duplicates).
End OffsetFile.

(** ** The reports *)

Definition describe_op (op : DeleteRecordsOp) : string :=
  if op_offset op =? HIGH_WATERMARK then op_name op +:+ " before the high watermark"
  else op_name op +:+ " before offset " +:+ pretty (op_offset op).

(** [report]: the lines Kafka prints around the call, before the rows. *)
Definition report_lines (rows : list string) : list string :=
  ["Executing records delete operation"; "Records delete operation completed:"] ++ rows.

(** What the answer says of an operation; [Err None] where it says nothing. *)
Definition op_result (outcomes : list DeleteRecordsOutcome) (op : DeleteRecordsOp)
    : result (option Z) Z :=
  match list_find (λ o, (outcome_topic o, outcome_partition o) = op_key op) outcomes with
  | None => Err None
  | Some (_, outcome) =>
      if outcome_error_code outcome =? 0 then Ok (outcome_low_watermark outcome)
      else Err (Some (outcome_error_code outcome))
  end.

Definition deleted_line (op : DeleteRecordsOp) (result : result (option Z) Z) : string :=
  "partition: " +:+ op_name op +:+
  match result with
  | Ok low_watermark => tab +:+ "low_watermark: " +:+ pretty low_watermark
  | Err (Some code) => tab +:+ "error: " +:+ exception_text code
  | Err None =>
      tab +:+ "error: org.apache.kafka.common.errors.ApiException: " +:+
      "The response did not contain a result for topic partition " +:+ op_name op
  end.

Definition op_json (op : DeleteRecordsOp) (low_watermark error : Value) : Value :=
  object_of [("topic", Str (op_topic op)); ("partition", num (op_partition op));
             ("offset", num (op_offset op)); ("low_watermark", low_watermark); ("error", error)].

Definition deleted (ops : list DeleteRecordsOp) (outcomes : list DeleteRecordsOutcome)
    : CommandResult :=
  let rows_ := map (λ op, (op, op_result outcomes op)) ops in
  rows (report_lines (map (λ '(op, r), deleted_line op r) rows_))
    (Array (map (λ '(op, r),
       op_json op (match r with Ok low => num low | Err _ => Null end)
         (match r with
          | Ok _ => Null
          | Err code => kafka_error_json (Some (row_error (default (-1) code)))
          end)) rows_))
    (existsb (λ '(_, r), negb (is_ok r)) rows_).

Definition UNKNOWN_TOPIC_OR_PARTITION : Z := 3.

(** The error that the metadata already names for an operation. *)
Definition planned_error (partition_counts : list (string * result Z Z)) (op : DeleteRecordsOp)
    : option Z :=
  match bt_get (op_topic op) partition_counts with
  | Some (Ok count) =>
      if (0 <=? op_partition op) && (op_partition op <? count) then None
      else Some UNKNOWN_TOPIC_OR_PARTITION
  | Some (Err code) => Some code
  | None => Some UNKNOWN_TOPIC_OR_PARTITION
  end.

Definition planned_line (op : DeleteRecordsOp) (error : option Z) : string :=
  "partition: " +:+ op_name op +:+
  match error with
  | None =>
      if op_offset op =? HIGH_WATERMARK then tab +:+ "delete_before: high_watermark"
      else tab +:+ "delete_before: " +:+ pretty (op_offset op)
  | Some code => tab +:+ "error: " +:+ exception_text code
  end.

Definition planned (ops : list DeleteRecordsOp) (partition_counts : list (string * result Z Z))
    : CommandResult :=
  let rows_ := map (λ op, (op, planned_error partition_counts op)) ops in
  rows (report_lines (map (λ '(op, error), planned_line op error) rows_))
    (Array (map (λ '(op, error),
       op_json op Null
         (from_option (λ code, kafka_error_json (Some (row_error code))) Null error)) rows_))
    (existsb (λ '(_, error), is_some error) rows_).

(** ** The command *)

(** The partition count of each topic, or the code of its error. *)
Definition partition_counts_of (topics : list TopicMetadata) : list (string * result Z Z) :=
  bt_collect (map (λ t,
    (metadata_name t,
     match metadata_error t with
     | Some error => Err (error_code error)
     | None => Ok (metadata_partition_count t)
     end)) topics).

Definition impact_of (ops : list DeleteRecordsOp) : Impact :=
  {| summary := "delete records from " +:+ pretty (length ops) +:+ " partition(s)";
     resources := map describe_op ops |}.

(** [?] after [map_err(admin_error)]. *)
Definition try_admin_error {A} (p : prog admin (result AdminError A)) : cmd admin A :=
  prog_bind (λ r, Halt (Done (map_err admin_error r))) p.

(** [DeleteRecordsArgs::run]. *)
Definition delete_records_run `{SerdeJson} (args : DeleteRecordsArgs) : cmd admin CommandResult :=
  read ← await (send (ReadFile (offset_json_file args)));
  text ← lift (map_err (λ error,
    "read offset json file " +:+ offset_json_file args +:+ ": " +:+ error) read);
  ops ← lift (parse_offset_json text);
  _ ← connect (dr_connection args) "delete-records";
  if dry_run_flag (dr_confirm args) then
    topics ← try_admin_error (send (Metadata (set_collect (map op_topic ops))));
    pure (into_dry_run (planned ops (partition_counts_of topics)))
  else
    _ ← confirm (yes_flag (dr_confirm args)) "krabka delete-records" (impact_of ops);
    outcomes ← try_admin_error (send (DeleteRecords ops));
    pure (deleted ops outcomes).

(** ** Cases of the sources' tests *)

Definition test_op (topic : string) (partition offset : Z) : DeleteRecordsOp :=
  {| op_topic := topic; op_partition := partition; op_offset := offset |}.

Definition op_value (op : DeleteRecordsOp) : Value :=
  object_of [("topic", Str (op_topic op)); ("partition", num (op_partition op));
             ("offset", num (op_offset op))].

Definition offsets_value (ops : list DeleteRecordsOp) : Value :=
  object_of [("partitions", Array (map op_value ops)); ("version", num 1)].

Example offset_files :
  map (λ v, parse_offset_json (H := reads_as v) "")
    [offsets_value [test_op "foo" 1 10; test_op "bar" 0 (-5)];
     object_of [("version", num 1)];
     object_of [("partitions", Array []); ("version", num 2)];
     Array [num 1];
     object_of [("partitions", object_of [])];
     object_of [("partitions", Array [object_of [("topic", Str "foo"); ("offset", num 1)]])];
     offsets_value [test_op "foo" 4294967296 1];
     offsets_value [test_op "a" 0 1; test_op "b" 1 1; test_op "a" 0 2; test_op "b" 1 3; test_op "a" 0 4]] =
  [Ok [test_op "foo" 1 10; test_op "bar" 0 (-5)];
   Err "Missing partitions field";
   Err "Not supported version field value 2";
   Err "Expected JSON object, received [1]";
   Err "Expected JSON array, received {}";
   Err "No such field exists: `partition`";
   Err "Expected `Integer` value, received 4294967296";
   Err "Offset json file contains duplicate topic partitions: a-0,b-1"].
Proof. vm_compute. reflexivity. Qed.

Example deleted_report :
  let result := deleted [test_op "t" 1 (-1); test_op "t" 0 1; test_op "gone" 0 1]
    [{| outcome_topic := "t"; outcome_partition := 0; outcome_error_code := 1; outcome_low_watermark := -1 |};
     {| outcome_topic := "t"; outcome_partition := 1; outcome_error_code := 0; outcome_low_watermark := 11 |}] in
  (human result, failed result) =
  (["Executing records delete operation"; "Records delete operation completed:";
    "partition: t-1" +:+ tab +:+ "low_watermark: 11";
    "partition: t-0" +:+ tab +:+ "error: org.apache.kafka.common.errors.OffsetOutOfRangeException: The requested offset is not within the range of offsets maintained by the server.";
    "partition: gone-0" +:+ tab +:+ "error: org.apache.kafka.common.errors.ApiException: The response did not contain a result for topic partition gone-0"], true).
Proof. vm_compute. reflexivity. Qed.

Example planned_report :
  human (planned [test_op "t" 0 (-1); test_op "t" 1 5; test_op "t" 2 5; test_op "x" 0 5]
    [("t", Ok 2); ("x", Err 29)]) =
  ["Executing records delete operation"; "Records delete operation completed:";
   "partition: t-0" +:+ tab +:+ "delete_before: high_watermark";
   "partition: t-1" +:+ tab +:+ "delete_before: 5";
   "partition: t-2" +:+ tab +:+ "error: org.apache.kafka.common.errors.UnknownTopicOrPartitionException: This server does not host this topic-partition.";
   "partition: x-0" +:+ tab +:+ "error: org.apache.kafka.common.errors.TopicAuthorizationException: Topic authorization failed."].
Proof. vm_compute. reflexivity. Qed.

(** ** Lemmas *)

Section OffsetFileLemmas.
Context `{SerdeJson}.

(** The names that the loop collects, without the parsing. *)
Fixpoint repeated_names (ops new : list DeleteRecordsOp) (duplicates : list string)
    : list string :=
  match new with
  | [] => duplicates
  | op :: new =>
      repeated_names (ops ++ [op]) new
        (if bool_decide (op_key op ∈ map op_key ops)
            && negb (bool_decide (op_name op ∈ duplicates))
         then duplicates ++ [op_name op] else duplicates)
  end.

Lemma parse_ops_try_map entries ops duplicates :
  parse_ops entries ops duplicates =
  new ← try_map parse_op entries; Ok (ops ++ new, repeated_names ops new duplicates).
Proof.
  revert ops duplicates. induction entries as [|entry entries IH]; intros ops duplicates; simpl.
  { by rewrite app_nil_r. }
  destruct (parse_op entry) as [op|]; simpl; [|done]. rewrite IH.
  destruct (try_map parse_op entries) as [more|]; simpl; [|done]. by rewrite <-app_assoc.
Qed.

Lemma repeated_names_nil ops new duplicates :
  NoDup (map op_key ops) →
  repeated_names ops new duplicates = [] ↔ duplicates = [] ∧ NoDup (map op_key (ops ++ new)).
Proof.
  revert ops duplicates. induction new as [|op new IH]; intros ops duplicates Hn; simpl.
  { rewrite app_nil_r. naive_solver. }
  rewrite (cons_middle op ops new), app_assoc.
  destruct (decide (op_key op ∈ map op_key ops)) as [Hin|Hout].
  - rewrite (bool_decide_eq_true_2 _ Hin). simpl. split.
    + intros E. exfalso. revert E.
      assert (∀ k l d, d ≠ [] → repeated_names k l d ≠ []) as Hne.
      { clear. intros k l. revert k. induction l as [|x l IHl]; intros k d Hd; simpl; [done|].
        apply IHl. destruct (_ && _); [by destruct d|done]. }
      apply Hne. destruct (bool_decide (op_name op ∈ duplicates)) eqn:Eb; simpl; [|by destruct duplicates].
      apply bool_decide_eq_true in Eb. by intros ->; apply not_elem_of_nil in Eb.
    + intros [_ Hd]. exfalso. rewrite map_app, map_app in Hd. apply NoDup_app in Hd as (Hd & _ & _).
      apply NoDup_app in Hd as (_ & Hd & _). apply (Hd _ Hin). simpl. by left.
  - rewrite (bool_decide_eq_false_2 _ Hout). simpl. apply IH. rewrite map_app.
    apply NoDup_app. split_and!; [done| |apply NoDup_singleton].
    intros k Hk Hop. simpl in Hop. apply list_elem_of_singleton in Hop as ->. done.
Qed.

Lemma op_integer_Ok v z : op_integer v = Ok z ↔ v = num z ∧ i32_ok z.
Proof. apply int_Ok. Qed.

Lemma ok_or_Ok {E A} (o : option A) (e : E) a : ok_or o e = Ok a ↔ o = Some a.
Proof. destruct o; simpl; naive_solver. Qed.

Lemma op_object_Ok v entries : op_object v = Ok entries ↔ v = Object entries.
Proof. unfold op_object. rewrite ok_or_Ok. destruct v; simpl; naive_solver. Qed.
End OffsetFileLemmas.

(** ** The offset file *)

(** [parse_offset_json] accepts exactly the documents of Kafka's format: an
    object whose version, if it has one, is 1, with an array of partitions that
    each read as an operation, no partition twice; the operations are those of
    the array in file order. *)
Theorem parse_offset_json_Ok `{SerdeJson} text ops :
  parse_offset_json text = Ok ops ↔
  ∃ root entries,
    from_str text = Ok (Object root) ∧
    (bt_get "version" root = None ∨ bt_get "version" root = Some (num 1)) ∧
    bt_get "partitions" root = Some (Array entries) ∧
    try_map parse_op entries = Ok ops ∧ NoDup (map op_key ops).
Proof.
  unfold parse_offset_json. split.
  - destruct (from_str text) as [json|] eqn:Ej; simpl; [|done].
    destruct (op_object json) as [root|] eqn:Er; simpl; [|done]. apply op_object_Ok in Er as ->.
    destruct (match bt_get "version" root with Some v => op_integer v | None => Ok 1 end)
      as [version|] eqn:Ev; simpl; [|done].
    destruct (Z.eqb_spec version 1) as [->|]; simpl; [|done].
    destruct (bt_get "partitions" root) as [[| | | |entries|]|] eqn:Ep; simpl; try done.
    rewrite parse_ops_try_map. destruct (try_map parse_op entries) as [new|] eqn:Et; simpl; [|done].
    case_bool_decide as Hd; [|done]. intros [= <-].
    apply repeated_names_nil in Hd as [_ Hd]; [|constructor]. exists root, entries.
    split_and!; try done. destruct (bt_get "version" root); [|by left].
    apply op_integer_Ok in Ev as [-> _]. by right.
  - intros (root & entries & -> & Hv & Hp & Ht & Hn). simpl.
    assert (match bt_get "version" root with Some v => op_integer v | None => Ok 1 end = Ok 1) as ->.
    { destruct Hv as [->| ->]; [done|]. by apply op_integer_Ok. }
    simpl. rewrite Hp. simpl. rewrite parse_ops_try_map, Ht. simpl.
    by rewrite bool_decide_eq_true_2 by (apply repeated_names_nil; [constructor|done]).
Qed.

(** ** What the command may delete *)

(** The events before a request that changes the cluster entitle the command to
    send it: it is no dry run, the request is for the operations of the file that
    was read, the operator was shown these operations and accepted, or gave
    [--yes], and no such request went before. *)
Definition authorised `{SerdeJson} (args : DeleteRecordsArgs) (past : list (event admin))
    (c : admin_call) : Prop :=
  mutating c = true →
  dry_run_flag (dr_confirm args) = false ∧
  Forall (λ e, changes e = false) past ∧
  ∃ text ops,
    existT (ReadFile (offset_json_file args)) (Ok text) ∈ past ∧
    parse_offset_json text = Ok ops ∧ c = DeleteRecords ops ∧
    (yes_flag (dr_confirm args) = true ∨
     existT (AskConfirm "krabka delete-records" (impact_of ops)) (Ok tt) ∈ past).

(** Whatever the cluster answers, [krabka delete-records] deletes nothing
    under [--dry-run], deletes at most once, and only below the offsets of the
    file it read, after the operator accepted a prompt that lists exactly these
    partitions, or under [--yes]. *)
Theorem delete_records_authorised `{SerdeJson} args W
    (world : ∀ c : admin_call, W → admin_answer c * W) (w : W) pre e post :
  events_of world (delete_records_run args) w = pre ++ e :: post →
  authorised args pre (projT1 e).
Proof.
  apply (run_history (Σ := admin) world _ _ (λ _ _, True)).
  unfold delete_records_run, await, connect, try_admin_error, send, ask.
  steps. split; [done|]. intros [text|error]; steps; [|done].
  destruct (parse_offset_json text) as [ops|] eqn:Ep; steps; [|done].
  split; [done|]. intros [[]|]; steps; [|done].
  destruct (dry_run_flag _) eqn:Ed; steps.
  { split; [done|]. by intros [|]. }
  unfold confirm. destruct (yes_flag _) eqn:Ey; steps.
  - split; [|by intros [|]]. intros _. split_and!; [done|by repeat constructor|].
    exists text, ops. split_and!; [set_solver|done|done|by left].
  - split; [done|]. intros [[]|]; steps; [|done].
    split; [|by intros [|]]. intros _. split_and!; [done|by repeat constructor|].
    exists text, ops. split_and!; [set_solver|done|done|right; set_solver].
Qed.

Definition sample_args : DeleteRecordsArgs :=
  {| dr_connection := {| bootstrap_server := ["b:9092"]; bootstrap_controller := [];
                         command_config := None; client_id := None;
                         request_timeout_ms := None |};
     offset_json_file := "offsets.json";
     dr_confirm := {| dry_run_flag := false; yes_flag := false |} |}.

Definition sample_ops : list DeleteRecordsOp := [test_op "foo" 1 10; test_op "bar" 0 0].

Lemma delete_records_authorised_witness :
  ∃ pre e post,
    events_of obliging_world
      (delete_records_run (H := reads_as (offsets_value sample_ops)) sample_args) tt =
      pre ++ e :: post ∧
    projT1 e = DeleteRecords sample_ops ∧
    authorised (H := reads_as (offsets_value sample_ops)) sample_args pre (projT1 e).
Proof.
  set (log := events_of obliging_world _ tt).
  destruct (log !! 3%nat) as [e|] eqn:E; [|vm_compute in E; discriminate E].
  exists (take 3 log), e, (drop 4 log).
  assert (log = take 3 log ++ e :: drop 4 log) as Hlog by (symmetry; apply take_drop_middle; exact E).
  split; [exact Hlog|]. split; [vm_compute in E; injection E as <-; reflexivity|].
  exact (delete_records_authorised (H := reads_as (offsets_value sample_ops)) sample_args unit
    obliging_world tt _ _ _ Hlog).
Defined.
