(* ===== verification/LeaderElection.v ===== *)
(** [leader_election.rs]: [krabka leader-election], the counterpart of
    [kafka-leader-election]. *)

From S2P Require Import Connection.
From S2P Require Import Prelude Collections Rust Jvm Json TopicPartition KafkaErrors Output Program.
From S2P Require Import Admin.

Definition ELECTION_NOT_NEEDED : Z := 84.
Definition REQUEST_TIMED_OUT : Z := 7.
Definition CLUSTER_AUTHORIZATION_FAILED : Z := 31.

Record LeaderElectionArgs := {
  le_connection : ConnectionArgs;
  admin_config : option string;
  path_to_json_file : option string;
  le_topic : option string;
  le_partition : option Z;
  all_topic_partitions : bool;
  election_type : option string
}.

(** [ElectionType] of this file. *)
Inductive ElectionKind := PreferredKind | UncleanKind.

Definition kind_name (kind : ElectionKind) : string :=
  match kind with PreferredKind => "PREFERRED" | UncleanKind => "UNCLEAN" end.

Definition kind_client (kind : ElectionKind) : ElectionType :=
  match kind with PreferredKind => Preferred | UncleanKind => Unclean end.

Definition kind_parse (value : string) : result string ElectionKind :=
  let upper := to_ascii_uppercase value in
  if bool_decide (upper = "PREFERRED") then Ok PreferredKind
  else if bool_decide (upper = "UNCLEAN") then Ok UncleanKind
  else Err ("Cannot parse argument '" +:+ value +:+ "' of option election-type").

Inductive Selection :=
  | SelectAll
  | SelectPartitions (partitions : list TopicPartition).

Definition request_partitions (selection : Selection) : option (list (string * Z)) :=
  match selection with
  | SelectAll => None
  | SelectPartitions partitions => Some (map (λ p, (topic p, partition p)) partitions)
  end.

Inductive Target :=
  | TargetAll
  | TargetPartitions (partitions : list TopicPartition)
  | TargetFile (path : string).

Record Election := { kind : ElectionKind; target : Target; election_notices : list string }.

(** ** The options *)

Definition missing_options (args : LeaderElectionArgs) : list string :=
  (if bool_decide (bootstrap_server (le_connection args) = []) then ["bootstrap-server"] else []) ++
  (if is_some (election_type args) then [] else ["election-type"]).

Definition chosen_targets (args : LeaderElectionArgs) : nat :=
  length (filter (λ b, b = true)
    [is_some (le_topic args); all_topic_partitions args; is_some (path_to_json_file args)]).

Definition target_of (args : LeaderElectionArgs) : result string Target :=
  match le_topic args, le_partition args, path_to_json_file args with
  | Some _, None, _ => Err "Missing required option(s): partition"
  | None, Some _, _ => Err "Option partition is only allowed if topic is used"
  | Some topic, Some partition, _ => Ok (TargetPartitions [tp_new topic partition])
  | None, None, Some path => Ok (TargetFile path)
  | None, None, None => Ok TargetAll
  end.

Definition ADMIN_CONFIG_DEPRECATED : string :=
  "Option --admin.config has been deprecated and will be removed in a future version. Use --command-config instead.".

Definition validate_election (args : LeaderElectionArgs) : result string Election :=
  if negb (bool_decide (missing_options args = [])) then
    Err ("Missing required option(s): " +:+ join ", " (missing_options args))
  else if negb (bool_decide (bootstrap_controller (le_connection args) = [])) then
    Err "bootstrap-controller is not a recognized option"
  else
    election_type ← kind_parse (default "" (election_type args));
    if is_some (admin_config args) && is_some (command_config (le_connection args)) then
      Err ("Option " +:+ dquote +:+ "[admin.config]" +:+ dquote +:+
           " can't be used with option " +:+ dquote +:+ "[command-config]" +:+ dquote)
    else if negb (chosen_targets args =? 1)%nat then
      Err "One and only one of the following options is required: topic, all-topic-partitions, path-to-json-file"
    else
      target ← target_of args;
      Ok {| kind := election_type; target := target;
            election_notices :=
              if is_some (admin_config args) then [ADMIN_CONFIG_DEPRECATED] else [] |}.

(** ** The file *)

Section ElectionFile.
Context `{SerdeJson}.

Definition parse_election_entry (entry : Value) : result string TopicPartition :=
  entry ← object entry;
  topic ← field entry "topic"; topic ← string_value topic;
  partition ← field entry "partition"; partition ← int partition;
  Ok (tp_new topic partition).

(** The loop over the entries: what was seen, and what came again. *)
Fixpoint parse_election_entries (entries : list Value) (seen duplicates : list TopicPartition)
    : result string (list TopicPartition * list TopicPartition) :=
  match entries with
  | [] => Ok (seen, duplicates)
  | entry :: entries =>
      partition ← parse_election_entry entry;
      if bool_decide (partition ∈ seen)
      then parse_election_entries entries seen (duplicates ++ [partition])
      else parse_election_entries entries (seen ++ [partition]) duplicates
  end.

(** A [BTreeSet] is the sorted list of its elements. *)
Definition parse_election_data (text : string) : result string (list TopicPartition) :=
  document ← ok_or (parse_full text) "Replica election data is empty";
  object ← document_object document;
  partitions ← ok_or (bt_get "partitions" object)
    ("Replica election data is missing " +:+ dquote +:+ "partitions" +:+ dquote +:+ " field");
  entries ← array partitions;
  '(seen, duplicates) ← parse_election_entries entries [] [];
  if bool_decide (duplicates = []) then Ok (set_collect seen)
  else Err ("Replica election data contains duplicate partitions: [" +:+
            join_partitions (set_collect duplicates) ", " +:+ "]").
End ElectionFile.

(** ** The request and its report *)

Definition result_error {A} (r : result KafkaError A) : option KafkaError :=
  match r with Ok _ => None | Err e => Some e end.

(** [elect_leaders]. *)
Definition elect_leaders (election_type : ElectionKind) (selection : Selection)
    : prog admin (result AdminError (list (TopicPartition * option KafkaError))) :=
  prog_bind (λ r, Halt (Done (answers ← r;
    Ok (bt_collect (map (λ '((topic, partition), result),
      (tp_new topic partition, result_error result)) answers)))))
    (send (ElectLeaders (kind_client election_type) (request_partitions selection))).

Definition call_failed (message : string) : CommandResult :=
  with_notices (rows [message] (object_of [("error", Str message)]) true) [message].

Definition call_failure (error : AdminError) : result CommandError CommandResult :=
  match error with
  | BrokerError _ code _ _ =>
      if code =? REQUEST_TIMED_OUT then Ok (call_failed "Timeout waiting for election results")
      else if code =? CLUSTER_AUTHORIZATION_FAILED
      then Ok (call_failed "Not authorized to perform leader election")
      else Err (from_admin_error error)
  | _ => Err (from_admin_error error)
  end.

(** The three groups of the report, each in Kafka's order. *)
Definition succeeded (results : list (TopicPartition * option KafkaError)) : list TopicPartition :=
  hash_set_order (map fst (filter (λ '(_, error), error = None) results)) java_hash.

Definition not_needed (error : option KafkaError) : bool :=
  match error with Some e => error_code e =? ELECTION_NOT_NEEDED | None => false end.

Definition noop (results : list (TopicPartition * option KafkaError)) : list TopicPartition :=
  hash_set_order (map fst (filter (λ '(_, error), not_needed error = true) results)) java_hash.

Definition failed_elections (results : list (TopicPartition * option KafkaError)) : list (TopicPartition * KafkaError) :=
  hash_order (omap (λ '(partition, error),
      e ← error; if error_code e =? ELECTION_NOT_NEEDED then None else Some (partition, e)) results)
    Default (λ '(partition, _), java_hash partition).

Definition election_json (name : string) (result : TopicPartition * option KafkaError) : Value :=
  object_of [("topic", Str (topic result.1)); ("partition", num (partition result.1));
             ("election_type", Str name); ("error", kafka_error_json result.2)].

Definition election_report (election_type : ElectionKind) (results : list (TopicPartition * option KafkaError))
    : CommandResult :=
  let name := kind_name election_type in
  let succeeded := succeeded results in
  let noop := noop results in
  let failed := failed_elections results in
  with_notices
    (rows
      ((if bool_decide (succeeded = []) then []
        else ["Successfully completed leader election (" +:+ name +:+ ") for partitions " +:+
              join_partitions succeeded ", "]) ++
       (if bool_decide (noop = []) then []
        else ["Valid replica already elected for partitions " +:+ join_partitions noop ", "]) ++
       map (λ '(partition, error),
         "Error completing leader election (" +:+ name +:+ ") for partition: " +:+
         tp_display partition +:+ ": " +:+ java_exception error) failed)
      (Array (map (election_json name) results))
      (negb (bool_decide (failed = []))))
    (if bool_decide (failed = []) then []
     else [pretty (length failed) +:+ " replica(s) could not be elected"]).

(** ** The command *)

Definition with_admin_config (args : LeaderElectionArgs) : ConnectionArgs :=
  match admin_config args with
  | Some config => with_command_config (le_connection args) config
  | None => le_connection args
  end.

Definition select_target `{SerdeJson} (target : Target) : cmd admin Selection :=
  match target with
  | TargetAll => pure SelectAll
  | TargetPartitions partitions => pure (SelectPartitions partitions)
  | TargetFile path =>
      read ← await (send (ReadFile path));
      text ← lift (map_err (λ error, path +:+ ": " +:+ error) read);
      partitions ← lift (parse_election_data text);
      pure (SelectPartitions partitions)
  end.

(** The command from the connection on. *)
Definition election_call (args : LeaderElectionArgs) (election : Election) (selection : Selection)
    : cmd admin CommandResult :=
  _ ← connect (with_admin_config args) "leader-election";
  r ← await (elect_leaders (kind election) selection);
  report ← match r with
           | Ok results => pure (election_report (kind election) results)
           | Err error => lift_cmd (call_failure error)
           end;
  pure {| human := election_notices election ++ human report; data := data report;
          failed := failed report; dry_run := dry_run report; notices := notices report;
          marker_on_stderr := marker_on_stderr report; last_line := last_line report |}.

(** [LeaderElectionArgs::run]. *)
Definition leader_election_run `{SerdeJson} (args : LeaderElectionArgs) : cmd admin CommandResult :=
  election ← lift (validate_election args);
  selection ← select_target (target election);
  election_call args election selection.

(** ** Cases of the sources' tests *)

Definition test_error (code : Z) (name message : string) : KafkaError :=
  {| error_code := code; error_name := name; error_message := Some message |}.

Definition test_results : list (TopicPartition * option KafkaError) := bt_collect
  [(tp_new "foo" 0, None); (tp_new "bar" 1, None);
   (tp_new "foo" 1, Some (test_error 84 "ELECTION_NOT_NEEDED" "Leader election not needed"));
   (tp_new "nope" 0, Some (test_error 3 "UNKNOWN_TOPIC_OR_PARTITION" "No such topic as nope"))].

Example election_lines :
  let report := election_report UncleanKind test_results in
  (human report, failed report, notices report) =
  (["Successfully completed leader election (UNCLEAN) for partitions bar-1, foo-0";
    "Valid replica already elected for partitions foo-1";
    "Error completing leader election (UNCLEAN) for partition: nope-0: org.apache.kafka.common.errors.UnknownTopicOrPartitionException: No such topic as nope"],
   true, ["1 replica(s) could not be elected"]).
Proof. vm_compute. reflexivity. Qed.

Definition election_entry (topic : string) (partition : Value) : Value :=
  object_of [("topic", Str topic); ("partition", partition)].

Example election_files :
  map (λ v, parse_election_data (H := reads_as v) "x")
    [object_of [("partitions", Array [election_entry "foo" (num 1); election_entry "bar" (num 0)])];
     object_of [("partitions", Array [])];
     Array [];
     object_of [("partitions", object_of [])];
     object_of [("partitions", Array [object_of [("topic", Str "foo")]])];
     object_of [("partitions", Array [election_entry "foo" (num 1); election_entry "foo" (num 1)])]] =
  [Ok [tp_new "bar" 0; tp_new "foo" 1]; Ok [];
   Err "Expected JSON object, received []";
   Err "Expected JSON array, received {}";
   Err "No such field exists: `partition`";
   Err "Replica election data contains duplicate partitions: [foo-1]"].
Proof. vm_compute. reflexivity. Qed.

(** ** Lemmas: the report *)

Lemma hash_set_order_perm {T} `{EqDecision T} (values : list T) (hash : T → Z) :
  NoDup values → hash_set_order values hash ≡ₚ values.
Proof.
  intros Hn. apply NoDup_Permutation; [apply hash_set_order_NoDup|done|].
  intros x. apply elem_of_hash_set_order.
Qed.

Lemma filter_fst_NoDup (P : TopicPartition * option KafkaError → Prop) `{∀ x, Decision (P x)}
    (results : list (TopicPartition * option KafkaError)) :
  NoDup results.*1 → NoDup (map fst (filter P results)).
Proof.
  intros Hn. apply (submseteq_NoDup _ results.*1); [|done].
  apply sublist_submseteq, fmap_sublist, sublist_filter.
Qed.

Lemma groups_perm (results : list (TopicPartition * option KafkaError)) :
  map fst (filter (λ '(_, error), error = None) results) ++
  map fst (filter (λ '(_, error), not_needed error = true) results) ++
  map fst (omap (λ '(partition, error),
      e ← error; if error_code e =? ELECTION_NOT_NEEDED then None else Some (partition, e)) results)
  ≡ₚ results.*1.
Proof.
  induction results as [|[p [e|]] results IH]; [done|..]; rewrite !filter_cons.
  - rewrite decide_False by done. cbn [omap list_omap mbind option_bind not_needed].
    case_decide as Hc; [rewrite Hc|apply not_true_is_false in Hc; rewrite Hc]; simpl.
    + rewrite <-Permutation_middle. by apply perm_skip.
    + rewrite app_assoc, <-Permutation_middle, <-app_assoc. by apply perm_skip.
  - rewrite decide_True, decide_False by done. by apply perm_skip.
Qed.

(** The report of an election names every partition of the answer exactly
    once: as elected, as having a valid leader already, or with its error; the
    command fails exactly if some partition has an error other than
    [ELECTION_NOT_NEEDED], and then says on stderr how many do. *)
Theorem election_report_spec kind (results : list (TopicPartition * option KafkaError)) :
  NoDup results.*1 →
  succeeded results ++ noop results ++ (failed_elections results).*1 ≡ₚ results.*1 ∧
  (∀ p, p ∈ succeeded results ↔ (p, None) ∈ results) ∧
  (∀ p, p ∈ noop results ↔ ∃ e, (p, Some e) ∈ results ∧ error_code e = ELECTION_NOT_NEEDED) ∧
  (∀ p e, (p, e) ∈ failed_elections results ↔
     (p, Some e) ∈ results ∧ error_code e ≠ ELECTION_NOT_NEEDED) ∧
  (failed (election_report kind results) = true ↔
     ∃ p e, (p, Some e) ∈ results ∧ error_code e ≠ ELECTION_NOT_NEEDED) ∧
  notices (election_report kind results) =
    (if failed (election_report kind results)
     then [pretty (length (failed_elections results)) +:+ " replica(s) could not be elected"]
     else []).
Proof.
  intros Hn.
  assert (∀ p e, (p, e) ∈ failed_elections results ↔
    (p, Some e) ∈ results ∧ error_code e ≠ ELECTION_NOT_NEEDED) as Hf.
  { intros p e. unfold failed_elections. rewrite elem_of_hash_order, list_elem_of_omap. split.
    - intros ([q [e'|]] & Hin & E); [|done]. simpl in E.
      destruct (Z.eqb_spec (error_code e') ELECTION_NOT_NEEDED); naive_solver.
    - intros [Hin He]. exists (p, Some e). split; [done|]. simpl.
      destruct (Z.eqb_spec (error_code e) ELECTION_NOT_NEEDED); done. }
  split_and!.
  - unfold succeeded, noop, failed_elections.
    rewrite !hash_set_order_perm, hash_order_perm by (by apply filter_fst_NoDup). apply groups_perm.
  - intros p. unfold succeeded. rewrite elem_of_hash_set_order, list_elem_of_fmap.
    setoid_rewrite list_elem_of_filter. split; [intros ([q e] & -> & -> & ?); done|].
    intros Hp. by exists (p, None).
  - intros p. unfold noop. rewrite elem_of_hash_set_order, list_elem_of_fmap.
    setoid_rewrite list_elem_of_filter. split.
    + intros ([q [e|]] & -> & He & Hin); [|done]. simpl in He. apply Z.eqb_eq in He. eauto.
    + intros (e & Hin & He). exists (p, Some e). split_and!; [done| |done]. by apply Z.eqb_eq.
  - done.
  - simpl. case_bool_decide as E; simpl; split; try done.
    + intros (p & e & Hpe). apply Hf in Hpe. rewrite E in Hpe. by apply not_elem_of_nil in Hpe.
    + intros _. destruct (failed_elections results) as [|[p e] l]; [done|].
      exists p, e. apply Hf. left.
  - simpl. by case_bool_decide.
Qed.

Lemma election_report_spec_witness :
  failed (election_report UncleanKind test_results) = true ∧
  succeeded test_results ++ noop test_results ++ (failed_elections test_results).*1 ≡ₚ test_results.*1.
Proof.
  assert (NoDup test_results.*1) as Hn by (apply bt_keys_NoDup, bt_collect_wf).
  split; [vm_compute; reflexivity|]. exact (proj1 (election_report_spec UncleanKind test_results Hn)).
Defined.

(** ** What the command may elect *)

(** What the command line asks an election for, the file being the one that was
    read. *)
Definition requested_partitions `{SerdeJson} (args : LeaderElectionArgs) (past : list (event admin))
    (partitions : option (list (string * Z))) : Prop :=
  match le_topic args, le_partition args, path_to_json_file args, all_topic_partitions args with
  | Some topic, Some partition, None, false => partitions = Some [(topic, partition)]
  | None, None, Some path, false =>
      ∃ text parsed, existT (ReadFile path) (Ok text) ∈ past ∧
        parse_election_data text = Ok parsed ∧
        partitions = Some (map (λ p, (topic p, partition p)) parsed)
  | None, None, None, true => partitions = None
  | _, _, _, _ => False
  end.

Definition requested_election `{SerdeJson} (args : LeaderElectionArgs) (past : list (event admin))
    (c : admin_call) : Prop :=
  mutating c = true →
  Forall (λ e, changes e = false) past ∧
  ∃ name kind partitions,
    election_type args = Some name ∧ kind_parse name = Ok kind ∧
    requested_partitions args past partitions ∧ c = ElectLeaders (kind_client kind) partitions.

Lemma validate_election_Ok args election :
  validate_election args = Ok election →
  (∃ name, election_type args = Some name ∧ kind_parse name = Ok (kind election)) ∧
  match target election with
  | TargetAll => le_topic args = None ∧ le_partition args = None ∧
      path_to_json_file args = None ∧ all_topic_partitions args = true
  | TargetPartitions partitions => ∃ topic partition, partitions = [tp_new topic partition] ∧
      le_topic args = Some topic ∧ le_partition args = Some partition ∧
      path_to_json_file args = None ∧ all_topic_partitions args = false
  | TargetFile path => le_topic args = None ∧ le_partition args = None ∧
      path_to_json_file args = Some path ∧ all_topic_partitions args = false
  end.
Proof.
  unfold validate_election, missing_options, chosen_targets, target_of.
  destruct (election_type args) as [name|]; [|by destruct (bootstrap_server (le_connection args))].
  destruct (bootstrap_server _); [done|]. destruct (bootstrap_controller _); [|done].
  simpl. destruct (kind_parse name) as [k|] eqn:Ek; [|done]. simpl.
  destruct (is_some (admin_config args) && _); [done|].
  destruct (le_topic args) as [t|], (all_topic_partitions args), (path_to_json_file args) as [path|],
    (le_partition args) as [i|]; simpl; try done; intros [= <-]; simpl; naive_solver.
Qed.

Lemma election_call_requested `{SerdeJson} args election selection name past :
  Forall (λ e, changes e = false) past →
  election_type args = Some name → kind_parse name = Ok (kind election) →
  (∀ e, requested_partitions args (past ++ [e]) (request_partitions selection)) →
  monitored (history (Σ := admin) (requested_election args)) past
    (election_call args election selection) (λ _ _, True).
Proof.
  intros Hpast Hname Hkind Hreq. unfold election_call, connect, await, elect_leaders, send, ask.
  steps. split; [done|]. intros [[]|]; steps; [|done]. split.
  - intros _. split; [apply Forall_app; split; [done|by repeat constructor]|].
    exists name, (kind election), (request_partitions selection). split_and!; auto.
  - intros [r|error]; cbn -[call_failure]; [done|]. by destruct (call_failure error).
Qed.

(** Whatever the cluster answers, [krabka leader-election] sends at most one
    election: of the type the command line names, and for every partition only
    under [--all-topic-partitions], for the one partition of [--topic] and
    [--partition], or for the partitions of the file it read; with any other
    combination of these options it sends none. *)
Theorem leader_election_requested `{SerdeJson} args W
    (world : ∀ c : admin_call, W → admin_answer c * W) (w : W) pre e post :
  events_of world (leader_election_run args) w = pre ++ e :: post →
  requested_election args pre (projT1 e).
Proof.
  apply (run_history (Σ := admin) world _ _ (λ _ _, True)).
  unfold leader_election_run. destruct (validate_election args) as [election|] eqn:Ev; [|done].
  apply validate_election_Ok in Ev as ((name & Hname & Hkind) & Ht).
  steps. unfold select_target. destruct (target election) as [|ps|path]; steps.
  - destruct Ht as (E1 & E2 & E3 & E4).
    apply (election_call_requested args election SelectAll name); [done..|]. intros e'.
    unfold requested_partitions. by rewrite E1, E2, E3, E4.
  - destruct Ht as (t & i & -> & E1 & E2 & E3 & E4).
    apply (election_call_requested args election (SelectPartitions _) name); [done..|]. intros e'.
    unfold requested_partitions. by rewrite E1, E2, E3, E4.
  - destruct Ht as (E1 & E2 & E3 & E4). unfold await, send, ask.
    steps. split; [done|]. intros [text|]; steps; [|done].
    destruct (parse_election_data text) as [parsed|] eqn:Ep; steps; [|done].
    apply (election_call_requested args election (SelectPartitions parsed) name);
      [by repeat constructor|done..|].
    intros e'. unfold requested_partitions. rewrite E1, E2, E3, E4. exists text, parsed. set_solver.
Qed.

Definition sample_election_args : LeaderElectionArgs :=
  {| le_connection := {| bootstrap_server := ["b:9092"]; bootstrap_controller := [];
                         command_config := None; client_id := None;
                         request_timeout_ms := None |};
     admin_config := None; path_to_json_file := Some "e.json"; le_topic := None;
     le_partition := None; all_topic_partitions := false; election_type := Some "preferred" |}.

Definition sample_election_file : Value :=
  object_of [("partitions", Array [election_entry "foo" (num 1); election_entry "bar" (num 0)])].

(** A world whose files read as a text. *)
Definition texts_world (c : admin_call) (w : unit) : admin_answer c * unit :=
  match c return admin_answer c * unit with
  | ReadFile _ => (Ok "text", w)
  | c => obliging_world c w
  end.

Lemma leader_election_requested_witness :
  ∃ pre e post,
    events_of texts_world
      (leader_election_run (H := reads_as sample_election_file) sample_election_args) tt =
      pre ++ e :: post ∧
    projT1 e = ElectLeaders Preferred (Some [("bar", 0); ("foo", 1)]) ∧
    requested_election (H := reads_as sample_election_file) sample_election_args pre (projT1 e).
Proof.
  set (log := events_of texts_world _ tt).
  destruct (log !! 2%nat) as [e|] eqn:E; [|vm_compute in E; discriminate E].
  exists (take 2 log), e, (drop 3 log).
  assert (log = take 2 log ++ e :: drop 3 log) as Hlog by (symmetry; apply take_drop_middle; exact E).
  split; [exact Hlog|]. split; [vm_compute in E; injection E as <-; reflexivity|].
  exact (leader_election_requested (H := reads_as sample_election_file) sample_election_args unit
    texts_world tt _ _ _ Hlog).
Defined.
