(* ===== verification/LogDirs.v ===== *)
(** [log_dirs.rs]: [krabka log-dirs], the counterpart of [kafka-log-dirs], with
    its own [--alter] that moves replicas between the log dirs of one broker. *)

From Stdlib Require Import Ascii.
From S2P Require Import Connection.
From S2P Require Import Prelude Collections Rust Jvm Json KafkaErrors Output Program Admin.

(** [CLUSTER_AUTHORIZATION_FAILED] and [LOG_DIR_NOT_FOUND]. *)
Definition CLUSTER_AUTHORIZATION_CODE : Z := 31.
Definition LOG_DIR_NOT_FOUND : Z := 57.

(** ** The flags *)

(** One [--move]: a replica of the broker and the directory it moves to. *)
Record ReplicaMove := { rm_topic : string; rm_partition : Z; rm_log_dir : string }.

Record LogDirsArgs := {
  la_connection : ConnectionArgs;
  la_describe : bool;
  la_alter : bool;
  la_topic_list : string;
  la_broker_list : string;
  la_broker : option Z;
  la_moves : list ReplicaMove;
  la_confirm : ConfirmArgs
}.

Definition expected_move (value : string) : string :=
  "expected TOPIC:PARTITION=LOG_DIR, got " +:+ value.

Definition parse_move (value : string) : result string ReplicaMove :=
  '(replica, log_dir) ← ok_or (split_once (λ c, (c =? "=")%char) value) (expected_move value);
  '(topic, partition) ← ok_or (rsplit_once ":" replica) (expected_move value);
  number ← ok_or (p ← parse_i32 partition; if 0 <=? p then Some p else None)
    ("invalid partition '" +:+ partition +:+ "' in " +:+ value);
  if bool_decide (topic = "") || bool_decide (log_dir = "") then Err (expected_move value)
  else Ok {| rm_topic := topic; rm_partition := number; rm_log_dir := log_dir |}.

(** [split_list]: the entries of a list that are not empty. *)
Definition list_entries (value : string) : list string :=
  filter (λ entry, entry ≠ "") (split_char "," value).

(** [broker_list]: in first-seen order without repeats. *)
Fixpoint parse_brokers (entries : list string) (brokers : list Z) : result string (list Z) :=
  match entries with
  | [] => Ok brokers
  | entry :: entries =>
      broker ← ok_or (parse_i32 entry) ("For input string: " +:+ dquote +:+ entry +:+ dquote);
      parse_brokers entries
        (if bool_decide (broker ∈ brokers) then brokers else brokers ++ [broker])
  end.
Definition broker_list (value : string) : result string (list Z) :=
  parse_brokers (list_entries value) [].

(** ** The brokers to ask *)

Definition join_brokers (brokers : list Z) : string := join "," (map pretty brokers).

Definition brokers_to_query (cluster requested : list Z) : result string (list Z) :=
  let cluster_set := hash_order cluster Default integer_hash in
  let missing := filter (λ broker, broker ∉ cluster) requested in
  if negb (bool_decide (missing = [])) then
    Err ("ERROR: The given brokers do not exist from --broker-list: " +:+
         join_brokers (hash_order missing HashSetCopy integer_hash) +:+
         ". Current existent brokers: " +:+ join_brokers cluster_set)
  else
    Ok (hash_order (if bool_decide (requested = []) then cluster_set else requested)
          HashSetCopy integer_hash).

(** [document_order]: the maps that Kafka's client copies the answers through. *)
Definition document_order (brokers : list Z) : list Z :=
  let count := Z.of_nat (length brokers) in
  hash_order (hash_order (hash_order brokers (WithCapacity count) integer_hash) Copy integer_hash)
    (WithCapacity count) integer_hash.

(** ** The log dirs as they are printed *)

(** The structs [Replica] and [LogDir] of this file. *)
Record ShownReplica := {
  sr_topic : string;
  sr_partition : Z;
  sr_size : Z;
  sr_offset_lag : Z;
  sr_is_future : bool
}.
Record ShownDir := { sd_path : string; sd_error : option string; sd_replicas : list ShownReplica }.

Definition replica_hash (r : ShownReplica) : Z := topic_partition_hash (sr_topic r) (sr_partition r).

Definition shown_replica (topic : string) (partition : LogDirReplica) : ShownReplica :=
  {| sr_topic := topic; sr_partition := lr_partition_index partition;
     sr_size := lr_partition_size partition; sr_offset_lag := lr_offset_lag partition;
     sr_is_future := lr_is_future_key partition |}.

Definition dir_replicas (info : LogDirInfo) : list ShownReplica :=
  ld_topics info ≫= λ '(topic, partitions), map (shown_replica topic) partitions.

Definition topic_wanted (topics : list string) (r : ShownReplica) : Prop :=
  topics = [] ∨ sr_topic r ∈ topics.
#[export] Instance topic_wanted_dec topics r : Decision (topic_wanted topics r).
Proof. unfold topic_wanted. apply _. Defined.

Definition printable_dir (topics : list string) (info : LogDirInfo) : ShownDir :=
  {| sd_path := ld_log_dir info;
     sd_error := (λ error, exc_class (for_code (error_code error))) <$> ld_error info;
     sd_replicas := hash_order
       (filter (topic_wanted topics) (hash_order (dir_replicas info) Default replica_hash))
       Default replica_hash |}.

Definition printable_log_dirs (infos : list LogDirInfo) (topics : list string) : list ShownDir :=
  hash_order (map (printable_dir topics) infos) (WithCapacity (Z.of_nat (length infos)))
    (λ dir, string_hash (sd_path dir)).

(** ** The document *)

Definition bool_text (b : bool) : string := if b then "true" else "false".

(** A literal key of a [format!] string. *)
Definition key (name : string) : string := dquote +:+ name +:+ dquote +:+ ":".

Section Document.
Context `{SerdeJson}.

Definition json_quoted (value : string) : string := json_text (Str value).

Definition replica_document (r : ShownReplica) : string :=
  "{" +:+ key "partition" +:+ json_quoted (sr_topic r +:+ "-" +:+ pretty (sr_partition r)) +:+ "," +:+
  key "size" +:+ pretty (sr_size r) +:+ "," +:+
  key "offsetLag" +:+ pretty (sr_offset_lag r) +:+ "," +:+
  key "isFuture" +:+ bool_text (sr_is_future r) +:+ "}".

Definition dir_document (dir : ShownDir) : string :=
  "{" +:+ key "partitions" +:+ "[" +:+ join "," (map replica_document (sd_replicas dir)) +:+ "]," +:+
  key "error" +:+ match sd_error dir with None => "null" | Some class => json_quoted class end +:+ "," +:+
  key "logDir" +:+ json_quoted (sd_path dir) +:+ "}".

Definition broker_document (entry : Z * list ShownDir) : string :=
  "{" +:+ key "broker" +:+ pretty entry.1 +:+ "," +:+
  key "logDirs" +:+ "[" +:+ join "," (map dir_document entry.2) +:+ "]}".

Definition document (brokers : list (Z * list ShownDir)) : string :=
  "{" +:+ key "brokers" +:+ "[" +:+ join "," (map broker_document brokers) +:+ "]," +:+
  key "version" +:+ "1}".

(** ** [--describe] *)

(** [BrokerAnswer]: what one broker answered, or why it did not. *)
Definition BrokerAnswer : Type := result CommandError (list LogDirInfo).

(** A broker that answers with no log dir is one that did not authorize. *)
Definition checked_answer (answer : BrokerAnswer) : BrokerAnswer :=
  infos ← answer;
  if bool_decide (infos = []) then Err (Other (exception_text CLUSTER_AUTHORIZATION_CODE))
  else Ok infos.

Definition failure_notice (broker : Z) (error : CommandError) : string :=
  "ERROR: failed to describe the log directories of broker " +:+ pretty broker +:+ ": " +:+
  command_error_text error.

Definition broker_failure_json (broker : Z) (error : CommandError) : Value :=
  object_of [("broker", num broker); ("message", Str (command_error_text error))].

(** The loop over the answers: the dirs by broker, and the failures in order. *)
Fixpoint read_answers (topics : list string) (answers : list (Z * BrokerAnswer))
    (answered : list (Z * list ShownDir)) (failures : list (Z * CommandError))
    : list (Z * list ShownDir) * list (Z * CommandError) :=
  match answers with
  | [] => (answered, failures)
  | (broker, answer) :: answers =>
      match checked_answer answer with
      | Ok infos =>
          read_answers topics answers
            (bt_insert broker (printable_log_dirs infos topics) answered) failures
      | Err error => read_answers topics answers answered (failures ++ [(broker, error)])
      end
  end.

(** [filter_map(|broker| answered.remove(&broker).map(..))]. *)
Fixpoint take_answered (order : list Z) (answered : list (Z * list ShownDir))
    : list (Z * list ShownDir) :=
  match order with
  | [] => []
  | broker :: order =>
      match bt_get broker answered with
      | Some dirs => (broker, dirs) :: take_answered order (bt_remove broker answered)
      | None => take_answered order answered
      end
  end.

(** [data[name] = value]: a null becomes an object, anything else panics. *)
Definition set_field (name : string) (value data : Value) : outcome Value :=
  match data with
  | Object entries => Done (Object (bt_insert name value entries))
  | Null => Done (Object [(name, value)])
  | _ => Panic
  end.

Definition describe_result (queried : list Z) (answers : list BrokerAnswer) (topics : string)
    : outcome CommandResult :=
  let '(answered, failures) :=
    read_answers (set_collect (list_entries topics)) (zip queried answers) [] [] in
  let responded := filter (λ broker, bt_contains broker answered = true) queried in
  let document := document (take_answered (document_order responded) answered) in
  data ← or_panic (result_ok (from_str document));
  data ← set_field "failed_brokers"
    (Array (map (λ '(broker, error), broker_failure_json broker error) failures)) data;
  Done (with_notices
    (rows ["Querying brokers for log directories information";
           "Received log directory information from brokers " +:+ join_brokers responded;
           document]
      data (negb (bool_decide (failures = []))))
    (map (λ '(broker, error), failure_notice broker error) failures)).
End Document.

(** [broker_failure]. *)
Definition broker_failure (error : KafkaError) : CommandError := Other (throwable_text error).

(** The answers in the order of the brokers; each is taken out of the map. *)
Fixpoint broker_answers (queried : list Z) (answered : list (Z * result KafkaError (list LogDirInfo)))
    : list BrokerAnswer :=
  match queried with
  | [] => []
  | broker :: queried =>
      match bt_get broker answered with
      | Some (Ok dirs) => Ok dirs
      | Some (Err error) => Err (broker_failure error)
      | None => Err (Other ("broker " +:+ pretty broker +:+ " did not answer"))
      end :: broker_answers queried (bt_remove broker answered)
  end.

Definition cluster_brokers : cmd admin (list Z) :=
  description ← try_admin (send (DescribeCluster false));
  pure (map node_id (description_nodes description)).

Definition describe_log_dirs `{SerdeJson} (args : LogDirsArgs) (brokers : list Z)
    : cmd admin CommandResult :=
  requested ← lift (broker_list (la_broker_list args));
  queried ← lift (brokers_to_query brokers requested);
  answered ← await (send (DescribeLogDirs queried None));
  run_outcome (describe_result queried (broker_answers queried (bt_collect answered))
    (la_topic_list args)).

(** ** [--alter] *)

(** The replicas of a client map, in the order of their fields. *)
Definition replica_key (r : TopicPartitionReplica) : string * Z * Z :=
  (tpr_topic r, tpr_partition r, tpr_broker_id r).
Definition replica_from (k : string * Z * Z) : TopicPartitionReplica :=
  {| tpr_topic := k.1.1; tpr_partition := k.1.2; tpr_broker_id := k.2 |}.
#[export] Instance TopicPartitionReplica_ord : Ord TopicPartitionReplica.
Proof. refine (ord_via replica_key replica_from _). by intros []. Defined.
#[export] Instance TopicPartitionReplica_eq_dec : EqDecision TopicPartitionReplica.
Proof. solve_decision. Defined.

Definition moved_replica (broker : Z) (move : ReplicaMove) : TopicPartitionReplica :=
  {| tpr_topic := rm_topic move; tpr_partition := rm_partition move; tpr_broker_id := broker |}.

(** The directory that holds the current replica of a partition. *)
Definition holds_current (topic : string) (partition : Z) (dir : LogDirInfo) : bool :=
  existsb (λ '(name, replicas), bool_decide (name = topic) &&
    existsb (λ r, (lr_partition_index r =? partition) && negb (lr_is_future_key r)) replicas)
    (ld_topics dir).

Definition current_dir (current : list LogDirInfo) (topic : string) (partition : Z) : option string :=
  ld_log_dir <$> find (holds_current topic partition) current.

(** The error of one move, where the answer has one. *)
Definition move_error (broker : Z) (outcomes : list (TopicPartitionReplica * result KafkaError unit))
    (move : ReplicaMove) : option KafkaError :=
  match bt_get (moved_replica broker move) outcomes with
  | Some (Err error) => Some error
  | _ => None
  end.

Definition move_line (broker : Z) (move : ReplicaMove) (from : option string)
    (error : option KafkaError) : string :=
  match error with
  | Some error =>
      rm_topic move +:+ "-" +:+ pretty (rm_partition move) +:+ String "009" "" +:+ "ERROR" +:+
      String "009" "" +:+ error_name error +:+ " (" +:+ pretty (error_code error) +:+ ")"
  | None =>
      "Moving replica " +:+ rm_topic move +:+ "-" +:+ pretty (rm_partition move) +:+ " on broker " +:+
      pretty broker +:+ " from " +:+ default "-" from +:+ " to " +:+ rm_log_dir move +:+ "."
  end.

Definition move_json (broker : Z) (move : ReplicaMove) (from : option string)
    (error : option KafkaError) : Value :=
  object_of [("broker", num broker); ("topic", Str (rm_topic move));
             ("partition", num (rm_partition move)); ("from", opt_str from);
             ("to", Str (rm_log_dir move)); ("error", kafka_error_json error)].

(** [moved]: the report of [--alter]. *)
Definition moved (broker : Z) (moves : list ReplicaMove) (current : list LogDirInfo)
    (outcomes : list (TopicPartitionReplica * result KafkaError unit)) : CommandResult :=
  let from move := current_dir current (rm_topic move) (rm_partition move) in
  let error := move_error broker outcomes in
  rows (map (λ move, move_line broker move (from move) (error move)) moves)
    (Array (map (λ move, move_json broker move (from move) (error move)) moves))
    (existsb (λ move, is_some (error move)) moves).

(** The partitions of the moves by topic, the filter of the description. *)
Definition moved_topics (moves : list ReplicaMove) : list (string * list Z) :=
  foldl (λ filter move, bt_alter [] (λ partitions, partitions ++ [rm_partition move])
    (rm_topic move) filter) [] moves.

(** What [--dry-run] expects of a move: an error where the broker does not have
    the directory. *)
Definition expected_outcome (current : list LogDirInfo) (move : ReplicaMove)
    : result KafkaError unit :=
  if bool_decide (rm_log_dir move ∈ map ld_log_dir current) then Ok tt
  else Err {| error_code := LOG_DIR_NOT_FOUND; error_name := "LOG_DIR_NOT_FOUND";
              error_message := Some (exc_message (for_code LOG_DIR_NOT_FOUND)) |}.

Definition move_impact (broker : Z) (moves : list ReplicaMove) : Impact :=
  {| summary := "move " +:+ pretty (Z.of_nat (length moves)) +:+
       " replica(s) between the log directories of broker " +:+ pretty broker;
     resources := map (λ move, rm_topic move +:+ "-" +:+ pretty (rm_partition move) +:+ " -> " +:+
       rm_log_dir move) moves |}.

Definition alter_log_dirs (args : LogDirsArgs) (brokers : list Z) : cmd admin CommandResult :=
  broker ← lift (ok_or (la_broker args) "--broker is required with --alter");
  if bool_decide (broker ∉ brokers) then
    throw (Other ("ERROR: The given broker does not exist: " +:+ pretty broker +:+
      ". Current existent brokers: " +:+ join_brokers brokers))
  else
    let moves := la_moves args in
    described ← await (send (DescribeLogDirs [broker] (Some (moved_topics moves))));
    current ← match bt_get broker (bt_collect described) with
              | Some (Ok dirs) => pure dirs
              | Some (Err error) => throw (broker_failure error)
              | None => pure []
              end;
    if dry_run_flag (la_confirm args) then
      pure (into_dry_run (moved broker moves current
        (bt_collect (map (λ move, (moved_replica broker move, expected_outcome current move)) moves))))
    else
      _ ← confirm (yes_flag (la_confirm args)) "krabka log-dirs" (move_impact broker moves);
      outcomes ← await (send (AlterReplicaLogDirs
        (bt_collect (map (λ move, (moved_replica broker move, rm_log_dir move)) moves))));
      pure (moved broker moves current (bt_collect outcomes)).

(** ** The command *)

Definition check_log_dirs (args : LogDirsArgs) : result string unit :=
  if negb (bool_decide (bootstrap_controller (la_connection args) = [])) then
    Err "--bootstrap-controller is not supported by log-dirs; use --bootstrap-server"
  else if bool_decide (bootstrap_server (la_connection args) = []) then
    Err ("Missing required argument " +:+ dquote +:+ "[bootstrap-server]" +:+ dquote)
  else if dry_run_flag (la_confirm args) && la_describe args then
    Err "--dry-run is only valid with --alter"
  else Ok tt.

(** [LogDirsArgs::run]. *)
Definition log_dirs_run `{SerdeJson} (args : LogDirsArgs) : cmd admin CommandResult :=
  _ ← lift (check_log_dirs args);
  _ ← connect (la_connection args) "log-dirs";
  brokers ← cluster_brokers;
  if la_alter args then alter_log_dirs args brokers else describe_log_dirs args brokers.

(** ** Cases of the sources' tests *)

Example moves_read :
  map parse_move ["orders:0=/data/1"; "a:b:3=/d=1"; "orders:-1=/d"; "orders=/d"; ":0=/d"; "orders:0="] =
  [Ok {| rm_topic := "orders"; rm_partition := 0; rm_log_dir := "/data/1" |};
   Ok {| rm_topic := "a:b"; rm_partition := 3; rm_log_dir := "/d=1" |};
   Err "invalid partition '-1' in orders:-1=/d";
   Err "expected TOPIC:PARTITION=LOG_DIR, got orders=/d";
   Err "expected TOPIC:PARTITION=LOG_DIR, got :0=/d";
   Err "expected TOPIC:PARTITION=LOG_DIR, got orders:0="].
Proof. vm_compute. reflexivity. Qed.

Example brokers_read : broker_list "3,,1,3,2," = Ok [3; 1; 2] ∧
  broker_list "1,x" = Err (parse_int_error "x").
Proof. split; reflexivity. Qed.

Example brokers_queried :
  brokers_to_query [3; 1; 2] [] = Ok [1; 2; 3] ∧
  brokers_to_query [3; 1; 2] [7; 1; 9] =
    Err "ERROR: The given brokers do not exist from --broker-list: 7,9. Current existent brokers: 1,2,3".
Proof. split; vm_compute; reflexivity. Qed.

(** ** The document is JSON *)

Section DocumentFacts.
Context `{Hj : SerdeJson} {Hr : SerdeReads}.

Definition replica_value (r : ShownReplica) : Value := Object
  [("partition", Str (sr_topic r +:+ "-" +:+ pretty (sr_partition r)));
   ("size", num (sr_size r)); ("offsetLag", num (sr_offset_lag r));
   ("isFuture", Bool (sr_is_future r))].

Definition dir_value (dir : ShownDir) : Value := Object
  [("partitions", Array (map replica_value (sd_replicas dir)));
   ("error", opt_str (sd_error dir)); ("logDir", Str (sd_path dir))].

Definition broker_value (entry : Z * list ShownDir) : Value := Object
  [("broker", num entry.1); ("logDirs", Array (map dir_value entry.2))].

Definition document_value (brokers : list (Z * list ShownDir)) : Value := Object
  [("brokers", Array (map broker_value brokers)); ("version", num 1)].

Lemma key_written name :
  all_bytes is_ascii_alpha name = true → json_text (Str name) +:+ ":" = key name.
Proof. intros Hn. unfold key. by rewrite text_plain, !str_app_assoc. Qed.

(** An object with plain keys. *)
Lemma written_object entries :
  forallb (λ '(k, _), all_bytes is_ascii_alpha k) entries = true →
  written (Object entries) =
    "{" +:+ join "," (map (λ '(k, x), key k +:+ written x) entries) +:+ "}".
Proof.
  intros Hk. cbn [written].
  enough (map (λ '(k, x), json_text (Str k) +:+ ":" +:+ written x) entries =
    map (λ '(k, x), key k +:+ written x) entries) as -> by done.
  induction entries as [|[k x] entries IH]; [done|]. cbn [forallb] in Hk.
  apply andb_true_iff in Hk as [Hk Hks]. cbn [map]. rewrite <-str_app_assoc, key_written by done.
  f_equal. by apply IH.
Qed.

Lemma written_array {A} (f : A → Value) (g : A → string) l :
  (∀ x, written (f x) = g x) →
  written (Array (map f l)) = "[" +:+ join "," (map g l) +:+ "]".
Proof.
  intros Hf. cbn [written]. rewrite map_map. by rewrite (map_ext _ _ Hf).
Qed.

Lemma written_num z : written (num z) = pretty z.
Proof. apply text_num. Qed.
Lemma written_bool b : written (Bool b) = bool_text b.
Proof. apply text_bool. Qed.
Lemma written_str text : written (Str text) = json_quoted text.
Proof. done. Qed.

Lemma replica_written r : written (replica_value r) = replica_document r.
Proof.
  unfold replica_value. rewrite written_object by reflexivity. cbn [map join].
  rewrite !written_num, written_bool, written_str. unfold replica_document.
  by rewrite !str_app_assoc.
Qed.

Lemma dir_written dir : written (dir_value dir) = dir_document dir.
Proof.
  unfold dir_value. rewrite written_object by reflexivity. cbn [map join].
  rewrite (written_array _ _ _ replica_written).
  assert (written (opt_str (sd_error dir)) =
    match sd_error dir with None => "null" | Some class => json_quoted class end) as ->
    by (destruct (sd_error dir); [done|apply text_null]).
  rewrite written_str. unfold dir_document. by rewrite !str_app_assoc.
Qed.

Lemma broker_written entry : written (broker_value entry) = broker_document entry.
Proof.
  unfold broker_value. rewrite written_object by reflexivity. cbn [map join].
  rewrite (written_array _ _ _ dir_written), written_num.
  unfold broker_document. by rewrite !str_app_assoc.
Qed.

Lemma document_written brokers : written (document_value brokers) = document brokers.
Proof.
  unfold document_value. rewrite written_object by reflexivity. cbn [map join].
  rewrite (written_array _ _ _ broker_written), written_num.
  unfold document. by rewrite !str_app_assoc.
Qed.

Lemma depth_array {A} (f : A → Value) l n :
  (∀ x, (depth (f x) ≤ n)%nat) → (depth (Array (map f l)) ≤ S n)%nat.
Proof.
  intros Hf. cbn [depth]. apply le_n_S. induction l as [|x l IH]; simpl; [lia|].
  specialize (Hf x). lia.
Qed.

Lemma depth_object entries n :
  Forall (λ entry : string * Value, depth entry.2 ≤ n)%nat entries →
  (depth (Object entries) ≤ S n)%nat.
Proof.
  intros Hf. cbn [depth]. apply le_n_S. induction Hf as [|[k x] l Hx Hl IH]; simpl in *; lia.
Qed.

Lemma document_depth brokers : (depth (document_value brokers) < 128)%nat.
Proof.
  assert (∀ r, (depth (replica_value r) ≤ 1)%nat) as Hreplica
    by (intros r; apply depth_object; repeat constructor).
  assert (∀ dir, (depth (dir_value dir) ≤ 3)%nat) as Hdir.
  { intros dir. apply depth_object. constructor; [by apply depth_array|].
    constructor; [destruct (sd_error dir); cbn; lia|]. constructor; [cbn; lia|done]. }
  assert (∀ entry, (depth (broker_value entry) ≤ 5)%nat) as Hbroker.
  { intros entry. apply depth_object. constructor; [cbn; lia|].
    constructor; [by apply depth_array|done]. }
  apply (Nat.le_lt_trans _ 7); [|lia]. apply depth_object.
  constructor; [by apply depth_array|]. constructor; [cbn; lia|done].
Qed.

(** The hand-written document reads as an object. *)
Lemma document_reads brokers : ∃ entries, from_str (document brokers) = Ok (Object entries).
Proof. rewrite <-document_written. apply reads_object, document_depth. Qed.
End DocumentFacts.

(** ** The report of [--describe] *)

(** What a broker contributes to the document: its dirs, if it answered with
    some. *)
Definition shown_broker (topics : list string) (entry : Z * BrokerAnswer) : option (Z * list ShownDir) :=
  match entry with
  | (broker, Ok (info :: infos)) => Some (broker, printable_log_dirs (info :: infos) topics)
  | _ => None
  end.
(** Its failure: an answer without a log dir is one that was not authorized. *)
Definition failed_broker (entry : Z * BrokerAnswer) : option (Z * CommandError) :=
  match entry with
  | (broker, Ok []) => Some (broker, Other (exception_text 31))
  | (broker, Err error) => Some (broker, error)
  | _ => None
  end.

Lemma read_answers_spec topics entries answered failures :
  read_answers topics entries answered failures =
    (fold_left (λ m kv, bt_insert kv.1 kv.2 m) (omap (shown_broker topics) entries) answered,
     failures ++ omap failed_broker entries).
Proof.
  revert answered failures. induction entries as [|[b a] entries IH]; intros answered failures; simpl.
  { by rewrite app_nil_r. }
  unfold checked_answer. destruct a as [[|info infos]|e]; cbn [mbind result_bind].
  - rewrite bool_decide_eq_true_2 by done. rewrite IH. by rewrite <-app_assoc.
  - rewrite bool_decide_eq_false_2 by done. by rewrite IH.
  - rewrite IH. by rewrite <-app_assoc.
Qed.

Lemma read_answers_all topics entries :
  read_answers topics entries [] [] =
    (bt_collect (omap (shown_broker topics) entries), omap failed_broker entries).
Proof. apply read_answers_spec. Qed.

Lemma omap_keys_NoDup {A B} (f : Z * A → option (Z * B)) (l : list (Z * A)) :
  (∀ x y, f x = Some y → y.1 = x.1) → NoDup l.*1 → NoDup (omap f l).*1.
Proof.
  intros Hf. induction l as [|x l IH]; [done|]. cbn [omap list_omap fmap list_fmap]. rewrite NoDup_cons.
  intros [Hx Hl]. destruct (f x) as [y|] eqn:E; [|by apply IH]. cbn. constructor; [|by apply IH].
  rewrite (Hf _ _ E). contradict Hx. apply list_elem_of_fmap in Hx as (z & Hz & Hin).
  apply list_elem_of_omap in Hin as (x' & Hin & E'). apply list_elem_of_fmap. exists x'.
  split; [|done]. by rewrite Hz, (Hf _ _ E').
Qed.

Lemma shown_broker_key topics x y : shown_broker topics x = Some y → y.1 = x.1.
Proof. destruct x as [b [[|info infos]|e]]; [done| |done]. by intros [= <-]. Qed.

Lemma take_answered_spec order answered :
  bt_wf answered → NoDup order →
  take_answered order answered = omap (λ b, (b,.) <$> bt_get b answered) order.
Proof.
  revert answered. induction order as [|b order IH]; intros answered Hm; [done|]. rewrite NoDup_cons.
  intros [Hb Ho]. cbn [take_answered omap list_omap]. destruct (bt_get b answered) as [dirs|] eqn:E;
    cbn [fmap option_fmap option_map]; rewrite IH by (try apply bt_remove_wf; done); [|done]. f_equal.
  apply omap_ext_in. intros b' Hin. f_equal. apply bt_get_remove_ne; [done|]. set_solver.
Qed.

(** A map collected from distinct keys has exactly those entries. *)
Lemma bt_get_collect_unique {B} (l : list (Z * B)) b v :
  NoDup l.*1 → bt_get b (bt_collect l) = Some v ↔ (b, v) ∈ l.
Proof.
  intros Hn. split; [apply bt_get_collect_elem|]. intros Hin.
  destruct (bt_get_collect_Some _ _ _ Hin) as [v' Hv]. rewrite Hv. f_equal.
  apply bt_get_collect_elem in Hv. by eapply NoDup_fst_functional.
Qed.

(** Looking the keys of a map up in any order gives its entries in that order. *)
Lemma omap_lookup_perm {B} (l : list (Z * B)) order :
  NoDup l.*1 → order ≡ₚ l.*1 →
  omap (λ b, (b,.) <$> bt_get b (bt_collect l)) order ≡ₚ l ∧
  (omap (λ b, (b,.) <$> bt_get b (bt_collect l)) order).*1 = order.
Proof.
  intros Hn Ho.
  assert (∀ b, b ∈ order → is_Some (bt_get b (bt_collect l))) as Hall.
  { intros b Hb. rewrite Ho in Hb. apply list_elem_of_fmap in Hb as ([b' v] & -> & Hin).
    by apply bt_get_collect_Some in Hin. }
  assert ((omap (λ b, (b,.) <$> bt_get b (bt_collect l)) order).*1 = order) as Hfst.
  { clear Ho. induction order as [|b order IH]; [done|]. cbn [omap list_omap].
    destruct (Hall b) as [v ->]; [by left|]. cbn. f_equal. apply IH. intros b' Hb'. apply Hall. by right. }
  split; [|done]. apply NoDup_Permutation.
  - apply (NoDup_fmap_1 fst). rewrite Hfst, Ho. done.
  - by apply (NoDup_fmap_1 fst).
  - intros [b v]. rewrite list_elem_of_omap. split.
    + intros (b' & _ & E). destruct (bt_get b' (bt_collect l)) as [v'|] eqn:E'; [|done].
      injection E as -> ->. by apply bt_get_collect_elem.
    + intros Hin. exists b. split.
      * rewrite Ho. apply list_elem_of_fmap. by exists (b, v).
      * apply (bt_get_collect_unique _ _ _ Hn) in Hin. by rewrite Hin.
Qed.

Lemma document_order_perm brokers : document_order brokers ≡ₚ brokers.
Proof. unfold document_order. by rewrite !hash_order_perm. Qed.

(** The brokers that responded, in the order they were asked. *)
Lemma filter_responded (topics : list string) queried answers :
  NoDup queried → length answers = length queried →
  filter (λ b, bt_contains b (bt_collect (omap (shown_broker topics) (zip queried answers))) = true)
    queried = (omap (shown_broker topics) (zip queried answers)).*1.
Proof.
  intros Hn Hl.
  assert (NoDup (zip queried answers).*1) as Hz by (by rewrite fst_zip by lia).
  assert (∀ entries, (∀ x, x ∈ entries → x ∈ zip queried answers) → NoDup entries.*1 →
    filter (λ b, bt_contains b (bt_collect (omap (shown_broker topics) (zip queried answers))) = true)
      entries.*1 = (omap (shown_broker topics) entries).*1) as H.
  { intros entries. induction entries as [|[b a] entries IH]; intros Hin Hne; [done|].
    apply NoDup_cons in Hne as [_ Hne]. cbn [fmap list_fmap fst omap list_omap].
    rewrite filter_cons. fold (fmap fst entries) in *.
    assert (bt_contains b (bt_collect (omap (shown_broker topics) (zip queried answers))) = true ↔
      is_Some (shown_broker topics (b, a))) as Hiff.
    { rewrite bt_contains_true. split.
      - intros [v Hv%bt_get_collect_elem]. apply list_elem_of_omap in Hv as ([b' a'] & Hin' & E).
        apply shown_broker_key in E as Hb. cbn in Hb. subst b'.
        rewrite (NoDup_fst_functional _ b a a' Hz); [by rewrite E|..|done]. apply Hin. by left.
      - intros [[b' v] E]. apply shown_broker_key in E as Hb. cbn in Hb. subst b'.
        eapply bt_get_collect_Some. apply list_elem_of_omap. eexists. split; [|exact E].
        apply Hin. by left. }
    specialize (IH (λ x Hx, Hin x (list_elem_of_further _ _ _ Hx)) Hne).
    case_decide as Hc; rewrite Hiff in Hc.
    - destruct Hc as [[b' v] E]. rewrite E. apply shown_broker_key in E. cbn in E |- *. subst b'.
      by f_equal.
    - destruct (shown_broker topics (b, a)); [by destruct Hc|]. exact IH. }
  rewrite <-(H (zip queried answers)) by done. by rewrite fst_zip by lia.
Qed.

(** A log dir is printed with exactly its replicas of the wanted topics. *)
Lemma printable_log_dirs_spec infos topics :
  printable_log_dirs infos topics ≡ₚ map (printable_dir topics) infos ∧
  ∀ info, sd_replicas (printable_dir topics info) ≡ₚ
    filter (topic_wanted topics) (dir_replicas info).
Proof.
  split; [apply hash_order_perm|]. intros info. cbn. rewrite hash_order_perm.
  by rewrite hash_order_perm.
Qed.

(** The report of [log-dirs --describe], from the answers of distinct brokers.
    It is written without a panic, since the document that is put together by hand
    is JSON; the document holds, in Kafka's order, exactly the brokers that
    answered with a log dir, each with its dirs; the line above it names the same
    brokers in the order they were asked; every other broker has one notice with
    its error, in that order, and the command fails exactly if there is one. *)
Theorem describe_result_spec `{SerdeReads} (queried : list Z) (answers : list BrokerAnswer)
    (topics : string) :
  NoDup queried → length answers = length queried →
  let entries := zip queried answers in
  let shown := omap (shown_broker (set_collect (list_entries topics))) entries in
  let failures := omap failed_broker entries in
  ∃ brokers r, describe_result queried answers topics = Done r ∧
    brokers ≡ₚ shown ∧ brokers.*1 = document_order shown.*1 ∧
    human r = ["Querying brokers for log directories information";
               "Received log directory information from brokers " +:+ join_brokers shown.*1;
               document brokers] ∧
    notices r = map (λ '(broker, error), failure_notice broker error) failures ∧
    (failed r = true ↔ failures ≠ []).
Proof.
  intros Hn Hl entries shown failures. unfold describe_result. rewrite read_answers_all.
  rewrite (filter_responded _ queried answers) by done. fold entries. fold shown failures.
  assert (NoDup shown.*1) as Hs.
  { apply omap_keys_NoDup; [apply shown_broker_key|]. unfold entries. by rewrite fst_zip by lia. }
  rewrite take_answered_spec; [|apply bt_collect_wf|by rewrite document_order_perm].
  destruct (omap_lookup_perm shown (document_order shown.*1) Hs (document_order_perm _)) as [Hp Hfst].
  set (brokers := omap _ _) in Hp, Hfst |- *. destruct (document_reads brokers) as [members Hm].
  rewrite Hm. exists brokers. eexists. split; [reflexivity|]. split_and!; [done..|].
  cbn. by rewrite negb_true_iff, bool_decide_eq_false.
Qed.

(** ** The guards of [--alter] *)

Lemma harmless_cluster_brokers : harmless cluster_brokers.
Proof. unfold cluster_brokers. harmless. Qed.
#[export] Hint Resolve harmless_cluster_brokers : krabka.

Lemma harmless_describe_log_dirs `{SerdeJson} args brokers : harmless (describe_log_dirs args brokers).
Proof. unfold describe_log_dirs. harmless. Qed.
#[export] Hint Resolve harmless_describe_log_dirs : krabka.

(** Under [--dry-run], [--alter] changes nothing and says so. *)
Lemma log_dirs_dry_run `{SerdeJson} args :
  la_alter args = true → dry_run_flag (la_confirm args) = true →
  dry_run_contract (log_dirs_run args).
Proof.
  intros Ha Hd. apply dry_run_intro. unfold log_dirs_run, alter_log_dirs. do 3 ro_step.
  rewrite Ha. ro_step. case_bool_decide; [done|]. ro_step. ro_step.
  { by destruct (bt_get _ _) as [[]|]. }
  by rewrite Hd.
Qed.

(** The replicas and directories that the moves ask for: the last move of a
    replica counts. *)
Definition asked_moves (broker : Z) (moves : list ReplicaMove)
    (request : list (TopicPartitionReplica * string)) : Prop :=
  bt_wf request ∧
  ∀ replica, bt_get replica request =
    rm_log_dir <$> last (filter (λ move, moved_replica broker move = replica) moves).

(** The prompt that names every move, accepted. *)
Definition accepted_moves (broker : Z) (moves : list ReplicaMove) (past : list (event admin)) : Prop :=
  (existT (AskConfirm "krabka log-dirs" (move_impact broker moves) : call admin) (Ok tt) : event admin)
    ∈ past.

(** The changes that the flags authorise, by what came before. *)
Definition rightful_move (args : LogDirsArgs) (past : list (event admin)) (c : admin_call) : Prop :=
  match c with
  | AlterReplicaLogDirs request =>
      la_alter args = true ∧ dry_run_flag (la_confirm args) = false ∧
      Forall (λ e, changes e = false) past ∧
      ∃ broker description, la_broker args = Some broker ∧
        (existT (DescribeCluster false : call admin) (Ok description) : event admin) ∈ past ∧
        broker ∈ map node_id (description_nodes description) ∧
        (yes_flag (la_confirm args) = true ∨ accepted_moves broker (la_moves args) past) ∧
        asked_moves broker (la_moves args) request
  | c => mutating c = false
  end.

Lemma rightful_move_reads args past c : mutating c = false → rightful_move args past c.
Proof. by destruct c. Qed.

Lemma asked_moves_collect broker moves :
  asked_moves broker moves
    (bt_collect (map (λ move, (moved_replica broker move, rm_log_dir move)) moves)).
Proof.
  split; [apply bt_collect_wf|]. intros replica. rewrite bt_get_collect.
  induction moves as [|move moves IH] using rev_ind; [done|].
  rewrite map_app, !filter_app. cbn [map]. rewrite !filter_cons, !filter_nil. cbn [fst].
  case_decide; [|by rewrite !app_nil_r]. by rewrite !last_snoc.
Qed.

Lemma trace_cluster_brokers log brokers :
  trace cluster_brokers log (Done (Ok brokers)) →
  ∃ description, log = [existT (DescribeCluster false : call admin) (Ok description) : event admin] ∧
    brokers = map node_id (description_nodes description).
Proof.
  intros ([description|e] & log' & -> & -> & E); [|done]. injection E as ->. by exists description.
Qed.

Lemma alter_rightful_move args past description :
  la_alter args = true → Forall (λ e, changes e = false) past →
  (existT (DescribeCluster false : call admin) (Ok description) : event admin) ∈ past →
  monitored (history (Σ := admin) (rightful_move args)) past
    (alter_log_dirs args (map node_id (description_nodes description))) (on_ok (λ _ _, True)).
Proof.
  intros Ha Hpast Hin. unfold alter_log_dirs. destruct (la_broker args) as [broker|] eqn:Hb; [|done].
  apply monitored_ok. case_bool_decide as Hlisted; [done|].
  apply history_bind; [apply rightful_move_reads|auto with krabka|intros log1 described H1].
  apply history_bind; [apply rightful_move_reads| |intros log2 current H2].
  { by destruct (bt_get _ _) as [[]|]. }
  destruct (dry_run_flag (la_confirm args)) eqn:Hd; [done|].
  apply history_bind; [apply rightful_move_reads|auto with krabka|intros log3 [] H3].
  split; [|done]. apply harmless_trace in H1 as F1; [|auto with krabka].
  apply harmless_trace in H2 as F2; [|by destruct (bt_get _ _) as [[]|]].
  apply harmless_trace in H3 as F3; [|auto with krabka].
  split_and!; [done..|by repeat (apply Forall_app_2; [|done])|].
  exists broker, description. split_and!; [done|set_solver|done| |apply asked_moves_collect].
  apply trace_confirm in H3 as [Hy| ->]; [by left|]. right. unfold accepted_moves. set_solver.
Qed.

(** What [krabka log-dirs] changes, for every cluster. It moves replicas at
    most once, as its only change; only under [--alter] and not under
    [--dry-run]; on the broker of [--broker], which the cluster named; after the
    operator accepted a prompt that names every move, or with [--yes]; and it asks
    for exactly the moves of [--move], the last one of each replica. *)
Theorem log_dirs_moves `{SerdeJson} (args : LogDirsArgs) :
  ∀ W (world : ∀ c : admin_call, W → admin_answer c * W) (w : W) pre e post,
    events_of world (log_dirs_run args) w = pre ++ e :: post →
    rightful_move args pre (projT1 e).
Proof.
  intros W world w pre e post. apply (run_history (Σ := admin) world _ _ (on_ok (λ _ _, True))).
  unfold log_dirs_run. destruct (check_log_dirs args); [|done]. apply monitored_ok.
  apply history_bind; [apply rightful_move_reads|auto with krabka|intros log1 [] H1].
  apply history_bind; [apply rightful_move_reads|auto with krabka|intros log2 brokers H2].
  apply harmless_trace in H1 as F1; [|auto with krabka].
  apply harmless_trace in H2 as F2; [|auto with krabka].
  destruct (la_alter args) eqn:Ha.
  - apply trace_cluster_brokers in H2 as (description & -> & ->).
    apply alter_rightful_move; [done|by apply Forall_app_2|set_solver].
  - eapply monitored_mono; [apply history_harmless; [apply rightful_move_reads|auto with krabka]|].
    by intros ? [[]| |].
Qed.

(** ** A run that moves *)

Definition move_args : LogDirsArgs :=
  {| la_connection := {| bootstrap_server := ["localhost:9092"]; bootstrap_controller := [];
       command_config := None; client_id := None; request_timeout_ms := None |};
     la_describe := false; la_alter := true; la_topic_list := ""; la_broker_list := "";
     la_broker := Some 1;
     la_moves := [{| rm_topic := "orders"; rm_partition := 0; rm_log_dir := "/data/b" |}];
     la_confirm := {| dry_run_flag := false; yes_flag := false |} |}.

Definition one_broker_world (c : admin_call) (w : unit) : admin_answer c * unit :=
  match c return admin_answer c * unit with
  | DescribeCluster _ =>
      (Ok {| description_cluster_id := "c";
             description_nodes := [{| node_id := 1; node_host := "h"; node_port := 9092;
               node_rack := None; node_is_fenced := false |}] |}, w)
  | c => obliging_world c w
  end.

Definition move_events : list (event admin) :=
  events_of one_broker_world (log_dirs_run (H := reads_as Null) move_args) tt.

Lemma log_dirs_moves_witness :
  ∃ pre e post, move_events = pre ++ e :: post ∧
    projT1 e = AlterReplicaLogDirs
      [({| tpr_topic := "orders"; tpr_partition := 0; tpr_broker_id := 1 |}, "/data/b")] ∧
    rightful_move move_args pre (projT1 e).
Proof.
  assert (∃ e, move_events !! 4%nat = Some e ∧ projT1 e = AlterReplicaLogDirs
      [({| tpr_topic := "orders"; tpr_partition := 0; tpr_broker_id := 1 |}, "/data/b")])
    as (e & He & Hc) by (eexists; vm_compute; split; reflexivity).
  exists (take 4 move_events), e, (drop 5 move_events).
  pose proof (take_drop_middle move_events 4 e He) as Hsplit. split; [done|]. split; [done|].
  exact (@log_dirs_moves (reads_as Null) move_args unit one_broker_world tt _ _ _ (eq_sym Hsplit)).
Defined.

(** A reader that keeps no member of an object. *)
Definition object_reader : SerdeJson := {| from_str _ := Ok (Object []); json_text := compact |}.
#[export] Instance object_reader_reads : SerdeReads (H := object_reader).
Proof. split; try done. intros entries _. by exists []. Qed.

Definition test_dir (path : string) (error : option KafkaError) : LogDirInfo :=
  {| ld_log_dir := path; ld_error := error;
     ld_topics := [("orders", [{| lr_partition_index := 1; lr_partition_size := 0; lr_offset_lag := 0;
                                  lr_is_future_key := false |}])] |}.

Lemma describe_result_spec_witness :
  let answers := [Ok [test_dir "/d" None]; Err (Other "connection refused")] in
  ∃ brokers r, describe_result (H := object_reader) [1; 2] answers "" = Done r ∧
    brokers = [(1, [printable_dir [] (test_dir "/d" None)])] ∧
    notices r = ["ERROR: failed to describe the log directories of broker 2: connection refused"] ∧
    failed r = true.
Proof.
  intros answers.
  destruct (@describe_result_spec object_reader _ [1; 2] answers "") as
    (brokers & r & Hr & Hb & _ & _ & Hn & Hf);
    [repeat constructor; set_solver|reflexivity|].
  exists brokers, r. split; [exact Hr|]. split; [|split; [exact Hn|apply Hf; vm_compute; discriminate]].
  apply Permutation_singleton_r in Hb. exact Hb.
Defined.
