(* ===== verification/Transactions.v ===== *)
(** [transactions.rs]: [krabka transactions], the counterpart of
    [kafka-transactions]: list, describe, describe-producers, abort, find-hanging
    and forceTerminateTransaction.

    [list] asks every broker on a connection of its own, concurrently
    ([Interleave]), and asks a loading coordinator again until its deadline; the
    turns of that loop are the fuel. *)

From Stdlib Require Import Ascii.
From S2P Require Import Connection.
From S2P Require Import Prelude Collections Rust Jvm Json KafkaErrors Output Program Admin Interleave.

(** [COORDINATOR_LOAD_IN_PROGRESS], [COORDINATOR_NOT_AVAILABLE],
    [NOT_LEADER_OR_FOLLOWER] and [TRANSACTIONAL_ID_NOT_FOUND]. *)
Definition COORDINATOR_LOAD_IN_PROGRESS : Z := 14.
Definition COORDINATOR_NOT_AVAILABLE : Z := 15.
Definition NOT_LEADER_OR_FOLLOWER : Z := 6.
Definition TRANSACTIONAL_ID_NOT_FOUND : Z := 105.

Definition MAX_BATCH_SIZE : nat := 500.
Definition BROKER_FAN_OUT : nat := 16.

(** The key of [ListTransactions] in the Kafka protocol. *)
Definition LIST_TRANSACTIONS_KEY : Z := 66.

Definition LIST_HEADERS : list string :=
  ["TransactionalId"; "Coordinator"; "ProducerId"; "TransactionState"].
Definition PRODUCERS_HEADERS : list string :=
  ["ProducerId"; "ProducerEpoch"; "LatestCoordinatorEpoch"; "LastSequence"; "LastTimestamp";
   "CurrentTransactionStartOffset"].
Definition HANGING_HEADERS : list string :=
  ["Topic"; "Partition"; "ProducerId"; "ProducerEpoch"; "CoordinatorEpoch"; "StartOffset";
   "LastTimestamp"; "Duration(min)"].
Definition DESCRIBE_HEADERS : list string :=
  ["CoordinatorId"; "TransactionalId"; "ProducerId"; "ProducerEpoch"; "TransactionState";
   "TransactionTimeoutMs"; "CurrentTransactionStartTimeMs"; "TransactionDurationMs";
   "TopicPartitions"].

(** [NONE]. *)
Definition NONE_CELL : string := "None".

Definition TRANSACTION_STATES : list string :=
  ["Ongoing"; "PrepareAbort"; "PrepareCommit"; "CompleteAbort"; "CompleteCommit"; "Empty";
   "PrepareEpochFence"].

(** ** The flags *)

Record TxListArgs := { duration_filter : option Z; transactional_id_pattern : option string }.

Record TxDescribeProducersArgs := { dpa_broker_id : option Z; dpa_topic : string; dpa_partition : Z }.

Record TxAbortArgs := {
  aa_topic : string;
  aa_partition : Z;
  aa_start_offset : option Z;
  aa_producer_id : option Z;
  aa_producer_epoch : option Z;
  aa_coordinator_epoch : option Z;
  aa_confirm : ConfirmArgs
}.

Record TxFindHangingArgs := {
  fh_broker_id : option Z;
  fh_max_transaction_timeout : Z;
  fh_topic : option string;
  fh_partition : option Z
}.

Inductive TransactionsCommand :=
  | TxList (args : TxListArgs)
  | TxDescribe (transactional_id : list string)
  | TxDescribeProducers (args : TxDescribeProducersArgs)
  | TxAbort (args : TxAbortArgs)
  | TxFindHanging (args : TxFindHangingArgs)
  | TxForceTerminate (transactional_id : string) (confirm : ConfirmArgs).

Record TransactionsArgs := { txa_connection : ConnectionArgs; txa_command : TransactionsCommand }.

(** The transaction that [abort] identifies. *)
Inductive AbortTarget :=
  | StartOffset (start_offset : Z)
  | Producer (producer_id producer_epoch coordinator_epoch : Z).

(** ** Helpers *)

(** [failure]: Kafka's [printErrorAndExit], which ends the cause with a period. *)
Definition tx_failure (context : string) (cause : CommandError) : CommandError :=
  let text := command_error_text cause in
  Other (context +:+ ": " +:+ default text (strip_suffix "." text) +:+
         ". Enable debug logging for additional detail.").

(** [kafka_failure]. *)
Definition kafka_failure (api : string) (error : KafkaError) : CommandError :=
  admin_error (BrokerError api (error_code error) (error_name error) (error_message error)).

(** [map_err(|error| failure(context, &admin_error(error)))?]. *)
Definition try_call {A} (context : string) (p : prog admin (result AdminError A)) : cmd admin A :=
  prog_bind (λ r, Halt (Done (map_err (λ e, tx_failure context (admin_error e)) r))) p.

(** [map_err(|error| failure(context, &error))?] on a command. *)
Definition in_context {A} (context : string) (p : cmd admin A) : cmd admin A :=
  prog_bind (λ r, Halt (Done (map_err (tx_failure context) r))) p.

Definition now_ms : cmd admin Z :=
  since_epoch ← await (send EpochMillis);
  pure match since_epoch with Some millis => default i64_MAX (try_signed 64 millis) | None => 0 end.

Definition transaction_state (state : string) : string :=
  if bool_decide (state ∈ TRANSACTION_STATES) then state else "Unknown".

(** Java's [(short)] cast: the low 16 bits. *)
Definition java_short (value : Z) : Z := wrap 16 value.

(** [Long.hashCode]. *)
Definition long_hash (value : Z) : Z :=
  let bits := value mod 2 ^ 64 in wrap_i32 (Z.lxor bits (Z.shiftr bits 32)).

(** [slice.chunks(n)]. *)
Fixpoint chunks_fuel {A} (fuel n : nat) (l : list A) : list (list A) :=
  match fuel, l with
  | S fuel, _ :: _ => take n l :: chunks_fuel fuel n (drop n l)
  | _, _ => []
  end.
Definition chunks {A} (n : nat) (l : list A) : list (list A) := chunks_fuel (length l) n l.

(** ** Tables *)

(** [cell.encode_utf16().count()]. *)
Definition utf16_width (cell : string) : nat := length (encode_utf16 cell).

Fixpoint widen (widths : list nat) (row : list string) : list nat :=
  match widths, row with
  | column :: widths, cell :: row => Nat.max column (utf16_width cell) :: widen widths row
  | _, _ => widths
  end.

Definition cell_tab : string := String "009" "".

(** One line; [" ".repeat(column - width)] does not underflow ([table_fits]). *)
Fixpoint table_line (widths : list nat) (cells : list string) : string :=
  match widths, cells with
  | column :: widths, cell :: cells =>
      cell +:+ spaces (column - utf16_width cell) +:+ cell_tab +:+ table_line widths cells
  | _, _ => ""
  end.

Definition table_widths (headers : list string) (rows : list (list string)) : list nat :=
  foldl widen (map utf16_width headers) rows.

Definition pretty_table (headers : list string) (rows : list (list string)) : list string :=
  let widths := table_widths headers rows in
  table_line widths headers :: map (table_line widths) rows.

(** ** A connection to one broker *)

Definition starts_with_bracket (s : string) : bool :=
  match s with String c _ => (c =? "[")%char | EmptyString => false end.

Definition node_address (node : ClusterNode) : string :=
  if contains_byte (λ c, (c =? ":")%char) (node_host node) && negb (starts_with_bracket (node_host node))
  then "[" +:+ node_host node +:+ "]:" +:+ pretty (node_port node)
  else node_host node +:+ ":" +:+ pretty (node_port node).

Definition broker_connection (node : ClusterNode) : cmd admin Handle :=
  let address := node_address node in
  resolved ← await (send (Resolve address));
  resolved ← lift (map_err (λ error, "resolve " +:+ address +:+ ": " +:+ error) resolved);
  socket ← lift (ok_or (head resolved) ("resolve " +:+ address +:+ ": no address"));
  opened ← await (send (OpenConnection socket address));
  lift_cmd (map_err (λ error, admin_error (Transport error)) opened).

(** ** [list] *)

Definition list_request (args : TxListArgs) : ListTransactionsRequest :=
  {| lt_duration_filter := default (-1) (duration_filter args);
     lt_transactional_id_pattern :=
       pattern ← transactional_id_pattern args;
       if bool_decide (pattern = "") then None else Some pattern |}.

Definition check_list_version (request : ListTransactionsRequest) (max_version : Z) : result string unit :=
  if (0 <=? lt_duration_filter request) && (max_version <? 1) then
    Err "Duration filter can be set only when using API version 1 or higher. If client is connected to an older broker, do not specify duration filter or set duration filter to -1."
  else if is_some (lt_transactional_id_pattern request) && (max_version <? 2) then
    Err "Transactional ID pattern filter can be set only when using API version 2 or higher. If client is connected to an older broker, do not specify the pattern filter."
  else Ok tt.

(** The loop that asks again while the coordinator loads its state. *)
Fixpoint ask_transactions (fuel : nat) (handle : Handle) (request : ListTransactionsRequest)
    : cmd admin ListTransactionsResponse :=
  match fuel with
  | O => Halt Timeout
  | S fuel =>
      sent ← await (send (SendListTransactions handle request));
      response ← lift_cmd (map_err (λ error, admin_error (Transport error)) sent);
      if lt_error_code response =? COORDINATOR_LOAD_IN_PROGRESS then
        elapsed ← await (send Elapsed);
        if elapsed : bool then pure response
        else _ ← await (send Sleep); ask_transactions fuel handle request
      else pure response
  end.

Definition listed_states (node : ClusterNode) (response : ListTransactionsResponse)
    : result CommandError (list TransactionListing) :=
  let code := lt_error_code response in
  if code =? 0 then Ok (lt_transaction_states response)
  else Err (admin_error (BrokerError "ListTransactions" code "UNKNOWN"
    (Some ("ListTransactions request sent to broker " +:+ pretty (node_id node) +:+
      if code =? COORDINATOR_NOT_AVAILABLE
      then " failed because the coordinator is shutting down"
      else " failed with an unexpected exception")))).

Definition list_on_broker (fuel : nat) (node : ClusterNode) (request : ListTransactionsRequest)
    : cmd admin (list TransactionListing) :=
  handle ← broker_connection node;
  max_version ← await (send (AdvertisedMax handle LIST_TRANSACTIONS_KEY));
  _ ← lift (check_list_version request (default 0 max_version));
  response ← ask_transactions fuel handle request;
  lift_cmd (listed_states node response).

Definition listing_row (broker : Z) (listing : TransactionListing) : list string :=
  [tl_transactional_id listing; pretty broker; pretty (tl_producer_id listing);
   transaction_state (tl_state listing)].

Definition listing_json (broker : Z) (listing : TransactionListing) : Value :=
  object_of [("transactional_id", Str (tl_transactional_id listing)); ("coordinator", num broker);
             ("producer_id", num (tl_producer_id listing));
             ("transaction_state", Str (transaction_state (tl_state listing)))].

(** [listed]. *)
Definition tx_listed (by_broker : list (Z * list TransactionListing)) : CommandResult :=
  let by_broker := hash_order by_broker Default (λ entry, integer_hash entry.1) in
  success
    (pretty_table LIST_HEADERS
      (by_broker ≫= λ '(broker, listings), map (listing_row broker) listings))
    (Array (by_broker ≫= λ '(broker, listings), map (listing_json broker) listings)).

(** The future of one broker. *)
Definition broker_future (fuel : nat) (request : ListTransactionsRequest) (node : ClusterNode)
    : prog admin (Z * result CommandError (list TransactionListing)) :=
  prog_bind (λ listings, Halt (Done (node_id node, listings))) (list_on_broker fuel node request).

Definition LIST_CONTEXT : string := "Failed to list transactions".

(** [ListArgs::run]; [schedule] is the order in which the brokers answer. *)
Definition run_list (fuel : nat) (schedule : list nat) (connection : ConnectionArgs)
    (args : TxListArgs) : cmd admin CommandResult :=
  let request := list_request args in
  _ ← connect connection "transactions";
  _ ← send (LoadOptions connection "transactions");
  description ← try_call LIST_CONTEXT (send (DescribeCluster false));
  answers ← await (interleave BROKER_FAN_OUT schedule
    (map (broker_future fuel request) (description_nodes description)));
  by_broker ← lift_cmd (try_map (λ '(broker, listings),
    listings ← map_err (tx_failure LIST_CONTEXT) listings; Ok (broker, listings)) answers);
  pure (tx_listed by_broker).

(** ** [describe] *)

(** [topic_partitions]: [TopicPartition.toString] of each partition. *)
Definition tx_partitions (description : TransactionDescription) : list string :=
  map (λ '(topic, partition), topic +:+ "-" +:+ pretty partition) (tx_topic_partitions description).

(** How long a transaction has been running. *)
Definition tx_duration (checks : bool) (now_ms : Z) (description : TransactionDescription)
    : outcome (option Z) :=
  match tx_start_time_ms description with
  | None => Done None
  | Some start => duration ← sub_i64 checks now_ms start; Done (Some duration)
  end.

Definition or_none (value : option Z) : string := from_option pretty NONE_CELL value.

Definition description_row (description : TransactionDescription) (duration : option Z)
    : list string :=
  [pretty (tx_coordinator_id description); tx_transactional_id description;
   pretty (tx_producer_id description); pretty (tx_producer_epoch description);
   transaction_state (tx_state description); pretty (tx_timeout_ms description);
   or_none (tx_start_time_ms description); or_none duration;
   join "," (tx_partitions description)].

Definition description_json (description : TransactionDescription) (duration : option Z) : Value :=
  object_of [("coordinator_id", num (tx_coordinator_id description));
             ("transactional_id", Str (tx_transactional_id description));
             ("producer_id", num (tx_producer_id description));
             ("producer_epoch", num (tx_producer_epoch description));
             ("transaction_state", Str (transaction_state (tx_state description)));
             ("transaction_timeout_ms", num (tx_timeout_ms description));
             ("current_transaction_start_time_ms", opt_num (tx_start_time_ms description));
             ("transaction_duration_ms", opt_num duration);
             ("topic_partitions", strs (tx_partitions description))].

(** [described]. *)
Definition tx_described (checks : bool) (descriptions : list TransactionDescription) (now_ms : Z)
    : outcome CommandResult :=
  timed ← map_outcome (λ description,
    duration ← tx_duration checks now_ms description; Done (description, duration)) descriptions;
  Done (success
    (pretty_table DESCRIBE_HEADERS
      (map (λ '(description, duration), description_row description duration) timed))
    (Array (map (λ '(description, duration), description_json description duration) timed))).

Fixpoint describe_transactions (ids : list string) : cmd admin (list TransactionDescription) :=
  match ids with
  | [] => pure []
  | id :: ids =>
      description ← try_call ("Failed to describe transaction state of transactional-id `" +:+
        id +:+ "`") (send (DescribeTransaction id));
      descriptions ← describe_transactions ids;
      pure (description :: descriptions)
  end.

(** [DescribeArgs::run]. *)
Definition run_describe (checks : bool) (connection : ConnectionArgs) (ids : list string)
    : cmd admin CommandResult :=
  _ ← connect connection "transactions";
  descriptions ← describe_transactions ids;
  now ← now_ms;
  run_outcome (tx_described checks descriptions now).

(** ** The states of producers *)

Definition producer_row (state : ProducerStateInfo) : list string :=
  [pretty (ps_producer_id state); pretty (ps_producer_epoch state);
   pretty (ps_coordinator_epoch state); pretty (ps_last_sequence state);
   pretty (ps_last_timestamp_ms state); or_none (ps_current_txn_start_offset state)].

Definition producer_json (state : ProducerStateInfo) : Value :=
  object_of [("producer_id", num (ps_producer_id state));
             ("producer_epoch", num (ps_producer_epoch state));
             ("latest_coordinator_epoch", num (ps_coordinator_epoch state));
             ("last_sequence", num (ps_last_sequence state));
             ("last_timestamp", num (ps_last_timestamp_ms state));
             ("current_transaction_start_offset", opt_num (ps_current_txn_start_offset state))].

Definition producers_table (states : list ProducerStateInfo) : CommandResult :=
  success (pretty_table PRODUCERS_HEADERS (map producer_row states))
    (Array (map producer_json states)).

(** A negative coordinator epoch is absent, a negative start offset is no open
    transaction. *)
Definition normalized (state : ProducerStateInfo) : ProducerStateInfo :=
  {| ps_producer_id := ps_producer_id state; ps_producer_epoch := ps_producer_epoch state;
     ps_last_sequence := ps_last_sequence state;
     ps_last_timestamp_ms := ps_last_timestamp_ms state;
     ps_coordinator_epoch := Z.max (ps_coordinator_epoch state) (-1);
     ps_current_txn_start_offset :=
       offset ← ps_current_txn_start_offset state; if 0 <=? offset then Some offset else None |}.

(** The answers by partition. *)
Definition ProducerAnswers : Type :=
  list ((string * Z) * result CommandError (list ProducerStateInfo)).

(** One partition of the answer of a named broker. *)
Definition producer_answer (broker_id : Z) (topic : string) (partition : DescribeProducersPartition)
    : result CommandError (list ProducerStateInfo) :=
  let code := dp_error_code partition in
  if code =? 0 then Ok (dp_active_producers partition)
  else
    let message :=
      if code =? NOT_LEADER_OR_FOLLOWER
      then "Failed to describe active producers for partition " +:+ topic +:+ "-" +:+
           pretty (dp_partition_index partition) +:+ " on brokerId " +:+ pretty broker_id
      else default "" (dp_error_message partition) in
    Err (admin_error (BrokerError "DescribeProducers" code "UNKNOWN"
      (if bool_decide (message = "") then None else Some message))).

Definition producer_request (partitions : list (string * Z)) : list (string * list Z) :=
  foldl (λ topics '(topic, partition),
    bt_alter [] (λ indexes, indexes ++ [partition]) topic topics) [] partitions.

Definition producers_on_broker (broker_id : Z) (partitions : list (string * Z))
    : cmd admin ProducerAnswers :=
  cluster ← await (send (DescribeCluster false));
  description ← lift_cmd (map_err admin_error cluster);
  node ← lift (ok_or (find (λ node, node_id node =? broker_id) (description_nodes description))
    "Timed out waiting for a node assignment. Call: describeProducers");
  handle ← broker_connection node;
  sent ← await (send (SendDescribeProducers handle (producer_request partitions)));
  response ← lift_cmd (map_err (λ error, admin_error (Transport error)) sent);
  pure (bt_collect (response ≫= λ '(topic, partitions),
    map (λ partition, ((topic, dp_partition_index partition),
      producer_answer broker_id topic partition)) partitions)).

(** [PartitionFailure]: the partition and the cause. *)
Definition PartitionFailure : Type := (string * Z) * CommandError.

(** The loop over the partitions, in the order of the request; each answer is
    taken out of the map. *)
Fixpoint collect_states (partitions : list (string * Z)) (answers : ProducerAnswers)
    : result PartitionFailure (list ((string * Z) * list ProducerStateInfo)) :=
  match partitions with
  | [] => Ok []
  | key :: partitions =>
      found ← match bt_get key answers with
              | Some (Ok found) => Ok found
              | Some (Err cause) => Err (key, cause)
              | None =>
                  Err (key, Other ("the DescribeProducers response did not contain a result for partition " +:+
                    key.1 +:+ "-" +:+ pretty key.2))
              end;
      states ← collect_states partitions (bt_remove key answers);
      Ok ((key, map normalized found) :: states)
  end.

Definition producer_states (broker_id : option Z) (partitions : list (string * Z))
    : prog admin (result PartitionFailure (list ((string * Z) * list ProducerStateInfo))) :=
  match broker_id with
  | None =>
      prog_bind (λ answers, Halt (Done (collect_states partitions
        (bt_collect (map (λ '(key, result),
          (key, map_err (kafka_failure "DescribeProducers") result)) answers)))))
        (send (DescribeProducers partitions))
  | Some broker =>
      prog_bind (λ answer, Halt (Done
        (match answer with
         | Ok answers => collect_states partitions answers
         | Err cause => Err (default ("", 0) (head partitions), cause)
         end)))
        (producers_on_broker broker partitions)
  end.

(** [producer_states] with the cause of a failure in a context. *)
Definition producer_states_in (context : string) (broker_id : option Z)
    (partitions : list (string * Z)) : cmd admin (list ((string * Z) * list ProducerStateInfo)) :=
  prog_bind (λ r, Halt (Done (map_err (λ '(_, cause), tx_failure context cause) r)))
    (producer_states broker_id partitions).

(** [DescribeProducersArgs::run]. *)
Definition run_describe_producers (connection : ConnectionArgs) (args : TxDescribeProducersArgs)
    : cmd admin CommandResult :=
  let on := match dpa_broker_id args with
            | None => "leader"
            | Some broker => "broker " +:+ pretty broker
            end in
  _ ← connect connection "transactions";
  _ ← send (LoadOptions connection "transactions");
  states ← producer_states_in ("Failed to describe producers for partition " +:+ dpa_topic args +:+
      "-" +:+ pretty (dpa_partition args) +:+ " on " +:+ on)
    (dpa_broker_id args) [(dpa_topic args, dpa_partition args)];
  pure (producers_table (from_option snd [] (last states))).

(** ** [abort] *)

Definition abort_target (args : TxAbortArgs) : result string AbortTarget :=
  match aa_start_offset args with
  | Some start_offset => Ok (StartOffset start_offset)
  | None =>
      producer_id ← ok_or (aa_producer_id args)
        "The transaction to abort must be identified either with --start-offset (for brokers on 3.0 or above) or with --producer-id, --producer-epoch, and --coordinator-epoch (for older brokers)";
      producer_epoch ← ok_or (aa_producer_epoch args) "Missing required argument --producer-epoch";
      coordinator_epoch ← ok_or (aa_coordinator_epoch args)
        "Missing required argument --coordinator-epoch";
      Ok (Producer producer_id producer_epoch (Z.max coordinator_epoch 0))
  end.

Definition spec_string (spec : AbortTransactionSpec) : string :=
  "AbortTransactionSpec(topicPartition=" +:+ ab_topic spec +:+ "-" +:+ pretty (ab_partition spec) +:+
  ", producerId=" +:+ pretty (ab_producer_id spec) +:+ ", producerEpoch=" +:+
  pretty (ab_producer_epoch spec) +:+ ", coordinatorEpoch=" +:+ pretty (ab_coordinator_epoch spec) +:+ ")".

Definition is_open_at (start_offset : Z) (state : ProducerStateInfo) : bool :=
  bool_decide (ps_current_txn_start_offset state = Some start_offset).

(** The spec of an open transaction of a producer. *)
Definition spec_of (args : TxAbortArgs) (state : ProducerStateInfo) : AbortTransactionSpec :=
  {| ab_topic := aa_topic args; ab_partition := aa_partition args;
     ab_producer_id := ps_producer_id state;
     ab_producer_epoch := java_short (ps_producer_epoch state);
     ab_coordinator_epoch := Z.max (ps_coordinator_epoch state) 0 |}.

Definition spec_at (args : TxAbortArgs) (start_offset : Z) : cmd admin AbortTransactionSpec :=
  let partition := aa_topic args +:+ "-" +:+ pretty (aa_partition args) in
  let key := (aa_topic args, aa_partition args) in
  answers ← await (send (DescribeProducers [key]));
  states ← lift_cmd (map_err (λ error,
      tx_failure ("Failed to validate producer state for partition " +:+ partition)
        (kafka_failure "DescribeProducers" error))
    (default (Ok []) (bt_get key (bt_collect answers))));
  state ← lift (ok_or (find (is_open_at start_offset) (map normalized states))
    ("Could not find any open transactions starting at offset " +:+ pretty start_offset +:+
     " on partition " +:+ partition));
  pure (spec_of args state).

Definition abort_report (spec : AbortTransactionSpec) : CommandResult :=
  success [] (object_of [("topic", Str (ab_topic spec)); ("partition", num (ab_partition spec));
    ("producer_id", num (ab_producer_id spec)); ("producer_epoch", num (ab_producer_epoch spec));
    ("coordinator_epoch", num (ab_coordinator_epoch spec))]).

Definition abort_impact (spec : AbortTransactionSpec) : Impact :=
  {| summary := "abort 1 hanging transaction"; resources := [spec_string spec] |}.

(** [AbortArgs::run]. *)
Definition run_abort (connection : ConnectionArgs) (args : TxAbortArgs) : cmd admin CommandResult :=
  target ← lift (abort_target args);
  _ ← connect connection "transactions";
  spec ← match target with
         | Producer producer_id producer_epoch coordinator_epoch =>
             pure {| ab_topic := aa_topic args; ab_partition := aa_partition args;
                     ab_producer_id := producer_id; ab_producer_epoch := producer_epoch;
                     ab_coordinator_epoch := coordinator_epoch |}
         | StartOffset start_offset => spec_at args start_offset
         end;
  if dry_run_flag (aa_confirm args) then pure (into_dry_run (abort_report spec))
  else
    _ ← confirm (yes_flag (aa_confirm args)) "krabka transactions" (abort_impact spec);
    _ ← try_call ("Failed to abort transaction " +:+ spec_string spec) (send (AbortTransaction spec));
    pure (abort_report spec).

(** ** [find-hanging] *)

Definition check_hanging (args : TxFindHangingArgs) : result string unit :=
  if negb (is_some (fh_topic args)) && negb (is_some (fh_broker_id args)) then
    Err "The `find-hanging` command requires either --topic or --broker-id to limit the scope of the search"
  else if is_some (fh_partition args) && negb (is_some (fh_topic args)) then
    Err "The --partition argument requires --topic to be provided"
  else Ok tt.

(** The descriptions of one batch, each taken out of the answer. *)
Fixpoint batch_descriptions (size : nat) (names : list string)
    (described : list (string * result KafkaError TopicDescription))
    : result CommandError (list TopicDescription) :=
  match names with
  | [] => Ok []
  | name :: names =>
      let fail := tx_failure ("Failed to describe " +:+ pretty (Z.of_nat size) +:+ " topics") in
      description ← match bt_get name described with
                    | Some (Ok description) => Ok description
                    | Some (Err error) => Err (fail (kafka_failure "DescribeTopicPartitions" error))
                    | None => Err (fail (Other ("the answer did not describe topic " +:+ name)))
                    end;
      descriptions ← batch_descriptions size names (bt_remove name described);
      Ok (description :: descriptions)
  end.

(** Whether the search covers a partition: on [--broker-id] where it is given. *)
Definition searched (broker_id : option Z) (partition : PartitionDescription) : bool :=
  match broker_id with None => true | Some broker => bool_decide (broker ∈ pd_replicas partition) end.

Definition topic_search (broker_id : option Z) (description : TopicDescription) : list (string * Z) :=
  map (λ partition, (td_name description, pd_partition partition))
    (filter (λ partition, searched broker_id partition = true) (td_partitions description)).

Fixpoint search_batches (broker_id : option Z) (batches : list (list string))
    : cmd admin (list (string * Z)) :=
  match batches with
  | [] => pure []
  | batch :: batches =>
      answer ← await (send (DescribeTopics batch None));
      descriptions ← lift_cmd (batch_descriptions (length batch) batch (bt_collect answer));
      let descriptions := hash_order descriptions (WithCapacity (Z.of_nat (length batch)))
        (λ description, string_hash (td_name description)) in
      rest ← search_batches broker_id batches;
      pure ((descriptions ≫= topic_search broker_id) ++ rest)
  end.

Definition partitions_to_search (args : TxFindHangingArgs) : cmd admin (list (string * Z)) :=
  match fh_topic args, fh_partition args with
  | Some topic, Some partition => pure [(topic, partition)]
  | Some topic, None => search_batches (fh_broker_id args) (chunks MAX_BATCH_SIZE [topic])
  | None, _ =>
      listed ← try_call "Failed to list topics" (send (ListTopics true));
      search_batches (fh_broker_id args)
        (chunks MAX_BATCH_SIZE (hash_order listed Default string_hash))
  end.

(** An open transaction that the search found on a partition. *)
Record OpenTransaction := { ot_partition : string * Z; ot_state : ProducerStateInfo }.

(** Whether a state has an open transaction whose last write is older than the
    timeout; the difference is taken only for an open one. *)
Definition is_old (checks : bool) (now_ms max_timeout_ms : Z) (state : ProducerStateInfo)
    : outcome bool :=
  match ps_current_txn_start_offset state with
  | None => Done false
  | Some _ => age ← sub_i64 checks now_ms (ps_last_timestamp_ms state); Done (max_timeout_ms <? age)
  end.

Fixpoint filter_outcome {A} (f : A → outcome bool) (l : list A) : outcome (list A) :=
  match l with
  | [] => Done []
  | x :: l => keep ← f x; kept ← filter_outcome f l; Done (if keep : bool then x :: kept else kept)
  end.

Definition open_candidates (checks : bool) (states : list ((string * Z) * list ProducerStateInfo))
    (batch_len : nat) (now_ms max_timeout_ms : Z) : outcome (list OpenTransaction) :=
  let states := hash_order states (WithCapacity (Z.of_nat batch_len))
    (λ entry, topic_partition_hash entry.1.1 entry.1.2) in
  found ← map_outcome (λ '(partition, states),
    old ← filter_outcome (is_old checks now_ms max_timeout_ms) states;
    Done (map (λ state, {| ot_partition := partition; ot_state := state |}) old)) states;
  Done (concat found).

(** The groups of [group_by_producer]: a candidate joins the group of its
    producer, or starts one. *)
Fixpoint push_candidate (candidate : OpenTransaction) (groups : list (Z * list OpenTransaction))
    : list (Z * list OpenTransaction) :=
  match groups with
  | [] => [(ps_producer_id (ot_state candidate), [candidate])]
  | (producer, group) :: groups =>
      if producer =? ps_producer_id (ot_state candidate)
      then (producer, group ++ [candidate]) :: groups
      else (producer, group) :: push_candidate candidate groups
  end.

Definition group_by_producer (candidates : list OpenTransaction) : list (Z * list OpenTransaction) :=
  hash_order (foldl (λ groups candidate, push_candidate candidate groups) [] candidates)
    Default (λ entry, long_hash entry.1).

(** The transactional ids of the producers, the last listing of each. *)
Definition ids_of_producers (producer_ids : list Z) (listings : list TransactionListing)
    : list (Z * string) :=
  bt_collect (map (λ listing, (tl_producer_id listing, tl_transactional_id listing))
    (filter (λ listing, tl_producer_id listing ∈ producer_ids) listings)).

(** The description of a producer's transaction, where the coordinator has it. *)
Definition description_of (transactional_ids : list (Z * string))
    (descriptions : list (string * option TransactionDescription)) (producer_id : Z)
    : option TransactionDescription :=
  id ← bt_get producer_id transactional_ids; known ← bt_get id descriptions; known.

Definition hanging_transactions (by_producer : list (Z * list OpenTransaction))
    (transactional_ids : list (Z * string))
    (descriptions : list (string * option TransactionDescription)) : list OpenTransaction :=
  by_producer ≫= λ '(producer_id, opened),
    match description_of transactional_ids descriptions producer_id with
    | None => opened
    | Some description =>
        filter (λ candidate, ot_partition candidate ∉ tx_topic_partitions description) opened
    end.

Definition start_offset_of (candidate : OpenTransaction) : Z :=
  default (-1) (ps_current_txn_start_offset (ot_state candidate)).

Definition hanging_row (candidate : OpenTransaction) (minutes : Z) : list string :=
  let state := ot_state candidate in
  [(ot_partition candidate).1; pretty (ot_partition candidate).2; pretty (ps_producer_id state);
   pretty (ps_producer_epoch state); pretty (ps_coordinator_epoch state);
   pretty (start_offset_of candidate); pretty (ps_last_timestamp_ms state); pretty minutes].

Definition hanging_json (candidate : OpenTransaction) (minutes : Z) : Value :=
  let state := ot_state candidate in
  object_of [("topic", Str (ot_partition candidate).1);
             ("partition", num (ot_partition candidate).2);
             ("producer_id", num (ps_producer_id state));
             ("producer_epoch", num (ps_producer_epoch state));
             ("coordinator_epoch", num (ps_coordinator_epoch state));
             ("start_offset", num (start_offset_of candidate));
             ("last_timestamp", num (ps_last_timestamp_ms state)); ("duration_min", num minutes)].

Definition hanging_table (checks : bool) (hanging : list OpenTransaction) (now_ms : Z)
    : outcome CommandResult :=
  timed ← map_outcome (λ candidate,
    age ← sub_i64 checks now_ms (ps_last_timestamp_ms (ot_state candidate));
    Done (candidate, Z.quot age 60000)) hanging;
  Done (success
    (pretty_table HANGING_HEADERS (map (λ '(candidate, minutes), hanging_row candidate minutes) timed))
    (Array (map (λ '(candidate, minutes), hanging_json candidate minutes) timed))).

(** Java's [Optional.toString]. *)
Definition java_optional (value : option Z) : string :=
  match value with None => "Optional.empty" | Some value => "Optional[" +:+ pretty value +:+ "]" end.

Fixpoint search_candidates (checks : bool) (args : TxFindHangingArgs) (max_timeout_ms : Z)
    (batches : list (list (string * Z))) : cmd admin (list OpenTransaction) :=
  match batches with
  | [] => pure []
  | batch :: batches =>
      states ← producer_states_in ("Failed to describe producers for " +:+
          pretty (Z.of_nat (length batch)) +:+ " partitions on broker " +:+
          java_optional (fh_broker_id args)) (fh_broker_id args) batch;
      now ← now_ms;
      found ← run_outcome (open_candidates checks states (length batch) now max_timeout_ms);
      rest ← search_candidates checks args max_timeout_ms batches;
      pure (found ++ rest)
  end.

(** The loop over the transactional ids: one request for each that is not
    described yet. *)
Fixpoint describe_ids (count : nat) (ids : list string)
    (descriptions : list (string * option TransactionDescription))
    : cmd admin (list (string * option TransactionDescription)) :=
  match ids with
  | [] => pure descriptions
  | id :: ids =>
      if bt_contains id descriptions then describe_ids count ids descriptions
      else
        answer ← await (send (DescribeTransaction id));
        description ← lift_cmd
          match answer with
          | Ok description => Ok (Some description)
          | Err error =>
              let failed := Err (tx_failure ("Failed to describe " +:+ pretty (Z.of_nat count) +:+
                " transactions") (admin_error error)) in
              match error with
              | BrokerError _ code _ _ => if code =? TRANSACTIONAL_ID_NOT_FOUND then Ok None else failed
              | _ => failed
              end
          end;
        describe_ids count ids (bt_insert id description descriptions)
  end.

(** [FindHangingArgs::run]. *)
Definition run_find_hanging (checks : bool) (connection : ConnectionArgs) (args : TxFindHangingArgs)
    : cmd admin CommandResult :=
  _ ← lift (check_hanging args);
  let max_timeout_ms := fh_max_transaction_timeout args * 60000 in
  _ ← connect connection "transactions";
  _ ← send (LoadOptions connection "transactions");
  partitions ← partitions_to_search args;
  candidates ← search_candidates checks args max_timeout_ms (chunks MAX_BATCH_SIZE partitions);
  if bool_decide (map ot_partition candidates = []) then
    now ← now_ms; run_outcome (hanging_table checks [] now)
  else
    let by_producer := group_by_producer candidates in
    let producer_ids := by_producer.*1 in
    listings ← try_call ("Failed to list transactions for " +:+
      pretty (Z.of_nat (length producer_ids)) +:+ " producers") (send (ListTransactions producer_ids));
    let transactional_ids := ids_of_producers producer_ids listings in
    descriptions ← describe_ids (length transactional_ids) transactional_ids.*2 [];
    now ← now_ms;
    run_outcome (hanging_table checks
      (hanging_transactions by_producer transactional_ids descriptions) now).

(** ** [forceTerminateTransaction] *)

Definition terminate_impact (id : string) : Impact :=
  {| summary := "force-terminate the transaction of 1 transactional id"; resources := [id] |}.

(** [ForceTerminateArgs::run]. *)
Definition run_force_terminate (connection : ConnectionArgs) (id : string) (safety : ConfirmArgs)
    : cmd admin CommandResult :=
  let report := success [] (object_of [("transactional_id", Str id)]) in
  if dry_run_flag safety then
    _ ← connect connection "transactions"; pure (into_dry_run report)
  else
    _ ← confirm (yes_flag safety) "krabka transactions" (terminate_impact id);
    _ ← connect connection "transactions";
    _ ← try_call ("Failed to force terminate transactionalId `" +:+ id +:+ "`")
      (send (ForceTerminateTransaction id));
    pure report.

(** ** The command *)

Section Command.
(** Whether the build checks overflow, the turns that a loading coordinator is
    asked, and the order in which the brokers of [list] answer. *)
Context (checks : bool) (fuel : nat) (schedule : list nat).

(** [TransactionsArgs::run]. *)
Definition transactions_run (args : TransactionsArgs) : cmd admin CommandResult :=
  let connection := txa_connection args in
  match txa_command args with
  | TxList args => run_list fuel schedule connection args
  | TxDescribe ids => run_describe checks connection ids
  | TxDescribeProducers args => run_describe_producers connection args
  | TxAbort args => run_abort connection args
  | TxFindHanging args => run_find_hanging checks connection args
  | TxForceTerminate id safety => run_force_terminate connection id safety
  end.
End Command.

(** ** Cases of the sources' tests *)

Example table_pads :
  pretty_table ["A"; "Long"] [["wide cell"; "x"]; [String "195" (String "169" ""); ""]] =
  ["A        " +:+ cell_tab +:+ "Long" +:+ cell_tab; "wide cell" +:+ cell_tab +:+ "x   " +:+ cell_tab;
   String "195" (String "169" "        ") +:+ cell_tab +:+ "    " +:+ cell_tab].
Proof. vm_compute. reflexivity. Qed.

Definition abort_flags (start producer producer_epoch coordinator_epoch : option Z) : TxAbortArgs :=
  {| aa_topic := "t"; aa_partition := 0; aa_start_offset := start; aa_producer_id := producer;
     aa_producer_epoch := producer_epoch; aa_coordinator_epoch := coordinator_epoch;
     aa_confirm := {| dry_run_flag := false; yes_flag := false |} |}.

Example abort_targets :
  [abort_target (abort_flags (Some 42) None None None);
   abort_target (abort_flags (Some 42) (Some 5) None None);
   abort_target (abort_flags None (Some 5) None None);
   abort_target (abort_flags None (Some 5) (Some 1) None);
   abort_target (abort_flags None (Some 5) (Some 1) (Some (-1)))] =
  [Ok (StartOffset 42); Ok (StartOffset 42);
   Err "Missing required argument --producer-epoch";
   Err "Missing required argument --coordinator-epoch"; Ok (Producer 5 1 0)].
Proof. reflexivity. Qed.

Example long_hashes : map long_hash [0; 1; -1; 4294967296; 1099511627776] = [0; 1; 0; 1; 256].
Proof. reflexivity. Qed.

Example short_casts : map java_short [3; 65535; 32768; -32769] = [3; -1; -32768; 32767].
Proof. reflexivity. Qed.

(** ** Tables *)

Definition table_cell (column : nat) (cell : string) : string :=
  cell +:+ spaces (column - utf16_width cell) +:+ cell_tab.

Lemma table_line_cells widths cells :
  table_line widths cells = foldr (λ '(column, cell) line, table_cell column cell +:+ line) ""
    (zip widths cells).
Proof.
  revert cells. induction widths as [|column widths IH]; intros [|cell cells]; cbn; try done.
  rewrite IH. unfold table_cell. by rewrite !str_app_assoc.
Qed.

(** Columns only grow, and end up as wide as each of their cells. *)
Lemma widen_spec widths row i w :
  widths !! i = Some w →
  widen widths row !! i = Some (from_option (λ cell, Nat.max w (utf16_width cell)) w (row !! i)).
Proof.
  revert row i. induction widths as [|column widths IH]; intros [|cell row] [|i]; cbn; try done.
  - by intros [= ->].
  - apply IH.
Qed.

Definition column_width (header : string) (cells : list string) : nat :=
  foldl Nat.max (utf16_width header) (map utf16_width cells).

Lemma table_widths_spec (rows : list (list string)) widths i w :
  widths !! i = Some w →
  foldl widen widths rows !! i = Some (foldl Nat.max w (map utf16_width (omap (.!! i) rows))).
Proof.
  revert widths w. induction rows as [|row rows IH]; intros widths w Hw; [done|].
  cbn [foldl omap list_omap]. apply (widen_spec _ row) in Hw. rewrite (IH _ _ Hw).
  by destruct (row !! i).
Qed.

Lemma foldl_max_le (l : list nat) w : (w ≤ foldl Nat.max w l)%nat ∧ Forall (λ x, x ≤ foldl Nat.max w l)%nat l.
Proof.
  revert w. induction l as [|x l IH]; intros w; cbn; [by split|].
  destruct (IH (Nat.max w x)) as [H1 H2]. split; [lia|]. constructor; [lia|done].
Qed.

Lemma foldl_max_in (l : list nat) w : foldl Nat.max w l = w ∨ foldl Nat.max w l ∈ l.
Proof.
  revert w. induction l as [|x l IH]; intros w; cbn; [by left|].
  destruct (IH (Nat.max w x)) as [->|Hin]; [|right; by right].
  destruct (Nat.max_spec w x) as [[_ ->]|[_ ->]]; [right; by left|by left].
Qed.

(** Every cell fits its column: no pad underflows. *)
Lemma table_fits headers rows i row cell :
  row ∈ headers :: rows → row !! i = Some cell → (i < length headers)%nat →
  ∃ w, table_widths headers rows !! i = Some w ∧ (utf16_width cell ≤ w)%nat.
Proof.
  intros Hrow Hcell Hi. destruct (lookup_lt_is_Some_2 headers i Hi) as [header Hh].
  exists (column_width header (omap (.!! i) rows)). unfold table_widths. split.
  { rewrite (table_widths_spec rows _ i (utf16_width header)); [done|].
    by rewrite list_lookup_fmap, Hh. }
  unfold column_width. destruct (foldl_max_le (map utf16_width (omap (.!! i) rows)) (utf16_width header))
    as [H1 H2]. apply elem_of_cons in Hrow as [->|Hin]; [by simplify_eq|].
  apply (proj1 (Forall_forall _ _) H2). apply list_elem_of_fmap. exists cell. split; [done|].
  apply list_elem_of_omap. by exists row.
Qed.

(** Every line of a table is its cells, each padded to the width of its column
    and followed by a tab; a column is as wide as its widest cell, the header
    included, and no wider. *)
Lemma pretty_table_columns headers rows :
  ∃ widths, length widths = length headers ∧
    pretty_table headers rows =
      map (λ cells, foldr (λ '(column, cell) line, table_cell column cell +:+ line) ""
        (zip widths cells)) (headers :: rows) ∧
    ∀ i w, widths !! i = Some w →
      (∀ row cell, row ∈ headers :: rows → row !! i = Some cell → (utf16_width cell ≤ w)%nat) ∧
      ∃ row cell, row ∈ headers :: rows ∧ row !! i = Some cell ∧ utf16_width cell = w.
Proof.
  exists (table_widths headers rows).
  assert (length (table_widths headers rows) = length headers) as Hl.
  { unfold table_widths. rewrite <-(length_map utf16_width headers).
    generalize (map utf16_width headers). induction rows as [|row rows IH]; intros widths; [done|].
    cbn. rewrite IH. clear. revert row. induction widths; intros [|cell row]; cbn; auto. }
  split; [done|]. split.
  { unfold pretty_table. cbn [map]. rewrite table_line_cells. f_equal. apply map_ext.
    intros cells. apply table_line_cells. }
  intros i w Hw. assert (i < length headers)%nat as Hi by (apply lookup_lt_Some in Hw; lia). split.
  - intros row cell Hrow Hcell. destruct (table_fits headers rows i row cell Hrow Hcell Hi) as (w' & Hw' & ?).
    by simplify_eq.
  - destruct (lookup_lt_is_Some_2 headers i Hi) as [header Hh]. unfold table_widths in Hw.
    rewrite (table_widths_spec rows _ i (utf16_width header)) in Hw by (by rewrite list_lookup_fmap, Hh).
    injection Hw as <-. destruct (foldl_max_in (map utf16_width (omap (.!! i) rows)) (utf16_width header))
      as [->|Hin]; [exists headers, header; split_and!; [by left|done..]|].
    apply list_elem_of_fmap in Hin as (cell & Hc & Hin). apply list_elem_of_omap in Hin as (row & Hrow & Hcell).
    exists row, cell. split_and!; [by right|done..].
Qed.

(** ** [find-hanging] *)

(** An open transaction whose last write is older than the timeout. *)
Definition old_transaction (now max_timeout : Z) (candidate : OpenTransaction) : Prop :=
  is_Some (ps_current_txn_start_offset (ot_state candidate)) ∧
  max_timeout < now - ps_last_timestamp_ms (ot_state candidate).
#[export] Instance old_transaction_dec now max_timeout candidate :
  Decision (old_transaction now max_timeout candidate).
Proof. unfold old_transaction. apply _. Defined.

(** The coordinator does not hold the transaction open on that partition. *)
Definition forgotten (transactional_ids : list (Z * string))
    (descriptions : list (string * option TransactionDescription)) (candidate : OpenTransaction) : Prop :=
  match bt_get (ps_producer_id (ot_state candidate)) transactional_ids with
  | None => True
  | Some id =>
      match bt_get id descriptions with
      | Some (Some description) => ot_partition candidate ∉ tx_topic_partitions description
      | _ => True
      end
  end.
#[export] Instance forgotten_dec ids descriptions candidate :
  Decision (forgotten ids descriptions candidate).
Proof.
  unfold forgotten. destruct (bt_get _ _) as [id|]; [|apply _].
  destruct (bt_get id descriptions) as [[description|]|]; apply _.
Defined.

Lemma forgotten_spec ids descriptions candidate :
  forgotten ids descriptions candidate ↔
  match description_of ids descriptions (ps_producer_id (ot_state candidate)) with
  | None => True
  | Some description => ot_partition candidate ∉ tx_topic_partitions description
  end.
Proof.
  unfold forgotten, description_of. destruct (bt_get _ ids) as [id|]; [|done]. cbn.
  by destruct (bt_get id descriptions) as [[description|]|].
Qed.

(** The states of the search, each on its partition. *)
Definition on_partitions (states : list ((string * Z) * list ProducerStateInfo)) : list OpenTransaction :=
  states ≫= λ '(partition, states), map (Build_OpenTransaction partition) states.

Lemma filter_outcome_spec {A} (f : A → outcome bool) (P : A → Prop) `{∀ x, Decision (P x)} l :
  Forall (λ x, f x = Done (bool_decide (P x))) l → filter_outcome f l = Done (filter P l).
Proof.
  induction 1 as [|x l Hx _ IH]; [done|]. cbn [filter_outcome]. rewrite Hx, IH, filter_cons. cbn.
  by case_bool_decide; [rewrite decide_True|rewrite decide_False].
Qed.

Lemma is_old_fits checks now max_timeout partition state :
  in_signed 64 (now - ps_last_timestamp_ms state) →
  is_old checks now max_timeout state =
    Done (bool_decide (old_transaction now max_timeout (Build_OpenTransaction partition state))).
Proof.
  intros Hs. unfold is_old. destruct (ps_current_txn_start_offset state) as [offset|] eqn:E.
  - rewrite sub_i64_fits by done. cbn [mbind outcome_bind]. f_equal. apply eq_true_iff_eq.
    rewrite bool_decide_eq_true, Z.ltb_lt. unfold old_transaction. cbn [ot_state]. rewrite E.
    split; [by split|by intros [_ ?]].
  - f_equal. symmetry. apply bool_decide_eq_false. unfold old_transaction. cbn [ot_state]. rewrite E.
    by intros [[? ?] _].
Qed.

Lemma filter_outcome_old checks now max_timeout partition states :
  Forall (λ state, in_signed 64 (now - ps_last_timestamp_ms state)) states →
  ∃ old, filter_outcome (is_old checks now max_timeout) states = Done old ∧
    map (Build_OpenTransaction partition) old =
      filter (old_transaction now max_timeout) (map (Build_OpenTransaction partition) states).
Proof.
  intros Hf. exists (filter (λ state, old_transaction now max_timeout (Build_OpenTransaction partition state))
    states). split.
  2:{ clear Hf. induction states as [|state states IH]; [done|]. cbn [map]. rewrite !filter_cons.
      case_decide; cbn [map]; by rewrite IH. }
  apply filter_outcome_spec. eapply Forall_impl; [exact Hf|]. intros state. apply is_old_fits.
Qed.

Lemma open_candidates_spec checks states n now max_timeout :
  Forall (λ entry, Forall (λ state, in_signed 64 (now - ps_last_timestamp_ms state)) entry.2) states →
  ∃ candidates, open_candidates checks states n now max_timeout = Done candidates ∧
    candidates ≡ₚ filter (old_transaction now max_timeout) (on_partitions states).
Proof.
  intros Hf. unfold open_candidates.
  set (ordered := hash_order states _ _). assert (ordered ≡ₚ states) as Hp by apply hash_order_perm.
  clearbody ordered.
  assert (on_partitions ordered ≡ₚ on_partitions states) as Hon by (apply bind_Permutation; exact Hp).
  setoid_rewrite <-Hon. rewrite <-Hp in Hf. clear Hp Hon. induction Hf as [|[partition l] rest Hl _ (candidates & Hc & Hperm)];
    [by exists []|].
  destruct (filter_outcome_old checks now max_timeout partition l Hl) as (old & Hold & Hmap).
  cbn [map_outcome on_partitions mbind list_bind]. rewrite Hold. cbn [mbind outcome_bind] in Hc |- *.
  destruct (map_outcome _ rest) as [found| |]; try done. injection Hc as <-. eexists.
  split; [reflexivity|]. cbn [concat]. rewrite filter_app, <-Hmap. by rewrite Hperm.
Qed.

Lemma push_candidate_perm candidate groups :
  concat (push_candidate candidate groups).*2 ≡ₚ candidate :: concat groups.*2.
Proof.
  induction groups as [|[producer group] groups IH]; [done|]. cbn [push_candidate].
  destruct (producer =? _); cbn.
  - rewrite <-app_assoc. cbn. by rewrite <-Permutation_middle.
  - rewrite IH. by rewrite <-Permutation_middle.
Qed.

(** A group holds the candidates of its producer. *)
Definition grouped (groups : list (Z * list OpenTransaction)) : Prop :=
  Forall (λ entry, Forall (λ candidate, ps_producer_id (ot_state candidate) = entry.1) entry.2) groups.

Lemma push_candidate_grouped candidate groups :
  grouped groups → grouped (push_candidate candidate groups).
Proof.
  induction 1 as [|[producer group] groups Hg Hgs IH]; cbn [push_candidate].
  - repeat constructor.
  - destruct (Z.eqb_spec producer (ps_producer_id (ot_state candidate))) as [Hp|Hp]; constructor; try done.
    apply Forall_app_2; [done|]. by repeat constructor.
Qed.

Lemma group_by_producer_spec candidates :
  concat (group_by_producer candidates).*2 ≡ₚ candidates ∧ grouped (group_by_producer candidates).
Proof.
  unfold group_by_producer, grouped. rewrite hash_order_perm.
  assert (∀ groups, grouped groups →
    let groups' := foldl (λ groups candidate, push_candidate candidate groups) groups candidates in
    concat groups'.*2 ≡ₚ concat groups.*2 ++ candidates ∧ grouped groups') as H.
  { induction candidates as [|candidate candidates IH]; intros groups Hg; cbn; [by rewrite app_nil_r|].
    destruct (IH _ (push_candidate_grouped candidate _ Hg)) as [Hp Hg']. split; [|done].
    rewrite Hp, push_candidate_perm. cbn. by rewrite Permutation_middle. }
  destruct (H [] (Forall_nil_2 _)) as [Hp Hg]. by split.
Qed.

Lemma hanging_filter groups ids descriptions :
  grouped groups →
  hanging_transactions groups ids descriptions = filter (forgotten ids descriptions) (concat groups.*2).
Proof.
  induction 1 as [|[producer group] groups Hg _ IH]; [done|].
  unfold hanging_transactions in IH |- *. rewrite bind_cons, IH. cbn [fmap list_fmap concat snd].
  rewrite filter_app. f_equal. cbn in Hg.
  destruct (description_of ids descriptions producer) as [description|] eqn:E.
  - induction Hg as [|candidate group Hc _ IHg]; [done|]. rewrite !filter_cons, IHg.
    assert (forgotten ids descriptions candidate ↔ ot_partition candidate ∉ tx_topic_partitions description)
      as Hiff by (by rewrite forgotten_spec, Hc, E).
    by rewrite (decide_ext _ _ _ _ Hiff).
  - induction Hg as [|candidate group Hc _ IHg]; [done|]. rewrite filter_cons, <-IHg.
    rewrite decide_True; [done|]. by rewrite forgotten_spec, Hc, E.
Qed.

(** [find-hanging] reports exactly the hanging transactions: from the states
    of the searched partitions, and whatever the clock reads as long as the age of
    a write fits an [i64], it reports every producer state with an open
    transaction whose last write is older than the timeout, and that no
    transactional id, no known coordinator or no transaction on that partition
    accounts for; each once, and nothing else. *)
Theorem hanging_spec (checks : bool) (states : list ((string * Z) * list ProducerStateInfo))
    (n : nat) (now max_timeout : Z) (ids : list (Z * string))
    (descriptions : list (string * option TransactionDescription)) :
  Forall (λ entry, Forall (λ state, in_signed 64 (now - ps_last_timestamp_ms state)) entry.2) states →
  ∃ candidates, open_candidates checks states n now max_timeout = Done candidates ∧
    hanging_transactions (group_by_producer candidates) ids descriptions ≡ₚ
      filter (λ candidate, old_transaction now max_timeout candidate ∧ forgotten ids descriptions candidate)
        (on_partitions states).
Proof.
  intros Hf. destruct (open_candidates_spec checks states n now max_timeout Hf) as (candidates & Hc & Hp).
  exists candidates. split; [done|]. destruct (group_by_producer_spec candidates) as [Hperm Hg].
  rewrite hanging_filter by done. rewrite Hperm, Hp, list_filter_filter.
  apply reflexive_eq, list_filter_iff. intros candidate. tauto.
Qed.

(** ** The commands that only read *)

Lemma harmless_try_call {A} context (p : prog admin (result AdminError A)) :
  harmless p → harmless (try_call context p).
Proof. intros Hp. by apply harmless_prog_bind. Qed.
#[export] Hint Resolve harmless_try_call : krabka.

Lemma harmless_now_ms : harmless now_ms.
Proof. unfold now_ms. harmless. Qed.
#[export] Hint Resolve harmless_now_ms : krabka.

Lemma harmless_broker_connection node : harmless (broker_connection node).
Proof. unfold broker_connection. harmless. Qed.
#[export] Hint Resolve harmless_broker_connection : krabka.

Lemma harmless_ask_transactions fuel handle request : harmless (ask_transactions fuel handle request).
Proof. induction fuel as [|fuel IH]; [done|]. cbn [ask_transactions]. harmless. Qed.
#[export] Hint Resolve harmless_ask_transactions : krabka.

Lemma harmless_list_on_broker fuel node request : harmless (list_on_broker fuel node request).
Proof. unfold list_on_broker. harmless. Qed.
#[export] Hint Resolve harmless_list_on_broker : krabka.

Lemma harmless_broker_futures fuel schedule request nodes :
  harmless (interleave BROKER_FAN_OUT schedule (map (broker_future fuel request) nodes)).
Proof.
  apply harmless_interleave. intros p Hp. apply list_elem_of_fmap in Hp as (node & -> & _).
  unfold broker_future. harmless.
Qed.
#[export] Hint Resolve harmless_broker_futures : krabka.

Lemma harmless_run_list fuel schedule connection args : harmless (run_list fuel schedule connection args).
Proof. unfold run_list. harmless. Qed.

Lemma harmless_describe_each ids : harmless (describe_transactions ids).
Proof. induction ids as [|id ids IH]; [done|]. cbn [describe_transactions]. harmless. Qed.
#[export] Hint Resolve harmless_describe_each : krabka.

Lemma harmless_producer_states broker_id partitions : harmless (producer_states broker_id partitions).
Proof. unfold producer_states, producers_on_broker. harmless. Qed.
#[export] Hint Resolve harmless_producer_states : krabka.

Lemma harmless_producer_states_in context broker_id partitions :
  harmless (producer_states_in context broker_id partitions).
Proof. unfold producer_states_in. harmless. Qed.
#[export] Hint Resolve harmless_producer_states_in : krabka.

Lemma harmless_search_batches broker_id batches : harmless (search_batches broker_id batches).
Proof. induction batches as [|batch batches IH]; [done|]. cbn [search_batches]. harmless. Qed.
#[export] Hint Resolve harmless_search_batches : krabka.

Lemma harmless_search_candidates checks args max_timeout batches :
  harmless (search_candidates checks args max_timeout batches).
Proof. induction batches as [|batch batches IH]; [done|]. cbn [search_candidates]. harmless. Qed.
#[export] Hint Resolve harmless_search_candidates : krabka.

Lemma harmless_describe_ids count ids descriptions : harmless (describe_ids count ids descriptions).
Proof.
  revert descriptions. induction ids as [|id ids IH]; intros descriptions; [done|].
  cbn [describe_ids]. harmless.
Qed.
#[export] Hint Resolve harmless_describe_ids : krabka.

Lemma harmless_run_find_hanging checks connection args : harmless (run_find_hanging checks connection args).
Proof. unfold run_find_hanging, partitions_to_search. harmless. Qed.

Lemma harmless_spec_at args start_offset : harmless (spec_at args start_offset).
Proof. unfold spec_at. harmless. Qed.
#[export] Hint Resolve harmless_spec_at : krabka.

#[export] Hint Resolve harmless_run_list harmless_run_find_hanging : krabka.

(** ** [list], whatever the schedule *)

Lemma trace_await {A} (p : prog admin A) log o :
  trace (await p) log o → ∃ o', trace p log o' ∧
    o = match o' with Done a => Done (Ok a) | Panic => Panic | Timeout => Timeout end.
Proof.
  intros (log1 & o1 & H1 & H2)%trace_bind_inv. exists o1. destruct o1.
  - destruct H2 as (log2 & -> & -> & ->). by rewrite app_nil_r.
  - by destruct H2 as [-> ->].
  - by destruct H2 as [-> ->].
Qed.

Lemma trace_broker_future fuel request node log answer :
  trace (broker_future fuel request node) log (Done answer) →
  answer.1 = node_id node ∧ trace (list_on_broker fuel node request) log (Done answer.2).
Proof.
  intros (log1 & [listings| |] & H1 & H2)%trace_bind_inv; [|by destruct H2..].
  destruct H2 as (log2 & -> & -> & [= ->]). by rewrite app_nil_r.
Qed.

(** What the loop over the answers keeps of each. *)
Definition kept_listing (entry : Z * result CommandError (list TransactionListing))
    : result CommandError (Z * list TransactionListing) :=
  let '(broker, listings) := entry in
  listings ← map_err (tx_failure LIST_CONTEXT) listings; Ok (broker, listings).

Lemma kept_conversations fuel request nodes own answers by_broker :
  Forall2 (λ p entry, trace p entry.1 (Done entry.2)) (map (broker_future fuel request) nodes)
    (zip own answers) → length own = length answers →
  Forall2 (λ entry kept, kept_listing entry = Ok kept) answers by_broker →
  by_broker.*1 = map node_id nodes ∧
  Forall2 (λ node l, trace (list_on_broker fuel node request) l.1 (Done (Ok l.2))) nodes
    (zip own by_broker.*2).
Proof.
  revert own answers by_broker. induction nodes as [|node nodes IH]; intros own answers by_broker HF Hl Hk.
  { destruct own, answers; try done; inversion HF. inversion Hk. by split. }
  cbn [map] in HF. destruct own as [|log own], answers as [|[broker listings] answers]; try by inversion HF.
  inversion Hk as [|? kept ? by_broker' Hkept Hks]; subst. inversion HF as [|? ? ? ? Ht HFs]; subst.
  apply trace_broker_future in Ht as [Hb Ht]. cbn in Hb, Ht, Hl. injection Hl as Hl. subst broker.
  destruct listings as [listings|e]; [|done]. injection Hkept as <-.
  destruct (IH own answers by_broker' HFs Hl Hks) as [E1 E2]. split; [cbn; by f_equal|]. by constructor.
Qed.

(** C30. [list] asks its brokers concurrently, and its table does not depend on the
    order in which they answer: for every schedule, when the command succeeds,
    there is for every broker that the cluster described a conversation of its
    own, in its order among the requests of the run, that listed its
    transactions; and the table is the one of these listings in the order of the
    brokers. The run sends nothing to a broker besides these conversations. *)
Theorem list_conversations (fuel : nat) (schedule : list nat) (connection : ConnectionArgs)
    (args : TxListArgs) (log : list (event admin)) (r : CommandResult) :
  trace (run_list fuel schedule connection args) log (Done (Ok r)) →
  ∃ description start own by_broker,
    log ≡ₚ start ++ concat own ∧ Forall (λ l, l `sublist_of` log) own ∧
    map (λ e, projT1 e) start =
      [Connect connection "transactions"; LoadOptions connection "transactions"; DescribeCluster false] ∧
    (existT (DescribeCluster false : call admin) (Ok description) : event admin) ∈ start ∧
    by_broker.*1 = map node_id (description_nodes description) ∧
    Forall2 (λ node l, trace (list_on_broker fuel node (list_request args)) l.1 (Done (Ok l.2)))
      (description_nodes description) (zip own by_broker.*2) ∧
    r = tx_listed by_broker.
Proof.
  unfold run_list. intros (u1 & log1 & rest1 & -> & H1 & Ht)%trace_ok_bind_inv.
  apply trace_ok_bind_inv in Ht as (u2 & log2 & rest2 & -> & H2 & Ht).
  apply trace_ok_bind_inv in Ht as (description & log3 & rest3 & -> & H3 & Ht).
  apply trace_ok_bind_inv in Ht as (answers & log4 & rest4 & -> & H4 & Ht).
  apply trace_ok_bind_inv in Ht as (by_broker & log5 & rest5 & -> & H5 & Ht).
  destruct H5 as [-> E5]. destruct Ht as [-> [= ->]]. rewrite !app_nil_r.
  apply trace_await in H4 as ([answers'| |] & H4 & E4); simplify_eq.
  apply trace_interleave in H4 as (own & [HF Hl] & Hperm & Hsub).
  destruct H1 as (a1 & l1 & -> & -> & _). destruct H2 as (a2 & l2 & -> & -> & _).
  destruct H3 as ([a3|e3] & l3 & -> & -> & E3); [|done]. injection E3 as ->.
  symmetry in E5. apply try_map_Ok in E5.
  destruct (kept_conversations _ _ _ _ _ _ HF Hl E5) as [Hids Htraces].
  set (start := [existT (Connect connection "transactions" : call admin) a1;
    existT (LoadOptions connection "transactions" : call admin) a2;
    existT (DescribeCluster false : call admin) (Ok a3)] : list (event admin)).
  exists a3, start, own, by_broker. split_and!; [| |done| |done..].
  - change (start ++ log4 ≡ₚ start ++ concat own). by rewrite Hperm.
  - eapply Forall_impl; [exact Hsub|]. intros l Hsubl. cbn. by repeat apply sublist_cons.
  - unfold start. set_solver.
Qed.

(** A broker that is asked again while its coordinator loads: with more turns than
    its clock leaves before the deadline, the loop ends. *)
Section Loading.
Context {W : Type} (world : ∀ c : admin_call, W → admin_answer c * W) (remaining : W → nat).

Record loading_clock : Prop := {
  loading_elapsed w : (world Elapsed w).1 = bool_decide (remaining w = 0%nat);
  loading_elapsed_mono w : (remaining (world Elapsed w).2 ≤ remaining w)%nat;
  loading_sleep w : (remaining (world Sleep w).2 ≤ remaining w - 1)%nat;
  loading_send handle request w :
    (remaining (world (SendListTransactions handle request) w).2 ≤ remaining w)%nat
}.

Lemma ask_transactions_ends fuel handle request w :
  loading_clock → (remaining w < fuel)%nat →
  ∃ r, outcome_of world (ask_transactions fuel handle request) w = Done r.
Proof.
  unfold outcome_of. intros Hc. revert w. induction fuel as [|fuel IH]; intros w Hf; [lia|].
  cbn [ask_transactions]. unfold await, mbind, cmd_bind. cbn [prog_bind send ask run].
  pose proof (loading_send Hc handle request w) as Hsend.
  destruct (world (SendListTransactions handle request) w) as [[response|error] w1]; cbn [fst snd] in *;
    [|by eexists]. cbn [lift_cmd map_err prog_bind].
  destruct (lt_error_code response =? COORDINATOR_LOAD_IN_PROGRESS); [|by eexists].
  cbn [prog_bind run send ask]. pose proof (loading_elapsed Hc w1) as He.
  pose proof (loading_elapsed_mono Hc w1) as Hm. destruct (world Elapsed w1) as [elapsed w2].
  cbn [fst snd] in *. destruct elapsed; [by eexists|]. symmetry in He. apply bool_decide_eq_false in He.
  cbn [prog_bind run send ask]. pose proof (loading_sleep Hc w2) as Hs.
  destruct (world Sleep w2) as [u w3]. cbn [fst snd] in *.
  destruct (IH w3) as [r Hr]; [lia|]. exists r.
  destruct (run (Σ := admin) world (ask_transactions fuel handle request) w3) as [[o w4] log].
  by cbn in Hr |- *.
Qed.
End Loading.

(** ** What is changed *)

Definition accepted_impact (impact : Impact) (past : list (event admin)) : Prop :=
  (existT (AskConfirm "krabka transactions" impact : call admin) (Ok tt) : event admin) ∈ past.

(** The transaction that the flags of [abort] identify, or that the leader
    answered for their start offset. *)
Definition identified (args : TxAbortArgs) (past : list (event admin)) (spec : AbortTransactionSpec)
    : Prop :=
  ab_topic spec = aa_topic args ∧ ab_partition spec = aa_partition args ∧
  match aa_start_offset args with
  | Some start_offset =>
      0 ≤ start_offset ∧ ∃ answers states state,
        (existT (DescribeProducers [(aa_topic args, aa_partition args)] : call admin) answers
          : event admin) ∈ past ∧
        ((aa_topic args, aa_partition args), Ok states) ∈ answers ∧ state ∈ states ∧
        ps_current_txn_start_offset state = Some start_offset ∧
        ab_producer_id spec = ps_producer_id state ∧
        ab_producer_epoch spec = java_short (ps_producer_epoch state) ∧
        ab_coordinator_epoch spec = Z.max (ps_coordinator_epoch state) 0
  | None =>
      aa_producer_id args = Some (ab_producer_id spec) ∧
      aa_producer_epoch args = Some (ab_producer_epoch spec) ∧
      ∃ epoch, aa_coordinator_epoch args = Some epoch ∧ ab_coordinator_epoch spec = Z.max epoch 0
  end.

(** The changes that the command line authorises, by what came before. *)
Definition rightful_termination (args : TransactionsArgs) (past : list (event admin)) (c : admin_call)
    : Prop :=
  match c with
  | AbortTransaction spec =>
      ∃ abort, txa_command args = TxAbort abort ∧ dry_run_flag (aa_confirm abort) = false ∧
        Forall (λ e, changes e = false) past ∧
        (yes_flag (aa_confirm abort) = true ∨ accepted_impact (abort_impact spec) past) ∧
        identified abort past spec
  | ForceTerminateTransaction id =>
      ∃ safety, txa_command args = TxForceTerminate id safety ∧ dry_run_flag safety = false ∧
        Forall (λ e, changes e = false) past ∧
        (yes_flag safety = true ∨ accepted_impact (terminate_impact id) past)
  | c => mutating c = false
  end.

Lemma rightful_termination_reads args past c : mutating c = false → rightful_termination args past c.
Proof. by destruct c. Qed.

Lemma trace_spec_at args start_offset log spec :
  aa_start_offset args = Some start_offset →
  trace (spec_at args start_offset) log (Done (Ok spec)) → identified args log spec.
Proof.
  intros Hs. unfold spec_at. intros (answers & log1 & rest1 & -> & H1 & Ht)%trace_ok_bind_inv.
  apply trace_await in H1 as ([answers'| |] & H1 & E1); simplify_eq.
  destruct H1 as (a1 & l1 & -> & -> & E1). injection E1 as ->.
  apply trace_ok_bind_inv in Ht as (states & log2 & rest2 & -> & [-> H2] & Ht).
  apply trace_ok_bind_inv in Ht as (state & log3 & rest3 & -> & [H3 ->]%trace_lift & [-> E]).
  injection E as ->. destruct (find _ _) as [found|] eqn:Hfind in H3; [|done]. injection H3 as ->.
  apply find_some in Hfind as [Hin Hopen]. apply bool_decide_eq_true in Hopen.
  apply list_elem_of_In, list_elem_of_fmap in Hin as (raw & -> & Hin).
  cbn [normalized ps_current_txn_start_offset] in Hopen.
  destruct (ps_current_txn_start_offset raw) as [offset|] eqn:Hraw; [|done]. cbn in Hopen.
  destruct (Z.leb_spec 0 offset); [|done]. injection Hopen as ->.
  split_and!; [done..|]. rewrite Hs. split; [done|]. exists a1.
  destruct (bt_get _ (bt_collect a1)) as [[found|e]|] eqn:Hget; cbn in H2; [|done|].
  - injection H2 as ->. exists found, raw. split_and!; [set_solver|by apply bt_get_collect_elem|done..|].
    cbn. lia.
  - injection H2 as ->. by apply elem_of_nil in Hin.
Qed.

Lemma abort_rightful args past abort :
  txa_command args = TxAbort abort → Forall (λ e, changes e = false) past →
  monitored (history (Σ := admin) (rightful_termination args)) past
    (run_abort (txa_connection args) abort) (on_ok (λ _ _, True)).
Proof.
  intros Hcmd Hpast. unfold run_abort. destruct (abort_target abort) as [target|] eqn:Ht; [|done].
  apply monitored_ok.
  apply history_bind; [apply rightful_termination_reads|auto with krabka|intros log1 [] H1].
  apply history_bind; [apply rightful_termination_reads| |intros log2 spec H2].
  { destruct target; auto with krabka. }
  assert (identified abort log2 spec) as Hid.
  { unfold abort_target in Ht. destruct (aa_start_offset abort) as [offset|] eqn:Hs.
    - injection Ht as <-. by apply trace_spec_at in H2.
    - destruct (aa_producer_id abort) as [producer|] eqn:Hp; [|done].
      destruct (aa_producer_epoch abort) as [epoch|] eqn:He; [|done].
      destruct (aa_coordinator_epoch abort) as [coordinator|] eqn:Hco; [|done].
      cbn in Ht. injection Ht as <-. destruct H2 as [-> [= ->]]. unfold identified. rewrite Hs. cbn.
      split_and!; [done..|]. by exists coordinator. }
  destruct (dry_run_flag (aa_confirm abort)) eqn:Hd; [done|].
  apply history_bind; [apply rightful_termination_reads|auto with krabka|intros log3 [] H3].
  apply harmless_trace in H1 as F1; [|auto with krabka]. apply harmless_trace in H2 as F2; [|destruct target; auto with krabka].
  apply harmless_trace in H3 as F3; [|auto with krabka].
  split; [|by intros [[]|e]]. exists abort. split_and!; [done..|by repeat (apply Forall_app_2; [|done])| |].
  - apply trace_confirm in H3 as [Hy| ->]; [by left|]. right. unfold accepted_impact. set_solver.
  - destruct Hid as (Htopic & Hpart & Hid). split_and!; [done..|]. destruct (aa_start_offset abort); [|done].
    destruct Hid as (Hpos & answers & states & state & Hin & Hrest). split; [done|].
    exists answers, states, state. split; [set_solver|done].
Qed.

(** C18. What [krabka transactions] changes, for every cluster. It ends at most one
    transaction, as its only change, after the operator accepted a prompt that
    names it, or with [--yes], and not under [--dry-run]. [abort] ends a
    transaction of the partition of its flags: the producer that they name, or the
    one whose open transaction the partition's leader said to start at
    [--start-offset], with its epochs as Kafka casts them;
    [forceTerminateTransaction] that of its transactional id. The other
    subcommands only read. *)
Theorem transactions_end (checks : bool) (fuel : nat) (schedule : list nat) (args : TransactionsArgs) :
  ∀ W (world : ∀ c : admin_call, W → admin_answer c * W) (w : W) pre e post,
    events_of world (transactions_run checks fuel schedule args) w = pre ++ e :: post →
    rightful_termination args pre (projT1 e).
Proof.
  intros W world w pre e post. apply (run_history (Σ := admin) world _ _ (on_ok (λ _ _, True))).
  unfold transactions_run.
  assert (∀ p : cmd admin CommandResult, harmless p →
    monitored (history (Σ := admin) (rightful_termination args)) [] p (on_ok (λ _ _, True))) as Hread.
  { intros p Hp. eapply monitored_mono; [apply history_harmless; [apply rightful_termination_reads|done]|].
    by intros ? [[]| |]. }
  destruct (txa_command args) as [list_args|ids|producers|abort|hanging|id safety] eqn:Hcmd.
  - apply Hread. auto with krabka.
  - apply Hread. unfold run_describe. harmless.
  - apply Hread. unfold run_describe_producers. harmless.
  - by apply abort_rightful.
  - apply Hread. auto with krabka.
  - unfold run_force_terminate. destruct (dry_run_flag safety) eqn:Hd; [apply Hread; harmless|].
    apply history_bind; [apply rightful_termination_reads|auto with krabka|intros log1 [] H1].
    apply history_bind; [apply rightful_termination_reads|auto with krabka|intros log2 [] H2].
    apply harmless_trace in H1 as F1; [|auto with krabka].
    apply harmless_trace in H2 as F2; [|auto with krabka].
    split; [|by intros [[]|error]]. exists safety. split_and!; [done..|by apply Forall_app_2|].
    apply trace_confirm in H1 as [Hy| ->]; [by left|]. right. unfold accepted_impact. set_solver.
Qed.

(** Under [--dry-run], the subcommands that change something say that they did
    not. *)
Lemma transactions_dry_run checks fuel schedule args :
  match txa_command args with
  | TxAbort abort => dry_run_flag (aa_confirm abort) = true
  | TxForceTerminate _ safety => dry_run_flag safety = true
  | _ => False
  end → dry_run_contract (transactions_run checks fuel schedule args).
Proof.
  unfold transactions_run. destruct (txa_command args) as [| | |abort| |id safety]; try done; intros Hd;
    apply dry_run_intro.
  - unfold run_abort. do 2 ro_step. apply read_only_bind; [destruct (_ : AbortTarget)|]; auto with krabka.
    intros spec. by rewrite Hd.
  - unfold run_force_terminate. rewrite Hd. by ro_step.
Qed.

(** ** Runs *)

Definition test_connection : ConnectionArgs :=
  {| bootstrap_server := ["localhost:9092"]; bootstrap_controller := []; command_config := None;
     client_id := None; request_timeout_ms := None |}.

Definition test_producer (id : Z) (start : option Z) (last_timestamp : Z) : ProducerStateInfo :=
  {| ps_producer_id := id; ps_producer_epoch := 3; ps_last_sequence := 9;
     ps_last_timestamp_ms := last_timestamp; ps_coordinator_epoch := 2;
     ps_current_txn_start_offset := start |}.

Definition tx_node (id : Z) : ClusterNode :=
  {| node_id := id; node_host := "h"; node_port := 9092; node_rack := None; node_is_fenced := false |}.

(** Two brokers, and a leader with two producers, one of them in a transaction. *)
Definition transactions_world (c : admin_call) (w : unit) : admin_answer c * unit :=
  match c return admin_answer c * unit with
  | DescribeCluster _ =>
      (Ok {| description_cluster_id := "c"; description_nodes := [tx_node 1; tx_node 2] |}, w)
  | DescribeProducers partitions =>
      (map (λ key, (key, Ok [test_producer 7 (Some (-1)) 0; test_producer 8 (Some 42) 0])) partitions, w)
  | c => obliging_world c w
  end.

Definition abort_args : TransactionsArgs :=
  {| txa_connection := test_connection; txa_command := TxAbort (abort_flags (Some 42) None None None) |}.

Definition abort_events : list (event admin) :=
  events_of transactions_world (transactions_run false 1 [] abort_args) tt.

Definition aborted : AbortTransactionSpec :=
  {| ab_topic := "t"; ab_partition := 0; ab_producer_id := 8; ab_producer_epoch := 3;
     ab_coordinator_epoch := 2 |}.

Lemma transactions_end_witness :
  ∃ pre e post, abort_events = pre ++ e :: post ∧ projT1 e = AbortTransaction aborted ∧
    rightful_termination abort_args pre (projT1 e).
Proof.
  assert (∃ e, abort_events !! 3%nat = Some e ∧ projT1 e = AbortTransaction aborted)
    as (e & He & Hc) by (eexists; vm_compute; split; reflexivity).
  exists (take 3 abort_events), e, (drop 4 abort_events).
  pose proof (take_drop_middle abort_events 3 e He) as Hsplit. split; [done|]. split; [done|].
  exact (transactions_end false 1 [] abort_args unit transactions_world tt _ _ _ (eq_sym Hsplit)).
Defined.

(** The second broker goes first. *)
Definition list_run : prog admin (result CommandError CommandResult) :=
  run_list 1 [1; 0; 1; 1]%nat test_connection
    {| duration_filter := None; transactional_id_pattern := None |}.

Lemma list_conversations_witness :
  ∃ log description start own by_broker,
    log ≡ₚ start ++ concat own ∧ Forall (λ l, l `sublist_of` log) own ∧
    by_broker.*1 = map node_id (description_nodes description) ∧
    trace list_run log (Done (Ok (tx_listed by_broker))).
Proof.
  destruct (run (Σ := admin) transactions_world list_run tt) as [[o w] log] eqn:E.
  assert (∃ r, o = Done (Ok r)) as [r Hr].
  { change o with (o, w, log).1.1. rewrite <-E. vm_compute. eexists. reflexivity. }
  pose proof (run_trace (Σ := admin) transactions_world list_run tt) as Ht. rewrite E, Hr in Ht. cbn in Ht.
  destruct (list_conversations 1 [1; 0; 1; 1]%nat test_connection _ log r Ht)
    as (description & start & own & by_broker & Hp & Hs & _ & _ & Hids & _ & Hreport).
  exists log, description, start, own, by_broker. rewrite <-Hreport. auto.
Defined.

Definition test_states : list ((string * Z) * list ProducerStateInfo) :=
  [(("orders", 0), [test_producer 7 None 0; test_producer 8 (Some 42) 0]);
   (("orders", 1), [test_producer 8 (Some 5) 0; test_producer 9 (Some 6) 3600000])].

Definition test_transaction : TransactionDescription :=
  {| tx_coordinator_id := 1; tx_transactional_id := "payments"; tx_producer_id := 8;
     tx_producer_epoch := 3; tx_state := "Ongoing"; tx_timeout_ms := 60000;
     tx_start_time_ms := Some 0; tx_topic_partitions := [("orders", 1)] |}.

(** Producer 8 is in a transaction that covers partition 1 only, so that it hangs
    on partition 0; producer 9 wrote a moment ago. *)
Lemma hanging_spec_witness :
  ∃ candidates, open_candidates true test_states 2 3600001 900000 = Done candidates ∧
    hanging_transactions (group_by_producer candidates) [(8, "payments")]
      [("payments", Some test_transaction)] ≡ₚ
      [{| ot_partition := ("orders", 0); ot_state := test_producer 8 (Some 42) 0 |}].
Proof.
  destruct (hanging_spec true test_states 2 3600001 900000 [(8, "payments")]
    [("payments", Some test_transaction)]) as (candidates & Hc & Hp).
  { repeat constructor; cbn; lia. }
  exists candidates. split; [exact Hc|]. exact Hp.
Defined.
