(* ===== verification/FanOut.v ===== *)
(** [fan_out.rs]: [bounded] runs a batch of futures with a bounded number in
    flight.

    A future is the item that started it. What the executor and the outside
    world do is the parameter [polls]: at the [t]-th time the task is woken,
    polling the future of an item gives its output or leaves it pending. The
    loop is a machine that such wakes drive, so a property of it holds for every
    order in which the futures finish. *)

From S2P Require Import Prelude.

Section Bounded.
Context {T Out : Type}.

(** The local variables of [bounded], with the log of what it did: the items it
    started and the outputs it received, in order. *)
Record State := {
  pending : list (nat * T);
  running : list (nat * T);
  outputs : list (option Out);
  started : list nat;
  completed : list (nat * Out)
}.

(** [limit.max(1)]. *)
Definition effective_limit (limit : nat) : nat := Nat.max limit 1.

Definition initial (items : list T) : State :=
  {| pending := imap pair items; running := []; outputs := replicate (length items) None;
     started := []; completed := [] |}.

(** The inner [while]: starts the next items while there is room. *)
Fixpoint fill_from (limit : nat) (queue running : list (nat * T)) (started : list nat)
    : list (nat * T) * list (nat * T) * list nat :=
  match queue with
  | [] => ([], running, started)
  | (index, item) :: rest =>
      if (length running <? limit)%nat
      then fill_from limit rest (running ++ [(index, item)]) (started ++ [index])
      else (queue, running, started)
  end.

Definition fill (limit : nat) (s : State) : State :=
  let '(pending, running, started) := fill_from limit (pending s) (running s) (started s) in
  {| pending := pending; running := running; outputs := outputs s; started := started;
     completed := completed s |}.

(** [poll_fn]: the first running future that is ready, by its slot. *)
Fixpoint poll_running (poll : nat → T → option Out) (slot : nat) (running : list (nat * T))
    : option (nat * Out) :=
  match running with
  | [] => None
  | (index, item) :: running =>
      match poll index item with
      | Some output => Some (slot, output)
      | None => poll_running poll (S slot) running
      end
  end.

(** [Vec::swap_remove]. *)
Definition swap_remove {A} (slot : nat) (l : list A) : list A :=
  match last l with
  | Some x => take (length l - 1) (<[slot := x]> l)
  | None => l
  end.

(** What follows the [await]. *)
Definition finish (slot : nat) (output : Out) (s : State) : State :=
  match running s !! slot with
  | Some (index, _) =>
      {| pending := pending s; running := swap_remove slot (running s);
         outputs := <[index := Some output]> (outputs s); started := started s;
         completed := completed s ++ [(index, output)] |}
  | None => s
  end.

(** One wake of the task, with the loop at its [await]: a pending task stays
    where it is; otherwise the loop goes round to its next [await]. *)
Definition wake (limit : nat) (poll : nat → T → option Out) (s : State) : State :=
  match poll_running poll 0 (running s) with
  | Some (slot, output) => fill limit (finish slot output s)
  | None => s
  end.

(** The state after the first [t] wakes. *)
Fixpoint woken (limit : nat) (polls : nat → nat → T → option Out) (items : list T) (t : nat) : State :=
  match t with
  | O => fill (effective_limit limit) (initial items)
  | S t => wake (effective_limit limit) (polls t) (woken limit polls items t)
  end.

(** The value that [bounded] returns once it has nothing left to run. *)
Definition bounded (limit : nat) (polls : nat → nat → T → option Out) (items : list T) (t : nat)
    : option (list Out) :=
  let s := woken limit polls items t in
  if bool_decide (running s = []) then Some (omap id (outputs s)) else None.
End Bounded.
Arguments State T Out : clear implicits.

(** Two in flight; the later items finish first. *)
Example bounded_order :
  bounded 2 (λ t i (x : nat), if (4 <=? t + i)%nat then Some (10 * x)%nat else None) [5; 6; 7]%nat 20 =
  Some [50; 60; 70]%nat.
Proof. reflexivity. Qed.

(** ** Lemmas *)

Section BoundedFacts.
Context {T Out : Type}.
Implicit Types (s : State T Out) (items : list T).

Lemma fill_from_spec limit (queue run queue' run' : list (nat * T)) begun begun' :
  fill_from limit queue run begun = (queue', run', begun') → (length run ≤ limit)%nat →
  ∃ moved, queue = moved ++ queue' ∧ run' = run ++ moved ∧ begun' = begun ++ moved.*1 ∧
    (length run' ≤ limit)%nat ∧ (queue' = [] ∨ length run' = limit).
Proof.
  revert run begun. induction queue as [|[i x] queue IH]; intros run begun; simpl.
  { intros [= <- <- <-] Hl. exists []. cbn. rewrite !app_nil_r. by split_and!; auto. }
  destruct (Nat.ltb_spec (length run) limit) as [Hlt|Hge].
  - intros E Hl. destruct (IH _ _ E) as (moved & -> & -> & -> & Hle & Hend).
    { rewrite length_app. simpl. lia. }
    exists ((i, x) :: moved). rewrite <-!app_assoc in *. by split_and!.
  - intros [= <- <- <-] Hl. exists []. cbn. rewrite !app_nil_r. split_and!; auto. right. lia.
Qed.

Lemma insert_perm {A} (l : list A) i x y :
  l !! i = Some x → x :: <[i := y]> l ≡ₚ y :: l.
Proof.
  intros Hx. pose proof (lookup_lt_Some _ _ _ Hx) as Hi.
  rewrite (delete_Permutation (<[i := y]> l) i y) by (by apply list_lookup_insert_eq).
  rewrite list_delete_insert_eq. rewrite (delete_Permutation l i x Hx) at 2. apply Permutation_swap.
Qed.

Lemma swap_remove_perm {A} (l : list A) slot x :
  l !! slot = Some x → x :: swap_remove slot l ≡ₚ l.
Proof.
  intros Hx. unfold swap_remove.
  destruct l as [|y l' _] using rev_ind; [done|].
  rewrite last_snoc, length_app. simpl. replace (length l' + 1 - 1)%nat with (length l') by lia.
  destruct (decide (slot < length l')%nat) as [Hlt|Hge].
  - rewrite lookup_app_l in Hx by done. rewrite insert_app_l by done.
    rewrite take_app_le by (rewrite length_insert; lia).
    rewrite take_ge by (rewrite length_insert; lia).
    rewrite <-(Permutation_cons_append l' y).
    by apply insert_perm.
  - apply lookup_lt_Some in Hx as Hl. rewrite length_app in Hl. simpl in Hl.
    assert (slot = length l') as -> by lia. rewrite list_lookup_middle in Hx by done.
    injection Hx as <-. rewrite insert_app_r_alt by lia. rewrite Nat.sub_diag. simpl.
    rewrite take_app_length. apply Permutation_cons_append.
Qed.

Lemma poll_running_Some (poll : nat → T → option Out) slot run j o :
  poll_running poll slot run = Some (j, o) →
  ∃ i x, (slot ≤ j)%nat ∧ run !! (j - slot)%nat = Some (i, x) ∧ poll i x = Some o.
Proof.
  revert slot. induction run as [|[i x] run IH]; intros slot; simpl; [done|].
  destruct (poll i x) as [o'|] eqn:E.
  - intros [= <- <-]. exists i, x. by rewrite Nat.sub_diag.
  - intros H. destruct (IH _ H) as (i' & x' & Hle & Hl & Hp). exists i', x'.
    split; [lia|]. split; [|done]. by replace (j - slot)%nat with (S (j - S slot)) by lia.
Qed.

Lemma poll_running_None (poll : nat → T → option Out) slot run i x :
  poll_running poll slot run = None → (i, x) ∈ run → poll i x = None.
Proof.
  revert slot. induction run as [|[i' x'] run IH]; intros slot; simpl; [set_solver|].
  destruct (poll i' x') eqn:E; [done|]. intros H [[= -> ->]|Hin]%elem_of_cons; [done|].
  by apply (IH _ H).
Qed.

(** What holds whenever the loop is at its [await]: [k] items are started, in
    order; each of them runs or has completed; the completed ones have their
    output in place; and the loop runs as many as it may. *)
Record loop_ok (limit : nat) items s := {
  ok_started : started s ++ (pending s).*1 = seq 0 (length items);
  ok_items : ∀ i x, (i, x) ∈ running s ++ pending s → items !! i = Some x;
  ok_split : (running s).*1 ++ (completed s).*1 ≡ₚ started s;
  ok_limit : (length (running s) ≤ limit)%nat;
  ok_length : length (outputs s) = length items;
  ok_outputs : ∀ i o, outputs s !! i = Some (Some o) ↔ (i, o) ∈ completed s
}.

Lemma initial_ok limit items : loop_ok limit items (initial items).
Proof.
  split; simpl; [| | |lia|by rewrite length_replicate|].
  - induction items as [|x items IH] using rev_ind; [done|].
    rewrite imap_app, fmap_app, length_app, seq_app, IH. simpl. by rewrite Nat.add_0_r.
  - intros i x Hin. apply elem_of_lookup_imap in Hin as (j & y & [= -> ->] & ?). done.
  - done.
  - intros i o. rewrite lookup_replicate. set_solver.
Qed.

Lemma fill_ok limit items s : loop_ok limit items s → loop_ok limit items (fill limit s).
Proof.
  intros [H1 H2 H3 H4 H5 H6]. unfold fill.
  destruct (fill_from _ _ _ _) as [[queue run] begun] eqn:E.
  apply fill_from_spec in E as (moved & Hq & -> & -> & Hle & _); [|done]. rewrite Hq in *.
  split; simpl; try done.
  - by rewrite <-H1, fmap_app, <-app_assoc.
  - intros i x. rewrite <-app_assoc. apply H2.
  - rewrite fmap_app, <-H3. rewrite <-!app_assoc. apply Permutation_app_head, Permutation_app_comm.
Qed.

Lemma finish_ok limit items s slot i x o :
  loop_ok limit items s → running s !! slot = Some (i, x) → loop_ok limit items (finish slot o s).
Proof.
  intros [H1 H2 H3 H4 H5 H6] Hslot. unfold finish. rewrite Hslot.
  pose proof (swap_remove_perm _ _ _ Hslot) as Hp. set (run := swap_remove slot (running s)) in *.
  assert ((running s).*1 ≡ₚ i :: run.*1) as Hk by (by rewrite <-Hp).
  assert (NoDup (started s)) as Hn.
  { eapply submseteq_NoDup; [|apply (NoDup_seq 0 (length items))]. rewrite <-H1. by apply submseteq_inserts_r. }
  assert (i ∉ (completed s).*1) as Hi.
  { rewrite <-H3, Hk in Hn. simpl in Hn. apply NoDup_cons in Hn as [Hn _]. set_solver. }
  assert (i < length items)%nat as Hlt.
  { eapply lookup_lt_Some, H2, elem_of_app. left. by eapply list_elem_of_lookup_2. }
  split; simpl; try done.
  - intros j y Hin. apply H2. rewrite elem_of_app in *. rewrite <-Hp. set_solver.
  - rewrite <-H3, Hk, fmap_app, app_assoc. simpl. symmetry. apply Permutation_cons_append.
  - apply Permutation_length in Hp. simpl in Hp. lia.
  - by rewrite length_insert.
  - intros j o'. rewrite elem_of_app, list_elem_of_singleton, <-H6.
    destruct (decide (j = i)) as [->|Hne].
    + rewrite list_lookup_insert_eq by lia. split; [naive_solver|].
      intros [Hin|[= <-]]; [|done]. apply H6 in Hin. exfalso. apply Hi.
      apply list_elem_of_fmap. by exists (i, o').
    + rewrite list_lookup_insert_ne by done. naive_solver.
Qed.

Lemma wake_ok limit items poll s : loop_ok limit items s → loop_ok limit items (wake limit poll s).
Proof.
  intros Hs. unfold wake. destruct (poll_running _ _ _) as [[slot o]|] eqn:E; [|done].
  apply poll_running_Some in E as (i & x & _ & Hl & _). rewrite Nat.sub_0_r in Hl.
  by eapply fill_ok, finish_ok.
Qed.

Lemma woken_ok limit polls items t :
  loop_ok (effective_limit limit) items (woken limit polls items t : State T Out).
Proof. induction t as [|t IH]; simpl; [apply fill_ok, initial_ok|by apply wake_ok]. Qed.

(** At an [await] the loop has filled its room. *)
Lemma fill_full limit items s :
  loop_ok limit items s → pending (fill limit s) = [] ∨ length (running (fill limit s)) = limit.
Proof.
  intros [_ _ _ H4 _ _]. unfold fill. destruct (fill_from _ _ _ _) as [[queue run] begun] eqn:E.
  by apply fill_from_spec in E as (moved & _ & _ & _ & _ & ?).
Qed.

Lemma woken_full limit polls items t :
  let s : State T Out := woken limit polls items t in
  pending s = [] ∨ length (running s) = effective_limit limit.
Proof.
  induction t as [|t IH]; simpl; [eapply fill_full, initial_ok|]. unfold wake.
  destruct (poll_running _ _ _) as [[slot o]|] eqn:E; [|done].
  apply poll_running_Some in E as (i & x & _ & Hl & _). rewrite Nat.sub_0_r in Hl.
  eapply fill_full, finish_ok; [apply woken_ok|done].
Qed.

(** ** Progress *)

Lemma completed_fill limit s : completed (fill limit s) = completed s.
Proof. unfold fill. by destruct (fill_from _ _ _ _) as [[? ?] ?]. Qed.

Lemma completed_wake limit poll s slot i x o :
  poll_running poll 0 (running s) = Some (slot, o) → running s !! slot = Some (i, x) →
  completed (wake limit poll s) = completed s ++ [(i, o)].
Proof. intros E Hl. unfold wake. rewrite E, completed_fill. unfold finish. by rewrite Hl. Qed.

(** Every output came from a poll of its item. *)
Lemma completed_polled limit polls items t i o :
  (i, o) ∈ completed (woken limit polls items t : State T Out) →
  ∃ t' x, (t' < t)%nat ∧ items !! i = Some x ∧ polls t' i x = Some o.
Proof.
  induction t as [|t IH]; simpl; [rewrite completed_fill; set_solver|].
  destruct (poll_running (polls t) 0 (running (woken limit polls items t))) as [[slot o']|] eqn:E.
  - pose proof E as (i' & x & _ & Hl & Hp)%poll_running_Some. rewrite Nat.sub_0_r in Hl.
    erewrite completed_wake by done. rewrite elem_of_app, list_elem_of_singleton.
    intros [Hin|[= -> ->]].
    + destruct (IH Hin) as (t' & y & ? & ?). exists t', y. split; [lia|done].
    + exists t, x. split; [lia|]. split; [|done].
      apply (ok_items _ _ _ (woken_ok limit polls items t)), elem_of_app. left.
      by eapply list_elem_of_lookup_2.
  - unfold wake. rewrite E. intros Hin. destruct (IH Hin) as (t' & y & ? & ?).
    exists t', y. split; [lia|done].
Qed.

(** A running future that is ready at some wake makes the loop complete one by
    then. *)
Lemma some_completes limit polls items t d i x :
  (i, x) ∈ running (woken limit polls items t : State T Out) →
  is_Some (polls (t + d)%nat i x) →
  ∃ t', length (completed (woken limit polls items t' : State T Out)) =
        S (length (completed (woken limit polls items t : State T Out))).
Proof.
  revert t. induction d as [|d IH]; intros t Hin Hready.
  all: destruct (poll_running (polls t) 0 (running (woken limit polls items t)))
    as [[slot o']|] eqn:E;
    [ pose proof E as (i' & y & _ & Hl & _)%poll_running_Some; rewrite Nat.sub_0_r in Hl;
      exists (S t); simpl; erewrite completed_wake by done; rewrite length_app; simpl; lia |].
  - rewrite Nat.add_0_r in Hready. destruct Hready as [o Ho].
    by rewrite (poll_running_None _ _ _ _ _ E Hin) in Ho.
  - assert (woken limit polls items (S t) = woken limit polls items t) as Hsame
      by (simpl; unfold wake; by rewrite E).
    rewrite <-Hsame. apply IH; [by rewrite Hsame|]. by replace (S t + d)%nat with (t + S d)%nat by lia.
Qed.

Lemma completed_le limit polls items t :
  (length (completed (woken limit polls items t : State T Out)) ≤ length items)%nat.
Proof.
  pose proof (woken_ok limit polls items t) as [H1 _ H3 _ _ _].
  apply Permutation_length in H3. rewrite length_app, !length_fmap in H3.
  apply (f_equal length) in H1. rewrite length_app, length_seq in H1. lia.
Qed.

Lemma all_complete limit polls items :
  (∀ t i x, items !! i = Some x → ∃ d, is_Some (polls (t + d)%nat i x)) →
  ∃ t, running (woken limit polls items t : State T Out) = [].
Proof.
  intros Hfair.
  enough (∀ n t, (length items - length (completed (woken limit polls items t : State T Out)) < n)%nat →
    ∃ t, running (woken limit polls items t : State T Out) = []) as H
    by (eapply (H _ 0%nat), Nat.lt_succ_diag_r).
  intros n. induction n as [|n IH]; intros t Hn; [lia|].
  destruct (running (woken limit polls items t : State T Out)) as [|[i x] run] eqn:Er; [by exists t|].
  destruct (Hfair t i x) as [d Hd].
  { apply (ok_items _ _ _ (woken_ok limit polls items t)), elem_of_app. left. rewrite Er. left. }
  destruct (some_completes limit polls items t d i x) as [t' Ht']; [rewrite Er; left|done|].
  apply (IH t'). pose proof (completed_le limit polls items t'). lia.
Qed.

Lemma flatten_somes (l : list (option Out)) :
  Forall is_Some l → length (omap id l) = length l ∧ ∀ i, Some <$> omap id l !! i = l !! i.
Proof.
  induction 1 as [|[o|] l Hx _ [IHl IHi]]; [done| |by destruct Hx]. simpl. split; [by f_equal|].
  intros [|i]; [done|]. apply IHi.
Qed.

(** Once nothing runs, every item has its output. *)
Lemma ended_outputs limit polls items t :
  running (woken limit polls items t : State T Out) = [] →
  Forall is_Some (outputs (woken limit polls items t : State T Out)).
Proof.
  intros Hr. pose proof (woken_ok limit polls items t) as [H1 _ H3 _ H5 H6].
  assert (pending (woken limit polls items t : State T Out) = []) as Hp.
  { destruct (woken_full limit polls items t) as [?|Hf]; [done|]. rewrite Hr in Hf.
    unfold effective_limit in Hf. simpl in Hf. lia. }
  rewrite Hp, app_nil_r in H1. rewrite Hr, H1 in H3. simpl in H3.
  apply Forall_lookup. intros i o Ho. pose proof (lookup_lt_Some _ _ _ Ho) as Hlt.
  assert (i ∈ seq 0 (length items)) as Hi by (apply elem_of_seq; lia).
  rewrite <-H3 in Hi. apply list_elem_of_fmap in Hi as ([j o'] & -> & Hin).
  apply H6 in Hin. simpl in Ho. rewrite Ho in Hin. by simplify_eq.
Qed.
End BoundedFacts.

(** C36. At every moment [bounded] has at most [limit] futures in flight (one for
    a limit of 0), and as many as that while items are left; it starts the items
    in order and each once, and a future is never polled again once it gave its
    output: the items that run and those that completed are the started ones,
    without repetition. *)
Theorem bounded_in_flight {T Out} limit (polls : nat → nat → T → option Out) items t :
  let s := woken limit polls items t in
  (length (running s) ≤ Nat.max limit 1)%nat ∧
  (pending s = [] ∨ length (running s) = Nat.max limit 1) ∧
  started s = seq 0 (length (started s)) ∧
  (running s).*1 ++ (completed s).*1 ≡ₚ started s ∧ NoDup (started s).
Proof.
  pose proof (woken_ok limit polls items t) as [H1 H2 H3 H4 _ _]. cbv zeta.
  assert (started (woken limit polls items t) = seq 0 (length (started (woken limit polls items t)))) as Hs.
  { apply (f_equal (take (length (started (woken limit polls items t))))) in H1.
    rewrite take_app_length, take_seq in H1. rewrite H1 at 1. f_equal.
    apply (f_equal length) in H1. rewrite length_seq in H1. lia. }
  split_and!; [done|apply woken_full|done|done|]. rewrite Hs. apply NoDup_seq.
Qed.

(** C31. Where every future is ready at some later wake, [bounded] returns: one
    output per item, in the order of the items, each the one that the item's own
    future gave when it was polled, whatever the order in which they finished. *)
Theorem bounded_returns {T Out} limit (polls : nat → nat → T → option Out) items :
  (∀ t i x, items !! i = Some x → ∃ d, is_Some (polls (t + d)%nat i x)) →
  ∃ t results, bounded limit polls items t = Some results ∧ length results = length items ∧
    ∀ i x, items !! i = Some x →
      ∃ t' o, (t' < t)%nat ∧ polls t' i x = Some o ∧ results !! i = Some o.
Proof.
  intros Hfair. destruct (all_complete limit polls items Hfair) as [t Hr].
  destruct (flatten_somes _ (ended_outputs limit polls items t Hr)) as [Hlen Hget].
  pose proof (woken_ok limit polls items t) as [_ _ _ _ H5 H6].
  exists t, (omap id (outputs (woken limit polls items t))). unfold bounded.
  rewrite bool_decide_eq_true_2 by done. split_and!; [done|by rewrite Hlen|].
  intros i x Hx. pose proof (lookup_lt_Some _ _ _ Hx) as Hlt.
  destruct (outputs (woken limit polls items t) !! i) as [out|] eqn:Eo;
    [|apply lookup_ge_None in Eo; lia].
  specialize (Hget i). rewrite Eo in Hget.
  destruct (omap id _ !! i) as [o|] eqn:Er; [|done]. injection Hget as <-.
  apply H6, completed_polled in Eo as (t' & y & Ht' & Hy & Hp).
  exists t', o. simplify_eq. done.
Qed.

Lemma bounded_returns_witness :
  ∃ t results,
    bounded 2 (λ t i (x : nat), if (4 <=? t + i)%nat then Some (10 * x)%nat else None) [5; 6; 7]%nat t
      = Some results ∧ length results = 3%nat.
Proof.
  destruct (bounded_returns 2 (λ t i (x : nat), if (4 <=? t + i)%nat then Some (10 * x)%nat else None)
    [5; 6; 7]%nat) as (t & results & H1 & H2 & _).
  - intros t i x _. exists 4%nat. destruct (Nat.leb_spec 4 (t + 4 + i)); [by eexists|lia].
  - exists t, results. split; [exact H1|exact H2].
Defined.
