(* ===== verification/Permissions.v ===== *)
(** [permissions.rs] of the admin UI: which pages and controls an operator's
    ACLs permit. *)

From S2P Require Import Prelude.

(** ** ACLs of the client *)

(** [krabka_client_admin::ResourceType] and [AclOperation]: the ones the source
    names, and any other by its code. *)
Inductive ResourceType :=
  | Topic
  | Group
  | Cluster
  | OtherResource (code : Z).

Inductive AclOperation :=
  | AllOperations
  | Read
  | Write
  | Create
  | Delete
  | Alter
  | Describe
  | DescribeConfigs
  | AlterConfigs
  | OtherOperation (code : Z).

Inductive PermissionType := Allow | Deny.

Record AclEntry := {
  entry_resource_type : ResourceType;
  entry_principal : string;
  entry_host : string;
  entry_operation : AclOperation;
  entry_permission : PermissionType
}.

#[export] Instance ResourceType_eq_dec : EqDecision ResourceType.
Proof. solve_decision. Defined.
#[export] Instance AclOperation_eq_dec : EqDecision AclOperation.
Proof. solve_decision. Defined.

(** ** Capabilities *)

(** [Capabilities(u16)]: a set of bits. *)
Definition Capabilities : Type := Z.

Definition VIEW_TOPICS : Z := Z.shiftl 1 0.
Definition CREATE_TOPICS : Z := Z.shiftl 1 1.
Definition ALTER_TOPICS : Z := Z.shiftl 1 2.
Definition DELETE_TOPICS : Z := Z.shiftl 1 3.
Definition VIEW_GROUPS : Z := Z.shiftl 1 4.
Definition VIEW_ACLS : Z := Z.shiftl 1 5.
Definition ALTER_ACLS : Z := Z.shiftl 1 6.
Definition ALTER_USERS : Z := Z.shiftl 1 7.
Definition VIEW_QUOTAS : Z := Z.shiftl 1 8.
Definition ALTER_QUOTAS : Z := Z.shiftl 1 9.
Definition VIEW_LOG_DIRS : Z := Z.shiftl 1 10.
Definition VIEW_USERS : Z := Z.shiftl 1 11.
Definition ALTER_LOG_DIRS : Z := Z.shiftl 1 12.
Definition EVERY : Z := Z.shiftl 1 13 - 1.

(** [Capabilities::all] and [Capabilities::none]. *)
Definition all_capabilities : Capabilities := EVERY.
Definition no_capabilities : Capabilities := 0.

(** [Capabilities::contains]. *)
Definition contains (capabilities : Capabilities) (capability : Z) : bool :=
  negb (Z.land capabilities capability =? 0).

Definition can_view_topics (c : Capabilities) : bool := contains c VIEW_TOPICS.
Definition can_create_topics (c : Capabilities) : bool := contains c CREATE_TOPICS.
Definition can_alter_topics (c : Capabilities) : bool := contains c ALTER_TOPICS.
Definition can_delete_topics (c : Capabilities) : bool := contains c DELETE_TOPICS.
Definition can_view_groups (c : Capabilities) : bool := contains c VIEW_GROUPS.
Definition can_view_acls (c : Capabilities) : bool := contains c VIEW_ACLS.
Definition can_alter_acls (c : Capabilities) : bool := contains c ALTER_ACLS.
Definition can_alter_users (c : Capabilities) : bool := contains c ALTER_USERS.
Definition can_view_quotas (c : Capabilities) : bool := contains c VIEW_QUOTAS.
Definition can_alter_quotas (c : Capabilities) : bool := contains c ALTER_QUOTAS.
Definition can_view_log_dirs (c : Capabilities) : bool := contains c VIEW_LOG_DIRS.
Definition can_view_users (c : Capabilities) : bool := contains c VIEW_USERS.
Definition can_alter_log_dirs (c : Capabilities) : bool := contains c ALTER_LOG_DIRS.

(** ** Matching *)

Definition implies (stored requested : AclOperation) : bool :=
  match stored, requested with
  | (Read | Write | Delete | Alter), Describe => true
  | AlterConfigs, DescribeConfigs => true
  | _, _ => false
  end.

Definition matches_operation (stored requested : AclOperation) : bool :=
  bool_decide (stored = requested) || bool_decide (stored = AllOperations) ||
  implies stored requested.

Definition is_for_principal (entry : AclEntry) (principal : string) : bool :=
  bool_decide (entry_principal entry = principal) || bool_decide (entry_principal entry = "User:*").

Definition is_for_host (entry : AclEntry) (peer_host : option string) : bool :=
  if bool_decide (entry_host entry = "*") then true
  else match peer_host with
       | Some host => bool_decide (entry_host entry = host)
       | None => false
       end.

Definition is_for_principal_and_host (entry : AclEntry) (principal : string)
    (peer_host : option string) : bool :=
  is_for_principal entry principal && is_for_host entry peer_host.

Section Derive.
Context (principal : string) (peer_host : option string).

(** The entries that the loop does not skip. *)
Definition applies (resource_type : ResourceType) (operation : AclOperation) (entry : AclEntry)
    : bool :=
  bool_decide (entry_resource_type entry = resource_type) &&
  is_for_principal_and_host entry principal peer_host &&
  matches_operation (entry_operation entry) operation.

(** The loop of [has_effective_permission]. *)
Fixpoint effective_loop (resource_type : ResourceType) (operation : AclOperation)
    (saw_allow : bool) (entries : list AclEntry) : bool :=
  match entries with
  | [] => saw_allow
  | entry :: entries =>
      if negb (applies resource_type operation entry)
      then effective_loop resource_type operation saw_allow entries
      else match entry_permission entry with
           | Allow => effective_loop resource_type operation true entries
           | Deny => false
           end
  end.

Definition has_effective_permission (entries : list AclEntry) (resource_type : ResourceType)
    (operation : AclOperation) : bool :=
  effective_loop resource_type operation false entries.

(** The closure [grant]. *)
Definition grant (bits capability : Z) (granted : bool) : Z :=
  if granted then Z.lor bits capability else bits.

Definition derive_capabilities_for_optional_host (entries : list AclEntry) : Capabilities :=
  let effective := has_effective_permission entries in
  let bits := 0 in
  let bits := grant bits VIEW_TOPICS (effective Topic Describe) in
  let bits := grant bits CREATE_TOPICS (effective Cluster Create) in
  let bits := grant bits ALTER_TOPICS (effective Topic Alter || effective Topic AlterConfigs) in
  let bits := grant bits DELETE_TOPICS (effective Topic Delete) in
  let bits := grant bits VIEW_GROUPS (effective Group Describe) in
  let bits := grant bits VIEW_ACLS (effective Cluster Describe) in
  let bits := grant bits ALTER_ACLS (effective Cluster Alter) in
  let bits := grant bits ALTER_USERS (effective Cluster Alter) in
  let bits := grant bits VIEW_QUOTAS (effective Cluster Describe) in
  let bits := grant bits ALTER_QUOTAS (effective Cluster Alter) in
  let bits := grant bits VIEW_LOG_DIRS (effective Cluster Describe) in
  let bits := grant bits VIEW_USERS (effective Cluster Describe) in
  grant bits ALTER_LOG_DIRS (effective Cluster Alter).
End Derive.

Definition derive_capabilities (principal : string) (entries : list AclEntry) : Capabilities :=
  derive_capabilities_for_optional_host principal None entries.

Definition derive_capabilities_for_host (principal peer_host : string) (entries : list AclEntry)
    : Capabilities :=
  derive_capabilities_for_optional_host principal (Some peer_host) entries.

(** ** What the capabilities mean *)

(** What each capability asks for: one of these operations. *)
Definition capability_table : list (Z * list (ResourceType * AclOperation)) :=
  [(VIEW_TOPICS, [(Topic, Describe)]); (CREATE_TOPICS, [(Cluster, Create)]);
   (ALTER_TOPICS, [(Topic, Alter); (Topic, AlterConfigs)]); (DELETE_TOPICS, [(Topic, Delete)]);
   (VIEW_GROUPS, [(Group, Describe)]); (VIEW_ACLS, [(Cluster, Describe)]);
   (ALTER_ACLS, [(Cluster, Alter)]); (ALTER_USERS, [(Cluster, Alter)]);
   (VIEW_QUOTAS, [(Cluster, Describe)]); (ALTER_QUOTAS, [(Cluster, Alter)]);
   (VIEW_LOG_DIRS, [(Cluster, Describe)]); (VIEW_USERS, [(Cluster, Describe)]);
   (ALTER_LOG_DIRS, [(Cluster, Alter)])].

(** Kafka's rule: an entry allows it and none denies it, in any order. *)
Definition permitted (principal : string) (peer_host : option string) (entries : list AclEntry)
    (resource_type : ResourceType) (operation : AclOperation) : Prop :=
  (∃ e, e ∈ entries ∧ applies principal peer_host resource_type operation e = true ∧
     entry_permission e = Allow) ∧
  (∀ e, e ∈ entries → applies principal peer_host resource_type operation e = true →
     entry_permission e ≠ Deny).

Lemma effective_loop_spec principal host r o saw entries :
  effective_loop principal host r o saw entries = true ↔
  (saw = true ∨ ∃ e, e ∈ entries ∧ applies principal host r o e = true ∧ entry_permission e = Allow) ∧
  (∀ e, e ∈ entries → applies principal host r o e = true → entry_permission e ≠ Deny).
Proof.
  revert saw. induction entries as [|e entries IH]; intros saw; simpl.
  { split; [intros ->; split; [by left|by intros e He%not_elem_of_nil]|].
    intros [[?|(e & He%not_elem_of_nil & _)] _]; done. }
  destruct (applies principal host r o e) eqn:Ea; simpl.
  - destruct (entry_permission e) eqn:Ep.
    + rewrite IH. split; intros [_ H].
      * split; [right; exists e; split; [by left|done]|].
        intros e' [->|He']%elem_of_cons; [congruence|by apply H].
      * split; [by left|]. intros e' He'. apply H. by right.
    + split; [done|]. intros [_ H]. exfalso. apply (H e); [by left|done|done].
  - rewrite IH. split; intros [Hs H]; split.
    + destruct Hs as [?|(e' & He' & ?)]; [by left|]. right. exists e'. split; [by right|done].
    + intros e' [->|He']%elem_of_cons; [congruence|by apply H].
    + destruct Hs as [?|(e' & [->|He']%elem_of_cons & Ha & ?)]; [by left|congruence|].
      right. by exists e'.
    + intros e' He'. apply H. by right.
Qed.

Lemma has_effective_permission_spec principal host entries r o :
  has_effective_permission principal host entries r o = true ↔ permitted principal host entries r o.
Proof.
  unfold has_effective_permission, permitted. rewrite effective_loop_spec. naive_solver.
Qed.

Lemma contains_grant bits c g capability :
  contains (grant bits c g) capability = contains bits capability || (g && contains c capability).
Proof.
  destruct g; simpl; [|by rewrite orb_false_r]. unfold contains.
  rewrite Z.land_lor_distr_l, <-negb_andb. f_equal.
  destruct (Z.eqb_spec (Z.land bits capability) 0) as [->|Ha]; [by rewrite Z.lor_0_l|].
  apply Z.eqb_neq. intros [? _]%Z.lor_eq_0_iff. done.
Qed.

Lemma grant_within bits c g :
  Z.land bits (Z.lnot EVERY) = 0 → Z.land c (Z.lnot EVERY) = 0 →
  Z.land (grant bits c g) (Z.lnot EVERY) = 0.
Proof. intros Hb Hc. destruct g; simpl; [|done]. by rewrite Z.land_lor_distr_l, Hb, Hc. Qed.

(** The requests of a capability, one or two of them. *)
Lemma any_one (f : ResourceType → AclOperation → bool) r o :
  f r o = true ↔ ∃ r' o', (r', o') ∈ [(r, o)] ∧ f r' o' = true.
Proof.
  split; [intros H; exists r, o; split; [by left|done]|].
  intros (r' & o' & [= -> ->]%list_elem_of_singleton & H). done.
Qed.

Lemma any_two (f : ResourceType → AclOperation → bool) r o r2 o2 :
  f r o || f r2 o2 = true ↔ ∃ r' o', (r', o') ∈ [(r, o); (r2, o2)] ∧ f r' o' = true.
Proof.
  rewrite orb_true_iff. split.
  - intros [H|H]; [exists r, o|exists r2, o2]; (split; [set_solver|done]).
  - intros (r' & o' & [[= -> ->]|[= -> ->]%list_elem_of_singleton]%elem_of_cons & H); auto.
Qed.

(** Evaluates the constants and keeps the one request that grants the bit. *)
Ltac constant_bits :=
  repeat match goal with
  | |- context [contains ?a ?b] =>
      let v := eval vm_compute in (contains a b) in change (contains a b) with v
  end;
  rewrite ?andb_false_r, ?andb_true_r, ?orb_false_r; first [apply any_one|apply any_two].

(** C35. An operator has a capability exactly if some ACL entry that applies to
    the operator and the host allows one of the operations it stands for and no
    such entry denies that operation, whatever the order of the entries; and
    no other bit is ever set. *)
Theorem capabilities_spec principal host entries :
  (∀ capability requests, (capability, requests) ∈ capability_table →
     contains (derive_capabilities_for_optional_host principal host entries) capability = true ↔
     ∃ r o, (r, o) ∈ requests ∧ permitted principal host entries r o) ∧
  Z.land (derive_capabilities_for_optional_host principal host entries) (Z.lnot EVERY) = 0.
Proof.
  setoid_rewrite <-has_effective_permission_spec. unfold derive_capabilities_for_optional_host.
  generalize (has_effective_permission principal host entries) as f. clear. intros f. cbv zeta.
  split.
  - intros capability requests Hin. rewrite !contains_grant. unfold capability_table in Hin.
    repeat (apply elem_of_cons in Hin as [[= -> ->]|Hin]; [constant_bits|]).
    by apply not_elem_of_nil in Hin.
  - repeat (apply grant_within; [|reflexivity]). reflexivity.
Qed.
