(* ===== verification/Sessions.v ===== *)
(** [session.rs] of the admin UI: the session store and the CSRF token.

    The store is shared by the server's tasks. Each operation takes the lock for
    one step, except [get], which reads under one lock and removes an expired
    record under another, so other operations may run in between: the events
    below are these steps, and a history is any order of them. An event carries
    the instant its task read from the clock before it took the lock, so the
    instants of a history need not increase. *)

From Stdlib Require Import Ascii.
From S2P Require Import Prelude Rust Permissions.

(** ** The CSRF token *)

(** [zip] and [fold]: the bits in which two byte strings differ. *)
Fixpoint difference_of (difference : Z) (expected supplied : string) : Z :=
  match expected, supplied with
  | String e expected, String s supplied =>
      difference_of (Z.lor difference (Z.lxor (byte_of e) (byte_of s))) expected supplied
  | _, _ => difference
  end.

(** [CsrfToken::matches]. *)
Definition csrf_matches (token candidate : string) : bool :=
  if negb (bool_decide (String.length token = String.length candidate)) then false
  else difference_of 0 token candidate =? 0.

(** ** Sessions *)

Record SessionUser := { username : string; principal : string }.

Record SessionRecord := {
  user : SessionUser;
  credentials : option string;
  capabilities : Capabilities;
  csrf_token : string;
  expires_at : Z
}.

Definition is_expired (record : SessionRecord) (now : Z) : bool := expires_at record <=? now.

Section Store.
(** [Instant::checked_add] of the time to live, which has no value where the
    platform's clock cannot represent it. *)
Context (checked_add : Z → option Z).

(** The store, and the [get]s that read an expired record and have yet to take
    the lock again. *)
Record Store := { sessions : gmap string SessionRecord; removing : gmap string nat }.

Definition empty_store : Store := {| sessions := ∅; removing := ∅ |}.

(** The steps: [create_record] with the two values [Uuid::new_v4] gave, the read
    of [get], its removal, and [remove]. *)
Inductive Event :=
  | CreateRecord (now : Z) (id token : string) (user : SessionUser) (credentials : option string)
      (capabilities : Capabilities)
  | GetRead (now : Z) (id : string)
  | GetRemove (id : string)
  | Remove (id : string).

Definition new_record (now : Z) (token : string) (user : SessionUser) (credentials : option string)
    (capabilities : Capabilities) : SessionRecord :=
  {| user := user; credentials := credentials; capabilities := capabilities; csrf_token := token;
     expires_at := default now (checked_add now) |}.

(** [sessions.retain(|_, record| !record.is_expired(now))]. *)
Definition retain_live (now : Z) (m : gmap string SessionRecord) : gmap string SessionRecord :=
  filter (λ '(_, record), is_expired record now = false) m.

Definition create_record (now : Z) (id token : string) (user : SessionUser)
    (credentials : option string) (capabilities : Capabilities) (s : Store) : Store :=
  {| sessions := <[id := new_record now token user credentials capabilities]>
                   (retain_live now (sessions s));
     removing := removing s |}.

(** What the read of [get] decides: the record of a live session, nothing, or to
    remove an expired one. *)
Definition get_read (now : Z) (id : string) (s : Store) : option SessionRecord * Store :=
  match sessions s !! id with
  | None => (None, s)
  | Some record =>
      if negb (is_expired record now) then (Some record, s)
      else (None, {| sessions := sessions s;
                     removing := <[id := S (default 0%nat (removing s !! id))]> (removing s) |})
  end.

(** The removal of a [get] that is due one. *)
Definition get_remove (id : string) (s : Store) : Store :=
  match removing s !! id with
  | Some (S n) => {| sessions := delete id (sessions s); removing := <[id := n]> (removing s) |}
  | _ => s
  end.

Definition remove (id : string) (s : Store) : bool * Store :=
  (is_some (sessions s !! id), {| sessions := delete id (sessions s); removing := removing s |}).

(** [create] and [create_authenticated]. *)
Definition create (now : Z) (id token : string) (user : SessionUser) : Store → Store :=
  create_record now id token user None all_capabilities.
Definition create_authenticated (now : Z) (id token : string) (user : SessionUser)
    (password : string) (capabilities : Capabilities) : Store → Store :=
  create_record now id token user (Some password) capabilities.

Definition apply_event (s : Store) (e : Event) : Store :=
  match e with
  | CreateRecord now id token user credentials capabilities =>
      create_record now id token user credentials capabilities s
  | GetRead now id => (get_read now id s).2
  | GetRemove id => get_remove id s
  | Remove id => (remove id s).2
  end.

Definition after_events (log : list Event) : Store := fold_left apply_event log empty_store.

(** ** Facts of a history *)

(** The session that an event creates. *)
Definition creates (id : string) (e : Event) : option SessionRecord :=
  match e with
  | CreateRecord now id' token user credentials capabilities =>
      if bool_decide (id' = id) then Some (new_record now token user credentials capabilities)
      else None
  | _ => None
  end.

(** The instant that an event compares expiries with. *)
Definition event_time (e : Event) : option Z :=
  match e with CreateRecord now _ _ _ _ _ | GetRead now _ => Some now | _ => None end.
End Store.

(** ** Lemmas *)

Lemma byte_of_inj a b : byte_of a = byte_of b → a = b.
Proof.
  unfold byte_of. intros H%N2Z.inj. rewrite <-(ascii_N_embedding a), <-(ascii_N_embedding b). by f_equal.
Qed.

Lemma difference_of_zero d expected supplied :
  String.length expected = String.length supplied →
  difference_of d expected supplied = 0 ↔ d = 0 ∧ expected = supplied.
Proof.
  revert d supplied. induction expected as [|a expected IH]; intros d [|b supplied] Hl; simpl in *;
    try done; [naive_solver|].
  rewrite IH by lia. rewrite Z.lor_eq_0_iff, Z.lxor_eq_0_iff. split.
  - intros [[-> Hab%byte_of_inj] ->]. by rewrite Hab.
  - intros [-> [= -> ->]]. done.
Qed.

(** The constant-time comparison of a CSRF token accepts exactly the token:
    no shorter, longer or other text. *)
Theorem csrf_matches_spec token candidate : csrf_matches token candidate = true ↔ token = candidate.
Proof.
  unfold csrf_matches. destruct (decide (String.length token = String.length candidate)) as [Hl|Hl].
  - rewrite bool_decide_eq_true_2 by done. simpl. rewrite Z.eqb_eq, difference_of_zero by done.
    naive_solver.
  - rewrite bool_decide_eq_false_2 by done. simpl. naive_solver.
Qed.

Section StoreFacts.
Context (checked_add : Z → option Z).

Lemma after_snoc log e : after_events checked_add (log ++ [e]) = apply_event checked_add (after_events checked_add log) e.
Proof. unfold after_events. by rewrite fold_left_app. Qed.

(** A record in the store was created and not removed since. *)
Lemma stored_created log id r :
  sessions (after_events checked_add log) !! id = Some r →
  ∃ l1 e l2, log = l1 ++ e :: l2 ∧ creates checked_add id e = Some r ∧ Remove id ∉ l2.
Proof.
  induction log as [|e log IH] using rev_ind; [done|]. rewrite after_snoc. intros Hr.
  assert (creates checked_add id e = Some r ∨ (sessions (after_events checked_add log) !! id = Some r ∧ e ≠ Remove id)) as [Hc|[Hs He]].
  { destruct e as [now id' token u c k|now id'|id'|id']; simpl in *.
    - destruct (decide (id' = id)) as [->|Hne].
      + rewrite lookup_insert_eq in Hr. rewrite bool_decide_eq_true_2 by done. by left.
      + rewrite lookup_insert_ne in Hr by done. apply map_lookup_filter_Some in Hr as [Hr _]. by right.
    - right. split; [|done]. unfold get_read in Hr. repeat case_match; done.
    - right. split; [|done]. unfold get_remove in Hr. repeat case_match; simpl in Hr; try done.
      by apply lookup_delete_Some in Hr as [_ ?].
    - right. apply lookup_delete_Some in Hr as [Hne ?]. split; [done|]. by intros [= ->]. }
  - exists log, e, []. split_and!; [done|done|]. apply not_elem_of_nil.
  - destruct (IH Hs) as (l1 & e' & l2 & -> & Hc & Hn). exists l1, e', (l2 ++ [e]).
    split_and!; [by rewrite <-app_assoc|done|]. rewrite elem_of_app, list_elem_of_singleton.
    intros [?|?]; [done|by subst].
Qed.

(** Before its creation nothing is known of an identifier. *)
Lemma unknown_id log id :
  (∀ e, e ∈ log → creates checked_add id e = None) →
  sessions (after_events checked_add log) !! id = None ∧ removing (after_events checked_add log) !! id = None.
Proof.
  induction log as [|e log IH] using rev_ind; [done|]. rewrite after_snoc. intros Hc.
  destruct IH as [Hs Hr]; [set_solver|]. specialize (Hc e ltac:(set_solver)).
  destruct e as [now id' token u c k|now id'|id'|id']; simpl in *.
  - case_bool_decide as E; [done|]. split; [|done]. rewrite lookup_insert_ne by done.
    apply map_lookup_filter_None. left. done.
  - unfold get_read. destruct (decide (id' = id)) as [->|Hne]; [by rewrite Hs|].
    repeat case_match; simpl; try done. by rewrite lookup_insert_ne.
  - unfold get_remove. destruct (decide (id' = id)) as [->|Hne]; [by rewrite Hr|].
    repeat case_match; simpl; try done. by rewrite lookup_delete_ne, lookup_insert_ne.
  - split; [|done]. destruct (decide (id' = id)) as [->|Hne]; [apply lookup_delete_eq|].
    by rewrite lookup_delete_ne.
Qed.

(** An event that neither removes a live session nor finds it expired. *)
Lemma keeps_live s e id r :
  sessions s !! id = Some r → removing s !! id = None → creates checked_add id e = None → e ≠ Remove id →
  (∀ t, event_time e = Some t → t < expires_at r) →
  sessions (apply_event checked_add s e) !! id = Some r ∧ removing (apply_event checked_add s e) !! id = None.
Proof.
  intros Hs Hr Hc Hrem Ht. destruct e as [now id' token u c k|now id'|id'|id']; simpl in *.
  - case_bool_decide as E; [done|]. split; [|done]. rewrite lookup_insert_ne by done.
    apply map_lookup_filter_Some. split; [done|]. unfold is_expired. specialize (Ht now eq_refl). lia.
  - unfold get_read. destruct (decide (id' = id)) as [->|Hne].
    + rewrite Hs. unfold is_expired. specialize (Ht now eq_refl).
      replace (expires_at r <=? now) with false by lia. done.
    + repeat case_match; simpl; try done. by rewrite lookup_insert_ne.
  - unfold get_remove. destruct (decide (id' = id)) as [->|Hne]; [by rewrite Hr|].
    repeat case_match; simpl; try done. by rewrite lookup_delete_ne, lookup_insert_ne.
  - split; [|done]. rewrite lookup_delete_ne; [done|]. by intros ->.
Qed.

Lemma stays_live s log id r :
  sessions s !! id = Some r → removing s !! id = None →
  (∀ e, e ∈ log → creates checked_add id e = None ∧ e ≠ Remove id ∧ ∀ t, event_time e = Some t → t < expires_at r) →
  sessions (fold_left (apply_event checked_add) log s) !! id = Some r.
Proof.
  revert s. induction log as [|e log IH]; intros s Hs Hr Hlog; simpl; [done|].
  destruct (Hlog e) as (Hc & Hrem & Ht); [by left|].
  destruct (keeps_live s e id r Hs Hr Hc Hrem Ht) as [Hs' Hr'].
  apply IH; [done|done|]. intros e' He'. apply Hlog. by right.
Qed.

(** C33. The session store, whatever the order in which the steps of concurrent
    requests interleave. A session that [get] returns was created with that
    identifier, was not removed since, and is not expired. Conversely, with
    identifiers that are not reused, a session is found from its creation until
    it is removed or some request finds it expired; and once a session is
    created at an instant, no other record that is expired then is left. *)
Theorem session_store_spec log id now :
  (∀ r, (get_read now id (after_events checked_add log)).1 = Some r →
     now < expires_at r ∧
     ∃ l1 e l2, log = l1 ++ e :: l2 ∧ creates checked_add id e = Some r ∧ Remove id ∉ l2) ∧
  (∀ l1 e l2 r, log = l1 ++ e :: l2 → creates checked_add id e = Some r → now < expires_at r →
     (∀ e', e' ∈ l1 → creates checked_add id e' = None) →
     (∀ e', e' ∈ l2 → creates checked_add id e' = None ∧ e' ≠ Remove id ∧
        ∀ t, event_time e' = Some t → t < expires_at r) →
     (get_read now id (after_events checked_add log)).1 = Some r) ∧
  (∀ token u c k id' r,
     sessions (after_events checked_add (log ++ [CreateRecord now id token u c k])) !! id' = Some r →
     is_expired r now = true → id' = id).
Proof.
  split_and!.
  - intros r. unfold get_read. destruct (sessions (after_events checked_add log) !! id) as [r'|] eqn:E; [|done].
    unfold is_expired. destruct (Z.leb_spec (expires_at r') now); [done|]. intros [= ->].
    split; [done|]. by apply stored_created.
  - intros l1 e l2 r -> He Hnow H1 H2. destruct (unknown_id l1 id H1) as [_ Hr].
    assert (sessions (after_events checked_add (l1 ++ e :: l2)) !! id = Some r) as Hs.
    { unfold after_events in *. rewrite fold_left_app. simpl. apply stays_live; [..|done].
      - destruct e as [t id' token u c k| | |]; try done. simpl in *.
        case_bool_decide as E; [|done]. subst. rewrite lookup_insert_eq. congruence.
      - destruct e; try done. }
    unfold get_read. rewrite Hs. unfold is_expired.
    replace (expires_at r <=? now) with false by lia. done.
  - intros token u c k id' r Hr Hexp. rewrite after_snoc in Hr. simpl in Hr.
    destruct (decide (id = id')) as [->|Hne]; [done|]. rewrite lookup_insert_ne in Hr by done.
    apply map_lookup_filter_Some in Hr as [_ Hr]. congruence.
Qed.
End StoreFacts.

Example expired_session_removed :
  let u := {| username := "ann"; principal := "User:ann" |} in
  let add now := Some (now + 10) in
  let log := [CreateRecord 0 "a" "t" u None 0; GetRead 10 "a"; GetRemove "a"] in
  (is_some (get_read 9 "a" (after_events add (take 1 log))).1,
   is_some (get_read 10 "a" (after_events add (take 1 log))).1,
   size (sessions (after_events add log))) = (true, false, 0%nat).
Proof. vm_compute. reflexivity. Qed.
