(* ===== verification/Acls.v ===== *)
(** [acls.rs]: [krabka acls], the counterpart of [kafka-acls]. The checks of the
    command line, the entries that its flags expand to, and the requests of
    [--list], [--add] and [--remove].

    An [AclsArgs] is what [clap] parsed; [--principal] without a value is
    [Some []]. *)

From Stdlib Require Import Ascii.
From S2P Require Import Connection.
From S2P Require Import Prelude Collections Rust Json KafkaErrors Output Program Admin.

(** [CLUSTER_NAME], [WILDCARD_HOST]. *)
Definition CLUSTER_NAME : string := "kafka-cluster".
Definition WILDCARD_HOST : string := "*".

(** ** The flags *)

Record AclsArgs := {
  acl_connection : ConnectionArgs;
  acl_add : bool;
  acl_remove : bool;
  acl_list : bool;
  acl_topic : list string;
  acl_cluster : bool;
  acl_group : list string;
  acl_transactional_id : list string;
  acl_delegation_token : list string;
  acl_user_principal : list string;
  acl_resource_pattern_type : string;
  acl_operation : list string;
  acl_allow_principal : list string;
  acl_deny_principal : list string;
  acl_principal : option (list string);
  acl_allow_host : list string;
  acl_deny_host : list string;
  acl_producer : bool;
  acl_consumer : bool;
  acl_idempotent : bool;
  acl_force : bool;
  acl_confirm : ConfirmArgs
}.

(** ** Resources and entries *)

(** [ResourceType]. *)
Inductive ResourceKind :=
  | TopicKind | GroupKind | ClusterKind | TransactionalIdKind | DelegationTokenKind | UserKind.

(** [PatternType]. *)
Inductive PatternType := AnyPattern | MatchPattern | LiteralPattern | PrefixedPattern.

Inductive Operation :=
  | UnknownOp | AnyOp | AllOp | Read | Write | Create | Delete | Alter | Describe | ClusterAction
  | DescribeConfigsOp | AlterConfigsOp | IdempotentWrite | CreateTokens | DescribeTokens
  | TwoPhaseCommit.

Inductive Permission := Allow | Deny.

#[export] Instance ResourceKind_eq_dec : EqDecision ResourceKind.
Proof. solve_decision. Defined.
#[export] Instance PatternType_eq_dec : EqDecision PatternType.
Proof. solve_decision. Defined.
#[export] Instance Operation_eq_dec : EqDecision Operation.
Proof. solve_decision. Defined.
#[export] Instance Permission_eq_dec : EqDecision Permission.
Proof. solve_decision. Defined.

Definition resource_kind_name (kind : ResourceKind) : string :=
  match kind with
  | TopicKind => "TOPIC"
  | GroupKind => "GROUP"
  | ClusterKind => "CLUSTER"
  | TransactionalIdKind => "TRANSACTIONAL_ID"
  | DelegationTokenKind => "DELEGATION_TOKEN"
  | UserKind => "USER"
  end.

(** [ResourceType::operations]: what an entry can name besides [AllOp]. *)
Definition kind_operations (kind : ResourceKind) : list Operation :=
  match kind with
  | TopicKind =>
      [Read; Write; Create; Describe; Delete; Alter; DescribeConfigsOp; AlterConfigsOp]
  | GroupKind => [Read; Describe; Delete; DescribeConfigsOp; AlterConfigsOp]
  | ClusterKind =>
      [Create; ClusterAction; DescribeConfigsOp; AlterConfigsOp; IdempotentWrite; Alter; Describe]
  | TransactionalIdKind => [Describe; Write; TwoPhaseCommit]
  | DelegationTokenKind => [Describe]
  | UserKind => [CreateTokens; DescribeTokens]
  end.

Definition kind_to_wire (kind : ResourceKind) : AclResourceType :=
  match kind with
  | TopicKind => AclTopic
  | GroupKind => AclGroup
  | ClusterKind => AclCluster
  | TransactionalIdKind => AclTransactionalId
  | DelegationTokenKind => AclDelegationToken
  | UserKind => AclUser
  end.

Definition kind_from_wire (value : AclResourceType) : ResourceKind :=
  match value with
  | AclTopic => TopicKind
  | AclGroup => GroupKind
  | AclCluster => ClusterKind
  | AclTransactionalId => TransactionalIdKind
  | AclDelegationToken => DelegationTokenKind
  | AclUser => UserKind
  end.

Definition all_patterns : list PatternType :=
  [AnyPattern; MatchPattern; LiteralPattern; PrefixedPattern].

Definition pattern_name (pattern : PatternType) : string :=
  match pattern with
  | AnyPattern => "ANY"
  | MatchPattern => "MATCH"
  | LiteralPattern => "LITERAL"
  | PrefixedPattern => "PREFIXED"
  end.

(** [PatternType::parse]. *)
Definition parse_pattern (value : string) : result CommandError PatternType :=
  ok_or (find (λ pattern, eq_ignore_ascii_case (pattern_name pattern) value) all_patterns)
    (Usage ("Cannot parse argument '" +:+ value +:+ "' of option resource-pattern-type")).

Definition is_specific (pattern : PatternType) : bool :=
  match pattern with LiteralPattern | PrefixedPattern => true | _ => false end.

(** [PatternType::to_wire_filter]: [None] is the wire [ANY]. *)
Definition pattern_to_wire_filter (pattern : PatternType) : option AclPatternType :=
  match pattern with
  | AnyPattern => None
  | MatchPattern => Some AclMatch
  | LiteralPattern => Some AclLiteral
  | PrefixedPattern => Some AclPrefixed
  end.

Definition pattern_to_wire (pattern : PatternType) : result CommandError AclPatternType :=
  match pattern with
  | LiteralPattern => Ok AclLiteral
  | PrefixedPattern => Ok AclPrefixed
  | AnyPattern | MatchPattern =>
      Err (Other ("a " +:+ pattern_name pattern +:+
        " pattern type does not name a concrete resource pattern"))
  end.

Definition pattern_from_wire (value : AclPatternType) : PatternType :=
  match value with
  | AclLiteral => LiteralPattern
  | AclPrefixed => PrefixedPattern
  | AclMatch => MatchPattern
  end.

Definition all_operations : list Operation :=
  [UnknownOp; AnyOp; AllOp; Read; Write; Create; Delete; Alter; Describe; ClusterAction;
   DescribeConfigsOp; AlterConfigsOp; IdempotentWrite; CreateTokens; DescribeTokens;
   TwoPhaseCommit].

Definition operation_name (operation : Operation) : string :=
  match operation with
  | UnknownOp => "UNKNOWN"
  | AnyOp => "ANY"
  | AllOp => "ALL"
  | Read => "READ"
  | Write => "WRITE"
  | Create => "CREATE"
  | Delete => "DELETE"
  | Alter => "ALTER"
  | Describe => "DESCRIBE"
  | ClusterAction => "CLUSTER_ACTION"
  | DescribeConfigsOp => "DESCRIBE_CONFIGS"
  | AlterConfigsOp => "ALTER_CONFIGS"
  | IdempotentWrite => "IDEMPOTENT_WRITE"
  | CreateTokens => "CREATE_TOKENS"
  | DescribeTokens => "DESCRIBE_TOKENS"
  | TwoPhaseCommit => "TWO_PHASE_COMMIT"
  end.

(** [pascal_case], on the names above, which are ASCII. *)
Fixpoint pascal_from (capitalize : bool) (name : string) : string :=
  match name with
  | "" => ""
  | String c name =>
      if (c =? "_")%char then pascal_from true name
      else String (if capitalize then to_upper c else to_lower c) (pascal_from false name)
  end.
Definition pascal_case (name : string) : string := pascal_from true name.

(** [Operation::parse]. *)
Definition parse_operation (value : string) : Operation :=
  default UnknownOp
    (find (λ operation, eq_ignore_ascii_case (pascal_case (operation_name operation)) value)
      all_operations).

Definition operation_to_wire (operation : Operation) : result CommandError WireOperation :=
  match operation with
  | AllOp => Ok OpAll
  | Read => Ok OpRead
  | Write => Ok OpWrite
  | Create => Ok OpCreate
  | Delete => Ok OpDelete
  | Alter => Ok OpAlter
  | Describe => Ok OpDescribe
  | ClusterAction => Ok OpClusterAction
  | DescribeConfigsOp => Ok OpDescribeConfigs
  | AlterConfigsOp => Ok OpAlterConfigs
  | IdempotentWrite => Ok OpIdempotentWrite
  | CreateTokens => Ok OpCreateTokens
  | DescribeTokens => Ok OpDescribeTokens
  | TwoPhaseCommit => Ok OpTwoPhaseCommit
  | UnknownOp | AnyOp =>
      Err (Other ("operation " +:+ operation_name operation +:+
        " does not name a concrete operation"))
  end.

Definition operation_from_wire (value : WireOperation) : Operation :=
  match value with
  | OpAll => AllOp
  | OpRead => Read
  | OpWrite => Write
  | OpCreate => Create
  | OpDelete => Delete
  | OpAlter => Alter
  | OpDescribe => Describe
  | OpClusterAction => ClusterAction
  | OpDescribeConfigs => DescribeConfigsOp
  | OpAlterConfigs => AlterConfigsOp
  | OpIdempotentWrite => IdempotentWrite
  | OpTwoPhaseCommit => TwoPhaseCommit
  | OpCreateTokens => CreateTokens
  | OpDescribeTokens => DescribeTokens
  end.

Definition permission_name (permission : Permission) : string :=
  match permission with Allow => "ALLOW" | Deny => "DENY" end.
Definition permission_to_wire (permission : Permission) : AclPermissionType :=
  match permission with Allow => AclAllow | Deny => AclDeny end.
Definition permission_from_wire (value : AclPermissionType) : Permission :=
  match value with AclAllow => Allow | AclDeny => Deny end.

Record Resource := { kind : ResourceKind; name : string; pattern_type : PatternType }.

Record Entry := {
  principal : string; host : string; operation : Operation; permission : Permission
}.

#[export] Instance Resource_eq_dec : EqDecision Resource.
Proof. solve_decision. Defined.
#[export] Instance Entry_eq_dec : EqDecision Entry.
Proof. solve_decision. Defined.

(** The derived orders: an enum by the position of its variant, a struct by its
    fields. *)
Definition position {A} `{!EqDecision A} (l : list A) (x : A) : nat :=
  default 0%nat (fst <$> list_find (x =.) l).

Definition all_kinds : list ResourceKind :=
  [TopicKind; GroupKind; ClusterKind; TransactionalIdKind; DelegationTokenKind; UserKind].
Definition all_permissions : list Permission := [Allow; Deny].

#[export] Program Instance Resource_ord : Ord Resource :=
  ord_via
    (λ r, (position all_kinds (kind r), (name r, position all_patterns (pattern_type r))))
    (λ '(k, (n, p)), {| kind := nth k all_kinds TopicKind; name := n;
                        pattern_type := nth p all_patterns AnyPattern |}) _.
Next Obligation. by intros [[] ? []]. Qed.

#[export] Program Instance Entry_ord : Ord Entry :=
  ord_via
    (λ e, (principal e, (host e, (position all_operations (operation e),
                                  position all_permissions (permission e)))))
    (λ '(pr, (h, (o, p))), {| principal := pr; host := h;
                              operation := nth o all_operations UnknownOp;
                              permission := nth p all_permissions Allow |}) _.
Next Obligation. by intros [? ? [] []]. Qed.

(** [Resource::cluster]. *)
Definition cluster_resource : Resource :=
  {| kind := ClusterKind; name := CLUSTER_NAME; pattern_type := LiteralPattern |}.

(** [AclEntryFilter::default()]: matches everything. *)
Definition any_acl : AclBindingFilter :=
  {| af_resource_type := None; af_resource_name := None; af_pattern_type := None;
     af_principal := None; af_host := None; af_operation := None; af_permission_type := None |}.

(** [Resource::wire_filter]. *)
Definition resource_filter (r : Resource) : AclBindingFilter :=
  {| af_resource_type := Some (kind_to_wire (kind r));
     af_resource_name := Some (name r);
     af_pattern_type := pattern_to_wire_filter (pattern_type r);
     af_principal := None; af_host := None; af_operation := None; af_permission_type := None |}.

Definition resource_json (r : Resource) : Value :=
  object_of [("resource_type", Str (resource_kind_name (kind r))); ("name", Str (name r));
             ("pattern_type", Str (pattern_name (pattern_type r)))].

(** [Display for Resource]. *)
Definition resource_text (r : Resource) : string :=
  "ResourcePattern(resourceType=" +:+ resource_kind_name (kind r) +:+ ", name=" +:+ name r +:+
  ", patternType=" +:+ pattern_name (pattern_type r) +:+ ")".

(** [Entry::wire]. *)
Definition entry_wire (e : Entry) (r : Resource) : result CommandError AclBinding :=
  pattern ← pattern_to_wire (pattern_type r);
  op ← operation_to_wire (operation e);
  Ok {| ab_resource_type := kind_to_wire (kind r);
        ab_resource_name := name r;
        ab_pattern_type := pattern;
        ab_principal := principal e;
        ab_host := host e;
        ab_operation := op;
        ab_permission_type := permission_to_wire (permission e) |}.

(** [Entry::wire_filter]. *)
Definition entry_filter (e : Entry) (base : AclBindingFilter) : result CommandError AclBindingFilter :=
  op ← operation_to_wire (operation e);
  Ok {| af_resource_type := af_resource_type base;
        af_resource_name := af_resource_name base;
        af_pattern_type := af_pattern_type base;
        af_principal := Some (principal e);
        af_host := Some (host e);
        af_operation := Some op;
        af_permission_type := Some (permission_to_wire (permission e)) |}.

Definition acl_entry_json (e : Entry) : Value :=
  object_of [("principal", Str (principal e)); ("host", Str (host e));
             ("operation", Str (operation_name (operation e)));
             ("permission_type", Str (permission_name (permission e)))].

(** [Display for Entry]. *)
Definition entry_text (e : Entry) : string :=
  "(principal=" +:+ principal e +:+ ", host=" +:+ host e +:+ ", operation=" +:+
  operation_name (operation e) +:+ ", permissionType=" +:+ permission_name (permission e) +:+ ")".

(** [binding]. *)
Definition binding (b : AclBinding) : Resource * Entry :=
  ({| kind := kind_from_wire (ab_resource_type b);
      name := ab_resource_name b;
      pattern_type := pattern_from_wire (ab_pattern_type b) |},
   {| principal := ab_principal b;
      host := ab_host b;
      operation := operation_from_wire (ab_operation b);
      permission := permission_from_wire (ab_permission_type b) |}).

(** ** The plan *)

(** Entries by resource. An empty set on a filter means every entry. *)
Definition Acls : Type := list (Resource * list Entry).

Inductive AclsPlan :=
  | PlanList (filters : list Resource) (principals : option (list string))
  | PlanAdd (acls : Acls)
  | PlanRemove (acls : Acls).

(** [check_invalid]. *)
Definition refuse_with (used : string * bool) (invalid : list (string * bool))
    : result CommandError unit :=
  match find snd invalid with
  | Some (name, _) =>
      if used.2 then
        Err (Usage ("Option " +:+ dquote +:+ "[" +:+ used.1 +:+ "]" +:+ dquote +:+
          " can't be used with option " +:+ dquote +:+ "[" +:+ name +:+ "]" +:+ dquote))
      else Ok tt
  | None => Ok tt
  end.

(** [principals], from the ones seen. *)
Fixpoint principals_from (values seen : list string) : result CommandError (list string) :=
  match values with
  | [] => Ok seen
  | value :: values =>
      let value := trim value in
      if contains_byte (λ c, (c =? ":")%char) value then
        principals_from values (if bool_decide (value ∈ seen) then seen else seen ++ [value])
      else
        Err (Usage ("expected a string in format principalType:principalName but got " +:+ value))
  end.
Definition principals (values : list string) : result CommandError (list string) :=
  principals_from values [].

(** [hosts]. *)
Definition acl_hosts (values : list string) (principal_given : bool) : list string :=
  if bool_decide (values ≠ []) then map trim values
  else if principal_given then [WILDCARD_HOST]
  else [].

Section Args.
Context (args : AclsArgs).

(** [resource_filters]. *)
Definition named (pattern : PatternType) (k : ResourceKind) (names : list string) (trimmed : bool)
    : list Resource :=
  map (λ n, {| kind := k; name := if trimmed then trim n else n; pattern_type := pattern |}) names.

Definition resource_filters (pattern : PatternType) (required : bool)
    : result CommandError (list Resource) :=
  let filters :=
    set_collect
      (named pattern TopicKind (acl_topic args) true ++
       (if bool_decide (pattern = LiteralPattern) && (acl_cluster args || acl_idempotent args)
        then [cluster_resource] else []) ++
       named pattern GroupKind (acl_group args) true ++
       named pattern TransactionalIdKind (acl_transactional_id args) false ++
       named pattern DelegationTokenKind (acl_delegation_token args) true ++
       named pattern UserKind (acl_user_principal args) true) in
  if bool_decide (filters = []) && required then
    Err (Usage ("You must provide at least one resource: --topic <topic> or --cluster or " +:+
      "--group <group> or --delegation-token <Delegation Token ID>"))
  else Ok filters.

(** The inner loops of [entries]: a principal's entries, for each operation from
    each host. *)
Definition principal_entries (operations : list Operation) (hs : list string) (p : Permission)
    (pr : string) : result CommandError (list Entry) :=
  @concat Entry <$>
    try_map (λ op,
      if bool_decide (op = AnyOp) then Err (Usage "operation must not be ANY")
      else Ok (map (λ h, {| principal := pr; host := h; operation := op; permission := p |}) hs))
      operations.

(** [entries]. *)
Definition entries (operations : list Operation) : result CommandError (list Entry) :=
  allowed ← principals (acl_allow_principal args);
  denied ← principals (acl_deny_principal args);
  let allowed_hosts := acl_hosts (acl_allow_host args) (bool_decide (acl_allow_principal args ≠ [])) in
  let denied_hosts := acl_hosts (acl_deny_host args) (bool_decide (acl_deny_principal args ≠ [])) in
  allow ← try_map (principal_entries operations allowed_hosts Allow) allowed;
  deny ← try_map (principal_entries operations denied_hosts Deny) denied;
  Ok (set_collect (concat allow ++ concat deny)).

(** [acls.insert(resource, entries)] for each resource that has entries. *)
Definition insert_each (choose : Resource → option (list Entry)) (resources : list Resource)
    (acls : Acls) : Acls :=
  fold_left (λ acls r, match choose r with Some es => bt_insert r es acls | None => acls end)
    resources acls.

(** [acls.entry(resource).or_default().extend(entries)]. *)
Definition extend_each (choose : Resource → option (list Entry)) (resources : list Resource)
    (acls : Acls) : Acls :=
  fold_left (λ acls r,
    match choose r with
    | Some es => bt_alter [] (λ own, set_collect (own ++ es)) r acls
    | None => acls
    end) resources acls.

Definition requested_operations : list Operation :=
  match acl_operation args with
  | [] => [AllOp]
  | values => map (λ value, parse_operation (trim value)) values
  end.

(** The part of [resource_acls] without a role. *)
Definition plain_acls (pattern : PatternType) (acls : Acls) : result CommandError Acls :=
  if negb (acl_producer args) && negb (acl_consumer args) then
    es ← entries requested_operations;
    resources ← resource_filters pattern true;
    Ok (insert_each (λ _, Some es) resources acls)
  else Ok acls.

(** The part of [--producer]. *)
Definition producer_acls (pattern : PatternType) (acls : Acls) : result CommandError Acls :=
  if acl_producer args then
    topic ← entries [Write; Describe; Create];
    transactional_id ← entries [Write; Describe];
    resources ← resource_filters pattern true;
    let acls := insert_each (λ r, match kind r with
                                  | TopicKind => Some topic
                                  | TransactionalIdKind => Some transactional_id
                                  | _ => None
                                  end) resources acls in
    if acl_idempotent args then
      es ← entries [IdempotentWrite];
      Ok (bt_insert cluster_resource es acls)
    else Ok acls
  else Ok acls.

(** The part of [--consumer]. *)
Definition consumer_acls (pattern : PatternType) (acls : Acls) : result CommandError Acls :=
  if acl_consumer args then
    topic ← entries [Read; Describe];
    group ← entries [Read];
    resources ← resource_filters pattern true;
    Ok (extend_each (λ r, match kind r with
                          | TopicKind => Some topic
                          | GroupKind => Some group
                          | _ => None
                          end) resources acls)
  else Ok acls.

(** Whether a resource of a kind can have an entry for the operation. *)
Definition supports (k : ResourceKind) (op : Operation) : bool :=
  bool_decide (op = AllOp) || bool_decide (op ∈ kind_operations k).

Definition check_operations (acls : Acls) : result CommandError unit :=
  match find (λ '(r, es), existsb (λ e, negb (supports (kind r) (operation e))) es) acls with
  | Some (r, _) =>
      Err (Usage ("ResourceType " +:+ resource_kind_name (kind r) +:+ " only supports operations [" +:+
        join ", " (map operation_name (kind_operations (kind r) ++ [AllOp])) +:+ "]"))
  | None => Ok tt
  end.

(** [resource_acls]. *)
Definition resource_acls (pattern : PatternType) : result CommandError Acls :=
  acls ← plain_acls pattern [];
  acls ← producer_acls pattern acls;
  acls ← consumer_acls pattern acls;
  check_operations acls;; Ok acls.

(** The checks of [plan], up to the pattern type. *)
Definition given_flag (option : string) (values : list string) : string * bool :=
  (option, bool_decide (values ≠ [])).

Definition check (bad : bool) (message : string) : result CommandError unit :=
  if bad then Err (Usage message) else Ok tt.

Definition check_acl_args : result CommandError unit :=
  let allow_host := given_flag "allow-host" (acl_allow_host args) in
  let allow_principal := given_flag "allow-principal" (acl_allow_principal args) in
  let deny_host := given_flag "deny-host" (acl_deny_host args) in
  let deny_principal := given_flag "deny-principal" (acl_deny_principal args) in
  let operation := given_flag "operation" (acl_operation args) in
  check (bool_decide (bootstrap_server (acl_connection args) = []) &&
         bool_decide (bootstrap_controller (acl_connection args) = []))
    "One of --bootstrap-server or --bootstrap-controller must be specified";;
  check (negb (length (filter (λ b : bool, b = true)
                 [acl_add args; acl_remove args; acl_list args]) =? 1)%nat)
    "Command must include exactly one action: --list, --add, --remove. ";;
  refuse_with ("list", acl_list args)
    [("producer", acl_producer args); ("consumer", acl_consumer args); allow_host;
     allow_principal; deny_host; deny_principal];;
  refuse_with ("producer", acl_producer args) [operation; deny_principal; deny_host];;
  refuse_with ("consumer", acl_consumer args) [operation; deny_principal; deny_host];;
  check (is_some (acl_principal args) && negb (acl_list args))
    "The --principal option is only available if --list is set";;
  check (acl_producer args && bool_decide (acl_topic args = []))
    "With --producer you must specify a --topic";;
  check (acl_idempotent args && negb (acl_producer args))
    "The --idempotent option is only available if --producer is set";;
  check (acl_consumer args &&
         (bool_decide (acl_topic args = []) || bool_decide (acl_group args = []) ||
          (negb (acl_producer args) &&
           (acl_cluster args || bool_decide (acl_transactional_id args ≠ [])))))
    ("With --consumer you must specify a --topic and a --group and no --cluster or " +:+
     "--transactional-id option should be specified.");;
  check (acl_list args && dry_run_flag (acl_confirm args))
    "--dry-run is only valid with --add or --remove".

(** [plan]. *)
Definition acl_plan : result CommandError AclsPlan :=
  check_acl_args;;
  pattern ← parse_pattern (acl_resource_pattern_type args);
  if acl_list args then
    filters ← resource_filters pattern false;
    match acl_principal args with
    | Some values => ps ← principals values; Ok (PlanList filters (Some ps))
    | None => Ok (PlanList filters None)
    end
  else if acl_remove args then PlanRemove <$> resource_acls pattern
  else
    check (negb (is_specific pattern))
      ("A '--resource-pattern-type' value of '" +:+ pattern_name pattern +:+
       "' is not valid when adding acls.");;
    acls ← resource_acls pattern;
    check (existsb (λ acl : Resource * list Entry, bool_decide (acl.2 = [])) acls)
      ("You must specify one of: --allow-principal, --deny-principal when trying to add " +:+
       "ACLs.");;
    Ok (PlanAdd acls).
End Args.

(** ** The steps *)

(** [list_requests]. *)
Definition list_requests (filters : list Resource) : list AclBindingFilter :=
  match filters with [] => [any_acl] | filters => map resource_filter filters end.

Record AddStep := {
  add_resource : Resource;
  add_existing : AclBindingFilter;
  add_creations : list (Entry * AclBinding)
}.

Definition add_steps (acls : Acls) : result CommandError (list AddStep) :=
  try_map (λ '(r, es),
    creations ← try_map (λ e, wire ← entry_wire e r; Ok (e, wire)) es;
    Ok {| add_resource := r; add_existing := resource_filter r; add_creations := creations |})
    acls.

Record RemoveStep := {
  rm_resource : Resource;
  rm_entries : list Entry;
  rm_filters : list AclBindingFilter
}.

Definition remove_steps (acls : Acls) : result CommandError (list RemoveStep) :=
  try_map (λ '(r, es),
    let base := resource_filter r in
    filters ← match es with
              | [] => Ok [base]
              | es => try_map (λ e, entry_filter e base) es
              end;
    Ok {| rm_resource := r; rm_entries := es; rm_filters := filters |}) acls.

(** A step's lines of the prompt. *)
Definition step_resources (step : RemoveStep) : list string :=
  match rm_entries step with
  | [] => ["all ACLs for resource filter `" +:+ resource_text (rm_resource step) +:+ "`"]
  | es => map (λ e, entry_text e +:+ " from resource filter `" +:+
                    resource_text (rm_resource step) +:+ "`") es
  end.

(** [removal_impact]. *)
Definition removal_impact (steps : list RemoveStep) : Impact :=
  {| summary := "remove ACLs from " +:+ pretty (Z.of_nat (length steps)) +:+ " resource filter(s)";
     resources := steps ≫= step_resources |}.

(** ** Reports *)

Record AclReport := { acl_human : list string; acl_rows : list Value; acl_failed : bool }.
Definition empty_report : AclReport := {| acl_human := []; acl_rows := []; acl_failed := false |}.

(** [error_json]. *)
Definition error_json (error : CommandError) : Value :=
  match error with
  | Broker _ code name message =>
      object_of [("code", num code); ("name", Str name); ("message", opt_str message)]
  | other => object_of [("message", Str (command_error_text other))]
  end.

(** [broker_error]. *)
Definition broker_error (api : string) (error : KafkaError) : CommandError :=
  Broker api (error_code error) (error_name error) (error_message error).

(** [Report::stop]. *)
Definition stop (report : AclReport) (error : CommandError) (row : option Value)
    : result CommandError AclReport :=
  if bool_decide (acl_rows report = []) && negb (is_some row) then Err error
  else
    Ok {| acl_rows := acl_rows report ++ [default (object_of [("error", error_json error)]) row];
          acl_human := acl_human report ++
            ["Error while executing ACL command: " +:+ command_error_text error];
          acl_failed := true |}.

(** [Report::finish]. *)
Definition finish_report (report : AclReport) (dry_run : bool) : CommandResult :=
  let result := rows (acl_human report) (Array (acl_rows report)) (acl_failed report) in
  if dry_run then into_dry_run result else result.

Definition push_lines (report : AclReport) (lines : list string) : AclReport :=
  {| acl_human := acl_human report ++ lines; acl_rows := acl_rows report;
     acl_failed := acl_failed report |}.
Definition push_row (report : AclReport) (row : Value) : AclReport :=
  {| acl_human := acl_human report; acl_rows := acl_rows report ++ [row];
     acl_failed := acl_failed report |}.

(** ** [--add] *)

(** The requested entries of a step that the resource has, and the others. *)
Definition present_of (step : AddStep) (existing : list (Resource * Entry))
    : list (Entry * AclBinding) :=
  filter (λ c, (add_resource step, c.1) ∈ existing) (add_creations step).
Definition absent_of (step : AddStep) (existing : list (Resource * Entry))
    : list (Entry * AclBinding) :=
  filter (λ c, (add_resource step, c.1) ∉ existing) (add_creations step).

(** The lines of a step. *)
Definition add_lines (step : AddStep) (present absent : list (Entry * AclBinding)) : list string :=
  map (λ c, "Acl (pattern=" +:+ resource_text (add_resource step) +:+ ", entry=" +:+
            entry_text c.1 +:+ ") already exists.") present ++
  match absent with
  | [] => []
  | first :: rest =>
      ["Adding ACLs for resource `" +:+ resource_text (add_resource step) +:+ "`: "] ++
      [" " +:+ tab +:+ entry_text first.1] ++ map (λ c, tab +:+ entry_text c.1) rest ++ [""]
  end.

Definition add_row (step : AddStep) (present absent : list (Entry * AclBinding))
    (error : option CommandError) : Value :=
  object_of [("resource", resource_json (add_resource step));
             ("existing", Array (map (λ c, acl_entry_json c.1) present));
             ("added", Array (map (λ c, acl_entry_json c.1) absent));
             ("error", from_option error_json Null error)].

(** The first error of a list of outcomes. *)
Definition first_error (errors : list (option KafkaError)) : option KafkaError := head (omap id errors).

(** The request of a step, and its error. *)
Definition create_absent (absent : list (Entry * AclBinding)) (dry_run : bool)
    : prog admin (option CommandError) :=
  if bool_decide (absent = []) || dry_run then Halt (Done None)
  else
    prog_bind (λ answer, Halt (Done
      match answer with
      | Ok outcomes => broker_error "CreateAcls" <$> first_error outcomes
      | Err error => Some (from_admin_error error)
      end)) (send (CreateAcls (map snd absent))).

Fixpoint add_loop (steps : list AddStep) (dry_run : bool) (report : AclReport)
    : cmd admin AclReport :=
  match steps with
  | [] => pure report
  | step :: steps =>
      answer ← await (send (DescribeAcls (add_existing step)));
      match answer with
      | Err error => lift_cmd (stop report (from_admin_error error) None)
      | Ok existing =>
          let existing := set_collect (map binding existing) in
          let present := present_of step existing in
          let absent := absent_of step existing in
          let report := push_lines report (add_lines step present absent) in
          error ← await (create_absent absent dry_run);
          let row := add_row step present absent error in
          match error with
          | Some error => lift_cmd (stop report error (Some row))
          | None => add_loop steps dry_run (push_row report row)
          end
      end
  end.

(** [add]. *)
Definition add (steps : list AddStep) (dry_run : bool) : cmd admin CommandResult :=
  report ← add_loop steps dry_run empty_report;
  pure (finish_report report dry_run).

(** ** [--remove] *)

(** The dry run of a step: the entries that its filters match, up to an error. *)
Fixpoint would_remove (filters : list AclBindingFilter) (removed : list (Resource * Entry))
    : prog admin (list (Resource * Entry) * option CommandError) :=
  match filters with
  | [] => Halt (Done (removed, None))
  | filter :: filters =>
      prog_bind (λ answer,
        match answer with
        | Ok acls => would_remove filters (set_collect (removed ++ map binding acls))
        | Err error => Halt (Done (removed, Some (from_admin_error error)))
        end) (send (DescribeAcls filter))
  end.

(** What the outcomes of [DeleteAcls] say. *)
Definition deleted_acls (outcomes : list DeleteAclsOutcome) : list (Resource * Entry) * option CommandError :=
  (set_collect (outcomes ≫= λ outcome, map binding (da_matched outcome)),
   broker_error "DeleteAcls" <$> first_error (map da_error outcomes)).

Definition remove_step (step : RemoveStep) (dry_run : bool)
    : prog admin (list (Resource * Entry) * option CommandError) :=
  if dry_run then would_remove (rm_filters step) []
  else
    prog_bind (λ answer, Halt (Done
      match answer with
      | Ok outcomes => deleted_acls outcomes
      | Err error => ([], Some (from_admin_error error))
      end)) (send (DeleteAcls (rm_filters step))).

Definition remove_row (step : RemoveStep) (removed : list (Resource * Entry))
    (error : option CommandError) : Value :=
  object_of [("filter", resource_json (rm_resource step));
             ("acls", Array (map acl_entry_json (rm_entries step)));
             ("removed", Array (map (λ '(r, e),
                object_of [("resource", resource_json r); ("acl", acl_entry_json e)]) removed));
             ("error", from_option error_json Null error)].

Fixpoint remove_loop (steps : list RemoveStep) (dry_run : bool) (report : AclReport)
    : cmd admin AclReport :=
  match steps with
  | [] => pure report
  | step :: steps =>
      '(removed, error) ← await (remove_step step dry_run);
      let row := remove_row step removed error in
      match error with
      | Some error =>
          lift_cmd (stop report error (if bool_decide (removed = []) then None else Some row))
      | None => remove_loop steps dry_run (push_row report row)
      end
  end.

(** [remove]. *)
Definition remove_acls (steps : list RemoveStep) (dry_run : bool) : cmd admin CommandResult :=
  report ← remove_loop steps dry_run empty_report;
  pure (finish_report report dry_run).

(** ** [--list] *)

(** [current_acls]: the lines and the data. *)
Definition current_lines (acls : Acls) : list string :=
  acls ≫= λ '(r, es),
    ("Current ACLs for resource `" +:+ resource_text r +:+ "`:") ::
    map (λ e, tab +:+ entry_text e) es ++ [""].
Definition current_json (acls : Acls) : Value :=
  Array (map (λ '(r, es),
    object_of [("resource", resource_json r); ("acls", Array (map acl_entry_json es))]) acls).

(** The ACLs of a principal. *)
Definition own_acls (acls : Acls) (p : string) : Acls :=
  omap (λ '(r, es),
    let es := filter (λ e, principal e = p) es in
    if bool_decide (es = []) then None else Some (r, es)) acls.

(** [listed]. *)
Definition listed_acls (acls : Acls) (ps : option (list string)) : CommandResult :=
  match ps with
  | Some (_ :: _ as ps) =>
      success
        (ps ≫= λ p, ("ACLs for principal `" +:+ p +:+ "`") :: current_lines (own_acls acls p))
        (Array (map (λ p, object_of [("principal", Str p); ("acls", current_json (own_acls acls p))])
           ps))
  | _ => success (current_lines acls) (current_json acls)
  end.

(** [acls.entry(resource).or_default().insert(entry)], for the ACLs of an answer. *)
Definition add_binding (acls : Acls) (b : AclBinding) : Acls :=
  bt_alter [] (λ own, set_collect (own ++ [(binding b).2])) (binding b).1 acls.

Fixpoint list_loop (requests : list AclBindingFilter) (acls : Acls) : cmd admin Acls :=
  match requests with
  | [] => pure acls
  | request :: requests =>
      answer ← try_admin (send (DescribeAcls request));
      list_loop requests (fold_left add_binding answer acls)
  end.

(** [AclsArgs::run] and [execute]. *)
Definition acls_run (args : AclsArgs) : cmd admin CommandResult :=
  let yes := yes_flag (acl_confirm args) || acl_force args in
  let dry_run := dry_run_flag (acl_confirm args) in
  plan ← lift_cmd (acl_plan args);
  match plan with
  | PlanList filters ps =>
      connect (acl_connection args) "acls";;
      acls ← list_loop (list_requests filters) [];
      pure (listed_acls acls ps)
  | PlanAdd acls =>
      steps ← lift_cmd (add_steps acls);
      connect (acl_connection args) "acls";;
      add steps dry_run
  | PlanRemove acls =>
      steps ← lift_cmd (remove_steps acls);
      (if dry_run then pure tt else confirm yes "krabka acls" (removal_impact steps));;
      connect (acl_connection args) "acls";;
      remove_acls steps dry_run
  end.

(** ** The wire forms *)

Lemma kind_wire_round_trip k : kind_from_wire (kind_to_wire k) = k.
Proof. by destruct k. Qed.

Lemma pattern_wire_round_trip p w : pattern_to_wire p = Ok w → pattern_from_wire w = p.
Proof. destruct p; simpl; naive_solver. Qed.

Lemma operation_wire_round_trip o w : operation_to_wire o = Ok w → operation_from_wire w = o.
Proof. destruct o; simpl; naive_solver. Qed.

Lemma permission_wire_round_trip p : permission_from_wire (permission_to_wire p) = p.
Proof. by destruct p. Qed.

(** What is written to the wire reads back as the resource and the entry. *)
Lemma binding_wire e r b : entry_wire e r = Ok b → binding b = (r, e).
Proof.
  unfold entry_wire. destruct (pattern_to_wire _) as [p|] eqn:Hp; [|done].
  destruct (operation_to_wire _) as [o|] eqn:Ho; [|done]. intros [= <-].
  unfold binding. simpl. rewrite kind_wire_round_trip, permission_wire_round_trip.
  apply pattern_wire_round_trip in Hp as ->. apply operation_wire_round_trip in Ho as ->.
  by destruct r, e.
Qed.

(** A supported operation, on a specific pattern, has a wire form. *)
Lemma supports_wire k op : supports k op = true → ∃ w, operation_to_wire op = Ok w.
Proof. destruct op; try (by eexists); destruct k; done. Qed.

Lemma specific_wire p : is_specific p = true → ∃ w, pattern_to_wire p = Ok w.
Proof. destruct p; try done; by eexists. Qed.

(** Kafka's name of an operation, in any case, reads as the operation. *)
Lemma parse_operation_name op value :
  eq_ignore_ascii_case (pascal_case (operation_name op)) value = true → parse_operation value = op.
Proof.
  unfold parse_operation, eq_ignore_ascii_case. intros Hop%bool_decide_eq_true.
  rewrite <-Hop. by destruct op.
Qed.

(** ** What the command line asks for *)

Section Plans.
Context (args : AclsArgs).

(** The resources that the selectors name. *)
Definition names_resource (pattern : PatternType) (r : Resource) : Prop :=
  (r = cluster_resource ∧ pattern = LiteralPattern ∧ (acl_cluster args || acl_idempotent args) = true)
  ∨ pattern_type r = pattern ∧
    match kind r with
    | TopicKind => name r ∈ map trim (acl_topic args)
    | GroupKind => name r ∈ map trim (acl_group args)
    | TransactionalIdKind => name r ∈ acl_transactional_id args
    | DelegationTokenKind => name r ∈ map trim (acl_delegation_token args)
    | UserKind => name r ∈ map trim (acl_user_principal args)
    | ClusterKind => False
    end.

(** The operations that the flags ask for on a kind of resource. *)
Definition producer_operations (k : ResourceKind) : list Operation :=
  if acl_producer args then
    match k with
    | TopicKind => [Write; Describe; Create]
    | TransactionalIdKind => [Write; Describe]
    | ClusterKind => if acl_idempotent args then [IdempotentWrite] else []
    | _ => []
    end
  else [].
Definition consumer_operations (k : ResourceKind) : list Operation :=
  if acl_consumer args then
    match k with TopicKind => [Read; Describe] | GroupKind => [Read] | _ => [] end
  else [].
Definition role_operations (k : ResourceKind) : list Operation :=
  if acl_producer args || acl_consumer args then producer_operations k ++ consumer_operations k
  else requested_operations args.

(** The principal, host and permission that the flags ask for. *)
Definition grants (e : Entry) : Prop :=
  match permission e with
  | Allow =>
      principal e ∈ map trim (acl_allow_principal args) ∧
      host e ∈ acl_hosts (acl_allow_host args) true
  | Deny =>
      principal e ∈ map trim (acl_deny_principal args) ∧ host e ∈ acl_hosts (acl_deny_host args) true
  end.

Lemma principals_from_Ok values seen ps :
  principals_from values seen = Ok ps → ∀ p, p ∈ ps ↔ p ∈ seen ∨ p ∈ map trim values.
Proof.
  revert seen. induction values as [|v values IH]; simpl; intros seen.
  - intros [= <-]. set_solver.
  - destruct (contains_byte _ _); [|done]. intros H p. rewrite (IH _ H p), elem_of_cons.
    case_bool_decide; set_solver.
Qed.

Lemma elem_of_named pattern k names t r :
  r ∈ named pattern k names t ↔
  kind r = k ∧ pattern_type r = pattern ∧ name r ∈ (if t then map trim names else names).
Proof.
  unfold named. rewrite list_elem_of_fmap. split.
  - intros (n & -> & Hn). split_and!; [done..|]. destruct t; set_solver.
  - destruct r as [k' n p]; simpl. intros (-> & -> & Hn). destruct t.
    + apply list_elem_of_fmap in Hn as (m & -> & Hm). by exists m.
    + by exists n.
Qed.

Lemma resource_filters_Ok pattern required rs :
  resource_filters args pattern required = Ok rs → ∀ r, r ∈ rs ↔ names_resource pattern r.
Proof.
  unfold resource_filters. case_match; [done|]. intros [= <-] r.
  rewrite elem_of_set_collect, !elem_of_app, !elem_of_named. unfold names_resource.
  assert (r ∈ (if bool_decide (pattern = LiteralPattern) && (acl_cluster args || acl_idempotent args)
    then [cluster_resource] else []) ↔ r = cluster_resource ∧ pattern = LiteralPattern ∧
      (acl_cluster args || acl_idempotent args) = true) as ->.
  { destruct (bool_decide_reflect (pattern = LiteralPattern)), (_ || _); simpl; set_solver. }
  destruct r as [[] n p]; simpl; naive_solver.
Qed.

Lemma principal_entries_Ok ops hs p pr es :
  principal_entries ops hs p pr = Ok es →
  ∀ e, e ∈ es ↔ principal e = pr ∧ permission e = p ∧ operation e ∈ ops ∧ host e ∈ hs.
Proof.
  unfold principal_entries. destruct (try_map _ _) as [ess|] eqn:Ht; [|done]. intros [= <-] e.
  apply try_map_Ok in Ht. rewrite elem_of_concat. split.
  - intros (l & He & Hl). destruct (Forall2_elem_r _ _ _ _ Ht Hl) as (op & Hop & Hf).
    case_bool_decide; [done|]. injection Hf as <-.
    apply list_elem_of_fmap in He as (h & -> & Hh). done.
  - intros (<- & <- & Hop & Hh). apply list_elem_of_lookup in Hop as [i Hi].
    destruct (Forall2_lookup_l _ _ _ _ _ Ht Hi) as (l & Hl & Hf). case_bool_decide; [done|].
    injection Hf as <-. eexists. split; [|by eapply list_elem_of_lookup_2].
    apply list_elem_of_fmap. exists (host e). by destruct e.
Qed.

Lemma entries_Ok ops es :
  entries args ops = Ok es → ∀ e, e ∈ es ↔ operation e ∈ ops ∧ grants e.
Proof.
  unfold entries. intros H e.
  destruct (principals (acl_allow_principal args)) as [allowed|] eqn:E; [|done].
  destruct (principals (acl_deny_principal args)) as [denied|] eqn:E0; [|done]. cbn in H.
  destruct (try_map _ allowed) as [allow|] eqn:E1; [|done].
  destruct (try_map _ denied) as [deny|] eqn:E2; [|done]. injection H as <-.
  assert (∀ values, e.(principal) ∈ map trim values → bool_decide (values ≠ []) = true) as Hne.
  { intros [|v values]; [by intros ?%elem_of_nil|done]. }
  rewrite elem_of_set_collect, elem_of_app.
  rewrite (try_map_concat_Ok _ _ _ _ E1 (principal_entries_Ok _ _ _)).
  rewrite (try_map_concat_Ok _ _ _ _ E2 (principal_entries_Ok _ _ _)).
  pose proof (principals_from_Ok _ _ _ E) as Hal. pose proof (principals_from_Ok _ _ _ E0) as Hde.
  unfold grants. split.
  - intros [(a & Hin & <- & -> & Hop & Hh)|(a & Hin & <- & -> & Hop & Hh)];
      [apply Hal in Hin as [[]%elem_of_nil|Hin]|apply Hde in Hin as [[]%elem_of_nil|Hin]];
      rewrite (Hne _ Hin) in Hh; done.
  - intros [Hop Hg]. destruct (permission e) eqn:Hp; destruct Hg as [Hin Hh]; [left|right];
      exists (principal e); rewrite (Hne _ Hin); split_and!; try done; [apply Hal|apply Hde]; by right.
Qed.

(** The entries of a resource; an absent resource has none. *)
Definition acl_entries (acls : Acls) (r : Resource) : list Entry := default [] (bt_get r acls).

Lemma bt_get_insert_each choose rs acls r :
  bt_wf acls →
  bt_wf (insert_each choose rs acls) ∧
  bt_get r (insert_each choose rs acls) =
    match choose r with
    | Some es => if decide (r ∈ rs) then Some es else bt_get r acls
    | None => bt_get r acls
    end.
Proof.
  unfold insert_each. revert acls. induction rs as [|x rs IH]; intros acls Hwf; cbn [fold_left].
  { split; [done|]. destruct (choose r); [|done]. case_decide; [set_solver|done]. }
  destruct (choose x) as [es|] eqn:Hx.
  - destruct (IH (bt_insert x es acls)) as [Hwf' ->]; [by apply bt_insert_wf|]. split; [done|].
    destruct (choose r) as [es'|] eqn:Hr; rewrite bt_get_insert by done.
    + repeat case_decide; try done; set_solver.
    + case_decide; [congruence|done].
  - destruct (IH acls Hwf) as [Hwf' ->]. split; [done|]. destruct (choose r) as [es'|] eqn:Hr; [|done].
    assert (r ≠ x) by congruence. repeat case_decide; try done; set_solver.
Qed.

Lemma extend_each_spec choose rs acls r :
  bt_wf acls →
  bt_wf (extend_each choose rs acls) ∧
  (is_Some (bt_get r (extend_each choose rs acls)) ↔
     is_Some (bt_get r acls) ∨ r ∈ rs ∧ is_Some (choose r)) ∧
  ∀ e, e ∈ acl_entries (extend_each choose rs acls) r ↔
    e ∈ acl_entries acls r ∨ r ∈ rs ∧ ∃ es, choose r = Some es ∧ e ∈ es.
Proof.
  unfold extend_each. revert acls. induction rs as [|x rs IH]; simpl; intros acls Hwf; [set_solver|].
  destruct (choose x) as [es|] eqn:Hx.
  - destruct (IH (bt_alter [] (λ own, set_collect (own ++ es)) x acls)) as (Hwf' & Hk & He);
      [by apply bt_alter_wf|].
    split; [done|]. unfold acl_entries in *. rewrite bt_get_alter in Hk, He by done. split.
    + rewrite Hk, elem_of_cons. case_decide; subst; naive_solver.
    + intros e. rewrite He, elem_of_cons. clear He Hk. case_decide as Hxr; simpl.
      * subst x. rewrite elem_of_set_collect, elem_of_app, Hx. naive_solver.
      * naive_solver.
  - destruct (IH acls Hwf) as (Hwf' & Hk & He). split; [done|]. split.
    + rewrite Hk, elem_of_cons. split; [naive_solver|]. intros [?|[[->|?] [? ?]]]; [by left|congruence|].
      right. split; [done|]. by eexists.
    + intros e. rewrite He, elem_of_cons. split; [naive_solver|].
      intros [?|[[->|?] (? & ? & ?)]]; [by left|congruence|]. right. eauto.
Qed.

(** The resources of the selectors, and the cluster of [--producer --idempotent]. *)
Definition asked_resource (pattern : PatternType) (r : Resource) : Prop :=
  names_resource pattern r ∨
  r = cluster_resource ∧ acl_producer args = true ∧ acl_idempotent args = true.

(** The entries of each resource are those of [ops] that the flags grant. *)
Definition asks (pattern : PatternType) (ops : ResourceKind → list Operation) (acls : Acls) : Prop :=
  bt_wf acls ∧
  (∀ r, is_Some (bt_get r acls) ↔ asked_resource pattern r ∧ ops (kind r) ≠ []) ∧
  ∀ r e, e ∈ acl_entries acls r ↔
    asked_resource pattern r ∧ operation e ∈ ops (kind r) ∧ grants e.

Lemma asks_ext pattern ops ops' acls :
  (∀ k, ops k = ops' k) → asks pattern ops acls → asks pattern ops' acls.
Proof.
  intros Hops (Hwf & Hk & He). split_and!; [done|..].
  - intros r. by rewrite <-Hops.
  - intros r e. by rewrite <-Hops.
Qed.

Lemma asks_nil pattern : asks pattern (λ _, []) [].
Proof.
  split_and!; [apply bt_nil_wf|intros r; simpl|intros r e; unfold acl_entries; simpl]; [|set_solver].
  split; [by intros []|naive_solver].
Qed.

(** [choose] picks, for a resource, the entries of its operations that the flags
    grant. *)
Definition chooses (choose : Resource → option (list Entry)) (ops : ResourceKind → list Operation)
    : Prop :=
  ∀ r, match choose r with
       | Some es => ops (kind r) ≠ [] ∧ ∀ e, e ∈ es ↔ operation e ∈ ops (kind r) ∧ grants e
       | None => ops (kind r) = []
       end.

Lemma insert_each_asks choose ops pattern rs :
  chooses choose ops → (∀ r, r ∈ rs ↔ names_resource pattern r) →
  (∀ r, asked_resource pattern r → ops (kind r) ≠ [] → r ∈ rs) →
  asks pattern ops (insert_each choose rs []).
Proof.
  intros Hc Hrs Hall.
  assert (∀ r, r ∈ rs → asked_resource pattern r) as Hin by (intros r Hr; left; by apply Hrs).
  split; [apply (bt_get_insert_each choose rs [] cluster_resource bt_nil_wf)|].
  unfold acl_entries. split; [intros r|intros r e];
    destruct (bt_get_insert_each choose rs [] r bt_nil_wf) as [_ ->];
    specialize (Hc r); specialize (Hall r); specialize (Hin r); destruct (choose r) as [es|].
  - destruct Hc as [Hne _]. case_decide; simpl; [naive_solver|]. split; [by intros []|naive_solver].
  - simpl. split; [by intros []|naive_solver].
  - destruct Hc as [Hne Hes]. case_decide; simpl; [rewrite Hes; naive_solver|].
    rewrite elem_of_nil. naive_solver.
  - simpl. rewrite Hc, !elem_of_nil. naive_solver.
Qed.

Lemma extend_each_asks choose ops ops' pattern rs acls :
  chooses choose ops → (∀ r, r ∈ rs ↔ names_resource pattern r) →
  (∀ r, asked_resource pattern r → ops (kind r) ≠ [] → r ∈ rs) → asks pattern ops' acls →
  asks pattern (λ k, ops' k ++ ops k) (extend_each choose rs acls).
Proof.
  intros Hc Hrs Hall (Hwf & Hk & He).
  assert (∀ r, r ∈ rs → asked_resource pattern r) as Hin by (intros r Hr; left; by apply Hrs).
  split; [apply (extend_each_spec choose rs acls cluster_resource Hwf)|].
  split; [intros r|intros r e]; destruct (extend_each_spec choose rs acls r Hwf) as (_ & Hk' & He');
    specialize (Hc r); specialize (Hall r); specialize (Hin r); specialize (Hk r).
  - rewrite Hk', Hk. clear Hk' He'. destruct (choose r) as [es|].
    + destruct Hc as [Hne _]. destruct (ops (kind r)), (ops' (kind r)); naive_solver.
    + rewrite Hc, app_nil_r. split; [intros [?|[? []]]; naive_solver|naive_solver].
  - rewrite He', He, elem_of_app. clear Hk' He' Hk. destruct (choose r) as [es|].
    + destruct Hc as [Hne Hes]. specialize (Hes e). naive_solver.
    + rewrite Hc, elem_of_nil. naive_solver.
Qed.

Lemma plain_asks pattern acls :
  acl_producer args = false → acl_consumer args = false → plain_acls args pattern [] = Ok acls →
  asks pattern (λ _, requested_operations args) acls.
Proof.
  intros Hp Hc. unfold plain_acls. rewrite Hp, Hc. simpl. intros H.
  destruct (entries args _) as [es|] eqn:He; [|done].
  destruct (resource_filters args pattern true) as [rs|] eqn:Hr; [|done]. injection H as <-.
  pose proof (resource_filters_Ok _ _ _ Hr) as Hrs. apply insert_each_asks; [|done|].
  - intros r. split; [unfold requested_operations; by destruct (acl_operation args)|].
    by apply entries_Ok.
  - intros r [?|(-> & ? & ?)] _; [by apply Hrs|congruence].
Qed.

Lemma producer_asks pattern acls :
  producer_acls args pattern [] = Ok acls → asks pattern producer_operations acls.
Proof.
  unfold producer_acls. destruct (acl_producer args) eqn:Hp.
  2:{ intros [= <-]. unfold producer_operations. rewrite Hp. apply asks_nil. }
  intros H. destruct (entries args [Write; _; _]) as [topic|] eqn:Ht; [|done].
  destruct (entries args [Write; Describe]) as [trans|] eqn:Htx; [|done].
  destruct (resource_filters args pattern true) as [rs|] eqn:Hr; [|done]. cbn in H.
  pose proof (resource_filters_Ok _ _ _ Hr) as Hrs.
  set (base := λ k, match k with TopicKind => [Write; Describe; Create]
    | TransactionalIdKind => [Write; Describe] | _ => [] end).
  assert (asks pattern base (insert_each (λ r, match kind r with TopicKind => Some topic
    | TransactionalIdKind => Some trans | _ => None end) rs [])) as (Hwf & Hk & He).
  { apply insert_each_asks; [|done|].
    - intros r. unfold base. destruct (kind r); try done; (split; [done|by apply entries_Ok]).
    - intros r [?|(-> & ? & ?)]; [by intros; apply Hrs|done]. }
  destruct (acl_idempotent args) eqn:Hi.
  2:{ injection H as <-. apply (asks_ext _ base); [|done]. intros k. unfold producer_operations, base.
      rewrite Hp, Hi. by destruct k. }
  destruct (entries args [IdempotentWrite]) as [es|] eqn:Hes; [|done]. injection H as <-.
  assert (∀ r, r ≠ cluster_resource → asked_resource pattern r → producer_operations (kind r) = base (kind r))
    as Hbase.
  { intros r Hne Hr'. unfold producer_operations, base. rewrite Hp, Hi. destruct (kind r) eqn:Hkr; try done.
    destruct Hr' as [[(-> & _)|[_ Hn]]|(-> & _)]; [done| |done]. by rewrite Hkr in Hn. }
  assert (asked_resource pattern cluster_resource) as Hcl by (right; done).
  assert (producer_operations ClusterKind = [IdempotentWrite]) as Hops.
  { unfold producer_operations. by rewrite Hp, Hi. }
  unfold asks, acl_entries in *. split; [by apply bt_insert_wf|].
  split; [intros r|intros r e]; rewrite bt_get_insert by done; specialize (Hbase r);
    (case_decide as Hd; [subst r; cbn [kind cluster_resource default]; rewrite Hops|]).
  - split; [done|]. by eexists.
  - rewrite Hk. split; intros [Ha Hn]; (split; [done|]); [by rewrite Hbase|by rewrite <-Hbase].
  - rewrite (entries_Ok _ _ Hes). clear - Hcl. tauto.
  - rewrite He. split; intros (Ha & Hn & Hg); (split_and!; [done| |done]); [by rewrite Hbase|by rewrite <-Hbase].
Qed.

Lemma consumer_asks pattern acls acls' :
  asks pattern producer_operations acls → consumer_acls args pattern acls = Ok acls' →
  asks pattern (λ k, producer_operations k ++ consumer_operations k) acls'.
Proof.
  intros Hacls. unfold consumer_acls. destruct (acl_consumer args) eqn:Hc.
  2:{ intros [= <-]. eapply asks_ext; [|done]. intros k. unfold consumer_operations.
      by rewrite Hc, app_nil_r. }
  intros H. destruct (entries args [Read; Describe]) as [topic|] eqn:Ht; [|done].
  destruct (entries args [Read]) as [group|] eqn:Hg; [|done].
  destruct (resource_filters args pattern true) as [rs|] eqn:Hr; [|done]. injection H as <-.
  pose proof (resource_filters_Ok _ _ _ Hr) as Hrs. apply extend_each_asks; [|done| |done].
  - intros r. unfold consumer_operations. rewrite Hc.
    destruct (kind r); try done; (split; [done|by apply entries_Ok]).
  - intros r [?|(-> & ? & ?)]; [by intros; apply Hrs|]. unfold consumer_operations. by rewrite Hc.
Qed.

Lemma check_operations_Ok acls :
  check_operations acls = Ok tt →
  Forall (λ acl : Resource * list Entry, Forall (λ e, supports (kind acl.1) (operation e) = true) acl.2) acls.
Proof.
  unfold check_operations. destruct (find _ _) as [[r es]|] eqn:Hf; [done|]. intros _.
  apply Forall_forall. intros [r es] Hin. apply Forall_forall. intros e He.
  apply list_elem_of_In in Hin, He. pose proof (find_none _ _ Hf _ Hin) as Hn. simpl in Hn.
  cbn [fst]. destruct (supports _ _) eqn:Hs; [done|]. rewrite <-Hn. apply existsb_exists.
  exists e. split; [done|]. by rewrite Hs.
Qed.

Lemma resource_acls_asks pattern acls :
  resource_acls args pattern = Ok acls →
  asks pattern role_operations acls ∧
  Forall (λ acl : Resource * list Entry, Forall (λ e, supports (kind acl.1) (operation e) = true) acl.2) acls.
Proof.
  unfold resource_acls. intros H. destruct (plain_acls args pattern []) as [acls1|] eqn:E1; [|done].
  cbn in H. destruct (producer_acls args pattern acls1) as [acls2|] eqn:E2; [|done]. cbn in H.
  destruct (consumer_acls args pattern acls2) as [acls3|] eqn:E3; [|done]. cbn in H.
  destruct (check_operations acls3) as [[]|] eqn:E4; [|done]. injection H as <-.
  split; [|by apply check_operations_Ok].
  destruct (acl_producer args || acl_consumer args) eqn:Hroles.
  - assert (acls1 = []) as ->.
    { unfold plain_acls in E1. destruct (acl_producer args), (acl_consumer args); simpl in *; congruence. }
    eapply asks_ext; [|eapply consumer_asks; [by apply producer_asks|done]].
    intros k. unfold role_operations. by rewrite Hroles.
  - apply orb_false_iff in Hroles as [Hp Hc]. unfold producer_acls in E2. rewrite Hp in E2.
    unfold consumer_acls in E3. rewrite Hc in E3. simplify_eq.
    eapply asks_ext; [|by apply plain_asks]. intros k. unfold role_operations. by rewrite Hp, Hc.
Qed.
End Plans.

(** ** Plans and steps *)

Lemma add_steps_total acls :
  Forall (λ acl : Resource * list Entry, is_specific (pattern_type acl.1) = true ∧
    Forall (λ e, supports (kind acl.1) (operation e) = true) acl.2) acls →
  ∃ steps, add_steps acls = Ok steps.
Proof.
  intros Hacls. apply try_map_total. eapply Forall_impl; [exact Hacls|]. intros [r es] [Hr Hes].
  apply specific_wire in Hr as [p Hp].
  destruct (try_map_total (λ e, wire ← entry_wire e r; Ok (e, wire)) es) as [cs ->]; [|by eexists].
  eapply Forall_impl; [exact Hes|]. intros e [o Ho]%supports_wire. cbn in Hp.
  unfold entry_wire. rewrite Hp, Ho. by eexists.
Qed.

Lemma remove_steps_total acls :
  Forall (λ acl : Resource * list Entry,
    Forall (λ e, supports (kind acl.1) (operation e) = true) acl.2) acls →
  ∃ steps, remove_steps acls = Ok steps.
Proof.
  intros Hacls. apply try_map_total. eapply Forall_impl; [exact Hacls|]. intros [r es] Hes. cbn in Hes.
  destruct (try_map_total (λ e, entry_filter e (resource_filter r)) es) as [fs Hfs].
  { eapply Forall_impl; [exact Hes|]. intros e [o Ho]%supports_wire. unfold entry_filter. rewrite Ho.
    by eexists. }
  destruct es as [|e es]; [by eexists|]. cbn beta iota zeta. eexists. etrans; [|reflexivity].
  by rewrite Hfs.
Qed.

Lemma check_Ok bad message : check bad message = Ok tt → bad = false.
Proof. by destruct bad. Qed.

(** One action was given. *)
Lemma check_acl_args_action args :
  check_acl_args args = Ok tt →
  length (filter (λ b : bool, b = true) [acl_add args; acl_remove args; acl_list args]) = 1%nat.
Proof.
  unfold check_acl_args. intros H. apply then_Ok in H as [_ H]. apply then_Ok in H as [E _].
  apply check_Ok, negb_false_iff, Nat.eqb_eq in E. exact E.
Qed.

(** [--list] refuses [--dry-run]. *)
Lemma check_acl_args_dry_run args :
  check_acl_args args = Ok tt → acl_list args && dry_run_flag (acl_confirm args) = false.
Proof.
  unfold check_acl_args. intros H. do 9 apply then_Ok in H as [_ H]. by apply check_Ok in H.
Qed.

Lemma acl_plan_not_list args filters ps :
  dry_run_flag (acl_confirm args) = true → acl_plan args ≠ Ok (PlanList filters ps).
Proof.
  intros Hdry H. unfold acl_plan in H. apply then_Ok in H as [Hc H].
  apply check_acl_args_dry_run in Hc. rewrite Hdry, andb_true_r in Hc. rewrite Hc in H.
  destruct (parse_pattern _) as [pattern|]; [|done]. cbn in H.
  destruct (acl_remove args); [by destruct (resource_acls args pattern)|].
  apply then_Ok in H as [_ H]. destruct (resource_acls args pattern); [|done]. cbn in H.
  by apply then_Ok in H as [_ H].
Qed.

Lemma asks_specific args pattern ops acls :
  asks args pattern ops acls → is_specific pattern = true →
  Forall (λ acl : Resource * list Entry, is_specific (pattern_type acl.1) = true) acls.
Proof.
  intros (Hwf & Hk & _) Hs. apply Forall_forall. intros [r es] Hin. cbn [fst].
  apply bt_get_elem in Hin; [|done]. assert (is_Some (bt_get r acls)) as [Hr _]%Hk by by eexists.
  destruct Hr as [[(-> & _)|[-> _]]|(-> & _)]; done.
Qed.

(** What [krabka acls] takes its command line to ask for. A plan to list
    names the resources of the selectors. A plan to add or to remove has, for
    each resource of the selectors, and for the cluster under
    [--producer --idempotent], exactly the entries of the principals, hosts and
    permissions of the flags with the operations of the flags, or those that
    [--producer] and [--consumer] stand for on that type of resource. A plan to
    add is of concrete patterns and leaves no resource without an entry. Every
    operation is one that the resource type supports, so that every entry of a
    plan can be sent. *)
Theorem acl_plan_spec (args : AclsArgs) (plan : AclsPlan) :
  acl_plan args = Ok plan →
  ∃ pattern, parse_pattern (acl_resource_pattern_type args) = Ok pattern ∧
    match plan with
    | PlanList filters ps =>
        acl_list args = true ∧ ∀ r, r ∈ filters ↔ names_resource args pattern r
    | PlanAdd acls =>
        acl_add args = true ∧ acl_remove args = false ∧ acl_list args = false ∧
        is_specific pattern = true ∧ asks args pattern (role_operations args) acls ∧
        Forall (λ acl : Resource * list Entry, acl.2 ≠ []) acls ∧
        ∃ steps, add_steps acls = Ok steps
    | PlanRemove acls =>
        acl_add args = false ∧ acl_remove args = true ∧ acl_list args = false ∧
        asks args pattern (role_operations args) acls ∧
        ∃ steps, remove_steps acls = Ok steps
    end.
Proof.
  unfold acl_plan. intros H. destruct (check_acl_args args) as [[]|] eqn:Hc; [|done]. cbn in H.
  apply check_acl_args_action in Hc.
  destruct (parse_pattern _) as [pattern|] eqn:Hp; [|done]. cbn in H. exists pattern. split; [done|].
  destruct (acl_list args) eqn:Hl.
  { destruct (resource_filters args pattern false) as [fs|] eqn:Hf; [|done]. cbn in H.
    pose proof (resource_filters_Ok _ _ _ _ Hf) as Hfs.
    destruct (acl_principal args); [destruct (principals _); [|done]|]; injection H as <-; done. }
  destruct (acl_remove args) eqn:Hr.
  { destruct (resource_acls args pattern) as [acls|] eqn:Ha; [|done]. injection H as <-.
    apply resource_acls_asks in Ha as [Ha Hs]. split_and!; [|done..|by apply remove_steps_total].
    by destruct (acl_add args). }
  destruct (check (negb _) _) as [[]|] eqn:Hs; [|done]. cbn in H. apply check_Ok, negb_false_iff in Hs.
  destruct (resource_acls args pattern) as [acls|] eqn:Ha; [|done]. cbn in H.
  destruct (check (existsb _ _) _) as [[]|] eqn:He; [|done]. injection H as <-. apply check_Ok in He.
  apply resource_acls_asks in Ha as [Ha Hsup].
  split_and!; [by destruct (acl_add args)|done..| |].
  - apply Forall_forall. intros acl Hin Hnil. apply not_true_iff_false in He. apply He, existsb_exists.
    exists acl. rewrite <-list_elem_of_In. split; [done|]. by apply bool_decide_eq_true.
  - pose proof (asks_specific _ _ _ _ Ha Hs) as Hsp. rewrite Forall_forall in Hsp, Hsup.
    apply add_steps_total, Forall_forall. intros acl Hin. split; [by apply Hsp|by apply Hsup].
Qed.

(** ** What is changed *)

Definition accepted_removal (steps : list RemoveStep) (past : list (event admin)) : Prop :=
  (existT (AskConfirm "krabka acls" (removal_impact steps) : call admin) (Ok tt) : event admin) ∈ past.

(** A request that changed ACLs and was answered without an error. *)
Definition acl_succeeded (e : event admin) : Prop :=
  match e with
  | existT (CreateAcls _) answer =>
      ∃ outcomes, answer = Ok outcomes ∧ Forall (λ error, error = None) outcomes
  | existT (DeleteAcls _) answer =>
      ∃ outcomes, answer = Ok outcomes ∧ Forall (λ outcome, da_error outcome = None) outcomes
  | _ => True
  end.

(** The bindings of the requested entries of a step that the answer to its
    filter does not have. *)
Definition missing_bindings (step : AddStep) (found : list AclBinding) : list AclBinding :=
  map snd (filter (λ c : Entry * AclBinding, (add_resource step, c.1) ∉ map binding found)
    (add_creations step)).

(** The changes that the command line authorises, by what came before. *)
Definition rightful_acls (args : AclsArgs) (past : list (event admin)) (c : admin_call) : Prop :=
  match c with
  | CreateAcls bindings =>
      ∃ acls steps step found, acl_plan args = Ok (PlanAdd acls) ∧ add_steps acls = Ok steps ∧
        step ∈ steps ∧ dry_run_flag (acl_confirm args) = false ∧ bindings ≠ [] ∧
        bindings = missing_bindings step found ∧
        (∃ before, past = before ++
           [existT (DescribeAcls (add_existing step) : call admin) (Ok found) : event admin]) ∧
        Forall acl_succeeded past
  | DeleteAcls filters =>
      ∃ acls steps step, acl_plan args = Ok (PlanRemove acls) ∧ remove_steps acls = Ok steps ∧
        step ∈ steps ∧ dry_run_flag (acl_confirm args) = false ∧ filters = rm_filters step ∧
        (yes_flag (acl_confirm args) = true ∨ acl_force args = true ∨ accepted_removal steps past) ∧
        Forall acl_succeeded past
  | c => mutating c = false
  end.

Lemma rightful_acls_reads args past c : mutating c = false → rightful_acls args past c.
Proof. by destruct c. Qed.

Lemma reads_succeeded (past : list (event admin)) :
  Forall (λ e, changes e = false) past → Forall acl_succeeded past.
Proof. intros Hp. eapply Forall_impl; [exact Hp|]. by intros [[] r]. Qed.

Lemma first_error_None errors : first_error errors = None → Forall (λ error, error = None) errors.
Proof.
  unfold first_error. intros H%head_None. induction errors as [|[e|] errors IH]; [done|done|].
  constructor; [done|]. by apply IH.
Qed.

Lemma harmless_would_remove filters removed : harmless (would_remove filters removed).
Proof.
  revert removed. induction filters as [|filter filters IH]; intros removed; simpl; [done|].
  split; [done|]. intros [acls|error]; [apply IH|done].
Qed.
#[local] Hint Resolve harmless_would_remove : krabka.

Lemma harmless_stop report error row : harmless (lift_cmd (stop report error row)).
Proof. done. Qed.

Lemma harmless_add_loop steps report : harmless (add_loop steps true report).
Proof.
  revert report. induction steps as [|step steps IH]; intros report; cbn [add_loop]; [done|].
  apply harmless_bind; [auto with krabka|]. intros [found|error]; [|done]. cbv zeta.
  apply harmless_bind; [|intros [error|]; [done|apply IH]].
  apply harmless_await. unfold create_absent. by rewrite orb_true_r.
Qed.

Lemma harmless_remove_loop steps report : harmless (remove_loop steps true report).
Proof.
  revert report. induction steps as [|step steps IH]; intros report; cbn [remove_loop]; [done|].
  apply harmless_bind; [apply harmless_await, harmless_would_remove|].
  intros [removed [error|]]; [done|]. apply IH.
Qed.

Lemma harmless_list_loop requests acls : harmless (list_loop requests acls).
Proof.
  revert acls. induction requests as [|request requests IH]; intros acls; simpl; [done|].
  split; [done|]. intros [found|error]; [apply IH|done].
Qed.
#[local] Hint Resolve harmless_add_loop harmless_remove_loop harmless_list_loop : krabka.

Section Changes.
Context (args : AclsArgs).

Lemma add_loop_rightful acls all steps report past :
  acl_plan args = Ok (PlanAdd acls) → add_steps acls = Ok all → steps ⊆ all →
  dry_run_flag (acl_confirm args) = false → Forall acl_succeeded past →
  monitored (history (Σ := admin) (rightful_acls args)) past (add_loop steps false report)
    (on_ok (λ _ _, True)).
Proof.
  intros Hplan Hall Hsub Hdry. revert report past.
  induction steps as [|step steps IH]; intros report past Hpast; simpl; [done|].
  split; [done|]. intros [found|error]; simpl; [|by destruct (stop _ _ _)].
  set (past1 := past ++ [existT (DescribeAcls (add_existing step) : call admin) (Ok found)]).
  assert (Forall acl_succeeded past1) as Hpast1 by (apply Forall_app; split; [done|by repeat constructor]).
  assert (map snd (absent_of step (set_collect (map binding found))) = missing_bindings step found) as Habs.
  { unfold absent_of, missing_bindings. f_equal. apply list_filter_iff. intros c.
    by rewrite elem_of_set_collect. }
  unfold create_absent. rewrite orb_false_r. case_bool_decide as Hnil; simpl.
  { apply IH; [set_solver|done]. }
  split.
  - exists acls, all, step, found. split_and!; try done; [set_solver| |by exists past].
    intros Hm. by apply map_eq_nil in Hm.
  - intros [outcomes|error]; simpl; [|by destruct (stop _ _ _)].
    destruct (first_error outcomes) as [error|] eqn:He; simpl; [by destruct (stop _ _ _)|].
    apply IH; [set_solver|]. apply Forall_app. split; [done|]. repeat constructor.
    exists outcomes. split; [done|]. by apply first_error_None.
Qed.

Lemma remove_loop_rightful acls all steps report past :
  acl_plan args = Ok (PlanRemove acls) → remove_steps acls = Ok all → steps ⊆ all →
  dry_run_flag (acl_confirm args) = false →
  yes_flag (acl_confirm args) = true ∨ acl_force args = true ∨ accepted_removal all past →
  Forall acl_succeeded past →
  monitored (history (Σ := admin) (rightful_acls args)) past (remove_loop steps false report)
    (on_ok (λ _ _, True)).
Proof.
  intros Hplan Hall Hsub Hdry. revert report past.
  induction steps as [|step steps IH]; intros report past Hyes Hpast; simpl; [done|].
  split.
  - exists acls, all, step. split_and!; try done. set_solver.
  - intros [outcomes|error]; simpl; [|by destruct (stop _ _ _)].
    destruct (first_error _) as [error|] eqn:He; simpl; [by destruct (stop _ _ _)|].
    apply IH; [set_solver| |].
    + destruct Hyes as [?|[?|Hin]]; [by left|by right; left|]. right; right.
      unfold accepted_removal in *. set_solver.
    + apply Forall_app. split; [done|]. repeat constructor. exists outcomes. split; [done|].
      by apply first_error_None, Forall_map in He.
Qed.
End Changes.

(** C17. What [krabka acls] changes, for every cluster. It creates ACLs only under
    [--add] and deletes them only under [--remove], and neither under
    [--dry-run]. A request to create follows at once the answer that lists the
    resource's ACLs, and has the bindings of exactly the requested entries that
    this answer does not have, at least one. A request to delete has the filters
    of one of the planned resources, after the operator accepted a prompt of the
    whole plan, or with [--yes] or [--force]. No change is asked for after one
    that was answered with an error. *)
Theorem acls_requests (args : AclsArgs) :
  ∀ W (world : ∀ c : admin_call, W → admin_answer c * W) (w : W) pre e post,
    events_of world (acls_run args) w = pre ++ e :: post → rightful_acls args pre (projT1 e).
Proof.
  intros W world w pre e post. apply (run_history (Σ := admin) world _ _ (on_ok (λ _ _, True))).
  unfold acls_run. destruct (acl_plan args) as [plan|error] eqn:Hplan; [|done].
  cbn [lift_cmd mbind cmd_bind prog_bind].
  assert (∀ p : cmd admin CommandResult, harmless p →
    monitored (history (Σ := admin) (rightful_acls args)) [] p (on_ok (λ _ _, True))) as Hread.
  { intros p Hp. eapply monitored_mono; [apply history_harmless; [apply rightful_acls_reads|done]|].
    by intros ? [[]| |]. }
  destruct plan as [filters ps|acls|acls].
  - apply Hread. harmless.
  - destruct (add_steps acls) as [steps|] eqn:Hsteps; [|done]. cbn [lift_cmd mbind cmd_bind prog_bind].
    destruct (dry_run_flag (acl_confirm args)) eqn:Hdry; [apply Hread; unfold add; harmless|].
    apply history_bind; [apply rightful_acls_reads|auto with krabka|intros log1 [] H1].
    eapply monitored_cmd_bind; [|by intros].
    eapply add_loop_rightful; [done..|]. apply reads_succeeded.
    by apply harmless_trace in H1; [|auto with krabka].
  - destruct (remove_steps acls) as [steps|] eqn:Hsteps; [|done]. cbn [lift_cmd mbind cmd_bind prog_bind].
    destruct (dry_run_flag (acl_confirm args)) eqn:Hdry; [apply Hread; unfold remove_acls; harmless|].
    apply history_bind; [apply rightful_acls_reads|auto with krabka|intros log1 [] H1].
    apply history_bind; [apply rightful_acls_reads|auto with krabka|intros log2 [] H2].
    eapply monitored_cmd_bind; [|by intros].
    apply harmless_trace in H1 as F1; [|auto with krabka].
    apply harmless_trace in H2 as F2; [|auto with krabka].
    eapply remove_loop_rightful; [done..| |by apply reads_succeeded, Forall_app].
    apply trace_confirm in H1 as [Hy| ->]; [apply orb_true_iff in Hy; tauto|].
    right; right. unfold accepted_removal. set_solver.
Qed.

(** Under [--dry-run] nothing changes, and the report says so. *)
Lemma acls_dry_run args : dry_run_flag (acl_confirm args) = true → dry_run_contract (acls_run args).
Proof.
  intros Hdry. apply dry_run_intro. unfold acls_run. rewrite Hdry.
  destruct (acl_plan args) as [plan|] eqn:Hplan; [|done]. cbn [lift_cmd mbind cmd_bind prog_bind].
  destruct plan as [filters ps|acls|acls].
  - apply acl_plan_not_list in Hplan; [|done]. done.
  - destruct (add_steps acls) as [steps|]; [|done]. cbn [lift_cmd mbind cmd_bind prog_bind].
    ro_step. unfold add. by ro_step.
  - destruct (remove_steps acls) as [steps|]; [|done]. cbn [lift_cmd mbind cmd_bind prog_bind].
    do 2 ro_step. unfold remove_acls. by ro_step.
Qed.

(** ** Runs *)

Definition acl_test_connection : ConnectionArgs :=
  {| bootstrap_server := ["localhost:9092"]; bootstrap_controller := []; command_config := None;
     client_id := None; request_timeout_ms := None |}.

(** [--add|--remove --topic orders --allow-principal User:alice --operation read
    --operation DescribeConfigs]. *)
Definition acl_test_args (remove : bool) : AclsArgs :=
  {| acl_connection := acl_test_connection; acl_add := negb remove; acl_remove := remove;
     acl_list := false; acl_topic := ["orders"]; acl_cluster := false; acl_group := [];
     acl_transactional_id := []; acl_delegation_token := []; acl_user_principal := [];
     acl_resource_pattern_type := "literal"; acl_operation := ["read"; "DescribeConfigs"];
     acl_allow_principal := ["User:alice"]; acl_deny_principal := []; acl_principal := None;
     acl_allow_host := []; acl_deny_host := []; acl_producer := false; acl_consumer := false;
     acl_idempotent := false; acl_force := false;
     acl_confirm := {| dry_run_flag := false; yes_flag := false |} |}.

Definition alice (op : WireOperation) : AclBinding :=
  {| ab_resource_type := AclTopic; ab_resource_name := "orders"; ab_pattern_type := AclLiteral;
     ab_principal := "User:alice"; ab_host := "*"; ab_operation := op;
     ab_permission_type := AclAllow |}.

(** A cluster where alice can read already. *)
Definition acl_test_world (c : admin_call) (w : unit) : admin_answer c * unit :=
  match c return admin_answer c * unit with
  | DescribeAcls _ => (Ok [alice OpRead], w)
  | c => obliging_world c w
  end.

Lemma acl_plan_spec_witness :
  ∃ acls, acl_plan (acl_test_args false) = Ok (PlanAdd acls) ∧ length acls = 1%nat ∧
    ∃ steps, add_steps acls = Ok steps.
Proof.
  assert (∃ acls, acl_plan (acl_test_args false) = Ok (PlanAdd acls) ∧ length acls = 1%nat)
    as (acls & Hacls & Hlen) by (eexists; vm_compute; split; reflexivity).
  exists acls. split; [exact Hacls|]. split; [exact Hlen|].
  destruct (acl_plan_spec (acl_test_args false) (PlanAdd acls) Hacls) as (pattern & _ & H).
  apply H.
Defined.

Definition acl_test_events (remove : bool) : list (event admin) :=
  events_of acl_test_world (acls_run (acl_test_args remove)) tt.

(** What alice cannot do yet is created, and nothing else. *)
Example acl_add_runs :
  map (λ e : event admin, projT1 e) (acl_test_events false) =
    [Connect acl_test_connection "acls";
     DescribeAcls (resource_filter {| kind := TopicKind; name := "orders"; pattern_type := LiteralPattern |});
     CreateAcls [alice OpDescribeConfigs]].
Proof. vm_compute. reflexivity. Qed.

Lemma acls_requests_witness :
  ∃ pre e post, acl_test_events true = pre ++ e :: post ∧ changes e = true ∧
    rightful_acls (acl_test_args true) pre (projT1 e).
Proof.
  assert (∃ e, acl_test_events true !! 2%nat = Some e ∧ changes e = true)
    as (e & He & Hc) by (eexists; vm_compute; split; reflexivity).
  exists (take 2 (acl_test_events true)), e, (drop 3 (acl_test_events true)).
  pose proof (take_drop_middle (acl_test_events true) 2 e He) as Hsplit. split; [done|]. split; [done|].
  exact (acls_requests (acl_test_args true) unit acl_test_world tt _ _ _ (eq_sym Hsplit)).
Defined.
