(* ===== verification/DelegationTokens.v ===== *)
(** [delegation_tokens.rs]: [krabka delegation-tokens], the counterpart of
    [kafka-delegation-tokens]: the checks of the flags, base64, dates, and the
    requests of [--create], [--renew], [--expire] and [--describe].

    A flag that takes no value is a bool, a token's HMAC is the string of its
    bytes. *)

From Stdlib Require Import Ascii.
From S2P Require Import Connection.
From S2P Require Import Prelude Collections Rust Json KafkaErrors Output Program Admin Reset Properties.

(** How [krabka_security] displays a principal. *)
Class KrabkaSecurity := { principal_text : KafkaPrincipal → string }.

Definition HMAC_ENV : string := "KRABKA_DELEGATION_TOKEN_HMAC".
Definition BROKER_DEFAULT : Z := -1.

Record DelegationTokensArgs := {
  dta_connection : ConnectionArgs;
  dta_create : bool;
  dta_renew : bool;
  dta_expire : bool;
  dta_describe : bool;
  dta_owner_principal : list string;
  dta_renewer_principal : list string;
  dta_max_life_time_period : option Z;
  dta_renew_time_period : option Z;
  dta_expiry_time_period : option Z;
  dta_hmac : option string;
  dta_hmac_file : option string;
  dta_confirm : ConfirmArgs
}.

(** [Action]. *)
Inductive TokenAction := CreateToken | RenewToken | ExpireToken | DescribeTokens.

#[export] Instance TokenAction_eq_dec : EqDecision TokenAction.
Proof. solve_decision. Defined.

Record TokenRow := {
  row_token_id : string;
  row_hmac : string;
  row_owner : string;
  row_requester : option string;
  row_renewers : list string;
  row_issue_timestamp_ms : Z;
  row_expiry_timestamp_ms : Z;
  row_max_timestamp_ms : Z
}.

(** ** The checks *)

(** The tables of [check]: what an action requires, and what it refuses. *)
Definition required_flags (args : DelegationTokensArgs) (action : TokenAction) (env_hmac : bool)
    : list (bool * string * bool) :=
  let create := bool_decide (action = CreateToken) in
  let renew := bool_decide (action = RenewToken) in
  let expire := bool_decide (action = ExpireToken) in
  let hmac_flag := is_some (dta_hmac args) || is_some (dta_hmac_file args) in
  [(true, "bootstrap-server", bool_decide (bootstrap_server (dta_connection args) ≠ []));
   (true, "command-config", is_some (command_config (dta_connection args)));
   (create, "max-life-time-period", is_some (dta_max_life_time_period args));
   (renew, "hmac", hmac_flag || env_hmac);
   (renew, "renew-time-period", is_some (dta_renew_time_period args));
   (expire, "hmac", hmac_flag || env_hmac);
   (expire, "expiry-time-period", is_some (dta_expiry_time_period args))].

Definition invalid_flags (args : DelegationTokensArgs) (action : TokenAction)
    : list (bool * string * string * bool) :=
  let create := bool_decide (action = CreateToken) in
  let renew := bool_decide (action = RenewToken) in
  let expire := bool_decide (action = ExpireToken) in
  let describe := bool_decide (action = DescribeTokens) in
  let hmac_flag := is_some (dta_hmac args) || is_some (dta_hmac_file args) in
  let owner := bool_decide (dta_owner_principal args ≠ []) in
  let renewer := bool_decide (dta_renewer_principal args ≠ []) in
  let max_life := is_some (dta_max_life_time_period args) in
  let renew_period := is_some (dta_renew_time_period args) in
  let expiry_period := is_some (dta_expiry_time_period args) in
  [(create, "create", "hmac", hmac_flag);
   (create, "create", "renew-time-period", renew_period);
   (create, "create", "expiry-time-period", expiry_period);
   (renew, "renew", "renewer-principal", renewer);
   (renew, "renew", "max-life-time-period", max_life);
   (renew, "renew", "expiry-time-period", expiry_period);
   (renew, "renew", "owner-principal", owner);
   (expire, "expire", "max-life-time-period", max_life);
   (expire, "expire", "renew-time-period", renew_period);
   (expire, "expire", "owner-principal", owner);
   (describe, "describe", "renew-time-period", renew_period);
   (describe, "describe", "max-life-time-period", max_life);
   (describe, "describe", "hmac", hmac_flag);
   (describe, "describe", "expiry-time-period", expiry_period)].

Definition token_actions (args : DelegationTokensArgs) : list TokenAction :=
  omap (λ x : bool * TokenAction, if x.1 then Some x.2 else None)
    [(dta_create args, CreateToken); (dta_renew args, RenewToken); (dta_expire args, ExpireToken);
     (dta_describe args, DescribeTokens)].

Definition check_tokens (args : DelegationTokensArgs) (env_hmac : bool) : result string TokenAction :=
  match token_actions args with
  | [action] =>
      match find (λ '(applies, _, present), applies && negb present)
              (required_flags args action env_hmac) with
      | Some (_, name, _) =>
          Err ("Missing required argument " +:+ dquote +:+ "[" +:+ name +:+ "]" +:+ dquote)
      | None =>
          match find (λ '(applies, _, _, present), applies && present)
                  (invalid_flags args action) with
          | Some (_, used, other, _) =>
              Err ("Option " +:+ dquote +:+ "[" +:+ used +:+ "]" +:+ dquote +:+
                " can't be used with option " +:+ dquote +:+ "[" +:+ other +:+ "]" +:+ dquote)
          | None =>
              if dry_run_flag (dta_confirm args) && negb (bool_decide (action = ExpireToken)) then
                Err "--dry-run is only valid with --expire"
              else Ok action
          end
      end
  | _ => Err ("Command must include exactly one action: --create, --renew, --expire or " +:+
              "--describe")
  end.

(** [principals]. *)
Definition token_principal (value : string) : result string KafkaPrincipal :=
  let value := trim value in
  match split_once (λ c, (c =? ":")%char) value with
  | Some (t, n) => Ok {| principal_type := t; principal_name := n |}
  | None => Err ("expected a string in format principalType:principalName but got " +:+ value)
  end.
Definition token_principals (values : list string) : result string (list KafkaPrincipal) :=
  try_map token_principal values.

(** [time_period]: only -1 is the broker's default. *)
Definition time_period (millis : Z) : option Z :=
  if bool_decide (millis ≠ BROKER_DEFAULT) then Some millis else None.

(** ** Base64 *)

Fixpoint string_of_bytes (l : list Z) : string :=
  match l with [] => "" | b :: l => String (byte b) (string_of_bytes l) end.

Definition BASE64_ALPHABET : list Z :=
  text_bytes "ABCDEFGHIJKLMNOPQRSTUVWXYZabcdefghijklmnopqrstuvwxyz0123456789+/".

Definition EQUALS : Z := 61.

(** [bytes.chunks(3)]. *)
Fixpoint chunks3 (l : list Z) : list (list Z) :=
  match l with
  | a :: b :: c :: l => [a; b; c] :: chunks3 l
  | [] => []
  | l => [l]
  end.

(** The bits of a chunk. *)
Definition chunk_bits (chunk : list Z) : Z :=
  foldl (λ bits '(index, b), Z.lor bits (Z.shiftl b (16 - 8 * index))) 0
    (zip (seqZ 0 (Z.of_nat (length chunk))) chunk).

Definition encode_chunk (chunk : list Z) : list Z :=
  map (λ index,
    if index <=? Z.of_nat (length chunk) then
      nth (Z.to_nat (Z.land (Z.shiftr (chunk_bits chunk) (18 - 6 * index)) 63)) BASE64_ALPHABET 0
    else EQUALS) (seqZ 0 4).

(** [encode_base64]. *)
Definition encode_base64 (bytes : list Z) : list Z := chunks3 bytes ≫= encode_chunk.

(** [bits.to_be_bytes()[1..]]. *)
Definition low_bytes (bits : Z) : list Z :=
  [Z.land (Z.shiftr bits 16) 255; Z.land (Z.shiftr bits 8) 255; Z.land bits 255].

Definition hex_text (n : Z) : string :=
  let digit n := String (byte (if n <? 10 then 48 + n else 87 + n)) "" in
  if n <? 16 then digit n else digit (n / 16) +:+ digit (n mod 16).

(** Java's rendering of a byte that is not of the alphabet. *)
Definition illegal_byte (b : Z) : string :=
  let signed := if b <? 128 then b else b - 256 in
  "Illegal base64 character " +:+
  (if signed <? 0 then "-" +:+ hex_text (- signed) else hex_text signed).

Definition base64_value (b : Z) : option Z :=
  (λ x : nat * Z, Z.of_nat x.1) <$> list_find (b =.) BASE64_ALPHABET.

Record Decoding := { d_out : list Z; d_bits : Z; d_shift : Z; d_position : Z }.

(** The loop of [decode_base64], over the input that is left. *)
Fixpoint decode_loop (input : list Z) (s : Decoding) : result string Decoding :=
  match input with
  | [] => Ok s
  | b :: input =>
      let position := d_position s + 1 in
      let at_end position :=
        {| d_out := d_out s; d_bits := d_bits s; d_shift := d_shift s; d_position := position |} in
      if b =? EQUALS then
        let wrong := Err "Input byte array has wrong 4-byte ending unit" in
        if d_shift s =? 6 then
          if bool_decide (head input = Some EQUALS) then Ok (at_end (position + 1)) else wrong
        else if d_shift s =? 18 then wrong
        else Ok (at_end position)
      else
        match base64_value b with
        | None => Err (illegal_byte b)
        | Some sextet =>
            let bits := Z.lor (d_bits s) (Z.shiftl sextet (d_shift s)) in
            let shift := d_shift s - 6 in
            decode_loop input
              (if shift <? 0 then
                 {| d_out := d_out s ++ low_bytes bits; d_bits := 0; d_shift := 18;
                    d_position := position |}
               else
                 {| d_out := d_out s; d_bits := bits; d_shift := shift; d_position := position |})
        end
  end.

(** The bytes of the last unit. *)
Definition last_unit (s : Decoding) : result string (list Z) :=
  if d_shift s =? 6 then Ok (d_out s ++ take 1 (low_bytes (d_bits s)))
  else if d_shift s =? 0 then Ok (d_out s ++ take 2 (low_bytes (d_bits s)))
  else if d_shift s =? 12 then Err "Last unit does not have enough valid bits"
  else Ok (d_out s).

(** [decode_base64]. *)
Definition decode_base64 (input : list Z) : result string (list Z) :=
  match input with
  | [] => Ok []
  | [_] => Err "Input byte[] should at least have 2 bytes for base64 bytes"
  | input =>
      s ← decode_loop input {| d_out := []; d_bits := 0; d_shift := 18; d_position := 0 |};
      out ← last_unit s;
      if d_position s <? Z.of_nat (length input) then
        Err ("Input byte array has incorrect ending byte at " +:+ pretty (d_position s))
      else Ok out
  end.

(** ** Dates *)

(** [civil_from_days]. *)
Definition civil_from_days (days : Z) : Z * Z * Z :=
  let shifted := days + 719468 in
  let era := shifted / 146097 in
  let day_of_era := shifted mod 146097 in
  let year_of_era :=
    (day_of_era - day_of_era ÷ 1460 + day_of_era ÷ 36524 - day_of_era ÷ 146096) ÷ 365 in
  let day_of_year := day_of_era - (365 * year_of_era + year_of_era ÷ 4 - year_of_era ÷ 100) in
  let month_index := (5 * day_of_year + 2) ÷ 153 in
  let day := day_of_year - (153 * month_index + 2) ÷ 5 + 1 in
  let month := if month_index <? 10 then month_index + 3 else month_index - 9 in
  let year := year_of_era + era * 400 + (if month <=? 2 then 1 else 0) in
  (year, month, day).

(** [{value:0width$}]: zeros after the sign. *)
Definition zero_padded (width : nat) (value : Z) : string :=
  let sign := if value <? 0 then "-" else "" in
  let digits := pretty (Z.abs value) in
  sign +:+ zeros (width - String.length sign - String.length digits) +:+ digits.

(** [format_date]. *)
Definition format_date (epoch_ms : Z) : string :=
  let seconds := epoch_ms / 1000 in
  let '(year, month, day) := civil_from_days (seconds / 86400) in
  let second_of_day := seconds mod 86400 in
  zero_padded 4 year +:+ "-" +:+ zero_padded 2 month +:+ "-" +:+ zero_padded 2 day +:+ "T" +:+
  zero_padded 2 (second_of_day ÷ 3600) +:+ ":" +:+ zero_padded 2 (Z.rem second_of_day 3600 ÷ 60).

(** ** The reports *)

Section Tokens.
Context `{KrabkaSecurity}.

Definition token_row (token : DelegationToken) : TokenRow :=
  {| row_token_id := dt_token_id token;
     row_hmac := dt_hmac token;
     row_owner := principal_text (dt_owner token);
     row_requester := Some (principal_text (dt_token_requester token));
     row_renewers := map principal_text (dt_renewers token);
     row_issue_timestamp_ms := dt_issue_timestamp_ms token;
     row_expiry_timestamp_ms := dt_expiry_timestamp_ms token;
     row_max_timestamp_ms := dt_max_timestamp_ms token |}.

(** [java_list]. *)
Definition java_list (items : list string) : string := "[" +:+ join ", " items +:+ "]".

(** [pad]: Java counts UTF-16 code units. *)
Definition java_pad (value : string) (width : nat) : string :=
  value +:+ spaces (width - length (encode_utf16 value)).

Definition token_line (cells : list string) : string :=
  join " " (zip_with java_pad cells [15; 30; 15; 15; 25; 15; 15; 15]%nat).

Definition base64_text (bytes : string) : string :=
  string_of_bytes (encode_base64 (text_bytes bytes)).

Definition token_cells (token : TokenRow) : list string :=
  [row_token_id token; base64_text (row_hmac token); row_owner token;
   default ":" (row_requester token); java_list (row_renewers token);
   format_date (row_issue_timestamp_ms token); format_date (row_expiry_timestamp_ms token);
   format_date (row_max_timestamp_ms token)].

(** [token_table]. *)
Definition token_table (tokens : list TokenRow) : list string :=
  token_line ["TOKENID"; "HMAC"; "OWNER"; "REQUESTER"; "RENEWERS"; "ISSUEDATE"; "EXPIRYDATE";
              "MAXDATE"] ::
  (tokens ≫= λ token, [""; token_line (token_cells token)]).

Definition token_json (token : TokenRow) : Value :=
  object_of [("token_id", Str (row_token_id token));
             ("hmac", Str (base64_text (row_hmac token)));
             ("owner", Str (row_owner token));
             ("requester", opt_str (row_requester token));
             ("renewers", strs (row_renewers token));
             ("issue_timestamp_ms", num (row_issue_timestamp_ms token));
             ("expiry_timestamp_ms", num (row_expiry_timestamp_ms token));
             ("max_timestamp_ms", num (row_max_timestamp_ms token))].

(** [created]. *)
Definition token_created (renewers : list string) (lifetime_ms : Z) (token : TokenRow)
    : CommandResult :=
  success
    (["Calling create token operation with renewers :" +:+ java_list renewers +:+
        " , max-life-time-period :" +:+ pretty lifetime_ms;
      "Created delegation token with tokenId : " +:+ row_token_id token; ""] ++
     token_table [token])
    (token_json token).

(** [described]. *)
Definition tokens_described (owners : list KafkaPrincipal) (tokens : list TokenRow) : CommandResult :=
  success
    ([if bool_decide (owners = []) then "Calling describe token operation for current user."
      else "Calling describe token operation for owners: " +:+ java_list (map principal_text owners);
      "Total number of tokens : " +:+ pretty (Z.of_nat (length tokens))] ++
     token_table tokens)
    (Array (map token_json tokens)).

(** The report of [--renew] and [--expire]. *)
Definition period_line (verb option encoded : string) (period : Z) : string :=
  "Calling " +:+ verb +:+ " token operation with hmac :" +:+ encoded +:+ " , " +:+ option +:+ " :" +:+
  pretty period.
Definition expiry_report (verb calling : string) (expiry : Z) : CommandResult :=
  without_final_newline
    (success [calling; "Completed " +:+ verb +:+ " operation. New expiry date : " +:+ format_date expiry]
       (object_of [("expiry_timestamp_ms", num expiry)])).

(** ** The command *)

(** [?] after [map_err(admin_error)]. *)
Definition try_token {A} (p : prog admin (result AdminError A)) : cmd admin A :=
  prog_bind (λ r, Halt (Done (map_err admin_error r))) p.

Section Run.
Context (args : DelegationTokensArgs).

(** [DelegationTokensArgs::connect]. *)
Definition token_connect : cmd admin unit := connect (dta_connection args) "delegation-tokens".

(** [hmac_value]. *)
Definition hmac_value (env : option string) : cmd admin string :=
  match dta_hmac args, dta_hmac_file args with
  | Some hmac, _ => pure hmac
  | None, Some path =>
      text ← await (send (ReadFile path));
      lift (trim <$> map_err (λ error, "read HMAC file " +:+ path +:+ ": " +:+ error) text)
  | None, None =>
      lift (ok_or (trim <$> env) ("Missing required argument " +:+ dquote +:+ "[hmac]" +:+ dquote))
  end.

Definition decode_hmac (encoded : string) : result string string :=
  string_of_bytes <$> decode_base64 (text_bytes encoded).

Definition create_token : cmd admin CommandResult :=
  renewers ← lift (token_principals (dta_renewer_principal args));
  owners ← lift (token_principals (dta_owner_principal args));
  let lifetime_ms := default BROKER_DEFAULT (dta_max_life_time_period args) in
  token_connect;;
  token ← try_token (send (CreateDelegationToken (head owners) renewers (time_period lifetime_ms)));
  pure (token_created (map principal_text renewers) lifetime_ms (token_row token)).

Definition describe_tokens : cmd admin CommandResult :=
  owners ← lift (token_principals (dta_owner_principal args));
  token_connect;;
  tokens ← try_token (send (DescribeDelegationToken owners));
  pure (tokens_described owners (map token_row tokens)).

Definition renew_token (encoded hmac : string) : cmd admin CommandResult :=
  let period := default BROKER_DEFAULT (dta_renew_time_period args) in
  token_connect;;
  expiry ← try_token (send (RenewDelegationToken hmac (time_period period)));
  pure (expiry_report "renew" (period_line "renew" "renew-time-period" encoded period) expiry).

Definition expire_impact (period : Z) : Impact :=
  {| summary := if period <? 0 then "expire the delegation token of the given HMAC now"
                else "expire the delegation token of the given HMAC in " +:+ pretty period +:+ " ms";
     resources := [] |}.

Definition expire_token (encoded hmac : string) : cmd admin CommandResult :=
  let period := default BROKER_DEFAULT (dta_expiry_time_period args) in
  let calling := period_line "expire" "expire-time-period" encoded period in
  token_connect;;
  if dry_run_flag (dta_confirm args) then
    pure (into_dry_run (success [calling] (object_of [("expiry_timestamp_ms", Null)])))
  else
    confirm (yes_flag (dta_confirm args)) "krabka delegation-tokens" (expire_impact period);;
    expiry ← try_token (send (ExpireDelegationToken hmac (time_period period)));
    pure (expiry_report "expire" calling expiry).

(** [DelegationTokensArgs::run]. *)
Definition tokens_run : cmd admin CommandResult :=
  env_hmac ← await (send (EnvVar HMAC_ENV));
  action ← lift (check_tokens args (is_some env_hmac));
  match action with
  | CreateToken => create_token
  | DescribeTokens => describe_tokens
  | RenewToken | ExpireToken =>
      encoded ← hmac_value env_hmac;
      hmac ← lift (decode_hmac encoded);
      if bool_decide (action = RenewToken) then renew_token encoded hmac
      else expire_token encoded hmac
  end.
End Run.
End Tokens.

(** ** Base64 reads back *)

Lemma base64_value_nth i : (i < 64)%nat → base64_value (nth i BASE64_ALPHABET 0) = Some (Z.of_nat i).
Proof.
  intros Hi. assert (Forall (λ i, base64_value (nth i BASE64_ALPHABET 0) = Some (Z.of_nat i)) (seq 0 64))
    as HF by (vm_compute; repeat constructor).
  rewrite Forall_forall in HF. apply HF, elem_of_seq. lia.
Qed.

Lemma base64_symbol i : (i < 64)%nat → (nth i BASE64_ALPHABET 0 =? EQUALS) = false.
Proof.
  intros Hi. assert (Forall (λ i, (nth i BASE64_ALPHABET 0 =? EQUALS) = false) (seq 0 64))
    as HF by (vm_compute; repeat constructor).
  rewrite Forall_forall in HF. apply HF, elem_of_seq. lia.
Qed.

(** Disjoint bits add up. *)
Lemma lor_disjoint a b k : 0 ≤ k → 0 ≤ b < 2 ^ k → a mod 2 ^ k = 0 → Z.lor a b = a + b.
Proof.
  intros Hk Hb Ha. assert (Z.land a b = 0) as Hl.
  { apply Z.bits_inj'. intros n Hn. rewrite Z.land_spec, Z.bits_0.
    destruct (Z.lt_ge_cases n k) as [Hlt|Hge].
    - rewrite <-(Z.mod_pow2_bits_low a k n) by lia. by rewrite Ha, Z.bits_0.
    - rewrite <-(Z.mod_small b (2 ^ k)) by lia. rewrite Z.mod_pow2_bits_high by lia.
      apply andb_false_r. }
  rewrite Z.add_nocarry_lxor by done. by rewrite Z.lxor_lor.
Qed.

(** Arithmetic with powers of two written out. *)
Ltac pow2_lia :=
  repeat match goal with
  | |- context [2 ^ ?n] => let v := eval vm_compute in (2 ^ n) in change (2 ^ n) with v
  | H : context [2 ^ ?n] |- _ => let v := eval vm_compute in (2 ^ n) in change (2 ^ n) with v in H
  end; Z.to_euclidean_division_equations; lia.

(** The bits of up to three bytes, and the four sextets of 24 bits. *)
Lemma chunk_bits_eq a b c :
  0 ≤ a < 256 → 0 ≤ b < 256 → 0 ≤ c < 256 →
  chunk_bits [a] = a * 65536 ∧ chunk_bits [a; b] = a * 65536 + b * 256 ∧
  chunk_bits [a; b; c] = a * 65536 + b * 256 + c.
Proof.
  intros Ha Hb Hc.
  assert (chunk_bits [a] = a * 65536) as E1.
  { change (chunk_bits [a]) with (Z.lor 0 (Z.shiftl a 16)). rewrite Z.lor_0_l, Z.shiftl_mul_pow2 by lia. pow2_lia. }
  assert (chunk_bits [a; b] = a * 65536 + b * 256) as E2.
  { change (chunk_bits [a; b]) with (Z.lor (chunk_bits [a]) (Z.shiftl b 8)).
    rewrite E1, Z.shiftl_mul_pow2 by lia. rewrite (lor_disjoint _ _ 16); pow2_lia. }
  split_and!; [done..|].
  change (chunk_bits [a; b; c]) with (Z.lor (chunk_bits [a; b]) (Z.shiftl c 0)).
  rewrite E2, Z.shiftl_0_r. rewrite (lor_disjoint _ _ 8); pow2_lia.
Qed.

Definition sextet (bits index : Z) : Z := Z.land (Z.shiftr bits (18 - 6 * index)) 63.

Lemma sextet_eq bits index :
  0 ≤ index ≤ 3 → sextet bits index = bits / 2 ^ (18 - 6 * index) mod 64.
Proof.
  intros Hi. unfold sextet. rewrite Z.shiftr_div_pow2 by lia.
  change 63 with (Z.ones 6). by rewrite Z.land_ones.
Qed.

Lemma low_bytes_eq bits : low_bytes bits = [bits / 65536 mod 256; bits / 256 mod 256; bits mod 256].
Proof.
  unfold low_bytes. change 255 with (Z.ones 8). rewrite !Z.land_ones, !Z.shiftr_div_pow2 by lia. done.
Qed.

(** A symbol that the decoder reads. *)
Definition symbol (bits index : Z) : Z := nth (Z.to_nat (sextet bits index)) BASE64_ALPHABET 0.

Lemma decode_symbol bits index input out acc shift position :
  0 ≤ index ≤ 3 →
  decode_loop (symbol bits index :: input)
    {| d_out := out; d_bits := acc; d_shift := shift; d_position := position |} =
  let acc := Z.lor acc (Z.shiftl (sextet bits index) shift) in
  decode_loop input
    (if shift - 6 <? 0 then
       {| d_out := out ++ low_bytes acc; d_bits := 0; d_shift := 18; d_position := position + 1 |}
     else
       {| d_out := out; d_bits := acc; d_shift := shift - 6; d_position := position + 1 |}).
Proof.
  intros Hi. unfold symbol. assert (0 ≤ sextet bits index < 64) as Hs.
  { rewrite sextet_eq by done. apply Z.mod_pos_bound. lia. }
  cbn [decode_loop]. rewrite base64_symbol, base64_value_nth by lia.
  by rewrite Z2Nat.id by lia.
Qed.

Lemma decode_symbol_more bits index input out acc shift position :
  0 ≤ index ≤ 3 → 6 ≤ shift →
  decode_loop (symbol bits index :: input)
    {| d_out := out; d_bits := acc; d_shift := shift; d_position := position |} =
  decode_loop input
    {| d_out := out; d_bits := Z.lor acc (Z.shiftl (sextet bits index) shift); d_shift := shift - 6;
       d_position := position + 1 |}.
Proof.
  intros Hi Hs. rewrite decode_symbol by done. cbv zeta. by rewrite (proj2 (Z.ltb_ge _ _)) by lia.
Qed.

(** What the decoder has gathered after some sextets. *)
Lemma gathered bits :
  let s := sextet bits in
  let acc1 := Z.lor 0 (Z.shiftl (s 0) 18) in
  let acc2 := Z.lor acc1 (Z.shiftl (s 1) 12) in
  let acc3 := Z.lor acc2 (Z.shiftl (s 2) 6) in
  let acc4 := Z.lor acc3 (Z.shiftl (s 3) 0) in
  0 ≤ bits < 2 ^ 24 →
  acc2 = bits / 4096 * 4096 ∧ acc3 = bits / 64 * 64 ∧ acc4 = bits.
Proof.
  cbv zeta. intros Hb. rewrite !sextet_eq by lia.
  rewrite Z.lor_0_l, Z.shiftl_0_r, !Z.shiftl_mul_pow2 by lia.
  rewrite (lor_disjoint _ (_ * 2 ^ 12) 18) by pow2_lia.
  rewrite (lor_disjoint _ (_ * 2 ^ 6) 12) by pow2_lia.
  rewrite (lor_disjoint _ _ 6) by pow2_lia. pow2_lia.
Qed.

Lemma encode_chunk_symbols a b c :
  encode_chunk [a] = [symbol (chunk_bits [a]) 0; symbol (chunk_bits [a]) 1; EQUALS; EQUALS] ∧
  encode_chunk [a; b] =
    [symbol (chunk_bits [a; b]) 0; symbol (chunk_bits [a; b]) 1; symbol (chunk_bits [a; b]) 2; EQUALS] ∧
  encode_chunk [a; b; c] =
    map (symbol (chunk_bits [a; b; c])) [0; 1; 2; 3].
Proof. done. Qed.

Ltac normal_shifts :=
  change (18 - 6) with 12; change (12 - 6) with 6; try change (6 - 6) with 0;
  try change (0 - 6) with (-6).

Lemma decode_encoded n l out position :
  (length l ≤ n)%nat → Forall (λ b, 0 ≤ b < 256) l →
  ∃ s, decode_loop (encode_base64 l)
         {| d_out := out; d_bits := 0; d_shift := 18; d_position := position |} = Ok s ∧
    last_unit s = Ok (out ++ l) ∧
    d_position s = position + Z.of_nat (length (encode_base64 l)).
Proof.
  revert l out position. induction n as [|n IH]; intros [|a [|b [|c l]]] out position Hn Hl;
    try (simpl in Hn; lia).
  1,2: eexists; split; [reflexivity|]; split; [by rewrite app_nil_r|simpl; lia].
  all: repeat match goal with H : Forall _ (_ :: _) |- _ => inversion_clear H end.
  - destruct (chunk_bits_eq a 0 0) as (E & _); [lia..|].
    change (encode_base64 [a]) with (encode_chunk [a] ++ []). rewrite app_nil_r.
    destruct (encode_chunk_symbols a 0 0) as (-> & _).
    rewrite !decode_symbol_more by lia. normal_shifts.
    destruct (gathered (chunk_bits [a])) as (E2 & _); [pow2_lia|].
    eexists. split; [reflexivity|]. unfold last_unit. cbn [d_shift d_out d_bits d_position].
    change (6 =? 6) with true. cbv iota. rewrite E2, low_bytes_eq. split; [|simpl; lia].
    do 2 f_equal. rewrite E. cbn. f_equal. pow2_lia.
  - destruct (chunk_bits_eq a b 0) as (_ & E & _); [lia..|].
    change (encode_base64 [a; b]) with (encode_chunk [a; b] ++ []). rewrite app_nil_r.
    destruct (encode_chunk_symbols a b 0) as (_ & -> & _).
    rewrite !decode_symbol_more by lia. normal_shifts.
    destruct (gathered (chunk_bits [a; b])) as (_ & E3 & _); [pow2_lia|].
    eexists. split; [reflexivity|]. unfold last_unit. cbn [d_shift d_out d_bits d_position].
    change (0 =? 6) with false. change (0 =? 0) with true. cbv iota.
    rewrite E3, low_bytes_eq. split; [|simpl; lia].
    do 2 f_equal. rewrite E. cbn [take]. f_equal; [|f_equal]; pow2_lia.
  - destruct (chunk_bits_eq a b c) as (_ & _ & E); [lia..|].
    change (encode_base64 (a :: b :: c :: l)) with (encode_chunk [a; b; c] ++ encode_base64 l).
    destruct (encode_chunk_symbols a b c) as (_ & _ & ->). cbn [map app].
    rewrite !decode_symbol_more, decode_symbol by lia. normal_shifts.
    destruct (gathered (chunk_bits [a; b; c])) as (_ & _ & E4); [pow2_lia|].
    destruct (IH l (out ++ [a; b; c]) (position + 1 + 1 + 1 + 1)) as (s & Hs & Hlast & Hpos);
      [simpl in Hn; lia|done|].
    exists s. split_and!.
    + rewrite <-Hs. cbv zeta. change (-6 <? 0) with true. cbv iota.
      do 2 f_equal. f_equal. etrans; [exact (f_equal low_bytes E4)|]. rewrite low_bytes_eq, E.
      f_equal; [|f_equal; [|f_equal]]; pow2_lia.
    + rewrite Hlast. by rewrite <-app_assoc.
    + rewrite Hpos. cbn [length]. lia.
Qed.

(** An HMAC that [krabka delegation-tokens] prints reads back: decoding what
    the base64 encoder writes gives the same bytes, for every byte string. *)
Theorem base64_round_trip (bytes : list Z) :
  Forall (λ b, 0 ≤ b < 256) bytes → decode_base64 (encode_base64 bytes) = Ok bytes.
Proof.
  intros Hb. destruct (decode_encoded (length bytes) bytes [] 0) as (s & Hs & Hlast & Hpos); [done..|].
  unfold decode_base64. destruct (encode_base64 bytes) as [|x [|y rest]] eqn:E.
  - injection Hs as <-. by injection Hlast as <-.
  - destruct bytes as [|a [|b [|c l]]]; done.
  - rewrite Hs. cbn [mbind result_bind]. rewrite Hlast. cbn [mbind result_bind].
    rewrite Hpos. by rewrite Z.ltb_irrefl.
Qed.

Lemma base64_round_trip_witness :
  Forall (λ b, 0 ≤ b < 256) [0; 255; 62; 7] ∧
  decode_base64 (encode_base64 [0; 255; 62; 7]) = Ok [0; 255; 62; 7].
Proof.
  assert (Forall (λ b, 0 ≤ b < 256) [0; 255; 62; 7]) as Hb by (repeat constructor; lia).
  split; [exact Hb|]. exact (base64_round_trip [0; 255; 62; 7] Hb).
Defined.

(** ** Dates read back *)

(** The year of the era, the month and the day of a day of the era. *)
Definition civil_of_era (day_of_era : Z) : Z * Z * Z :=
  let year_of_era :=
    (day_of_era - day_of_era ÷ 1460 + day_of_era ÷ 36524 - day_of_era ÷ 146096) ÷ 365 in
  let day_of_year := day_of_era - (365 * year_of_era + year_of_era ÷ 4 - year_of_era ÷ 100) in
  let month_index := (5 * day_of_year + 2) ÷ 153 in
  let day := day_of_year - (153 * month_index + 2) ÷ 5 + 1 in
  (year_of_era, if month_index <? 10 then month_index + 3 else month_index - 9, day).

(** A year of the calendar from one that starts in March. *)
Definition calendar_year (year month : Z) : Z := year + (if month <=? 2 then 1 else 0).

Lemma civil_from_days_eq days :
  civil_from_days days =
    let '(year, month, day) := civil_of_era ((days + 719468) mod 146097) in
    (calendar_year (year + (days + 719468) / 146097 * 400) month, month, day).
Proof. done. Qed.

(** The date of a day of the era is a date, and that of the day. *)
Definition era_date_ok (day_of_era : Z) : bool :=
  let '(year, month, day) := civil_of_era day_of_era in
  (0 <=? year) && (year <? 400) && (1 <=? month) && (month <=? 12) && (1 <=? day) &&
  (day <=? days_in_month (calendar_year year month) month) &&
  (days_from_civil (calendar_year year month) month day =? day_of_era - 719468).

Fixpoint all_from (p : Z → bool) (n : nat) (z : Z) : bool :=
  match n with O => true | S n => p z && all_from p n (z + 1) end.

Lemma all_from_spec p n z k : all_from p n z = true → z ≤ k < z + Z.of_nat n → p k = true.
Proof.
  revert z. induction n as [|n IH]; intros z H Hk; [lia|]. cbn in H. apply andb_true_iff in H as [Hz H].
  destruct (decide (k = z)) as [->|]; [done|]. apply (IH (z + 1)); [done|lia].
Qed.

Lemma era_dates_ok : all_from era_date_ok (Z.to_nat 146097) 0 = true.
Proof. vm_compute. reflexivity. Qed.

(** The calendar repeats every 400 years. *)
Lemma is_leap_era year era : is_leap (year + era * 400) = is_leap year.
Proof.
  assert (∀ k, k ∈ [4; 100; 400] → (Z.rem (year + era * 400) k =? 0) = (Z.rem year k =? 0)) as H.
  { intros k Hk. apply eq_true_iff_eq. rewrite !Z.eqb_eq.
    repeat (apply elem_of_cons in Hk as [->|Hk]); [..|by apply elem_of_nil in Hk];
      Z.to_euclidean_division_equations; lia. }
  unfold is_leap. by rewrite !H by set_solver.
Qed.

Lemma days_from_civil_era year era month day :
  days_from_civil (year + era * 400) month day = days_from_civil year month day + era * 146097.
Proof.
  unfold days_from_civil.
  replace (if month <=? 2 then year + era * 400 - 1 else year + era * 400)
    with ((if month <=? 2 then year - 1 else year) + era * 400) by (destruct (month <=? 2); lia).
  set (y := if month <=? 2 then year - 1 else year). cbv zeta.
  rewrite Z.div_add by lia.
  replace (y + era * 400 - (y / 400 + era) * 400) with (y - y / 400 * 400) by lia. lia.
Qed.

(** The dates that [krabka delegation-tokens] prints are those of the Gregorian
    calendar: the date of a day count is a date, and the day count of that date,
    as [--to-datetime] of [consumer-groups] computes it, is the one given. *)
Theorem civil_from_days_spec (days : Z) :
  let '(year, month, day) := civil_from_days days in
  valid_date year month day ∧ days_from_civil year month day = days.
Proof.
  rewrite civil_from_days_eq. set (doe := (days + 719468) mod 146097).
  assert (era_date_ok doe = true) as Hok.
  { apply (all_from_spec _ _ 0 _ era_dates_ok). unfold doe. rewrite Z2Nat.id by lia.
    pose proof (Z.mod_pos_bound (days + 719468) 146097). lia. }
  unfold era_date_ok in Hok. destruct (civil_of_era doe) as [[year month] day].
  repeat (apply andb_true_iff in Hok as [Hok ?]).
  replace (calendar_year (year + (days + 719468) / 146097 * 400) month)
    with (calendar_year year month + (days + 719468) / 146097 * 400) by (unfold calendar_year; lia).
  rewrite days_from_civil_era. unfold valid_date, days_in_month in *. rewrite is_leap_era.
  pose proof (Z.div_mod (days + 719468) 146097) as Hdiv. fold doe in Hdiv. lia.
Qed.

(** ** What is changed *)

(** Where the HMAC comes from: the flag, else the file, else the environment. *)
Definition given_hmac (args : DelegationTokensArgs) (past : list (event admin)) (encoded : string) : Prop :=
  match dta_hmac args, dta_hmac_file args with
  | Some hmac, _ => encoded = hmac
  | None, Some path =>
      ∃ text, (existT (ReadFile path : call admin) (Ok text) : event admin) ∈ past ∧ encoded = trim text
  | None, None =>
      ∃ value, (existT (EnvVar HMAC_ENV : call admin) (Some value) : event admin) ∈ past ∧
        encoded = trim value
  end.

(** The token of a request is that of the HMAC that was given. *)
Definition names_token (args : DelegationTokensArgs) (past : list (event admin)) (hmac : string) : Prop :=
  ∃ encoded, given_hmac args past encoded ∧ decode_hmac encoded = Ok hmac.

(** The changes that the command line authorises, by what came before. *)
Definition rightful_token (args : DelegationTokensArgs) (past : list (event admin)) (c : admin_call)
    : Prop :=
  match c with
  | CreateDelegationToken owner renewers lifetime =>
      token_actions args = [CreateToken] ∧ Forall (λ e, changes e = false) past ∧
      (∃ owners, token_principals (dta_owner_principal args) = Ok owners ∧ owner = head owners) ∧
      token_principals (dta_renewer_principal args) = Ok renewers ∧
      ∃ period, dta_max_life_time_period args = Some period ∧ lifetime = time_period period
  | RenewDelegationToken hmac period =>
      token_actions args = [RenewToken] ∧ Forall (λ e, changes e = false) past ∧
      names_token args past hmac ∧
      ∃ given, dta_renew_time_period args = Some given ∧ period = time_period given
  | ExpireDelegationToken hmac period =>
      token_actions args = [ExpireToken] ∧ Forall (λ e, changes e = false) past ∧
      names_token args past hmac ∧ dry_run_flag (dta_confirm args) = false ∧
      ∃ given, dta_expiry_time_period args = Some given ∧ period = time_period given ∧
        (yes_flag (dta_confirm args) = true ∨
         (existT (AskConfirm "krabka delegation-tokens" (expire_impact given) : call admin) (Ok tt)
           : event admin) ∈ past)
  | c => mutating c = false
  end.

Lemma rightful_token_reads args past c : mutating c = false → rightful_token args past c.
Proof. by destruct c. Qed.

(** What the checks leave. *)
Lemma check_tokens_Ok args env action :
  check_tokens args env = Ok action →
  token_actions args = [action] ∧
  Forall (λ '(applies, _, present), applies = true → present = true) (required_flags args action env) ∧
  (dry_run_flag (dta_confirm args) = true → action = ExpireToken).
Proof.
  unfold check_tokens. destruct (token_actions args) as [|a [|]]; [done| |done].
  destruct (find _ (required_flags _ _ _)) as [[[]]|] eqn:Hr; [done|].
  destruct (find _ (invalid_flags _ _)) as [[[[]]]|]; [done|].
  destruct (dry_run_flag _ && _) eqn:Hd; [done|]. intros [= <-]. split; [done|]. split.
  - apply Forall_forall. intros [[applies n] present] Hin.
    apply list_elem_of_In in Hin. pose proof (find_none _ _ Hr _ Hin) as Hn. cbn in Hn.
    destruct applies, present; done.
  - intros Hdry. rewrite Hdry in Hd. cbn in Hd. apply negb_false_iff, bool_decide_eq_true in Hd. done.
Qed.

Lemma harmless_hmac_value args env : harmless (hmac_value args env).
Proof. unfold hmac_value. harmless. Qed.
Lemma harmless_token_connect args : harmless (token_connect args).
Proof. unfold token_connect. harmless. Qed.
#[local] Hint Resolve harmless_hmac_value harmless_token_connect : krabka.

Lemma trace_hmac_value args env log encoded past :
  trace (hmac_value args env) log (Done (Ok encoded)) →
  (existT (EnvVar HMAC_ENV : call admin) env : event admin) ∈ past →
  given_hmac args (past ++ log) encoded.
Proof.
  unfold hmac_value, given_hmac. destruct (dta_hmac args) as [hmac|]; [by intros [-> [= ->]]|].
  destruct (dta_hmac_file args) as [path|].
  - intros (text & log1 & rest & -> & H1 & Ht)%trace_ok_bind_inv Hpast.
    destruct H1 as (a & l & -> & -> & [= ->]). apply trace_lift in Ht as [Ht ->].
    destruct a as [text'|]; [|done]. injection Ht as <-. exists text'. split; [set_solver|done].
  - intros [Ht ->]%trace_lift Hpast. destruct env as [value|]; [|done]. injection Ht as <-.
    exists value. split; [set_solver|done].
Qed.

Lemma given_hmac_app args past log encoded :
  given_hmac args past encoded → given_hmac args (past ++ log) encoded.
Proof.
  unfold given_hmac. destruct (dta_hmac args), (dta_hmac_file args); [done..| |];
    intros (x & Hin & ->); exists x; set_solver.
Qed.

Section Changes.
Context `{KrabkaSecurity} (args : DelegationTokensArgs).

Lemma create_rightful env past :
  check_tokens args env = Ok CreateToken → Forall (λ e, changes e = false) past →
  monitored (history (Σ := admin) (rightful_token args)) past (create_token args) (on_ok (λ _ _, True)).
Proof.
  intros (Ha & Hreq & _)%check_tokens_Ok Hpast. unfold create_token.
  apply history_bind; [apply rightful_token_reads|auto with krabka|intros log1 renewers [Hr ->]%trace_lift].
  apply history_bind; [apply rightful_token_reads|auto with krabka|intros log2 owners [Ho ->]%trace_lift].
  cbv zeta.
  apply history_bind; [apply rightful_token_reads|auto with krabka|intros log3 [] H3].
  apply harmless_trace in H3; [|auto with krabka].
  split; [|by intros [token|error]]. rewrite !app_nil_r. cbn [rightful_token].
  split_and!; [done|by apply Forall_app|by exists owners|done|].
  destruct (dta_max_life_time_period args) as [period|] eqn:Hp; [by exists period|].
  unfold required_flags in Hreq. rewrite Hp in Hreq. rewrite !Forall_cons in Hreq. naive_solver.
Qed.

Lemma renew_rightful env past encoded hmac :
  check_tokens args env = Ok RenewToken → Forall (λ e, changes e = false) past →
  given_hmac args past encoded → decode_hmac encoded = Ok hmac →
  monitored (history (Σ := admin) (rightful_token args)) past (renew_token args encoded hmac)
    (on_ok (λ _ _, True)).
Proof.
  intros (Ha & Hreq & _)%check_tokens_Ok Hpast Hgiven Hdecode. unfold renew_token. cbv zeta.
  apply history_bind; [apply rightful_token_reads|auto with krabka|intros log1 [] H1].
  apply harmless_trace in H1; [|auto with krabka]. split; [|by intros [expiry|error]].
  cbn [rightful_token]. split_and!; [done|by apply Forall_app| |].
  - exists encoded. split; [by apply given_hmac_app|done].
  - destruct (dta_renew_time_period args) as [period|] eqn:Hp; [by exists period|].
    unfold required_flags in Hreq. rewrite Hp in Hreq. rewrite !Forall_cons in Hreq. naive_solver.
Qed.

Lemma expire_rightful env past encoded hmac :
  check_tokens args env = Ok ExpireToken → Forall (λ e, changes e = false) past →
  given_hmac args past encoded → decode_hmac encoded = Ok hmac →
  monitored (history (Σ := admin) (rightful_token args)) past (expire_token args encoded hmac)
    (on_ok (λ _ _, True)).
Proof.
  intros (Ha & Hreq & _)%check_tokens_Ok Hpast Hgiven Hdecode. unfold expire_token. cbv zeta.
  apply history_bind; [apply rightful_token_reads|auto with krabka|intros log1 [] H1].
  destruct (dry_run_flag (dta_confirm args)) eqn:Hd; [done|].
  apply history_bind; [apply rightful_token_reads|auto with krabka|intros log2 [] H2].
  apply harmless_trace in H1; [|auto with krabka].
  apply harmless_trace in H2 as F2; [|auto with krabka]. split; [|by intros [expiry|error]].
  cbn [rightful_token]. split_and!; [done|by repeat (apply Forall_app; split)| |done|].
  - exists encoded. split; [by do 2 apply given_hmac_app|done].
  - destruct (dta_expiry_time_period args) as [period|] eqn:Hp.
    + exists period. split_and!; [done..|]. apply trace_confirm in H2 as [Hy| ->]; [by left|].
      right. set_solver.
    + unfold required_flags in Hreq. rewrite Hp in Hreq. rewrite !Forall_cons in Hreq. naive_solver.
Qed.

(** C19. What [krabka delegation-tokens] changes, for every cluster: at most one
    token, as its only change, for the one action of the command line. [--create]
    asks for a token of the given owner, renewers and life time. [--renew] and
    [--expire] name the token whose HMAC is given, [--hmac] before [--hmac-file]
    before the environment, with the period of its flag, of which only -1 stands
    for the broker's default; [--expire] asks first, unless under [--yes], and
    changes nothing under [--dry-run]. *)
Theorem tokens_requests :
  ∀ W (world : ∀ c : admin_call, W → admin_answer c * W) (w : W) pre e post,
    events_of world (tokens_run args) w = pre ++ e :: post → rightful_token args pre (projT1 e).
Proof.
  intros W world w pre e post. apply (run_history (Σ := admin) world _ _ (on_ok (λ _ _, True))).
  unfold tokens_run.
  apply history_bind; [apply rightful_token_reads|auto with krabka|intros log1 env' H1].
  destruct H1 as (a & l & -> & -> & [= <-]). cbn [app].
  apply history_bind; [apply rightful_token_reads|auto with krabka|intros log2 action [Hc ->]%trace_lift].
  rewrite app_nil_r.
  set (past := [existT (EnvVar HMAC_ENV : call admin) env' : event admin]).
  assert (Forall (λ e, changes e = false) past) as Hpast by by repeat constructor.
  assert (∀ f, (∀ past encoded hmac, Forall (λ e, changes e = false) past → given_hmac args past encoded →
    decode_hmac encoded = Ok hmac → monitored (history (Σ := admin) (rightful_token args)) past
      (f encoded hmac) (on_ok (λ _ _, True))) →
    monitored (history (Σ := admin) (rightful_token args)) past
      (hmac_value args env' ≫= λ encoded, lift (decode_hmac encoded) ≫= λ hmac, f encoded hmac)
      (on_ok (λ (_ : list (event admin)) (_ : CommandResult), True))) as Hhmac.
  { intros f Hf. apply history_bind; [apply rightful_token_reads|auto with krabka|intros log3 encoded H3].
    apply history_bind; [apply rightful_token_reads|auto with krabka|intros log4 hmac [Hd ->]%trace_lift].
    rewrite app_nil_r. apply Hf; [|by eapply trace_hmac_value, list_elem_of_here|done].
    apply Forall_app. split; [done|]. by apply harmless_trace in H3; [|auto with krabka]. }
  destruct action.
  - by eapply create_rightful.
  - apply Hhmac. intros. by eapply renew_rightful.
  - apply Hhmac. intros. by eapply expire_rightful.
  - eapply monitored_mono; [apply history_harmless; [apply rightful_token_reads|]|by intros ? [[]| |]].
    unfold describe_tokens, try_token. harmless.
Qed.

(** Under [--dry-run] nothing changes, and the report says so. *)
Lemma tokens_dry_run : dry_run_flag (dta_confirm args) = true → dry_run_contract (tokens_run args).
Proof.
  intros Hd. apply dry_run_intro. unfold tokens_run. ro_step.
  destruct (check_tokens args _) as [action|] eqn:Hc; [|done]. cbn [lift mbind cmd_bind prog_bind pure].
  apply check_tokens_Ok in Hc as (_ & _ & Hdry). rewrite (Hdry Hd). do 2 ro_step.
  rewrite bool_decide_eq_false_2 by done. unfold expire_token. cbv zeta. ro_step. by rewrite Hd.
Qed.
End Changes.

(** ** Runs *)

#[local] Instance test_security : KrabkaSecurity :=
  {| principal_text p := principal_type p +:+ ":" +:+ principal_name p |}.

(** [--expire --expiry-time-period 1000 --hmac aG1hYw==]. *)
Definition expire_args : DelegationTokensArgs :=
  {| dta_connection := {| bootstrap_server := ["localhost:9092"]; bootstrap_controller := [];
       command_config := Some "client.properties"; client_id := None; request_timeout_ms := None |};
     dta_create := false; dta_renew := false; dta_expire := true; dta_describe := false;
     dta_owner_principal := []; dta_renewer_principal := []; dta_max_life_time_period := None;
     dta_renew_time_period := None; dta_expiry_time_period := Some 1000;
     dta_hmac := Some "aG1hYw=="; dta_hmac_file := None;
     dta_confirm := {| dry_run_flag := false; yes_flag := false |} |}.

Definition expire_events : list (event admin) :=
  events_of obliging_world (tokens_run expire_args) tt.

Example expire_names_the_token :
  projT1 <$> last expire_events = Some (ExpireDelegationToken "hmac" (Some 1000)).
Proof. vm_compute. reflexivity. Qed.

Example format_date_runs : format_date 1700000000123 = "2023-11-14T22:13".
Proof. vm_compute. reflexivity. Qed.

Lemma tokens_requests_witness :
  ∃ pre e post, expire_events = pre ++ e :: post ∧ changes e = true ∧
    rightful_token expire_args pre (projT1 e).
Proof.
  assert (∃ e, expire_events !! 3%nat = Some e ∧ changes e = true)
    as (e & He & Hc) by (eexists; vm_compute; split; reflexivity).
  exists (take 3 expire_events), e, (drop 4 expire_events).
  pose proof (take_drop_middle expire_events 3 e He) as Hsplit. split; [done|]. split; [done|].
  exact (tokens_requests expire_args unit obliging_world tt _ _ _ (eq_sym Hsplit)).
Defined.
