(* ===== verification/Floats.v ===== *)
(** The [f64] and [f32] of the commands, as the integer of their bits: [str::parse],
    [format!("{:e}")] and [to_string] of the standard library, and what
    [configs/java.rs] builds on them, [Double.toString] and [Double.parseDouble].

    A finite value is [m * 2 ^ e]; the decimal conversions are on exact ratios of
    integers, rounded once. *)

From Stdlib Require Import Ascii.
From S2P Require Import Prelude Rust Jvm Admin TopicConfigs.

(** ** Formats *)

(** A binary format: the bits of the fraction and of the exponent. *)
Record BinaryFormat := { fraction_bits : Z; exponent_bits : Z }.
Definition binary64 : BinaryFormat := {| fraction_bits := 52; exponent_bits := 11 |}.
Definition binary32 : BinaryFormat := {| fraction_bits := 23; exponent_bits := 8 |}.

Section Format.
Context (f : BinaryFormat).

Definition sign_bit : Z := 2 ^ (fraction_bits f + exponent_bits f).
Definition infinity_bits : Z := (2 ^ exponent_bits f - 1) * 2 ^ fraction_bits f.
(** The exponent of the last bit of a value whose exponent field is [0] or [1]. *)
Definition least_exponent : Z := 2 - 2 ^ (exponent_bits f - 1) - fraction_bits f.

Definition negative_in (x : Z) : bool := sign_bit <=? x.
Definition magnitude_in (x : Z) : Z := if negative_in x then x - sign_bit else x.
Definition nan_in (x : Z) : bool := infinity_bits <? magnitude_in x.
Definition infinite_in (x : Z) : bool := magnitude_in x =? infinity_bits.

(** The value of finite bits without a sign, as a ratio of integers. *)
Definition ratio (x : Z) : Z * Z :=
  let exponent := x / 2 ^ fraction_bits f in
  let mantissa := if exponent =? 0 then x else 2 ^ fraction_bits f + x mod 2 ^ fraction_bits f in
  let e := Z.max exponent 1 - 1 + least_exponent in
  if 0 <=? e then (mantissa * 2 ^ e, 1) else (mantissa, 2 ^ (- e)).

(** [num / den * base ^ k], as a ratio. *)
Definition scale (base num den k : Z) : Z * Z :=
  if 0 <=? k then (num * base ^ k, den) else (num, den * base ^ (- k)).

(** The quotient, to the nearest, and to the even one in the middle. *)
Definition round_even (num den : Z) : Z :=
  let q := num / den in
  let r := num mod den in
  if (den <? 2 * r) || ((den =? 2 * r) && Z.odd q) then q + 1 else q.

(** The bits nearest to a positive ratio. *)
Definition nearest_in (num den : Z) : Z :=
  let k := Z.log2 num - Z.log2 den in
  let '(n, d) := scale 2 num den (- k) in
  let e := Z.max ((if n <? d then k - 1 else k) - fraction_bits f) least_exponent in
  let '(n, d) := scale 2 num den (- e) in
  Z.min (round_even n d + (e - least_exponent) * 2 ^ fraction_bits f) infinity_bits.

(** ** [format!("{:e}")] *)

(** The [k] with [10 ^ k <= num / den < 10 ^ (k + 1)], from a guess. *)
Fixpoint adjust_log10 (fuel : nat) (num den k : Z) : Z :=
  match fuel with
  | O => k
  | S fuel =>
      let '(n, d) := scale 10 num den (- k) in
      if n <? d then adjust_log10 fuel num den (k - 1)
      else if 10 * d <=? n then adjust_log10 fuel num den (k + 1)
      else k
  end.
Definition log10 (num den : Z) : Z :=
  adjust_log10 8 num den ((Z.log2 num - Z.log2 den) * 3 / 10).

(** The decimals of [digits] digits next to a value whose [log10] is [k]: the
    closest of those that read as the value. *)
Definition closest_decimal (x : Z) (num den k digits : Z) : option Z :=
  let shift := k - digits + 1 in
  let '(n, d) := scale 10 num den (- shift) in
  let q := n / d in
  let reads candidate :=
    let '(n, d) := scale 10 candidate 1 shift in nearest_in n d =? x in
  let below := (0 <? q) && reads q in
  let above := reads (q + 1) in
  if below && (negb above || (2 * (n mod d) <? d)) then Some q
  else if above then Some (q + 1)
  else None.

(** The shortest digits that read as the value, at most 17, and its [log10]. *)
Fixpoint shortest_from (fuel : nat) (x : Z) (num den k digits : Z) : Z * Z :=
  match fuel with
  | O => (0, k)
  | S fuel =>
      match closest_decimal x num den k digits with
      | Some decimal => (decimal, k - digits + 1)
      | None => shortest_from fuel x num den k (digits + 1)
      end
  end.

(** The value as [digits * 10 ^ exponent]. *)
Definition shortest (x : Z) : Z * Z :=
  let '(num, den) := ratio x in
  shortest_from 17 x num den (log10 num den) 1.

(** The digits before trailing zeros. *)
Definition strip_zeros (s : string) : string :=
  let fix go (s : string) :=
    match s with
    | String c rest => if (c =? "0")%char then go rest else s
    | EmptyString => s
    end in
  str_rev (go (str_rev s)).

(** [format!("{value:e}")] of a value that is not negative, and is not zero. *)
Definition lower_exp_in (x : Z) : string :=
  let '(decimal, e) := shortest x in
  let digits := pretty decimal in
  let exponent := e + Z.of_nat (String.length digits) - 1 in
  match strip_zeros digits with
  | String first "" => String first "e" +:+ pretty exponent
  | String first rest => String first "." +:+ rest +:+ "e" +:+ pretty exponent
  | EmptyString => "e" +:+ pretty exponent
  end.

(** [value.to_string()] of such a value: its digits, without an exponent. *)
Definition display_in (x : Z) : string :=
  let '(decimal, e) := shortest x in
  let digits := strip_zeros (pretty decimal) in
  let point := e + Z.of_nat (String.length (pretty decimal)) in
  let length := Z.of_nat (String.length digits) in
  if length <=? point then digits +:+ zeros (Z.to_nat (point - length))
  else if 0 <? point then
    String.substring 0 (Z.to_nat point) digits +:+ "." +:+
    String.substring (Z.to_nat point) (Z.to_nat (length - point)) digits
  else "0." +:+ zeros (Z.to_nat (- point)) +:+ digits.
End Format.

(** ** Binary64 *)

Definition SIGN : Z := sign_bit binary64.
Definition INFINITY : Z := infinity_bits binary64.
Definition NAN : Z := INFINITY + 2 ^ 51.

Definition is_negative : F64 → bool := negative_in binary64.
Definition magnitude : F64 → F64 := magnitude_in binary64.
Definition is_nan : F64 → bool := nan_in binary64.
Definition is_infinite : F64 → bool := infinite_in binary64.
Definition with_sign (negative : bool) (x : F64) : F64 := if negative then x + SIGN else x.
Definition nearest : Z → Z → F64 := nearest_in binary64.
Definition lower_exp : F64 → string := lower_exp_in binary64.

(** ** [str::parse::<f64>] *)

Fixpoint take_digits (s : string) : string * string :=
  match s with
  | String c rest =>
      if is_ascii_digit c then let '(ds, rest) := take_digits rest in (String c ds, rest) else ("", s)
  | EmptyString => ("", s)
  end.

Definition decimal_value (digits : string) : Z := default 0 (digits_value 0 digits).

(** The nearest bits of the text of a number without a sign. *)
Definition number_value (s : string) : F64 :=
  let '(whole, rest) := take_digits s in
  let '(fraction, rest) :=
    match rest with
    | String c after => if (c =? ".")%char then take_digits after else ("", rest)
    | EmptyString => ("", rest)
    end in
  let exponent :=
    match rest with
    | String _ (String c digits as signed) =>
        if (c =? "-")%char then - decimal_value digits else decimal_value (after_sign signed)
    | _ => 0
    end in
  let mantissa := decimal_value (whole +:+ fraction) in
  if mantissa =? 0 then 0
  else
    let '(num, den) := scale 10 mantissa 1 (exponent - Z.of_nat (String.length fraction)) in
    nearest num den.

Definition parse_f64 (s : string) : option F64 :=
  let negative := match s with String c _ => (c =? "-")%char | _ => false end in
  let text := after_sign s in
  if existsb (eq_ignore_ascii_case text) ["inf"; "infinity"] then Some (with_sign negative INFINITY)
  else if eq_ignore_ascii_case text "nan" then Some (with_sign negative NAN)
  else if is_float_number text then Some (with_sign negative (number_value text))
  else None.

(** ** [configs/java.rs] *)

(** [String.trim]. *)
Definition java_blank (c : ascii) : bool := byte_of c <=? 32.
Fixpoint trim_left (s : string) : string :=
  match s with
  | String c rest => if java_blank c then trim_left rest else s
  | EmptyString => s
  end.
Definition java_trim (s : string) : string := str_rev (trim_left (str_rev (trim_left s))).

(** The bits of [1e-3] and [1e7]. *)
Definition ONE_THOUSANDTH : F64 := nearest 1 1000.
Definition TEN_MILLION : F64 := nearest 10000000 1.

(** [mantissa.replace('.', empty)]. *)
Fixpoint without_point (s : string) : string :=
  match s with
  | String c rest => if (c =? ".")%char then without_point rest else String c (without_point rest)
  | EmptyString => ""
  end.

(** [double_to_string]. *)
Definition double_to_string (value : F64) : outcome string :=
  if is_nan value then Done "NaN"
  else if is_infinite value then Done (if is_negative value then "-Infinity" else "Infinity")
  else
    let sign := if is_negative value then "-" else "" in
    let x := magnitude value in
    if x =? 0 then Done (sign +:+ "0.0")
    else
      '(mantissa, exponent) ← or_panic (split_once (λ c, (c =? "e")%char) (lower_exp x));
      exponent ← or_panic (parse_i32 exponent);
      let digits := without_point mantissa in
      if (ONE_THOUSANDTH <=? x) && (x <? TEN_MILLION) then
        if 0 <=? exponent then
          let integer_len := Z.to_nat (exponent + 1) in
          let padded := digits +:+ zeros (integer_len - String.length digits) in
          let fraction := String.substring integer_len (String.length padded - integer_len) padded in
          Done (sign +:+ String.substring 0 integer_len padded +:+ "." +:+
            (if bool_decide (fraction = "") then "0" else fraction))
        else Done (sign +:+ "0." +:+ zeros (Z.to_nat (- exponent - 1)) +:+ digits)
      else
        match digits with
        | String first rest =>
            Done (sign +:+ String first "." +:+ (if bool_decide (rest = "") then "0" else rest) +:+
              "E" +:+ pretty exponent)
        | EmptyString => Panic
        end.

(** [parse_double]. *)
Definition parse_double (text : string) : option F64 :=
  let value := java_trim text in
  let '(negative, unsigned) :=
    match value with
    | String c rest =>
        if (c =? "-")%char then (true, rest) else if (c =? "+")%char then (false, rest) else (false, value)
    | EmptyString => (false, value)
    end in
  if bool_decide (unsigned = "NaN") then Some NAN
  else if bool_decide (unsigned = "Infinity") then Some (with_sign negative INFINITY)
  else
    let decimal := without_float_suffix value in
    if contains_byte (λ c, is_ascii_alpha c && negb ((c =? "e")%char || (c =? "E")%char)) decimal
    then None
    else parse_f64 decimal.

(** The renderings and the readings that the JDK gives. *)
Definition bits_of (text : string) : F64 := default 0 (parse_f64 text).

Example double_to_string_runs :
  map (λ text, double_to_string (bits_of text))
    ["1024"; "2e7"; "12.5"; "3"; "1e7"; "9999999"; "0.001"; "0.0001"; "1.5e-5"; "123456789"; "1e21";
     "-2.5e8"; "0"; "-0"; "100"; "0.0125"; "nan"; "inf"; "-inf"; "5e-324"; "0.1"; "4.35";
     "1.7976931348623157e308"; "2.2250738585072014e-308"; "9007199254740993"] =
  map Done
    ["1024.0"; "2.0E7"; "12.5"; "3.0"; "1.0E7"; "9999999.0"; "0.001"; "1.0E-4"; "1.5E-5";
     "1.23456789E8"; "1.0E21"; "-2.5E8"; "0.0"; "-0.0"; "100.0"; "0.0125"; "NaN"; "Infinity";
     "-Infinity"; "5.0E-324"; "0.1"; "4.35"; "1.7976931348623157E308"; "2.2250738585072014E-308";
     "9.007199254740992E15"].
Proof. vm_compute. reflexivity. Qed.

Example parse_double_runs :
  map parse_double ["1024"; " 12.5 "; "1e3"; "+2.5E-1"; "7d"; "7F"; ".5"; "-Infinity"; "abc"; "";
                    "inf"; "infinity"; "nan"; "1,000"; "NaN"] =
  [Some 4652218415073722368; Some 4623226492472524800; Some 4652007308841189376;
   Some 4598175219545276416; Some 4619567317775286272; Some 4619567317775286272;
   Some 4602678819172646912; Some (SIGN + INFINITY); None; None; None; None; None; None; Some NAN].
Proof. vm_compute. reflexivity. Qed.
