(* ===== verification/ConfigsParse.v ===== *)
(** [configs/parse.rs] and the rest of [configs/java.rs]: the value grammars of
    [kafka-configs], and the iteration order of Scala's immutable sets.

    A [Secret] is its text; nothing here prints one. *)

From Stdlib Require Import Ascii.
From S2P Require Import Prelude Collections Rust Json Jvm Floats.

(** ** [configs/java.rs] *)

(** [hash_map_order]. *)
Definition hash_map_order (keys : list string) (initial_capacity : option Z) : list string :=
  hash_order keys (from_option WithCapacity Default initial_capacity) string_hash.

Definition SCALA_SMALL_COLLECTION : nat := 4.
Definition CHAMP_BITS : Z := 5.

(** [improve], on the unsigned 32 bits of a hash. *)
Definition improve (hash : Z) : Z :=
  let u32 z := z mod 2 ^ 32 in
  let h := u32 hash in
  let h := u32 (h + (2 ^ 32 - 1 - u32 (Z.shiftl h 9))) in
  let h := Z.lxor h (Z.shiftr h 14) in
  let h := u32 (h + u32 (Z.shiftl h 4)) in
  Z.lxor h (Z.shiftr h 10).

(** The elements of a slot. *)
Definition champ_slot {T} (items : list (Z * T)) (shift slot : Z) : list (Z * T) :=
  filter (λ item, Z.land (Z.shiftr item.1 shift) 31 = slot) items.

(** [champ_order]: seven levels of five bits are more than the 32 of a hash. *)
Fixpoint champ_order {T} (fuel : nat) (items : list (Z * T)) (shift : Z) : list T :=
  if 32 <=? shift then map snd items
  else
    match fuel with
    | O => []
    | S fuel =>
        let slots := map (champ_slot items shift) (seqZ 0 32) in
        let alone := filter (λ slot, length slot = 1%nat) slots in
        let nodes := filter (λ slot, (1 < length slot)%nat) slots in
        concat (map (map snd) alone) ++
        concat (map (λ node, champ_order fuel node (shift + CHAMP_BITS)) nodes)
    end.

(** [scala_set_order]. *)
Definition scala_set_order (items : list string) : list string :=
  let unique := unique_values items in
  if (length unique <=? SCALA_SMALL_COLLECTION)%nat then unique
  else champ_order 7 (map (λ item, (improve (string_hash item), item)) unique) 0.

Definition scala_set (items : list string) : string :=
  let ordered := scala_set_order items in
  (if (SCALA_SMALL_COLLECTION <? length ordered)%nat then "HashSet" else "Set") +:+
  "(" +:+ join ", " ordered +:+ ")".

Definition scala_buffer (items : list string) : string := "ArrayBuffer(" +:+ join ", " items +:+ ")".

Example scala_set_order_runs :
  scala_set_order ["b"; "a"; "b"] = ["b"; "a"] ∧
  scala_set_order ["g1"; "g2"; "g3"; "g4"; "g5"] = ["g2"; "g1"; "g5"; "g3"; "g4"] ∧
  scala_set_order ["orders"; "payments"; "audit"; "billing"; "shipping"; "alpha"] =
    ["alpha"; "payments"; "orders"; "audit"; "billing"; "shipping"] ∧
  scala_set_order
    ["a"; "b"; "c"; "d"; "e"; "f"; "g"; "h"; "i"; "j"; "k"; "l"; "m"; "n"; "o"; "p"; "q"; "r"; "s";
     "t"; "u"; "v"; "w"; "x"; "y"; "z"; "aa"; "ab"; "ac"; "ad"; "ae"; "af"; "ag"; "ah"] =
    ["e"; "n"; "t"; "a"; "ab"; "m"; "af"; "i"; "ah"; "v"; "ag"; "p"; "ad"; "w"; "k"; "s"; "ae"; "x";
     "j"; "y"; "u"; "f"; "q"; "ac"; "b"; "g"; "l"; "c"; "h"; "aa"; "r"; "o"; "z"; "d"].
Proof. vm_compute. done. Qed.

(** ** [configs/parse.rs] *)

Definition INVALID_ENTITY_CONFIG : string :=
  "requirement failed: Invalid entity config: all configs to be added must be in the format " +:+
  dquote +:+ "key=val" +:+ dquote +:+ " or  " +:+ dquote +:+ "key=[val1,val2]" +:+ dquote +:+
  " to group values which contain commas.".

Definition DEFAULT_SCRAM_ITERATIONS : Z := 4096.

Inductive Mechanism := Sha256 | Sha512.

Definition from_config_key (key : string) : option Mechanism :=
  if bool_decide (key = "SCRAM-SHA-256") then Some Sha256
  else if bool_decide (key = "SCRAM-SHA-512") then Some Sha512
  else None.

Definition mechanism_name (m : Mechanism) : string :=
  match m with Sha256 => "SCRAM-SHA-256" | Sha512 => "SCRAM-SHA-512" end.
Definition mechanism_constant (m : Mechanism) : string :=
  match m with Sha256 => "SCRAM_SHA_256" | Sha512 => "SCRAM_SHA_512" end.
Definition min_iterations (m : Mechanism) : Z := match m with Sha256 | Sha512 => 4096 end.

Record ScramCredential := {
  sc_mechanism : Mechanism; sc_iterations : Z; sc_password : string
}.

Definition is_open (c : ascii) : bool := (c =? "[")%char.
Definition is_close (c : ascii) : bool := (c =? "]")%char.

(** [outside_brackets]: no close bracket, or one after an open bracket. *)
Definition outside_brackets (rest : string) : bool :=
  match split_once is_close rest with
  | Some (before, _) => contains_byte is_open before
  | None => true
  end.

Definition is_java_space (c : ascii) : bool :=
  bool_decide (byte_of c ∈ [32; 9; 10; 11; 12; 13]).

(** [while end > start && is_java_space(bytes[end - 1])]. *)
Fixpoint drop_spaces (s : string) : string :=
  match s with
  | String c rest => if is_java_space c then drop_spaces rest else s
  | EmptyString => s
  end.
Definition drop_end_spaces (s : string) : string := str_rev (drop_spaces (str_rev s)).

(** The loop of [split]: [piece] is the text since [start], and [skipping] is on
    while [next] moves over the spaces after a separator. *)
Fixpoint split_from (separator : ascii) (around_space : bool) (rest piece : string) (skipping : bool)
    : list string :=
  match rest with
  | EmptyString => [piece]
  | String c rest =>
      if skipping && is_java_space c then split_from separator around_space rest piece true
      else if (c =? separator)%char && outside_brackets rest then
        (if around_space then drop_end_spaces piece else piece) ::
        split_from separator around_space rest "" around_space
      else split_from separator around_space rest (piece +:+ String c "") false
  end.

Fixpoint drop_empty_front (pieces : list string) : list string :=
  match pieces with
  | "" :: pieces => drop_empty_front pieces
  | pieces => pieces
  end.
(** [while pieces.last().is_some_and(|piece| piece.is_empty())]. *)
Definition drop_empty_end (pieces : list string) : list string :=
  reverse (drop_empty_front (reverse pieces)).

(** [split]. *)
Definition split_config_text (value : string) (separator : ascii) (around_space : bool)
    : list string :=
  match split_from separator around_space value "" false with
  | [_] => [value]
  | pieces => if around_space then pieces else drop_empty_end pieces
  end.

(** [replace(['[', ']'], empty)]. *)
Fixpoint without_brackets (s : string) : string :=
  match s with
  | String c rest => if is_open c || is_close c then without_brackets rest else String c (without_brackets rest)
  | EmptyString => ""
  end.

(** [add_config]. *)
Definition add_config (value : string) : result string (list (string * string)) :=
  try_map (λ entry,
    match split_config_text entry "=" true with
    | [key; value] => Ok (java_trim key, java_trim (without_brackets value))
    | _ => Err INVALID_ENTITY_CONFIG
    end) (split_config_text value "," false).

(** [config_key]. *)
Definition config_key (key : string) : result string unit :=
  if all_bytes (λ c, is_ascii_alphanumeric c || bool_decide (c ∈ ["$"; "."; "_"; "-"]%char)) key
  then Ok tt
  else Err ("Invalid character found for config key: " +:+ key).

(** Java's line terminators. *)
Definition is_line_terminator (c : Z) : bool := bool_decide (c ∈ [10; 13; 133; 8232; 8233]).

(** The iteration count as written, and the password. *)
Definition scram_parts (value : string) : option (option string * string) :=
  match strip_prefix "password=" value with
  | Some password => Some (None, password)
  | None =>
      rest ← strip_prefix "iterations=" value;
      let '(sign, digits) :=
        match strip_prefix "-" rest with Some digits => ("-", digits) | None => ("", rest) end in
      let '(count, rest) := take_digits digits in
      password ← strip_prefix ",password=" rest;
      Some (Some (sign +:+ count), password)
  end.

(** [scram_credential]. *)
Definition scram_credential (m : Mechanism) (value : string) : result string ScramCredential :=
  let invalid := "Invalid credential property " +:+ mechanism_constant m +:+ "=[redacted]" in
  '(iterations, password) ← ok_or (scram_parts value) invalid;
  if existsb is_line_terminator (chars password) then Err invalid
  else
    iterations ← match iterations with
                 | Some count =>
                     if bool_decide (count ≠ "-1") then parse_int count else Ok DEFAULT_SCRAM_ITERATIONS
                 | None => Ok DEFAULT_SCRAM_ITERATIONS
                 end;
    if iterations <? min_iterations m then
      Err ("Iterations " +:+ pretty iterations +:+ " is less than the minimum " +:+
        pretty (min_iterations m) +:+ " required for " +:+ mechanism_name m)
    else Ok {| sc_mechanism := m; sc_iterations := iterations; sc_password := password |}.

Definition MAX_NAME_LENGTH : nat := 249.

(** [topic_name]. *)
Definition topic_name (name : string) : result string unit :=
  let invalid reason := Err ("Topic name is invalid: " +:+ reason) in
  if bool_decide (name = "") then invalid "the empty string is not allowed"
  else if bool_decide (name = ".") then invalid "'.' is not allowed"
  else if bool_decide (name = "..") then invalid "'..' is not allowed"
  else if (MAX_NAME_LENGTH <? length (encode_utf16 name))%nat then
    invalid ("the length of '" +:+ name +:+ "' is longer than the max allowed length " +:+
      pretty (Z.of_nat MAX_NAME_LENGTH))
  else if negb (all_bytes (λ c, is_ascii_alphanumeric c || bool_decide (c ∈ ["."; "_"; "-"]%char)) name)
  then
    invalid ("'" +:+ name +:+
      "' contains one or more characters other than ASCII alphanumerics, '.', '_' and '-'")
  else Ok tt.

Example add_config_runs :
  map add_config
    ["retention.ms=1000"; "retention.ms=1000,cleanup.policy=[compact,delete]";
     " retention.ms = 5 , cleanup.policy = [ compact , delete ] ";
     "SCRAM-SHA-512=[password=s,iterations=8192]"; "SCRAM-SHA-256=[iterations=8192,password=a=b]";
     "a="; "a=1,"; "a=1,,"; ","; "a=b=c"; "novalue"; "a=1,,b=2"; ""; "a= =b"] =
  [Ok [("retention.ms", "1000")]; Ok [("retention.ms", "1000"); ("cleanup.policy", "compact,delete")];
   Ok [("retention.ms", "5"); ("cleanup.policy", "compact , delete")];
   Ok [("SCRAM-SHA-512", "password=s,iterations=8192")];
   Ok [("SCRAM-SHA-256", "iterations=8192,password=a=b")];
   Ok [("a", "")]; Ok [("a", "1")]; Ok [("a", "1")]; Ok []; Err INVALID_ENTITY_CONFIG;
   Err INVALID_ENTITY_CONFIG; Err INVALID_ENTITY_CONFIG; Err INVALID_ENTITY_CONFIG;
   Err INVALID_ENTITY_CONFIG].
Proof. vm_compute. reflexivity. Qed.

Example scram_credential_runs :
  map (scram_credential Sha256)
    ["password=s,iterations=8192"; "iterations=8192,password=s"; "iterations=-1,password=p=q";
     "password="; "iterations=100,password=x"; "iterations=-5,password=x"; "iterations=,password=x";
     "bogus"; "iterations=x,password=secret"] =
  [Ok {| sc_mechanism := Sha256; sc_iterations := 4096; sc_password := "s,iterations=8192" |};
   Ok {| sc_mechanism := Sha256; sc_iterations := 8192; sc_password := "s" |};
   Ok {| sc_mechanism := Sha256; sc_iterations := 4096; sc_password := "p=q" |};
   Ok {| sc_mechanism := Sha256; sc_iterations := 4096; sc_password := "" |};
   Err "Iterations 100 is less than the minimum 4096 required for SCRAM-SHA-256";
   Err "Iterations -5 is less than the minimum 4096 required for SCRAM-SHA-256";
   Err (parse_int_error ""); Err "Invalid credential property SCRAM_SHA_256=[redacted]";
   Err "Invalid credential property SCRAM_SHA_256=[redacted]"].
Proof. vm_compute. reflexivity. Qed.

(** ** The order of a Scala set *)

Lemma champ_slots_perm {T} (items : list (Z * T)) shift n :
  (∀ item, item ∈ items → 0 ≤ Z.land (Z.shiftr item.1 shift) 31 < n) →
  concat (map (champ_slot items shift) (seqZ 0 n)) ≡ₚ items.
Proof.
  induction items as [|x items IH]; intros Hn.
  - induction (seqZ 0 n) as [|i l IHl]; [done|]. exact IHl.
  - transitivity (x :: concat (map (champ_slot items shift) (seqZ 0 n)));
      [|constructor; apply IH; intros; apply Hn; by right].
    specialize (Hn x ltac:(left)). set (s := Z.land (Z.shiftr x.1 shift) 31) in *.
    assert (NoDup (seqZ 0 n)) as Hnd by apply NoDup_seqZ.
    assert (s ∈ seqZ 0 n) as Hin by (apply elem_of_seqZ; lia).
    clear IH Hn. induction (seqZ 0 n) as [|i l IHl]; [by apply elem_of_nil in Hin|].
    apply NoDup_cons in Hnd as [Hi Hnd]. cbn [map concat].
    unfold champ_slot at 1. rewrite filter_cons. fold s. case_decide as Hsi.
    + subst i. cbn [app]. constructor. apply Permutation_app; [done|].
      assert (∀ j, j ∈ l → champ_slot (x :: items) shift j = champ_slot items shift j) as Hl.
      { intros j Hj. unfold champ_slot. rewrite filter_cons. fold s. rewrite decide_False; [done|].
        intros ->. done. }
      clear IHl Hin Hnd Hi. induction l as [|j l IHl']; [done|]. cbn [map concat].
      rewrite Hl by left. apply Permutation_app; [done|]. apply IHl'. intros k Hk. apply Hl. by right.
    + apply elem_of_cons in Hin as [?|Hin]; [congruence|]. rewrite IHl by done.
      symmetry. apply Permutation_middle.
Qed.

Lemma concat_by_length {A} (ll : list (list A)) :
  concat ll ≡ₚ concat (filter (λ l, length l = 1%nat) ll) ++ concat (filter (λ l, (1 < length l)%nat) ll).
Proof.
  induction ll as [|l ll IH]; [done|]. cbn [concat]. rewrite IH, !filter_cons.
  destruct l as [|x [|y l]].
  - rewrite !decide_False by (simpl; lia). done.
  - rewrite decide_True, decide_False by (simpl; lia). done.
  - rewrite decide_False, decide_True by (simpl; lia). cbn [concat].
    rewrite !app_assoc. apply Permutation_app_tail. apply Permutation_app_comm.
Qed.

Lemma champ_order_perm {T} fuel (items : list (Z * T)) shift :
  32 ≤ shift + CHAMP_BITS * Z.of_nat fuel → champ_order fuel items shift ≡ₚ map snd items.
Proof.
  revert items shift. induction fuel as [|fuel IH]; intros items shift Hf; cbn [champ_order].
  - rewrite (proj2 (Z.leb_le 32 shift)) by (unfold CHAMP_BITS in Hf; lia). done.
  - destruct (32 <=? shift); [done|]. set (slots := map (champ_slot items shift) (seqZ 0 32)). transitivity (map snd (concat slots)).
    + rewrite (concat_by_length slots), map_app, !concat_map. apply Permutation_app; [done|].
      induction (filter (λ slot, (1 < length slot)%nat) slots) as [|node nodes IHn]; [done|].
      cbn [map concat]. rewrite IH by (unfold CHAMP_BITS in *; lia). by rewrite IHn.
    + apply Permutation_map, champ_slots_perm. intros item _.
      change 31 with (Z.ones 5). rewrite Z.land_ones by lia. apply Z.mod_pos_bound. lia.
Qed.

Lemma scala_set_order_perm items : scala_set_order items ≡ₚ unique_values items.
Proof.
  unfold scala_set_order. destruct (_ <=? _)%nat; [done|]. rewrite champ_order_perm by done.
  by rewrite map_map, map_id.
Qed.

Lemma scala_set_order_elem items item : item ∈ scala_set_order items ↔ item ∈ items.
Proof.
  rewrite scala_set_order_perm. unfold unique_values.
  destruct (unique_values_from items [] (NoDup_nil_2 (A := string))) as [_ ->]. set_solver.
Qed.

(** A Scala set has each of its items once, whatever their hashes: the order
    that [krabka configs] prints and sends keys in is a permutation of the
    distinct keys, for every number of keys and every collision. *)
Theorem scala_set_order_spec (items : list string) :
  scala_set_order items ≡ₚ unique_values items ∧ NoDup (scala_set_order items) ∧
  ∀ item, item ∈ scala_set_order items ↔ item ∈ items.
Proof.
  split; [apply scala_set_order_perm|]. split; [|apply scala_set_order_elem].
  rewrite scala_set_order_perm. apply (unique_values_from items [] (NoDup_nil_2 (A := string))).
Qed.

(** ** [--add-config] reads back *)

(** What [kafka-configs] documents: a value in brackets keeps its commas. *)
Definition config_text (entry : string * string) : string :=
  entry.1 +:+ "=[" +:+ entry.2 +:+ "]".
Definition configs_text (entries : list (string * string)) : string :=
  join "," (map config_text entries).

Definition plain_key (key : string) : bool :=
  all_bytes (λ c, negb (java_blank c) && negb (bool_decide (c ∈ [","; "="; "["; "]"]%char))) key.
Definition unbracketed (value : string) : bool :=
  all_bytes (λ c, negb (is_open c || is_close c)) value.

(** The close bracket of a value, seen from inside and from before it. *)
Lemma inside_value value rest :
  unbracketed value = true → outside_brackets (value +:+ String "]" rest) = false.
Proof.
  intros Hv. unfold outside_brackets. rewrite split_once_app; [| |done].
  - rewrite contains_byte_none. apply negb_false_iff. eapply all_bytes_impl; [|exact Hv].
    intros c. cbv beta. destruct (is_open c); done.
  - eapply all_bytes_impl; [|exact Hv]. intros c. cbv beta. destruct (is_open c), (is_close c); done.
Qed.

Lemma before_value key value rest :
  all_bytes (λ c, negb (is_close c)) key = true → unbracketed value = true →
  outside_brackets (key +:+ "[" +:+ value +:+ String "]" rest) = true.
Proof.
  intros Hk Hv. unfold outside_brackets.
  replace (key +:+ "[" +:+ value +:+ String "]" rest) with ((key +:+ "[" +:+ value) +:+ String "]" rest)
    by by rewrite !str_app_assoc.
  rewrite split_once_app; [| |done].
  - rewrite !contains_byte_app. cbn. by rewrite orb_true_r.
  - rewrite !all_bytes_app, Hk. cbn. eapply all_bytes_impl; [|exact Hv].
    intros c. cbv beta. destruct (is_open c), (is_close c); done.
Qed.

(** Text without a separator outside brackets is part of the piece. *)
Lemma split_from_app sep sp t rest piece :
  (∀ a b, t = a +:+ String sep b → outside_brackets (b +:+ rest) = false) →
  split_from sep sp (t +:+ rest) piece false = split_from sep sp rest (piece +:+ t) false.
Proof.
  revert piece. induction t as [|c t IH]; intros piece Ht.
  - by rewrite str_app_nil_r.
  - rewrite str_app_cons. cbn [split_from andb].
    assert (((c =? sep)%char && outside_brackets (t +:+ rest)) = false) as ->.
    { destruct (Ascii.eqb_spec c sep) as [->|]; [|done]. by rewrite (Ht "" t). }
    rewrite IH; [by rewrite str_app_assoc|]. intros a b ->. by apply (Ht (String c a)).
Qed.

Lemma all_bytes_split p a c b : all_bytes p (a +:+ String c b) = true → p c = true ∧ all_bytes p b = true.
Proof. rewrite all_bytes_app. cbn. rewrite !andb_true_iff. tauto. Qed.

(** Plain text, and a value with its close bracket. *)
Lemma split_from_plain sep sp t rest piece :
  all_bytes (λ c, negb (c =? sep)%char) t = true →
  split_from sep sp (t +:+ rest) piece false = split_from sep sp rest (piece +:+ t) false.
Proof.
  intros Ht. apply split_from_app. intros a b ->. apply all_bytes_split in Ht as [Hs _].
  by rewrite Ascii.eqb_refl in Hs.
Qed.

Lemma split_from_value sep sp value rest piece :
  unbracketed value = true → (sep =? "]")%char = false →
  split_from sep sp (value +:+ String "]" rest) piece false =
  split_from sep sp rest (piece +:+ value +:+ "]") false.
Proof.
  intros Hv Hsep. rewrite split_from_app.
  - change (String "]" rest) with ("]" +:+ rest). rewrite split_from_plain; [by rewrite str_app_assoc|].
    unfold all_bytes. by rewrite Ascii.eqb_sym, Hsep.
  - intros a b ->. apply inside_value. by destruct (all_bytes_split _ _ _ _ Hv).
Qed.

Lemma plain_key_without key c :
  plain_key key = true → c ∈ [","; "="; "["; "]"]%char → all_bytes (λ x, negb (x =? c)%char) key = true.
Proof.
  intros Hk Hc. eapply all_bytes_impl; [|exact Hk]. intros x. rewrite andb_true_iff, !negb_true_iff.
  intros [_ Hx%bool_decide_eq_false]. apply Ascii.eqb_neq. by intros ->.
Qed.

Lemma plain_key_unclosed key : plain_key key = true → all_bytes (λ c, negb (is_close c)) key = true.
Proof. intros Hk. by apply (plain_key_without _ "]"%char) in Hk; [|set_solver]. Qed.

Definition config_ok (entry : string * string) : Prop :=
  plain_key entry.1 = true ∧ unbracketed entry.2 = true ∧ java_trim entry.2 = entry.2.

(** The commas of a text of configs split it into its configs. *)
Lemma split_from_entry entry rest piece :
  config_ok entry →
  split_from "," false (config_text entry +:+ rest) piece false =
  split_from "," false rest (piece +:+ config_text entry) false.
Proof.
  destruct entry as [key value]. intros (Hk & Hv & _). unfold config_text. cbn [fst snd] in *.
  rewrite str_app_assoc, split_from_plain; [|by apply plain_key_without; [|set_solver]].
  rewrite str_app_assoc, split_from_plain by done.
  rewrite str_app_assoc. change ("]" +:+ rest) with (String "]" rest).
  rewrite split_from_value by done.
  f_equal. by rewrite !str_app_assoc.
Qed.

Lemma split_from_entries entries entry piece :
  Forall config_ok (entry :: entries) →
  split_from "," false (configs_text (entry :: entries)) piece false =
  (piece +:+ config_text entry) :: map config_text entries.
Proof.
  revert entry piece. induction entries as [|next entries IH]; intros entry piece;
    rewrite Forall_cons; intros [He Hes].
  - unfold configs_text. cbn [map join]. rewrite <-(str_app_nil_r (config_text entry)).
    rewrite split_from_entry by done. by rewrite str_app_nil_r.
  - change (configs_text (entry :: next :: entries))
      with (config_text entry +:+ "," +:+ configs_text (next :: entries)).
    rewrite split_from_entry by done.
    change ("," +:+ configs_text (next :: entries)) with (String "," (configs_text (next :: entries))).
    cbn [split_from andb].
    assert (outside_brackets (configs_text (next :: entries)) = true) as Hout.
    { destruct next as [key value]. apply Forall_cons in Hes as [(Hk & Hv & _) _]. cbn [fst snd] in *.
      assert (∃ rest, configs_text ((key, value) :: entries) =
        (key +:+ "=") +:+ "[" +:+ value +:+ String "]" rest) as [rest ->].
      { unfold configs_text, config_text. destruct entries as [|e entries]; cbn [map join fst snd].
        - exists "". by rewrite !str_app_assoc.
        - by eexists; rewrite !str_app_assoc. }
      apply before_value; [|done]. rewrite all_bytes_app, plain_key_unclosed by done. done. }
    rewrite Hout. change ((("," =? ",")%char) && true) with true. cbv iota. f_equal. by apply IH.
Qed.

(** The equals sign of a config splits it into its key and its value. *)
Lemma drop_end_spaces_id s : all_bytes (λ c, negb (is_java_space c)) s = true → drop_end_spaces s = s.
Proof.
  intros Hs. unfold drop_end_spaces. rewrite <-all_bytes_rev in Hs.
  destruct (str_rev s) as [|c r] eqn:E; [by rewrite <-(str_rev_involutive s), E|].
  cbn in Hs. apply andb_true_iff in Hs as [Hc _]. cbn [drop_spaces].
  apply negb_true_iff in Hc as ->. by rewrite <-E, str_rev_involutive.
Qed.

Lemma java_trim_id s : all_bytes (λ c, negb (java_blank c)) s = true → java_trim s = s.
Proof.
  intros Hs. unfold java_trim.
  assert (∀ t, all_bytes (λ c, negb (java_blank c)) t = true → trim_left t = t) as Hleft.
  { intros [|c t]; [done|]. cbn. intros [Hc _]%andb_true_iff. by apply negb_true_iff in Hc as ->. }
  rewrite (Hleft s) by done. rewrite Hleft by by rewrite all_bytes_rev. apply str_rev_involutive.
Qed.

Lemma without_brackets_value value :
  unbracketed value = true → without_brackets ("[" +:+ value +:+ "]") = value.
Proof.
  intros Hv. change (without_brackets ("[" +:+ value +:+ "]")) with (without_brackets (value +:+ "]")).
  induction value as [|c value IH]; [done|]. unfold unbracketed in *. cbn in Hv.
  apply andb_true_iff in Hv as [Hc%negb_true_iff Hv]. rewrite str_app_cons. cbn [without_brackets].
  by rewrite Hc, IH.
Qed.

Lemma java_space_blank c : is_java_space c = true → java_blank c = true.
Proof. unfold is_java_space, java_blank. intros H%bool_decide_eq_true. apply Z.leb_le. set_solver by lia. Qed.

Lemma split_entry entry :
  config_ok entry → split_config_text (config_text entry) "=" true = [entry.1; "[" +:+ entry.2 +:+ "]"].
Proof.
  destruct entry as [key value]. intros (Hk & Hv & _). unfold split_config_text, config_text. cbn [fst snd] in *.
  rewrite split_from_plain by (by apply plain_key_without; [|set_solver]).
  change ("=[" +:+ value +:+ "]") with (String "=" (String "[" (value +:+ "]"))).
  cbn [split_from andb]. change ("=" =? "=")%char with true.
  assert (outside_brackets (String "[" (value +:+ "]")) = true) as Hout.
  { apply (before_value "" value ""); done. }
  rewrite Hout. cbn [andb]. change ("[" =? "=")%char with false.
  change (is_java_space "[") with false. cbn [andb]. rewrite split_from_value by done. cbn [split_from].
  rewrite drop_end_spaces_id; [done|]. eapply all_bytes_impl; [|exact Hk]. intros c. cbv beta.
  rewrite andb_true_iff. intros [Hb _]. destruct (is_java_space c) eqn:Hs; [|done].
  apply java_space_blank in Hs. by rewrite Hs in Hb.
Qed.

Lemma drop_empty_end_id pieces last : last ≠ "" → drop_empty_end (pieces ++ [last]) = pieces ++ [last].
Proof.
  intros Hl. unfold drop_empty_end. rewrite reverse_app. cbn. destruct last; [done|]. cbn.
  rewrite <-(reverse_involutive (pieces ++ _)), reverse_app. done.
Qed.

Lemma config_text_nonempty entry : config_text entry ≠ "".
Proof. unfold config_text. destruct entry as [[|] ?]; done. Qed.

(** [--add-config] reads back what its documentation says to write: a list of
    [key=[value]] gives the keys and the values, in order, where a key has no
    blank, comma, equals sign or bracket, and a value, which may have commas and
    equals signs, no bracket and no blank at its ends. *)
Theorem add_config_reads (entries : list (string * string)) :
  entries ≠ [] → Forall config_ok entries → add_config (configs_text entries) = Ok entries.
Proof.
  destruct entries as [|entry entries]; [done|]. intros _ Hok. unfold add_config.
  assert (split_config_text (configs_text (entry :: entries)) "," false = map config_text (entry :: entries))
    as ->.
  { unfold split_config_text. rewrite split_from_entries by done. change ("" +:+ ?s) with s.
    destruct entries as [|next entries]; [done|]. cbn [map].
    destruct (exists_last (l := config_text next :: map config_text entries)) as (ps & l & E); [done|].
    rewrite E. rewrite app_comm_cons. apply drop_empty_end_id.
    assert (l ∈ map config_text (next :: entries)) as Hl by (cbn [map]; rewrite E; set_solver).
    apply list_elem_of_fmap in Hl as (e & -> & _). apply config_text_nonempty. }
  induction Hok as [|e es He Hes IH]; [done|]. cbn [map try_map].
  rewrite split_entry by done. destruct e as [key value], He as (Hk & Hv & Ht). cbn [fst snd] in *.
  assert (java_trim key = key) as ->.
  { apply java_trim_id. eapply all_bytes_impl; [|exact Hk]. intros c. cbv beta. by rewrite andb_true_iff; intros []. }
  rewrite without_brackets_value by done.
  rewrite Ht. cbn [mbind result_bind]. by rewrite IH.
Qed.

Lemma add_config_reads_witness :
  Forall config_ok [("cleanup.policy", "compact,delete"); ("SCRAM-SHA-256", "iterations=8192,password=a b")] ∧
  add_config "cleanup.policy=[compact,delete],SCRAM-SHA-256=[iterations=8192,password=a b]" =
    Ok [("cleanup.policy", "compact,delete"); ("SCRAM-SHA-256", "iterations=8192,password=a b")].
Proof.
  assert (Forall config_ok [("cleanup.policy", "compact,delete");
    ("SCRAM-SHA-256", "iterations=8192,password=a b")]) as Hok by (repeat constructor; vm_compute; reflexivity).
  split; [exact Hok|].
  exact (add_config_reads [("cleanup.policy", "compact,delete");
    ("SCRAM-SHA-256", "iterations=8192,password=a b")] ltac:(discriminate) Hok).
Defined.

(** A SCRAM credential has at least the iterations of its mechanism, and a
    password without a line end. *)
Lemma scram_credential_Ok m value credential :
  scram_credential m value = Ok credential →
  sc_mechanism credential = m ∧ min_iterations m ≤ sc_iterations credential ∧
  existsb is_line_terminator (chars (sc_password credential)) = false.
Proof.
  unfold scram_credential. intros H. destruct (scram_parts value) as [[count password]|]; [|done].
  cbn in H. destruct (existsb _ _) eqn:Hp; [done|].
  destruct (match count with Some _ => _ | None => _ end) as [n|]; [|done]. cbn in H.
  destruct (Z.ltb_spec n (min_iterations m)); [done|]. by injection H as <-.
Qed.
