(* ===== verification/Configs.v ===== *)
(** [configs.rs] and [configs/render.rs]: [krabka configs], the counterpart of
    [kafka-configs]: the checks of the command line, and the requests and reports
    of [--describe] and [--alter] on config resources, client quotas and SCRAM
    credentials.

    A [ConfigsArgs] is what [clap] parsed, with a flag that takes no value as a
    bool. *)

From Stdlib Require Import Ascii.
From S2P Require Import Connection.
From S2P Require Import Prelude Collections Rust Properties Jvm Json KafkaErrors Output.
From S2P Require Import Program Admin Floats ConfigsParse.

Definition TOPICS : string := "topics".
Definition CLIENTS : string := "clients".
Definition USERS : string := "users".
Definition BROKERS : string := "brokers".
Definition IPS : string := "ips".
Definition CLIENT_METRICS : string := "client-metrics".
Definition GROUPS : string := "groups".
Definition BROKER_LOGGERS : string := "broker-loggers".

Definition ENTITY_TYPES : list string :=
  [TOPICS; CLIENTS; USERS; BROKERS; IPS; CLIENT_METRICS; GROUPS; BROKER_LOGGERS].

Definition USER_AND_CLIENT_QUOTAS : list string :=
  ["producer_byte_rate"; "consumer_byte_rate"; "request_percentage"; "controller_mutation_rate"].
Definition IP_QUOTAS : list string := ["connection_creation_rate"].

Definition ALTERED_TWICE : string :=
  "AlterUserScramCredentials failed: DUPLICATE_RESOURCE (92): A user credential cannot be altered twice in the same request".

(** The entity types of Kafka's quotas, as [krabka_client_admin] names them. *)
Definition ENTITY_USER : string := "user".
Definition ENTITY_CLIENT_ID : string := "client-id".
Definition ENTITY_IP : string := "ip".

(** What the client does with a resource, and how [serde_json] writes a number:
    [ConfigResource::dynamic_config_source] as the wire id of the source, the
    [Debug] of a resource, and the text of an [f64], [None] for one that is not
    finite. *)
Class KrabkaConfigs := {
  dynamic_config_source : ConfigResource → option Z;
  resource_debug : ConfigResource → string;
  json_f64 : F64 → option string
}.

(** ** The flags *)

Record EntitySelectors := {
  es_names : list string;
  es_entity_names : list string;
  es_entity_default : bool
}.

(** [from_arg_matches], from the positions and the values of the two flags on the
    command line. *)
Definition entity_selectors (name_positions : list nat) (entity_names : list string)
    (default_positions : list nat) : EntitySelectors :=
  let ordered :=
    sort_by_key fst (zip name_positions entity_names ++ map (λ index, (index, "")) default_positions) in
  {| es_names := map snd ordered;
     es_entity_names := entity_names;
     es_entity_default := bool_decide (default_positions ≠ []) |}.

Record ConfigsArgs := {
  cfg_connection : ConnectionArgs;
  cfg_alter : bool;
  cfg_describe : bool;
  cfg_all : bool;
  cfg_entity_type : list string;
  cfg_entity : EntitySelectors;
  cfg_add_config : list string;
  cfg_add_config_file : list string;
  cfg_delete_config : list string;
  cfg_topic : list string;
  cfg_client : list string;
  cfg_client_defaults : bool;
  cfg_user : list string;
  cfg_user_defaults : bool;
  cfg_broker : list string;
  cfg_broker_defaults : bool;
  cfg_broker_logger : list string;
  cfg_ip_defaults : bool;
  cfg_ip : list string;
  cfg_group : list string;
  cfg_client_metrics : list string
}.

Inductive ScramChange :=
  | UpsertScram (credential : ScramCredential)
  | DeleteScram (mechanism : Mechanism).

(** [Plan]. *)
Inductive ConfigsPlan :=
  | DescribeResources (entity_type : string) (name : option string) (all : bool)
  | AlterResource (entity_type name : string) (deletes : list string) (sets : list (string * string))
  | AlterBrokerLoggers (broker : string) (deletes : list string) (sets : list (string * string))
  | DescribeQuotas (components : list ClientQuotaFilterComponent) (scram_users : option (list string))
  | AlterQuotas (entity_type name : string) (entity : ClientQuotaEntity)
      (components : list ClientQuotaFilterComponent) (sets : list (string * string))
      (deletes : list string)
  | AlterUserScram (entity_type name : string) (change : option ScramChange).

Definition one_of (key : string) (keys : list string) : bool := bool_decide (key ∈ keys).

(** [static_type]: panics on a type that was not checked. *)
Definition static_type (entity_type : string) : cmd admin string :=
  expect (find (λ known, bool_decide (known = entity_type)) ENTITY_TYPES).

Definition quota_entity_type (entity_type : string) : string :=
  if bool_decide (entity_type = USERS) then ENTITY_USER
  else if bool_decide (entity_type = CLIENTS) then ENTITY_CLIENT_ID
  else ENTITY_IP.

Definition quota_entity (types names : list string) : ClientQuotaEntity :=
  bt_collect (zip_with (λ entity_type name,
    (quota_entity_type entity_type, if bool_decide (name = "") then None else Some name)) types names).

Definition quota_component (entity_type : string) (name : option string)
    : ClientQuotaFilterComponent :=
  let entity_type := quota_entity_type entity_type in
  match name with
  | Some "" => OfDefaultEntity entity_type
  | Some name => OfEntity entity_type name
  | None => OfEntityType entity_type
  end.
Definition quota_components (types names : list string) : list ClientQuotaFilterComponent :=
  imap (λ index entity_type, quota_component entity_type (names !! index)) types.

(** [single]. *)
Definition single_value {T} (values : list T) (option : string) : result string (Datatypes.option T) :=
  match values with
  | [] => Ok None
  | [value] => Ok (Some value)
  | _ => Err ("Found multiple arguments for option " +:+ option +:+ ", but you asked for only one")
  end.

(** [resolves]. *)
Definition resolves (host : string) : cmd admin bool :=
  if bool_decide (host = "") then pure true else await (send (HostResolves host)).

Section Args.
Context (args : ConfigsArgs).

Definition entity_flags : list (list string * string * string) :=
  [(cfg_topic args, "topic", TOPICS); (cfg_client args, "client", CLIENTS);
   (cfg_user args, "user", USERS); (cfg_broker args, "broker", BROKERS);
   (cfg_broker_logger args, "broker-logger", BROKER_LOGGERS); (cfg_ip args, "ip", IPS);
   (cfg_client_metrics args, "client-metrics", CLIENT_METRICS); (cfg_group args, "group", GROUPS)].

Definition default_flags : list (bool * string) :=
  [(cfg_client_defaults args, CLIENTS); (cfg_user_defaults args, USERS);
   (cfg_broker_defaults args, BROKERS); (cfg_ip_defaults args, IPS)].

Definition has_entity_flag : bool :=
  existsb (λ '(values, _, _), bool_decide (values ≠ [])) entity_flags || existsb fst default_flags.

Definition entity_types : list string :=
  cfg_entity_type args ++
  map snd (filter (λ flag, flag.1.1 ≠ []) entity_flags) ++
  map snd (filter (λ flag, flag.1 = true) default_flags).

Definition entity_names : result string (list string) :=
  values ← try_map (λ '(values, option, _), single_value (T := string) values option) entity_flags;
  Ok (es_names (cfg_entity args) ++ omap id values ++
      map (λ _, "") (filter (λ flag, flag.1 = true) default_flags)).

(** The types of the command line after the first of each. *)
Definition extra_types (types : list string) : list string :=
  fold_left (λ extra entity_type,
    match list_find (entity_type =.) extra with
    | Some (first, _) => delete first extra
    | None => extra
    end) (unique_values types) types.

Definition fail_when (bad : bool) (message : string) : result string unit :=
  if bad then Err message else Ok tt.

(** The checks of [plan] on the action and on the entity types. *)
Definition check_describe_flags : result string unit :=
  if cfg_describe args then
    match find fst [(bool_decide (cfg_add_config args ≠ []), "add-config");
                    (bool_decide (cfg_delete_config args ≠ []), "delete-config")] with
    | Some (_, option) =>
        Err ("Option " +:+ dquote +:+ "[describe]" +:+ dquote +:+ " can't be used with option " +:+
          dquote +:+ "[" +:+ option +:+ "]" +:+ dquote)
    | None => Ok tt
    end
  else Ok tt.

Definition head_type (types : list string) : result string string :=
  match types with
  | [] => Err "At least one entity type must be specified"
  | [head] => Ok head
  | [head; other] =>
      if forallb (λ t, bool_decide (t = USERS) || bool_decide (t = CLIENTS)) [head; other] then Ok head
      else Err "Only 'users' and 'clients' entity types may be specified together"
  | _ => Err "Only 'users' and 'clients' entity types may be specified together"
  end.

Definition check_types (types : list string) : result string string :=
  fail_when (negb (Nat.b2n (cfg_alter args) + Nat.b2n (cfg_describe args) =? 1)%nat)
    "Command must include exactly one action: --describe, --alter";;
  check_describe_flags;;
  fail_when (bool_decide (extra_types types ≠ []))
    ("Duplicate entity type(s) specified: " +:+ join "," (extra_types types));;
  fail_when (bool_decide (bootstrap_server (cfg_connection args) = []) &&
             bool_decide (bootstrap_controller (cfg_connection args) = []))
    "Either --bootstrap-server or --bootstrap-controller must be specified.";;
  match find (λ t, negb (one_of t ENTITY_TYPES)) types with
  | Some invalid =>
      Err ("Invalid entity type " +:+ invalid +:+ ", the entity type must be one of " +:+
        join ", " ENTITY_TYPES +:+ " with a --bootstrap-server or --bootstrap-controller argument")
  | None => Ok tt
  end;;
  head ← head_type types;
  fail_when ((bool_decide (es_names (cfg_entity args) ≠ []) || bool_decide (cfg_entity_type args ≠ []))
             && has_entity_flag)
    "--entity-{type,name,default} should not be used in conjunction with specific entity flags";;
  Ok head.

(** The checks of broker ids. *)
Fixpoint check_broker_ids (head : string) (flags : list (list string * string)) : result string unit :=
  match flags with
  | [] => Ok tt
  | (values, option) :: flags =>
      value ← single_value values option;
      match value with
      | Some id =>
          map_err (λ _, "The entity name for " +:+ head +:+
            " must be a valid integer broker id, but it is: " +:+ id) (parse_int id);;
          check_broker_ids head flags
      | None => check_broker_ids head flags
      end
  end.

(** The checks of IP addresses, which can resolve a name. *)
Fixpoint check_ips (head : string) (flags : list (list string * string)) : cmd admin unit :=
  match flags with
  | [] => pure tt
  | (values, option) :: flags =>
      value ← lift (single_value values option);
      match value with
      | Some ip =>
          ok ← resolves ip;
          if ok : bool then check_ips head flags
          else throw (Other ("The entity name for " +:+ head +:+
                 " must be a valid IP or resolvable host, but it is: " +:+ ip))
      | None => check_ips head flags
      end
  end.

(** [describe_plan]. *)
Definition describe_plan (head : string) (types names : list string) : cmd admin ConfigsPlan :=
  if one_of head [TOPICS; BROKERS; BROKER_LOGGERS; CLIENT_METRICS; GROUPS] then
    let name := list.head names in
    match name with
    | Some name => if bool_decide (head = TOPICS) then lift (topic_name name) else pure tt
    | None => pure tt
    end;;
    entity_type ← static_type head;
    pure (DescribeResources entity_type name (cfg_all args))
  else if (length types <? length names)%nat then
    throw (Other "More entity names specified than entity types")
  else
    pure (DescribeQuotas (quota_components types names)
      (if negb (bool_decide (head = IPS)) && negb (one_of CLIENTS types) && negb (one_of "" names)
       then Some names else None)).

(** The configs of [configs_to_add], before their order. *)
Definition read_configs : cmd admin (list (string * string)) :=
  path ← lift (single_value (cfg_add_config_file args) "add-config-file");
  configs ← match path with
            | Some path =>
                bytes ← await (send (ReadFile path));
                bytes ← lift (map_err (λ error,
                  "read --add-config-file " +:+ path +:+ ": " +:+ error) bytes);
                properties ← lift (map_err config_error_text (parse_properties (text_bytes bytes)));
                pure (bt_collect (prop_entries properties))
            | None => pure []
            end;
  value ← lift (single_value (cfg_add_config args) "add-config");
  match value with
  | Some value => added ← lift (add_config value); pure (bt_collect (configs ++ added))
  | None => pure configs
  end.

(** [configs_to_add]. *)
Definition configs_to_add : cmd admin (list (string * string)) :=
  configs ← read_configs;
  let order := hash_map_order (bt_keys configs) None in
  lift (try_map config_key order);;
  pure (omap (λ key, pair key <$> bt_get key configs) (scala_set_order order)).
End Args.

(** [alter_user_or_client_plan]: what the keys are. *)
Definition is_quota (key : string) : bool := one_of key USER_AND_CLIENT_QUOTAS.
Definition is_scram (key : string) : bool := is_some (from_config_key key).
Definition unknown_keys (keys : list string) : list string :=
  filter (λ key, (is_quota key || is_scram key) = false) keys.
Definition scram_keys (keys : list string) : list string := filter (λ key, is_scram key = true) keys.

Definition check_keys (head : string) (types add_keys deletes : list string) (name : string)
    : result string unit :=
  let has_quota := existsb is_quota add_keys || existsb is_quota deletes in
  if bool_decide (head = CLIENTS) || (length types =? 2)%nat then
    let adds := unknown_keys add_keys ++ scram_keys add_keys in
    let removals := unknown_keys deletes ++ scram_keys deletes in
    fail_when (bool_decide (adds ≠ []))
      ("Only quota configs can be added for '" +:+ CLIENTS +:+
       "' using --bootstrap-server. Unexpected config names: " +:+ scala_set (unique_values adds));;
    fail_when (bool_decide (removals ≠ []))
      ("Only quota configs can be deleted for '" +:+ CLIENTS +:+
       "' using --bootstrap-server. Unexpected config names: " +:+ scala_buffer removals)
  else
    fail_when (bool_decide (unknown_keys add_keys ≠ []))
      ("Only quota and SCRAM credential configs can be added for '" +:+ USERS +:+
       "' using --bootstrap-server. Unexpected config names: " +:+ scala_set (unknown_keys add_keys));;
    fail_when (bool_decide (unknown_keys deletes ≠ []))
      ("Only quota and SCRAM credential configs can be deleted for '" +:+ USERS +:+
       "' using --bootstrap-server. Unexpected config names: " +:+ scala_buffer (unknown_keys deletes));;
    if bool_decide (scram_keys add_keys ≠ []) || bool_decide (scram_keys deletes ≠ []) then
      fail_when (bool_decide (name = ""))
        "The use of --entity-default or --user-defaults is not allowed with User SCRAM Credentials using --bootstrap-server.";;
      fail_when has_quota
        ("Cannot alter both quota and SCRAM credential configs simultaneously for '" +:+ USERS +:+
         "' using --bootstrap-server.")
    else Ok tt.

(** The SCRAM changes: the deletions, then the credentials. *)
Definition scram_changes (adds : list (string * string)) (deletes : list string)
    : result string (list ScramChange) :=
  upserts ← try_map (λ '(key, value),
    match from_config_key key with
    | Some mechanism => (λ c, [UpsertScram c]) <$> scram_credential mechanism value
    | None => Ok []
    end) adds;
  Ok (map DeleteScram (omap from_config_key (scram_keys deletes)) ++ concat upserts).

Definition empty_password (change : ScramChange) : bool :=
  match change with
  | UpsertScram credential => bool_decide (sc_password credential = "")
  | DeleteScram _ => false
  end.

Definition alter_user_or_client_plan (head : string) (types names : list string)
    (adds : list (string * string)) (deletes : list string) : cmd admin ConfigsPlan :=
  name ← expect (list.head names);
  let add_keys := map fst adds in
  lift (check_keys head types add_keys deletes name);;
  if existsb is_quota add_keys || existsb is_quota deletes then
    entity_type ← static_type head;
    pure (AlterQuotas entity_type name (quota_entity types names) (quota_components types names)
      adds deletes)
  else
    changes ← lift (scram_changes adds deletes);
    lift (fail_when (existsb empty_password changes) "Password must not be empty");;
    lift (fail_when (1 <? length changes)%nat ALTERED_TWICE);;
    lift (fail_when (length types =? 2)%nat
      ("Altering user SCRAM credentials should never occur for more zero or multiple users: List(" +:+
       join ", " names +:+ ")"));;
    pure (AlterUserScram (if bool_decide (head = CLIENTS) then CLIENTS else USERS) name (last changes)).

(** [alter_plan]. *)
Definition alter_plan (args : ConfigsArgs) (head : string) (types names : list string)
    : cmd admin ConfigsPlan :=
  adds ← configs_to_add args;
  let deletes := map java_trim (cfg_delete_config args) in
  name ← expect (list.head names);
  if one_of head [TOPICS; CLIENT_METRICS; BROKERS; GROUPS] then
    (if bool_decide (head = BROKERS) && negb (bool_decide (name = "")) then
       lift (map_err (λ _, "The entity name for " +:+ head +:+
         " must be a valid integer broker id, found: " +:+ name) (parse_int name));; pure tt
     else pure tt);;
    entity_type ← static_type head;
    pure (AlterResource entity_type name deletes adds)
  else if bool_decide (head = BROKER_LOGGERS) then pure (AlterBrokerLoggers name deletes adds)
  else if bool_decide (head = IPS) then
    let unknown := join "," (filter (λ key, key ∉ IP_QUOTAS) (map fst adds ++ deletes)) in
    lift (fail_when (bool_decide (unknown ≠ ""))
      ("Only connection quota configs can be added for '" +:+ IPS +:+
       "' using --bootstrap-server. Unexpected config names: " +:+ unknown));;
    pure (AlterQuotas IPS name (quota_entity types names) (quota_components types names) adds deletes)
  else alter_user_or_client_plan head types names adds deletes.

(** The checks of [plan] before [describe_plan] and [alter_plan]. *)
Definition check_described (args : ConfigsArgs) (types : list string) (has_name : bool)
    : result string unit :=
  fail_when (negb (existsb (λ t, one_of t types) [USERS; CLIENTS; BROKERS; IPS]) &&
             es_entity_default (cfg_entity args))
    ("--entity-default must not be specified with --describe of " +:+ join "," types);;
  fail_when (one_of BROKER_LOGGERS types && negb has_name)
    ("An entity name must be specified with --describe of " +:+ join "," types).

Definition check_altered (args : ConfigsArgs) (types names : list string) (has_name : bool)
    : result string unit :=
  (if existsb (λ t, one_of t types) [USERS; CLIENTS; BROKERS; IPS] then
     fail_when (negb has_name && negb (one_of "" names))
       "An entity-name or default entity must be specified with --alter of users, clients, brokers or ips"
   else
     fail_when (negb has_name)
       ("An entity name must be specified with --alter of " +:+ join "," types));;
  fail_when (bool_decide (cfg_add_config args ≠ []) && bool_decide (cfg_add_config_file args ≠ []))
    "Only one of --add-config or --add-config-file must be specified";;
  fail_when (bool_decide (cfg_add_config args = []) && bool_decide (cfg_add_config_file args = []) &&
             bool_decide (cfg_delete_config args = []))
    "At least one of --add-config, --add-config-file, or --delete-config must be specified with --alter";;
  fail_when (negb (length types =? length names)%nat)
    "An entity name must be specified for every entity type".

(** [plan]. *)
Definition configs_plan (args : ConfigsArgs) : cmd admin ConfigsPlan :=
  let types := entity_types args in
  head ← lift (check_types args types);
  names ← lift (entity_names args);
  let has_name := existsb (λ name, negb (bool_decide (name = ""))) names in
  (if has_name && (one_of BROKERS types || one_of BROKER_LOGGERS types) then
     lift (check_broker_ids head
       [(es_entity_names (cfg_entity args), "entity-name"); (cfg_broker args, "broker");
        (cfg_broker_logger args, "broker-logger")])
   else pure tt);;
  (if has_name && one_of IPS types then
     check_ips head [(es_entity_names (cfg_entity args), "entity-name"); (cfg_ip args, "ip")]
   else pure tt);;
  if cfg_describe args then
    lift (check_described args types has_name);;
    describe_plan args head types names
  else
    lift (check_altered args types names has_name);;
    alter_plan args head types names.

(** ** [configs/render.rs] *)

(** [RESOURCE_NOT_FOUND]. *)
Definition RESOURCE_NOT_FOUND : Z := 91.

Record Synonym := { syn_source : Z; syn_name : string; syn_value : option string }.
Record DescribedConfig := {
  dc_name : string;
  dc_value : option string;
  dc_sensitive : bool;
  dc_synonyms : list Synonym
}.

(** [shown_value], [shown_synonym_value]. *)
Definition shown_value (config : DescribedConfig) : option string :=
  if dc_sensitive config then None else dc_value config.
Definition shown_synonym_value (config : DescribedConfig) (synonym : Synonym) : option string :=
  if dc_sensitive config then None else syn_value synonym.

Definition config_source_name (id : Z) : string :=
  if id =? 1 then "DYNAMIC_TOPIC_CONFIG"
  else if id =? 2 then "DYNAMIC_BROKER_CONFIG"
  else if id =? 3 then "DYNAMIC_DEFAULT_BROKER_CONFIG"
  else if id =? 4 then "STATIC_BROKER_CONFIG"
  else if id =? 5 then "DEFAULT_CONFIG"
  else if id =? 6 then "DYNAMIC_BROKER_LOGGER_CONFIG"
  else if id =? 7 then "DYNAMIC_CLIENT_METRICS_CONFIG"
  else if id =? 8 then "DYNAMIC_GROUP_CONFIG"
  else "UNKNOWN".

(** [DescribedConfig::line]. *)
Definition config_line (config : DescribedConfig) : string :=
  "  " +:+ dc_name config +:+ "=" +:+ default "null" (shown_value config) +:+ " sensitive=" +:+
  (if dc_sensitive config then "true" else "false") +:+ " synonyms={" +:+
  join ", " (map (λ synonym,
    config_source_name (syn_source synonym) +:+ ":" +:+ syn_name synonym +:+ "=" +:+
    default "null" (shown_synonym_value config synonym)) (dc_synonyms config)) +:+ "}".

(** [DescribedConfig::json]. *)
Definition config_json (config : DescribedConfig) : Value :=
  object_of
    [("name", Str (dc_name config)); ("value", opt_str (shown_value config));
     ("sensitive", Bool (dc_sensitive config));
     ("synonyms", Array (map (λ synonym,
        object_of [("source", Str (config_source_name (syn_source synonym)));
                   ("name", Str (syn_name synonym));
                   ("value", opt_str (shown_synonym_value config synonym))])
        (dc_synonyms config)))].

(** [From<&ConfigEntry> for DescribedConfig]. *)
Definition described_config (entry : ConfigEntry) : DescribedConfig :=
  {| dc_name := ce_name entry;
     dc_value := ce_value entry;
     dc_sensitive := ce_is_sensitive entry;
     dc_synonyms := map (λ synonym,
       {| syn_source := cs_source synonym; syn_name := cs_name synonym; syn_value := cs_value synonym |})
       (ce_synonyms entry) |}.

(** [singular]: [entityType.dropRight(1)]. *)
Definition singular (entity_type : string) : string := encode_utf8 (removelast (chars entity_type)).

Definition config_header (entity_type entity : string) (all : bool) : string :=
  if bool_decide (entity = "") then "Default configs for " +:+ entity_type +:+ " in the cluster are:"
  else (if all then "All" else "Dynamic") +:+ " configs for " +:+ singular entity_type +:+ " " +:+
       entity +:+ " are:".

(** [missing]. *)
Definition missing_entity (entity_type entity : string) : string :=
  "The " +:+ singular entity_type +:+ " '" +:+ entity +:+ "' doesn't exist and doesn't have dynamic config.".

(** [quota_line]. *)
Definition quota_name (entity : ClientQuotaEntity) (kind : string * string) : option string :=
  (λ name : option string,
     match name with
     | Some name => kind.2 +:+ " '" +:+ name +:+ "'"
     | None => "the default " +:+ kind.2
     end) <$> bt_get kind.1 entity.

Definition quota_line (entity : ClientQuotaEntity) (values : list (string * F64)) : outcome string :=
  let names := join ", " (omap (quota_name entity)
    [(ENTITY_USER, "user-principal"); (ENTITY_CLIENT_ID, "client-id"); (ENTITY_IP, "ip")]) in
  entries ← map_outcome (λ key,
    value ← or_panic (bt_get key values);
    text ← double_to_string value;
    Done (key +:+ "=" +:+ text))
    (hash_map_order (bt_keys values) (Some (Z.of_nat (length values))));
  Done ("Quota configs for " +:+ names +:+ " are " +:+ join ", " entries).

(** [scram_users]: the first result of each user that was found. *)
Definition scram_users_of (described : list UserScramCredentials) : list UserScramCredentials :=
  omap (λ user, snd <$> list_find (λ first, us_username first = us_username user) described)
    (filter (λ user,
       from_option (λ error, negb (error_code error =? RESOURCE_NOT_FOUND)) true (us_error user) = true)
       described).

Definition scram_line (user : UserScramCredentials) : string :=
  match us_error user with
  | Some error =>
      let exception := for_code (error_code error) in
      "Error retrieving SCRAM credential configs for user-principal '" +:+ us_username user +:+
      "': ExecutionException: " +:+ exc_class exception +:+ ": " +:+
      default (exc_message exception) (error_message error)
  | None =>
      "SCRAM credential configs for user-principal '" +:+ us_username user +:+ "' are " +:+
      join ", " (map (λ '(mechanism, iterations), mechanism +:+ "=iterations=" +:+ pretty (iterations : Z))
        (us_credentials user))
  end.

Definition scram_json (user : UserScramCredentials) : Value :=
  object_of
    [("user", Str (us_username user));
     ("credentials", Array (map (λ '(mechanism, iterations),
        object_of [("mechanism", Str mechanism); ("iterations", num iterations)]) (us_credentials user)));
     ("error", kafka_error_json (us_error user))].

(** ** Execution *)

Definition UNSUPPORTED_VERSION_CODE : Z := 35.
Definition CLUSTER_AUTHORIZATION_REFUSED : Z := 31.
Definition INCREMENTAL_ALTER_CONFIGS_UNSUPPORTED : string :=
  "The INCREMENTAL_ALTER_CONFIGS API is not supported by the cluster. The API is supported starting from version 2.3.0. You may want to use an older version of this tool to interact with your cluster, or upgrade your brokers to version 2.3.0 or newer to avoid this error.".

Definition configs_broker_error (api : string) (error : KafkaError) : CommandError :=
  Broker api (error_code error) (error_name error) (error_message error).

(** [completed]. *)
Definition completed (entity_type name : string) : CommandResult :=
  success
    [if bool_decide (name = "") then
       "Completed updating default config for " +:+ entity_type +:+ " in the cluster."
     else "Completed updating config for " +:+ singular entity_type +:+ " " +:+ name +:+ "."]
    (object_of [("entity_type", Str entity_type); ("entity_name", Str name)]).

Definition config_resource (entity_type name : string) : ConfigResource :=
  ResourceNew
    (if bool_decide (entity_type = TOPICS) then TopicType
     else if bool_decide (entity_type = BROKERS) then BrokerType
     else if bool_decide (entity_type = BROKER_LOGGERS) then BrokerLoggerType
     else if bool_decide (entity_type = CLIENT_METRICS) then ClientMetricsType
     else GroupType) name.

(** [admin_kafka_error]. *)
Definition admin_kafka_error (error : AdminError) : KafkaError :=
  match error with
  | BrokerError _ code name message =>
      {| error_code := code; error_name := name; error_message := message |}
  | Transport (IncompatibleVersion _ text) =>
      {| error_code := UNSUPPORTED_VERSION_CODE; error_name := "UNSUPPORTED_VERSION";
         error_message := Some text |}
  | other =>
      {| error_code := -1; error_name := "UNKNOWN_SERVER_ERROR";
         error_message := Some (admin_error_text other) |}
  end.

(** [find_map(Result::err)]. *)
Definition first_failure {A B E} (outcomes : list (A * result E B)) : option E :=
  head (omap (λ outcome, match outcome.2 with Err error => Some error | Ok _ => None end) outcomes).

Definition alter_ops (deletes : list string) (sets : list (string * string)) : list AlterConfigOp :=
  map (λ name, DeleteValueOp name "") deletes ++ map (λ '(key, value), SetOp key value) sets.

(** [alter_resource]. *)
Definition alter_resource (resource : ConfigResource) (deletes : list string)
    (sets : list (string * string)) : prog admin (result KafkaError unit) :=
  prog_bind (λ answer, Halt (Done
    match answer with
    | Err error => Err (admin_kafka_error error)
    | Ok outcomes =>
        match first_failure outcomes with Some error => Err error | None => Ok tt end
    end)) (send (IncrementalAlterConfigs [(resource, alter_ops deletes sets)])).

(** [quota_ops]. *)
Definition quota_ops (sets : list (string * string)) (deletes : list string)
    : result string (list QuotaOp) :=
  ops ← try_map (λ '(key, value),
    value' ← ok_or (parse_double value)
               ("Cannot parse quota configuration value for " +:+ key +:+ ": " +:+ value);
    Ok (QuotaSet key value')) sets;
  Ok (ops ++ map QuotaRemove deletes).

(** [quota_entity_hash]. *)
Definition quota_entity_hash (entity : ClientQuotaEntity) : Z :=
  let entries := fold_left (λ sum '(entity_type, name),
    wrap_i32 (sum + Z.lxor (string_hash entity_type) (from_option string_hash 0 name))) entity 0 in
  wrap_i32 (31 + entries).

(** [quota_order]. *)
Definition quota_order (quotas : list (ClientQuotaEntity * list (string * F64)))
    : list (ClientQuotaEntity * list (string * F64)) :=
  hash_order quotas (WithCapacity (Z.of_nat (length quotas))) (λ quota, quota_entity_hash quota.1).

Definition broker_ids : cmd admin (list string) :=
  cluster ← try_admin (send (DescribeCluster false));
  pure (map pretty (hash_order (map node_id (description_nodes cluster)) Default integer_hash)).

Definition configs_topic_names : cmd admin (list string) :=
  topics ← try_admin (send (ListTopics true));
  pure (hash_map_order topics None).

Definition client_metrics_names : cmd admin (list string) :=
  try_admin (send (ListConfigResources ClientMetricsType)).

Definition group_ids : cmd admin (list string) :=
  listed ← try_admin (send ListAllGroups);
  groups ← lift_cmd (map_err (λ failure, configs_broker_error "ListGroups" (lge_error failure)) listed);
  pure (map gl_group_id groups).

Definition group_config_names : cmd admin (option (list string)) :=
  answer ← await (send (ListConfigResources GroupType));
  match answer with
  | Ok names => pure (Some names)
  | Err error =>
      if bool_decide (error_code (admin_kafka_error error) ∈
                        [UNSUPPORTED_VERSION_CODE; CLUSTER_AUTHORIZATION_REFUSED])
      then pure None
      else throw (from_admin_error error)
  end.

(** [entity_exists]. *)
Definition entity_exists (entity_type name : string) : cmd admin bool :=
  if bool_decide (entity_type = TOPICS) then names ← configs_topic_names; pure (one_of name names)
  else if one_of entity_type [BROKERS; BROKER_LOGGERS] then
    ids ← broker_ids; pure (one_of name ids || bool_decide (name = ""))
  else if bool_decide (entity_type = CLIENT_METRICS) then
    names ← client_metrics_names; pure (one_of name names)
  else
    groups ← group_ids;
    if one_of name groups then pure true
    else
      names ← group_config_names;
      pure (negb match names with Some names => negb (one_of name names) | None => false end).

(** The entities of a type, in [describe_resources]. *)
Definition described_entities (entity_type : string) (name : option string) : cmd admin (list string) :=
  match name with
  | Some name => pure [name]
  | None =>
      if bool_decide (entity_type = TOPICS) then configs_topic_names
      else if one_of entity_type [BROKERS; BROKER_LOGGERS] then
        ids ← broker_ids; pure (ids ++ [""])
      else if bool_decide (entity_type = CLIENT_METRICS) then client_metrics_names
      else
        ids ← group_ids;
        names ← group_config_names;
        pure (scala_set_order (ids ++ default [] names))
  end.

Section Execution.
Context `{KrabkaConfigs}.

Definition quota_json (entity : ClientQuotaEntity) (values : list (string * F64)) : Value :=
  object_of
    [("entity", object_of (map (λ '(entity_type, name), (entity_type, opt_str name)) entity));
     ("values", object_of (map (λ '(key, value),
        (key, from_option (λ text, Num (Float text)) Null (json_f64 value))) values))].

Definition dynamic_source (resource : ConfigResource) : option Z :=
  match resource with
  | ResourceNew BrokerLoggerType _ => None
  | resource => dynamic_config_source resource
  end.

(** [resource_config]. *)
Definition resource_config (resource : ConfigResource) (include_synonyms : bool)
    : cmd admin (list ConfigEntry) :=
  answers ← try_admin (send (DescribeConfigs [resource] include_synonyms));
  match list_find (λ answer : ConfigResource * result KafkaError (list ConfigEntry),
          answer.1 = resource) answers with
  | Some (_, (_, Ok config)) => pure config
  | Some (_, (_, Err error)) => throw (configs_broker_error "DescribeConfigs" error)
  | None => throw (Other ("DescribeConfigs gave no result for " +:+ resource_debug resource))
  end.

(** The configs of a resource that [--describe] shows. *)
Definition shown_configs (all : bool) (resource : ConfigResource) (config : list ConfigEntry)
    : list DescribedConfig :=
  let source := if all then None else dynamic_source resource in
  map described_config
    (filter (λ entry, from_option (λ source, ce_source entry =? source) true source = true) config).

Fixpoint describe_entities (entity_type : string) (all : bool) (entities : list string)
    : cmd admin (list string * list Value) :=
  match entities with
  | [] => pure ([], [])
  | entity :: entities =>
      let resource := config_resource entity_type entity in
      config ← resource_config resource true;
      let configs := shown_configs all resource config in
      '(human, data) ← describe_entities entity_type all entities;
      pure (config_header entity_type entity all :: map config_line configs ++ human,
            object_of [("entity_type", Str entity_type); ("entity_name", Str entity);
                       ("exists", Bool true); ("configs", Array (map config_json configs))] :: data)
  end.

(** [describe_resources]. *)
Definition describe_resources (entity_type : string) (name : option string) (all : bool)
    : cmd admin CommandResult :=
  absent ← match name with
           | Some name =>
               if all then pure None
               else ok ← entity_exists entity_type name; pure (if ok : bool then None else Some name)
           | None => pure None
           end;
  match absent with
  | Some name =>
      pure (success [missing_entity entity_type name]
        (Array [object_of [("entity_type", Str entity_type); ("entity_name", Str name);
                           ("exists", Bool false); ("configs", Array [])]]))
  | None =>
      entities ← described_entities entity_type name;
      '(human, data) ← describe_entities entity_type all entities;
      pure (success human (Array data))
  end.

(** [describe_quotas]. *)
Definition describe_quotas (components : list ClientQuotaFilterComponent)
    (scram_users : option (list string)) : cmd admin CommandResult :=
  quotas ← try_admin (send (DescribeClientQuotas components));
  let ordered := quota_order quotas in
  human ← run_outcome (map_outcome (λ '(entity, values), quota_line entity values) ordered);
  let quota_data := map (λ '(entity, values), quota_json entity values) ordered in
  users ← match scram_users with
          | Some users =>
              described ← try_admin (send (DescribeUserScramCredentials users));
              pure (scram_users_of described)
          | None => pure []
          end;
  pure (success (human ++ map scram_line users)
    (object_of [("quotas", Array quota_data); ("scram_credentials", Array (map scram_json users))])).

Definition alter_loggers (broker : string) (deletes : list string) (sets : list (string * string))
    : cmd admin CommandResult :=
  let resource := config_resource BROKER_LOGGERS broker in
  loggers ← resource_config resource false;
  let invalid := filter (λ logger, logger ∉ map ce_name loggers) (deletes ++ map fst sets) in
  lift (fail_when (bool_decide (invalid ≠ [])) ("Invalid broker logger(s): " +:+ join "," invalid));;
  outcome ← await (alter_resource resource deletes sets);
  lift_cmd (map_err (configs_broker_error "IncrementalAlterConfigs") outcome);;
  pure (completed BROKER_LOGGERS broker).

Definition alter_quotas (entity_type name : string) (entity : ClientQuotaEntity)
    (components : list ClientQuotaFilterComponent) (sets : list (string * string))
    (deletes : list string) : cmd admin CommandResult :=
  described ← try_admin (send (DescribeClientQuotas components));
  let current := from_option snd [] (list.head (quota_order described)) in
  let invalid := filter (λ key, key ∉ map fst current) deletes in
  lift (fail_when (bool_decide (invalid ≠ [])) ("Invalid config(s): " +:+ join "," invalid));;
  ops ← lift (quota_ops sets deletes);
  results ← try_admin (send (AlterClientQuotas entity ops));
  match first_failure results with
  | Some error => throw (configs_broker_error "AlterClientQuotas" error)
  | None => pure (completed entity_type name)
  end.

Definition client_mechanism (m : Mechanism) : ScramMechanism :=
  match m with Sha256 => ScramSha256 | Sha512 => ScramSha512 end.

Definition alter_scram (entity_type name : string) (change : option ScramChange)
    : cmd admin CommandResult :=
  outcomes ← match change with
             | None => pure []
             | Some (UpsertScram credential) =>
                 try_admin (send (AlterUserScramCredentials (client_mechanism (sc_mechanism credential))
                   [{| su_username := name; su_password := sc_password credential;
                       su_iterations := sc_iterations credential |}] []))
             | Some (DeleteScram mechanism) =>
                 try_admin (send (AlterUserScramCredentials (client_mechanism mechanism) [] [name]))
             end;
  match list.head (omap id outcomes) with
  | Some error => throw (configs_broker_error "AlterUserScramCredentials" error)
  | None => pure (completed entity_type name)
  end.

(** [Plan::execute]. *)
Definition execute_configs (plan : ConfigsPlan) : cmd admin CommandResult :=
  match plan with
  | DescribeResources entity_type name all => describe_resources entity_type name all
  | AlterResource entity_type name deletes sets =>
      outcome ← await (alter_resource (config_resource entity_type name) deletes sets);
      lift_cmd (map_err (λ error,
        if error_code error =? UNSUPPORTED_VERSION_CODE then Other INCREMENTAL_ALTER_CONFIGS_UNSUPPORTED
        else configs_broker_error "IncrementalAlterConfigs" error) outcome);;
      pure (completed entity_type name)
  | AlterBrokerLoggers broker deletes sets => alter_loggers broker deletes sets
  | DescribeQuotas components scram_users => describe_quotas components scram_users
  | AlterQuotas entity_type name entity components sets deletes =>
      alter_quotas entity_type name entity components sets deletes
  | AlterUserScram entity_type name change => alter_scram entity_type name change
  end.

(** [ConfigsArgs::run]. *)
Definition configs_run (args : ConfigsArgs) : cmd admin CommandResult :=
  plan ← configs_plan args;
  connect (cfg_connection args) "configs";;
  execute_configs plan.
End Execution.

(** ** What a command line can ask for *)

(** An entity that the command line names, by its type and its name; the default
    entity of a type has the empty name. *)
Definition entity_named (args : ConfigsArgs) (t name : string) : Prop :=
  (∃ i, cfg_entity_type args !! i = Some t ∧ es_names (cfg_entity args) !! i = Some name) ∨
  (t = TOPICS ∧ cfg_topic args = [name]) ∨ (t = CLIENTS ∧ cfg_client args = [name]) ∨
  (t = USERS ∧ cfg_user args = [name]) ∨ (t = BROKERS ∧ cfg_broker args = [name]) ∨
  (t = BROKER_LOGGERS ∧ cfg_broker_logger args = [name]) ∨ (t = IPS ∧ cfg_ip args = [name]) ∨
  (t = CLIENT_METRICS ∧ cfg_client_metrics args = [name]) ∨ (t = GROUPS ∧ cfg_group args = [name]) ∨
  (name = "" ∧ ((t = CLIENTS ∧ cfg_client_defaults args = true) ∨ (t = USERS ∧ cfg_user_defaults args = true) ∨
                (t = BROKERS ∧ cfg_broker_defaults args = true) ∨ (t = IPS ∧ cfg_ip_defaults args = true))).

(** The one entity that the command line names. *)
Definition sole_entity (args : ConfigsArgs) (t name : string) : Prop :=
  entity_named args t name ∧ ∀ t' name', entity_named args t' name' → t' = t ∧ name' = name.

(** The last value that a list gives to a key. *)
Definition last_given (key : string) (entries : list (string * string)) : option string :=
  snd <$> last (filter (λ entry : string * string, entry.1 = key) entries).

(** The configs of [--add-config-file], which was read before, and of [--add-config]. *)
Definition given_file (args : ConfigsArgs) (past : list (event admin)) (file : list (string * string)) : Prop :=
  match cfg_add_config_file args with
  | [] => file = []
  | [path] => ∃ bytes properties,
      (existT (ReadFile path : call admin) (Ok bytes : admin_answer (ReadFile path)) : event admin) ∈ past ∧
      parse_properties (text_bytes bytes) = Ok properties ∧ file = prop_entries properties
  | _ => False
  end.
Definition given_adds (args : ConfigsArgs) (added : list (string * string)) : Prop :=
  match cfg_add_config args with
  | [] => added = []
  | [value] => add_config value = Ok added
  | _ => False
  end.

(** The configs to set: each key once, with the last value that it was given, the flag
    after the file; the keys are valid. *)
Definition given_sets (args : ConfigsArgs) (past : list (event admin)) (sets : list (string * string)) : Prop :=
  ∃ file added, given_file args past file ∧ given_adds args added ∧ NoDup sets.*1 ∧
    (∀ key value, (key, value) ∈ sets ↔ last_given key (file ++ added) = Some value) ∧
    Forall (λ set, config_key set.1 = Ok tt) sets.

(** The part of a quota entity that a type of entity is. *)
Definition quota_kind (t kind : string) : Prop :=
  (t, kind) ∈ [("users", "user"); ("clients", "client-id"); ("ips", "ip")].

(** The quota entity of the command line: a part for each type that it names, and the
    filter that finds that entity. *)
Definition quota_target (args : ConfigsArgs) (entity : ClientQuotaEntity)
    (components : list ClientQuotaFilterComponent) : Prop :=
  ∃ types kinds names,
    (∀ t, t ∈ types ↔ ∃ name, entity_named args t name) ∧ NoDup types ∧
    Forall2 quota_kind types kinds ∧ Forall2 (entity_named args) types names ∧
    entity ≡ₚ zip_with (λ kind name, (kind, if bool_decide (name = "") then None else Some name)) kinds names ∧
    components = zip_with (λ kind name,
      if bool_decide (name = "") then OfDefaultEntity kind else OfEntity kind name) kinds names.

(** The plans of a command line, once [past] was read: what it may change, and with what
    keys. *)
Definition authorised_plan (args : ConfigsArgs) (past : list (event admin)) (plan : ConfigsPlan) : Prop :=
  match plan with
  | DescribeResources _ _ _ | DescribeQuotas _ _ => cfg_describe args = true ∧ cfg_alter args = false
  | AlterResource entity_type name deletes sets =>
      cfg_alter args = true ∧ sole_entity args entity_type name ∧
      entity_type ∈ [TOPICS; CLIENT_METRICS; BROKERS; GROUPS] ∧
      deletes = map java_trim (cfg_delete_config args) ∧ given_sets args past sets
  | AlterBrokerLoggers broker deletes sets =>
      cfg_alter args = true ∧ sole_entity args BROKER_LOGGERS broker ∧
      deletes = map java_trim (cfg_delete_config args) ∧ given_sets args past sets
  | AlterQuotas entity_type name entity components sets deletes =>
      cfg_alter args = true ∧ entity_named args entity_type name ∧ quota_target args entity components ∧
      deletes = map java_trim (cfg_delete_config args) ∧ given_sets args past sets ∧
      Forall (λ key,
        if bool_decide (entity_type = IPS) then key ∈ IP_QUOTAS ∨ key = ""
        else key ∈ USER_AND_CLIENT_QUOTAS) (map fst sets ++ deletes)
  | AlterUserScram entity_type name change =>
      cfg_alter args = true ∧
      match change with
      | Some (UpsertScram credential) =>
          sole_entity args USERS name ∧ name ≠ "" ∧ sc_password credential ≠ "" ∧
          min_iterations (sc_mechanism credential) ≤ sc_iterations credential ∧
          ∃ sets value, given_sets args past sets ∧
            (mechanism_name (sc_mechanism credential), value) ∈ sets ∧
            scram_credential (sc_mechanism credential) value = Ok credential
      | Some (DeleteScram mechanism) =>
          sole_entity args USERS name ∧ name ≠ "" ∧
          mechanism_name mechanism ∈ map java_trim (cfg_delete_config args)
      | None => True
      end
  end.

Lemma given_sets_mono args past past' sets :
  past ⊆ past' → given_sets args past sets → given_sets args past' sets.
Proof.
  intros Hp (file & added & Hf & Hrest). exists file, added. split; [|done]. revert Hf. unfold given_file.
  destruct (cfg_add_config_file args) as [|path []]; [done| |done]. intros (bytes & properties & Hin & H).
  exists bytes, properties. auto.
Qed.

Lemma authorised_mono args past past' plan :
  past ⊆ past' → authorised_plan args past plan → authorised_plan args past' plan.
Proof.
  intros Hp. pose proof (given_sets_mono args past past') as Hg. destruct plan as [| | | | |t n [[]|]]; cbn; [naive_solver..|done].
Qed.

Lemma fail_when_Ok bad message : fail_when bad message = Ok tt → bad = false.
Proof. by destruct bad. Qed.

Lemma trace_expect {A} (o : option A) log a :
  trace (expect (Σ := admin) o) log (Done (Ok a)) → o = Some a ∧ log = [].
Proof. destruct o; intros [-> E]; by simplify_eq. Qed.

Lemma trace_static_type t log t' : trace (static_type t) log (Done (Ok t')) → t' = t ∧ log = [].
Proof.
  intros [Hf ->]%trace_expect. apply find_some in Hf as [_ Hf%bool_decide_eq_true]. done.
Qed.

Lemma from_config_key_name key m : from_config_key key = Some m → key = mechanism_name m.
Proof. unfold from_config_key. repeat case_bool_decide; intros [= <-]; done. Qed.

(** The types that were checked are known, and the first is one of them. *)
Lemma check_types_Ok args types head :
  check_types args types = Ok head →
  cfg_describe args = negb (cfg_alter args) ∧ Forall (λ t, t ∈ ENTITY_TYPES) types ∧ head ∈ types ∧
  (length types = 2%nat → Forall (λ t, t = USERS ∨ t = CLIENTS) types).
Proof.
  unfold check_types. intros H. apply then_Ok in H as [Ha%fail_when_Ok H].
  apply then_Ok in H as [_ H]. apply then_Ok in H as [_ H]. apply then_Ok in H as [_ H].
  apply then_Ok in H as [Hf H]. destruct (find _ types) eqn:Hfind; [done|].
  destruct (head_type types) as [h|] eqn:Hh; [|done]. cbn in H. apply then_Ok in H as [_ [= <-]].
  split; [by destruct (cfg_alter args), (cfg_describe args)|]. split.
  { apply Forall_forall. intros t Ht%list_elem_of_In. pose proof (find_none _ _ Hfind _ Ht) as Hn.
    by apply negb_false_iff, bool_decide_eq_true in Hn. }
  unfold head_type in Hh. destruct types as [|a [|b [|]]]; try done.
  - injection Hh as <-. split; [left|done].
  - destruct (forallb _ _) eqn:Hall; [|done]. injection Hh as <-. split; [left|]. intros _.
    cbn in Hall. rewrite !andb_true_iff, !orb_true_iff, !bool_decide_eq_true in Hall.
    rewrite !Forall_cons. split_and!; [tauto..|done].
Qed.

(** ** Names and types *)

(** The flags that were given, and their values. *)
Lemma flags_paired (flags : list (list string * string * string)) values :
  try_map (λ '(values, option, _), single_value (T := string) values option) flags = Ok values →
  Forall2 (λ t name, ∃ option, ([name], option, t) ∈ flags)
    (map snd (filter (λ flag, flag.1.1 ≠ []) flags)) (omap id values) ∧
  ∀ name option t, ([name], option, t) ∈ flags → name ∈ omap id values.
Proof.
  intros H%try_map_Ok. induction H as [|[[vs option] t] value flags values Hv _ [IH1 IH2]];
    [split; [constructor|by intros ? ? ? ?%elem_of_nil]|].
  assert (Forall2 (λ t' name, ∃ option', ([name], option', t') ∈ (vs, option, t) :: flags)
    (map snd (filter (λ flag, flag.1.1 ≠ []) flags)) (omap id values)) as Hrest.
  { eapply Forall2_impl; [exact IH1|]. cbn. intros ? ? [o Ho]. exists o. by right. }
  rewrite filter_cons. destruct vs as [|v [|]]; cbn in Hv; simplify_eq; cbn.
  - split; [done|]. intros name o t' [?|Hin]%elem_of_cons; [done|by eapply IH2].
  - split; [constructor; [exists option; by left|exact Hrest]|].
    intros name o t' [[= -> -> ->]|Hin]%elem_of_cons; [by left|]. right. by eapply IH2.
Qed.

Lemma defaults_paired (flags : list (bool * string)) :
  Forall2 (λ t name, (true, t) ∈ flags ∧ name = "")
    (map snd (filter (λ flag, flag.1 = true) flags)) (map (λ _, "") (filter (λ flag, flag.1 = true) flags)).
Proof.
  assert (∀ l, l ⊆ flags → Forall2 (λ t name, (true, t) ∈ flags ∧ name = "")
    (map snd (filter (λ flag, flag.1 = true) l)) (map (λ _, "") (filter (λ flag, flag.1 = true) l))) as H;
    [|by apply H].
  induction l as [|[b t] l IH]; intros Hl; [constructor|]. rewrite filter_cons. cbn.
  destruct b; cbn; [constructor|]; try (apply IH; set_solver). split; [|done]. apply Hl. left.
Qed.

Lemma flag_named args name option t : ([name], option, t) ∈ entity_flags args → entity_named args t name.
Proof.
  unfold entity_flags, entity_named.
  intros Hin. repeat (apply elem_of_cons in Hin as [[= <- _ ->]|Hin]; [naive_solver|]). by apply elem_of_nil in Hin.
Qed.

Lemma default_named args t : (true, t) ∈ default_flags args → entity_named args t "".
Proof.
  unfold default_flags, entity_named.
  intros Hin. repeat (apply elem_of_cons in Hin as [[= <- ->]|Hin]; [naive_solver|]). by apply elem_of_nil in Hin.
Qed.

(** An entity is named by [--entity-type] and [--entity-name], by a flag of its own, or as
    a default. *)
Lemma entity_named_inv args t name :
  entity_named args t name →
  (∃ i, cfg_entity_type args !! i = Some t ∧ es_names (cfg_entity args) !! i = Some name) ∨
  (∃ option, ([name], option, t) ∈ entity_flags args) ∨ (name = "" ∧ (true, t) ∈ default_flags args).
Proof.
  unfold entity_named, entity_flags, default_flags. intros H.
  destruct H as [H|H]; [by left|]. right.
  repeat (destruct H as [[-> ->]|H]; [left; eexists; repeat first [apply list_elem_of_here|apply list_elem_of_further]|]).
  destruct H as [-> H]. right. split; [done|].
  repeat (destruct H as [[-> ->]|H]; [set_solver|]). destruct H as [-> ->]. set_solver.
Qed.

Lemma no_entity_flag args :
  has_entity_flag args = false →
  filter (λ flag, flag.1.1 ≠ []) (entity_flags args) = [] ∧ filter (λ flag, flag.1 = true) (default_flags args) = [].
Proof.
  unfold has_entity_flag. rewrite orb_false_iff. intros [Hf Hd]. split.
  - induction (entity_flags args) as [|[[vs o] t] flags IH]; [done|]. cbn in Hf. apply orb_false_iff in Hf as [Hv Hf].
    rewrite filter_cons. cbn. apply bool_decide_eq_false in Hv. rewrite decide_False by done. by apply IH.
  - induction (default_flags args) as [|[b t] flags IH]; [done|]. cbn in Hd. apply orb_false_iff in Hd as [-> Hd].
    rewrite filter_cons. cbn. by apply IH.
Qed.

(** What [check_types] has checked. *)
Lemma check_types_exclusive args types head :
  check_types args types = Ok head →
  list.head types = Some head ∧ (length types = 1%nat ∨ length types = 2%nat) ∧ extra_types types = [] ∧
  (has_entity_flag args = true → cfg_entity_type args = [] ∧ es_names (cfg_entity args) = []).
Proof.
  unfold check_types. intros H. apply then_Ok in H as [_ H].
  apply then_Ok in H as [_ H]. apply then_Ok in H as [He%fail_when_Ok H]. apply then_Ok in H as [_ H].
  apply then_Ok in H as [_ H]. destruct (head_type types) as [h|] eqn:Hh; [|done]. cbn in H.
  apply then_Ok in H as [Hx%fail_when_Ok [= <-]]. apply bool_decide_eq_false, dec_stable in He.
  split_and!; [| |done|].
  - unfold head_type in Hh. destruct types as [|a [|b [|]]]; try done; [by injection Hh as <-|].
    destruct (forallb _ _); [by injection Hh as <-|done].
  - unfold head_type in Hh. destruct types as [|a [|b [|]]]; try done; cbn; auto.
  - intros Hf. rewrite Hf, andb_true_r in Hx. apply orb_false_iff in Hx as [H1 H2].
    apply bool_decide_eq_false in H1, H2. by apply dec_stable in H1, H2.
Qed.

(** Each type that is altered has its name, and no other entity is named. *)
Lemma names_paired args head names :
  check_types args (entity_types args) = Ok head → entity_names args = Ok names →
  length (entity_types args) = length names →
  Forall2 (entity_named args) (entity_types args) names ∧
  ∀ t name, entity_named args t name → t ∈ entity_types args ∧ name ∈ names.
Proof.
  intros (_ & _ & _ & Hx)%check_types_exclusive Hn Hlen. unfold entity_names in Hn.
  destruct (try_map _ _) as [values|] eqn:Hv; [|done]. injection Hn as <-.
  destruct (flags_paired _ _ Hv) as [Hpair Hall]. unfold entity_types in *.
  destruct (has_entity_flag args) eqn:Hf.
  - destruct (Hx eq_refl) as [E1 E2]. rewrite E1, E2 in Hlen |- *. cbn [app] in *. split.
    + apply Forall2_app; [eapply Forall2_impl; [exact Hpair|]; intros t name [o Ho]; by eapply flag_named|].
      eapply Forall2_impl; [apply defaults_paired|]. intros t name [Hd ->]. by apply default_named.
    + intros t name [(i & Hi & _)|[[o Ho]|[-> Hd]]]%entity_named_inv.
      * exfalso. by rewrite E1, lookup_nil in Hi.
      * rewrite !elem_of_app. split; left; [|by eapply Hall].
        apply list_elem_of_fmap. exists ([name], o, t). split; [done|]. by apply list_elem_of_filter.
      * rewrite !elem_of_app. assert ((true, t) ∈ filter (λ flag, flag.1 = true) (default_flags args)) as Hin
          by by apply list_elem_of_filter.
        split; right; apply list_elem_of_fmap; by exists (true, t).
  - destruct (no_entity_flag args Hf) as [Ef Ed]. rewrite Ef, Ed in *. cbn [map app] in *.
    apply Forall2_nil_inv_l in Hpair as E. rewrite E in Hlen, Hall |- *. rewrite !app_nil_r in *. split.
    + apply Forall2_same_length_lookup_2; [done|]. intros i t name Ht Hname. left. by exists i.
    + intros t name [(i & Hi & Hi')|[[o Ho]|[-> Hd]]]%entity_named_inv.
      * split; by eapply list_elem_of_lookup_2.
      * exfalso. specialize (Hall _ _ _ Ho). by apply elem_of_nil in Hall.
      * exfalso. assert ((true, t) ∈ filter (λ flag, flag.1 = true) (default_flags args)) as Hin
          by by apply list_elem_of_filter. rewrite Ed in Hin. by apply elem_of_nil in Hin.
Qed.

Section Named.
Context (args : ConfigsArgs) (head : string) (names : list string).
Context (Hchecked : check_types args (entity_types args) = Ok head) (Hnames : entity_names args = Ok names)
  (Hlen : length (entity_types args) = length names).

(** The first type has the first name. *)
Lemma head_named name : list.head names = Some name → entity_named args head name.
Proof.
  intros Hn. destruct (check_types_exclusive _ _ _ Hchecked) as (Hh & _).
  destruct (names_paired _ _ _ Hchecked Hnames Hlen) as [Hp _].
  destruct (entity_types args) as [|t types]; [done|]. injection Hh as ->.
  apply Forall2_cons_inv_l in Hp as (n & ns & H & _ & E). rewrite E in Hn. by injection Hn as ->.
Qed.

Lemma sole_named name :
  length (entity_types args) = 1%nat → list.head names = Some name → sole_entity args head name.
Proof.
  intros H1 Hn. split; [by apply head_named|]. intros t' name' H'.
  destruct (check_types_exclusive _ _ _ Hchecked) as (Hh & _).
  destruct (names_paired _ _ _ Hchecked Hnames Hlen) as [_ Hall]. apply Hall in H' as [Ht Hname].
  rewrite Hlen in H1. destruct names as [|n [|]]; try done. cbn in Hn. injection Hn as ->.
  cbn in Hlen. destruct (entity_types args) as [|t [|]]; try done. injection Hh as ->. set_solver.
Qed.

Lemma target_named :
  Forall (λ t, t ∈ [USERS; CLIENTS; IPS]) (entity_types args) →
  quota_target args (quota_entity (entity_types args) names) (quota_components (entity_types args) names).
Proof.
  intros Hq. destruct (check_types_Ok _ _ _ Hchecked) as (_ & _ & _ & Htwo).
  destruct (check_types_exclusive _ _ _ Hchecked) as (_ & Hl & He & _).
  destruct (names_paired _ _ _ Hchecked Hnames Hlen) as [Hp Hall].
  exists (entity_types args), (map quota_entity_type (entity_types args)), names. split_and!; [| | |done|..].
  - intros t. split; [|intros [name H]; by apply Hall in H as [? _]].
    intros [i Hi]%list_elem_of_lookup. destruct (Forall2_lookup_l _ _ _ _ _ Hp Hi) as (name & _ & ?). by exists name.
  - clear Hall Hp Hq. destruct (entity_types args) as [|a [|b [|]]]; try by destruct Hl.
    + apply NoDup_singleton.
    + apply NoDup_cons. split; [|apply NoDup_singleton]. intros ->%list_elem_of_singleton.
      specialize (Htwo eq_refl). apply Forall_cons in Htwo as [[-> | ->] _]; vm_compute in He; done.
  - apply Forall2_fmap_r, Forall_Forall2_diag. eapply Forall_impl; [exact Hq|]. intros t Ht.
    repeat (apply elem_of_cons in Ht as [->|Ht]; [vm_compute; repeat first [apply list_elem_of_here|apply list_elem_of_further]|]).
    by apply elem_of_nil in Ht.
  - clear Hall Hp Hq. destruct (entity_types args) as [|a [|b [|]]]; try by destruct Hl.
    + destruct names as [|n [|]]; done.
    + destruct names as [|n [|m [|]]]; try done. specialize (Htwo eq_refl).
      apply Forall_cons in Htwo as [Ha Hb]. apply Forall_cons in Hb as [Hb _]. unfold quota_entity. cbn [zip_with map].
      generalize (if bool_decide (n = "") then None else Some n) (if bool_decide (m = "") then None else Some m).
      intros v v'. destruct Ha as [-> | ->], Hb as [-> | ->]; try (vm_compute in He; done); vm_compute; first [done|apply perm_swap].
  - unfold quota_components. clear - Hlen. revert Hlen. generalize (entity_types args) as types.
    intros types Hlen.
    assert (∀ ts ns (front : list string), length ts = length ns →
      imap (λ index t, quota_component t ((front ++ ns) !! (length front + index)%nat)) ts =
      zip_with (λ kind name, if bool_decide (name = "") then OfDefaultEntity kind else OfEntity kind name)
        (map quota_entity_type ts) ns) as Hgo; [|by apply (Hgo types names [])].
    induction ts as [|t ts IH]; intros [|n ns] front E; try done. cbn. f_equal.
    + rewrite lookup_app_r, Nat.add_0_r, Nat.sub_diag by lia. by destruct n.
    + rewrite <-(IH ns (front ++ [n])) by (by injection E). apply imap_ext. intros i x _. cbn.
      rewrite <-app_assoc, length_app. cbn. do 2 f_equal. lia.
Qed.
End Named.

Lemma harmless_check_ips head flags : harmless (check_ips head flags).
Proof.
  induction flags as [|[values option] flags IH]; cbn [check_ips]; [done|].
  apply harmless_bind; [auto with krabka|]. intros [ip|]; [|apply IH]. apply harmless_bind.
  - unfold resolves. harmless.
  - intros []; [apply IH|done].
Qed.
Lemma harmless_static_type t : harmless (static_type t).
Proof. unfold static_type. harmless. Qed.
#[local] Hint Resolve harmless_check_ips harmless_static_type : krabka.

Lemma harmless_configs_to_add args : harmless (configs_to_add args).
Proof. unfold configs_to_add, read_configs. harmless. Qed.
#[local] Hint Resolve harmless_configs_to_add : krabka.

Lemma harmless_configs_plan args : harmless (configs_plan args).
Proof.
  unfold configs_plan, describe_plan, alter_plan, alter_user_or_client_plan. cbv zeta. harmless.
Qed.
#[local] Hint Resolve harmless_configs_plan : krabka.

(** What [read_configs] reads. *)
Lemma last_given_app key a b :
  last_given key (a ++ b) = match last_given key b with Some value => Some value | None => last_given key a end.
Proof. unfold last_given. rewrite filter_app, last_app. by destruct (last (filter _ b)). Qed.

Lemma last_given_collect key (entries : list (string * string)) :
  last_given key (bt_collect entries) = last_given key entries.
Proof.
  unfold last_given. rewrite <-!bt_get_collect. apply option_eq. intros value.
  rewrite !bt_get_elem by apply bt_collect_wf. rewrite elem_of_bt_collect; [done|]. apply bt_keys_NoDup, bt_collect_wf.
Qed.

Lemma trace_read_configs args log configs :
  trace (read_configs args) log (Done (Ok configs)) →
  bt_wf configs ∧ ∃ file added, given_file args log file ∧ given_adds args added ∧
    ∀ key, bt_get key configs = last_given key (file ++ added).
Proof.
  unfold read_configs, given_file, given_adds.
  intros (path & log1 & rest1 & -> & [Hpath ->]%trace_lift & Ht)%trace_ok_bind_inv.
  apply trace_ok_bind_inv in Ht as (read & log2 & rest2 & -> & Hfile & Ht).
  assert (∃ file, read = bt_collect file ∧ match cfg_add_config_file args with
    | [] => file = []
    | [path] => ∃ bytes properties,
        (existT (ReadFile path : call admin) (Ok bytes : admin_answer (ReadFile path)) : event admin) ∈ log2 ∧
        parse_properties (text_bytes bytes) = Ok properties ∧ file = prop_entries properties
    | _ => False end) as (file & -> & Hf).
  { destruct (cfg_add_config_file args) as [|p []]; [|..|done]; injection Hpath as <-;
      [destruct Hfile as [-> [= ->]]; by exists []|].
    apply trace_ok_bind_inv in Hfile as (bytes & log3 & rest3 & -> & Hread & Hfile).
    apply trace_ok_bind_inv in Hfile as (text & log4 & rest4 & -> & [Htext ->]%trace_lift & Hfile).
    apply trace_ok_bind_inv in Hfile as (properties & log5 & rest5 & -> & [Hprop ->]%trace_lift & [-> [= ->]]).
    exists (prop_entries properties). split; [done|]. exists text, properties.
    destruct Hread as (r & l & -> & -> & [= ->]). destruct r as [t|]; [|done]. injection Htext as ->.
    destruct (parse_properties _) as [pr|] eqn:Ep; [|done]. injection Hprop as ->. split_and!; [set_solver|done..]. }
  apply trace_ok_bind_inv in Ht as (value & log3 & rest3 & -> & [Hvalue ->]%trace_lift & Ht).
  assert (bt_wf configs ∧ ∃ added, match cfg_add_config args with
    | [] => added = [] | [value] => add_config value = Ok added | _ => False end ∧
    ∀ key, bt_get key configs = last_given key (bt_collect file ++ added)) as (Hwf & added & Ha & Hget).
  { destruct (cfg_add_config args) as [|v []]; [|..|done]; injection Hvalue as <-.
    - destruct Ht as [-> [= ->]]. split; [apply bt_collect_wf|]. exists []. split; [done|]. intros key.
      rewrite app_nil_r, last_given_collect. apply bt_get_collect.
    - apply trace_ok_bind_inv in Ht as (added & log4 & rest4 & -> & [Hadd ->]%trace_lift & [-> [= ->]]).
      split; [apply bt_collect_wf|]. exists added. split; [done|]. intros key. apply bt_get_collect. }
  split; [done|]. exists file, added. split_and!; [|done|].
  - destruct (cfg_add_config_file args) as [|p []]; [done| |done]. destruct Hf as (bytes & properties & Hin & Hf).
    exists bytes, properties. split; [set_solver|done].
  - intros key. by rewrite Hget, !last_given_app, last_given_collect.
Qed.

(** The configs to add are those given. *)
Lemma trace_configs_to_add args log adds :
  trace (configs_to_add args) log (Done (Ok adds)) → given_sets args log adds.
Proof.
  unfold configs_to_add. intros (configs & log1 & rest1 & -> & Hr & Ht)%trace_ok_bind_inv.
  cbv zeta in Ht. apply trace_ok_bind_inv in Ht as (units & log2 & rest2 & -> & [Hk ->]%trace_lift & [-> [= ->]]).
  apply trace_read_configs in Hr as (Hwf & file & added & Hf & Ha & Hget). rewrite !app_nil_r.
  set (order := hash_map_order (bt_keys configs) None) in *.
  assert (∀ key value, (key, value) ∈ omap (λ key, pair key <$> bt_get key configs) (scala_set_order order) ↔
    bt_get key configs = Some value) as Hin.
  { intros key value. rewrite list_elem_of_omap. split.
    - intros (key' & _ & Hk'). destruct (bt_get key' configs) eqn:E; [|done]. by injection Hk' as -> ->.
    - intros E. exists key. rewrite E. split; [|done]. rewrite scala_set_order_elem. unfold order, hash_map_order.
      rewrite elem_of_hash_order. apply elem_of_bt_keys; [done|]. by exists value. }
  exists file, added. split_and!; [done|done| |by intros; rewrite Hin, Hget|].
  - clear Hin. assert (NoDup (scala_set_order order)) as Hnd.
    { rewrite scala_set_order_perm. apply (unique_values_from order [] (NoDup_nil_2 (A := string))). }
    clear Hk. induction Hnd as [|key keys Hn _ IH]; [constructor|]. cbn.
    destruct (bt_get key configs); [|done]. cbn. constructor; [|done].
    intros ([k v] & -> & Hin)%list_elem_of_fmap. apply list_elem_of_omap in Hin as (k' & Hk' & E).
    destruct (bt_get k' configs); [|done]. injection E as -> ->. done.
  - apply Forall_forall. intros [key value] Hkv%Hin. apply try_map_Ok in Hk.
    assert (key ∈ order) as Ho.
    { unfold order, hash_map_order. rewrite elem_of_hash_order. apply elem_of_bt_keys; [done|]. by exists value. }
    apply list_elem_of_lookup in Ho as [i Hi]. by destruct (Forall2_lookup_l _ _ _ _ _ Hk Hi) as ([] & _ & E).
Qed.

(** The keys of users and clients. *)
Lemma unknown_keys_nil keys : unknown_keys keys = [] → Forall (λ key, is_quota key || is_scram key = true) keys.
Proof.
  unfold unknown_keys. intros H. apply Forall_forall. intros key Hin.
  destruct (is_quota key || is_scram key) eqn:E; [done|].
  assert (key ∈ filter (λ key, is_quota key || is_scram key = false) keys) as Hf
    by by apply list_elem_of_filter. rewrite H in Hf. by apply elem_of_nil in Hf.
Qed.

Lemma scram_keys_nil keys : scram_keys keys = [] → Forall (λ key, is_scram key = false) keys.
Proof.
  unfold scram_keys. intros H. apply Forall_forall. intros key Hin. destruct (is_scram key) eqn:E; [|done].
  assert (key ∈ filter (λ key, is_scram key = true) keys) as Hf by by apply list_elem_of_filter.
  rewrite H in Hf. by apply elem_of_nil in Hf.
Qed.

Lemma only_quotas keys :
  unknown_keys keys = [] → scram_keys keys = [] → Forall (λ key, key ∈ USER_AND_CLIENT_QUOTAS) keys.
Proof.
  intros Hu%unknown_keys_nil Hs%scram_keys_nil. rewrite Forall_forall in Hu, Hs. apply Forall_forall.
  intros key Hin. specialize (Hu key Hin). specialize (Hs key Hin). rewrite Hs, orb_false_r in Hu.
  by apply bool_decide_eq_true in Hu.
Qed.

(** Keys with a quota among them are all quotas; SCRAM keys are of a named user. *)
Lemma check_keys_Ok head types add_keys deletes name :
  check_keys head types add_keys deletes name = Ok tt →
  (existsb is_quota add_keys || existsb is_quota deletes = true →
     Forall (λ key, key ∈ USER_AND_CLIENT_QUOTAS) (add_keys ++ deletes)) ∧
  (scram_keys add_keys ≠ [] ∨ scram_keys deletes ≠ [] → head ≠ CLIENTS ∧ name ≠ "").
Proof.
  unfold check_keys. destruct (bool_decide_reflect (head = CLIENTS)) as [Hc|Hc]; cbn [orb];
    [|destruct (length types =? 2)%nat].
  1,2: intros H; apply then_Ok in H as [Ha%fail_when_Ok Hd%fail_when_Ok];
    apply bool_decide_eq_false in Ha, Hd; apply dec_stable in Ha, Hd;
    apply app_eq_nil in Ha as [Hau Has], Hd as [Hdu Hds]; split;
    [intros _; apply Forall_app; by split; apply only_quotas|tauto].
  intros H. apply then_Ok in H as [Ha%fail_when_Ok H]. apply then_Ok in H as [Hd%fail_when_Ok H].
  apply bool_decide_eq_false in Ha, Hd. apply dec_stable in Ha, Hd.
  destruct (bool_decide (scram_keys add_keys ≠ []) || _) eqn:Hs.
  - apply then_Ok in H as [Hn%fail_when_Ok Hq%fail_when_Ok]. apply bool_decide_eq_false in Hn.
    split; [congruence|done].
  - apply orb_false_iff in Hs as [H1 H2]. apply bool_decide_eq_false in H1, H2. apply dec_stable in H1, H2.
    split; [intros _; apply Forall_app; by split; apply only_quotas|tauto].
Qed.

Lemma scram_changes_Ok adds deletes changes change :
  scram_changes adds deletes = Ok changes → change ∈ changes →
  match change with
  | UpsertScram credential =>
      scram_keys (map fst adds) ≠ [] ∧
      min_iterations (sc_mechanism credential) ≤ sc_iterations credential ∧
      ∃ value, (mechanism_name (sc_mechanism credential), value) ∈ adds ∧
        scram_credential (sc_mechanism credential) value = Ok credential
  | DeleteScram mechanism => mechanism_name mechanism ∈ scram_keys deletes
  end.
Proof.
  unfold scram_changes. destruct (try_map _ adds) as [upserts|] eqn:Hu; [|done]. intros [= <-].
  rewrite elem_of_app. intros [(m & -> & Hm)%list_elem_of_fmap|Hin].
  - apply list_elem_of_omap in Hm as (key & Hkey & Hm). by apply from_config_key_name in Hm as <-.
  - apply elem_of_concat in Hin as (l & Hin & Hl). apply try_map_Ok in Hu.
    destruct (Forall2_elem_r _ _ _ _ Hu Hl) as ([key value] & Hadd & Hf).
    destruct (from_config_key key) as [m|] eqn:Hm; [|injection Hf as <-; by apply elem_of_nil in Hin].
    destruct (scram_credential m value) as [credential|] eqn:Hc; [|done]. injection Hf as <-.
    apply list_elem_of_singleton in Hin as ->. destruct (scram_credential_Ok _ _ _ Hc) as (Hmech & Hit & _).
    rewrite Hmech. split_and!; [|done|exists value; by rewrite <-(from_config_key_name _ _ Hm)].
    intros Hnil%scram_keys_nil. rewrite Forall_forall in Hnil.
    specialize (Hnil key). unfold is_scram in Hnil. rewrite Hm in Hnil.
    apply (f_equal negb) in Hnil; [done|]. apply list_elem_of_fmap. by exists (key, value).
Qed.

Section Plans.
Context (args : ConfigsArgs) (head : string) (names : list string).
Context (Hchecked : check_types args (entity_types args) = Ok head) (Hnames : entity_names args = Ok names)
  (Hlen : length (entity_types args) = length names) (Halter : cfg_alter args = true).

Lemma trace_alter_user_plan past adds log plan :
  let deletes := map java_trim (cfg_delete_config args) in
  given_sets args past adds → (head = USERS ∨ head = CLIENTS) →
  trace (alter_user_or_client_plan head (entity_types args) names adds deletes) log (Done (Ok plan)) →
  authorised_plan args past plan.
Proof.
  intros deletes Hadds Hhead. unfold alter_user_or_client_plan.
  intros (name & log1 & rest1 & -> & [Hname _]%trace_expect & Ht)%trace_ok_bind_inv. cbv zeta in Ht.
  apply trace_ok_bind_inv in Ht as ([] & log2 & rest2 & -> & [Hk _]%trace_lift & Ht).
  apply check_keys_Ok in Hk as [Hquota Hscram].
  destruct (check_types_exclusive _ _ _ Hchecked) as (Hh & Hl & _).
  destruct (check_types_Ok _ _ _ Hchecked) as (_ & _ & _ & Htwo).
  destruct (_ || _) eqn:Hq in Ht.
  - apply trace_ok_bind_inv in Ht as (t & log3 & rest3 & -> & [-> _]%trace_static_type & [_ [= ->]]).
    cbn [authorised_plan]. split_and!; try done; [by eapply head_named| |].
    + eapply target_named; [done..|]. destruct (entity_types args) as [|a [|b [|]]]; try by destruct Hl.
      * injection Hh as ->. apply Forall_singleton. set_solver.
      * eapply Forall_impl; [by apply Htwo|]. set_solver.
    + rewrite bool_decide_eq_false_2 by (destruct Hhead as [-> | ->]; done). by apply Hquota.
  - apply trace_ok_bind_inv in Ht as (changes & log3 & rest3 & -> & [Hc _]%trace_lift & Ht).
    apply trace_ok_bind_inv in Ht as ([] & log4 & rest4 & -> & [Hp%fail_when_Ok _]%trace_lift & Ht).
    apply trace_ok_bind_inv in Ht as ([] & log5 & rest5 & -> & _ & Ht).
    apply trace_ok_bind_inv in Ht as ([] & log6 & rest6 & -> & [H2%fail_when_Ok _]%trace_lift & [_ [= ->]]).
    assert (length (entity_types args) = 1%nat) as Hone by (apply Nat.eqb_neq in H2; by destruct Hl).
    cbn [authorised_plan]. split; [done|]. destruct (last changes) as [change|] eqn:Hlast; [|done].
    assert (change ∈ changes) as Hch.
    { apply last_Some in Hlast as [l' ->]. set_solver. }
    assert (head = USERS → sole_entity args USERS name) as Hsole by (intros <-; by eapply sole_named).
    pose proof (scram_changes_Ok _ _ _ _ Hc Hch) as Hok. destruct change as [credential|m].
    + destruct Hok as (Hne & Hit & value & Hin & Hcred). destruct (Hscram (or_introl Hne)) as [Hnc Hn].
      destruct Hhead as [Hu|?]; [|done]. split_and!; [by apply Hsole|done| |done|by exists adds, value]. intros Hpw.
      apply not_true_iff_false in Hp. apply Hp, existsb_exists. exists (UpsertScram credential).
      split; [by apply list_elem_of_In|]. by apply bool_decide_eq_true.
    + assert (scram_keys deletes ≠ []) as Hne by (intros E; rewrite E in Hok; by apply elem_of_nil in Hok).
      destruct (Hscram (or_intror Hne)) as [Hnc Hn]. destruct Hhead as [Hu|?]; [|done].
      split_and!; [by apply Hsole|done|]. by apply list_elem_of_filter in Hok as [_ Hok].
Qed.

Lemma join_empty l : join "," l = "" → l = [] ∨ l = [""].
Proof.
  destruct l as [|a [|b l]]; [by left|intros E; right; cbn in E; by rewrite E|]. cbn [join].
  destruct a; done.
Qed.

(** Types other than users and clients come alone. *)
Lemma alone : head ≠ USERS → head ≠ CLIENTS → length (entity_types args) = 1%nat.
Proof.
  intros Hu Hc. destruct (check_types_exclusive _ _ _ Hchecked) as (Hh & [?|Hl] & _); [done|].
  destruct (check_types_Ok _ _ _ Hchecked) as (_ & _ & _ & Htwo). specialize (Htwo Hl).
  destruct (entity_types args) as [|a types]; [done|]. injection Hh as ->.
  apply Forall_cons in Htwo as [[]  _]; done.
Qed.

Lemma trace_alter_plan log plan :
  trace (alter_plan args head (entity_types args) names) log (Done (Ok plan)) → authorised_plan args log plan.
Proof.
  unfold alter_plan. intros (adds & log1 & rest1 & -> & Hadds%trace_configs_to_add & Ht)%trace_ok_bind_inv. cbv zeta in Ht.
  apply (authorised_mono args log1); [set_solver|].
  apply trace_ok_bind_inv in Ht as (name & log2 & rest2 & -> & [Hname _]%trace_expect & Ht).
  destruct (one_of head _) eqn:Hres.
  { apply bool_decide_eq_true in Hres.
    apply trace_ok_bind_inv in Ht as ([] & log3 & rest3 & -> & _ & Ht).
    apply trace_ok_bind_inv in Ht as (t & log4 & rest4 & -> & [-> _]%trace_static_type & [_ [= ->]]).
    split_and!; try done. eapply sole_named; [done..| |done]. apply alone; intros ->; vm_compute in Hres; set_solver. }
  apply bool_decide_eq_false in Hres.
  destruct (bool_decide_reflect (head = BROKER_LOGGERS)) as [E|Hbl].
  { destruct Ht as [_ [= ->]]. split_and!; try done. rewrite <-E. eapply sole_named; [done..| |done].
    apply alone; by rewrite E. }
  destruct (bool_decide_reflect (head = IPS)) as [E|Hip].
  { apply trace_ok_bind_inv in Ht as ([] & log3 & rest3 & -> & [Hu%fail_when_Ok _]%trace_lift & [_ [= ->]]).
    assert (length (entity_types args) = 1%nat) as Hone by (apply alone; by rewrite E).
    split_and!; try done; [rewrite <-E; by eapply head_named| |].
    { eapply target_named; [done..|]. destruct (check_types_exclusive _ _ _ Hchecked) as (Hh & _).
      destruct (entity_types args) as [|a [|]]; try done. injection Hh as ->. apply Forall_singleton. set_solver. }
    rewrite bool_decide_eq_true_2 by done.
    apply bool_decide_eq_false in Hu. apply dec_stable in Hu. apply Forall_forall. intros key Hkey.
    destruct (decide (key ∈ IP_QUOTAS)) as [|Hn]; [by left|]. right.
    assert (key ∈ filter (λ key, key ∉ IP_QUOTAS) (map fst adds ++ map java_trim (cfg_delete_config args)))
      as Hf by by apply list_elem_of_filter.
    apply join_empty in Hu as [Hu|Hu]; rewrite Hu in Hf; set_solver. }
  eapply trace_alter_user_plan; [done| |exact Ht].
  destruct (check_types_Ok _ _ _ Hchecked) as (_ & Hknown & Hin & _). rewrite Forall_forall in Hknown.
  apply Hknown in Hin. unfold ENTITY_TYPES in Hin. set_solver.
Qed.
End Plans.

Lemma trace_configs_plan args log plan :
  trace (configs_plan args) log (Done (Ok plan)) → authorised_plan args log plan.
Proof.
  unfold configs_plan. cbv zeta.
  intros (head & log1 & rest1 & -> & [Hc _]%trace_lift & Ht)%trace_ok_bind_inv.
  destruct (check_types_Ok _ _ _ Hc) as (Hact & _).
  apply trace_ok_bind_inv in Ht as (names & log2 & rest2 & -> & [Hn _]%trace_lift & Ht).
  apply trace_ok_bind_inv in Ht as ([] & log3 & rest3 & -> & _ & Ht).
  apply trace_ok_bind_inv in Ht as ([] & log4 & rest4 & -> & _ & Ht).
  destruct (cfg_describe args) eqn:Hdesc.
  - apply trace_ok_bind_inv in Ht as ([] & log5 & rest5 & -> & _ & Ht).
    assert (cfg_alter args = false) as Halt by by destruct (cfg_alter args).
    unfold describe_plan in Ht. destruct (one_of head _).
    + cbv zeta in Ht. apply trace_ok_bind_inv in Ht as ([] & log6 & rest6 & -> & _ & Ht).
      by apply trace_ok_bind_inv in Ht as (t & log7 & rest7 & -> & _ & [_ [= ->]]).
    + destruct (_ <? _)%nat; [by destruct Ht|]. by destruct Ht as [_ [= ->]].
  - apply trace_ok_bind_inv in Ht as ([] & log5 & rest5 & -> & [Halt _]%trace_lift & Ht).
    unfold check_altered in Halt. apply then_Ok in Halt as [_ Halt]. apply then_Ok in Halt as [_ Halt].
    apply then_Ok in Halt as [_ Halt%fail_when_Ok]. apply negb_false_iff, Nat.eqb_eq in Halt.
    eapply authorised_mono; [|eapply trace_alter_plan; [exact Hc|exact Hn|exact Halt|by destruct (cfg_alter args)|exact Ht]].
    set_solver.
Qed.

(** ** What is changed *)

(** The resource of an entity type. *)
Definition resource_kind (t : string) (kind : ConfigResourceType) : Prop :=
  (t, kind) ∈ [("topics", TopicType); ("brokers", BrokerType); ("broker-loggers", BrokerLoggerType);
               ("client-metrics", ClientMetricsType); ("groups", GroupType)].

(** The request that changes the configs of a resource: all deletes before all sets. *)
Definition config_change (t name : string) (deletes : list string) (sets : list (string * string))
    (c : admin_call) : Prop :=
  ∃ kind, resource_kind t kind ∧
    c = IncrementalAlterConfigs [(ResourceNew kind name,
          map (λ key, DeleteValueOp key "") deletes ++ map (λ set, SetOp set.1 set.2) sets)].

(** The request of a plan, by what came before it. *)
Definition plan_request (plan : ConfigsPlan) (past : list (event admin)) (c : admin_call) : Prop :=
  match plan with
  | DescribeResources _ _ _ | DescribeQuotas _ _ => False
  | AlterResource entity_type name deletes sets => config_change entity_type name deletes sets c
  | AlterBrokerLoggers broker deletes sets =>
      let resource := ResourceNew BrokerLoggerType broker in
      config_change BROKER_LOGGERS broker deletes sets c ∧
      ∃ answers loggers,
        (existT (DescribeConfigs [resource] false : call admin) (Ok answers) : event admin) ∈ past ∧
        (resource, Ok loggers) ∈ answers ∧ deletes ++ map fst sets ⊆ map ce_name loggers
  | AlterQuotas _ _ entity components sets deletes =>
      ∃ values quotas, c = AlterClientQuotas entity (values ++ map QuotaRemove deletes) ∧
        Forall2 (λ set op, ∃ value, parse_double set.2 = Some value ∧ op = QuotaSet set.1 value) sets values ∧
        (existT (DescribeClientQuotas components : call admin) (Ok quotas) : event admin) ∈ past ∧
        (deletes = [] ∨ ∃ found values, (found, values) ∈ quotas ∧ deletes ⊆ map fst values)
  | AlterUserScram _ name (Some (UpsertScram credential)) =>
      c = AlterUserScramCredentials (client_mechanism (sc_mechanism credential))
            [{| su_username := name; su_password := sc_password credential;
                su_iterations := sc_iterations credential |}] []
  | AlterUserScram _ name (Some (DeleteScram mechanism)) =>
      c = AlterUserScramCredentials (client_mechanism mechanism) [] [name]
  | AlterUserScram _ _ None => False
  end.

Definition rightful_config (args : ConfigsArgs) (past : list (event admin)) (c : admin_call) : Prop :=
  mutating c = true →
  Forall (λ e, changes e = false) past ∧
  ∃ plan, authorised_plan args past plan ∧ plan_request plan past c.

Lemma resource_change t name deletes sets :
  t ∈ [TOPICS; BROKERS; BROKER_LOGGERS; CLIENT_METRICS; GROUPS] →
  config_change t name deletes sets (IncrementalAlterConfigs [(config_resource t name, alter_ops deletes sets)]).
Proof.
  intros Ht. assert (∃ kind, resource_kind t kind ∧ config_resource t name = ResourceNew kind name) as (kind & Hk & ->).
  { repeat (apply elem_of_cons in Ht as [->|Ht];
      [eexists; split; [|reflexivity]; vm_compute;
       repeat first [apply list_elem_of_here|apply list_elem_of_further]|]).
    by apply elem_of_nil in Ht. }
  exists kind. split; [done|]. unfold alter_ops. do 4 f_equal. apply map_ext. by intros [].
Qed.

Lemma quota_ops_Ok sets deletes ops :
  quota_ops sets deletes = Ok ops → ∃ values, ops = values ++ map QuotaRemove deletes ∧
    Forall2 (λ set op, ∃ value, parse_double set.2 = Some value ∧ op = QuotaSet set.1 value) sets values.
Proof.
  unfold quota_ops. destruct (try_map _ sets) as [values|] eqn:E; [|done]. intros [= <-]. exists values. split; [done|].
  apply try_map_Ok in E. eapply Forall2_impl; [exact E|]. intros [key value] op. cbn.
  destruct (parse_double value) as [x|]; [|done]. intros [= <-]. by exists x.
Qed.

Lemma rightful_config_reads args past c : mutating c = false → rightful_config args past c.
Proof. unfold rightful_config. congruence. Qed.

(** The keys to delete are those of the first entity that was found. *)
Lemma deletes_found quotas deletes :
  filter (λ key, key ∉ map fst (from_option snd [] (list.head (quota_order quotas)))) deletes = [] →
  deletes = [] ∨ ∃ found values, (found, values) ∈ quotas ∧ deletes ⊆ map fst values.
Proof.
  intros Hf. destruct deletes as [|key deletes]; [by left|]. right.
  assert (key :: deletes ⊆ map fst (from_option snd [] (list.head (quota_order quotas)))) as Hsub.
  { intros k Hk. destruct (decide (k ∈ map fst (from_option snd [] (list.head (quota_order quotas)))));
      [done|]. assert (k ∈ filter (λ key, key ∉ map fst (from_option snd [] (list.head (quota_order quotas))))
      (key :: deletes)) as Hin by by apply list_elem_of_filter.
    rewrite Hf in Hin. by apply elem_of_nil in Hin. }
  destruct (list.head (quota_order quotas)) as [[found values]|] eqn:Hh; cbn in Hsub.
  - exists found, values. split; [|done]. unfold quota_order in Hh.
    apply head_Some_elem_of in Hh. by apply elem_of_hash_order in Hh.
  - exfalso. specialize (Hsub key ltac:(left)). by apply elem_of_nil in Hsub.
Qed.

Section Changes.
Context `{KrabkaConfigs} (args : ConfigsArgs).

Lemma harmless_resource_config resource synonyms : harmless (resource_config resource synonyms).
Proof. unfold resource_config. harmless. Qed.
#[local] Hint Resolve harmless_resource_config : krabka.

Lemma harmless_describe_entities entity_type all entities :
  harmless (describe_entities entity_type all entities).
Proof.
  induction entities as [|entity entities IH]; cbn [describe_entities]; [done|]. harmless.
Qed.
#[local] Hint Resolve harmless_describe_entities : krabka.

Lemma harmless_describe_resources entity_type name all :
  harmless (describe_resources entity_type name all).
Proof.
  unfold describe_resources, entity_exists, described_entities, configs_topic_names, broker_ids,
    client_metrics_names, group_ids, group_config_names. harmless.
Qed.

Lemma harmless_describe_quotas components users : harmless (describe_quotas components users).
Proof. unfold describe_quotas. harmless. Qed.
#[local] Hint Resolve harmless_describe_resources harmless_describe_quotas : krabka.

Lemma trace_resource_config resource synonyms log config :
  trace (resource_config resource synonyms) log (Done (Ok config)) →
  ∃ answers, (existT (DescribeConfigs [resource] synonyms : call admin) (Ok answers) : event admin) ∈ log ∧
    (resource, Ok config) ∈ answers.
Proof.
  unfold resource_config. intros (answers & log1 & rest1 & -> & H1 & Ht)%trace_ok_bind_inv.
  destruct H1 as ([answers'|e] & l & -> & -> & E); [|done]. injection E as ->.
  destruct (list_find _ answers') as [[i [r [c|e]]]|] eqn:Hf; [|by destruct Ht..].
  destruct Ht as [-> [= ->]]. apply list_find_Some in Hf as (Hi & Hr & _). cbn in Hr. subst r.
  exists answers'. split; [set_solver|]. by eapply list_elem_of_lookup_2.
Qed.

Lemma execute_rightful plan past :
  authorised_plan args past plan → Forall (λ e, changes e = false) past →
  monitored (history (Σ := admin) (rightful_config args)) past (execute_configs plan) (on_ok (λ _ _, True)).
Proof.
  intros Hplan Hpast.
  assert (∀ p : cmd admin CommandResult, harmless p →
    monitored (history (Σ := admin) (rightful_config args)) past p (on_ok (λ _ _, True))) as Hread.
  { intros p Hp. eapply monitored_mono; [apply history_harmless; [apply rightful_config_reads|done]|].
    by intros ? [[]| |]. }
  destruct plan as [t n all|t n d s|b d s|comps users|t n e comps s d|t n change]; cbn [execute_configs].
  - auto with krabka.
  - split; [|by intros [outcomes|error]; cbn; [destruct (first_failure _)|]].
    intros _. split; [done|]. eexists. split; [exact Hplan|]. apply resource_change.
    destruct Hplan as (_ & _ & Ht & _). set_solver.
  - unfold alter_loggers. cbv zeta.
    apply history_bind; [apply rightful_config_reads|auto with krabka|intros log1 loggers H1].
    apply harmless_trace in H1 as F1; [|auto with krabka].
    apply trace_resource_config in H1 as (answers & Hin & Hans).
    apply history_bind; [apply rightful_config_reads|auto with krabka|intros log2 [] [Hi%fail_when_Ok ->]%trace_lift].
    split; [|by intros [outcomes|error]; cbn; [destruct (first_failure _)|]].
    intros _. rewrite app_nil_r. split; [by apply Forall_app|]. eexists.
    split; [eapply authorised_mono; [|exact Hplan]; set_solver|].
    split; [apply resource_change; set_solver|]. exists answers, loggers. split_and!; [set_solver|done|].
    apply bool_decide_eq_false in Hi. apply dec_stable in Hi. intros key Hkey.
    destruct (decide (key ∈ map ce_name loggers)); [done|].
    assert (key ∈ filter (λ logger, logger ∉ map ce_name loggers) (d ++ map fst s)) as Hf
      by by apply list_elem_of_filter. rewrite Hi in Hf. by apply elem_of_nil in Hf.
  - auto with krabka.
  - unfold alter_quotas.
    apply history_bind; [apply rightful_config_reads|auto with krabka|intros log1 quotas H1].
    destruct H1 as ([quotas'|error] & l & -> & -> & E); [|done]. injection E as ->. cbv zeta.
    apply history_bind; [apply rightful_config_reads|auto with krabka|intros log2 [] [Hi%fail_when_Ok ->]%trace_lift].
    apply history_bind; [apply rightful_config_reads|auto with krabka|intros log3 ops [Hops ->]%trace_lift].
    split; [|by intros [outcomes|error]; cbn; [destruct (first_failure _)|]].
    intros _. rewrite !app_nil_r. split; [by apply Forall_app; split; [|repeat constructor]|].
    eexists. split; [eapply authorised_mono; [|exact Hplan]; set_solver|].
    apply quota_ops_Ok in Hops as (values & -> & Hvalues). exists values, quotas'. split_and!; [done..|set_solver|].
    apply bool_decide_eq_false in Hi. apply dec_stable in Hi.
    by apply deletes_found.
  - unfold alter_scram. destruct change as [[credential|m]|].
    + split; [|by intros [outcomes|error]; cbn; [destruct (list.head _)|]].
      intros _. split; [done|]. by eexists.
    + split; [|by intros [outcomes|error]; cbn; [destruct (list.head _)|]].
      intros _. split; [done|]. by eexists.
    + done.
Qed.

(** C16. What [krabka configs] changes, for every cluster: under [--alter] at most one
    request, and none under [--describe]. The request is that of the entity that the
    command line names, by its type and name or by a flag of its own (for quotas, of the
    entity with a part for each type that it names, after that same entity was
    described). It deletes the keys of [--delete-config], and sets each key of the file
    of [--add-config-file], as it was read, and of [--add-config] to the last value given,
    the flag after the file; the names are checked, and all deletes come before all sets
    (quotas are set first). The loggers of a broker are changed only where the broker listed each of
    them, a quota is deleted only where the entity was found to have it, and only
    the quotas of the entity's type are changed, save the empty name for an IP.
    SCRAM credentials are of a named user, those of the value given for their mechanism,
    with a password that is not empty and at least the iterations of the mechanism. *)
Theorem configs_requests :
  ∀ W (world : ∀ c : admin_call, W → admin_answer c * W) (w : W) pre e post,
    events_of world (configs_run args) w = pre ++ e :: post → rightful_config args pre (projT1 e).
Proof.
  intros W world w pre e post. apply (run_history (Σ := admin) world _ _ (on_ok (λ _ _, True))).
  unfold configs_run.
  apply history_bind; [apply rightful_config_reads|auto with krabka|intros log1 plan H1].
  apply history_bind; [apply rightful_config_reads|auto with krabka|intros log2 [] H2].
  apply harmless_trace in H1 as F1; [|auto with krabka].
  apply harmless_trace in H2; [|auto with krabka].
  apply execute_rightful; [|by apply Forall_app].
  eapply authorised_mono; [|by eapply trace_configs_plan]. set_solver.
Qed.
End Changes.

(** ** Runs *)

#[local] Instance test_configs : KrabkaConfigs :=
  {| dynamic_config_source resource := Some 1; resource_debug resource := ""; json_f64 x := None |}.

Definition configs_connection : ConnectionArgs :=
  {| bootstrap_server := ["localhost:9092"]; bootstrap_controller := []; command_config := None;
     client_id := None; request_timeout_ms := None |}.

(** [--alter --topic orders|--ip 10.0.0.1 --add-config <value> --delete-config <keys>]. *)
Definition alter_args (topic ip : list string) (add : string) (delete : list string) : ConfigsArgs :=
  {| cfg_connection := configs_connection; cfg_alter := true; cfg_describe := false; cfg_all := false;
     cfg_entity_type := [];
     cfg_entity := {| es_names := []; es_entity_names := []; es_entity_default := false |};
     cfg_add_config := [add]; cfg_add_config_file := []; cfg_delete_config := delete;
     cfg_topic := topic; cfg_client := []; cfg_client_defaults := false; cfg_user := [];
     cfg_user_defaults := false; cfg_broker := []; cfg_broker_defaults := false;
     cfg_broker_logger := []; cfg_ip_defaults := false; cfg_ip := ip; cfg_group := [];
     cfg_client_metrics := [] |}.

Definition alter_events (args : ConfigsArgs) : list (event admin) :=
  events_of obliging_world (configs_run args) tt.

Definition topic_alter_args : ConfigsArgs :=
  alter_args ["orders"] [] "cleanup.policy=[compact,delete],retention.ms=5" ["segment.ms"].

Example alter_topic_runs :
  projT1 <$> last (alter_events topic_alter_args) =
  Some (IncrementalAlterConfigs
    [(ResourceNew TopicType "orders",
      [DeleteValueOp "segment.ms" ""; SetOp "cleanup.policy" "compact,delete"; SetOp "retention.ms" "5"])]).
Proof. vm_compute. reflexivity. Qed.

Lemma configs_requests_witness :
  ∃ pre e post, alter_events topic_alter_args = pre ++ e :: post ∧ changes e = true ∧
    rightful_config topic_alter_args pre (projT1 e).
Proof.
  assert (∃ e, alter_events topic_alter_args !! 1%nat = Some e ∧ changes e = true)
    as (e & He & Hc) by (eexists; vm_compute; split; reflexivity).
  exists (take 1 (alter_events topic_alter_args)), e, (drop 2 (alter_events topic_alter_args)).
  pose proof (take_drop_middle (alter_events topic_alter_args) 1 e He) as Hsplit. split; [done|]. split; [done|].
  exact (configs_requests topic_alter_args unit obliging_world tt _ _ _ (eq_sym Hsplit)).
Defined.

(** The check of an IP's quotas looks at the joined names, so that an empty name
    alone passes it and is sent. *)
Lemma ip_quota_without_a_name :
  projT1 <$> last (alter_events (alter_args [] ["10.0.0.1"] "=5" [])) =
  Some (AlterClientQuotas [(ENTITY_IP, Some "10.0.0.1")] [QuotaSet "" (bits_of "5")]).
Proof. vm_compute. reflexivity. Qed.
