(* ===== verification/Redaction.v ===== *)
(** What [krabka configs] shows does not depend on a sensitive value: its runs are
    the same against a cluster whose sensitive values are blanked out. *)

From S2P Require Import Prelude Collections Rust Json KafkaErrors Output Program Admin ConfigsParse Configs.

(** ** Programs that do not look at part of an answer *)

Section Blind.
Context {Σ : Signature} (blank : ∀ c : call Σ, answer Σ c → answer Σ c).

(** Programs that no world can tell apart. *)
Definition same_runs {A} (p q : prog Σ A) : Prop :=
  ∀ W (world : ∀ c : call Σ, W → answer Σ c * W) (w : W), run world p w = run world q w.

(** After each answer, the program goes on as after the blanked answer. *)
Fixpoint blind {A} (p : prog Σ A) : Prop :=
  match p with
  | Halt _ => True
  | Vis c k => (∀ r, same_runs (k (blank c r)) (k r)) ∧ ∀ r, blind (k r)
  end.

(** The world with its answers blanked. *)
Definition blanked {W} (world : ∀ c : call Σ, W → answer Σ c * W) (c : call Σ) (w : W)
    : answer Σ c * W := (blank c (world c w).1, (world c w).2).

(** A blind program has the same outcome, leaves the world alike and makes the
    same calls. *)
Lemma blind_run {W A} (world : ∀ c : call Σ, W → answer Σ c * W) (p : prog Σ A) w :
  blind p →
  (run (blanked world) p w).1 = (run world p w).1 ∧
  map (λ e : event Σ, projT1 e) (run (blanked world) p w).2 = map (λ e : event Σ, projT1 e) (run world p w).2.
Proof.
  revert w. induction p as [o|c k IH]; intros w Hp; [done|]. destruct Hp as [Hc Hk].
  cbn [run]. unfold blanked at 1 3. destruct (world c w) as [r w'] eqn:E. cbn [fst snd].
  rewrite (Hc r W (blanked world) w'). specialize (IH r w' (Hk r)).
  destruct (run (blanked world) (k r) w') as [[o1 w1] l1], (run world (k r) w') as [[o2 w2] l2].
  cbn in IH |- *. destruct IH as [[= -> ->] ->]. done.
Qed.

Lemma same_runs_bind {A B} (p q : prog Σ A) (f : A → prog Σ B) :
  same_runs p q → same_runs (prog_bind f p) (prog_bind f q).
Proof. intros H W world w. by rewrite !run_bind_full, (H W world w). Qed.

Lemma same_runs_refl {A} (p : prog Σ A) : same_runs p p.
Proof. done. Qed.

Lemma blind_halt {A} (o : outcome A) : blind (Halt o).
Proof. done. Qed.

Lemma blind_prog_bind {A B} (p : prog Σ A) (f : A → prog Σ B) :
  blind p → (∀ a, blind (f a)) → blind (prog_bind f p).
Proof.
  intros Hp Hf. induction p as [[]|c k IH]; [apply Hf|done..|]. destruct Hp as [Hc Hk]. split.
  - intros r. apply same_runs_bind, Hc.
  - intros r. by apply IH.
Qed.

Lemma blind_bind {A B} (p : cmd Σ A) (f : A → cmd Σ B) :
  blind p → (∀ a, blind (f a)) → blind (p ≫= f).
Proof. intros Hp Hf. apply blind_prog_bind; [done|]. by intros []. Qed.

(** A call whose answer is not blanked. *)
Lemma blind_ask (c : call Σ) : (∀ r, blank c r = r) → blind (ask c).
Proof. intros Hc. split; [|done]. intros r. by rewrite Hc. Qed.

Lemma blind_try_admin {A} (p : prog Σ (result AdminError A)) : blind p → blind (try_admin p).
Proof. intros Hp. apply blind_prog_bind; [done|]. done. Qed.

Lemma blind_await {A} (p : prog Σ A) : blind p → blind (await p).
Proof. intros Hp. apply blind_prog_bind; [done|]. done. Qed.

Lemma blind_lift {A} (r : result string A) : blind (lift r).
Proof. by destruct r. Qed.

Lemma blind_lift_cmd {A} (r : result CommandError A) : blind (lift_cmd r).
Proof. done. Qed.

Lemma blind_expect {A} (o : option A) : blind (expect (Σ := Σ) o).
Proof. by destruct o. Qed.
End Blind.

Create HintDb blind.
#[export] Hint Resolve blind_halt blind_try_admin blind_await blind_lift blind_lift_cmd blind_expect : blind.

(** Walks a program up to the calls that are blanked. *)
Ltac blind :=
  repeat first
    [ progress intros
    | solve [auto with blind]
    | apply blind_bind
    | apply blind_prog_bind
    | lazymatch goal with
      | |- blind _ (match ?x with _ => _ end) => destruct x
      | |- blind _ (let '_ := ?x in _) => destruct x
      end ].

(** ** Sensitive values *)

(** The entry without its values, when it is sensitive. *)
Definition redact (entry : ConfigEntry) : ConfigEntry :=
  if ce_is_sensitive entry then
    {| ce_name := ce_name entry; ce_value := None; ce_is_default := ce_is_default entry;
       ce_source := ce_source entry; ce_is_sensitive := true;
       ce_synonyms := map (λ synonym,
         {| cs_name := cs_name synonym; cs_value := None; cs_source := cs_source synonym |})
         (ce_synonyms entry) |}
  else entry.

Definition redact_config (answer : ConfigResource * result KafkaError (list ConfigEntry))
    : ConfigResource * result KafkaError (list ConfigEntry) :=
  (answer.1, match answer.2 with Ok config => Ok (map redact config) | Err error => Err error end).

Definition redact_configs (answer : result AdminError (list (ConfigResource * result KafkaError (list ConfigEntry))))
    : result AdminError (list (ConfigResource * result KafkaError (list ConfigEntry))) :=
  match answer with Ok answers => Ok (map redact_config answers) | Err error => Err error end.

Definition redact_answer (c : admin_call) : admin_answer c → admin_answer c :=
  match c return admin_answer c → admin_answer c with
  | DescribeConfigs _ _ => redact_configs
  | _ => λ answer, answer
  end.

Lemma unmoved_send c :
  match c with DescribeConfigs _ _ => False | _ => True end → blind (Σ := admin) redact_answer (send c).
Proof. intros Hc. apply (blind_ask (Σ := admin)). destruct c; done. Qed.
#[local] Hint Extern 1 (blind _ (send _)) => (apply unmoved_send; exact I) : blind.
#[local] Hint Extern 1 (blind _ (pure _)) => exact I : blind.
#[local] Hint Extern 1 (blind _ (throw _)) => exact I : blind.

Lemma redact_name entry : ce_name (redact entry) = ce_name entry.
Proof. unfold redact. by destruct (ce_is_sensitive entry). Qed.

Lemma redact_source entry : ce_source (redact entry) = ce_source entry.
Proof. unfold redact. by destruct (ce_is_sensitive entry). Qed.

(** A line and a document withhold what a redacted entry lacks. *)
Lemma redact_line entry : config_line (described_config (redact entry)) = config_line (described_config entry).
Proof.
  unfold redact. destruct (ce_is_sensitive entry) eqn:Hs; [|done].
  unfold config_line, shown_value, shown_synonym_value, described_config. cbn. rewrite Hs, !map_map. done.
Qed.

Lemma redact_json entry : config_json (described_config (redact entry)) = config_json (described_config entry).
Proof.
  unfold redact. destruct (ce_is_sensitive entry) eqn:Hs; [|done].
  unfold config_json, shown_value, shown_synonym_value, described_config. cbn. rewrite Hs, !map_map. done.
Qed.

Section Configs.
Context `{KrabkaConfigs}.

Lemma shown_redacted {B} (f : DescribedConfig → B) all resource config :
  (∀ entry, f (described_config (redact entry)) = f (described_config entry)) →
  map f (shown_configs all resource (map redact config)) = map f (shown_configs all resource config).
Proof.
  intros Hf. unfold shown_configs. set (source := if all then _ else _).
  induction config as [|entry config IH]; [done|]. cbn [map]. rewrite !filter_cons, redact_source.
  case_decide; [|exact IH]. cbn [map]. by rewrite Hf, IH.
Qed.

Lemma find_redacted resource answers :
  list_find (λ answer : ConfigResource * result KafkaError (list ConfigEntry), answer.1 = resource)
    (map redact_config answers) =
  prod_map id redact_config <$>
    list_find (λ answer : ConfigResource * result KafkaError (list ConfigEntry), answer.1 = resource) answers.
Proof.
  induction answers as [|[r config] answers IH]; [done|]. cbn. case_decide; [done|]. rewrite IH.
  by destruct (list_find _ answers) as [[i [r' c']]|].
Qed.

(** Going on from the configs of a resource. *)
Lemma unmoved_resource_config {B} resource synonyms (f : list ConfigEntry → cmd admin B) :
  (∀ config, same_runs (f (map redact config)) (f config)) → (∀ config, blind (Σ := admin) redact_answer (f config)) →
  blind (Σ := admin) redact_answer (resource_config resource synonyms ≫= f).
Proof.
  intros Hsame Hf. unfold resource_config. split.
  - intros [answers|error]; [|done]. cbn -[list_find].
    rewrite find_redacted.
    destruct (list_find _ answers) as [[i [r [config|error]]]|]; [|done..]. cbn. apply Hsame.
  - intros [answers|error]; [|done]. cbn -[list_find].
    destruct (list_find _ answers) as [[i [r [config|error]]]|]; [|done..]. cbn. apply Hf.
Qed.

Lemma unmoved_describe_entities entity_type all entities :
  blind (Σ := admin) redact_answer (describe_entities entity_type all entities).
Proof.
  induction entities as [|entity entities IH]; cbn [describe_entities]; [done|]. cbv zeta.
  apply unmoved_resource_config; intros config; [|blind].
  by rewrite (shown_redacted config_line), (shown_redacted config_json) by
    (apply redact_line || apply redact_json).
Qed.
#[local] Hint Resolve unmoved_describe_entities : blind.

Lemma unmoved_plan args : blind (Σ := admin) redact_answer (configs_plan args).
Proof.
  assert (∀ head flags, blind (Σ := admin) redact_answer (check_ips head flags)) as Hips.
  { intros head flags. induction flags as [|[values option] flags IH]; cbn [check_ips]; [done|].
    unfold resolves. blind. }
  unfold configs_plan, describe_plan, alter_plan, alter_user_or_client_plan, configs_to_add, read_configs,
    static_type. cbv zeta. blind.
Qed.

Lemma unmoved_execute plan : blind (Σ := admin) redact_answer (execute_configs plan).
Proof.
  destruct plan as [t n all|t n d s|b d s|comps users|t n e comps s d|t n change]; cbn [execute_configs].
  - unfold describe_resources, entity_exists, described_entities, configs_topic_names, broker_ids,
      client_metrics_names, group_ids, group_config_names. blind.
  - unfold alter_resource. blind.
  - unfold alter_loggers. cbv zeta. apply unmoved_resource_config; intros config.
    + assert (map ce_name (map redact config) = map ce_name config) as ->; [|done].
      rewrite map_map. apply map_ext. apply redact_name.
    + unfold alter_resource. blind.
  - unfold describe_quotas. blind. by destruct (map_outcome _ _).
  - unfold alter_quotas. blind.
  - unfold alter_scram. blind.
Qed.

(** C32. [krabka configs] keeps sensitive values to itself: whatever a broker sends
    for a sensitive config or its synonyms, the command ends the same way, with
    the same report, and makes the same requests, as if the broker had withheld
    the value. *)
Theorem sensitive_values_withheld (args : ConfigsArgs) :
  ∀ W (world : ∀ c : admin_call, W → admin_answer c * W) (w : W),
    let redacted := blanked (Σ := admin) redact_answer world in
    outcome_of redacted (configs_run args) w = outcome_of world (configs_run args) w ∧
    map (λ e : event admin, projT1 e) (events_of redacted (configs_run args) w) =
      map (λ e : event admin, projT1 e) (events_of world (configs_run args) w).
Proof.
  intros W world w redacted. unfold outcome_of, events_of.
  destruct (blind_run (Σ := admin) redact_answer world (configs_run args) w) as [Ho Hl].
  - unfold configs_run, connect. apply blind_bind; [apply unmoved_plan|]. intros plan.
    apply blind_bind; [auto with blind|]. intros []. apply unmoved_execute.
  - fold redacted in Ho, Hl. by rewrite Ho, Hl.
Qed.
End Configs.
