(* ===== verification/FeatureCatalog.v ===== *)
(** [feature_catalog.rs]: the feature levels that a release implies and the
    dependencies of a feature level, which [krabka features] and
    [krabka storage] print without a cluster.

    The feature registry and the table of metadata versions are those of
    [krabka_metadata], the class [KrabkaMetadata]. *)

From Stdlib Require Import Ascii.
From S2P Require Import Prelude Collections Rust Json KafkaErrors Output.

(** ** [krabka_metadata] *)

Record MetadataVersion := { mv_feature_level : Z; mv_ivn : string; mv_short : string }.

#[export] Instance MetadataVersion_eq_dec : EqDecision MetadataVersion.
Proof. solve_decision. Defined.

(** The trait [Feature]. *)
Record Feature := {
  feature_name : string;
  supported_range : Z * Z;
  registry_default_level : Z → Z;
  dependencies_at : Z → list (string * Z)
}.

Class KrabkaMetadata := {
  feature_registry : list Feature;
  feature : string → option Feature;
  from_feature_level : Z → option MetadataVersion;
  METADATA_VERSION_FEATURE : string;
  KRAFT_VERSION_FEATURE : string;
  SHARE_VERSION_FEATURE : string;
  METADATA_VERSION_MIN : Z;
  LATEST_PRODUCTION_METADATA_VERSION : Z
}.

(** What the crate documents of its tables: the version of a level has that
    level, the feature of a name has that name, the registry has a name once, and
    levels are of 16 bits. *)
Class MetadataTables `{KrabkaMetadata} : Prop := {
  from_feature_level_level level version :
    from_feature_level level = Some version → mv_feature_level version = level;
  feature_named name found :
    feature name = Some found → feature_name found = name ∧ found ∈ feature_registry;
  registry_names : NoDup (map feature_name feature_registry);
  metadata_version_name : METADATA_VERSION_FEATURE = "metadata.version";
  metadata_version_min : i16_ok METADATA_VERSION_MIN;
  default_levels found level : found ∈ feature_registry → i16_ok (registry_default_level found level)
}.

(** [min..=max]. *)
Definition inclusive (min max : Z) : list Z := seqZ min (max - min + 1).

(** [iter.max_by_key(key)]: the last of the elements with the greatest key. *)
Definition max_by_key {A} (key : A → Z) (l : list A) : option A :=
  fold_left (λ best x,
    match best with
    | Some b => if key b <=? key x then Some x else Some b
    | None => Some x
    end) l None.

Definition KAFKA_FEATURE_ORDER : list string :=
  ["kraft.version"; "transaction.version"; "group.version"; "eligible.leader.replicas.version";
   "share.version"; "streams.version"].

Definition KAFKA_LATEST_TESTING_METADATA_VERSION : Z := 31.
Definition KRAFT_VERSION_1_METADATA_VERSION : Z := 21.

Inductive Dialect := FeaturesDialect | StorageDialect.

(** [iter.position(p)]. *)
Fixpoint position_where {A} (p : A → bool) (l : list A) : option nat :=
  match l with
  | [] => None
  | x :: l => if p x then Some O else S <$> position_where p l
  end.

(** [position(...).unwrap_or(usize::MAX)]. *)
Definition kafka_rank (name : string) : Z :=
  from_option Z.of_nat usize_MAX (position_where (λ known, bool_decide (known = name)) KAFKA_FEATURE_ORDER).

(** [feature=level]: both sides trimmed, the level an [i16]. *)
Definition is_equals (c : ascii) : bool := (c =? "=")%char.

Definition parse_name_and_level (spec : string) : result string (string * Z) :=
  '(name, level) ← ok_or (split_once is_equals spec)
    ("Can't parse feature=level string " +:+ spec +:+ ": equals sign not found.");
  let level := trim level in
  level' ← ok_or (parse_i16 level)
    ("Can't parse feature=level string " +:+ spec +:+ ": unable to parse " +:+ level +:+ " as a short.");
  Ok (trim name, level').

Definition parse_dependency_query (spec : string) (dialect : Dialect) : result string (string * Z) :=
  match dialect with
  | FeaturesDialect => parse_name_and_level spec
  | StorageDialect =>
      '(name, level) ← ok_or (split_once is_equals spec)
        ("Invalid feature format: " +:+ spec +:+
         ". Expected format: 'feature=version' (e.g. 'group.version=1')");
      let name := trim name in
      let level := trim level in
      level' ← ok_or (parse_i16 level)
        ("Invalid version format: " +:+ level +:+ " for feature " +:+ name);
      Ok (name, level')
  end.

Record FeatureDependencies := {
  fd_feature : string;
  fd_level : Z;
  fd_dependencies : list (string * Z)
}.

(** The feature levels that one release implies. *)
Record VersionMapping := {
  vm_release : string;
  vm_metadata_version : MetadataVersion;
  vm_features : list (string * Z)
}.

Record VersionMappingArgs := { vma_release_version : option string; vma_all : bool }.

Section Catalog.
Context `{KrabkaMetadata}.

Definition production_features : list Feature :=
  sort_by (λ a b, kafka_rank (feature_name a) ?= kafka_rank (feature_name b))
    (filter (λ f, feature_name f ∈ KAFKA_FEATURE_ORDER) feature_registry).

Definition default_level (feature : Feature) (metadata_level : Z) : Z :=
  if bool_decide (feature_name feature = KRAFT_VERSION_FEATURE) then
    (if KRAFT_VERSION_1_METADATA_VERSION <=? metadata_level then 1 else 0)
  else if bool_decide (feature_name feature = SHARE_VERSION_FEATURE) then
    Z.min (registry_default_level feature metadata_level) 1
  else registry_default_level feature metadata_level.

Definition metadata_versions : list MetadataVersion :=
  omap from_feature_level (inclusive METADATA_VERSION_MIN KAFKA_LATEST_TESTING_METADATA_VERSION).

Definition known_metadata_version (level : Z) : option MetadataVersion :=
  find (λ version, mv_feature_level version =? level) metadata_versions.

(** Panics where the table does not hold the latest production level. *)
Definition latest_production_metadata_version : outcome MetadataVersion :=
  or_panic (from_feature_level LATEST_PRODUCTION_METADATA_VERSION).

Definition level_to_string (feature : string) (level : Z) : string :=
  if bool_decide (feature = METADATA_VERSION_FEATURE) then
    from_option mv_ivn ("UNKNOWN " +:+ pretty level) (known_metadata_version level)
  else pretty level.

(** The part of a release that names a version: its first two segments. *)
Definition release_key (release : string) : string :=
  let segments := split_char "." release in
  if (length segments <=? 2)%nat then release else join "." (take 2 segments).

Definition release_matches (key : string) (version : MetadataVersion) : bool :=
  if contains_byte (λ c, (c =? "-")%char) key then bool_decide (mv_ivn version = key)
  else bool_decide (mv_short version = key) &&
       (mv_feature_level version <=? LATEST_PRODUCTION_METADATA_VERSION).

Definition resolve_release (release : string) : result string MetadataVersion :=
  ok_or (max_by_key mv_feature_level (List.filter (release_matches (release_key release)) metadata_versions))
    ("Unknown metadata.version '" +:+ release +:+ "'. Supported metadata.version are: " +:+
     join ", " (map mv_ivn metadata_versions)).

(** ** [version-mapping] *)

Definition mapping_at (version : MetadataVersion) (release : string) : VersionMapping :=
  {| vm_release := release; vm_metadata_version := version;
     vm_features := map (λ f, (feature_name f, default_level f (mv_feature_level version)))
                      production_features |}.

Definition name_and_level (entry : string * Z) : string := entry.1 +:+ "=" +:+ pretty entry.2.

Definition mapping_human (mapping : VersionMapping) : list string :=
  (METADATA_VERSION_FEATURE +:+ "=" +:+ pretty (mv_feature_level (vm_metadata_version mapping)) +:+
   " (" +:+ vm_release mapping +:+ ")") :: map name_and_level (vm_features mapping).

Definition mapping_row (mapping : VersionMapping) : string := join " " (mapping_human mapping).

Definition feature_level_json (entry : string * Z) : Value :=
  object_of [("feature", Str entry.1); ("level", num entry.2)].

Definition mapping_json (mapping : VersionMapping) : Value :=
  object_of [("release_version", Str (vm_release mapping));
             ("metadata_version",
              object_of [("level", num (mv_feature_level (vm_metadata_version mapping)));
                         ("name", Str (mv_ivn (vm_metadata_version mapping)))]);
             ("features", Array (map feature_level_json (vm_features mapping)))].

Definition version_mapping (release : option string) : outcome (result string VersionMapping) :=
  match release with
  | Some release => Done (version ← resolve_release release; Ok (mapping_at version release))
  | None =>
      latest ← latest_production_metadata_version;
      Done (Ok (mapping_at latest (mv_ivn latest)))
  end.

Definition version_mapping_table : CommandResult :=
  let rows := map (λ version, mapping_at version (mv_ivn version)) metadata_versions in
  success (map mapping_row rows) (Array (map mapping_json rows)).

(** [VersionMappingArgs::run]. *)
Definition version_mapping_run (args : VersionMappingArgs) : outcome (result CommandError CommandResult) :=
  if vma_all args then Done (Ok version_mapping_table)
  else
    mapping ← version_mapping (vma_release_version args);
    Done (map_err Other (mapping ← mapping; Ok (success (mapping_human mapping) (mapping_json mapping)))).

(** ** [feature-dependencies] *)

(** One required level, with the name of a metadata version. *)
Definition dependency_line (dependency : string * Z) : string :=
  "    " +:+ name_and_level dependency +:+
  (if bool_decide (dependency.1 = METADATA_VERSION_FEATURE) then
     " (" +:+ level_to_string dependency.1 dependency.2 +:+ ")"
   else "").

Definition dependencies_human (row : FeatureDependencies) : list string :=
  let subject := name_and_level (fd_feature row, fd_level row) in
  if bool_decide (fd_feature row = METADATA_VERSION_FEATURE) then
    [subject +:+ " (" +:+ level_to_string (fd_feature row) (fd_level row) +:+ ") has no dependencies."]
  else if bool_decide (fd_dependencies row = []) then [subject +:+ " has no dependencies."]
  else (subject +:+ " requires:") :: map dependency_line (fd_dependencies row).

Definition dependencies_json (row : FeatureDependencies) : Value :=
  object_of [("feature", Str (fd_feature row)); ("level", num (fd_level row));
             ("dependencies", Array (map feature_level_json (fd_dependencies row)))].

Definition dependencies_of (feature : Feature) (level : Z) : FeatureDependencies :=
  {| fd_feature := feature_name feature; fd_level := level;
     fd_dependencies := dependencies_at feature level |}.

(** [(min..=max).contains(&level)]. *)
Definition in_range (range : Z * Z) (level : Z) : bool := (range.1 <=? level) && (level <=? range.2).

Definition feature_dependencies (name : string) (level : Z) (dialect : Dialect)
    : result string FeatureDependencies :=
  if bool_decide (name = METADATA_VERSION_FEATURE) then
    if is_some (known_metadata_version level) then
      Ok {| fd_feature := name; fd_level := level; fd_dependencies := [] |}
    else Err ("Unknown metadata.version " +:+ pretty level)
  else
    registered ← ok_or (feature name) ("Unknown feature: " +:+ name);
    if in_range (supported_range registered) level then Ok (dependencies_of registered level)
    else Err
      match dialect with
      | FeaturesDialect => "No feature:" +:+ name +:+ " with feature level " +:+ pretty level
      | StorageDialect => "Feature level " +:+ pretty level +:+ " is not supported for feature " +:+ name
      end.

Definition all_feature_dependencies : list FeatureDependencies :=
  map (λ version, {| fd_feature := METADATA_VERSION_FEATURE; fd_level := mv_feature_level version;
                     fd_dependencies := [] |}) metadata_versions ++
  (production_features ≫= λ feature,
     map (dependencies_of feature)
       (inclusive (supported_range feature).1 (supported_range feature).2)).

(** [FeatureDependenciesArgs::run]. *)
Definition feature_dependencies_run (specs : list string) (dialect : Dialect)
    : result CommandError CommandResult :=
  rows ← map_err Other
    (if bool_decide (specs = []) then Ok all_feature_dependencies
     else try_map (λ spec,
       '(name, level) ← parse_dependency_query spec dialect;
       feature_dependencies name level dialect) specs);
  Ok (success (rows ≫= dependencies_human) (Array (map dependencies_json rows))).
End Catalog.

(** ** Releases *)

Lemma max_by_key_from {A} (key : A → Z) (l : list A) best :
  match fold_left (λ best x,
    match best with
    | Some b => if key b <=? key x then Some x else Some b
    | None => Some x
    end) l best with
  | Some m => (Some m = best ∨ m ∈ l) ∧ (∀ b, best = Some b → key b ≤ key m) ∧ ∀ x, x ∈ l → key x ≤ key m
  | None => best = None ∧ l = []
  end.
Proof.
  revert best. induction l as [|x l IH]; intros best; cbn [fold_left].
  - destruct best as [b|]; [|done]. split; [by left|]. split; [by intros ? [= ->]|set_solver].
  - specialize (IH match best with
      | Some b => if key b <=? key x then Some x else Some b | None => Some x end).
    destruct (fold_left _ l _) as [m|]; [|destruct best as [b|]; [destruct (key b <=? key x)|]; by destruct IH].
    destruct IH as (Hin & Hbest & Hall).
    assert (key x ≤ key m ∧ ∀ b, best = Some b → key b ≤ key m) as [Hx Hb].
    { destruct best as [b|]; [|split; [by apply Hbest|done]].
      destruct (Z.leb_spec (key b) (key x)); specialize (Hbest _ eq_refl);
        (split; [lia|]); intros ? [= <-]; lia. }
    split_and!; [|done|intros y [->|Hy]%elem_of_cons; [done|by apply Hall]].
    destruct Hin as [E|Hin]; [|right; by right].
    destruct best as [b|]; [destruct (key b <=? key x)|]; simplify_eq; [right; left|by left|right; left].
Qed.

Lemma max_by_key_Some {A} (key : A → Z) (l : list A) m :
  max_by_key key l = Some m → m ∈ l ∧ ∀ x, x ∈ l → key x ≤ key m.
Proof.
  intros E. pose proof (max_by_key_from key l None) as Hm. unfold max_by_key in E. rewrite E in Hm.
  destruct Hm as ([Hm|Hm] & _ & Hall); [done|]. by split.
Qed.

Lemma max_by_key_None {A} (key : A → Z) (l : list A) : max_by_key key l = None → l = [].
Proof.
  intros E. pose proof (max_by_key_from key l None) as Hm. unfold max_by_key in E. rewrite E in Hm.
  by destruct Hm.
Qed.

Section Facts.
Context `{MetadataTables}.

Lemma elem_of_metadata_versions version :
  version ∈ metadata_versions ↔
  from_feature_level (mv_feature_level version) = Some version ∧
  METADATA_VERSION_MIN ≤ mv_feature_level version ≤ KAFKA_LATEST_TESTING_METADATA_VERSION.
Proof.
  unfold metadata_versions, inclusive. rewrite list_elem_of_omap. split.
  - intros (level & Hl%elem_of_seqZ & Hv). pose proof (from_feature_level_level _ _ Hv) as <-. split; [done|lia].
  - intros [Hv Hl]. exists (mv_feature_level version). split; [apply elem_of_seqZ; lia|done].
Qed.

(** A level has one version. *)
Lemma metadata_versions_inj v1 v2 :
  v1 ∈ metadata_versions → v2 ∈ metadata_versions →
  mv_feature_level v1 = mv_feature_level v2 → v1 = v2.
Proof. intros [E1 _]%elem_of_metadata_versions [E2 _]%elem_of_metadata_versions E. rewrite E in E1. congruence. Qed.

Lemma metadata_versions_level version :
  version ∈ metadata_versions → i16_ok (mv_feature_level version).
Proof.
  intros [_ Hl]%elem_of_metadata_versions. pose proof metadata_version_min as Hm.
  unfold i16_ok, in_signed, KAFKA_LATEST_TESTING_METADATA_VERSION in *. lia.
Qed.

Lemma known_metadata_version_spec level version :
  known_metadata_version level = Some version ↔
  version ∈ metadata_versions ∧ mv_feature_level version = level.
Proof.
  unfold known_metadata_version. split.
  - intros [Hin Hl]%find_some. apply list_elem_of_In in Hin. apply Z.eqb_eq in Hl. done.
  - intros [Hin Hl]. destruct (find _ _) as [v|] eqn:E.
    + apply find_some in E as [Hv E]. apply list_elem_of_In in Hv. apply Z.eqb_eq in E. f_equal.
      apply metadata_versions_inj; [done..|congruence].
    + eapply find_none in E; [|by apply list_elem_of_In]. by apply Z.eqb_neq in E.
Qed.

(** Which version a release names: the highest of those that Kafka 4.3.1 knows and
    the release matches, by its exact name or, without one, by its number among
    those in production; it is refused exactly where none matches. *)
Lemma resolve_release_spec (release : string) (version : MetadataVersion) :
  resolve_release release = Ok version ↔
  version ∈ metadata_versions ∧ release_matches (release_key release) version = true ∧
  ∀ other, other ∈ metadata_versions → release_matches (release_key release) other = true →
    mv_feature_level other ≤ mv_feature_level version.
Proof.
  unfold resolve_release. set (matching := List.filter _ _).
  assert (∀ v, v ∈ matching ↔ v ∈ metadata_versions ∧ release_matches (release_key release) v = true) as Hm.
  { intros v. unfold matching. rewrite list_elem_of_In, filter_In, <-list_elem_of_In. done. }
  destruct (max_by_key _ matching) as [m|] eqn:E; cbn [ok_or].
  - apply max_by_key_Some in E as [[Hin Hmm]%Hm Hmax]. split.
    + intros [= <-]. split_and!; [done..|]. intros other Ho Hom. apply Hmax, Hm. done.
    + intros (Hv & Hvm & Hvmax). f_equal. apply metadata_versions_inj; [done..|].
      specialize (Hvmax m Hin Hmm). assert (mv_feature_level version ≤ mv_feature_level m) by (apply Hmax, Hm; done). lia.
  - apply max_by_key_None in E. split; [done|]. intros (Hv & Hvm & _). exfalso.
    assert (version ∈ matching) as Hin by (apply Hm; done). rewrite E in Hin. by apply elem_of_nil in Hin.
Qed.

(** ** Features *)

Lemma elem_of_production_features f :
  f ∈ production_features ↔ f ∈ feature_registry ∧ feature_name f ∈ KAFKA_FEATURE_ORDER.
Proof. unfold production_features. rewrite sort_by_perm, list_elem_of_filter. tauto. Qed.

Lemma production_features_names : NoDup (map feature_name production_features).
Proof.
  unfold production_features. rewrite sort_by_perm. eapply sublist_NoDup; [exact registry_names|].
  apply (fmap_sublist feature_name), sublist_filter.
Qed.

Lemma default_level_i16 f level : f ∈ feature_registry → i16_ok (default_level f level).
Proof.
  intros Hf. pose proof (default_levels f level Hf) as Hd. unfold default_level, i16_ok, in_signed in *.
  repeat case_bool_decide; [case_match| |]; lia.
Qed.

(** A name and a level read back as they are printed. *)
Lemma parse_name_and_level_text name level :
  all_bytes (λ c, is_graphic c && negb (is_equals c)) name = true → i16_ok level →
  parse_name_and_level (name_and_level (name, level)) = Ok (name, level).
Proof.
  intros Hn Hl. unfold parse_name_and_level, name_and_level. cbn [fst snd].
  rewrite str_app_sep, split_once_app; [| |done].
  - cbn [ok_or mbind result_bind]. rewrite trim_pretty. unfold parse_i16. rewrite parse_signed_pretty by done.
    cbn [ok_or mbind result_bind]. rewrite trim_graphic; [done|]. eapply all_bytes_impl; [|exact Hn].
    intros c. cbv beta. by rewrite andb_true_iff; intros [].
  - eapply all_bytes_impl; [|exact Hn]. intros c. cbv beta. by rewrite andb_true_iff; intros [].
Qed.

Lemma production_name_graphic name :
  name ∈ METADATA_VERSION_FEATURE :: KAFKA_FEATURE_ORDER →
  all_bytes (λ c, is_graphic c && negb (is_equals c)) name = true.
Proof.
  rewrite metadata_version_name. revert name. apply Forall_forall. unfold KAFKA_FEATURE_ORDER.
  repeat constructor.
Qed.

(** The two tools differ only in how they refuse. *)
Lemma feature_dependencies_dialects name level :
  result_ok (feature_dependencies name level FeaturesDialect) =
  result_ok (feature_dependencies name level StorageDialect).
Proof.
  unfold feature_dependencies. case_bool_decide; [done|]. destruct (feature name); [|done]. cbn.
  by destruct (in_range _ _).
Qed.
End Facts.
