(* ===== verification/Features.v ===== *)
(** [features.rs]: the command [krabka features], which describes, upgrades,
    downgrades and disables the features of a cluster.

    An update is planned from the command line, checked against the registry and,
    for what it depends on, against the cluster's levels, and sent as one
    request. A dry run sends the same request to be validated only. *)

From S2P Require Import Connection.
From S2P Require Import Prelude Collections Rust Json KafkaErrors Output Program Admin FeatureCatalog.

(** [FeatureUpdate::new] of the client: how it refuses a level, if it does. *)
Inductive UpdateRefusal :=
  | InvalidArgument (message : string)
  | OtherRefusal (text : string).

Class KrabkaFeatureUpdates := { update_refused : Z → UpgradeType → option UpdateRefusal }.

Definition METADATA_FLAG_NOTICE : string :=
  " `metadata` flag is deprecated and may be removed in a future release.".

(** ** The command line *)

Record UpgradeArgs := {
  ua_metadata : option string;
  ua_release_version : option string;
  ua_feature : list string;
  ua_dry_run : bool
}.
Record DowngradeArgs := {
  da_metadata : option string;
  da_release_version : option string;
  da_feature : list string;
  da_unsafe_downgrade : bool;
  da_dry_run : bool
}.
Record DisableArgs := { di_feature : list string; di_unsafe_downgrade : bool; di_dry_run : bool }.

Inductive FeaturesCommand :=
  | DescribeCommand (node_id : option Z)
  | UpgradeCommand (args : UpgradeArgs)
  | DowngradeCommand (args : DowngradeArgs)
  | DisableCommand (args : DisableArgs)
  | VersionMappingCommand (args : VersionMappingArgs)
  | FeatureDependenciesCommand (specs : list string).

Record FeaturesArgs := { fa_connection : ConnectionArgs; fa_command : FeaturesCommand }.

Definition downgrade_type (unsafe_downgrade : bool) : UpgradeType :=
  if unsafe_downgrade then UnsafeDowngrade else SafeDowngrade.

Definition upgrade_type_name (upgrade_type : UpgradeType) : string :=
  match upgrade_type with
  | Upgrade => "UPGRADE"
  | SafeDowngrade => "SAFE_DOWNGRADE"
  | UnsafeDowngrade => "UNSAFE_DOWNGRADE"
  end.

Inductive FeatureOp := OpUpgrade | OpDowngrade | OpDisable.

Definition verb (op : FeatureOp) : string :=
  match op with OpUpgrade => "upgrade" | OpDowngrade => "downgrade" | OpDisable => "disable" end.

Record FeaturesPlan := {
  fp_op : FeatureOp;
  fp_notices : list string;
  fp_updates : list (string * FeatureUpdate);
  fp_dry_run : bool
}.

(** [RowError], with the error's own fields. *)
Record FeatureRowError := { fre_code : Z; fre_name : string; fre_message : string }.

Definition feature_row_error (error : KafkaError) : FeatureRowError :=
  let exception := for_code (error_code error) in
  {| fre_code := error_code error;
     fre_name := if is_known (error_code error) then exc_name exception else error_name error;
     fre_message := default (exc_message exception) (error_message error) |}.

(** [results.get(name)]. *)
Definition update_result (results : list (string * result KafkaError unit)) (name : string)
    : option (result KafkaError unit) :=
  snd <$> find (λ row, bool_decide (row.1 = name)) results.

(** [outcome_errors], in the order of the updates. *)
Definition update_error (results : list (string * result KafkaError unit)) (name : string)
    : option FeatureRowError :=
  match update_result results name with
  | Some (Ok _) => None
  | Some (Err error) => Some (feature_row_error error)
  | None => Some (feature_row_error
      {| error_code := -1; error_name := "UNKNOWN_SERVER_ERROR";
         error_message := Some ("The controller response did not contain a result for feature " +:+ name) |})
  end.

Definition outcome_errors (updates : list (string * FeatureUpdate))
    (outcome : result AdminError (list (string * result KafkaError unit)))
    : result CommandError (list (string * option FeatureRowError)) :=
  match outcome with
  | Ok results => Ok (bt_collect (map (λ name, (name, update_error results name)) (bt_keys updates)))
  | Err (BrokerError "UpdateFeatures" code name message) =>
      let error := feature_row_error
        {| error_code := code; error_name := name; error_message := message |} in
      Ok (bt_collect (map (λ feature, (feature, Some error)) (bt_keys updates)))
  | Err other => Err (from_admin_error other)
  end.

(** [Plan::line]. *)
Definition update_line (plan : FeaturesPlan) (name : string) (level : Z) (error : option FeatureRowError)
    : string :=
  match error with
  | Some error =>
      (if fp_dry_run plan then "Can not " else "Could not ") +:+
      match fp_op plan with
      | OpDisable => "disable " +:+ name
      | op => verb op +:+ " " +:+ name +:+ " to " +:+ pretty level
      end +:+ ". " +:+ fre_message error
  | None =>
      name +:+ (if fp_dry_run plan then " can be " else " was ") +:+
      match fp_op plan with
      | OpDisable => "disabled."
      | op => verb op +:+ "d to " +:+ pretty level +:+ "."
      end
  end.

Definition update_json (row : string * FeatureUpdate * option FeatureRowError) : Value :=
  let '(name, update, error) := row in
  object_of [("feature", Str name); ("level", num (fu_max_version_level update));
             ("upgrade_type", Str (upgrade_type_name (fu_upgrade_type update)));
             ("error", from_option (λ error,
                object_of [("code", num (fre_code error)); ("name", Str (fre_name error));
                           ("message", Str (fre_message error))]) Null error)].

(** [Plan::report]. *)
Definition plan_report (plan : FeaturesPlan) (error : string → option FeatureRowError) : CommandResult :=
  let rows := map (λ '(name, update), (name, update, error name)) (fp_updates plan) in
  let failures := Z.of_nat (length (List.filter (λ row, is_some row.2) rows)) in
  let human := fp_notices plan ++
    map (λ '(name, update, error), update_line plan name (fu_max_version_level update) error) rows in
  let data := object_of [("operation", Str (verb (fp_op plan))); ("updates", Array (map update_json rows));
                         ("failures", num failures)] in
  let notices := if 0 <? failures then
      [pretty failures +:+ " out of " +:+ pretty (Z.of_nat (length (fp_updates plan))) +:+
       " operation(s) failed."]
    else [] in
  with_notices (Output.rows human data (0 <? failures)) notices.

(** The levels the controller validates against. *)
Definition proposed_levels (updates : list (string * FeatureUpdate)) (metadata : FeatureMetadata)
    : list (string * Z) :=
  bt_collect (map (λ range, (fr_name range, fr_max_version range)) (fm_finalized metadata) ++
              map (λ '(name, update), (name, fu_max_version_level update)) updates).

(** Whether the proposed levels do not meet a dependency. *)
Definition unmet (proposed : list (string * Z)) (dependency : string * Z) : bool :=
  match bt_get dependency.1 proposed with Some level => level <? dependency.2 | None => true end.

(** The first dependency of one update that is not met, with the message. *)
Definition unmet_of (proposed : list (string * Z)) (dependencies : string → Z → list (string * Z))
    (update : string * FeatureUpdate) : option (string * Z * string) :=
  let '(name, update) := update in
  let level := fu_max_version_level update in
  (λ dependency, (name, level,
     name +:+ " could not be set to " +:+ pretty level +:+ " because it depends on " +:+
     dependency.1 +:+ " level " +:+ pretty dependency.2)) <$>
  find (unmet proposed) (dependencies name level).

Definition unmet_dependency (updates : list (string * FeatureUpdate)) (proposed : list (string * Z))
    (dependencies : string → Z → list (string * Z)) : option (string * Z * string) :=
  list.head (omap (unmet_of proposed dependencies) updates).

Section Command.
Context `{KrabkaMetadata} `{KrabkaFeatureUpdates}.

(** ** The plan *)

Definition new_update (level : Z) (upgrade_type : UpgradeType) : result string FeatureUpdate :=
  match update_refused level upgrade_type with
  | None => Ok {| fu_max_version_level := level; fu_upgrade_type := upgrade_type |}
  | Some (InvalidArgument message) => Err message
  | Some (OtherRefusal text) => Err text
  end.

(** [updates.insert(name, new_update(...)?)]. *)
Definition insert_update (upgrade_type : UpgradeType) (entry : string * Z)
    (updates : list (string * FeatureUpdate)) : result string (list (string * FeatureUpdate)) :=
  update ← new_update entry.2 upgrade_type;
  Ok (bt_insert entry.1 update updates).

(** The levels of a release: Kafka does not send an upgrade to level 0. *)
Fixpoint release_updates (upgrade_type : UpgradeType) (level : Z) (features : list Feature)
    (updates : list (string * FeatureUpdate)) : result string (list (string * FeatureUpdate)) :=
  match features with
  | [] => Ok updates
  | feature :: features =>
      let default := default_level feature level in
      updates ← (if bool_decide (upgrade_type ≠ Upgrade) || (0 <? default) then
                   insert_update upgrade_type (feature_name feature, default) updates
                 else Ok updates);
      release_updates upgrade_type level features updates
  end.

(** An entry that is given twice is refused. *)
Definition insert_new (upgrade_type : UpgradeType) (entry : string * Z)
    (updates : list (string * FeatureUpdate)) : result string (list (string * FeatureUpdate)) :=
  updates' ← insert_update upgrade_type entry updates;
  if bt_contains entry.1 updates then Err ("Feature " +:+ entry.1 +:+ " was specified more than once.")
  else Ok updates'.

Fixpoint spec_updates (upgrade_type : UpgradeType) (specs : list string)
    (updates : list (string * FeatureUpdate)) : result string (list (string * FeatureUpdate)) :=
  match specs with
  | [] => Ok updates
  | spec :: specs =>
      entry ← parse_name_and_level spec;
      updates ← insert_new upgrade_type entry updates;
      spec_updates upgrade_type specs updates
  end.

(** [Plan::upgrade_or_downgrade]. *)
Definition upgrade_or_downgrade (op : FeatureOp) (metadata release_version : option string)
    (features : list string) (upgrade_type : UpgradeType) (dry_run : bool) : result string FeaturesPlan :=
  if is_some release_version && (is_some metadata || bool_decide (features ≠ [])) then
    Err "Can not specify `release-version` with other feature flags."
  else
    '(notices, updates) ←
      match release_version with
      | Some release =>
          version ← resolve_release release;
          let level := mv_feature_level version in
          updates ← insert_update upgrade_type (METADATA_VERSION_FEATURE, level) [];
          updates ← release_updates upgrade_type level production_features updates;
          Ok ([], updates)
      | None =>
          '(notices, updates) ←
            match metadata with
            | Some metadata =>
                version ← resolve_release metadata;
                updates ← insert_update upgrade_type (METADATA_VERSION_FEATURE, mv_feature_level version) [];
                Ok ([METADATA_FLAG_NOTICE], updates)
            | None => Ok ([], [])
            end;
          updates ← spec_updates upgrade_type features updates;
          Ok (notices, updates)
      end;
    Ok {| fp_op := op; fp_notices := notices; fp_updates := updates; fp_dry_run := dry_run |}.

Fixpoint disable_updates (upgrade_type : UpgradeType) (names : list string)
    (updates : list (string * FeatureUpdate)) : result string (list (string * FeatureUpdate)) :=
  match names with
  | [] => Ok updates
  | name :: names =>
      updates ← insert_new upgrade_type (name, 0) updates;
      disable_updates upgrade_type names updates
  end.

(** [Plan::disable]. *)
Definition disable (features : list string) (upgrade_type : UpgradeType) (dry_run : bool)
    : result string FeaturesPlan :=
  updates ← disable_updates upgrade_type features [];
  Ok {| fp_op := OpDisable; fp_notices := []; fp_updates := updates; fp_dry_run := dry_run |}.

(** The checks of one update against the registry. *)
Definition validate_update (entry : string * FeatureUpdate) : result string unit :=
  let '(name, update) := entry in
  registered ← ok_or (feature name)
    ("Unsupported feature: " +:+ name +:+ ". Supported features are: " +:+
     join ", " (sort (map feature_name feature_registry)));
  let '(min, max) := supported_range registered in
  if in_range (min, max) (fu_max_version_level update) then Ok tt
  else Err ("feature " +:+ name +:+ "=" +:+ pretty (fu_max_version_level update) +:+
            " is outside the supported range " +:+ pretty min +:+ "..=" +:+ pretty max).

(** [Plan::validate]. *)
Definition validate_plan (plan : FeaturesPlan) : result string unit :=
  if bool_decide (fp_updates plan = []) then
    Err ("You must specify at least one feature to " +:+ verb (fp_op plan))
  else if existsb (λ name, bool_decide (trim name = "")) (bt_keys (fp_updates plan)) then
    Err "Provided feature can not be empty."
  else try_map validate_update (fp_updates plan);; Ok tt.

Definition registry_dependencies (name : string) (level : Z) : list (string * Z) :=
  if bool_decide (name = METADATA_VERSION_FEATURE) || bool_decide (name = KRAFT_VERSION_FEATURE) then []
  else from_option (λ f, dependencies_at f level) [] (feature name).

(** [Plan::needs_current_levels]. *)
Definition needs_current_levels (plan : FeaturesPlan) : bool :=
  existsb (λ '(name, update),
    negb (bool_decide (registry_dependencies name (fu_max_version_level update) = []))) (fp_updates plan).

(** What each subcommand that changes features asks for. *)
Definition upgrade_plan (args : UpgradeArgs) : result string FeaturesPlan :=
  upgrade_or_downgrade OpUpgrade (ua_metadata args) (ua_release_version args) (ua_feature args)
    Upgrade (ua_dry_run args).
Definition downgrade_plan (args : DowngradeArgs) : result string FeaturesPlan :=
  upgrade_or_downgrade OpDowngrade (da_metadata args) (da_release_version args) (da_feature args)
    (downgrade_type (da_unsafe_downgrade args)) (da_dry_run args).
Definition disable_plan (args : DisableArgs) : result string FeaturesPlan :=
  disable (di_feature args) (downgrade_type (di_unsafe_downgrade args)) (di_dry_run args).

(** ** [describe] *)

Definition finalized_level (metadata : FeatureMetadata) (name : string) : Z :=
  from_option fr_max_version 0 (find (λ range, bool_decide (fr_name range = name)) (fm_finalized metadata)).

Definition feature_line (epoch : option Z) (row : FeatureRange * Z) : string :=
  let '(range, finalized) := row in
  "Feature: " +:+ pad (fr_name range) 40 +:+
  "  SupportedMinVersion: " +:+ pad (level_to_string (fr_name range) (fr_min_version range)) 15 +:+
  "  SupportedMaxVersion: " +:+ pad (level_to_string (fr_name range) (fr_max_version range)) 15 +:+
  "  FinalizedVersionLevel: " +:+ pad (level_to_string (fr_name range) finalized) 15 +:+
  "  Epoch: " +:+ from_option pretty "-" epoch.

Definition feature_json (row : FeatureRange * Z) : Value :=
  object_of [("feature", Str (fr_name row.1)); ("supported_min_version", num (fr_min_version row.1));
             ("supported_max_version", num (fr_max_version row.1));
             ("finalized_version_level", num row.2)].

Definition render_describe (metadata : FeatureMetadata) : CommandResult :=
  let supported := sort_by (λ a b, string_cmp (fr_name a) (fr_name b)) (fm_supported metadata) in
  let rows := map (λ range, (range, finalized_level metadata (fr_name range))) supported in
  success (map (feature_line (fm_finalized_features_epoch metadata)) rows)
    (object_of [("features", Array (map feature_json rows));
                ("finalized_features_epoch", opt_num (fm_finalized_features_epoch metadata))]).

Definition describe_features (connection : ConnectionArgs) (node_id : option Z) : cmd admin CommandResult :=
  match node_id with
  | Some id =>
      if id <? 0 then throw (Other ("Invalid node id " +:+ pretty id +:+ ": must be non-negative."))
      else connect connection "features";;
           metadata ← try_admin (send (DescribeFeatures node_id)); pure (render_describe metadata)
  | None =>
      connect connection "features";;
      metadata ← try_admin (send (DescribeFeatures node_id)); pure (render_describe metadata)
  end.

(** ** The command *)

(** The dependencies of the updates, checked against the cluster's levels. *)
Definition check_dependencies (plan : FeaturesPlan) : cmd admin unit :=
  if negb (fp_dry_run plan) && needs_current_levels plan then
    metadata ← try_admin (send (DescribeFeatures None));
    match unmet_dependency (fp_updates plan) (proposed_levels (fp_updates plan) metadata)
            registry_dependencies with
    | Some (name, level, message) =>
        throw (Other ("Invalid update version " +:+ pretty level +:+ " for feature " +:+ name +:+ ". " +:+
                      message))
    | None => pure tt
    end
  else pure tt.

(** The part of [run] from the plan on. *)
Definition update_features (connection : ConnectionArgs) (plan : FeaturesPlan) : cmd admin CommandResult :=
  lift (validate_plan plan);;
  connect connection "features";;
  check_dependencies plan;;
  outcome ← await (send (UpdateFeatures (fp_updates plan) (fp_dry_run plan)));
  errors ← lift_cmd (outcome_errors (fp_updates plan) outcome);
  let report := plan_report plan (λ name, default None (bt_get name errors)) in
  pure (if fp_dry_run plan then into_kafka_dry_run report else report).

(** [FeaturesArgs::run]. *)
Definition features_run (args : FeaturesArgs) : cmd admin CommandResult :=
  match fa_command args with
  | VersionMappingCommand mapping => r ← run_outcome (version_mapping_run mapping); lift_cmd r
  | FeatureDependenciesCommand specs => lift_cmd (feature_dependencies_run specs FeaturesDialect)
  | DescribeCommand node_id => describe_features (fa_connection args) node_id
  | UpgradeCommand upgrade => plan ← lift (upgrade_plan upgrade); update_features (fa_connection args) plan
  | DowngradeCommand downgrade =>
      plan ← lift (downgrade_plan downgrade); update_features (fa_connection args) plan
  | DisableCommand disable => plan ← lift (disable_plan disable); update_features (fa_connection args) plan
  end.
End Command.

(** ** What the command line asks for *)

Definition update_to (upgrade_type : UpgradeType) (entry : string * Z) : string * FeatureUpdate :=
  (entry.1, {| fu_max_version_level := entry.2; fu_upgrade_type := upgrade_type |}).

Definition put_updates (upgrade_type : UpgradeType) (entries : list (string * Z))
    (updates : list (string * FeatureUpdate)) : list (string * FeatureUpdate) :=
  fold_left (λ m kv, bt_insert kv.1 kv.2 m) (map (update_to upgrade_type) entries) updates.

(** The updates to the levels of [entries]. *)
Definition planned_updates (upgrade_type : UpgradeType) (entries : list (string * Z))
    : list (string * FeatureUpdate) := bt_collect (map (update_to upgrade_type) entries).

Lemma put_updates_app ty entries more updates :
  put_updates ty (entries ++ more) updates = put_updates ty more (put_updates ty entries updates).
Proof. unfold put_updates. by rewrite map_app, fold_left_app. Qed.

Lemma put_updates_wf ty entries updates : bt_wf updates → bt_wf (put_updates ty entries updates).
Proof. apply bt_collect_from_wf. Qed.

(** Updates of distinct features are the updates that are sent. *)
Lemma elem_of_planned ty entries name update :
  NoDup entries.*1 →
  (name, update) ∈ planned_updates ty entries ↔
  (name, fu_max_version_level update) ∈ entries ∧ fu_upgrade_type update = ty.
Proof.
  intros Hnd. unfold planned_updates.
  assert ((map (update_to ty) entries).*1 = entries.*1) as Ek by (clear; by induction entries; f_equal/=).
  rewrite elem_of_bt_collect by by rewrite Ek. rewrite list_elem_of_fmap. split.
  - intros ([n l] & [= -> ->] & Hin). done.
  - intros [Hin Ht]. exists (name, fu_max_version_level update). split; [|done].
    unfold update_to. cbn. by destruct update; cbn in *; subst.
Qed.

Section Plans.
Context `{KrabkaMetadata} `{KrabkaFeatureUpdates}.

(** The levels of a release: that of the metadata and of each feature, where an
    upgrade leaves out those at level 0. *)
Definition release_entries (upgrade_type : UpgradeType) (mapping : VersionMapping) : list (string * Z) :=
  (METADATA_VERSION_FEATURE, mv_feature_level (vm_metadata_version mapping)) ::
  filter (λ entry, upgrade_type ≠ Upgrade ∨ 0 < entry.2) (vm_features mapping).

(** What [--metadata], [--release-version] and [--feature] ask for. *)
Definition asks_update (metadata release_version : option string) (features : list string)
    (upgrade_type : UpgradeType) (entries : list (string * Z)) : Prop :=
  match release_version with
  | Some release =>
      metadata = None ∧ features = [] ∧ ∃ version, resolve_release release = Ok version ∧
      entries = release_entries upgrade_type (mapping_at version release)
  | None =>
      ∃ parsed, try_map parse_name_and_level features = Ok parsed ∧ NoDup entries.*1 ∧
      match metadata with
      | Some metadata => ∃ version, resolve_release metadata = Ok version ∧
          entries = (METADATA_VERSION_FEATURE, mv_feature_level version) :: parsed
      | None => entries = parsed
      end
  end.

(** What a command asks for: the kind of the updates, their levels, and whether
    they are only to be validated. *)
Definition asks_features (command : FeaturesCommand) (upgrade_type : UpgradeType)
    (entries : list (string * Z)) (dry_run : bool) : Prop :=
  match command with
  | UpgradeCommand args =>
      upgrade_type = Upgrade ∧ dry_run = ua_dry_run args ∧
      asks_update (ua_metadata args) (ua_release_version args) (ua_feature args) upgrade_type entries
  | DowngradeCommand args =>
      upgrade_type = downgrade_type (da_unsafe_downgrade args) ∧ dry_run = da_dry_run args ∧
      asks_update (da_metadata args) (da_release_version args) (da_feature args) upgrade_type entries
  | DisableCommand args =>
      upgrade_type = downgrade_type (di_unsafe_downgrade args) ∧ dry_run = di_dry_run args ∧
      NoDup (di_feature args) ∧ entries = map (λ name, (name, 0)) (di_feature args)
  | _ => False
  end.

Definition accepted_levels (ty : UpgradeType) (entries : list (string * Z)) : Prop :=
  Forall (λ entry : string * Z, update_refused entry.2 ty = None) entries.

Lemma new_update_Ok ty level update :
  new_update level ty = Ok update ↔
  update_refused level ty = None ∧ update = {| fu_max_version_level := level; fu_upgrade_type := ty |}.
Proof.
  unfold new_update. destruct (update_refused level ty) as [[]|]; split; try done; try by intros [].
  - by intros [= <-].
  - by intros [_ ->].
Qed.

Lemma insert_update_Ok ty entry updates updates' :
  insert_update ty entry updates = Ok updates' ↔
  update_refused entry.2 ty = None ∧ updates' = put_updates ty [entry] updates.
Proof.
  unfold insert_update. destruct (new_update entry.2 ty) as [update|] eqn:E; cbn [mbind result_bind].
  - apply new_update_Ok in E as [Hr ->]. split; [by intros [= <-]|by intros [_ ->]].
  - split; [done|]. intros [Hr _]. unfold new_update in E. by rewrite Hr in E.
Qed.

Lemma release_updates_Ok ty level fs updates updates' :
  release_updates ty level fs updates = Ok updates' ↔
  let entries := filter (λ entry, ty ≠ Upgrade ∨ 0 < entry.2)
    (map (λ f, (feature_name f, default_level f level)) fs) in
  accepted_levels ty entries ∧ updates' = put_updates ty entries updates.
Proof.
  cbv zeta. revert updates. induction fs as [|f fs IH]; intros updates; cbn [release_updates map].
  { rewrite filter_nil. split; [intros [= <-]; split; [constructor|done]|by intros [_ ->]]. }
  set (entry := (feature_name f, default_level f level)).
  assert (bool_decide (ty ≠ Upgrade) || (0 <? default_level f level) =
    bool_decide (ty ≠ Upgrade ∨ 0 < entry.2)) as ->.
  { unfold entry. cbn [snd]. destruct (bool_decide_reflect (ty ≠ Upgrade ∨ 0 < default_level f level)) as [Hd|Hd].
    - apply orb_true_iff. destruct Hd; [left; by apply bool_decide_eq_true|right; lia].
    - apply orb_false_iff. split; [apply bool_decide_eq_false; tauto|lia]. }
  rewrite filter_cons. case_bool_decide as Hd.
  - rewrite decide_True by done. unfold accepted_levels. rewrite Forall_cons.
    change (entry :: ?l) with ([entry] ++ l). rewrite put_updates_app.
    destruct (insert_update ty entry updates) as [u|] eqn:E; cbn [mbind result_bind].
    + apply insert_update_Ok in E as [Hr ->]. rewrite IH. unfold accepted_levels. tauto.
    + split; [done|]. intros [[Hr _] _]. exfalso.
      assert (insert_update ty entry updates = Ok (put_updates ty [entry] updates)) as E'
        by (apply insert_update_Ok; done). congruence.
  - rewrite decide_False by done. cbn [mbind result_bind]. apply IH.
Qed.

Lemma insert_new_Ok ty entry updates updates' :
  insert_new ty entry updates = Ok updates' ↔
  update_refused entry.2 ty = None ∧ bt_contains entry.1 updates = false ∧
  updates' = put_updates ty [entry] updates.
Proof.
  unfold insert_new. destruct (insert_update ty entry updates) as [u|] eqn:E; cbn [mbind result_bind].
  - apply insert_update_Ok in E as [Hr ->]. destruct (bt_contains _ _); split; try done; try by intros (_ & ? & _).
    + by intros [= <-].
    + by intros (_ & _ & ->).
  - split; [done|]. intros (Hr & _ & _). exfalso.
    assert (insert_update ty entry updates = Ok (put_updates ty [entry] updates)) as E'
      by (apply insert_update_Ok; done). congruence.
Qed.

(** Each of the entries is put once. *)
Fixpoint insert_all (ty : UpgradeType) (entries : list (string * Z))
    (updates : list (string * FeatureUpdate)) : result string (list (string * FeatureUpdate)) :=
  match entries with
  | [] => Ok updates
  | entry :: entries => updates ← insert_new ty entry updates; insert_all ty entries updates
  end.

Lemma contains_put ty entry updates name :
  bt_wf updates →
  bt_contains name (put_updates ty [entry] updates) = true ↔
  name = entry.1 ∨ bt_contains name updates = true.
Proof.
  intros Hwf. unfold put_updates. cbn [map fold_left fst snd]. rewrite !bt_contains_true, bt_get_insert by done.
  case_decide as E; [|naive_solver]. split; [by left|]. intros _. by eexists.
Qed.

Lemma insert_all_Ok ty entries updates updates' :
  bt_wf updates →
  insert_all ty entries updates = Ok updates' ↔
  accepted_levels ty entries ∧ NoDup entries.*1 ∧
  Forall (λ entry : string * Z, bt_contains entry.1 updates = false) entries ∧
  updates' = put_updates ty entries updates.
Proof.
  revert updates. induction entries as [|entry entries IH]; intros updates Hwf; cbn [insert_all].
  { split; [intros [= <-]; split_and!; try constructor|by intros (_ & _ & _ & ->)]. }
  unfold accepted_levels. change (entry :: entries) with ([entry] ++ entries).
  rewrite put_updates_app, fmap_app, !Forall_app, !Forall_singleton. cbn [fmap list_fmap app].
  rewrite NoDup_cons. destruct (insert_new ty entry updates) as [u|] eqn:E; cbn [mbind result_bind].
  - apply insert_new_Ok in E as (Hr & Hc & ->). rewrite IH by by apply put_updates_wf.
    unfold accepted_levels. rewrite (Forall_iff (λ e : string * Z, bt_contains e.1 (put_updates ty [entry] updates) = false) entries
      (λ e : string * Z, e.1 ≠ entry.1 ∧ bt_contains e.1 updates = false)).
    2: { intros e. rewrite <-!not_true_iff_false, contains_put by done. tauto. }
    rewrite Forall_and. assert (entry.1 ∉ entries.*1 ↔ Forall (λ e : string * Z, e.1 ≠ entry.1) entries) as ->.
    { rewrite Forall_forall, list_elem_of_fmap. naive_solver. }
    tauto.
  - split; [done|]. intros ([Hr _] & _ & [Hc _] & _). exfalso.
    assert (insert_new ty entry updates = Ok (put_updates ty [entry] updates)) as E'
      by (apply insert_new_Ok; done). congruence.
Qed.

Lemma spec_updates_Ok ty specs updates updates' :
  spec_updates ty specs updates = Ok updates' ↔
  ∃ entries, try_map parse_name_and_level specs = Ok entries ∧ insert_all ty entries updates = Ok updates'.
Proof.
  revert updates. induction specs as [|spec specs IH]; intros updates; cbn [spec_updates try_map].
  { split; [intros [= <-]; by exists []|by intros (? & [= <-] & ?)]. }
  destruct (parse_name_and_level spec) as [entry|]; cbn [mbind result_bind]; [|naive_solver].
  split.
  - destruct (insert_new ty entry updates) as [u|] eqn:E; [|done]. cbn [mbind result_bind].
    intros (entries & -> & Hi)%IH. exists (entry :: entries). split; [done|]. cbn. by rewrite E.
  - intros (entries & Ht & Hi). destruct (try_map _ specs) as [es|] eqn:Es; [|done]. injection Ht as <-.
    cbn [insert_all] in Hi. destruct (insert_new ty entry updates) as [u|]; [|done]. cbn [mbind result_bind] in *.
    apply IH. by exists es.
Qed.

Lemma disable_updates_insert ty names updates :
  disable_updates ty names updates = insert_all ty (map (λ name, (name, 0)) names) updates.
Proof.
  revert updates. induction names as [|name names IH]; intros updates; [done|]. cbn.
  destruct (insert_new ty (name, 0) updates); [apply IH|done].
Qed.
End Plans.

Section Changes.
Context `{KrabkaMetadata} `{KrabkaFeatureUpdates}.

Lemma planned_put ty entries : planned_updates ty entries = put_updates ty entries [].
Proof. done. Qed.

Lemma insert_all_nil_Ok ty entries updates :
  insert_all ty entries [] = Ok updates ↔
  accepted_levels ty entries ∧ NoDup entries.*1 ∧ updates = planned_updates ty entries.
Proof.
  rewrite insert_all_Ok, planned_put by apply bt_nil_wf. split; [tauto|].
  intros (Ha & Hn & ->). split_and!; [done..| |done]. by apply Forall_true.
Qed.

(** The updates of a release. *)
Lemma release_chain_Ok ty version release updates :
  (updates ← insert_update ty (METADATA_VERSION_FEATURE, mv_feature_level version) [];
   release_updates ty (mv_feature_level version) production_features updates) = Ok updates ↔
  let entries := release_entries ty (mapping_at version release) in
  accepted_levels ty entries ∧ updates = planned_updates ty entries.
Proof.
  cbv zeta. unfold release_entries, accepted_levels. rewrite Forall_cons, planned_put.
  change (put_updates ty (?x :: ?l) []) with (put_updates ty ([x] ++ l) []). rewrite put_updates_app.
  destruct (insert_update _ _ []) as [u|e] eqn:E; cbn [mbind result_bind].
  - apply insert_update_Ok in E as [Hr ->]. rewrite release_updates_Ok. cbv zeta. unfold accepted_levels.
    cbn [mapping_at vm_metadata_version vm_features]. tauto.
  - split; [done|]. intros [[Hr _] _].
    assert (insert_update ty (METADATA_VERSION_FEATURE, mv_feature_level version) [] = Ok _) as E'
      by (by apply insert_update_Ok). congruence.
Qed.

(** The updates of [--metadata] and [--feature]. *)
Lemma metadata_chain_Ok ty version parsed updates :
  (u ← insert_update ty (METADATA_VERSION_FEATURE, mv_feature_level version) []; insert_all ty parsed u) =
    Ok updates ↔
  let entries := (METADATA_VERSION_FEATURE, mv_feature_level version) :: parsed in
  accepted_levels ty entries ∧ NoDup entries.*1 ∧ updates = planned_updates ty entries.
Proof.
  cbv zeta. rewrite <-insert_all_nil_Ok. cbn [insert_all]. unfold insert_new.
  by destruct (insert_update _ _ []).
Qed.

Definition plan_of_entries (op : FeatureOp) (metadata : option string) (ty : UpgradeType) (dry : bool)
    (entries : list (string * Z)) : FeaturesPlan :=
  {| fp_op := op; fp_notices := if is_some metadata then [METADATA_FLAG_NOTICE] else [];
     fp_updates := planned_updates ty entries; fp_dry_run := dry |}.

Lemma release_plan_Ok op release ty dry plan :
  upgrade_or_downgrade op None (Some release) [] ty dry = Ok plan ↔
  ∃ version, resolve_release release = Ok version ∧
    let entries := release_entries ty (mapping_at version release) in
    accepted_levels ty entries ∧ plan = plan_of_entries op None ty dry entries.
Proof.
  unfold upgrade_or_downgrade. cbn [is_some andb orb]. rewrite bool_decide_eq_false_2 by tauto.
  destruct (resolve_release release) as [version|] eqn:Hv; cbn [mbind result_bind]; [|naive_solver].
  pose proof (release_chain_Ok ty version release) as Hc. cbv zeta in Hc.
  split.
  - destruct (insert_update _ _ []) as [u|]; [|done]. cbn [mbind result_bind] in *.
    destruct (release_updates _ _ _ _) as [u'|]; [|done]. intros [= <-]. exists version. split; [done|].
    destruct (proj1 (Hc u') eq_refl) as [Ha ->]. done.
  - intros (? & [= <-] & Ha & ->). assert (Hc' := proj2 (Hc _) (conj Ha eq_refl)).
    destruct (insert_update _ _ []) as [u|]; [|done]. cbn [mbind result_bind] in *. by rewrite Hc'.
Qed.

Lemma metadata_plan_Ok op metadata features ty dry plan :
  upgrade_or_downgrade op (Some metadata) None features ty dry = Ok plan ↔
  ∃ version parsed, resolve_release metadata = Ok version ∧
    try_map parse_name_and_level features = Ok parsed ∧
    let entries := (METADATA_VERSION_FEATURE, mv_feature_level version) :: parsed in
    accepted_levels ty entries ∧ NoDup entries.*1 ∧ plan = plan_of_entries op (Some metadata) ty dry entries.
Proof.
  unfold upgrade_or_downgrade. cbn [is_some andb].
  destruct (resolve_release metadata) as [version|] eqn:Hv; cbn [mbind result_bind]; [|naive_solver].
  pose proof (metadata_chain_Ok ty version) as Hc. cbv zeta in Hc. split.
  - destruct (insert_update _ _ []) as [u|]; [|done]. cbn [mbind result_bind] in *.
    destruct (spec_updates ty features u) as [updates|] eqn:Es; [|done]. intros [= <-].
    apply spec_updates_Ok in Es as (parsed & Hp & Hi). apply Hc in Hi as (Ha & Hn & ->). by exists version, parsed.
  - intros (? & parsed & [= <-] & Hp & Ha & Hn & ->).
    assert (Hc' := proj2 (Hc parsed _) (conj Ha (conj Hn eq_refl))).
    destruct (insert_update _ _ []) as [u|]; [|done]. cbn [mbind result_bind] in *.
    by rewrite (proj2 (spec_updates_Ok _ _ _ _) (ex_intro _ parsed (conj Hp Hc'))).
Qed.

Lemma specs_plan_Ok op features ty dry plan :
  upgrade_or_downgrade op None None features ty dry = Ok plan ↔
  ∃ parsed, try_map parse_name_and_level features = Ok parsed ∧ accepted_levels ty parsed ∧
    NoDup parsed.*1 ∧ plan = plan_of_entries op None ty dry parsed.
Proof.
  unfold upgrade_or_downgrade. cbn [is_some andb mbind result_bind]. split.
  - destruct (spec_updates ty features []) as [updates|] eqn:Es; [|done]. intros [= <-].
    apply spec_updates_Ok in Es as (parsed & Hp & (Ha & Hn & ->)%insert_all_nil_Ok). eauto.
  - intros (parsed & Hp & Ha & Hn & ->).
    assert (spec_updates ty features [] = Ok (planned_updates ty parsed)) as ->; [|done].
    apply spec_updates_Ok. exists parsed. split; [done|]. by apply insert_all_nil_Ok.
Qed.

(** A plan to upgrade or downgrade has exactly the updates that are asked for, and
    is made wherever the client takes their levels. *)
Lemma upgrade_or_downgrade_Ok op metadata release features ty dry plan :
  upgrade_or_downgrade op metadata release features ty dry = Ok plan ↔
  ∃ entries, asks_update metadata release features ty entries ∧ accepted_levels ty entries ∧
    plan = plan_of_entries op metadata ty dry entries.
Proof.
  unfold asks_update. destruct release as [release|].
  - destruct metadata as [metadata|]; [split; [done|naive_solver]|].
    destruct features as [|spec specs]; [|split; [done|naive_solver]].
    rewrite release_plan_Ok. naive_solver.
  - destruct metadata as [metadata|]; [rewrite metadata_plan_Ok|rewrite specs_plan_Ok]; naive_solver.
Qed.

Lemma disable_Ok features ty dry plan :
  disable features ty dry = Ok plan ↔
  NoDup features ∧ accepted_levels ty (map (λ name, (name, 0)) features) ∧
  plan = {| fp_op := OpDisable; fp_notices := []; fp_dry_run := dry;
            fp_updates := planned_updates ty (map (λ name, (name, 0)) features) |}.
Proof.
  unfold disable. rewrite disable_updates_insert.
  assert ((map (λ name, (name, 0)) features).*1 = features) as Ek by (clear; by induction features; f_equal/=).
  destruct (insert_all _ _ []) as [u|] eqn:E; cbn [mbind result_bind].
  - apply insert_all_nil_Ok in E as (Ha & Hn & ->). rewrite Ek in Hn. split; [by intros [= <-]|by intros (_ & _ & ->)].
  - split; [done|]. intros (Hn & Ha & _). exfalso.
    assert (insert_all ty (map (λ name, (name, 0)) features) [] =
      Ok (planned_updates ty (map (λ name, (name, 0)) features))) as E' by (apply insert_all_nil_Ok; by rewrite Ek).
    congruence.
Qed.

(** ** Requests *)

(** An update that the registry knows and whose level it supports. *)
Definition supported_update (entry : string * FeatureUpdate) : Prop :=
  ∃ registered, feature entry.1 = Some registered ∧
    (supported_range registered).1 ≤ fu_max_version_level entry.2 ≤ (supported_range registered).2.

(** The updates with the levels that the cluster was found to have meet what they
    depend on. *)
Definition dependencies_met (updates : list (string * FeatureUpdate)) (metadata : FeatureMetadata) : Prop :=
  ∀ name update dependency level, (name, update) ∈ updates →
    (dependency, level) ∈ registry_dependencies name (fu_max_version_level update) →
    ∃ found, bt_get dependency (proposed_levels updates metadata) = Some found ∧ level ≤ found.

(** A request that updates features: the one that the command line asks for. *)
Definition rightful_features (args : FeaturesArgs) (past : list (event admin)) (c : admin_call) : Prop :=
  mutating c = true →
  ∃ ty entries, asks_features (fa_command args) ty entries false ∧
    c = UpdateFeatures (planned_updates ty entries) false ∧ entries ≠ [] ∧
    Forall supported_update (planned_updates ty entries) ∧
    Forall (λ e, changes e = false) past ∧
    ((∀ name update, (name, update) ∈ planned_updates ty entries →
        registry_dependencies name (fu_max_version_level update) = []) ∨
     ∃ metadata, (existT (DescribeFeatures None : call admin) (Ok metadata) : event admin) ∈ past ∧
       dependencies_met (planned_updates ty entries) metadata).

Lemma rightful_features_reads args past c : mutating c = false → rightful_features args past c.
Proof. unfold rightful_features. congruence. Qed.

Lemma validate_Ok plan :
  validate_plan plan = Ok tt → fp_updates plan ≠ [] ∧ Forall supported_update (fp_updates plan).
Proof.
  unfold validate_plan. case_bool_decide as Hn; [done|]. destruct (existsb _ _); [done|]. intros Hv. split; [done|].
  destruct (try_map _ _) as [us|] eqn:E; [|done]. apply try_map_Ok in E. clear Hv Hn.
  induction E as [|[name update] y l k Hx Hl IH]; constructor; [|done].
  unfold validate_update in Hx. destruct (feature name) as [f|] eqn:Hf; [|done]. cbn in Hx.
  exists f. split; [done|]. destruct (supported_range f) as [mi ma]. cbn.
  destruct (in_range _ _) eqn:Hr; [|done]. unfold in_range in Hr. cbn in Hr. bool_to_prop. done.
Qed.

Lemma unmet_dependency_None updates metadata :
  unmet_dependency updates (proposed_levels updates metadata) registry_dependencies = None →
  dependencies_met updates metadata.
Proof.
  unfold unmet_dependency. intros Hh%head_None name update dependency level Hin Hd.
  assert (unmet_of (proposed_levels updates metadata) registry_dependencies (name, update) = None) as Hu.
  { destruct (unmet_of _ _ _) as [x|] eqn:E; [|done]. exfalso.
    assert (x ∈ omap (unmet_of (proposed_levels updates metadata) registry_dependencies) updates) as Hx
      by (apply list_elem_of_omap; eauto).
    rewrite Hh in Hx. by apply elem_of_nil in Hx. }
  cbn in Hu. apply fmap_None in Hu. apply list_elem_of_In in Hd. eapply find_none in Hu; [|exact Hd].
  unfold unmet in Hu. cbn in Hu. destruct (bt_get dependency _) as [found|] eqn:E; [|done].
  exists found. split; [done|]. lia.
Qed.

Lemma no_dependencies plan :
  needs_current_levels plan = false →
  ∀ name update, (name, update) ∈ fp_updates plan →
    registry_dependencies name (fu_max_version_level update) = [].
Proof.
  unfold needs_current_levels. intros Hn name update Hin. apply not_true_iff_false in Hn.
  destruct (registry_dependencies name (fu_max_version_level update)) eqn:E; [done|]. exfalso. apply Hn.
  apply existsb_exists. exists (name, update). split; [by apply list_elem_of_In|]. by rewrite E.
Qed.

Lemma harmless_check_dependencies plan : harmless (check_dependencies plan).
Proof. unfold check_dependencies. harmless. Qed.
#[local] Hint Resolve harmless_check_dependencies : krabka.

Lemma trace_check_dependencies plan log :
  fp_dry_run plan = false → trace (check_dependencies plan) log (Done (Ok tt)) →
  (∀ name update, (name, update) ∈ fp_updates plan →
     registry_dependencies name (fu_max_version_level update) = []) ∨
  ∃ metadata, (existT (DescribeFeatures None : call admin) (Ok metadata) : event admin) ∈ log ∧
    dependencies_met (fp_updates plan) metadata.
Proof.
  unfold check_dependencies. intros ->. cbn [negb andb]. destruct (needs_current_levels plan) eqn:Hn.
  - intros (r & log' & -> & Ht). destruct r as [metadata|]; [|by destruct Ht]. cbn in Ht.
    destruct (unmet_dependency _ _ _) as [[[]]|] eqn:Hu; [by destruct Ht|].
    right. exists metadata. split; [left|]. by apply unmet_dependency_None.
  - intros _. left. by apply no_dependencies.
Qed.

Lemma update_rightful args plan ty entries :
  asks_features (fa_command args) ty entries (fp_dry_run plan) → fp_updates plan = planned_updates ty entries →
  monitored (history (Σ := admin) (rightful_features args)) [] (update_features (fa_connection args) plan)
    (on_ok (λ _ _, True)).
Proof.
  intros Hask Hup. unfold update_features.
  apply history_bind; [apply rightful_features_reads|auto with krabka|intros log1 [] [Hv ->]%trace_lift].
  apply history_bind; [apply rightful_features_reads|auto with krabka|intros log2 [] H2].
  apply history_bind; [apply rightful_features_reads|auto with krabka|intros log3 [] H3].
  apply validate_Ok in Hv as [Hne Hs].
  apply harmless_trace in H2; [|auto with krabka].
  assert (Forall (λ e, changes e = false) log3) as F3 by by apply harmless_trace in H3; [|auto with krabka].
  cbn [app]. split.
  - unfold rightful_features. cbn [mutating]. intros Hd%negb_true_iff. rewrite Hd in Hask.
    exists ty, entries. rewrite <-Hup, Hd. apply trace_check_dependencies in H3 as Hdep; [|done].
    split_and!; [done..| | |by apply Forall_app|].
    + intros ->. by rewrite Hup in Hne.
    + done.
    + destruct Hdep as [Hdep|(metadata & Hin & Hm)]; [by left|]. right. exists metadata.
      split; [|done]. set_solver.
  - intros r. cbn [monitored prog_bind await]. destruct (outcome_errors _ r); done.
Qed.
End Changes.

Section Theorems.
Context `{KrabkaMetadata} `{KrabkaFeatureUpdates}.

(** C20. What [krabka features] changes, for every cluster: under [upgrade],
    [downgrade] and [disable], and not under [--dry-run], one request, of exactly
    the features and levels that the flags ask for, with the kind of change of the
    subcommand. Each of them is a feature that the registry has, at a level that
    it supports, and what it depends on is met by the updates and the levels that
    the cluster was just found to have. *)
Theorem features_requests (args : FeaturesArgs) :
  ∀ W (world : ∀ c : admin_call, W → admin_answer c * W) (w : W) pre e post,
    events_of world (features_run args) w = pre ++ e :: post → rightful_features args pre (projT1 e).
Proof.
  intros W world w pre e post. apply (run_history (Σ := admin) world _ _ (on_ok (λ _ _, True))).
  unfold features_run. destruct (fa_command args) as [node|upgrade|downgrade|disabled|mapping|specs] eqn:Hc.
  - eapply monitored_mono; [apply history_harmless; [apply rightful_features_reads|]|by intros ? [[]| |]].
    unfold describe_features. harmless.
  - destruct (upgrade_plan upgrade) as [plan|] eqn:Hp; [|done]. cbn [lift pure mbind cmd_bind prog_bind].
    apply upgrade_or_downgrade_Ok in Hp as (entries & Ha & _ & ->).
    apply (update_rightful args _ Upgrade entries); [|done]. by rewrite Hc.
  - destruct (downgrade_plan downgrade) as [plan|] eqn:Hp; [|done]. cbn [lift pure mbind cmd_bind prog_bind].
    apply upgrade_or_downgrade_Ok in Hp as (entries & Ha & _ & ->).
    apply (update_rightful args _ (downgrade_type (da_unsafe_downgrade downgrade)) entries); [|done]. by rewrite Hc.
  - destruct (disable_plan disabled) as [plan|] eqn:Hp; [|done]. cbn [lift pure mbind cmd_bind prog_bind].
    apply disable_Ok in Hp as (Hn & _ & ->).
    eapply (update_rightful args _ (downgrade_type (di_unsafe_downgrade disabled))); [|done]. by rewrite Hc.
  - by destruct (version_mapping_run mapping) as [[]| |].
  - by destruct (feature_dependencies_run _ _).
Qed.

(** A dry run changes nothing, and its report says so. *)
Lemma update_dry_run connection plan :
  fp_dry_run plan = true → dry_run_contract (update_features connection plan).
Proof.
  intros Hd. apply dry_run_intro. unfold update_features. rewrite Hd. ro_step. ro_step.
  unfold check_dependencies. rewrite Hd. cbn [negb andb]. ro_step.
  split; [done|]. intros r. cbn [monitored prog_bind]. by destruct (outcome_errors _ r).
Qed.
End Theorems.

Section Release.
Context `{MetadataTables} `{KrabkaFeatureUpdates}.

Lemma release_entry_ok ty version release entry :
  version ∈ metadata_versions → entry ∈ release_entries ty (mapping_at version release) →
  entry.1 ∈ METADATA_VERSION_FEATURE :: KAFKA_FEATURE_ORDER ∧ i16_ok entry.2.
Proof.
  intros Hv [->|Hin]%elem_of_cons.
  - split; [left|]. by apply metadata_versions_level.
  - apply list_elem_of_filter in Hin as [_ Hin]. apply list_elem_of_fmap in Hin as (f & -> & [Hr Ho]%elem_of_production_features).
    split; [by right|]. by apply default_level_i16.
Qed.

Lemma release_entries_NoDup ty version release :
  NoDup (release_entries ty (mapping_at version release)).*1.
Proof.
  unfold release_entries. cbn [fmap list_fmap fst]. set (kept := filter _ _).
  assert (kept.*1 `sublist_of` map feature_name production_features) as Hs.
  { replace (map feature_name production_features) with (vm_features (mapping_at version release)).*1
      by (cbn; clear; by induction production_features; f_equal/=).
    apply fmap_sublist, sublist_filter. }
  constructor; [|by eapply sublist_NoDup; [apply production_features_names|]].
  intros Hin. assert (METADATA_VERSION_FEATURE ∈ map feature_name production_features) as Hm
    by by eapply sublist_subseteq.
  apply list_elem_of_fmap in Hm as (f & Hf & [_ Ho]%elem_of_production_features).
  rewrite <-Hf, metadata_version_name in Ho. unfold KAFKA_FEATURE_ORDER in Ho. by set_solver.
Qed.

(** [--release-version] is a shorthand: an upgrade or downgrade to a release is
    planned exactly where the one that names with [--feature] each of the levels
    that [version-mapping] prints for it is, and it is the same plan, save that an
    upgrade leaves out the features at level 0. *)
Theorem release_is_its_mapping op ty dry release version plan :
  resolve_release release = Ok version →
  upgrade_or_downgrade op None (Some release) [] ty dry = Ok plan ↔
  upgrade_or_downgrade op None None
    (map name_and_level (release_entries ty (mapping_at version release))) ty dry = Ok plan.
Proof.
  intros Hv. rewrite release_plan_Ok, specs_plan_Ok.
  pose proof Hv as (Hin & _)%resolve_release_spec.
  assert (try_map parse_name_and_level (map name_and_level (release_entries ty (mapping_at version release))) =
    Ok (release_entries ty (mapping_at version release))) as Hp.
  { apply try_map_Ok, Forall2_fmap_l, Forall_Forall2_diag, Forall_forall. intros [name level] He.
    apply release_entry_ok in He as [Hn Hl]; [|done]. apply parse_name_and_level_text; [|done].
    by apply production_name_graphic. }
  pose proof (release_entries_NoDup ty version release) as Hnd. split.
  - intros (? & E & Ha & ->). assert (x = version) as -> by congruence. eauto 10.
  - intros (parsed & E & Ha & _ & ->). assert (parsed = release_entries ty (mapping_at version release)) as -> by congruence.
    eauto.
Qed.
End Release.

(** ** Runs *)

(** Two levels of the metadata, and two features, of which one depends on the
    metadata. *)
#[local] Instance test_metadata : KrabkaMetadata :=
  {| feature_registry :=
       [{| feature_name := "group.version"; supported_range := (0, 1);
           registry_default_level := λ level, if 22 <=? level then 1 else 0;
           dependencies_at := λ level, if 1 <=? level then [("metadata.version", 22)] else [] |};
        {| feature_name := "metadata.version"; supported_range := (21, 22);
           registry_default_level := λ _, 21; dependencies_at := λ _, [] |}];
     feature := λ name,
       if bool_decide (name = "group.version") then
         Some {| feature_name := "group.version"; supported_range := (0, 1);
           registry_default_level := λ level, if 22 <=? level then 1 else 0;
           dependencies_at := λ level, if 1 <=? level then [("metadata.version", 22)] else [] |}
       else if bool_decide (name = "metadata.version") then
         Some {| feature_name := "metadata.version"; supported_range := (21, 22);
           registry_default_level := λ _, 21; dependencies_at := λ _, [] |}
       else None;
     from_feature_level := λ level,
       if level =? 21 then Some {| mv_feature_level := 21; mv_ivn := "3.9-IV0"; mv_short := "3.9" |}
       else if level =? 22 then Some {| mv_feature_level := 22; mv_ivn := "4.0-IV0"; mv_short := "4.0" |}
       else None;
     METADATA_VERSION_FEATURE := "metadata.version"; KRAFT_VERSION_FEATURE := "kraft.version";
     SHARE_VERSION_FEATURE := "share.version"; METADATA_VERSION_MIN := 1;
     LATEST_PRODUCTION_METADATA_VERSION := 22 |}.

#[local] Instance test_tables : MetadataTables.
Proof.
  split.
  - intros level version. cbn. destruct (Z.eqb_spec level 21), (Z.eqb_spec level 22); by intros [= <-].
  - intros name found. cbn. do 2 (case_bool_decide; [intros [= <-]; split; [done|set_solver]|]). done.
  - cbn. repeat constructor; set_solver.
  - done.
  - unfold i16_ok, in_signed. cbn. lia.
  - intros found level [->|[->|[]%elem_of_nil]%elem_of_cons]%elem_of_cons; cbn; unfold i16_ok, in_signed;
      [destruct (22 <=? level)|]; lia.
Qed.

#[local] Instance test_updates : KrabkaFeatureUpdates :=
  {| update_refused level ty :=
       if level <? 0 then Some (InvalidArgument "negative")
       else if bool_decide (ty = Upgrade) && (level =? 0) then Some (InvalidArgument "zero") else None |}.

Definition features_connection : ConnectionArgs :=
  {| bootstrap_server := ["localhost:9092"]; bootstrap_controller := []; command_config := None;
     client_id := None; request_timeout_ms := None |}.

Definition upgrade_args (release : option string) (specs : list string) : FeaturesArgs :=
  {| fa_connection := features_connection;
     fa_command := UpgradeCommand {| ua_metadata := None; ua_release_version := release;
                                     ua_feature := specs; ua_dry_run := false |} |}.

Definition upgrade_events (args : FeaturesArgs) : list (event admin) :=
  events_of obliging_world (features_run args) tt.

(** A dependency on a level that neither the cluster nor the updates have stops
    the command. *)
Example unmet_dependency_stops :
  outcome_of obliging_world (features_run (upgrade_args None ["group.version=1"])) tt =
  Done (Err (Other "Invalid update version 1 for feature group.version. group.version could not be set to 1 because it depends on metadata.version level 22")).
Proof. vm_compute. reflexivity. Qed.

Example release_runs :
  projT1 <$> last (upgrade_events (upgrade_args (Some "4.0") [])) =
  Some (UpdateFeatures
    [("group.version", {| fu_max_version_level := 1; fu_upgrade_type := Upgrade |});
     ("metadata.version", {| fu_max_version_level := 22; fu_upgrade_type := Upgrade |})] false).
Proof. vm_compute. reflexivity. Qed.

Lemma features_requests_witness :
  ∃ pre e post, upgrade_events (upgrade_args (Some "4.0") []) = pre ++ e :: post ∧ changes e = true ∧
    rightful_features (upgrade_args (Some "4.0") []) pre (projT1 e).
Proof.
  assert (∃ e, upgrade_events (upgrade_args (Some "4.0") []) !! 2%nat = Some e ∧ changes e = true)
    as (e & He & Hc) by (eexists; vm_compute; split; reflexivity).
  exists (take 2 (upgrade_events (upgrade_args (Some "4.0") []))), e,
    (drop 3 (upgrade_events (upgrade_args (Some "4.0") []))).
  pose proof (take_drop_middle (upgrade_events (upgrade_args (Some "4.0") [])) 2 e He) as Hsplit.
  split; [done|]. split; [done|].
  exact (features_requests (upgrade_args (Some "4.0") []) unit obliging_world tt _ _ _ (eq_sym Hsplit)).
Defined.

Lemma release_is_its_mapping_witness :
  ∃ version plan, resolve_release "4.0" = Ok version ∧
    upgrade_or_downgrade OpUpgrade None None
      (map name_and_level (release_entries Upgrade (mapping_at version "4.0"))) Upgrade false = Ok plan.
Proof.
  assert (∃ version, resolve_release "4.0" = Ok version) as [version Hv] by (eexists; vm_compute; reflexivity).
  assert (∃ plan, upgrade_or_downgrade OpUpgrade None (Some "4.0") [] Upgrade false = Ok plan) as [plan Hp]
    by (eexists; vm_compute; reflexivity).
  exists version, plan. split; [exact Hv|].
  exact (proj1 (release_is_its_mapping OpUpgrade Upgrade false "4.0" version plan Hv) Hp).
Defined.
