(* ===== verification/Storage.v ===== *)
(** [storage.rs]: the command [krabka storage], which reports on the log
    directories of this node without a cluster.

    The file system is the world. How [krabka_metadata] reads one record is the
    class [KrabkaRecords]; the formatter is [krabka_format], of which the class
    [KrabkaFormat] has two constants. *)

From Equations Require Import Equations.
From Stdlib Require Import Ascii.
From S2P Require Import Prelude Collections Rust Properties Json KafkaErrors Output Program Admin.
From S2P Require Import TopicDescribe FeatureCatalog.

(** A record of the metadata log, by what the command looks at. *)
Inductive MetadataRecord :=
  | V1FeatureLevel (name : string) (level : Z)
  | OtherRecord.

(** [from_kafka_record] of a record that has only the given value. *)
Class KrabkaRecords := { from_kafka_record : list Z → result string MetadataRecord }.

(** [krabka_format]: the name and the version of [meta.properties]. *)
Class KrabkaFormat := { META_PROPERTIES : string; META_PROPERTIES_VERSION : Z }.

Definition BOOTSTRAP_RECORDS : string := "bootstrap.records.bin".
Definition DEFAULT_LOG_DIR : string := "/tmp/kafka-logs".

(** ** Paths *)

(** [std::path::Component], on Unix. *)
Inductive Component := RootDir | CurDir | ParentDir | Normal (name : string).

(** The derived [Ord for Component]: the variants in order, then the names. *)
Definition component_key (c : Component) : Z * string :=
  match c with RootDir => (0, "") | CurDir => (1, "") | ParentDir => (2, "") | Normal name => (3, name) end.
Definition component_of_key (key : Z * string) : Component :=
  let '(rank, name) := key in
  if rank =? 0 then RootDir else if rank =? 1 then CurDir else if rank =? 2 then ParentDir else Normal name.

Lemma component_of_component_key c : component_of_key (component_key c) = c.
Proof. by destruct c. Qed.

#[export] Instance Component_ord : Ord Component :=
  ord_via component_key component_of_key component_of_component_key.

(** [Path::components]: empty parts do not count, nor [.] but at the start. *)
Definition component_of (part : string) : option Component :=
  if bool_decide (part = "") || bool_decide (part = ".") then None
  else Some (if bool_decide (part = "..") then ParentDir else Normal part).
Definition components (path : string) : list Component :=
  let parts := split_char "/" path in
  match path, parts with
  | String "/" _, parts => RootDir :: omap component_of parts
  | _, "." :: parts => CurDir :: omap component_of parts
  | _, parts => omap component_of parts
  end.

(** [Iterator::cmp]. *)
Fixpoint list_cmp {K} (c : K → K → comparison) (xs ys : list K) : comparison :=
  match xs, ys with
  | [], [] => Eq
  | [], _ => Lt
  | _, [] => Gt
  | x :: xs, y :: ys => then_cmp (c x y) (list_cmp c xs ys)
  end.

#[export] Program Instance list_ord `{Ord K} : Ord (list K) := {| cmp := list_cmp cmp |}.
Next Obligation.
  intros K ? xs. induction xs as [|x xs IH]; intros [|y ys]; cbn; try done. unfold then_cmp.
  destruct (cmp x y) eqn:E.
  - apply cmp_eq in E as ->. rewrite IH. naive_solver.
  - split; [done|]. intros [= -> ->]. by rewrite cmp_refl in E.
  - split; [done|]. intros [= -> ->]. by rewrite cmp_refl in E.
Qed.
Next Obligation.
  intros K ? xs. induction xs as [|x xs IH]; intros [|y ys]; cbn; try done.
  rewrite (cmp_opp x y), IH. by destruct (cmp x y).
Qed.
Next Obligation.
  intros K ? xs. induction xs as [|x xs IH]; intros [|y ys] [|z zs]; cbn; try done. unfold then_cmp.
  destruct (cmp x y) eqn:E1; [|intros _|done].
  - apply cmp_eq in E1 as ->. destruct (cmp y z); [apply IH|done..].
  - destruct (cmp y z) eqn:E2; [|intros _|done].
    + apply cmp_eq in E2 as ->. by rewrite E1.
    + by rewrite (cmp_lt_trans _ _ _ E1 E2).
Qed.

(** [Ord for Path]. *)
Definition path_cmp (a b : string) : comparison := cmp (components a) (components b).

(** The last of the equal neighbours stays. *)
Fixpoint dedup_sorted (paths : list string) : list string :=
  match paths with
  | a :: (b :: _) as rest =>
      match path_cmp a b with Eq => dedup_sorted rest | _ => a :: dedup_sorted rest end
  | paths => paths
  end.

(** [paths.collect::<BTreeSet<PathBuf>>()], in order. *)
Definition path_set (paths : list string) : list string := dedup_sorted (sort_by path_cmp paths).

(** ** The directories *)

Record InfoArgs := { ia_config : option string; ia_log_dir : list string }.

Definition config_directories (properties : Properties) : list string :=
  let log_dirs := default DEFAULT_LOG_DIR
    (match prop_get properties "log.dirs" with
     | Some dirs => Some dirs
     | None => prop_get properties "log.dir"
     end) in
  path_set (filter (λ dir, dir ≠ "") (map trim (split_char "," log_dirs)) ++
            option_list (prop_get properties "metadata.log.dir")).

(** [InfoArgs::directories]. *)
Definition info_directories (args : InfoArgs) : cmd admin (list string) :=
  match ia_config args with
  | None => pure (path_set (ia_log_dir args))
  | Some path =>
      bytes ← await (send (ReadFile path));
      bytes ← lift (map_err (λ error, "read " +:+ path +:+ ": " +:+ error) bytes);
      properties ← lift (map_err config_error_text (parse_properties (text_bytes bytes)));
      pure (config_directories properties)
  end.

(** ** Bootstrap records *)

(** [u32::from_le_bytes]. *)
Definition u32_le (a b c d : Z) : Z := a + 256 * b + 65536 * c + 16777216 * d.

Section Decode.
Context `{KrabkaRecords}.

(** The loop over the records, each after its length. *)
Equations? decode_entries (bytes : list Z) : result string (list MetadataRecord) by wf (length bytes) lt :=
  decode_entries [] := Ok [];
  decode_entries (a :: b :: c :: d :: rest) :=
    let len := Z.to_nat (u32_le a b c d) in
    if (length rest <? len)%nat then Err "truncated record body"
    else
      match from_kafka_record (take len rest) with
      | Err error => Err error
      | Ok record =>
          match decode_entries (drop len rest) with
          | Ok records => Ok (record :: records)
          | Err error => Err error
          end
      end;
  decode_entries _ := Err "truncated length prefix".
Proof. rewrite length_drop. cbn [length]. lia. Qed.

Definition decode_records (bytes : list Z) : result string (list MetadataRecord) :=
  match bytes with
  | high :: low :: bytes =>
      let version := wrap 16 (256 * high + low) in
      if bool_decide (version = 0) then decode_entries bytes
      else Err ("unsupported bootstrap records version " +:+ pretty version)
  | _ => Err "missing bootstrap records version"
  end.
End Decode.

Definition feature_level_of (record : MetadataRecord) : option (string * Z) :=
  match record with V1FeatureLevel name level => Some (name, level) | OtherRecord => None end.

Definition feature_levels `{KrabkaMetadata} (records : list MetadataRecord) : list (string * Z) :=
  let finalized := bt_collect (omap feature_level_of records) in
  bt_collect (map (λ name, (name, default 0 (bt_get name finalized)))
    (filter (λ name, name ≠ KRAFT_VERSION_FEATURE) (map feature_name feature_registry))).

(** ** What a directory holds *)

Record Formatted := {
  fm_cluster_id : string;
  fm_node_id : Z;
  fm_directory_id : option string;
  fm_features : option (list (string * Z))
}.

Inductive LogDir :=
  | Missing
  | NotADirectory
  | Unformatted
  | IsFormatted (formatted : Formatted)
  | Unreadable (message : string).

Definition loading (file error : string) : string := "Error loading " +:+ file +:+ ": " +:+ error.

Section Inspect.
Context `{KrabkaMetadata} `{KrabkaRecords} `{KrabkaFormat}.

(** The levels that the bootstrap records of a directory finalize, where it has
    any. *)
Definition bootstrap_features (path : string) (bytes : result ReadError string)
    : result string (option (list (string * Z))) :=
  match bytes with
  | Ok bytes =>
      records ← map_err (loading path) (decode_records (text_bytes bytes));
      Ok (Some (feature_levels records))
  | Err error => if re_not_found error then Ok None else Err (loading path (re_text error))
  end.

Definition formatted_of (properties : MetaProperties) (features : option (list (string * Z))) : Formatted :=
  {| fm_cluster_id := mp_cluster_id properties; fm_node_id := mp_node_id properties;
     fm_directory_id := mp_directory_id properties; fm_features := features |}.

(** [read_formatted], with its [unwrap_or_else]. *)
Definition read_formatted (path : string) : cmd admin LogDir :=
  let meta := path_join path META_PROPERTIES in
  properties ← await (send (ReadMetaProperties path));
  match properties with
  | Err error => pure (Unreadable (loading meta error))
  | Ok None => pure (Unreadable (loading meta "file not found"))
  | Ok (Some properties) =>
      let records_path := path_join path BOOTSTRAP_RECORDS in
      bytes ← await (send (ReadBytes records_path));
      pure match bootstrap_features records_path bytes with
           | Ok features => IsFormatted (formatted_of properties features)
           | Err message => Unreadable message
           end
  end.

Definition inspect (path : string) : cmd admin LogDir :=
  is_dir ← await (send (IsDir path));
  if negb is_dir then
    exists_ ← await (send (PathExists path));
    pure (if (exists_ : bool) then NotADirectory else Missing)
  else
    formatted ← await (send (PathExists (path_join path META_PROPERTIES)));
    if negb formatted then pure Unformatted
    else read_formatted path.

Fixpoint inspect_all (directories : list string) : cmd admin (list (string * LogDir)) :=
  match directories with
  | [] => pure []
  | path :: directories =>
      directory ← inspect path;
      rest ← inspect_all directories;
      pure ((path, directory) :: rest)
  end.
End Inspect.

(** ** The report *)

Definition braces (entries : list string) : string := "{" +:+ join ", " entries +:+ "}".
Definition heading (one many : string) (count : nat) : string := if (count =? 1)%nat then one else many.

(** The loop over the inspected directories: the problems, and the first that is
    formatted. *)
Definition directory_problem (first : option Formatted) (entry : string * LogDir)
    : option string * option Formatted :=
  let '(path, directory) := entry in
  match directory with
  | Missing => (Some (path +:+ " does not exist"), first)
  | NotADirectory => (Some (path +:+ " is not a directory"), first)
  | Unformatted => (Some (path +:+ " is not formatted."), first)
  | Unreadable message => (Some message, first)
  | IsFormatted formatted =>
      match first with
      | None => (None, Some formatted)
      | Some f =>
          (if bool_decide (fm_cluster_id f ≠ fm_cluster_id formatted) then
             Some "Mismatched cluster IDs between storage directories."
           else if bool_decide (fm_node_id f ≠ fm_node_id formatted) then
             Some "Mismatched node IDs between storage directories."
           else None, first)
      end
  end.

Fixpoint find_problems (inspected : list (string * LogDir)) (first : option Formatted)
    : list string * option Formatted :=
  match inspected with
  | [] => ([], first)
  | entry :: inspected =>
      let '(problem, first) := directory_problem first entry in
      let '(problems, first) := find_problems inspected first in
      (option_list problem ++ problems, first)
  end.

Definition was_found (entry : string * LogDir) : bool :=
  match entry.2 with Missing | NotADirectory => false | _ => true end.

Definition features_of (entry : string * LogDir) : option (list (string * Z)) :=
  match entry.2 with IsFormatted formatted => fm_features formatted | _ => None end.

Definition directory_json `{KrabkaFormat} (entry : string * LogDir) : Value :=
  let '(path, directory) := entry in
  match directory with
  | Missing => object_of [("path", Str path); ("status", Str "missing")]
  | NotADirectory => object_of [("path", Str path); ("status", Str "not_a_directory")]
  | Unformatted => object_of [("path", Str path); ("status", Str "unformatted")]
  | Unreadable message =>
      object_of [("path", Str path); ("status", Str "unreadable"); ("error", Str message)]
  | IsFormatted formatted =>
      object_of [("path", Str path); ("status", Str "formatted");
                 ("cluster_id", Str (fm_cluster_id formatted)); ("node_id", num (fm_node_id formatted));
                 ("directory_id", opt_str (fm_directory_id formatted));
                 ("version", num META_PROPERTIES_VERSION);
                 ("features", from_option (λ features, object_of (map (λ '(name, level), (name, num level)) features))
                                Null (fm_features formatted))]
  end.

Definition metadata_line `{KrabkaFormat} (formatted : Formatted) : string :=
  "Found metadata: " +:+ braces
    (["cluster.id=" +:+ fm_cluster_id formatted] ++
     option_list ((λ id, "directory.id=" +:+ id) <$> fm_directory_id formatted) ++
     ["node.id=" +:+ pretty (fm_node_id formatted); "version=" +:+ pretty META_PROPERTIES_VERSION]).

Definition found_lines (found : list string) : list string :=
  if bool_decide (found = []) then []
  else heading "Found log directory:" "Found log directories:" (length found) ::
       map (λ path, "  " +:+ path) found ++ [""].

Definition metadata_lines `{KrabkaFormat} (inspected : list (string * LogDir)) (first : option Formatted) : list string :=
  match first with
  | None => []
  | Some first =>
      metadata_line first ::
      option_list ((λ features, "Found features: " +:+ braces (map name_and_level features)) <$>
                   list.head (omap features_of inspected)) ++ [""]
  end.

Definition problem_lines (problems : list string) : list string :=
  if bool_decide (problems = []) then []
  else heading "Found problem:" "Found problems:" (length problems) ::
       map (λ problem, "  " +:+ problem) problems ++ [""].

(** [info], of the directories as they were inspected. *)
Definition info_report `{KrabkaFormat} (inspected : list (string * LogDir)) : CommandResult :=
  if bool_decide (inspected = []) then
    success ["No directories specified."] (object_of [("directories", Array []); ("problems", Array [])])
  else
    let '(problems, first) := find_problems inspected None in
    let found := map fst (List.filter was_found inspected) in
    Output.rows (found_lines found ++ metadata_lines inspected first ++ problem_lines problems)
      (object_of [("directories", Array (map directory_json inspected)); ("problems", strs problems)])
      (negb (bool_decide (problems = []))).

(** ** The command *)

Inductive StorageCommand (FormatArgs : Type) :=
  | StorageInfo (args : InfoArgs)
  | StorageFormat (args : FormatArgs)
  | StorageVersionMapping (args : VersionMappingArgs)
  | StorageFeatureDependencies (specs : list string)
  | StorageRandomUuid.
Arguments StorageInfo {FormatArgs} args.
Arguments StorageFormat {FormatArgs} args.
Arguments StorageVersionMapping {FormatArgs} args.
Arguments StorageFeatureDependencies {FormatArgs} specs.
Arguments StorageRandomUuid {FormatArgs}.

(** [StorageArgs::into_format]. *)
Definition into_format {FormatArgs} (command : StorageCommand FormatArgs)
    : result (StorageCommand FormatArgs) FormatArgs :=
  match command with StorageFormat args => Ok args | command => Err command end.

Section Storage.
Context `{KrabkaMetadata} `{KrabkaRecords} `{KrabkaFormat} `{KrabkaIds} {FormatArgs : Type}.

Definition random_uuid (id : Uuid) : CommandResult :=
  success [uuid_to_string id] (object_of [("uuid", Str (uuid_to_string id))]).

Definition info (directories : list string) : cmd admin CommandResult :=
  inspected ← inspect_all directories;
  pure (info_report inspected).

(** [StorageArgs::run]. *)
Definition storage_run (command : StorageCommand FormatArgs) : cmd admin CommandResult :=
  match command with
  | StorageInfo args => directories ← info_directories args; info directories
  | StorageVersionMapping args => r ← run_outcome (version_mapping_run args); lift_cmd r
  | StorageFeatureDependencies specs => lift_cmd (feature_dependencies_run specs StorageDialect)
  | StorageRandomUuid => id ← await (send RandomUuid); pure (random_uuid id)
  | StorageFormat _ => throw (Other "krabka storage format runs through krabka-format")
  end.
End Storage.

(** ** Sets of paths *)

Lemma sort_insert_sorted {A} `{Ord K} (key : A → K) x l :
  StronglySorted (λ a b, cmp (key a) (key b) ≠ Gt) l →
  StronglySorted (λ a b, cmp (key a) (key b) ≠ Gt) (sort_insert (λ a b, cmp (key a) (key b)) x l).
Proof.
  induction 1 as [|y l Hl IH Hy]; cbn; [repeat constructor|].
  assert (∀ a b c : K, cmp a b ≠ Gt → cmp b c ≠ Gt → cmp a c ≠ Gt) as Htrans.
  { intros a b c Hab Hbc. destruct (cmp a b) eqn:E1; [apply cmp_eq in E1 as ->; done| |done].
    destruct (cmp b c) eqn:E2; [apply cmp_eq in E2 as <-; by rewrite E1| |done].
    by rewrite (cmp_lt_trans _ _ _ E1 E2). }
  destruct (cmp (key x) (key y)) eqn:E.
  - constructor; [by constructor|]. constructor; [by rewrite E|].
    eapply Forall_impl; [exact Hy|]. intros b. apply Htrans. by rewrite E.
  - constructor; [by constructor|]. constructor; [by rewrite E|].
    eapply Forall_impl; [exact Hy|]. intros b. apply Htrans. by rewrite E.
  - constructor; [done|]. rewrite sort_insert_perm. constructor; [|done].
    apply cmp_gt_lt in E. by rewrite E.
Qed.

Lemma sort_by_sorted {A} `{Ord K} (key : A → K) l :
  StronglySorted (λ a b, cmp (key a) (key b) ≠ Gt) (sort_by (λ a b, cmp (key a) (key b)) l).
Proof. induction l; cbn; [constructor|]. by apply sort_insert_sorted. Qed.

Lemma dedup_sorted_cons a b l :
  dedup_sorted (a :: b :: l) =
  match path_cmp a b with Eq => dedup_sorted (b :: l) | _ => a :: dedup_sorted (b :: l) end.
Proof. done. Qed.

Lemma dedup_sorted_subset l p : p ∈ dedup_sorted l → p ∈ l.
Proof.
  induction l as [|a [|b l] IH]; [done..|]. rewrite dedup_sorted_cons. destruct (path_cmp a b).
  - intros Hp. right. by apply IH.
  - intros [->|Hp]%elem_of_cons; [left|right; by apply IH].
  - intros [->|Hp]%elem_of_cons; [left|right; by apply IH].
Qed.

Lemma dedup_sorted_all l p : p ∈ l → ∃ q, q ∈ dedup_sorted l ∧ components q = components p.
Proof.
  revert p. induction l as [|a [|b l] IH]; intros p; [by intros ?%elem_of_nil|by exists p|].
  rewrite dedup_sorted_cons. intros [->|Hp]%elem_of_cons.
  - destruct (path_cmp a b) eqn:E; [|exists a; split; [left|done]..].
    apply cmp_eq in E. destruct (IH b) as (q & Hq & Eq); [left|]. exists q. by rewrite E.
  - destruct (IH p Hp) as (q & Hq & Eq). exists q. split; [|done].
    destruct (path_cmp a b); [done|by right..].
Qed.

Lemma dedup_sorted_strict l :
  StronglySorted (λ a b, path_cmp a b ≠ Gt) l → StronglySorted (λ a b, path_cmp a b = Lt) (dedup_sorted l).
Proof.
  induction l as [|a [|b l] IH]; intros Hl; [constructor|by repeat constructor|].
  inversion_clear Hl as [|? ? Hbl Ha]. specialize (IH Hbl). rewrite dedup_sorted_cons.
  inversion_clear Ha as [|? ? Hab _]. destruct (path_cmp a b) eqn:E; [done| |done].
  constructor; [done|]. apply Forall_forall. intros q Hq%dedup_sorted_subset.
  apply elem_of_cons in Hq as [->|Hq]; [done|]. inversion_clear Hbl as [|? ? _ Hb].
  rewrite Forall_forall in Hb. specialize (Hb q Hq). unfold path_cmp in *.
  destruct (cmp (components b) (components q)) eqn:E'; [apply cmp_eq in E' as <-; done| |done].
  by eapply cmp_lt_trans.
Qed.

(** The directories that are reported on are those that were given, each once, in
    order; paths that differ only in their separators are one directory. *)
Lemma path_set_spec (paths : list string) :
  StronglySorted (λ a b, path_cmp a b = Lt) (path_set paths) ∧
  (∀ p, p ∈ path_set paths → p ∈ paths) ∧
  ∀ p, p ∈ paths → ∃ q, q ∈ path_set paths ∧ components q = components p.
Proof.
  unfold path_set. split_and!.
  - apply dedup_sorted_strict. exact (sort_by_sorted components paths).
  - intros p Hp%dedup_sorted_subset. by rewrite sort_by_perm in Hp.
  - intros p Hp. apply dedup_sorted_all. by rewrite sort_by_perm.
Qed.

(** ** The bootstrap records *)

Section Records.
Context `{KrabkaRecords}.

(** [u32::to_le_bytes]. *)
Definition le_bytes (n : Z) : list Z :=
  [n mod 256; n / 256 mod 256; n / 65536 mod 256; n / 16777216 mod 256].
Definition encode_record (payload : list Z) : list Z := le_bytes (Z.of_nat (length payload)) ++ payload.

(** The file of the given records, as the formatter writes it. *)
Definition encode_records (payloads : list (list Z)) : list Z := 0 :: 0 :: concat (map encode_record payloads).

Definition is_byte (b : Z) : Prop := 0 ≤ b < 256.

Lemma u32_le_bytes n : 0 ≤ n < 2 ^ 32 →
  u32_le (n mod 256) (n / 256 mod 256) (n / 65536 mod 256) (n / 16777216 mod 256) = n.
Proof. intros Hn. unfold u32_le. Z.div_mod_to_equations. lia. Qed.

Lemma le_bytes_u32 a b c d : is_byte a → is_byte b → is_byte c → is_byte d →
  le_bytes (u32_le a b c d) = [a; b; c; d].
Proof.
  unfold is_byte, le_bytes, u32_le. intros Ha Hb Hc Hd.
  repeat first [apply (f_equal2 cons); [Z.div_mod_to_equations; lia|] | done].
Qed.

Lemma decode_entries_encode payloads :
  Forall (λ payload : list Z, Z.of_nat (length payload) < 2 ^ 32) payloads →
  decode_entries (concat (map encode_record payloads)) = try_map from_kafka_record payloads.
Proof.
  induction 1 as [|payload payloads Hp Hps IH]; [done|]. cbn [map concat try_map]. set (rest := concat _) in *.
  unfold encode_record, le_bytes. cbn [app]. simp decode_entries. cbv zeta. rewrite u32_le_bytes by lia. rewrite Nat2Z.id.
  destruct (Nat.ltb_spec (length (payload ++ rest)) (length payload)) as [Hl|_].
  { rewrite length_app in Hl. lia. }
  rewrite take_app_length, drop_app_length, IH.
  destruct (from_kafka_record payload); [|done]. by destruct (try_map _ payloads).
Qed.

Lemma decode_entries_Ok bytes records :
  Forall is_byte bytes → decode_entries bytes = Ok records →
  ∃ payloads, Forall (λ payload : list Z, Z.of_nat (length payload) < 2 ^ 32) payloads ∧
    bytes = concat (map encode_record payloads) ∧ try_map from_kafka_record payloads = Ok records.
Proof.
  revert records. funelim (decode_entries bytes); intros records Hb Hd; simp decode_entries in Hd; try done.
  - injection Hd as <-. by exists [].
  - cbv zeta in Hd. rewrite !Forall_cons in Hb. destruct Hb as (Ha & Hb & Hc & Hdd & Hrest).
    set (len := Z.to_nat (u32_le a b c d)) in *. destruct (Nat.ltb_spec (length rest) len) as [|Hl]; [done|].
    destruct (from_kafka_record (take len rest)) as [record|] eqn:Er; [|done].
    destruct (decode_entries (drop len rest)) as [more|] eqn:Em; [|done]. injection Hd as <-.
    match goal with IH : MetadataRecord → _ |- _ =>
      destruct (IH record more (Forall_drop _ _ _ Hrest) eq_refl) as (payloads & Hps & Erest & Et) end.
    exists (take len rest :: payloads). assert (length (take len rest) = len) as Htl by (rewrite length_take; lia).
    assert (0 ≤ u32_le a b c d < 2 ^ 32) as Hu by (unfold u32_le, is_byte in *; lia).
    assert (Z.of_nat len = u32_le a b c d) as Hlen by (unfold len; lia).
    split_and!.
    + constructor; [rewrite Htl; lia|done].
    + cbn [map concat]. unfold encode_record at 1. rewrite Htl, Hlen, le_bytes_u32 by done. cbn [app].
      rewrite <-Erest, take_drop. done.
    + cbn [try_map]. rewrite Er. cbn [mbind result_bind]. by rewrite Et.
Qed.

(** [krabka storage info] takes a file of bootstrap records exactly where it is
    in the format that the formatter writes: version 0, then each record after its
    length in 32 bits; and it then reads the records in order. *)
Theorem decode_records_spec (bytes : list Z) (records : list MetadataRecord) :
  Forall is_byte bytes →
  decode_records bytes = Ok records ↔
  ∃ payloads, Forall (λ payload : list Z, Z.of_nat (length payload) < 2 ^ 32) payloads ∧
    bytes = encode_records payloads ∧ try_map from_kafka_record payloads = Ok records.
Proof.
  intros Hb. unfold decode_records, encode_records. split.
  - destruct bytes as [|high [|low bytes]]; [done..|]. cbv zeta. case_bool_decide as Hv; [|done]. intros Hd.
    rewrite !Forall_cons in Hb. destruct Hb as (Hh & Hl & Hb). unfold is_byte in Hh, Hl.
    assert (high = 0 ∧ low = 0) as [-> ->] by (unfold wrap in Hv; Z.div_mod_to_equations; lia).
    destruct (decode_entries_Ok _ _ Hb Hd) as (payloads & Hps & -> & Ht). eauto.
  - intros (payloads & Hps & -> & Ht). cbv zeta. rewrite bool_decide_eq_true_2 by done.
    by rewrite decode_entries_encode.
Qed.
End Records.

(** ** The report *)

Definition formatted_as (cluster : string) (node : Z) (entry : string * LogDir) : Prop :=
  ∃ formatted, entry.2 = IsFormatted formatted ∧ fm_cluster_id formatted = cluster ∧ fm_node_id formatted = node.

Lemma find_problems_after inspected first :
  (find_problems inspected (Some first)).1 = [] ↔
  Forall (formatted_as (fm_cluster_id first) (fm_node_id first)) inspected.
Proof.
  induction inspected as [|[path directory] inspected IH]; [done|]. cbn [find_problems].
  rewrite Forall_cons, <-IH. unfold directory_problem, formatted_as. cbn [snd].
  destruct directory as [| | |formatted|message]; cbn [fst snd];
    destruct (find_problems inspected _) as [problems f]; cbn; try naive_solver.
  repeat case_bool_decide; cbn; naive_solver.
Qed.

(** [krabka storage info] reports no problem, and exits with success, exactly
    where every directory is formatted and readable, with the cluster id and the
    node id of the first. *)
Theorem info_healthy `{KrabkaFormat} (inspected : list (string * LogDir)) :
  failed (info_report inspected) = false ↔
  ∃ cluster node, Forall (formatted_as cluster node) inspected.
Proof.
  destruct inspected as [|[path directory] inspected]; [split; [by exists "", 0|done]|].
  unfold info_report. rewrite bool_decide_eq_false_2 by done.
  assert (failed (let '(problems, first) := find_problems ((path, directory) :: inspected) None in
    Output.rows (found_lines (map fst (List.filter was_found ((path, directory) :: inspected))) ++
      metadata_lines ((path, directory) :: inspected) first ++ problem_lines problems)
      (object_of [("directories", Array (map directory_json ((path, directory) :: inspected))); ("problems", strs problems)])
      (negb (bool_decide (problems = [])))) = false ↔
    (find_problems ((path, directory) :: inspected) None).1 = []) as ->.
  { destruct (find_problems _ None) as [problems first]. cbn. rewrite negb_false_iff. apply bool_decide_eq_true. }
  cbn [find_problems]. unfold directory_problem.
  assert (∀ cluster node, Forall (formatted_as cluster node) ((path, directory) :: inspected) →
    ∃ formatted, directory = IsFormatted formatted) as Hf.
  { intros cluster node H1. inversion_clear H1 as [|? ? (f & E & _) _]. by exists f. }
  destruct directory as [| | |formatted|message]; cycle 3.
  2: by destruct (find_problems _ _); split; [done|intros (? & ? & ?%Hf); naive_solver].
  2-4: by destruct (find_problems _ _); split; [done|intros (? & ? & ?%Hf); naive_solver].
  assert ((let '(problems, first) := find_problems inspected (Some formatted) in
    (option_list None ++ problems, first)).1 = (find_problems inspected (Some formatted)).1) as ->
    by by destruct (find_problems _ _).
  rewrite find_problems_after. split.
  - intros Hall. exists (fm_cluster_id formatted), (fm_node_id formatted). constructor; [by exists formatted|done].
  - intros (cluster & node & Hall). inversion_clear Hall as [|? ? (f & E & <- & <-) ?]. cbn in E. by simplify_eq.
Qed.

(** ** Runs *)

Section ReadOnly.
Context `{KrabkaMetadata} `{KrabkaRecords} `{KrabkaFormat} `{KrabkaIds} {FormatArgs : Type}.

Lemma harmless_inspect_all directories : harmless (inspect_all directories).
Proof.
  induction directories as [|path directories IH]; cbn [inspect_all]; [done|].
  unfold inspect, read_formatted. harmless.
Qed.
#[local] Hint Resolve harmless_inspect_all : krabka.

(** No subcommand that runs here changes a cluster. *)
Lemma storage_reads (command : StorageCommand FormatArgs) : read_only_contract (storage_run command).
Proof. apply harmless_intro. unfold storage_run, info_directories, info. harmless. Qed.
End ReadOnly.

Example paths_once : path_set ["b/"; "a//x"; "b"; "./a"; "a/x/."] = ["./a"; "a/x/."; "b"].
Proof. vm_compute. reflexivity. Qed.

(** Records of one byte each, an even one for the level of a feature. *)
#[local] Instance test_records : KrabkaRecords :=
  {| from_kafka_record payload :=
       match payload with
       | [b] => Ok (if Z.even b then V1FeatureLevel "group.version" b else OtherRecord)
       | _ => Err "no record"
       end |}.

Lemma decode_records_spec_witness :
  Forall is_byte [0; 0; 1; 0; 0; 0; 2; 1; 0; 0; 0; 7] ∧
  decode_records [0; 0; 1; 0; 0; 0; 2; 1; 0; 0; 0; 7] = Ok [V1FeatureLevel "group.version" 2; OtherRecord].
Proof.
  assert (Forall is_byte [0; 0; 1; 0; 0; 0; 2; 1; 0; 0; 0; 7]) as Hb by (unfold is_byte; repeat constructor; lia).
  split; [exact Hb|].
  apply (decode_records_spec [0; 0; 1; 0; 0; 0; 2; 1; 0; 0; 0; 7] [V1FeatureLevel "group.version" 2; OtherRecord] Hb).
  exists [[2]; [7]]. split; [repeat constructor; cbn; lia|]. split; reflexivity.
Defined.

Example truncated_records :
  decode_records [0; 0; 2; 0; 0; 0; 2] = Err "truncated record body" ∧
  decode_records [0; 0; 2; 0] = Err "truncated length prefix" ∧
  decode_records [255; 255] = Err "unsupported bootstrap records version -1".
Proof. split_and!; reflexivity. Qed.

#[local] Instance test_format : KrabkaFormat :=
  {| META_PROPERTIES := "meta.properties"; META_PROPERTIES_VERSION := 1 |}.

Definition test_directory (cluster : string) (node : Z) : LogDir :=
  IsFormatted {| fm_cluster_id := cluster; fm_node_id := node; fm_directory_id := None; fm_features := None |}.

Example mismatched_nodes :
  human (info_report [("/a", test_directory "c" 1); ("/b", test_directory "c" 2); ("/d", Missing)]) =
  ["Found log directories:"; "  /a"; "  /b"; "";
   "Found metadata: {cluster.id=c, node.id=1, version=1}"; "";
   "Found problems:"; "  Mismatched node IDs between storage directories."; "  /d does not exist"; ""].
Proof. vm_compute. reflexivity. Qed.
