(* ===== verification/MetadataQuorum.v ===== *)
(** [metadata_quorum.rs]: the command [krabka metadata-quorum], which describes the
    quorum of the controllers, and adds and removes a controller.

    [checks] says whether the build checks arithmetic for overflow. *)

From Stdlib Require Import Ascii.
From S2P Require Import Connection.
From S2P Require Import Prelude Collections Rust Properties Json KafkaErrors Output Program Admin.
From S2P Require Import TopicDescribe Cluster.

(** What the command takes from its libraries: the id of zeros, how the client
    makes an endpoint of a listener or refuses it, and the upper case of a text by
    the tables of Unicode. *)
Class KrabkaQuorum := {
  uuid_zero : Uuid;
  raft_voter_endpoint : string → string → Z → result CommandError RaftVoterEndpoint;
  to_uppercase : string → string
}.

(** On ASCII the tables of Unicode are those of ASCII; an endpoint is that of its
    parts. *)
Class QuorumLaws `{KrabkaQuorum} : Prop := {
  to_uppercase_ascii s :
    all_bytes (λ c, byte_of c <? 128) s = true → to_uppercase s = to_ascii_uppercase s;
  raft_voter_endpoint_of listener host port endpoint :
    raft_voter_endpoint listener host port = Ok endpoint →
    endpoint = {| rv_listener := listener; rv_host := host; rv_port := port |}
}.

(** ** The command line *)

Record QuorumDescribeArgs := { qd_status : bool; qd_replication : bool; qd_human_readable : bool }.
Record RemoveControllerArgs := {
  rc_controller_id : Z;
  rc_controller_directory_id : string;
  rc_confirm : ConfirmArgs
}.

Inductive QuorumCommand :=
  | QuorumDescribe (args : QuorumDescribeArgs)
  | AddController (confirm : ConfirmArgs)
  | RemoveController (args : RemoveControllerArgs).

Record MetadataQuorumArgs := { mq_connection : ConnectionArgs; mq_command : QuorumCommand }.

Inductive QuorumReport := Status | Replication (human_readable : bool).

(** [report]. *)
Definition quorum_report (args : QuorumDescribeArgs) : result string QuorumReport :=
  match qd_status args, qd_replication args with
  | true, true =>
      Err "Only one of --status or --replication should be specified with describe sub-command"
  | false, true => Ok (Replication (qd_human_readable args))
  | true, false =>
      if qd_human_readable args then
        Err "The option --human-readable is only supported along with --replication"
      else Ok Status
  | false, false => Err "One of --status or --replication must be specified with describe sub-command"
  end.

(** ** [describe --replication] *)

Definition REPLICATION_HEADERS : list string :=
  ["NodeId"; "DirectoryId"; "LogEndOffset"; "Lag"; "LastFetchTimestamp"; "LastCaughtUpTimestamp"; "Status"].

(** The leader's replica, among the voters. *)
Definition leader (quorum : MetadataQuorum) : result string QuorumReplica :=
  ok_or (find (λ voter, qr_node_id voter =? mq_leader_id quorum) (mq_voters quorum)) "No value present".

Definition timestamp (value : Z) (now : option Z) (description : string) : result string string :=
  if value =? -1 then Ok "-1"
  else
    match now with
    | None => Ok (pretty value)
    | Some now =>
        if (0 <? value) && (value <=? now) then Ok (pretty (now - value) +:+ " ms ago")
        else Err ("Error while computing relative time, possible drift in system clock." +:+ newline +:+
                  "Current timestamp is " +:+ pretty now +:+ ", " +:+ description +:+ " timestamp is " +:+
                  pretty value)
    end.

(** The replicas in the order of the report, with their roles. *)
Definition replicas_in_order (quorum : MetadataQuorum) (leader : QuorumReplica)
    : list (QuorumReplica * string) :=
  (leader, "Leader") ::
  map (λ voter, (voter, "Follower"))
    (filter (λ voter, qr_node_id voter ≠ mq_leader_id quorum) (mq_voters quorum)) ++
  map (λ observer, (observer, "Observer")) (mq_observers quorum).

Section Rows.
Context `{KrabkaIds} (checks : bool).

Definition replication_row (leader_end : Z) (now : option Z) (entry : QuorumReplica * string)
    : outcome (result string (list string)) :=
  let '(replica, status) := entry in
  lag ← sub_i64 checks leader_end (qr_log_end_offset replica);
  Done (fetched ← timestamp (qr_last_fetch_timestamp replica) now "last fetch";
        caught_up ← timestamp (qr_last_caught_up_timestamp replica) now "last caught up";
        Ok [pretty (qr_node_id replica); uuid_to_string (qr_directory_id replica);
            pretty (qr_log_end_offset replica); pretty lag; fetched; caught_up; status]).

(** [collect] stops at the first error. *)
Fixpoint collect_rows (leader_end : Z) (now : option Z) (entries : list (QuorumReplica * string))
    : outcome (result string (list (list string))) :=
  match entries with
  | [] => Done (Ok [])
  | entry :: entries =>
      row ← replication_row leader_end now entry;
      match row with
      | Err error => Done (Err error)
      | Ok row =>
          rows ← collect_rows leader_end now entries;
          Done (rows ← rows; Ok (row :: rows))
      end
  end.

Definition replication_rows (quorum : MetadataQuorum) (now : option Z)
    : outcome (result string (list (list string))) :=
  match leader quorum with
  | Err error => Done (Err error)
  | Ok l => collect_rows (qr_log_end_offset l) now (replicas_in_order quorum l)
  end.
End Rows.

(** [pretty_table]: each cell padded to the widest of its column, then a tab. *)
Definition quorum_table_widths (headers : list string) (rows : list (list string)) : list nat :=
  fold_left (λ widths row, zip_with Nat.max widths (map char_count row)) rows (map char_count headers).
Definition quorum_table_line (widths : list nat) (cells : list string) : string :=
  String.concat "" (zip_with (λ cell width, pad cell width +:+ tab) cells widths).
Definition quorum_table (headers : list string) (rows : list (list string)) : list string :=
  let widths := quorum_table_widths headers rows in
  quorum_table_line widths headers :: map (quorum_table_line widths) rows.

Definition replication_json (row : list string) : Value :=
  object_of (zip ["node_id"; "directory_id"; "log_end_offset"; "lag"; "last_fetch_timestamp";
                  "last_caught_up_timestamp"; "status"] (map Str row)).

(** ** [describe --status] *)

Record VoterEndpoint := { ve_listener : string; ve_host : string; ve_port : Z }.

#[export] Instance VoterEndpoint_eq_dec : EqDecision VoterEndpoint.
Proof. solve_decision. Defined.

(** [Display for VoterEndpoint]. *)
Definition voter_endpoint_text (endpoint : VoterEndpoint) : string :=
  ve_listener endpoint +:+ "://" +:+
  (if contains_byte (λ c, (c =? ":")%char) (ve_host endpoint) then "[" +:+ ve_host endpoint +:+ "]"
   else ve_host endpoint) +:+ ":" +:+ pretty (ve_port endpoint).

Definition node_endpoints (quorum : MetadataQuorum) : list (Z * list VoterEndpoint) :=
  bt_collect (map (λ node, (qn_node_id node,
    map (λ e, {| ve_listener := rv_listener e; ve_host := rv_host e; ve_port := rv_port e |})
      (qn_endpoints node))) (mq_nodes quorum)).

(** [enumerate().reduce(...)]: the first voter with the least log end offset. *)
Definition max_lag_follower (voters : list QuorumReplica) : option (nat * QuorumReplica) :=
  match zip (seq 0 (length voters)) voters with
  | [] => None
  | first :: rest =>
      Some (fold_left (λ least voter,
        if qr_log_end_offset voter.2 <? qr_log_end_offset least.2 then voter else least) rest first)
  end.

Fixpoint leader_position (id : Z) (voters : list QuorumReplica) : option nat :=
  match voters with
  | [] => None
  | voter :: voters => if qr_node_id voter =? id then Some O else S <$> leader_position id voters
  end.

Section Status.
Context `{KrabkaIds} `{KrabkaQuorum} (checks : bool).

Definition replica_entry (nodes : list (Z * list VoterEndpoint)) (replica : QuorumReplica) : string :=
  "{" +:+ dquote +:+ "id" +:+ dquote +:+ ": " +:+ pretty (qr_node_id replica) +:+
  (if bool_decide (qr_directory_id replica = uuid_zero) then ""
   else ", " +:+ dquote +:+ "directoryId" +:+ dquote +:+ ": " +:+ dquote +:+
        uuid_to_string (qr_directory_id replica) +:+ dquote) +:+
  (match bt_get (qr_node_id replica) nodes with
   | None | Some [] => ""
   | Some endpoints =>
       ", " +:+ dquote +:+ "endpoints" +:+ dquote +:+ ": [" +:+
       join ", " (map (λ e, dquote +:+ voter_endpoint_text e +:+ dquote) endpoints) +:+ "]"
   end) +:+ "}".

Definition replica_list (replicas : list QuorumReplica) (nodes : list (Z * list VoterEndpoint)) : string :=
  "[" +:+ join ", " (map (replica_entry nodes) replicas) +:+ "]".

(** The lag in time of the voter that lags the most. *)
Definition max_follower_lag_time_ms (leader_index : option nat) (leader : QuorumReplica)
    (follower : nat * QuorumReplica) : outcome Z :=
  if bool_decide (leader_index = Some follower.1) then Done 0
  else if negb (qr_last_caught_up_timestamp leader =? -1) &&
          negb (qr_last_caught_up_timestamp follower.2 =? -1) then
    sub_i64 checks (qr_last_caught_up_timestamp leader) (qr_last_caught_up_timestamp follower.2)
  else Done (-1).

Definition quorum_status_lines (cluster_id : string) (quorum : MetadataQuorum)
    : outcome (result string (list string)) :=
  let nodes := node_endpoints quorum in
  match leader quorum, max_lag_follower (mq_voters quorum) with
  | Err error, _ => Done (Err error)
  | Ok _, None => Done (Err "No value present")
  | Ok l, Some follower =>
      lag ← sub_i64 checks (qr_log_end_offset l) (qr_log_end_offset follower.2);
      lag_time ← max_follower_lag_time_ms (leader_position (mq_leader_id quorum) (mq_voters quorum)) l follower;
      Done (Ok
        ["ClusterId:              " +:+ cluster_id;
         "LeaderId:               " +:+ pretty (mq_leader_id quorum);
         "LeaderEpoch:            " +:+ pretty (mq_leader_epoch quorum);
         "HighWatermark:          " +:+ pretty (mq_high_watermark quorum);
         "MaxFollowerLag:         " +:+ pretty lag;
         "MaxFollowerLagTimeMs:   " +:+ pretty lag_time;
         "CurrentVoters:          " +:+ replica_list (mq_voters quorum) nodes;
         "CurrentObservers:       " +:+ replica_list (mq_observers quorum) nodes])
  end.

Definition replica_json (replica : QuorumReplica) : Value :=
  object_of [("id", num (qr_node_id replica));
             ("directory_id", Str (uuid_to_string (qr_directory_id replica)));
             ("log_end_offset", num (qr_log_end_offset replica))].

Definition status_json (cluster_id : string) (quorum : MetadataQuorum) : Value :=
  object_of [("cluster_id", Str cluster_id); ("leader_id", num (mq_leader_id quorum));
             ("leader_epoch", num (mq_leader_epoch quorum));
             ("high_watermark", num (mq_high_watermark quorum));
             ("current_voters", Array (map replica_json (mq_voters quorum)));
             ("current_observers", Array (map replica_json (mq_observers quorum)))].

(** [now_ms]: the epoch where the clock is before it. *)
Definition quorum_now_ms : prog admin Z :=
  prog_bind (λ now : option Z, Halt (Done (default 0 (now ≫= try_signed 64)))) (send EpochMillis).

(** [describe]. *)
Definition describe_quorum (connection : ConnectionArgs) (args : QuorumDescribeArgs) : cmd admin CommandResult :=
  report ← lift (quorum_report args);
  match report with
  | Status =>
      connect connection "metadata-quorum";;
      id ← try_admin cluster_id;
      quorum ← try_admin (send DescribeMetadataQuorum);
      human ← run_outcome (quorum_status_lines id quorum);
      human ← lift human;
      pure (success human (status_json id quorum))
  | Replication human_readable =>
      connect connection "metadata-quorum";;
      quorum ← try_admin (send DescribeMetadataQuorum);
      now ← (if (human_readable : bool) then now ← await quorum_now_ms; pure (Some now) else pure None);
      rows ← run_outcome (replication_rows checks quorum now);
      rows ← lift rows;
      pure (success (quorum_table REPLICATION_HEADERS rows) (Array (map replication_json rows)))
  end.
End Status.

(** ** [add-controller] *)

Record NewController := {
  nc_id : Z;
  nc_directory_id : Uuid;
  nc_endpoints : list VoterEndpoint
}.

(** [s.contains(pattern)]. *)
Fixpoint contains_text (pattern s : string) : bool :=
  is_some (strip_prefix pattern s) ||
  match s with EmptyString => false | String _ s => contains_text pattern s end.

(** [s.rsplit_once(pattern)] of a pattern that does not overlap itself. *)
Fixpoint rsplit_once_text (pattern s : string) : option (string * string) :=
  match s with
  | EmptyString => None
  | String c s' =>
      match rsplit_once_text pattern s' with
      | Some (before, rest) => Some (String c before, rest)
      | None => (λ rest, ("", rest)) <$> strip_prefix pattern s
      end
  end.

Definition controller_id (properties : Properties) : result string Z :=
  value ← ok_or (prop_get properties "node.id")
    "node.id not found in configuration file. Is this a valid controller configuration file?";
  id ← ok_or (parse_i32 value) ("For input string: " +:+ dquote +:+ value +:+ dquote);
  if id <? 0 then
    Err "node.id was negative in configuration file. Is this a valid controller configuration file?"
  else if contains_text "controller" (default "" (prop_get properties "process.roles")) then Ok id
  else Err "process.roles did not contain 'controller' in configuration file. Is this a valid controller configuration file?".

Definition metadata_directory (properties : Properties) : result string string :=
  match prop_get properties "metadata.log.dir" with
  | Some directory => Ok directory
  | None =>
      match prop_get properties "log.dirs" with
      | Some directories => Ok (default "" (list.head (split_char "," directories)))
      | None => Err "Neither metadata.log.dir nor log.dirs were found. Is this a valid controller configuration file?"
      end
  end.

Definition valid_host_byte (c : ascii) : bool :=
  is_ascii_alphanumeric c || bool_decide (c ∈ ["-"; "%"; "."; "_"; ":"]%char).

Definition local_host (host : string) : string := if bool_decide (host = "") then "localhost" else host.

Section Controllers.
Context `{KrabkaIds} `{KrabkaQuorum}.

(** One entry of a list of listeners: [NAME://host:port]. *)
Definition listener_entry (entry : string) : result string VoterEndpoint :=
  let unparsable := "Unable to parse " +:+ entry +:+ " to a broker endpoint" in
  '(name, rest) ← ok_or (rsplit_once_text "://" entry) unparsable;
  '(host, port) ← ok_or (rsplit_once ":" rest) unparsable;
  let host := default host (strip_prefix "[" host) in
  let host := default host (strip_suffix "]" host) in
  let valid_port := default port (strip_prefix "-" port) in
  if negb (all_bytes valid_host_byte host) || bool_decide (valid_port = "") ||
     negb (all_bytes is_ascii_digit valid_port)
  then Err unparsable
  else
    number ← ok_or (parse_i32 port) unparsable;
    Ok {| ve_listener := to_uppercase name; ve_host := local_host host; ve_port := number |}.

Definition listener_entries (value : string) : result string (list VoterEndpoint) :=
  let value := trim value in
  if bool_decide (value = "") then Ok [] else try_map listener_entry (map trim (split_char "," value)).

(** The endpoints of both properties by name, an advertised one before another. *)
Definition listeners_by_name (properties : Properties) : result string (list (string * VoterEndpoint)) :=
  listeners ← listener_entries (default "" (prop_get properties "listeners"));
  advertised ← listener_entries (default "" (prop_get properties "advertised.listeners"));
  Ok (bt_collect (map (λ endpoint, (ve_listener endpoint, endpoint)) (listeners ++ advertised))).

Fixpoint named_endpoints (by_name : list (string * VoterEndpoint)) (names : list string)
    (endpoints : list VoterEndpoint) : result string (list VoterEndpoint) :=
  match names with
  | [] => Ok endpoints
  | name :: names =>
      if bool_decide (trim name = "") then Err "The provided listener name is null or empty string"
      else
        endpoint ← ok_or (bt_get (to_uppercase name) by_name)
          ("Cannot find information about controller listener name: " +:+ to_uppercase name);
        named_endpoints by_name names
          (if bool_decide (endpoint ∈ endpoints) then endpoints else endpoints ++ [endpoint])
  end.

Definition controller_endpoints (properties : Properties) : result string (list VoterEndpoint) :=
  by_name ← listeners_by_name properties;
  names ← ok_or (prop_get properties "controller.listener.names")
    "controller.listener.names was not found. Is this a valid controller configuration file?";
  named_endpoints by_name (split_char "," names) [].

(** The id in the text of [meta.properties]. *)
Definition directory_id_of (directory : string) (text : option string) : result string Uuid :=
  text ← ok_or text ("Unable to read meta.properties from " +:+ directory);
  properties ← map_err config_error_text (parse_properties (text_bytes text));
  id ← ok_or (prop_get properties "directory.id") ("No directory id found in " +:+ directory);
  map_err (λ error, "Unable to read directory.id as a Uuid: " +:+ error) (uuid_from_string id).

Definition metadata_directory_id (directory : string) : cmd admin Uuid :=
  text ← await (send (ReadText (path_join directory "meta.properties")));
  lift (directory_id_of directory text).

Definition new_controller (properties : Properties) : cmd admin NewController :=
  id ← lift (controller_id properties);
  directory ← lift (metadata_directory properties);
  directory_id ← metadata_directory_id directory;
  endpoints ← lift (controller_endpoints properties);
  pure {| nc_id := id; nc_directory_id := directory_id; nc_endpoints := endpoints |}.

(** [VoterEndpoint::to_raft]. *)
Definition to_raft (endpoint : VoterEndpoint) : result CommandError RaftVoterEndpoint :=
  if (0 <=? ve_port endpoint) && (ve_port endpoint <=? 65535) then
    raft_voter_endpoint (ve_listener endpoint) (ve_host endpoint) (ve_port endpoint)
  else Err (Other ("Invalid port " +:+ pretty (ve_port endpoint) +:+ " for listener " +:+ ve_listener endpoint)).

Definition added_line (controller : NewController) (dry_run : bool) : string :=
  (if dry_run then "DRY RUN of adding" else "Added") +:+ " controller " +:+ pretty (nc_id controller) +:+
  " with directory id " +:+ uuid_to_string (nc_directory_id controller) +:+ " and endpoints: " +:+
  join ", " (map voter_endpoint_text (nc_endpoints controller)).

Definition added_json (controller : NewController) : Value :=
  object_of [("controller_id", num (nc_id controller));
             ("directory_id", Str (uuid_to_string (nc_directory_id controller)));
             ("endpoints", strs (map voter_endpoint_text (nc_endpoints controller)))].

Definition add_controller (connection : ConnectionArgs) (confirm : ConfirmArgs) : cmd admin CommandResult :=
  match command_config connection with
  | None => throw (Other "You must supply the configuration file of the controller you are adding when using add-controller.")
  | Some path =>
      bytes ← await (send (ReadFile path));
      bytes ← lift (map_err (λ _, "Properties file " +:+ path +:+ " does not exists!") bytes);
      properties ← lift (map_err config_error_text (parse_properties (text_bytes bytes)));
      controller ← new_controller properties;
      if dry_run_flag confirm then
        pure (into_dry_run (success [added_line controller true] (added_json controller)))
      else
        endpoints ← lift_cmd (try_map to_raft (nc_endpoints controller));
        connect connection "metadata-quorum";;
        try_admin (send (AddRaftVoter (nc_id controller) (nc_directory_id controller) endpoints));;
        pure (success [added_line controller false] (added_json controller))
  end.

(** ** [remove-controller] *)

Definition removal (controller_id : Z) (directory_id : string) : result string (Z * Uuid) :=
  if controller_id <? 0 then Err ("Invalid negative --controller-id: " +:+ pretty controller_id)
  else
    directory_id ← map_err (λ error, "Failed to parse --controller-directory-id: " +:+ error)
      (uuid_from_string directory_id);
    Ok (controller_id, directory_id).

Definition removed_line (id : Z) (directory_id : Uuid) (dry_run : bool) : string :=
  (if dry_run then "DRY RUN of removing " else "Removed ") +:+ " KRaft controller " +:+ pretty id +:+
  " with directory id " +:+ uuid_to_string directory_id.

Definition remove_impact (id : Z) (directory_id : Uuid) : Impact :=
  {| summary := "remove KRaft controller " +:+ pretty id +:+ " from the metadata quorum";
     resources := ["controller " +:+ pretty id +:+ " with directory id " +:+ uuid_to_string directory_id] |}.

Definition remove_controller (connection : ConnectionArgs) (args : RemoveControllerArgs)
    : cmd admin CommandResult :=
  '(id, directory_id) ← lift (removal (rc_controller_id args) (rc_controller_directory_id args));
  let data := object_of [("controller_id", num id); ("directory_id", Str (uuid_to_string directory_id))] in
  if dry_run_flag (rc_confirm args) then
    pure (into_dry_run (success [removed_line id directory_id true] data))
  else
    confirm (yes_flag (rc_confirm args)) "krabka metadata-quorum remove-controller"
      (remove_impact id directory_id);;
    connect connection "metadata-quorum";;
    try_admin (send (RemoveRaftVoter id directory_id));;
    pure (success [removed_line id directory_id false] data).

(** [MetadataQuorumArgs::run]. *)
Definition quorum_run (checks : bool) (args : MetadataQuorumArgs) : cmd admin CommandResult :=
  match mq_command args with
  | QuorumDescribe describe => describe_quorum checks (mq_connection args) describe
  | AddController confirm => add_controller (mq_connection args) confirm
  | RemoveController remove => remove_controller (mq_connection args) remove
  end.
End Controllers.

(** ** Lags *)

(** What a broker sends of a replica: an offset, and a time that is -1 where it is
    not known. *)
Definition replica_ok (replica : QuorumReplica) : Prop :=
  0 ≤ qr_log_end_offset replica ≤ i64_MAX ∧ -1 ≤ qr_last_caught_up_timestamp replica ≤ i64_MAX.

Lemma sub_i64_exact checks a b : 0 ≤ a ≤ i64_MAX → 0 ≤ b ≤ i64_MAX → sub_i64 checks a b = Done (a - b).
Proof.
  intros Ha Hb. unfold sub_i64. assert (fits_signed 64 (a - b) = true) as ->; [|done].
  apply fits_signed_spec. unfold in_signed, i64_MAX in *. lia.
Qed.

Lemma least_voter rest (first : nat * QuorumReplica) :
  let least := fold_left (λ least voter,
    if qr_log_end_offset voter.2 <? qr_log_end_offset least.2 then voter else least) rest first in
  least ∈ first :: rest ∧
  Forall (λ voter, qr_log_end_offset least.2 ≤ qr_log_end_offset voter.2) (first :: rest).
Proof.
  cbv zeta. revert first. induction rest as [|voter rest IH]; intros first; cbn [fold_left].
  { split; [left|]. by repeat constructor. }
  set (next := if _ <? _ then voter else first). destruct (IH next) as [Hin Hall].
  set (least := fold_left _ rest next) in *. rewrite !Forall_cons in *. destruct Hall as [Hn Hall].
  assert (qr_log_end_offset next.2 ≤ qr_log_end_offset first.2 ∧
          qr_log_end_offset next.2 ≤ qr_log_end_offset voter.2) as [H1 H2]
    by (unfold next; case_match; lia).
  split; [|split_and!; [lia..|done]].
  apply elem_of_cons in Hin as [->|Hin]; [|set_solver]. unfold next. case_match; set_solver.
Qed.

Lemma max_lag_follower_spec voters follower :
  max_lag_follower voters = Some follower →
  voters !! follower.1 = Some follower.2 ∧
  Forall (λ voter, qr_log_end_offset follower.2 ≤ qr_log_end_offset voter) voters.
Proof.
  unfold max_lag_follower. destruct (zip (seq 0 (length voters)) voters) as [|first rest] eqn:E; [done|].
  intros [= <-]. destruct (least_voter rest first) as [Hin Hall]. rewrite <-E in Hin, Hall.
  set (least := fold_left _ rest first) in *. split.
  - apply list_elem_of_lookup in Hin as [i Hi]. rewrite (surjective_pairing least) in Hi.
    apply lookup_zip_Some in Hi as [Hs Hv].
    apply lookup_seq in Hs as [-> _]. done.
  - apply Forall_forall. intros voter [i Hi]%list_elem_of_lookup. rewrite Forall_forall in Hall.
    apply (Hall (i, voter)). apply list_elem_of_lookup. exists i. apply lookup_zip_Some. split; [|done].
    apply lookup_seq. apply lookup_lt_Some in Hi. lia.
Qed.

Lemma max_lag_follower_total voters : voters ≠ [] → ∃ follower, max_lag_follower voters = Some follower.
Proof. destruct voters; [done|]. intros _. unfold max_lag_follower. cbn. by eexists. Qed.

Lemma leader_Ok quorum l :
  leader quorum = Ok l → l ∈ mq_voters quorum ∧ qr_node_id l = mq_leader_id quorum.
Proof.
  unfold leader. destruct (find _ _) as [v|] eqn:E; [|done]. intros [= <-].
  apply find_some in E as [Hin E]. apply list_elem_of_In in Hin. split; [done|lia].
Qed.

(** The position of the leader is that of the voter that is found. *)
Lemma leader_position_find id voters i :
  leader_position id voters = Some i → find (λ voter, qr_node_id voter =? id) voters = voters !! i.
Proof.
  revert i. induction voters as [|voter voters IH]; intros i; [done|]. cbn.
  destruct (qr_node_id voter =? id); [by intros [= <-]|].
  intros (j & Hj & ->)%fmap_Some. by apply IH.
Qed.

Section Reports.
Context `{KrabkaIds} `{KrabkaQuorum} (checks : bool).

(** [describe --status] of a quorum whose leader is one of its voters reports,
    without overflow, as the greatest lag the distance from the leader's end of the
    log to that of a voter that none is behind; and as the time of that lag the
    distance of the times at which both had caught up, 0 for the leader itself and
    -1 where one of the times is not known. *)
Theorem status_max_lag (cluster : string) (quorum : MetadataQuorum) (l : QuorumReplica) :
  Forall replica_ok (mq_voters quorum) → leader quorum = Ok l →
  ∃ lines voter ms, quorum_status_lines checks cluster quorum = Done (Ok lines) ∧
    voter ∈ mq_voters quorum ∧
    Forall (λ other, qr_log_end_offset voter ≤ qr_log_end_offset other) (mq_voters quorum) ∧
    "MaxFollowerLag:         " +:+ pretty (qr_log_end_offset l - qr_log_end_offset voter) ∈ lines ∧
    "MaxFollowerLagTimeMs:   " +:+ pretty ms ∈ lines ∧
    (voter = l ∧ ms = 0 ∨
     qr_last_caught_up_timestamp l ≠ -1 ∧ qr_last_caught_up_timestamp voter ≠ -1 ∧
       ms = qr_last_caught_up_timestamp l - qr_last_caught_up_timestamp voter ∨
     (qr_last_caught_up_timestamp l = -1 ∨ qr_last_caught_up_timestamp voter = -1) ∧ ms = -1).
Proof.
  intros Hok Hl. unfold quorum_status_lines. rewrite Hl. pose proof Hl as [Hin _]%leader_Ok.
  destruct (max_lag_follower_total (mq_voters quorum)) as [[i voter] Hf];
    [by intros E; rewrite E in Hin; apply elem_of_nil in Hin|].
  rewrite Hf. apply max_lag_follower_spec in Hf as [Hv Hleast]. cbn [fst snd] in Hv, Hleast |- *.
  pose proof Hv as Hvin%list_elem_of_lookup_2. rewrite Forall_forall in Hok.
  destruct (Hok l Hin) as [Ho Ht], (Hok voter Hvin) as [Ho' Ht'].
  rewrite sub_i64_exact by done. cbn [mbind outcome_bind].
  assert (∃ ms, max_follower_lag_time_ms checks (leader_position (mq_leader_id quorum) (mq_voters quorum)) l
    (i, voter) = Done ms ∧
    (voter = l ∧ ms = 0 ∨
     qr_last_caught_up_timestamp l ≠ -1 ∧ qr_last_caught_up_timestamp voter ≠ -1 ∧
       ms = qr_last_caught_up_timestamp l - qr_last_caught_up_timestamp voter ∨
     (qr_last_caught_up_timestamp l = -1 ∨ qr_last_caught_up_timestamp voter = -1) ∧ ms = -1)) as (ms & -> & Hms).
  { unfold max_follower_lag_time_ms. cbn [fst snd]. case_bool_decide as Hp.
    - exists 0. split; [done|]. left. split; [|done]. unfold leader in Hl.
      rewrite (leader_position_find _ _ _ Hp), Hv in Hl. by injection Hl.
    - destruct (negb _ && negb _) eqn:E.
      + bool_to_prop. rewrite sub_i64_exact by lia. eexists. split; [done|]. right; left. done.
      + exists (-1). split; [done|]. right; right. split; [|done].
        apply andb_false_iff in E as [E|E]; apply negb_false_iff, Z.eqb_eq in E; auto. }
  cbn [mbind outcome_bind]. eexists _, voter, ms. split; [reflexivity|]. split_and!; [done..| | |done]; set_solver.
Qed.

Lemma replicas_in_order_perm quorum l :
  leader quorum = Ok l → NoDup (map qr_node_id (mq_voters quorum)) →
  map fst (replicas_in_order quorum l) ≡ₚ mq_voters quorum ++ mq_observers quorum.
Proof.
  intros Hl Hnd. unfold replicas_in_order. cbn [map fst]. rewrite map_app, !map_map. cbn [fst]. rewrite !map_id.
  rewrite app_comm_cons. apply Permutation_app_tail. apply leader_Ok in Hl as [Hin Hid].
  induction (mq_voters quorum) as [|voter voters IH]; [by apply elem_of_nil in Hin|].
  cbn [map] in Hnd. apply NoDup_cons in Hnd as [Hnin Hnd]. rewrite filter_cons.
  apply elem_of_cons in Hin as [->|Hin].
  - rewrite decide_False by lia. f_equiv. rewrite filter_keep; [done|].
    intros v Hv E. apply Hnin. apply list_elem_of_fmap. exists v. split; [congruence|done].
  - rewrite decide_True; [|intros E; apply Hnin, list_elem_of_fmap; exists l; split; [congruence|done]].
    rewrite Permutation_swap. by rewrite (IH Hin Hnd).
Qed.
End Reports.

(** ** Listeners *)

(** The name of a listener in upper case, and a host and a port as they are
    printed. *)
Definition listener_name_byte (c : ascii) : bool :=
  ((65 <=? byte_of c) && (byte_of c <=? 90)) || is_ascii_digit c || (c =? "_")%char.
Definition endpoint_ok (endpoint : VoterEndpoint) : Prop :=
  all_bytes listener_name_byte (ve_listener endpoint) = true ∧
  all_bytes valid_host_byte (ve_host endpoint) = true ∧ ve_host endpoint ≠ "" ∧
  i32_ok (ve_port endpoint).

Lemma rsplit_once_text_absent pattern s :
  contains_text pattern s = false → rsplit_once_text pattern s = None.
Proof.
  induction s as [|c s IH]; [done|]. cbn [contains_text rsplit_once_text]. intros [Hp Hs]%orb_false_iff.
  rewrite IH by done. by destruct (strip_prefix pattern (String c s)).
Qed.

Lemma rsplit_once_text_app pattern a b :
  pattern ≠ "" → contains_text pattern b = false →
  (∀ x y, pattern = x +:+ y → x ≠ "" → y ≠ "" → contains_text pattern (y +:+ b) = false) →
  rsplit_once_text pattern (a +:+ pattern +:+ b) = Some (a, b).
Proof.
  intros Hne Hb Hy. induction a as [|c a IH].
  - change ("" +:+ ?s) with s. destruct pattern as [|c pattern]; [done|]. rewrite str_app_cons.
    cbn [rsplit_once_text]. rewrite rsplit_once_text_absent.
    + rewrite <-str_app_cons, strip_prefix_app. done.
    + destruct pattern as [|d pattern]; [done|]. by apply (Hy (String c "") (String d pattern)).
  - rewrite str_app_cons. cbn [rsplit_once_text]. by rewrite IH.
Qed.

Lemma contains_scheme_absent s :
  all_bytes (λ c, negb (c =? "/")%char) s = true → contains_text "://" s = false.
Proof.
  induction s as [|c s IH]; [done|]. intros [Hc Hs]%andb_true_iff. cbn [contains_text].
  rewrite IH by done. rewrite orb_false_r. cbn [strip_prefix].
  destruct (":" =? c)%char; [|done]. destruct s as [|d s]; [done|].
  cbn in Hs. apply andb_true_iff in Hs as [Hd%negb_true_iff _]. rewrite Ascii.eqb_sym, Hd. done.
Qed.

Lemma rsplit_scheme a b :
  all_bytes (λ c, negb (c =? "/")%char) b = true →
  rsplit_once_text "://" (a +:+ "://" +:+ b) = Some (a, b).
Proof.
  intros Hb. apply rsplit_once_text_app; [done|by apply contains_scheme_absent|].
  assert (contains_text "://" b = false) as Hn by by apply contains_scheme_absent.
  intros x y E Hx Hy. destruct x as [|x1 [|x2 [|x3 x]]]; [done| | |]; rewrite ?str_app_cons in E;
    change ("" +:+ y) with y in E.
  - injection E as <- <-. cbn [contains_text]. change ("//" +:+ b) with (String "/" (String "/" b)). cbn. exact Hn.
  - injection E as <- <- <-. change ("/" +:+ b) with (String "/" b). cbn. exact Hn.
  - injection E as _ _ _ E. destruct x, y; done.
Qed.

Section RoundTrip.
Context `{QuorumLaws}.

Lemma uppercase_listener_name s : all_bytes listener_name_byte s = true → to_uppercase s = s.
Proof.
  intros Hs. rewrite to_uppercase_ascii.
  - unfold to_ascii_uppercase. induction s as [|c s IH]; [done|]. cbn in *.
    apply andb_true_iff in Hs as [Hc Hs]. rewrite IH by done. f_equal. unfold to_upper, listener_name_byte, is_ascii_digit in *.
    destruct (Ascii.eqb_spec c "_") as [->|_]; [done|]. case_match; [|done]. bool_to_prop. lia.
  - eapply all_bytes_impl; [|exact Hs]. intros c. unfold listener_name_byte, is_ascii_digit.
    destruct (Ascii.eqb_spec c "_") as [->|_]; [done|]. lia.
Qed.

(** The host of an endpoint as it is printed. *)
Definition host_text (host : string) : string :=
  if contains_byte (λ c, (c =? ":")%char) host then "[" +:+ host +:+ "]" else host.

Lemma valid_host_without host c :
  valid_host_byte c = false → all_bytes valid_host_byte host = true →
  all_bytes (λ d, negb (d =? c)%char) host = true.
Proof.
  intros Hc Hh. eapply all_bytes_impl; [|exact Hh]. intros d Hd.
  destruct (Ascii.eqb_spec d c) as [->|]; [congruence|done].
Qed.

Lemma host_text_read host :
  all_bytes valid_host_byte host = true →
  let bare := default (host_text host) (strip_prefix "[" (host_text host)) in
  default bare (strip_suffix "]" bare) = host.
Proof.
  intros Hh. cbv zeta. unfold host_text. case_match.
  - change ("[" +:+ host +:+ "]") with (String "[" (host +:+ "]")). cbn [strip_prefix].
    rewrite Ascii.eqb_refl. unfold id. cbn [from_option]. by rewrite strip_suffix_snoc.
  - rewrite strip_prefix_absent by (by apply valid_host_without). cbn [from_option id].
    by rewrite strip_suffix_absent by (by apply valid_host_without).
Qed.

Lemma host_text_bytes host c :
  valid_host_byte c = false → c ≠ "["%char → c ≠ "]"%char → all_bytes valid_host_byte host = true →
  all_bytes (λ d, negb (d =? c)%char) (host_text host) = true.
Proof.
  intros Hc H1 H2 Hh. unfold host_text. case_match; [|by apply valid_host_without].
  rewrite !all_bytes_app, (valid_host_without host c) by done. cbn [all_bytes].
  rewrite (proj2 (Ascii.eqb_neq "[" c)), (proj2 (Ascii.eqb_neq "]" c)) by congruence. done.
Qed.

Lemma port_text (port : Z) :
  let digits := default (pretty port) (strip_prefix "-" (pretty port)) in
  digits ≠ "" ∧ all_bytes is_ascii_digit digits = true.
Proof.
  cbv zeta. pose proof (signed_value_pretty port) as Hs. unfold signed_value in Hs.
  assert (∀ s v, unsigned_value s = Some v → s ≠ "" ∧ all_bytes is_ascii_digit s = true) as Hu.
  { intros s v E. destruct s as [|c s]; [done|]. split; [done|]. by eapply digits_value_digits. }
  destruct (pretty port) as [|c s] eqn:E; [done|]. cbn [strip_prefix].
  destruct (Ascii.eqb_spec "-" c) as [<-|Hc].
  - cbn [from_option id]. apply fmap_Some in Hs as (v & Hv & _). by eapply Hu.
  - cbn [from_option id]. destruct (Ascii.eqb_spec c "+") as [->|Hp].
    + exfalso. pose proof (pretty_bytes port) as Hb. rewrite E in Hb. done.
    + assert (unsigned_value (String c s) = Some port) as Hv; [|by eapply Hu].
      destruct c as [[] [] [] [] [] [] [] []]; done.
Qed.

(** A listener of a controller's configuration is read as it is reported: the
    entry [NAME://host:port] that an endpoint prints reads back as that endpoint,
    an IPv6 address in brackets too. *)
Theorem listener_round_trip (endpoint : VoterEndpoint) :
  endpoint_ok endpoint → listener_entry (voter_endpoint_text endpoint) = Ok endpoint.
Proof.
  intros (Hn & Hh & Hne & Hp). unfold listener_entry, voter_endpoint_text. fold (host_text (ve_host endpoint)).
  destruct (port_text (ve_port endpoint)) as [Hd Hdd].
  assert (all_bytes (λ c, negb (c =? "/")%char && negb (c =? ":")%char) (pretty (ve_port endpoint)) = true) as Hport.
  { eapply all_bytes_impl; [|apply pretty_bytes]. intros c. unfold is_ascii_digit.
    destruct (Ascii.eqb_spec c "/") as [->|_]; [done|]. by destruct (Ascii.eqb_spec c ":") as [->|_]. }
  rewrite rsplit_scheme.
  - cbn [ok_or mbind result_bind]. rewrite str_app_sep, rsplit_once_app.
    + cbn [ok_or mbind result_bind]. rewrite host_text_read by done. rewrite Hh.
      rewrite bool_decide_eq_false_2 by done. rewrite Hdd. cbn [negb orb].
      unfold parse_i32. rewrite parse_signed_pretty by done. cbn [ok_or mbind result_bind].
      rewrite uppercase_listener_name by done. unfold local_host. rewrite bool_decide_eq_false_2 by done.
      by destruct endpoint.
    + eapply all_bytes_impl; [|exact Hport]. intros c. cbv beta. by rewrite andb_true_iff; intros [].
  - rewrite !all_bytes_app. rewrite host_text_bytes by done. cbn.
    eapply all_bytes_impl; [|exact Hport]. intros c. cbv beta. by rewrite andb_true_iff; intros [].
Qed.
End RoundTrip.

(** ** Requests *)

Section Changes.
Context `{KrabkaIds} `{KrabkaQuorum} (checks : bool) (args : MetadataQuorumArgs).

(** What the files that were read say of the controller to add. *)
Definition controller_of (past : list (event admin)) (id : Z) (directory_id : Uuid)
    (endpoints : list RaftVoterEndpoint) : Prop :=
  ∃ path text properties directory meta es,
    command_config (mq_connection args) = Some path ∧
    (existT (ReadFile path : call admin) (Ok text) : event admin) ∈ past ∧
    parse_properties (text_bytes text) = Ok properties ∧
    controller_id properties = Ok id ∧ metadata_directory properties = Ok directory ∧
    (existT (ReadText (path_join directory "meta.properties") : call admin) meta : event admin) ∈ past ∧
    directory_id_of directory meta = Ok directory_id ∧
    controller_endpoints properties = Ok es ∧ try_map to_raft es = Ok endpoints.

(** A request that changes the quorum. *)
Definition rightful_quorum (past : list (event admin)) (c : admin_call) : Prop :=
  match c with
  | AddRaftVoter id directory_id endpoints =>
      (∃ confirm, mq_command args = AddController confirm ∧ dry_run_flag confirm = false) ∧
      controller_of past id directory_id endpoints ∧ Forall (λ e, changes e = false) past
  | RemoveRaftVoter id directory_id =>
      ∃ remove, mq_command args = RemoveController remove ∧ dry_run_flag (rc_confirm remove) = false ∧
        removal (rc_controller_id remove) (rc_controller_directory_id remove) = Ok (id, directory_id) ∧
        Forall (λ e, changes e = false) past ∧
        (yes_flag (rc_confirm remove) = true ∨
         (existT (AskConfirm "krabka metadata-quorum remove-controller" (remove_impact id directory_id)
            : call admin) (Ok tt) : event admin) ∈ past)
  | c => mutating c = false
  end.

Lemma rightful_quorum_reads past c : mutating c = false → rightful_quorum past c.
Proof. by destruct c. Qed.

Lemma harmless_metadata_directory_id directory : harmless (metadata_directory_id directory).
Proof. unfold metadata_directory_id. harmless. Qed.
#[local] Hint Resolve harmless_metadata_directory_id : krabka.

Lemma harmless_new_controller properties : harmless (new_controller properties).
Proof. unfold new_controller. harmless. Qed.
#[local] Hint Resolve harmless_new_controller : krabka.

Lemma trace_sent c log (a : admin_answer c) :
  trace (await (send c)) log (Done (Ok a)) → log = [existT (c : call admin) a : event admin].
Proof. intros (r & log' & -> & -> & E). by simplify_eq. Qed.

Lemma trace_new_controller properties log controller :
  trace (new_controller properties) log (Done (Ok controller)) →
  controller_id properties = Ok (nc_id controller) ∧
  ∃ directory meta, metadata_directory properties = Ok directory ∧
    (existT (ReadText (path_join directory "meta.properties") : call admin) meta : event admin) ∈ log ∧
    directory_id_of directory meta = Ok (nc_directory_id controller) ∧
    controller_endpoints properties = Ok (nc_endpoints controller).
Proof.
  unfold new_controller, metadata_directory_id.
  intros (id & l1 & l2 & -> & [Hid ->]%trace_lift & Ht)%trace_ok_bind_inv.
  apply trace_ok_bind_inv in Ht as (directory & l3 & l4 & -> & [Hd ->]%trace_lift & Ht).
  apply trace_ok_bind_inv in Ht as (dir_id & l5 & l6 & -> & Hm & Ht).
  apply trace_ok_bind_inv in Hm as (meta & l7 & l8 & -> & ->%trace_sent & [Hdi ->]%trace_lift).
  apply trace_ok_bind_inv in Ht as (es & l9 & l10 & -> & [He ->]%trace_lift & [-> E]). simplify_eq/=.
  split; [done|]. exists directory, meta. split_and!; [done|set_solver|done..].
Qed.

Lemma add_rightful confirm :
  mq_command args = AddController confirm →
  monitored (history (Σ := admin) rightful_quorum) [] (add_controller (mq_connection args) confirm)
    (on_ok (λ _ _, True)).
Proof.
  intros Hc. unfold add_controller. destruct (command_config (mq_connection args)) as [path|] eqn:Hp; [|done].
  apply history_bind; [apply rightful_quorum_reads|auto with krabka|intros log1 read ->%trace_sent].
  apply history_bind; [apply rightful_quorum_reads|auto with krabka|intros log2 text [Ht ->]%trace_lift].
  apply history_bind; [apply rightful_quorum_reads|auto with krabka|intros log3 properties [Hprops ->]%trace_lift].
  apply history_bind; [apply rightful_quorum_reads|auto with krabka|intros log4 controller H4].
  destruct (dry_run_flag confirm) eqn:Hd; [done|].
  apply history_bind; [apply rightful_quorum_reads|auto with krabka|intros log5 endpoints [-> [= He]]].
  apply history_bind; [apply rightful_quorum_reads|auto with krabka|intros log6 [] H6].
  apply harmless_trace in H4 as F4; [|auto with krabka]. apply harmless_trace in H6; [|auto with krabka].
  apply trace_new_controller in H4 as (Hid & directory & meta & Hdir & Hmeta & Hdi & Hes).
  destruct read as [text'|]; [|done]. injection Ht as ->.
  destruct (parse_properties (text_bytes text)) as [properties'|] eqn:Hparse; [|done]. injection Hprops as ->.
  rewrite !app_nil_r. cbn [app]. split; [|by intros [[]|]].
  split; [by exists confirm|]. split.
  - exists path, text, properties, directory, meta, (nc_endpoints controller).
    split_and!; [done|set_solver|done..|set_solver|done|done|done].
  - rewrite !Forall_cons, !Forall_app. done.
Qed.

Lemma remove_rightful remove :
  mq_command args = RemoveController remove →
  monitored (history (Σ := admin) rightful_quorum) [] (remove_controller (mq_connection args) remove)
    (on_ok (λ _ _, True)).
Proof.
  intros Hc. unfold remove_controller.
  apply history_bind; [apply rightful_quorum_reads|auto with krabka|intros log1 [id directory] [Hr ->]%trace_lift].
  destruct (dry_run_flag (rc_confirm remove)) eqn:Hd; [done|].
  apply history_bind; [apply rightful_quorum_reads|auto with krabka|intros log2 [] H2].
  apply history_bind; [apply rightful_quorum_reads|auto with krabka|intros log3 [] H3].
  apply harmless_trace in H2 as F2; [|auto with krabka]. apply harmless_trace in H3; [|auto with krabka].
  cbn [app]. split; [|by intros [[]|]].
  exists remove. split_and!; [done..|by apply Forall_app|].
  apply trace_confirm in H2 as [Hy| ->]; [by left|]. right. set_solver.
Qed.

(** C21. What [krabka metadata-quorum] changes, for every cluster and every file
    system: at most one controller. [add-controller] adds the one whose id, roles
    and endpoints are in the configuration file, with the id of its metadata
    directory as found there; [remove-controller] removes the one that is named,
    after a prompt that names it was accepted or under [--yes]; neither under
    [--dry-run]. *)
Theorem quorum_requests :
  ∀ W (world : ∀ c : admin_call, W → admin_answer c * W) (w : W) pre e post,
    events_of world (quorum_run checks args) w = pre ++ e :: post → rightful_quorum pre (projT1 e).
Proof.
  intros W world w pre e post. apply (run_history (Σ := admin) world _ _ (on_ok (λ _ _, True))).
  unfold quorum_run. destruct (mq_command args) as [describe|confirm|remove] eqn:Hc.
  - eapply monitored_mono; [apply history_harmless; [apply rightful_quorum_reads|]|by intros ? [[]| |]].
    unfold describe_quorum, cluster_id, quorum_now_ms. harmless.
  - by apply add_rightful.
  - by apply remove_rightful.
Qed.
End Changes.

(** ** Runs *)

#[local] Instance test_ids : KrabkaIds :=
  {| uuid_to_string id := id; uuid_from_string text := if bool_decide (text = "") then Err "empty" else Ok text |}.

#[local] Instance test_quorum : KrabkaQuorum :=
  {| uuid_zero := "0";
     raft_voter_endpoint listener host port :=
       Ok {| rv_listener := listener; rv_host := host; rv_port := port |};
     to_uppercase := to_ascii_uppercase |}.

#[local] Instance test_laws : QuorumLaws.
Proof. split; [done|]. by intros ???? [= <-]. Qed.

Definition quorum_connection : ConnectionArgs :=
  {| bootstrap_server := ["localhost:9092"]; bootstrap_controller := []; command_config := Some "c.properties";
     client_id := None; request_timeout_ms := None |}.

(** A file system with the configuration of one controller. *)
Definition controller_world (c : admin_call) (w : unit) : admin_answer c * unit :=
  match c return admin_answer c * unit with
  | ReadFile _ => (Ok (join newline ["node.id=4"; "process.roles=broker,controller"; "metadata.log.dir=/data";
                                     "listeners=ctl://[::1]:9093"; "controller.listener.names=CTL"]), w)
  | ReadText path =>
      (if bool_decide (path = "/data/meta.properties") then Some "directory.id=D" else None, w)
  | c => obliging_world c w
  end.

Definition add_args : MetadataQuorumArgs :=
  {| mq_connection := quorum_connection;
     mq_command := AddController {| dry_run_flag := false; yes_flag := false |} |}.

(** The controller is added without a prompt. *)
Example add_controller_runs :
  map (λ e : event admin, projT1 e) (events_of controller_world (quorum_run true add_args) tt) =
  [ReadFile "c.properties"; ReadText "/data/meta.properties"; Connect quorum_connection "metadata-quorum";
   AddRaftVoter 4 "D" [{| rv_listener := "CTL"; rv_host := "::1"; rv_port := 9093 |}]].
Proof. vm_compute. reflexivity. Qed.

Lemma quorum_requests_witness :
  ∃ pre e post, events_of controller_world (quorum_run true add_args) tt = pre ++ e :: post ∧
    changes e = true ∧ rightful_quorum add_args pre (projT1 e).
Proof.
  set (events := events_of controller_world (quorum_run true add_args) tt).
  assert (∃ e, events !! 3%nat = Some e ∧ changes e = true) as (e & He & Hc)
    by (eexists; vm_compute; split; reflexivity).
  exists (take 3 events), e, (drop 4 events). pose proof (take_drop_middle events 3 e He) as Hsplit.
  split; [done|]. split; [done|].
  exact (quorum_requests true add_args unit controller_world tt _ _ _ (eq_sym Hsplit)).
Defined.

Lemma listener_round_trip_witness :
  let endpoint := {| ve_listener := "CONTROLLER"; ve_host := "::1"; ve_port := 9093 |} in
  endpoint_ok endpoint ∧ listener_entry "CONTROLLER://[::1]:9093" = Ok endpoint.
Proof.
  assert (endpoint_ok {| ve_listener := "CONTROLLER"; ve_host := "::1"; ve_port := 9093 |}) as Hok.
  { split_and!; [reflexivity..|discriminate|unfold i32_ok, in_signed; cbn; lia]. }
  split; [exact Hok|]. exact (listener_round_trip {| ve_listener := "CONTROLLER"; ve_host := "::1"; ve_port := 9093 |} Hok).
Defined.

Definition test_replica (id end_offset caught_up : Z) : QuorumReplica :=
  {| qr_node_id := id; qr_directory_id := "D"; qr_log_end_offset := end_offset;
     qr_last_fetch_timestamp := 5; qr_last_caught_up_timestamp := caught_up |}.

Definition quorum_of (voters : list QuorumReplica) : MetadataQuorum :=
  {| mq_leader_id := 1; mq_leader_epoch := 2; mq_high_watermark := 9; mq_voters := voters;
     mq_observers := []; mq_nodes := [] |}.

Lemma status_max_lag_witness :
  let voters := [test_replica 2 7 40; test_replica 1 10 50] in
  Forall replica_ok voters ∧
  ∃ lines voter ms, quorum_status_lines true "c" (quorum_of voters) = Done (Ok lines) ∧ voter ∈ voters ∧
    "MaxFollowerLag:         " +:+ pretty (10 - qr_log_end_offset voter) ∈ lines ∧
    "MaxFollowerLagTimeMs:   " +:+ pretty (ms : Z) ∈ lines.
Proof.
  assert (Forall replica_ok [test_replica 2 7 40; test_replica 1 10 50]) as Hok.
  { unfold replica_ok, i64_MAX. repeat constructor; cbn; lia. }
  split; [exact Hok|].
  destruct (status_max_lag true "c" (quorum_of [test_replica 2 7 40; test_replica 1 10 50])
    (test_replica 1 10 50) Hok eq_refl) as (lines & voter & ms & Hs & Hv & _ & Hl & Hm & _).
  exists lines, voter, ms. split; [exact Hs|]. split; [exact Hv|]. split; [exact Hl|exact Hm].
Defined.

(** A log end that no log has overflows where overflow is checked. *)
Example status_overflow :
  quorum_status_lines true "c" (quorum_of [test_replica 1 i64_MAX 0; test_replica 2 (-1) 0]) = Panic.
Proof. vm_compute. reflexivity. Qed.

Example replication_table :
  outcome_of (λ c w, match c return admin_answer c * unit with
      | DescribeMetadataQuorum => (Ok (quorum_of [test_replica 2 7 40; test_replica 1 10 50]), w)
      | EpochMillis => (Some 60, w)
      | c => obliging_world c w
      end)
    (quorum_run true {| mq_connection := quorum_connection;
       mq_command := QuorumDescribe {| qd_status := false; qd_replication := true; qd_human_readable := true |} |}) tt
  = Done (Ok (success
      (map (String.concat tab)
        [["NodeId"; "DirectoryId"; "LogEndOffset"; "Lag"; "LastFetchTimestamp"; "LastCaughtUpTimestamp"; "Status  "; ""];
         ["1     "; "D          "; "10          "; "0  "; "55 ms ago         "; "10 ms ago            "; "Leader  "; ""];
         ["2     "; "D          "; "7           "; "3  "; "55 ms ago         "; "20 ms ago            "; "Follower"; ""]])
      (Array (map replication_json
        [["1"; "D"; "10"; "0"; "55 ms ago"; "10 ms ago"; "Leader"];
         ["2"; "D"; "7"; "3"; "55 ms ago"; "20 ms ago"; "Follower"]])))).
Proof. vm_compute. reflexivity. Qed.
