(* ===== verification/Console.v ===== *)
(** What the console tools share, [console.rs]: the [key=value] arguments, the
    merging of client properties and their typed readers; and the part of the
    standard library that both need for bytes that are not text,
    [String::from_utf8_lossy]. *)

From Stdlib Require Import Ascii.
From S2P Require Import Prelude Collections Rust Output Properties.

(** ** Arguments and properties *)

(** One [key=value] argument. *)
Definition key_value_arg (arg : string) : string * string :=
  default (arg, "") (split_once (λ c, (c =? "=")%char) arg).

Definition key_value_args (args : list string) : Properties :=
  foldl (λ properties arg, prop_insert (key_value_arg arg).1 (key_value_arg arg).2 properties) [] args.

(** [load_properties], from what reading the file gives. *)
Definition load_properties (path : string) (read : result string (list Z)) : result string Properties :=
  bytes ← map_err (λ error, path +:+ ": " +:+ error) read;
  map_err (λ error, path +:+ ": " +:+ config_error_text error) (parse_properties bytes).

Definition overlay (base overrides : Properties) : Properties :=
  foldl (λ properties entry, prop_insert entry.1 entry.2 properties) base (prop_entries overrides).

Definition config_error (name value reason : string) : string :=
  "Invalid value " +:+ value +:+ " for configuration " +:+ name +:+ ": " +:+ reason.

Definition number_property (properties : Properties) (name kind : string) (initial : Z)
    : result string Z :=
  match prop_get properties name with
  | None => Ok initial
  | Some value => ok_or (parse_i64 value) (config_error name value ("Not a number of type " +:+ kind))
  end.

Definition raw (properties : Properties) (key : string) : option string :=
  snd <$> find (λ entry, bool_decide (entry.1 = key)) (prop_entries properties).

Definition bool_property (properties : Properties) (name : string) (initial : bool)
    : result string bool :=
  match prop_get properties name with
  | None => Ok initial
  | Some value =>
      if eq_ignore_ascii_case value "true" then Ok true
      else if eq_ignore_ascii_case value "false" then Ok false
      else Err (config_error name value "Expected value to be either true or false")
  end.

Definition is_true (value : string) : bool := eq_ignore_ascii_case (trim value) "true".

(** ** Refusals *)

(** Why a console tool stopped before it started. *)
Inductive ConsoleRefusal := UsageRefused (message : string) | FailureRefused (message : string).

Definition console_refusal_exit (refusal : ConsoleRefusal) : Exit :=
  match refusal with UsageRefused _ => UsageExit | FailureRefused _ => Failure end.
Definition console_refusal_message (refusal : ConsoleRefusal) : string :=
  match refusal with UsageRefused message | FailureRefused message => message end.

(** ** [String::from_utf8_lossy] *)

Definition REPLACEMENT : string := encode_char 65533.

Definition between (low : Z) (c : ascii) (high : Z) : bool := (low <=? byte_of c) && (byte_of c <=? high).
Definition continuation (c : ascii) : bool := between 128 c 191.

(** The second bytes that may follow the first of three, and of four. *)
Definition second_of_three (first second : ascii) : bool :=
  if byte_of first =? 224 then between 160 second 191
  else if byte_of first =? 237 then between 128 second 159
  else continuation second.
Definition second_of_four (first second : ascii) : bool :=
  if byte_of first =? 240 then between 144 second 191
  else if byte_of first =? 244 then between 128 second 143
  else continuation second.

(** Each longest part that cannot be continued to a character is replaced. *)
Fixpoint from_utf8_lossy (s : string) : string :=
  match s with
  | EmptyString => ""
  | String a s1 =>
      if byte_of a <? 128 then String a (from_utf8_lossy s1)
      else if between 194 a 223 then
        match s1 with
        | String b s2 =>
            if continuation b then String a (String b (from_utf8_lossy s2))
            else REPLACEMENT +:+ from_utf8_lossy s1
        | EmptyString => REPLACEMENT
        end
      else if between 224 a 239 then
        match s1 with
        | String b s2 =>
            if second_of_three a b then
              match s2 with
              | String c s3 =>
                  if continuation c then String a (String b (String c (from_utf8_lossy s3)))
                  else REPLACEMENT +:+ from_utf8_lossy s2
              | EmptyString => REPLACEMENT
              end
            else REPLACEMENT +:+ from_utf8_lossy s1
        | EmptyString => REPLACEMENT
        end
      else if between 240 a 244 then
        match s1 with
        | String b s2 =>
            if second_of_four a b then
              match s2 with
              | String c s3 =>
                  if continuation c then
                    match s3 with
                    | String d s4 =>
                        if continuation d
                        then String a (String b (String c (String d (from_utf8_lossy s4))))
                        else REPLACEMENT +:+ from_utf8_lossy s3
                    | EmptyString => REPLACEMENT
                    end
                  else REPLACEMENT +:+ from_utf8_lossy s2
              | EmptyString => REPLACEMENT
              end
            else REPLACEMENT +:+ from_utf8_lossy s1
        | EmptyString => REPLACEMENT
        end
      else REPLACEMENT +:+ from_utf8_lossy s1
  end.

Definition bytes (l : list Z) : string := foldr (λ b s, String (byte b) s) "" l.

Example lossy_runs :
  map from_utf8_lossy ["ok"; bytes [97; 255; 98]; bytes [226; 130]; bytes [226; 130; 172];
    bytes [240; 159; 65]; bytes [237; 160; 128]; bytes [192; 128]] =
  ["ok"; "a" +:+ REPLACEMENT +:+ "b"; REPLACEMENT; bytes [226; 130; 172];
   REPLACEMENT +:+ "A"; REPLACEMENT +:+ REPLACEMENT +:+ REPLACEMENT; REPLACEMENT +:+ REPLACEMENT].
Proof. vm_compute. reflexivity. Qed.

(** ** Text *)

(** A text is the encoding of scalar values. *)
Definition is_text (s : string) : Prop := ∃ l, Forall (λ c, is_scalar c = true) l ∧ s = encode_utf8 l.

(** Decides the comparisons of a goal by arithmetic. *)
Ltac decide_tests :=
  repeat match goal with
  | |- context [?a <? ?b] =>
      first [rewrite (proj2 (Z.ltb_lt a b)) by lia | rewrite (proj2 (Z.ltb_ge a b)) by lia]
  | |- context [?a <=? ?b] =>
      first [rewrite (proj2 (Z.leb_le a b)) by lia | rewrite (proj2 (Z.leb_gt a b)) by lia]
  | |- context [?a =? ?b] =>
      first [rewrite (proj2 (Z.eqb_eq a b)) by lia | rewrite (proj2 (Z.eqb_neq a b)) by lia]
  end; cbn [andb orb negb].

Lemma continuation_low k : continuation (byte (128 + k mod 64)) = true.
Proof.
  pose proof (Z.mod_pos_bound k 64 ltac:(lia)). unfold continuation, between.
  rewrite byte_of_byte by lia. by decide_tests.
Qed.

Lemma lossy_char c s :
  is_scalar c = true → from_utf8_lossy (encode_char c +:+ s) = encode_char c +:+ from_utf8_lossy s.
Proof.
  unfold is_scalar. intros Hc. pose proof (Z_div_mod_eq_full c 64). pose proof (Z_div_mod_eq_full (c / 64) 64).
  pose proof (Z_div_mod_eq_full (c / 4096) 64).
  assert (c / 64 / 64 = c / 4096) as E2 by (by rewrite Z.div_div by lia).
  assert (c / 4096 / 64 = c / 262144) as E3 by (by rewrite Z.div_div by lia). rewrite E2, E3 in *.
  assert (∀ x, 0 ≤ x mod 64 < 64) as Hm by (intros; apply Z.mod_pos_bound; lia).
  pose proof (Hm c). pose proof (Hm (c / 64)). pose proof (Hm (c / 4096)). clear Hm E2 E3.
  unfold encode_char. destruct (Z.ltb_spec c 128).
  { rewrite !str_app_cons, !str_app_nil_l. cbn [from_utf8_lossy]. rewrite byte_of_byte by lia. by decide_tests. }
  destruct (Z.ltb_spec c 2048).
  { rewrite !str_app_cons, !str_app_nil_l. cbn [from_utf8_lossy]. rewrite continuation_low.
    unfold between. rewrite !byte_of_byte by lia. by decide_tests. }
  destruct (Z.ltb_spec c 65536).
  { rewrite !str_app_cons, !str_app_nil_l. cbn [from_utf8_lossy].
    assert (second_of_three (byte (224 + c / 4096)) (byte (128 + c / 64 mod 64)) = true) as ->.
    { unfold second_of_three, continuation, between. rewrite !byte_of_byte by lia.
      destruct (Z.eqb_spec (224 + c / 4096) 224); [by decide_tests|].
      destruct (Z.eqb_spec (224 + c / 4096) 237); by decide_tests. }
    rewrite continuation_low. unfold between. rewrite !byte_of_byte by lia. by decide_tests. }
  rewrite !str_app_cons, !str_app_nil_l. cbn [from_utf8_lossy].
  assert (second_of_four (byte (240 + c / 262144)) (byte (128 + c / 4096 mod 64)) = true) as ->.
  { unfold second_of_four, continuation, between. rewrite !byte_of_byte by lia.
    destruct (Z.eqb_spec (240 + c / 262144) 240); [by decide_tests|].
    destruct (Z.eqb_spec (240 + c / 262144) 244); by decide_tests. }
  rewrite !continuation_low. unfold between. rewrite !byte_of_byte by lia. by decide_tests.
Qed.

(** Text is kept as it is. *)
Lemma lossy_text s : is_text s → from_utf8_lossy s = s.
Proof.
  intros (l & Hl & ->). induction Hl as [|c l Hc _ IH]; [done|].
  cbn [encode_utf8 foldr]. fold (encode_utf8 l). by rewrite lossy_char, IH.
Qed.

Lemma encode_utf8_app l k : encode_utf8 (l ++ k) = encode_utf8 l +:+ encode_utf8 k.
Proof.
  induction l as [|c l IH]; [done|]. cbn [app encode_utf8 foldr]. fold (encode_utf8 (l ++ k)) (encode_utf8 l).
  by rewrite IH, str_app_assoc.
Qed.

Lemma is_text_app s t : is_text s → is_text t → is_text (s +:+ t).
Proof.
  intros (l & Hl & ->) (k & Hk & ->). exists (l ++ k). by rewrite encode_utf8_app, Forall_app.
Qed.

Lemma is_text_ascii s : all_bytes (λ c, byte_of c <? 128) s = true → is_text s.
Proof.
  induction s as [|c s IH]; [by exists []|]. cbn [all_bytes]. intros [Hc Hs]%andb_true_iff.
  change (String c s) with (String c "" +:+ s). apply is_text_app; [|by apply IH].
  exists [byte_of c]. assert (0 ≤ byte_of c) by (unfold byte_of; lia). bool_to_prop.
  split; [apply Forall_singleton; unfold is_scalar; by decide_tests|].
  cbn. unfold encode_char. rewrite (proj2 (Z.ltb_lt _ _)) by done.
  unfold byte, byte_of. rewrite N2Z.id, ascii_N_embedding. done.
Qed.

(** ** What the merging keeps *)

(** [raw] is the entry of the map, as it was written. *)
Lemma raw_get properties key : bt_wf properties → raw properties key = bt_get key properties.
Proof.
  intros Hwf. unfold raw, prop_entries. destruct (find _ _) as [[k v]|] eqn:E.
  - apply find_some in E as [Hin Hk%bool_decide_eq_true]. cbn in Hk |- *. subst k.
    symmetry. apply bt_get_elem; [done|]. by apply list_elem_of_In.
  - destruct (bt_get key properties) as [v|] eqn:Hg; [|done].
    apply bt_get_elem in Hg; [|done]. apply list_elem_of_In in Hg.
    apply (find_none _ _ E) in Hg. by apply bool_decide_eq_false in Hg.
Qed.

Lemma key_value_args_wf args : bt_wf (key_value_args args).
Proof.
  unfold key_value_args. assert (bt_wf (@nil (string * string))) as Hm by apply bt_nil_wf.
  revert Hm. generalize (@nil (string * string)).
  induction args as [|arg args IH]; intros m Hm; [done|]. cbn. apply IH. by apply bt_insert_wf.
Qed.

Lemma overlay_wf base overrides : bt_wf base → bt_wf (overlay base overrides).
Proof.
  unfold overlay, prop_entries. revert base. induction overrides as [|[k v] overrides IH]; intros base Hb; [done|].
  cbn. apply IH. by apply bt_insert_wf.
Qed.

(** A key of [overlay] has the value of the overrides, and otherwise its own. *)
Lemma overlay_get base overrides key :
  bt_wf base → bt_wf overrides → bt_get key (overlay base overrides) =
    match bt_get key overrides with Some value => Some value | None => bt_get key base end.
Proof.
  unfold overlay, prop_entries. revert base.
  induction overrides as [|[k v] overrides IH]; intros base Hb Hwf; [done|].
  cbn [foldl fst snd]. rewrite IH; [|by apply bt_insert_wf|by inversion Hwf]. rewrite bt_get_cons by done.
  unfold prop_insert. rewrite bt_get_insert by done. case_decide as E; [|done]. subst k.
  by rewrite (bt_get_tail_None _ _ _ Hwf).
Qed.

(** The last argument of a key gives its value. *)
Lemma key_value_args_get args key :
  bt_get key (key_value_args args) =
    snd <$> last (filter (λ entry : string * string, entry.1 = key) (map key_value_arg args)).
Proof.
  induction args as [|arg args IH] using rev_ind; [done|]. pose proof (key_value_args_wf args) as Hwf.
  unfold key_value_args in *. rewrite foldl_snoc, map_app, filter_app. cbn [map]. unfold prop_insert in *.
  rewrite bt_get_insert by done.
  rewrite filter_cons, filter_nil. destruct (key_value_arg arg) as [k v]. cbn [fst snd].
  repeat case_decide; subst; try congruence.
  - by rewrite last_snoc.
  - by rewrite app_nil_r.
Qed.
