(* ===== verification/LineReader.v ===== *)
(** [LineMessageReader] of the console producer, [console_producer/reader.rs]: how
    a line of standard input becomes a record, and how standard input becomes
    lines. The crate [regex] splits the headers: to what [RegexCrate] promises,
    [RegexFind] adds [find_iter]. *)

From Stdlib Require Import Ascii.
From S2P Require Import Prelude Collections Rust Properties Patterns Console.

(** [Regex::find_iter]: the ranges of bytes that match, in order. *)
Class RegexFind `{RegexCrate} := { find_iter : Regex → string → list (nat * nat) }.

(** A record, with its bytes as they are sent. *)
Record ProducerRecord := {
  pr_topic : string;
  pr_partition : option Z;
  pr_key : option string;
  pr_value : option string;
  pr_headers : list (string * option string);
  pr_timestamp_ms : option Z
}.

(** [s[start..]] and [s[start..end]], at the bounds of characters. *)
Definition from_byte (start : nat) (s : string) : string :=
  String.substring start (String.length s - start) s.
Definition slice (start stop : nat) (s : string) : string := String.substring start (stop - start) s.

(** [s.find(pattern)]. *)
Definition str_find (pattern s : string) : option nat := String.index 0 pattern s.

Section Reader.
Context `{RegexFind}.

Record LineReader := {
  lr_topic : string;
  lr_parse_key : bool;
  lr_key_separator : string;
  lr_parse_headers : bool;
  lr_headers_delimiter : string;
  lr_headers_separator : string;
  lr_headers_key_separator : string;
  lr_ignore_error : bool;
  lr_null_marker : option string;
  lr_headers_separator_pattern : Regex;
  lr_line_number : Z
}.

(** The pairs of settings that may not be equal, with their messages. *)
Definition separator_checks (reader : LineReader) : list (bool * string) :=
  let marker := lr_null_marker reader in
  [(bool_decide (lr_headers_delimiter reader = lr_headers_separator reader),
    "headers.delimiter and headers.separator may not be equal");
   (bool_decide (lr_headers_delimiter reader = lr_headers_key_separator reader),
    "headers.delimiter and headers.key.separator may not be equal");
   (bool_decide (lr_headers_separator reader = lr_headers_key_separator reader),
    "headers.separator and headers.key.separator may not be equal");
   (bool_decide (marker = Some (lr_key_separator reader)),
    "null.marker and key.separator may not be equal");
   (bool_decide (marker = Some (lr_headers_separator reader)),
    "null.marker and headers.separator may not be equal");
   (bool_decide (marker = Some (lr_headers_delimiter reader)),
    "null.marker and headers.delimiter may not be equal");
   (bool_decide (marker = Some (lr_headers_key_separator reader)),
    "null.marker and headers.key.separator may not be equal")].

Definition tab_text : string := String (ascii_of_nat 9) "".

(** [LineReader::configure]. *)
Definition reader_configure (properties : Properties) (default_topic : string)
    : result string LineReader :=
  let text key initial := default initial (raw properties key) in
  let flag key := from_option is_true false (raw properties key) in
  let headers_separator := text "headers.separator" "," in
  pattern ← map_err (λ error, "headers.separator " +:+ headers_separator +:+ ": " +:+ error)
    (regex_new headers_separator);
  let reader :=
    {| lr_topic := text "topic" default_topic;
       lr_parse_key := flag "parse.key";
       lr_key_separator := text "key.separator" tab_text;
       lr_parse_headers := flag "parse.headers";
       lr_headers_delimiter := text "headers.delimiter" tab_text;
       lr_headers_separator := headers_separator;
       lr_headers_key_separator := text "headers.key.separator" ":";
       lr_ignore_error := flag "ignore.error";
       lr_null_marker := raw properties "null.marker";
       lr_headers_separator_pattern := pattern;
       lr_line_number := 0 |} in
  match find fst (separator_checks reader) with
  | Some (_, message) => Err message
  | None => Ok reader
  end.

Definition next_line (reader : LineReader) : LineReader :=
  {| lr_topic := lr_topic reader; lr_parse_key := lr_parse_key reader;
     lr_key_separator := lr_key_separator reader; lr_parse_headers := lr_parse_headers reader;
     lr_headers_delimiter := lr_headers_delimiter reader;
     lr_headers_separator := lr_headers_separator reader;
     lr_headers_key_separator := lr_headers_key_separator reader;
     lr_ignore_error := lr_ignore_error reader; lr_null_marker := lr_null_marker reader;
     lr_headers_separator_pattern := lr_headers_separator_pattern reader;
     lr_line_number := lr_line_number reader + 1 |}.

(** [LineReader::parse]: the field before [demarcation], from [start]. *)
Definition reader_parse (reader : LineReader) (enabled : bool) (line : string) (start : nat)
    (demarcation name : string) : result string (option string) :=
  if negb enabled then Ok None
  else match str_find demarcation (from_byte start line) with
  | Some index => Ok (Some (slice start (start + index) line))
  | None =>
      if lr_ignore_error reader then Ok None
      else Err ("No " +:+ name +:+ " found on line number " +:+ pretty (lr_line_number reader) +:+
        ": '" +:+ line +:+ "'")
  end.

(** [LineReader::bytes]. *)
Definition reader_bytes (reader : LineReader) (field : string) : option string :=
  if bool_decide (Some field ≠ lr_null_marker reader) then Some field else None.

(** The pieces of [java_split] from the matches on, and where the last starts. *)
Fixpoint split_pieces (input : string) (start : nat) (found : list (nat * nat)) : list string :=
  match found with
  | [] => [from_byte start input]
  | (first, stop) :: found =>
      if (stop =? 0)%nat then split_pieces input start found
      else slice start first input :: split_pieces input stop found
  end.

Definition pattern_split (pattern : Regex) (input : string) : list string :=
  match find_iter pattern input with
  | [] => [input]
  | found => drop_empty_tail (split_pieces input 0 found)
  end.

(** One header of [split_headers]. *)
Definition split_header (reader : LineReader) (pair : string) : result string (string * option string) :=
  match str_find (lr_headers_key_separator reader) pair with
  | None =>
      if lr_ignore_error reader then Ok (pair, None)
      else Err ("No header key separator found in pair '" +:+ pair +:+ "' on line number " +:+
        pretty (lr_line_number reader))
  | Some index =>
      let key := slice 0 index pair in
      match lr_null_marker reader with
      | Some marker =>
          if bool_decide (marker = key) then
            Err ("Header keys should not be equal to the null marker '" +:+ marker +:+
              "' as they can't be null")
          else Ok (key, reader_bytes reader (from_byte (index + String.length (lr_headers_key_separator reader)) pair))
      | None =>
          Ok (key, reader_bytes reader (from_byte (index + String.length (lr_headers_key_separator reader)) pair))
      end
  end.

Definition split_headers (reader : LineReader) (headers : string)
    : result string (list (string * option string)) :=
  try_map (split_header reader) (pattern_split (lr_headers_separator_pattern reader) headers).

(** [LineReader::record], after the line was counted. *)
Definition line_record (reader : LineReader) (line : string) : result string ProducerRecord :=
  headers ← reader_parse reader (lr_parse_headers reader) line 0 (lr_headers_delimiter reader)
    "headers delimiter";
  let header_offset :=
    from_option (λ text, (String.length text + String.length (lr_headers_delimiter reader))%nat) 0%nat headers in
  key ← reader_parse reader (lr_parse_key reader) line header_offset (lr_key_separator reader)
    "key separator";
  let key_offset :=
    from_option (λ text, (String.length text + String.length (lr_key_separator reader))%nat) 0%nat key in
  let value := from_byte (header_offset + key_offset) line in
  headers ←
    match headers with
    | Some text =>
        if bool_decide (Some text ≠ lr_null_marker reader) then split_headers reader text else Ok []
    | None => Ok []
    end;
  Ok {| pr_topic := lr_topic reader; pr_partition := None;
        pr_key := key ≫= reader_bytes reader; pr_value := reader_bytes reader value;
        pr_headers := headers; pr_timestamp_ms := None |}.

(** [LineReader::record]. *)
Definition reader_record (reader : LineReader) (line : string)
    : LineReader * result string ProducerRecord :=
  let reader := next_line reader in (reader, line_record reader line).
End Reader.
Arguments LineReader {_}.

(** ** Lines *)

Definition is_lf (c : ascii) : bool := (byte_of c =? 10).
Definition is_cr (c : ascii) : bool := (byte_of c =? 13).

(** [split_lines], with the bytes since the last terminator. *)
Fixpoint split_lines_from (line chunk : string) : list string :=
  match chunk with
  | EmptyString => if bool_decide (line = "") then [] else [line]
  | String c rest =>
      if is_lf c then line :: split_lines_from "" rest
      else if is_cr c then
        line :: match rest with
                | String d rest' => if is_lf d then split_lines_from "" rest' else split_lines_from "" rest
                | EmptyString => []
                end
      else split_lines_from (line +:+ String c "") rest
  end.
Definition split_lines (chunk : string) : list string := split_lines_from "" chunk.

(** ** A splitter for examples *)

(** The matches of a separator of one byte. *)
Fixpoint byte_matches (c : ascii) (at_ : nat) (s : string) : list (nat * nat) :=
  match s with
  | EmptyString => []
  | String d s => if (d =? c)%char then (at_, S at_) :: byte_matches c (S at_) s else byte_matches c (S at_) s
  end.

(** Patterns of one byte; the empty pattern matches at every position. *)
Definition byte_regex : RegexCrate := {|
  Regex := option ascii;
  regex_new pattern :=
    match pattern with
    | String c "" => if (c =? "(")%char then Err "error: unclosed group" else Ok (Some c)
    | EmptyString => Ok None
    | _ => Err "error: not one byte"
    end;
  is_match pattern text := match pattern with Some c => contains_byte (λ d, (d =? c)%char) text | None => true end
|}.
#[local] Existing Instance byte_regex.

#[local] Instance byte_find : RegexFind := {|
  find_iter pattern text :=
    match pattern with
    | Some c => byte_matches c 0 text
    | None => map (λ i, (i, i)) (seq 0 (S (String.length text)))
    end
|}.

Definition reader_of (entries : list (string * string)) : result string LineReader :=
  reader_configure (bt_collect entries) "orders".

Definition records_of (entries : list (string * string)) (line : string) : result string ProducerRecord :=
  reader ← reader_of entries; (reader_record reader line).2.

Definition order_record (key value : option string) (headers : list (string * option string)) : ProducerRecord :=
  {| pr_topic := "orders"; pr_partition := None; pr_key := key; pr_value := value; pr_headers := headers;
     pr_timestamp_ms := None |}.

Example records_read :
  map (λ case : list (string * string) * string, records_of case.1 case.2)
    [([("parse.key", "true"); ("key.separator", ":")], "a:b:c");
     ([("parse.key", "true"); ("key.separator", "::")], "a::b:c");
     ([("parse.key", "true"); ("key.separator", ":")], "nosep");
     ([], "plain value");
     ([("parse.headers", "true"); ("parse.key", "TRUE "); ("headers.delimiter", "|"); ("key.separator", "|")],
      "h1:v1,h2:v2|k|v");
     ([("parse.headers", "true"); ("headers.delimiter", "|")], "bad|v");
     ([("parse.headers", "true"); ("headers.delimiter", "|"); ("ignore.error", "true")], "bad|v");
     ([("parse.key", "true"); ("ignore.error", "true")], "nosep");
     ([("parse.headers", "true"); ("parse.key", "true"); ("headers.delimiter", "|"); ("key.separator", "/");
       ("null.marker", "~")], "~|~/~");
     ([("parse.headers", "true"); ("headers.delimiter", "|"); ("null.marker", "~")], "h:~,~:x|v")] =
  [Ok (order_record (Some "a") (Some "b:c") []);
   Ok (order_record (Some "a") (Some "b:c") []);
   Err "No key separator found on line number 1: 'nosep'";
   Ok (order_record None (Some "plain value") []);
   Ok (order_record (Some "k") (Some "v") [("h1", Some "v1"); ("h2", Some "v2")]);
   Err "No header key separator found in pair 'bad' on line number 1";
   Ok (order_record None (Some "v") [("bad", None)]);
   Ok (order_record None (Some "nosep") []);
   Ok (order_record None None []);
   Err "Header keys should not be equal to the null marker '~' as they can't be null"].
Proof. vm_compute. reflexivity. Qed.

Example splits_java :
  map (pattern_split (Some ","%char)) ["a,b"; ""; "a"; "a,,b,,"; ",a"; ",,"] =
  [["a"; "b"]; [""]; ["a"]; ["a"; ""; "b"]; [""; "a"]; []] ∧
  pattern_split None "ab" = ["a"; "b"].
Proof. vm_compute. done. Qed.

Example lines_split :
  map split_lines ["a" +:+ LF; "a"; LF; "a" +:+ CRLF; "a" +:+ bytes [13] +:+ "b" +:+ LF; "a" +:+ bytes [13];
    "a" +:+ bytes [13; 13; 10]; ""] =
  [["a"]; ["a"]; [""]; ["a"]; ["a"; "b"]; ["a"]; ["a"; ""]; []].
Proof. vm_compute. reflexivity. Qed.

Example conflicting_separators :
  map (λ entries, (λ _, tt) <$> reader_of entries)
    [[("headers.separator", tab_text)]; [("headers.key.separator", tab_text)]; [("headers.key.separator", ",")];
     [("null.marker", tab_text); ("headers.delimiter", "|")]; [("null.marker", ",")];
     [("null.marker", "|"); ("headers.delimiter", "|")]; [("null.marker", ":")]; [("headers.separator", "(")]] =
  map Err
    ["headers.delimiter and headers.separator may not be equal";
     "headers.delimiter and headers.key.separator may not be equal";
     "headers.separator and headers.key.separator may not be equal";
     "null.marker and key.separator may not be equal"; "null.marker and headers.separator may not be equal";
     "null.marker and headers.delimiter may not be equal";
     "null.marker and headers.key.separator may not be equal";
     "headers.separator (: error: unclosed group"].
Proof. vm_compute. reflexivity. Qed.

(** ** Positions *)

Lemma substring_all s : String.substring 0 (String.length s) s = s.
Proof. induction s as [|c s IH]; [done|]. cbn. by rewrite IH. Qed.

Lemma substring_app n a b : String.substring (String.length a) n (a +:+ b) = String.substring 0 n b.
Proof. induction a as [|c a IH]; [done|]. rewrite str_app_cons. cbn. apply IH. Qed.

Lemma substring_prefix a b : String.substring 0 (String.length a) (a +:+ b) = a.
Proof. induction a as [|c a IH]; [by destruct b|]. rewrite str_app_cons. cbn. by rewrite IH. Qed.

Lemma from_byte_app a b : from_byte (String.length a) (a +:+ b) = b.
Proof.
  unfold from_byte. rewrite substring_app, str_length_app.
  replace (String.length a + String.length b - String.length a)%nat with (String.length b) by lia.
  apply substring_all.
Qed.

Lemma slice_app a b c : slice (String.length a) (String.length a + String.length b) (a +:+ b +:+ c) = b.
Proof.
  unfold slice. rewrite substring_app.
  replace (String.length a + String.length b - String.length a)%nat with (String.length b) by lia.
  apply substring_prefix.
Qed.

Lemma prefix_app_long p s t :
  (String.length p ≤ String.length s)%nat → String.prefix p (s +:+ t) = String.prefix p s.
Proof.
  revert p. induction s as [|c s IH]; intros [|d p] Hl; cbn in Hl; try lia.
  - by destruct t.
  - done.
  - rewrite str_app_cons. cbn. destruct (Ascii.ascii_dec d c); [|done]. apply IH. lia.
Qed.

(** The first place where [separator] is found in what follows [text] is its end. *)
Definition ends_before (separator text : string) : bool :=
  bool_decide (str_find separator (text +:+ separator) = Some (String.length text)).

Lemma str_find_cons p c s :
  str_find p (String c s) = if String.prefix p (String c s) then Some 0%nat else S <$> str_find p s.
Proof. unfold str_find. cbn [String.index]. destruct (String.prefix p (String c s)); [done|]. by destruct (String.index 0 p s). Qed.

Lemma str_find_end separator text rest :
  ends_before separator text = true → str_find separator (text +:+ separator +:+ rest) = Some (String.length text).
Proof.
  unfold ends_before. rewrite bool_decide_eq_true. revert rest.
  induction text as [|c text IH]; intros rest.
  - intros _. rewrite str_app_nil_l. destruct separator as [|d separator]; [by destruct rest|].
    rewrite str_app_cons, str_find_cons, <-str_app_cons.
    rewrite prefix_app_long by done.
    assert (∀ s, String.prefix s s = true) as ->; [|done].
    induction s as [|e s IHs]; [done|]. cbn. by destruct (Ascii.ascii_dec e e).
  - rewrite !str_app_cons, !str_find_cons, <-!str_app_cons.
    rewrite <-(str_app_assoc (String c text)).
    rewrite (prefix_app_long separator (String c text +:+ separator) rest) by (rewrite str_length_app; lia).
    destruct (String.prefix separator _); [done|]. cbn [String.length].
    destruct (str_find separator (text +:+ separator)) as [n|] eqn:E; [|done].
    cbn. intros [= ->]. by rewrite IH.
Qed.

(** ** Splitting on one byte *)

Lemma split_pieces_bytes c front cur s :
  split_pieces (front +:+ cur +:+ s) (String.length front)
    (byte_matches c (String.length front + String.length cur) s) =
  match split_char c s with x :: xs => (cur +:+ x) :: xs | [] => [cur] end.
Proof.
  revert front cur. induction s as [|d s IH]; intros front cur.
  - cbn. by rewrite !str_app_nil_r, from_byte_app.
  - cbn [byte_matches split_char]. destruct (Ascii.eqb_spec d c) as [->|Hne].
    + cbn [split_pieces Nat.eqb]. rewrite slice_app, str_app_nil_r. f_equal.
      specialize (IH (front +:+ cur +:+ String c "") ""). rewrite !str_length_app in IH. cbn [String.length] in IH.
      rewrite !Nat.add_0_r, Nat.add_assoc, Nat.add_1_r in IH. rewrite !str_app_assoc in IH.
      rewrite str_app_nil_l, str_app_sep in IH. rewrite IH.
      destruct (split_char_nonempty c s) as (x & xs & ->).
      by rewrite str_app_nil_l.
    + specialize (IH front (cur +:+ String d "")). rewrite !str_app_assoc, str_app_sep, str_length_app in IH.
      cbn [String.length] in IH. rewrite Nat.add_1_r, <-plus_n_Sm in IH. rewrite IH.
      destruct (split_char c s) as [|x xs]; [done|]. by rewrite str_app_assoc, str_app_sep.
Qed.

Section Split.
Context `{RegexFind}.

(** What [regex] documents of a pattern that is one literal byte. *)
Definition separates (pattern : Regex) (c : ascii) : Prop :=
  ∀ input, find_iter pattern input = byte_matches c 0 input.

Lemma byte_matches_none c n s : byte_matches c n s = [] ↔ split_char c s = [s].
Proof.
  revert n. induction s as [|d s IH]; intros n; [done|]. cbn. destruct (Ascii.eqb_spec d c).
  - by split.
  - rewrite (IH (S n)). destruct (split_char c s) as [|x xs]; split; naive_solver.
Qed.

(** A separator of one byte splits as Java's [String.split] does. *)
Lemma pattern_split_byte pattern c input :
  separates pattern c → pattern_split pattern input = java_parts (split_char c input).
Proof.
  intros Hs. unfold pattern_split. rewrite Hs.
  destruct (byte_matches c 0 input) as [|m found] eqn:E.
  - apply byte_matches_none in E. by rewrite E.
  - rewrite <-E. pose proof (split_pieces_bytes c "" "" input) as Hp. rewrite !str_app_nil_l in Hp. cbn [String.length Nat.add] in Hp.
    rewrite Hp. unfold java_parts. destruct (split_char c input) as [|x [|y xs]] eqn:Hc; [done| |done].
    exfalso. assert (x = input) as ->; [|by apply (byte_matches_none c 0) in Hc; congruence].
    clear -Hc. revert x Hc. induction input as [|d s IH]; intros x; cbn; [congruence|].
    destruct (split_char_nonempty c s) as (y & ys & E'). rewrite E' in *.
    destruct (d =? c)%char; [done|]. intros [= <- ->]. f_equal. by apply IH.
Qed.
End Split.

(** ** Chunks of lines *)

Definition ends_line (chunk : string) : Prop := ∃ front, chunk = front +:+ LF.

Lemma split_lines_from_app line front rest :
  split_lines_from line ((front +:+ LF) +:+ rest) = split_lines_from line (front +:+ LF) ++ split_lines rest.
Proof.
  remember (String.length front) as n eqn:Hn. revert line front Hn.
  induction (lt_wf n) as [n _ IH]. intros line [|c front] ->; [done|].
  rewrite !str_app_cons. cbn [split_lines_from].
  destruct (is_lf c). { cbn [app]. f_equal. eapply IH; [|done]. cbn; lia. }
  destruct (is_cr c); [|eapply IH; [|done]; cbn; lia].
  cbn [app]. f_equal. destruct front as [|d front]; [done|]. rewrite !str_app_cons.
  destruct (is_lf d). { eapply IH; [|done]. cbn; lia. }
  rewrite <-!str_app_cons. eapply (IH (String.length (String d front))); [|done]. cbn; lia.
Qed.

(** Reading standard input up to each line feed, as the producer does, gives the
    lines of the whole of it. *)
Lemma split_lines_chunks chunks last :
  Forall ends_line chunks →
  split_lines (foldr String.append last chunks) = (chunks ≫= split_lines) ++ split_lines last.
Proof.
  induction 1 as [|chunk chunks [front ->] _ IH]; [done|]. cbn [foldr]. cbn [mbind list_bind].
  unfold split_lines at 1. rewrite split_lines_from_app. by rewrite IH, app_assoc.
Qed.

(** ** Reading back *)

Section RoundTrip.
Context `{RegexFind}.
Context (reader : LineReader).

(** How a field is spelled: null as the marker. *)
Definition field_text (field : option string) : string :=
  default (default "" (lr_null_marker reader)) field.
(** A null needs a marker, and a text may not be it. *)
Definition spelled (field : option string) : Prop := reader_bytes reader (field_text field) = field.

Definition header_text (header : string * option string) : string :=
  header.1 +:+ lr_headers_key_separator reader +:+ field_text header.2.
Definition headers_text (headers : list (string * option string)) : string :=
  if bool_decide (headers = []) then field_text None
  else join (lr_headers_separator reader) (map header_text headers).

(** The line of a record. *)
Definition line_of (record : ProducerRecord) : string :=
  (if lr_parse_headers reader then headers_text (pr_headers record) +:+ lr_headers_delimiter reader else "") +:+
  (if lr_parse_key reader then field_text (pr_key record) +:+ lr_key_separator reader else "") +:+
  field_text (pr_value record).

Definition header_ok (c : ascii) (header : string * option string) : Prop :=
  lr_null_marker reader ≠ Some header.1 ∧
  ends_before (lr_headers_key_separator reader) header.1 = true ∧ spelled header.2 ∧
  header_text header ≠ "" ∧ all_bytes (λ d, negb (d =? c)%char) (header_text header) = true.

(** What the separators of the reader, with [c] between headers, can tell apart. *)
Record writable (c : ascii) (record : ProducerRecord) : Prop := {
  w_topic : pr_topic record = lr_topic reader;
  w_none : pr_partition record = None ∧ pr_timestamp_ms record = None;
  w_value : spelled (pr_value record);
  w_key : if lr_parse_key reader then
      spelled (pr_key record) ∧ ends_before (lr_key_separator reader) (field_text (pr_key record)) = true
    else pr_key record = None;
  w_headers : if lr_parse_headers reader then
      ends_before (lr_headers_delimiter reader) (headers_text (pr_headers record)) = true ∧
      Forall (header_ok c) (pr_headers record) ∧
      (pr_headers record = [] ↔ lr_null_marker reader = Some (headers_text (pr_headers record)))
    else pr_headers record = []
}.
End RoundTrip.

Section Read.
Context `{RegexFind}.
Context (reader : LineReader) (c : ascii).

Lemma parse_field front field separator rest name :
  ends_before separator field = true →
  reader_parse reader true (front +:+ field +:+ separator +:+ rest) (String.length front) separator name =
    Ok (Some field).
Proof.
  intros He. unfold reader_parse. cbn [negb]. rewrite from_byte_app, str_find_end by done.
  by rewrite slice_app.
Qed.

Lemma split_header_text header : header_ok reader c header → split_header reader (header_text reader header) = Ok header.
Proof.
  destruct header as [key value]. intros (Hm & He & Hs & _). unfold split_header, header_text in *. cbn [fst snd] in *.
  rewrite str_find_end by done.
  assert (slice 0 (String.length key) (key +:+ lr_headers_key_separator reader +:+ field_text reader value) = key) as ->.
  { apply (slice_app "" key). }
  assert (from_byte (String.length key + String.length (lr_headers_key_separator reader))
    (key +:+ lr_headers_key_separator reader +:+ field_text reader value) = field_text reader value) as ->.
  { rewrite <-str_length_app, <-str_app_assoc. apply from_byte_app. }
  rewrite Hs. destruct (lr_null_marker reader) as [marker|]; [|done].
  by rewrite bool_decide_eq_false_2 by congruence.
Qed.

Lemma drop_empty_pieces_full parts : Forall (λ part, part ≠ "") parts → drop_empty_tail parts = parts.
Proof.
  induction 1 as [|part parts Hp _ IH]; [done|]. cbn. unfold drop_empty_tail in IH. rewrite IH.
  by rewrite bool_decide_eq_false_2 by naive_solver.
Qed.

Lemma split_headers_text headers :
  separates (lr_headers_separator_pattern reader) c → lr_headers_separator reader = String c "" →
  headers ≠ [] → Forall (header_ok reader c) headers →
  split_headers reader (headers_text reader headers) = Ok headers.
Proof.
  intros Hs Hc Hne Hok. unfold split_headers, headers_text. rewrite bool_decide_eq_false_2 by done.
  rewrite (pattern_split_byte _ c), Hc by done. rewrite split_char_join.
  - unfold java_parts. rewrite drop_empty_pieces_full.
    + assert (try_map (split_header reader) (map (header_text reader) headers) = Ok headers) as Ht.
      { clear -Hok. induction Hok as [|header headers Hh _ IH]; [done|]. cbn. by rewrite split_header_text, IH. }
      by destruct (_ <? _)%nat.
    + apply Forall_map. eapply Forall_impl; [exact Hok|]. by intros header (_ & _ & _ & ? & _).
  - by destruct headers.
  - apply Forall_map. eapply Forall_impl; [exact Hok|]. by intros header (_ & _ & _ & _ & ?).
Qed.

(** The line of a record reads as it. *)
Lemma line_record_line record :
  separates (lr_headers_separator_pattern reader) c → lr_headers_separator reader = String c "" →
  writable reader c record → line_record reader (line_of reader record) = Ok record.
Proof.
  intros Hs Hc [Ht [Hp Hts] Hv Hk Hh]. unfold line_record, line_of.
  destruct record as [topic partition key value headers timestamp].
  cbn [pr_topic pr_partition pr_key pr_value pr_headers pr_timestamp_ms] in *. subst topic partition timestamp.
  set (kt := if lr_parse_key reader then field_text reader key +:+ lr_key_separator reader else "").
  assert (∀ front, reader_parse reader (lr_parse_key reader) (front +:+ kt +:+ field_text reader value)
    (String.length front) (lr_key_separator reader) "key separator" =
    Ok (if lr_parse_key reader then Some (field_text reader key) else None)) as Hkey.
  { intros front. subst kt. destruct (lr_parse_key reader); [|done]. destruct Hk as [_ Hk].
    rewrite str_app_assoc. by apply parse_field. }
  assert (from_option (λ text, (String.length text + String.length (lr_key_separator reader))%nat) 0%nat
    (if lr_parse_key reader then Some (field_text reader key) else None) = String.length kt) as Hlen.
  { subst kt. destruct (lr_parse_key reader); [|done]. by rewrite str_length_app. }
  assert ((if lr_parse_key reader then Some (field_text reader key) else None) ≫= reader_bytes reader = key) as Hbytes.
  { destruct (lr_parse_key reader); [by apply Hk|done]. }
  destruct (lr_parse_headers reader) eqn:Eh.
  - destruct Hh as (He & Hok & Hnil).
    pose proof (parse_field "" (headers_text reader headers) _ (kt +:+ field_text reader value) "headers delimiter" He) as Hf.
    rewrite str_app_nil_l in Hf. cbn [String.length] in Hf. cbn match. rewrite !str_app_assoc. rewrite Hf. cbn [mbind result_bind from_option].
    rewrite <-str_length_app, <-str_app_assoc, Hkey. cbn [mbind result_bind]. rewrite Hlen, Hbytes.
    rewrite <-str_length_app, <-str_app_assoc, from_byte_app, Hv.
    destruct (decide (headers = [])) as [->|Hne].
    + rewrite bool_decide_eq_false_2 by (rewrite (proj1 Hnil eq_refl); tauto). done.
    + rewrite bool_decide_eq_true_2 by naive_solver. by rewrite split_headers_text.
  - subst headers. assert (∀ line start d n, reader_parse reader false line start d n = Ok None) as -> by done. cbn match. cbn [negb mbind result_bind from_option]. rewrite !str_app_nil_l.
    specialize (Hkey ""). rewrite str_app_nil_l in Hkey. cbn [String.length] in Hkey. rewrite Hkey.
    cbn [mbind result_bind Nat.add]. by rewrite Hlen, Hbytes, from_byte_app, Hv.
Qed.
End Read.

(** ** Many lines *)

Section Lines.
Context `{RegexFind}.

(** The records that the lines of an input read as, up to the first that does not. *)
Fixpoint read_lines (reader : LineReader) (lines : list string) : result string (list ProducerRecord) :=
  match lines with
  | [] => Ok []
  | line :: lines =>
      let '(reader, record) := reader_record reader (from_utf8_lossy line) in
      record ← record; records ← read_lines reader lines; Ok (record :: records)
  end.

(** Each line is read by the reader that counted those before it. *)
Lemma read_lines_app reader lines more :
  read_lines reader (lines ++ more) =
  (records ← read_lines reader lines;
   rest ← read_lines (Nat.iter (length lines) next_line reader) more; Ok (records ++ rest)).
Proof.
  revert reader. induction lines as [|line lines IH]; intros reader.
  - cbn. by destruct (read_lines reader more).
  - cbn [app read_lines reader_record length]. destruct (line_record _ _) as [record|]; [|done].
    cbn [mbind result_bind]. rewrite IH, Nat.iter_succ_r. destruct (read_lines _ lines); [|done]. cbn [mbind result_bind].
    by destruct (read_lines _ more).
Qed.
End Lines.
