(* ===== verification/ConsoleFormatter.v ===== *)
(** The formatters of the console consumer, [console_consumer/formatter.rs]: the
    bytes that a record is printed as, under the properties of [--formatter].
    Records and texts are strings of bytes. *)

From Stdlib Require Import Ascii.
From S2P Require Import Prelude Collections Rust Admin Properties Floats Console.

Definition DEFAULT_FORMATTER : string := "org.apache.kafka.tools.consumer.DefaultMessageFormatter".
Definition LOGGING_FORMATTER : string := "org.apache.kafka.tools.consumer.LoggingMessageFormatter".
Definition NO_OP_FORMATTER : string := "org.apache.kafka.tools.consumer.NoOpMessageFormatter".
Definition INTERNAL_FORMATTERS : list string :=
  ["OffsetsMessageFormatter"; "GroupMetadataMessageFormatter"; "TransactionLogMessageFormatter";
   "ShareGroupMessageFormatter"; "CoordinatorRecordMessageFormatter"].
Definition SERIALIZATION : string := "org.apache.kafka.common.serialization.".

(** [krabka_client_consumer::TimestampType]. *)
Inductive TimestampType := CreateTime | LogAppendTime.

(** [Record]. *)
Record ConsumedRecord := {
  cr_topic : string;
  cr_partition : Z;
  cr_offset : Z;
  cr_timestamp : Z;
  cr_timestamp_type : TimestampType;
  cr_key : option string;
  cr_value : option string;
  cr_headers : list (string * option string)
}.

Definition timestamp_type (kind : TimestampType) : string :=
  match kind with CreateTime => "CreateTime" | LogAppendTime => "LogAppendTime" end.

(** ** Deserializers *)

Inductive Deserializer :=
  | DeString | DeByteArray | DeBytes | DeByteBuffer | DeShort | DeInteger | DeLong | DeFloat | DeDouble
  | DeUuid | DeBoolean | DeVoid.
#[export] Instance Deserializer_eq_dec : EqDecision Deserializer.
Proof. solve_decision. Defined.

(** The classes of [Deserializer::from_class], by their simple names. *)
Definition DESERIALIZERS : list (string * Deserializer) :=
  [("StringDeserializer", DeString); ("ByteArrayDeserializer", DeByteArray); ("BytesDeserializer", DeBytes);
   ("ByteBufferDeserializer", DeByteBuffer); ("ShortDeserializer", DeShort);
   ("IntegerDeserializer", DeInteger); ("LongDeserializer", DeLong); ("FloatDeserializer", DeFloat);
   ("DoubleDeserializer", DeDouble); ("UUIDDeserializer", DeUuid); ("BooleanDeserializer", DeBoolean);
   ("VoidDeserializer", DeVoid)].

Definition from_class (name : string) : option Deserializer :=
  let simple := default name (strip_prefix SERIALIZATION name) in
  snd <$> find (λ entry, bool_decide (entry.1 = simple)) DESERIALIZERS.

Definition sized (n : nat) (data class : string) : result string string :=
  if (String.length data =? n)%nat then Ok data
  else Err ("Size of data received by " +:+ class +:+ " is not " +:+ pretty n).

(** [from_be_bytes], without a sign. *)
Definition from_be_bytes (data : string) : Z :=
  (fix go acc s := match s with EmptyString => acc | String c s => go (256 * acc + byte_of c) s end) 0 data.

(** A digit of [{:02X}] and of [{:x}]. *)
Definition upper_digit (d : Z) : ascii := byte (if d <? 10 then 48 + d else 55 + d).
Definition lower_digit (d : Z) : ascii := byte (if d <? 10 then 48 + d else 87 + d).

Definition is_printable (c : ascii) : bool := between 32 c 126 && negb (byte_of c =? 92).
Fixpoint printable (data : string) : string :=
  match data with
  | EmptyString => ""
  | String c rest =>
      (if is_printable c then String c ""
       else bytes [92; 120] +:+ String (upper_digit (byte_of c / 16)) (String (upper_digit (byte_of c mod 16)) "")) +:+
      printable rest
  end.

(** [u64::from_str_radix(field, 16)]. *)
Definition u64_from_hex (s : string) : option Z :=
  let digits := match s with String "+" (String _ _ as s') => s' | _ => s end in
  match digits with
  | EmptyString => None
  | _ => n ← hex_digits 0 digits; if n <? 2 ^ 64 then Some n else None
  end.

(** [{value:0width$x}]: the last [width] digits, which are all of them where the
    value has no more. *)
Fixpoint lower_hex (width : nat) (n : Z) : string :=
  match width with
  | O => ""
  | S width => lower_hex width (n / 16) +:+ String (lower_digit (n mod 16)) ""
  end.

Definition uuid_field (field : string) (width : nat) : option string :=
  if bool_decide (field = "") || (width <? String.length field)%nat then None
  else lower_hex width <$> u64_from_hex field.

Definition uuid (text : string) : option string :=
  match split_char "-" text with
  | [a; b; c; d; e] =>
      a ← uuid_field a 8; b ← uuid_field b 4; c ← uuid_field c 4; d ← uuid_field d 4; e ← uuid_field e 12;
      Some (join "-" [a; b; c; d; e])
  | _ => None
  end.

(** [Into<f64>], which is exact. *)
Definition into_f64 (f : BinaryFormat) (x : Z) : F64 :=
  if nan_in f x then NAN
  else with_sign (negative_in f x)
    (if infinite_in f x then INFINITY
     else if magnitude_in f x =? 0 then 0
     else let '(num, den) := ratio f (magnitude_in f x) in nearest num den).

Definition has_point (text : string) : bool := contains_byte (λ c, (c =? ".")%char) text.

(** [java_decimal]. *)
Definition java_decimal (f : BinaryFormat) (value : Z) : string :=
  let wide := into_f64 f value in
  if is_nan wide then "NaN"
  else
    let sign := if is_negative wide then "-" else "" in
    if is_infinite wide then sign +:+ "Infinity"
    else if magnitude wide =? 0 then sign +:+ "0.0"
    else if (ONE_THOUSANDTH <=? magnitude wide) && (magnitude wide <? TEN_MILLION) then
      let plain := sign +:+ display_in f (magnitude_in f value) in
      if has_point plain then plain else plain +:+ ".0"
    else
      let scientific := sign +:+ lower_exp_in f (magnitude_in f value) in
      let '(mantissa, exponent) :=
        default (scientific, "0") (split_once (λ c, (c =? "e")%char) scientific) in
      if has_point mantissa then mantissa +:+ "E" +:+ exponent else mantissa +:+ ".0E" +:+ exponent.

(** [Deserializer::deserialize]. *)
Definition deserialize (d : Deserializer) (data : string) : result string string :=
  match d with
  | DeString => Ok (from_utf8_lossy data)
  | DeByteArray => Ok data
  | DeBytes => Ok (printable data)
  | DeByteBuffer =>
      let length := pretty (String.length data) in
      Ok ("java.nio.HeapByteBuffer[pos=0 lim=" +:+ length +:+ " cap=" +:+ length +:+ "]")
  | DeShort => data ← sized 2 data "ShortDeserializer"; Ok (pretty (wrap 16 (from_be_bytes data)))
  | DeInteger => data ← sized 4 data "IntegerDeserializer"; Ok (pretty (wrap 32 (from_be_bytes data)))
  | DeLong => data ← sized 8 data "LongDeserializer"; Ok (pretty (wrap 64 (from_be_bytes data)))
  | DeFloat => data ← sized 4 data "Deserializer"; Ok (java_decimal binary32 (from_be_bytes data))
  | DeDouble => data ← sized 8 data "Deserializer"; Ok (java_decimal binary64 (from_be_bytes data))
  | DeUuid => ok_or (uuid (from_utf8_lossy data)) "Error parsing data into UUID"
  | DeBoolean =>
      match data with
      | String c "" =>
          if byte_of c =? 1 then Ok "true"
          else if byte_of c =? 0 then Ok "false"
          else Err ("Unexpected byte received by BooleanDeserializer: " +:+ pretty (wrap 8 (byte_of c)))
      | _ => Err "Size of data received by BooleanDeserializer is not 1"
      end
  | DeVoid => Err "Data should be null for a VoidDeserializer."
  end.

(** ** Columns *)

Inductive Column :=
  | ColTimestamp | ColPartition | ColOffset | ColDelivery | ColEpoch | ColHeaders | ColKey | ColValue.
#[export] Instance Column_eq_dec : EqDecision Column.
Proof. solve_decision. Defined.

(** [Column::ALL], the order of the declaration. *)
Definition ALL_COLUMNS : list Column :=
  [ColTimestamp; ColPartition; ColOffset; ColDelivery; ColEpoch; ColHeaders; ColKey; ColValue].

Definition column_rank (column : Column) : nat :=
  match column with
  | ColTimestamp => 0 | ColPartition => 1 | ColOffset => 2 | ColDelivery => 3
  | ColEpoch => 4 | ColHeaders => 5 | ColKey => 6 | ColValue => 7
  end.

#[export] Program Instance column_ord : Ord Column :=
  {| cmp x y := Nat.compare (column_rank x) (column_rank y) |}.
Next Obligation. intros [] []; cbn; split; done. Qed.
Next Obligation. intros. apply Nat.compare_antisym. Qed.
Next Obligation. intros x y z. rewrite !Nat.compare_lt_iff. lia. Qed.

(** [Column::property]. *)
Definition column_property (column : Column) : string :=
  match column with
  | ColTimestamp => "print.timestamp" | ColPartition => "print.partition" | ColOffset => "print.offset"
  | ColDelivery => "print.delivery" | ColEpoch => "print.epoch" | ColHeaders => "print.headers"
  | ColKey => "print.key" | ColValue => "print.value"
  end.

(** ** [DefaultMessageFormatter] *)

Record DefaultFormatter := {
  df_columns : btree Column unit;
  df_key_separator : string;
  df_line_separator : string;
  df_headers_separator : string;
  df_null_literal : string;
  df_key_deserializer : option Deserializer;
  df_value_deserializer : option Deserializer;
  df_headers_deserializer : option Deserializer
}.
#[export] Instance DefaultFormatter_eq_dec : EqDecision DefaultFormatter.
Proof. solve_decision. Defined.

Definition TAB : string := bytes [9].

(** [Default for DefaultFormatter]. *)
Definition default_formatter : DefaultFormatter :=
  {| df_columns := [(ColValue, tt)]; df_key_separator := TAB; df_line_separator := LF;
     df_headers_separator := ","; df_null_literal := "null"; df_key_deserializer := None;
     df_value_deserializer := None; df_headers_deserializer := None |}.

(** The columns that the [print.*] properties turn on and off. *)
Definition configure_columns (properties : Properties) (columns : btree Column unit) : btree Column unit :=
  foldl (λ columns column,
    match raw properties (column_property column) with
    | Some value => if is_true value then bt_insert column tt columns else bt_remove column columns
    | None => columns
    end) columns ALL_COLUMNS.

(** One [*.deserializer] property: the slot, and the warning. *)
Definition configure_deserializer (properties : Properties) (key : string)
    : option Deserializer * list string :=
  match raw properties key with
  | None => (None, [])
  | Some name =>
      match from_class name with
      | Some d => (Some d, [])
      | None => (None, ["Unable to instantiate a deserializer from " +:+ name])
      end
  end.

(** [DefaultFormatter::configure]. *)
Definition formatter_configure (properties : Properties) : DefaultFormatter * list string :=
  let text key initial := default initial (raw properties key) in
  let '(key, key_warnings) := configure_deserializer properties "key.deserializer" in
  let '(value, value_warnings) := configure_deserializer properties "value.deserializer" in
  let '(headers, headers_warnings) := configure_deserializer properties "headers.deserializer" in
  ({| df_columns := configure_columns properties (df_columns default_formatter);
      df_key_separator := text "key.separator" (df_key_separator default_formatter);
      df_line_separator := text "line.separator" (df_line_separator default_formatter);
      df_headers_separator := text "headers.separator" (df_headers_separator default_formatter);
      df_null_literal := text "null.literal" (df_null_literal default_formatter);
      df_key_deserializer := key; df_value_deserializer := value; df_headers_deserializer := headers |},
   key_warnings ++ value_warnings ++ headers_warnings).

Section Format.
Context (formatter : DefaultFormatter).

(** [DefaultFormatter::deserialize]. *)
Definition deserialize_field (d : option Deserializer) (data : option string) : result string string :=
  let data := default (df_null_literal formatter) data in
  match d with Some d => deserialize d data | None => Ok data end.

(** The headers, after the first ones. *)
Fixpoint format_headers (index : nat) (headers : list (string * option string)) : result string string :=
  match headers with
  | [] => Ok ""
  | (key, value) :: headers =>
      text ← deserialize_field (df_headers_deserializer formatter) value;
      rest ← format_headers (S index) headers;
      Ok ((if (0 <? index)%nat then df_headers_separator formatter else "") +:+ key +:+ ":" +:+ text +:+ rest)
  end.

(** What one column prints. *)
Definition format_column (record : ConsumedRecord) (column : Column) : result string string :=
  match column with
  | ColTimestamp => Ok (timestamp_type (cr_timestamp_type record) +:+ ":" +:+ pretty (cr_timestamp record))
  | ColPartition => Ok ("Partition:" +:+ pretty (cr_partition record))
  | ColOffset => Ok ("Offset:" +:+ pretty (cr_offset record))
  | ColDelivery => Ok "Delivery:NOT_PRESENT"
  | ColEpoch => Ok "Epoch:NOT_PRESENT"
  | ColHeaders =>
      text ← format_headers 0 (cr_headers record);
      Ok ((if bool_decide (cr_headers record = []) then "NO_HEADERS" else "") +:+ text)
  | ColKey => deserialize_field (df_key_deserializer formatter) (cr_key record)
  | ColValue => deserialize_field (df_value_deserializer formatter) (cr_value record)
  end.

(** The loop over the columns. *)
Fixpoint format_columns (record : ConsumedRecord) (columns : list Column) : result string string :=
  match columns with
  | [] => Ok ""
  | column :: columns =>
      text ← format_column record column;
      let later := existsb (λ other, bool_decide (cmp column other = Lt)) (bt_keys (df_columns formatter)) in
      rest ← format_columns record columns;
      Ok (text +:+ (if later then df_key_separator formatter else df_line_separator formatter) +:+ rest)
  end.

(** [DefaultFormatter::format]. *)
Definition default_format (record : ConsumedRecord) : result string string :=
  format_columns record (bt_keys (df_columns formatter)).
End Format.

(** ** [Formatter] *)

Inductive Formatter :=
  | FDefault (formatter : DefaultFormatter)
  | FLogging (formatter : DefaultFormatter)
  | FNoOp.
#[export] Instance Formatter_eq_dec : EqDecision Formatter.
Proof. solve_decision. Defined.

Definition simple_name (class : string) : string := default class (last (split_char "." class)).

(** [Formatter::new]. *)
Definition formatter_new (class : string) (properties : Properties) : result string (Formatter * list string) :=
  let named full := bool_decide (class = full) || bool_decide (class = simple_name full) in
  if named DEFAULT_FORMATTER then
    let '(formatter, warnings) := formatter_configure properties in Ok (FDefault formatter, warnings)
  else if named LOGGING_FORMATTER then
    let '(formatter, warnings) := formatter_configure properties in Ok (FLogging formatter, warnings)
  else if named NO_OP_FORMATTER then Ok (FNoOp, [])
  else if bool_decide (simple_name class ∈ INTERNAL_FORMATTERS) then
    Err (class +:+ ": decoding Kafka's internal topics is not supported by krabka console-consumer")
  else
    Err (class +:+ ": no such formatter; krabka builds in " +:+ simple_name DEFAULT_FORMATTER +:+ ", " +:+
      simple_name LOGGING_FORMATTER +:+ " and " +:+ simple_name NO_OP_FORMATTER).

Definition log_line (record : ConsumedRecord) : string :=
  let key := match cr_key record with Some key => from_utf8_lossy key +:+ ", " | None => "null " end in
  let value := from_option from_utf8_lossy "null" (cr_value record) in
  timestamp_type (cr_timestamp_type record) +:+ ":" +:+ pretty (cr_timestamp record) +:+
  ", key:" +:+ key +:+ "value:" +:+ value.

(** [Formatter::format]: the bytes, and the line of the log. *)
Definition format (formatter : Formatter) (record : ConsumedRecord) : result string (string * option string) :=
  match formatter with
  | FDefault formatter => text ← default_format formatter record; Ok (text, None)
  | FLogging formatter => text ← default_format formatter record; Ok (text, Some (log_line record))
  | FNoOp => Ok ("", None)
  end.

Inductive Field := FieldKey | FieldValue | FieldHeader.

(** [Formatter::render_value]. *)
Definition render_value (formatter : Formatter) (data : option string) (field : Field)
    : result string (option string) :=
  match formatter with
  | FNoOp => Ok (from_utf8_lossy <$> data)
  | FDefault formatter | FLogging formatter =>
      match data with
      | None => Ok None
      | Some data =>
          let d := match field with
                   | FieldKey => df_key_deserializer formatter
                   | FieldValue => df_value_deserializer formatter
                   | FieldHeader => df_headers_deserializer formatter
                   end in
          rendered ← match d with Some d => deserialize d data | None => Ok data end;
          Ok (Some (from_utf8_lossy rendered))
      end
  end.

(** ** Cases *)

Definition sample_record : ConsumedRecord :=
  {| cr_topic := "orders"; cr_partition := 3; cr_offset := 42; cr_timestamp := 1700000000000;
     cr_timestamp_type := CreateTime; cr_key := Some "k"; cr_value := Some "v";
     cr_headers := [("h1", Some "a"); ("h2", None)] |}.

Definition formats (entries : list (string * string)) (record : ConsumedRecord) : result string string :=
  fst <$> ('(formatter, _) ← formatter_new "DefaultMessageFormatter" (bt_collect entries); format formatter record).

Example formats_run :
  map (λ entries, formats entries sample_record)
    [[]; [("print.key", "true"); ("key.separator", "|")];
     [("print.timestamp", "true"); ("print.partition", "true"); ("print.offset", "true");
      ("print.delivery", "true"); ("print.epoch", "true"); ("print.headers", "true"); ("print.key", "true");
      ("key.separator", "|"); ("line.separator", "$")];
     [("print.value", "false"); ("print.key", "TRUE "); ("line.separator", ";")];
     [("print.value", "no")];
     [("value.deserializer", "org.apache.kafka.common.serialization.IntegerDeserializer")]] =
  [Ok ("v" +:+ LF); Ok ("k|v" +:+ LF);
   Ok "CreateTime:1700000000000|Partition:3|Offset:42|Delivery:NOT_PRESENT|Epoch:NOT_PRESENT|h1:a,h2:null|k|v$";
   Ok "k;"; Ok ""; Err "Size of data received by IntegerDeserializer is not 4"].
Proof. vm_compute. reflexivity. Qed.

Definition f32_bytes (bits : Z) : string :=
  bytes [bits / 2 ^ 24; bits / 2 ^ 16 mod 256; bits / 2 ^ 8 mod 256; bits mod 256].

Example floats_run :
  map (λ bits, deserialize DeFloat (f32_bytes bits))
    [1065353216; 1036831949; 0; 2147483648; 2139095040; 2143289344; 981668463; 1266679807; 3212836864; 2139095039] =
  map Ok ["1.0"; "0.1"; "0.0"; "-0.0"; "Infinity"; "NaN"; "0.001"; "1.6777215E7"; "-1.0"; "3.4028235E38"].
Proof. vm_compute. reflexivity. Qed.

(** The least value of each type, of which the JDK prints two digits, as it does
    wherever one would do: [4.9E-324] and [1.4E-45]. *)
Example least_values : java_decimal binary64 1 = "5.0E-324" ∧ java_decimal binary32 1 = "1.0E-45".
Proof. by vm_compute. Qed.

Example deserializers_run :
  map (λ case : Deserializer * list Z, deserialize case.1 (bytes case.2))
    [(DeShort, [255; 254]); (DeInteger, [0; 0; 1; 0]); (DeLong, [128; 0; 0; 0; 0; 0; 0; 0]); (DeBoolean, [1]);
     (DeBoolean, [200]); (DeBoolean, []); (DeVoid, []); (DeByteBuffer, [1; 2]); (DeBytes, [65; 92; 10; 255; 126]);
     (DeDouble, [64; 94; 221; 47; 26; 159; 190; 119]); (DeString, [97; 255])] =
  [Ok "-2"; Ok "256"; Ok "-9223372036854775808"; Ok "true";
   Err "Unexpected byte received by BooleanDeserializer: -56";
   Err "Size of data received by BooleanDeserializer is not 1"; Err "Data should be null for a VoidDeserializer.";
   Ok "java.nio.HeapByteBuffer[pos=0 lim=2 cap=2]"; Ok "A\x5C\x0A\xFF~"; Ok "123.456";
   Ok ("a" +:+ REPLACEMENT)].
Proof. vm_compute. reflexivity. Qed.

Example uuids_run :
  map uuid ["123E4567-e89b-12d3-a456-426614174000"; "1-2-3-4-5"; "1-2-3-4"; "123456789-2-3-4-5"; "x-2-3-4-5"] =
  [Some "123e4567-e89b-12d3-a456-426614174000"; Some "00000001-0002-0003-0004-000000000005"; None; None; None].
Proof. vm_compute. reflexivity. Qed.

(** ** What is printed *)

Lemma configure_columns_wf properties columns : bt_wf columns → bt_wf (configure_columns properties columns).
Proof.
  unfold configure_columns. generalize ALL_COLUMNS as all. intros all. revert columns.
  induction all as [|column all IH]; intros columns Hwf; [done|]. cbn. apply IH.
  destruct (raw _ _); [|done]. destruct (is_true _); [by apply bt_insert_wf|by apply bt_remove_wf].
Qed.

Lemma formatter_configure_wf properties : bt_wf (df_columns (formatter_configure properties).1).
Proof.
  unfold formatter_configure. repeat destruct (configure_deserializer _ _). cbn [fst df_columns].
  apply configure_columns_wf. repeat constructor.
Qed.

(** The columns that print: the value, but where it is turned off, and each that
    is turned on. *)
Definition prints (properties : Properties) (column : Column) : bool :=
  match raw properties (column_property column) with
  | Some value => is_true value
  | None => bool_decide (column = ColValue)
  end.

(** Whether a later column prints. *)
Lemma format_columns_sorted formatter record front columns :
  bt_wf (df_columns formatter) → bt_keys (df_columns formatter) = front ++ columns →
  format_columns formatter record columns =
  (texts ← try_map (format_column formatter record) columns;
   Ok (if bool_decide (columns = []) then ""
       else join (df_key_separator formatter) texts +:+ df_line_separator formatter)).
Proof.
  intros Hwf. revert front. induction columns as [|column columns IH]; intros front E; [done|].
  cbn [format_columns try_map]. destruct (format_column formatter record column) as [text|error]; [|done].
  cbn [mbind result_bind].
  specialize (IH (front ++ [column])). rewrite IH by (by rewrite <-app_assoc).
  assert (existsb (λ other, bool_decide (cmp column other = Lt)) (bt_keys (df_columns formatter)) =
    negb (bool_decide (columns = []))) as ->.
  { pose proof (bt_keys_wf _ Hwf) as Hs. rewrite E in Hs |- *.
    apply StronglySorted_app in Hs as (Hcross & _ & Hs).
    apply StronglySorted_cons in Hs as [Hall Hs].
    rewrite existsb_app. cbn [existsb]. rewrite cmp_refl, (bool_decide_eq_false_2 (Eq = Lt)) by done.
    assert (existsb (λ other, bool_decide (cmp column other = Lt)) front = false) as ->.
    { apply not_true_iff_false. rewrite existsb_exists. intros (other & Hin & Hlt%bool_decide_eq_true).
      apply list_elem_of_In in Hin. specialize (Hcross other column Hin ltac:(by left)).
      pose proof (cmp_lt_trans _ _ _ Hlt Hcross) as Hc. by rewrite cmp_refl in Hc. }
    cbn [orb]. destruct columns as [|next columns]; [by cbn|]. cbn [existsb].
    apply Forall_cons in Hall as [Hnext _]. rewrite (bool_decide_eq_true_2 (cmp column next = Lt)) by done.
    by rewrite bool_decide_eq_false_2. }
  destruct (try_map _ columns) as [texts|error] eqn:Ht; [|done]. cbn [mbind result_bind].
  rewrite (bool_decide_eq_false_2 (column :: columns = [])) by done.
  destruct columns as [|next columns].
  - cbn in Ht. injection Ht as <-. cbn. by rewrite str_app_nil_r.
  - rewrite bool_decide_eq_false_2 by done. cbn [negb].
    destruct texts as [|first texts]; [by cbn in Ht; repeat destruct (format_column _ _ _), (try_map _ _)|].
    cbn [join]. by rewrite !str_app_assoc.
Qed.

Definition configure_column (properties : Properties) (columns : btree Column unit) (column : Column)
    : btree Column unit :=
  match raw properties (column_property column) with
  | Some value => if is_true value then bt_insert column tt columns else bt_remove column columns
  | None => columns
  end.

Lemma configure_column_get properties columns column other :
  bt_wf columns → bt_wf (configure_column properties columns column) ∧
  bt_get other (configure_column properties columns column) =
    if decide (column = other) then
      match raw properties (column_property column) with
      | Some value => if is_true value then Some tt else None
      | None => bt_get other columns
      end
    else bt_get other columns.
Proof.
  intros Hwf. unfold configure_column. destruct (raw _ _) as [value|]; [|by case_decide].
  destruct (is_true value).
  - split; [by apply bt_insert_wf|]. rewrite bt_get_insert by done. done.
  - split; [by apply bt_remove_wf|]. case_decide as E; [|by apply bt_get_remove_ne]. subst other.
    destruct (bt_get column (bt_remove column columns)) as [[]|] eqn:Hg; [|done].
    apply bt_get_elem in Hg; [|by apply bt_remove_wf]. unfold bt_remove in Hg.
    apply list_elem_of_filter in Hg as [Hne _]. by destruct Hne.
Qed.

Lemma configure_columns_get properties all columns other :
  bt_wf columns →
  bt_wf (foldl (configure_column properties) columns all) ∧
  bt_get other (foldl (configure_column properties) columns all) =
    if decide (other ∈ all) then
      match raw properties (column_property other) with
      | Some value => if is_true value then Some tt else None
      | None => bt_get other columns
      end
    else bt_get other columns.
Proof.
  revert columns. induction all as [|column all IH]; intros columns Hwf; [done|]. cbn [foldl].
  destruct (configure_column_get properties columns column other Hwf) as [Hwf' Hg].
  destruct (IH _ Hwf') as [Hw ->]. split; [done|]. rewrite Hg.
  repeat case_decide; subst; try set_solver; by repeat case_match.
Qed.

Lemma configured_columns properties :
  bt_keys (configure_columns properties (df_columns default_formatter)) =
  List.filter (prints properties) ALL_COLUMNS.
Proof.
  assert (∀ l, StronglySorted (λ x y : Column, cmp x y = Lt) l →
    bt_wf (map (λ column, (column, tt)) l) ∧ bt_keys (map (λ column, (column, tt)) l) = l) as Hunits.
  { intros l Hl. unfold bt_wf, bt_keys. split.
    - induction Hl as [|x l Hl IH Hx]; cbn; constructor; [done|]. by apply Forall_map.
    - clear. induction l; cbn; congruence. }
  assert (StronglySorted (λ x y : Column, cmp x y = Lt) (List.filter (prints properties) ALL_COLUMNS)) as Hs.
  { assert (StronglySorted (λ x y : Column, cmp x y = Lt) ALL_COLUMNS) as Hall by (repeat constructor).
    induction Hall as [|x l _ IH Hx]; [constructor|]. cbn. destruct (prints properties x); [|done].
    constructor; [done|]. rewrite Forall_forall in Hx |- *. intros y [Hy _]%list_elem_of_In%filter_In.
    apply Hx. by apply list_elem_of_In. }
  destruct (Hunits _ Hs) as [Hw Hk]. rewrite <-Hk. f_equal.
  assert (bt_wf (df_columns default_formatter)) as Hd by (repeat constructor).
  apply bt_ext; [by apply configure_columns_wf|done|]. intros column.
  destruct (configure_columns_get properties ALL_COLUMNS _ column Hd) as [_ Hg].
  change (configure_columns properties (df_columns default_formatter))
    with (foldl (configure_column properties) (df_columns default_formatter) ALL_COLUMNS).
  rewrite Hg. rewrite decide_True by (destruct column; repeat (left; done) || (repeat constructor)).
  destruct (prints properties column) eqn:Hp.
  - transitivity (Some tt).
    + unfold prints in Hp. destruct (raw _ _) as [value|]; [by rewrite Hp|].
      by apply bool_decide_eq_true in Hp as ->.
    + symmetry. apply bt_get_elem; [done|]. apply list_elem_of_In, in_map_iff. exists column. split; [done|].
      apply filter_In. split; [|done]. apply list_elem_of_In. destruct column; repeat constructor.
  - transitivity (@None unit).
    + unfold prints in Hp. destruct (raw _ _) as [value|]; [by rewrite Hp|].
      apply bool_decide_eq_false in Hp. by destruct column.
    + symmetry. apply eq_None_not_Some. intros [[] E].
      apply bt_get_elem, list_elem_of_In, in_map_iff in E as (? & [= ->] & [_ ?]%filter_In); [|done]. congruence.
Qed.

(** What the console consumer prints of a record, for every setting of its
    formatter: the columns that the [print.*] properties leave on, in Kafka's
    order, with the key separator between them and the line separator after the
    last; nothing where no column is left; and the first column that cannot be
    read is the error. *)
Theorem default_format_spec (properties : Properties) (record : ConsumedRecord) :
  let formatter := (formatter_configure properties).1 in
  let columns := List.filter (prints properties) ALL_COLUMNS in
  default_format formatter record =
    (texts ← try_map (format_column formatter record) columns;
     Ok (if bool_decide (columns = []) then ""
         else join (df_key_separator formatter) texts +:+ df_line_separator formatter)).
Proof.
  cbv zeta. assert (bt_keys (df_columns (formatter_configure properties).1) =
    List.filter (prints properties) ALL_COLUMNS) as E.
  { unfold formatter_configure. repeat destruct (configure_deserializer _ _). apply configured_columns. }
  unfold default_format. rewrite <-E. apply (format_columns_sorted _ _ []); [|done].
  apply formatter_configure_wf.
Qed.

(** Headers without their deserializer. *)
Lemma format_headers_join formatter headers :
  df_headers_deserializer formatter = None →
  format_headers formatter 0 headers =
    Ok (join (df_headers_separator formatter)
      (map (λ header : string * option string,
        header.1 +:+ ":" +:+ default (df_null_literal formatter) header.2) headers)).
Proof.
  intros Hd. assert (∀ n headers, format_headers formatter (S n) headers =
    Ok (foldr (λ text rest, df_headers_separator formatter +:+ text +:+ rest) ""
      (map (λ header : string * option string,
        header.1 +:+ ":" +:+ default (df_null_literal formatter) header.2) headers))) as Hn.
  { intros n hs. revert n. induction hs as [|[key value] hs IH]; intros n; [done|].
    cbn [format_headers]. unfold deserialize_field. rewrite Hd, IH. cbn. by rewrite !str_app_assoc. }
  destruct headers as [|[key value] headers]; [done|]. cbn [format_headers]. unfold deserialize_field.
  rewrite Hd, Hn. cbn [mbind result_bind Nat.ltb Nat.leb map fst snd]. f_equal. rewrite str_app_nil_l.
  assert (∀ first texts, join (df_headers_separator formatter) (first :: texts) =
    first +:+ foldr (λ text rest, df_headers_separator formatter +:+ text +:+ rest) "" texts) as Hj.
  { intros first texts. revert first. induction texts as [|text texts IH]; intros first; cbn [join foldr];
      [by rewrite str_app_nil_r|]. by rewrite <-IH. }
  by rewrite Hj, !str_app_assoc.
Qed.
