(* ===== verification/ConsoleRoundTrip.v ===== *)
(** What [console-consumer] prints, [console-producer] reads: the formatter of the
    one and the line reader of the other, with matching properties, carry records
    from one topic to another. *)

From Stdlib Require Import Ascii.
From S2P Require Import Prelude Collections Rust Properties Patterns Console LineReader ConsoleFormatter.

Section Copy.
Context `{RegexFind}.

(** The properties of the two tools match: [--formatter-property] prints headers,
    key and value with the separators that [--reader-property] expects, null as
    its marker. *)
Record matched (formatter : DefaultFormatter) (reader : LineReader) (c : ascii) : Prop := {
  m_columns : df_columns formatter = [(ColHeaders, tt); (ColKey, tt); (ColValue, tt)];
  m_raw : df_key_deserializer formatter = None ∧ df_value_deserializer formatter = None ∧
    df_headers_deserializer formatter = None;
  m_lines : df_line_separator formatter = LF;
  m_headers : lr_parse_headers reader = true ∧ lr_headers_delimiter reader = df_key_separator formatter;
  m_key : lr_parse_key reader = true ∧ lr_key_separator reader = df_key_separator formatter;
  m_separator : lr_headers_separator reader = df_headers_separator formatter ∧
    df_headers_separator formatter = String c "" ∧ lr_headers_key_separator reader = ":";
  m_pattern : separates (lr_headers_separator_pattern reader) c;
  m_null : lr_null_marker reader = Some (df_null_literal formatter)
}.

(** The record that is sent for one that was consumed. *)
Definition copied (topic : string) (record : ConsumedRecord) : ProducerRecord :=
  {| pr_topic := topic; pr_partition := None; pr_key := cr_key record; pr_value := cr_value record;
     pr_headers := cr_headers record; pr_timestamp_ms := None |}.

(** All that is printed for records. *)
Fixpoint printed (formatter : DefaultFormatter) (records : list ConsumedRecord) : result string string :=
  match records with
  | [] => Ok ""
  | record :: records =>
      text ← default_format formatter record; rest ← printed formatter records; Ok (text +:+ rest)
  end.

(** A line of its own, in UTF-8. *)
Definition one_line (line : string) : Prop :=
  is_text line ∧ all_bytes (λ c, negb (is_lf c || is_cr c)) line = true.

Lemma split_lines_line line rest :
  all_bytes (λ c, negb (is_lf c || is_cr c)) line = true →
  split_lines (line +:+ LF +:+ rest) = line :: split_lines rest.
Proof.
  intros Hl. unfold split_lines. assert (∀ before, split_lines_from before (line +:+ LF +:+ rest) =
    (before +:+ line) :: split_lines_from "" rest) as Hgo; [|by rewrite Hgo, str_app_nil_l].
  induction line as [|c line IH]; intros before; [by rewrite str_app_nil_l, str_app_nil_r|].
  cbn [all_bytes] in Hl. apply andb_true_iff in Hl as [Hc Hl]. rewrite str_app_cons. cbn [split_lines_from].
  apply negb_true_iff, orb_false_iff in Hc as [-> ->]. rewrite IH by done.
  by rewrite str_app_assoc, str_app_sep.
Qed.

(** A record is printed as the line that the reader takes for it. *)
Lemma printed_line formatter reader c record :
  matched formatter reader c → cr_headers record ≠ [] →
  default_format formatter record = Ok (line_of reader (copied (lr_topic reader) record) +:+ LF).
Proof.
  intros Hm Hne. destruct Hm as [Hcol (Hk & Hv & Hh) Hl [Hph Hhd] [Hpk Hks] (Hs & _ & Hkv) _ Hn].
  unfold default_format. rewrite Hcol. cbn [bt_keys map fmap list_fmap fst format_columns format_column].
  rewrite format_headers_join by done. cbn [mbind result_bind]. unfold deserialize_field. rewrite Hk, Hv.
  cbn [mbind result_bind]. rewrite Hcol. cbn [bt_keys map fmap list_fmap fst existsb].
  rewrite (bool_decide_eq_false_2 (cr_headers record = [])) by done. rewrite str_app_nil_l.
  rewrite Hl. f_equal. unfold line_of, headers_text, copied, field_text.
  cbn [pr_topic pr_key pr_value pr_headers]. rewrite Hph, Hpk, Hhd, Hks, Hs, Hn.
  rewrite bool_decide_eq_false_2 by done. unfold header_text, field_text. rewrite Hkv, Hn.
  cbn. rewrite !str_app_assoc. by repeat case_bool_decide.
Qed.

(** Counting lines changes nothing of how they are read. *)
Lemma line_of_next reader record : line_of (next_line reader) record = line_of reader record.
Proof. done. Qed.
Lemma writable_next reader c record : writable reader c record → writable (next_line reader) c record.
Proof. by intros []. Qed.

(** C11. A topic is copied by piping [console-consumer] into [console-producer]: where
    the two are given matching separators and a null marker, and each record, which
    has headers, is told apart by the separators and is printed on a line of UTF-8
    text, every record is sent as it was consumed, key, value and headers, in order
    and each once. *)
Theorem console_round_trip formatter reader c (records : list ConsumedRecord) :
  matched formatter reader c →
  Forall (λ record, cr_headers record ≠ [] ∧ writable reader c (copied (lr_topic reader) record) ∧
    one_line (line_of reader (copied (lr_topic reader) record))) records →
  ∃ output, printed formatter records = Ok output ∧
    read_lines reader (split_lines output) = Ok (map (copied (lr_topic reader)) records).
Proof.
  intros Hm Hr. revert reader Hm Hr.
  induction records as [|record records IH]; intros reader Hm Hr; [by exists ""|].
  apply Forall_cons in Hr as [(Hne & Hw & Ht & Hl) Hr].
  destruct (IH (next_line reader)) as (output & Ho & Hread).
  { by destruct Hm. }
  { eapply Forall_impl; [exact Hr|]. intros r (? & ?%writable_next & ?). done. }
  exists ((line_of reader (copied (lr_topic reader) record) +:+ LF) +:+ output). split.
  - cbn [printed]. rewrite (printed_line formatter reader c) by done. by rewrite Ho.
  - rewrite str_app_assoc, split_lines_line by done. cbn [read_lines]. unfold reader_record.
    rewrite lossy_text by done. rewrite <-line_of_next.
    rewrite (line_record_line (next_line reader) c); [cbn [mbind result_bind]; by rewrite Hread| | |];
      destruct Hm as [? ? ? ? ? (? & ? & ?) ? ?]; [done| |by apply writable_next].
    cbn. congruence.
Qed.
End Copy.

(** ** A copy *)

#[local] Existing Instance byte_regex.
#[local] Existing Instance byte_find.

Definition copy_formatter : DefaultFormatter :=
  (formatter_configure (bt_collect [("print.headers", "true"); ("print.key", "true"); ("null.literal", "~")])).1.

Definition copy_reader : LineReader :=
  {| lr_topic := "copy"; lr_parse_key := true; lr_key_separator := tab_text; lr_parse_headers := true;
     lr_headers_delimiter := tab_text; lr_headers_separator := ","; lr_headers_key_separator := ":";
     lr_ignore_error := false; lr_null_marker := Some "~"; lr_headers_separator_pattern := Some ","%char;
     lr_line_number := 0 |}.

Example copy_reader_configured :
  reader_configure (bt_collect [("parse.headers", "true"); ("parse.key", "true"); ("null.marker", "~");
    ("topic", "copy")]) "copy" = Ok copy_reader.
Proof. vm_compute. reflexivity. Qed.

Definition order (key value : option string) : ConsumedRecord :=
  {| cr_topic := "orders"; cr_partition := 0; cr_offset := 7; cr_timestamp := 0; cr_timestamp_type := CreateTime;
     cr_key := key; cr_value := value; cr_headers := [("h1", Some "a"); ("h2", None)] |}.

Lemma console_round_trip_witness :
  ∃ output, printed copy_formatter [order (Some "k") (Some "v:1"); order None None] = Ok output ∧
    read_lines copy_reader (split_lines output) =
      Ok (map (copied "copy") [order (Some "k") (Some "v:1"); order None None]).
Proof.
  apply (console_round_trip copy_formatter copy_reader ","%char).
  - constructor; try done; by vm_compute.
  - repeat (apply Forall_cons; split); [| |constructor].
    all: (split; [done|split; [constructor; try done; vm_compute; repeat constructor; try done; try (by intros)|]]).
    all: split; [apply is_text_ascii|]; by vm_compute.
Defined.
