(* ===== verification/ConsoleProducer.v ===== *)
(** [krabka console-producer], [console_producer.rs]: the checks of the command
    line, the merging and the validation of the producer's settings, and the loop
    that sends each line of standard input.

    The producer, the terminal, standard input and Ctrl-C are calls of the world
    [producing]. A [select!] against Ctrl-C is a call whose answer [None] is that
    Ctrl-C came first. The tasks that await the deliveries of an asynchronous run
    share nothing but two counters, which are read after all of them were joined;
    they are awaited there, in the order in which they were spawned. The lines that
    [tracing] logs at the level of information are left out. *)

From Stdlib Require Import Ascii.
From S2P Require Import Prelude Collections Rust Json Output Properties Connection Patterns Program Console LineReader.

Definition PRODUCER_COMMAND : string := "krabka console-producer".
Definition LINE_READER : string := "org.apache.kafka.tools.LineMessageReader".

Record ConsoleProducerArgs := {
  cpa_topic : option string;
  cpa_bootstrap_server : option string;
  cpa_sync : bool;
  cpa_compression_codec : option string;
  cpa_batch_size : option Z;
  cpa_message_send_max_retries : option Z;
  cpa_retry_backoff_ms : option Z;
  cpa_timeout : option Z;
  cpa_request_required_acks : option string;
  cpa_request_timeout_ms : option Z;
  cpa_metadata_expiry_ms : option Z;
  cpa_max_block_ms : option Z;
  cpa_max_memory_bytes : option Z;
  cpa_max_partition_memory_bytes : option Z;
  cpa_line_reader : string;
  cpa_socket_buffer_size : option Z;
  cpa_property : list string;
  cpa_reader_property : list string;
  cpa_reader_config : option string;
  cpa_producer_property : list string;
  cpa_command_property : list string;
  cpa_producer_config : option string;
  cpa_command_config : option string
}.

(** [krabka_client_producer]'s [Acks], and what its codecs read. *)
Inductive Acks := AcksAll | AcksOne | AcksZero.
#[export] Instance Acks_eq_dec : EqDecision Acks.
Proof. solve_decision. Defined.
Class KrabkaProducer := { Compression : Type; parse_compression : string → option Compression }.

(** ** The settings *)

Section Settings.
Context `{KrabkaProducer}.

Record Settings := {
  set_compression : Compression;
  set_acks : Acks;
  set_enable_idempotence : bool;
  set_linger_ms : Z;
  set_batch_size : Z;
  set_request_timeout_ms : Z;
  set_retries : Z;
  set_retry_backoff_ms : Z;
  set_retry_backoff_max_ms : Z;
  set_max_block_ms : Z;
  set_delivery_timeout_ms : Z;
  set_buffer_memory : Z;
  set_max_request_size : Z;
  set_max_in_flight : Z;
  set_metadata_max_age_ms : Z;
  set_metadata_max_idle_ms : Z;
  set_enable_metrics_push : bool;
  set_send_buffer : option Z;
  set_receive_buffer : option Z
}.

(** [idempotence]. *)
Definition idempotence (properties : Properties) (acks : Acks) (retries : Z) : result string bool :=
  let configured := is_some (prop_get properties "enable.idempotence") in
  enabled ← bool_property properties "enable.idempotence" true;
  if negb enabled then Ok false
  else if retries =? 0 then
    if configured then Err "Must set retries to non-zero when using the idempotent producer."
    else Ok false
  else if bool_decide (acks ≠ AcksAll) then
    if configured then
      Err "Must set acks to all in order to use the idempotent producer. Otherwise we cannot guarantee idempotence."
    else Ok false
  else Ok true.

Definition at_least (name : string) (value min : Z) : result string Z :=
  if value <? min then Err (config_error name (pretty value) ("Value must be at least " +:+ pretty min))
  else Ok value.

Definition acks_value (text : string) : result string Acks :=
  if bool_decide (text ∈ ["all"; "-1"]) then Ok AcksAll
  else if bool_decide (text = "1") then Ok AcksOne
  else if bool_decide (text = "0") then Ok AcksZero
  else Err (config_error "acks" text "String must be one of: all, -1, 0, 1").

(** -1 keeps the buffer of the operating system. *)
Definition socket_buffer (properties : Properties) (name : string) (initial : Z) : result string (option Z) :=
  value ← number_property properties name "INT" initial;
  if value <? -1 then Err (config_error name (pretty value) "Value must be at least -1")
  else Ok (if value <? 0 then None else Some value).

(** [Settings::from_properties]. *)
Definition settings_from_properties (properties : Properties) : result string Settings :=
  if is_some (prop_get properties "transactional.id") then
    Err "Cannot perform a 'send' before completing a call to initTransactions when transactions are enabled."
  else
    let compression := default "none" (prop_get properties "compression.type") in
    compression ← ok_or (parse_compression compression)
      (config_error "compression.type" compression "String must be one of: none, gzip, snappy, lz4, zstd");
    acks ← acks_value (default "all" (prop_get properties "acks"));
    let int name initial := number_property properties name "INT" initial in
    let long name initial := number_property properties name "LONG" initial in
    send_buffer ← socket_buffer properties "send.buffer.bytes" 131072;
    receive_buffer ← socket_buffer properties "receive.buffer.bytes" 32768;
    retries ← int "retries" i32_MAX;
    retries ← at_least "retries" retries 0;
    let retries := Z.min retries i32_MAX in
    enable_idempotence ← idempotence properties acks retries;
    linger_ms ← long "linger.ms" 5; linger_ms ← at_least "linger.ms" linger_ms 0;
    batch_size ← int "batch.size" 16384; batch_size ← at_least "batch.size" batch_size 0;
    request_timeout_ms ← int "request.timeout.ms" 30000;
    request_timeout_ms ← at_least "request.timeout.ms" request_timeout_ms 0;
    retry_backoff_ms ← long "retry.backoff.ms" 100;
    retry_backoff_ms ← at_least "retry.backoff.ms" retry_backoff_ms 0;
    retry_backoff_max_ms ← long "retry.backoff.max.ms" 1000;
    retry_backoff_max_ms ← at_least "retry.backoff.max.ms" retry_backoff_max_ms 0;
    max_block_ms ← long "max.block.ms" 60000; max_block_ms ← at_least "max.block.ms" max_block_ms 0;
    delivery_timeout_ms ← int "delivery.timeout.ms" 120000;
    delivery_timeout_ms ← at_least "delivery.timeout.ms" delivery_timeout_ms 0;
    buffer_memory ← long "buffer.memory" 33554432; buffer_memory ← at_least "buffer.memory" buffer_memory 0;
    max_request_size ← int "max.request.size" 1048576;
    max_request_size ← at_least "max.request.size" max_request_size 0;
    max_in_flight ← int "max.in.flight.requests.per.connection" 5;
    max_in_flight ← at_least "max.in.flight.requests.per.connection" max_in_flight 1;
    if enable_idempotence && (5 <? max_in_flight) then
      Err ("To use the idempotent producer, max.in.flight.requests.per.connection must be set to at most 5. Current value is " +:+
        pretty max_in_flight +:+ ".")
    else
      metadata_max_age_ms ← long "metadata.max.age.ms" 300000;
      metadata_max_age_ms ← at_least "metadata.max.age.ms" metadata_max_age_ms 0;
      metadata_max_idle_ms ← long "metadata.max.idle.ms" 300000;
      metadata_max_idle_ms ← at_least "metadata.max.idle.ms" metadata_max_idle_ms 5000;
      enable_metrics_push ← bool_property properties "enable.metrics.push" true;
      Ok {| set_compression := compression; set_acks := acks; set_enable_idempotence := enable_idempotence;
            set_linger_ms := linger_ms; set_batch_size := Z.max batch_size 1;
            set_request_timeout_ms := request_timeout_ms; set_retries := retries;
            set_retry_backoff_ms := retry_backoff_ms; set_retry_backoff_max_ms := retry_backoff_max_ms;
            set_max_block_ms := max_block_ms; set_delivery_timeout_ms := delivery_timeout_ms;
            set_buffer_memory := buffer_memory; set_max_request_size := max_request_size;
            set_max_in_flight := max_in_flight; set_metadata_max_age_ms := metadata_max_age_ms;
            set_metadata_max_idle_ms := metadata_max_idle_ms; set_enable_metrics_push := enable_metrics_push;
            set_send_buffer := send_buffer; set_receive_buffer := receive_buffer |}.
End Settings.
Arguments Settings {_}.

(** ** The bootstrap servers *)

Definition host_char (c : ascii) : bool :=
  is_ascii_alphanumeric c || existsb (λ d, (d =? c)%char) ["-"; "%"; "."; "_"]%char.

(** [address.split_once(://)]. *)
Definition split_scheme (address : string) : option (string * string) :=
  index ← str_find "://" address; Some (slice 0 index address, from_byte (index + 3) address).

(** [has_port]. *)
Definition has_port (address : string) : bool :=
  let rest := match split_scheme address with
              | Some (scheme, rest) => if all_bytes host_char scheme then rest else address
              | None => address
              end in
  match rsplit_once ":" rest with
  | None => false
  | Some (host, port) =>
      let host := default host (strip_prefix "[" host) in
      let host := default host (strip_suffix "]" host) in
      negb (bool_decide (port = "")) && all_bytes is_ascii_digit port &&
      all_bytes (λ c, host_char c || (c =? ":")%char) host
  end.

Definition validate_bootstrap (bootstrap : option string) : result string (list string) :=
  match bootstrap with
  | Some text =>
      if bool_decide (trim text = "") then Err "Error while validating the bootstrap address"
      else
        let entries := split_char "," text in
        if forallb has_port entries then Ok entries
        else Err "Please provide valid host:port like host1:9091,host2:9092"
  | None => Err "Error while validating the bootstrap address"
  end.

(** ** The plan *)

(** The deprecation warnings. *)
Definition producer_warnings (args : ConsoleProducerArgs) : list string :=
  map snd (List.filter fst
    [(bool_decide (cpa_producer_property args ≠ []),
      "Warning: --producer-property is deprecated and will be removed in a future version. Use --command-property instead.");
     (is_some (cpa_producer_config args),
      "Warning: --producer.config is deprecated and will be removed in a future version. Use --command-config instead.");
     (bool_decide (cpa_property args ≠ []),
      "Warning: --property is deprecated and will be removed in a future version. Use --reader-property instead.");
     (is_some (cpa_max_partition_memory_bytes args),
      "Warning: --max-partition-memory-bytes is deprecated and will be removed in Apache Kafka 5.0. Use --batch-size instead.")]).

(** The checks of [plan], in their order. *)
Definition producer_usage (args : ConsoleProducerArgs) : option string :=
  if negb (is_some (cpa_topic args)) then Some ("Missing required argument " +:+ dquote +:+ "[topic]" +:+ dquote)
  else if is_some (cpa_command_config args) && is_some (cpa_producer_config args) then
    Some "Options --command-config and --producer.config cannot be specified together."
  else if bool_decide (cpa_command_property args ≠ []) && bool_decide (cpa_producer_property args ≠ []) then
    Some "Options --command-property and --producer-property cannot be specified together."
  else if bool_decide (cpa_reader_property args ≠ []) && bool_decide (cpa_property args ≠ []) then
    Some "Options --reader-property and --property cannot be specified together."
  else None.

(** [merge]: a flag, or the default of a property that is not set. *)
Definition merge (key : string) (flag : option string) (initial : string) (properties : Properties) : Properties :=
  if is_some flag || negb (is_some (prop_get properties key)) then
    prop_insert key (default initial flag) properties
  else properties.

(** [producer_properties], from the properties of the file. *)
Definition producer_properties (args : ConsoleProducerArgs) (from_file : Properties) : Properties :=
  let extra := key_value_args (if bool_decide (cpa_producer_property args = []) then cpa_command_property args
                               else cpa_producer_property args) in
  let properties := overlay from_file extra in
  let properties := match cpa_bootstrap_server args with
                    | Some bootstrap => prop_insert "bootstrap.servers" bootstrap properties
                    | None => properties
                    end in
  let compression := match cpa_compression_codec args with
                     | None => "none"
                     | Some codec => if bool_decide (codec = "") then "gzip" else codec
                     end in
  let properties := prop_insert "compression.type" compression properties in
  let properties := if is_some (prop_get properties "client.id") then properties
                    else prop_insert "client.id" "console-producer" properties in
  let text : option Z → option string := fmap pretty in
  let properties := merge "linger.ms" (text (cpa_timeout args)) "1000" properties in
  let properties := merge "acks" (cpa_request_required_acks args) "-1" properties in
  let properties := merge "request.timeout.ms" (text (cpa_request_timeout_ms args)) "1500" properties in
  let properties := merge "retries" (text (cpa_message_send_max_retries args)) "3" properties in
  let properties := merge "retry.backoff.ms" (text (cpa_retry_backoff_ms args)) "100" properties in
  let properties := merge "send.buffer.bytes" (text (cpa_socket_buffer_size args)) "102400" properties in
  let properties := merge "buffer.memory" (text (cpa_max_memory_bytes args)) "33554432" properties in
  let properties := merge "batch.size" (text (cpa_batch_size args)) "16384" properties in
  let properties := merge "batch.size" (text (cpa_max_partition_memory_bytes args)) "16384" properties in
  let properties := merge "metadata.max.age.ms" (text (cpa_metadata_expiry_ms args)) "300000" properties in
  merge "max.block.ms" (text (cpa_max_block_ms args)) "60000" properties.

(** [reader_properties], from the properties of the file. *)
Definition reader_properties (args : ConsoleProducerArgs) (from_file : Properties) : Properties :=
  let properties := match cpa_topic args with
                    | Some topic => prop_insert "topic" topic from_file
                    | None => from_file
                    end in
  overlay properties (key_value_args (if bool_decide (cpa_property args = []) then cpa_reader_property args
                                      else cpa_property args)).

(** ** The world *)

(** Errors of the producer: the codes of brokers, records that are too large, and
    others with their text. *)
Inductive RecordSizeLimit := MaxRequestSize (max : Z) | BufferMemory.
Inductive ProducerError :=
  | ServerError (code : Z)
  | RecordTooLarge (record_size : Z) (limit : RecordSizeLimit)
  | OtherProducerError (text : string).

Definition producer_error_name (code : Z) : option string :=
  snd <$> find (λ entry, fst entry =? code)
    [(2, "CORRUPT_MESSAGE"); (3, "UNKNOWN_TOPIC_OR_PARTITION"); (10, "MESSAGE_TOO_LARGE");
     (17, "INVALID_TOPIC_EXCEPTION"); (18, "RECORD_LIST_TOO_LARGE"); (19, "NOT_ENOUGH_REPLICAS");
     (20, "NOT_ENOUGH_REPLICAS_AFTER_APPEND"); (21, "INVALID_REQUIRED_ACKS");
     (29, "TOPIC_AUTHORIZATION_FAILED"); (31, "CLUSTER_AUTHORIZATION_FAILED"); (32, "INVALID_TIMESTAMP");
     (43, "UNSUPPORTED_FOR_MESSAGE_FORMAT"); (45, "OUT_OF_ORDER_SEQUENCE_NUMBER");
     (47, "INVALID_PRODUCER_EPOCH"); (53, "TRANSACTIONAL_ID_AUTHORIZATION_FAILED");
     (59, "UNKNOWN_PRODUCER_ID"); (76, "UNSUPPORTED_COMPRESSION_TYPE"); (87, "INVALID_RECORD")].

Definition producer_error (error : ProducerError) : string :=
  match error with
  | ServerError code =>
      match producer_error_name code with
      | Some name => name +:+ " (" +:+ pretty code +:+ ")"
      | None => "broker error code " +:+ pretty code
      end
  | RecordTooLarge size (MaxRequestSize max) =>
      "The message is " +:+ pretty size +:+ " bytes when serialized which is larger than " +:+ pretty max +:+
      ", which is the value of the max.request.size configuration."
  | RecordTooLarge size BufferMemory =>
      "The message is " +:+ pretty size +:+
      " bytes when serialized which is larger than the total memory buffer you have configured with the buffer.memory configuration."
  | OtherProducerError text => text
  end.

(** The record as the log describes it. *)
Definition describe_record (record : ProducerRecord) : string :=
  let size (data : option string) :=
    match data with None => "null" | Some data => pretty (String.length data) +:+ " bytes" end in
  "topic " +:+ pr_topic record +:+ " with key: " +:+ size (pr_key record) +:+ ", value: " +:+ size (pr_value record).

Section Produce.
Context `{KrabkaProducer} `{KrabkaClient} `{RegexFind}.

Record ProducerPlan := {
  pp_bootstrap : list string;
  pp_topic : string;
  pp_sync : bool;
  pp_properties : Properties;
  pp_reader : LineReader;
  pp_warnings : list string
}.

(** What the builder of the producer is given; durations in milliseconds. *)
Record ProducerConfig := {
  pc_bootstrap : string;
  pc_client_id : string;
  pc_settings : Settings;
  pc_flush_timeout_ms : Z;
  pc_security : option ClientSecurity
}.

Inductive producer_call :=
  | PReadFile (path : string)
  | PEnvVar (name : string)
  | PWarn (line : string)
  | PStdinIsTerminal
  | PStdoutIsTerminal
  | PBuild (config : ProducerConfig)
  | PPrompt
  | PReadUntilNewline
  | PEnqueue (record : ProducerRecord)
  | PDelivery (handle : nat)
  | PLogError (line : string)
  | PClose
  | PEmitError (message : string) (exit : Exit) (format : OutputFormat)
  | PEmitSuccess (result : CommandResult) (format : OutputFormat).

Definition producing_answer (c : producer_call) : Type :=
  match c with
  | PReadFile _ => result string (list Z)
  | PEnvVar _ => option string
  | PStdinIsTerminal | PStdoutIsTerminal => bool
  | PBuild _ => option (result ProducerError unit)
  | PReadUntilNewline => option (result string string)
  | PEnqueue _ => option (result ProducerError nat)
  | PDelivery _ | PClose => result ProducerError unit
  | PWarn _ | PPrompt | PLogError _ | PEmitError _ _ _ | PEmitSuccess _ _ => unit
  end.

Definition producing : Signature := {| call := producer_call; answer := producing_answer |}.
Definition tell_producer (c : producer_call) : prog producing (producing_answer c) := ask (Σ := producing) c.

(** [fail]. *)
Definition producer_fail (message : string) (format : OutputFormat) : prog producing Exit :=
  tell_producer (PEmitError message Failure format);; mret Failure.

(** A file of properties, where there is one. *)
Definition producer_file (path : option string) : prog producing (result string Properties) :=
  match path with
  | Some path => read ← tell_producer (PReadFile path); mret (load_properties path read)
  | None => mret (Ok [])
  end.

Definition first_some {A} (x y : option A) : option A := match x with Some a => Some a | None => y end.

(** [ConsoleProducerArgs::plan]. *)
Definition producer_plan (args : ConsoleProducerArgs) : prog producing (result ConsoleRefusal ProducerPlan) :=
  match producer_usage args, cpa_topic args with
  | Some message, _ => mret (Err (UsageRefused message))
  | None, None => Halt Panic
  | None, Some topic =>
      match validate_bootstrap (cpa_bootstrap_server args) with
      | Err message => mret (Err (UsageRefused message))
      | Ok bootstrap =>
          if bool_decide (cpa_line_reader args ≠ LINE_READER) && bool_decide (cpa_line_reader args ≠ "LineMessageReader")
          then mret (Err (FailureRefused (cpa_line_reader args +:+ ": no such reader; krabka builds in " +:+ LINE_READER)))
          else
            reader_file ← producer_file (cpa_reader_config args);
            match reader_file ≫= (λ properties, reader_configure (reader_properties args properties) topic) with
            | Err message => mret (Err (FailureRefused message))
            | Ok reader =>
                file ← producer_file (first_some (cpa_producer_config args) (cpa_command_config args));
                match file with
                | Err message => mret (Err (FailureRefused message))
                | Ok from_file =>
                    mret (Ok {| pp_bootstrap := bootstrap; pp_topic := topic; pp_sync := cpa_sync args;
                                pp_properties := producer_properties args from_file; pp_reader := reader;
                                pp_warnings := producer_warnings args |})
                end
            end
      end
  end.

(** ** The loop *)

(** The state of the loop. A pending delivery has the description of its record. *)
Record Producing := {
  st_reader : LineReader;
  st_pending : list (string * result ProducerError nat);
  st_sent : Z;
  st_failed : Z;
  st_failure : option string;
  st_cancelled : bool
}.

Definition start (reader : LineReader) : Producing :=
  {| st_reader := reader; st_pending := []; st_sent := 0; st_failed := 0; st_failure := None; st_cancelled := false |}.
Definition with_reader (reader : LineReader) (s : Producing) : Producing :=
  {| st_reader := reader; st_pending := st_pending s; st_sent := st_sent s; st_failed := st_failed s;
     st_failure := st_failure s; st_cancelled := st_cancelled s |}.
Definition with_failure (message : string) (s : Producing) : Producing :=
  {| st_reader := st_reader s; st_pending := st_pending s; st_sent := st_sent s; st_failed := st_failed s;
     st_failure := Some message; st_cancelled := st_cancelled s |}.
Definition with_cancelled (s : Producing) : Producing :=
  {| st_reader := st_reader s; st_pending := st_pending s; st_sent := st_sent s; st_failed := st_failed s;
     st_failure := st_failure s; st_cancelled := true |}.
Definition with_pending (described : string) (queued : result ProducerError nat) (s : Producing) : Producing :=
  {| st_reader := st_reader s; st_pending := st_pending s ++ [(described, queued)]; st_sent := st_sent s;
     st_failed := st_failed s; st_failure := st_failure s; st_cancelled := st_cancelled s |}.

(** The future [delivery]. *)
Definition await_delivery (queued : result ProducerError nat) : prog producing (result ProducerError unit) :=
  match queued with
  | Ok handle => tell_producer (PDelivery handle)
  | Err error => mret (Err error)
  end.

(** [delivered]: counts the outcome of one send. *)
Definition delivered (outcome : result ProducerError unit) (s : Producing) : Producing * option string :=
  match outcome with
  | Ok _ =>
      ({| st_reader := st_reader s; st_pending := st_pending s; st_sent := st_sent s + 1; st_failed := st_failed s;
          st_failure := st_failure s; st_cancelled := st_cancelled s |}, None)
  | Err error =>
      ({| st_reader := st_reader s; st_pending := st_pending s; st_sent := st_sent s; st_failed := st_failed s + 1;
          st_failure := st_failure s; st_cancelled := st_cancelled s |}, Some (producer_error error))
  end.

(** The lines of one chunk; [true] where the loop goes on. *)
Fixpoint send_lines (sync : bool) (lines : list string) (s : Producing) : prog producing (bool * Producing) :=
  match lines with
  | [] => mret (true, s)
  | line :: lines =>
      let '(reader, record) := reader_record (st_reader s) (from_utf8_lossy line) in
      let s := with_reader reader s in
      match record with
      | Err message => mret (false, with_failure message s)
      | Ok record =>
          queued ← tell_producer (PEnqueue record);
          match queued with
          | None => mret (false, with_cancelled s)
          | Some queued =>
              if sync then
                outcome ← await_delivery queued;
                let '(s, message) := delivered outcome s in
                match message with
                | Some message => mret (false, with_failure message s)
                | None => send_lines sync lines s
                end
              else send_lines sync lines (with_pending (describe_record record) queued s)
          end
      end
  end.

(** ['read: loop]. *)
Fixpoint read_loop (fuel : nat) (sync prompt : bool) (s : Producing) : prog producing Producing :=
  match fuel with
  | O => Halt Timeout
  | S fuel =>
      (if prompt then tell_producer PPrompt else mret tt);;
      read ← tell_producer PReadUntilNewline;
      match read with
      | None => mret (with_cancelled s)
      | Some (Err error) => mret (with_failure ("read standard input: " +:+ error) s)
      | Some (Ok chunk) =>
          if bool_decide (chunk = "") then mret s
          else
            '(go_on, s) ← send_lines sync (split_lines chunk) s;
            if (go_on : bool) then read_loop fuel sync prompt s else mret s
      end
  end.

(** Joins the tasks of the pending deliveries. *)
Fixpoint join_pending (pending : list (string * result ProducerError nat)) (s : Producing)
    : prog producing Producing :=
  match pending with
  | [] => mret s
  | (described, queued) :: pending =>
      outcome ← await_delivery queued;
      let '(s, message) := delivered outcome s in
      match message with
      | Some message =>
          tell_producer (PLogError ("Error when sending message to " +:+ described +:+ " with error: " +:+ message));;
          join_pending pending s
      | None => join_pending pending s
      end
  end.

(** The report, after the producer was closed and the tasks were joined. *)
Definition produce_report (plan : ProducerPlan) (format : OutputFormat) (closed : result ProducerError unit)
    (s : Producing) : prog producing Exit :=
  let failure := match st_failure s, closed with
                 | None, Err error => Some (producer_error error)
                 | failure, _ => failure
                 end in
  match failure with
  | Some message => producer_fail message format
  | None =>
      if st_cancelled s then mret Cancelled
      else
        (match format with
         | JsonFormat =>
             tell_producer (PEmitSuccess (rows []
               (object_of [("topic", Str (pp_topic plan)); ("sent", num (st_sent s)); ("failed", num (st_failed s))])
               (0 <? st_failed s)) format)
         | Human => mret tt
         end);;
        if 0 <? st_failed s then
          producer_fail (pretty (st_failed s) +:+ " of " +:+ pretty (st_sent s + st_failed s) +:+
            " records failed to send") format
        else mret Success
  end.

Definition producer_config (plan : ProducerPlan) (settings : Settings) (options : ConnectionOptions)
    : ProducerConfig :=
  {| pc_bootstrap := join "," (pp_bootstrap plan); pc_client_id := options_client_id options;
     pc_settings := settings; pc_flush_timeout_ms := Z.max (set_delivery_timeout_ms settings) 1;
     pc_security := options_security options |}.

(** [produce]. *)
Definition produce (fuel : nat) (plan : ProducerPlan) (prompt : bool) (format : OutputFormat)
    : prog producing Exit :=
  match settings_from_properties (pp_properties plan) with
  | Err message => producer_fail message format
  | Ok settings =>
      kdc_url ← tell_producer (PEnvVar KDC_URL_ENV);
      match client_options (pp_properties plan) (pp_bootstrap plan) "console-producer" kdc_url with
      | Err error => producer_fail (config_error_text error) format
      | Ok options =>
          started ← tell_producer (PBuild (producer_config plan settings options));
          match started with
          | None => mret Cancelled
          | Some (Err error) => producer_fail (producer_error error) format
          | Some (Ok _) =>
              s ← read_loop fuel (pp_sync plan) prompt (start (pp_reader plan));
              closed ← tell_producer PClose;
              s ← join_pending (st_pending s) s;
              produce_report plan format closed s
          end
      end
  end.

(** [warn], for each warning. *)
Fixpoint warn_all (lines : list string) : prog producing unit :=
  match lines with [] => mret tt | line :: lines => tell_producer (PWarn line);; warn_all lines end.

(** [run]. *)
Definition console_producer_run (fuel : nat) (args : ConsoleProducerArgs) (format : OutputFormat)
    : prog producing Exit :=
  plan ← producer_plan args;
  match plan with
  | Err refusal =>
      tell_producer (PEmitError (console_refusal_message refusal) (console_refusal_exit refusal) format);;
      mret (console_refusal_exit refusal)
  | Ok plan =>
      warn_all (pp_warnings plan);;
      prompt ← match format with
               | Human => stdin ← tell_producer PStdinIsTerminal;
                          if (stdin : bool) then tell_producer PStdoutIsTerminal else mret false
               | JsonFormat => mret false
               end;
      produce fuel plan prompt format
  end.
End Produce.

(** ** What a run sent *)

Section Sent.
Context `{KrabkaProducer} `{KrabkaClient} `{RegexFind}.

(** What each read of standard input answered, the chunks among the answers, the
    records that a run sent, and the sends that were acknowledged. *)
Definition read_of (e : event producing) : option (option (result string string)) :=
  match e with existT PReadUntilNewline answer => Some answer | _ => None end.
Definition reads (log : list (event producing)) : list (option (result string string)) := omap read_of log.
Definition chunks_read (log : list (event producing)) : list string := omap (λ answer, answer ≫= result_ok) (reads log).

Definition enqueue_of (e : event producing) : option (ProducerRecord * option (result ProducerError nat)) :=
  match e with existT (PEnqueue record) queued => Some (record, queued) | _ => None end.
Definition enqueues (log : list (event producing)) : list (ProducerRecord * option (result ProducerError nat)) :=
  omap enqueue_of log.

Definition acknowledged (log : list (event producing)) (queued : result ProducerError nat) : Prop :=
  ∃ handle, queued = Ok handle ∧ existT (PDelivery handle) (Ok tt : producing_answer (PDelivery handle)) ∈ log.

Lemma omap_answers (chunks : list string) :
  omap (λ answer, answer ≫= result_ok) ((λ chunk, Some (Ok (E := string) chunk)) <$> chunks) = chunks.
Proof. induction chunks as [|chunk chunks IH]; [done|]. cbn. by rewrite <-IH at 2. Qed.

Lemma acknowledged_mono log log' queued : log ⊆ log' → acknowledged log queued → acknowledged log' queued.
Proof. intros Hs (handle & -> & Hin). exists handle. auto. Qed.

Lemma await_delivery_trace queued log outcome :
  trace (await_delivery queued) log (Done outcome) →
  reads log = [] ∧ enqueues log = [] ∧ (outcome = Ok tt → acknowledged log queued).
Proof.
  destruct queued as [handle|error]; cbn.
  - intros (r & log' & -> & -> & [= ->]). split_and!; [done..|]. intros ->. exists handle. by split; [|left].
  - intros (-> & [= ->]). done.
Qed.

(** What [send_lines] does when it lets the loop go on. *)
Record sent_all (lines : list string) (s s' : Producing) (log : list (event producing)) : Prop := {
  sa_reader : st_reader s' = Nat.iter (length lines) next_line (st_reader s);
  sa_records : read_lines (st_reader s) lines = Ok (enqueues log).*1;
  sa_failure : st_failure s' = st_failure s;
  sa_cancelled : st_cancelled s' = st_cancelled s;
  sa_failed : st_failed s' = st_failed s;
  sa_pending : st_pending s ⊆ st_pending s';
  sa_each : ∀ record queued, (record, queued) ∈ enqueues log →
    ∃ q, queued = Some q ∧ (acknowledged log q ∨ (describe_record record, q) ∈ st_pending s')
}.

Lemma sent_all_nil s : sent_all [] s s [].
Proof. constructor; try done. by intros ? ? ?%elem_of_nil. Qed.

(** One line, then the others. *)
Lemma sent_all_cons line lines s s1 s' record queued log1 log2 reader :
  reader_record (st_reader s) (from_utf8_lossy line) = (reader, Ok record) →
  enqueues log1 = [(record, Some queued)] →
  st_reader s1 = reader → st_failure s1 = st_failure s → st_cancelled s1 = st_cancelled s →
  st_failed s1 = st_failed s → st_pending s ⊆ st_pending s1 →
  acknowledged log1 queued ∨ (describe_record record, queued) ∈ st_pending s1 →
  sent_all lines s1 s' log2 → sent_all (line :: lines) s s' (log1 ++ log2).
Proof.
  intros Hr He T1 T2 T3 T4 T5 Ha [Hs1 Hs2 Hs3 Hs4 Hs5 Hs6 Hs7]. unfold reader_record in Hr. injection Hr as Hr Hrec.
  subst reader. assert (enqueues (log1 ++ log2) = (record, Some queued) :: enqueues log2) as E.
  { unfold enqueues in *. rewrite omap_app, He. done. }
  constructor; try congruence.
  - cbn [length]. by rewrite Nat.iter_succ_r, Hs1, T1.
  - rewrite E. cbn [read_lines reader_record]. rewrite Hrec. cbn [mbind result_bind fmap list_fmap fst].
    by rewrite <-T1, Hs2.
  - by transitivity (st_pending s1).
  - intros r q. rewrite E, elem_of_cons. intros [[= -> ->]|Hin].
    + exists queued. split; [done|]. destruct Ha as [Ha|Ha]; [left|right; by apply Hs6].
      eapply acknowledged_mono; [|exact Ha]. set_solver.
    + destruct (Hs7 _ _ Hin) as (q' & -> & Hq). exists q'. split; [done|]. destruct Hq as [Hq|]; [left|by right].
      eapply acknowledged_mono; [|exact Hq]. set_solver.
Qed.

Lemma send_lines_trace sync lines s log go_on s' :
  trace (send_lines sync lines s) log (Done (go_on, s')) →
  reads log = [] ∧
  if go_on then sent_all lines s s' log else st_failure s' ≠ None ∨ st_cancelled s' = true.
Proof.
  revert s log. induction lines as [|line lines IH]; intros s log; cbn [send_lines].
  - intros (-> & [= -> ->]). split; [done|]. apply sent_all_nil.
  - destruct (reader_record (st_reader s) (from_utf8_lossy line)) as [reader [record|message]] eqn:Hr;
      [|by intros (-> & [= -> ->]); split; [|left]].
    cbn [mbind prog_mbind tell_producer ask prog_bind].
    intros ([queued|] & log' & -> & Ht); [|by destruct Ht as (-> & [= -> ->]); split; [|right]].
    destruct sync.
    + apply trace_bind_inv in Ht as (log1 & [outcome| |] & T1 & T2); [|by destruct T2..].
      destruct T2 as (log2 & -> & Ht). apply await_delivery_trace in T1 as (Hc & He & Hack).
      destruct outcome as [[]|error]; cbn [delivered] in Ht; cycle 1.
      { destruct Ht as (-> & [= -> ->]). split; [|by left].
        unfold reads in *. by cbn; rewrite omap_app, Hc. }
      apply IH in Ht as [Hc2 Ht]. split; [by unfold reads in *; cbn; rewrite omap_app, Hc, Hc2|].
      destruct go_on; [|done]. rewrite app_comm_cons.
      eapply (sent_all_cons _ _ _ _ _ record queued); [exact Hr|..|exact Ht]; try done.
      * unfold enqueues in *. cbn. by rewrite He.
      * left. eapply acknowledged_mono; [|by apply Hack]. set_solver.
    + apply IH in Ht as [Hc2 Ht]. split; [done|]. destruct go_on; [|done].
      apply (sent_all_cons line lines s _ s' record queued
        [existT (PEnqueue record) (Some queued : producing_answer (PEnqueue record))] log' reader Hr) in Ht; try done.
      * cbn. set_solver.
      * right. cbn. set_solver.
Qed.

(** What [read_loop] did where it ended at the end of its input. *)
Lemma read_loop_trace fuel sync prompt s log s' :
  trace (read_loop fuel sync prompt s) log (Done s') →
  (st_failure s' ≠ None ∨ st_cancelled s' = true) ∨
  ∃ chunks, reads log = (λ chunk, Some (Ok chunk)) <$> (chunks ++ [""]) ∧ Forall (λ chunk, chunk ≠ "") chunks ∧
    sent_all (chunks ≫= split_lines) s s' log.
Proof.
  revert s log. induction fuel as [|fuel IH]; intros s log; [by intros (_ & ?)|]. cbn [read_loop].
  intros (log0 & o0 & T0 & T1)%trace_bind_inv.
  assert (o0 = Done tt ∧ reads log0 = [] ∧ enqueues log0 = []) as (-> & Hc0 & He0).
  { destruct prompt; cbn in T0; [by destruct T0 as ([] & ? & -> & -> & [= ->])|by destruct T0 as (-> & ->)]. }
  destruct T1 as (log1 & -> & T1). cbn [mbind prog_mbind tell_producer ask prog_bind] in T1.
  destruct T1 as (read & log2 & -> & T1).
  destruct read as [[chunk|error]|]; cycle 1.
  { destruct T1 as (-> & [= ->]). by left; left. }
  { destruct T1 as (-> & [= ->]). by left; right. }
  case_bool_decide as Hchunk.
  { destruct T1 as (-> & [= ->]). right. exists []. subst chunk. split; [|split; [done|]].
    - unfold reads in *. by rewrite omap_app, Hc0.
    - destruct (sent_all_nil s) as [? ? ? ? ? ? Heach]. constructor; try done;
        unfold enqueues in *; rewrite omap_app, He0; [done|]. by intros ? ? ?%elem_of_nil. }
  apply trace_bind_inv in T1 as (log3 & [[go_on s1]| |] & T1 & T2); [|by destruct T2..].
  destruct T2 as (log4 & -> & T2). apply send_lines_trace in T1 as [Hc1 T1].
  destruct go_on; [|by destruct T2 as (-> & [= ->]); left]. apply IH in T2 as [?|(chunks & Hc2 & Hne & T2)]; [by left|].
  right. exists (chunk :: chunks). split; [|split; [by constructor|]].
  { unfold reads in *. rewrite omap_app, Hc0. cbn. by rewrite omap_app, Hc1, Hc2. }
  destruct T1 as [A1 A2 A3 A4 A5 A6 A7], T2 as [B1 B2 B3 B4 B5 B6 B7].
  match goal with |- sent_all _ _ _ ?log => assert (enqueues log = enqueues log3 ++ enqueues log4) as E end.
  { unfold enqueues in *. rewrite omap_app, He0. cbn. by rewrite omap_app. }
  cbn [mbind list_bind]. constructor; try congruence.
  - rewrite length_app, Nat.add_comm, Nat.iter_add, <-A1. done.
  - rewrite E, fmap_app, read_lines_app, A2. cbn [mbind result_bind]. rewrite <-A1, B2. done.
  - by transitivity (st_pending s1).
  - intros record queued. rewrite E, elem_of_app. intros [Hin|Hin].
    + destruct (A7 _ _ Hin) as (q & -> & Hq). exists q. split; [done|]. destruct Hq as [Hq|Hq]; [left|right; by apply B6].
      eapply acknowledged_mono; [|exact Hq]. set_solver.
    + destruct (B7 _ _ Hin) as (q & -> & Hq). exists q. split; [done|]. destruct Hq as [Hq|Hq]; [left|by right].
      eapply acknowledged_mono; [|exact Hq]. set_solver.
Qed.

Lemma join_pending_trace pending s log s' :
  trace (join_pending pending s) log (Done s') →
  reads log = [] ∧ enqueues log = [] ∧ st_failure s' = st_failure s ∧ st_cancelled s' = st_cancelled s ∧
  st_failed s ≤ st_failed s' ∧
  (st_failed s' = st_failed s → ∀ described queued, (described, queued) ∈ pending → acknowledged log queued).
Proof.
  revert s log. induction pending as [|[described queued] pending IH]; intros s log; cbn [join_pending].
  - intros (-> & [= ->]). split_and!; try done. by intros ? ? ? ?%elem_of_nil.
  - intros (log1 & [outcome| |] & T1 & T2)%trace_bind_inv; [|by destruct T2..]. destruct T2 as (log2 & -> & T2).
    apply await_delivery_trace in T1 as (Hc & He & Hack). destruct outcome as [[]|error]; cbn [delivered] in T2.
    + apply IH in T2 as (Hc2 & He2 & Hf & Hca & Hle & Hall). cbn in Hf, Hca, Hle, Hall.
      unfold reads, enqueues in *. rewrite !omap_app, Hc, Hc2, He, He2. split_and!; try done.
      intros E d q. rewrite elem_of_cons. intros [[= -> ->]|Hin].
      * eapply acknowledged_mono; [|by apply Hack]. set_solver.
      * eapply acknowledged_mono; [|by eapply Hall]. set_solver.
    + cbn [mbind prog_mbind tell_producer ask prog_bind] in T2. destruct T2 as ([] & log3 & -> & T2).
      apply IH in T2 as (Hc2 & He2 & Hf & Hca & Hle & _). cbn in Hf, Hca, Hle.
      unfold reads, enqueues in *. rewrite !omap_app, Hc, He. cbn. rewrite Hc2, He2.
      split_and!; try done; lia.
Qed.
End Sent.

Section Runs.
Context `{KrabkaProducer} `{KrabkaClient} `{RegexFind}.

(** What [AsyncBufReadExt::read_until] documents: a chunk that another follows ends
    at a line feed. *)
Definition read_by_lines (chunks : list string) : Prop :=
  ∀ front chunk next rest, chunks = front ++ chunk :: next :: rest → next ≠ "" → ends_line chunk.

Lemma read_by_lines_split chunks :
  read_by_lines (chunks ++ [""]) → Forall (λ chunk, chunk ≠ "") chunks →
  split_lines (foldr String.append "" (chunks ++ [""])) = chunks ≫= split_lines.
Proof.
  intros Hr Hne. destruct chunks as [|last chunks _] using rev_ind; [done|].
  rewrite <-app_assoc. cbn [app]. rewrite foldr_app. cbn [foldr]. rewrite str_app_nil_r.
  rewrite split_lines_chunks; [by rewrite bind_app; cbn; rewrite !app_nil_r|].
  apply Forall_forall. intros chunk (front & rest & ->)%list_elem_of_split.
  destruct rest as [|next rest].
  - apply (Hr front chunk last [""]); [by rewrite <-!app_assoc|].
    rewrite !Forall_app, !Forall_singleton in Hne. by apply Hne.
  - apply (Hr front chunk next (rest ++ [last; ""])); [by rewrite <-!app_assoc|].
    rewrite Forall_app, Forall_app in Hne. destruct Hne as [[_ Hne] _].
    apply Forall_cons in Hne as [_ Hne]. by apply Forall_cons in Hne as [Hne _].
Qed.

Lemma produce_report_success plan format closed s log :
  0 ≤ st_failed s → trace (produce_report plan format closed s) log (Done Success) →
  st_failure s = None ∧ st_cancelled s = false ∧ st_failed s = 0 ∧ closed = Ok tt ∧
  reads log = [] ∧ enqueues log = [].
Proof.
  intros Hf. unfold produce_report. destruct (st_failure s) as [message|].
  { by intros ([] & ? & -> & -> & [=]). }
  destruct closed as [[]|error]; [|by intros ([] & ? & -> & -> & [=])].
  destruct (st_cancelled s); [by intros (-> & [=])|].
  intros (log1 & o & Ht & Hrest)%trace_bind_inv.
  assert (o = Done tt ∧ reads log1 = [] ∧ enqueues log1 = []) as (-> & Hc & He).
  { destruct format; cbn in Ht; [by destruct Ht as (-> & ->)|by destruct Ht as ([] & ? & -> & -> & [= ->])]. }
  destruct Hrest as (log2 & -> & Ht2). destruct (Z.ltb_spec 0 (st_failed s)).
  { by destruct Ht2 as ([] & ? & -> & -> & [=]). }
  destruct Ht2 as (-> & _). rewrite app_nil_r. split_and!; try done. lia.
Qed.

(** C9. [console-producer] that exits with success has sent all of its input: it read
    standard input up to its end (each read answered a chunk, and the last one nothing,
    as [read_until] does at the end of the input), each line that it read became a
    record and was sent, in order and once, each was acknowledged by the cluster, and the producer was closed without an error;
    whatever the cluster and the terminal do, with and without [--sync]. *)
Theorem produce_success W (world : ∀ c : producer_call, W → producing_answer c * W) (w : W) fuel plan prompt format :
  let '(outcome, _, log) := run (Σ := producing) world (produce fuel plan prompt format) w in
  outcome = Done Success → read_by_lines (chunks_read log) →
  (∃ chunks, reads log = (λ chunk, Some (Ok chunk)) <$> (chunks ++ [""]) ∧ Forall (λ chunk, chunk ≠ "") chunks) ∧
  read_lines (pp_reader plan) (split_lines (foldr String.append "" (chunks_read log))) = Ok (enqueues log).*1 ∧
  (∀ record queued, (record, queued) ∈ enqueues log → ∃ q, queued = Some q ∧ acknowledged log q) ∧
  existT PClose (Ok tt : producing_answer PClose) ∈ log.
Proof.
  pose proof (run_trace (Σ := producing) world (produce fuel plan prompt format) w) as Ht.
  destruct (run _ _ w) as [[outcome w'] log]. cbn [fst snd] in Ht. intros -> Hby. revert Ht. unfold produce.
  destruct (settings_from_properties (pp_properties plan)) as [settings|message];
    [|by intros ([] & ? & -> & -> & [=])].
  cbn [mbind prog_mbind tell_producer ask prog_bind]. intros (kdc & log1 & -> & Ht).
  destruct (client_options _ _ _ _) as [options|error]; [|by destruct Ht as ([] & ? & -> & -> & [=])].
  destruct Ht as (started & log2 & -> & Ht).
  destruct started as [[[]|error]|]; [|by destruct Ht as ([] & ? & -> & -> & [=])|by destruct Ht as (_ & [=])].
  apply trace_bind_inv in Ht as (log3 & [s| |] & Hloop & Ht); [|by destruct Ht..]. destruct Ht as (log4 & -> & Ht).
  destruct Ht as (closed & log5 & -> & Ht).
  apply trace_bind_inv in Ht as (log6 & [s'| |] & Hjoin & Ht); [|by destruct Ht..]. destruct Ht as (log7 & -> & Ht).
  apply join_pending_trace in Hjoin as (Hc6 & He6 & Hf6 & Hca6 & Hle & Hall).
  apply read_loop_trace in Hloop as [Hstop|(chunks & Hc3 & Hne & [_ Hrec Hfl _ Hfd _ Heach])].
  { exfalso. revert Ht. unfold produce_report. rewrite Hf6, Hca6. destruct (st_failure s) as [message|].
    - by intros ([] & ? & -> & -> & [=]).
    - destruct Hstop as [|Hstop]; [done|]. rewrite Hstop. destruct closed; [by intros (_ & [=])|].
      by intros ([] & ? & -> & -> & [=]). }
  cbn [start st_failed st_reader] in Hrec, Hfl, Hfd.
  apply produce_report_success in Ht as (_ & _ & Hz & -> & Hc7 & He7); [|lia].
  match goal with |- context [reads ?log] =>
    assert (reads log = (λ chunk, Some (Ok chunk)) <$> (chunks ++ [""])) as Hr;
    [|assert (chunks_read log = chunks ++ [""]) as Hc by (unfold chunks_read; rewrite Hr; apply omap_answers)] end.
  { unfold reads in *. cbn. rewrite omap_app, Hc3. cbn. by rewrite omap_app, Hc6, Hc7, app_nil_r. }
  match goal with |- context [enqueues ?log] => assert (enqueues log = enqueues log3) as He end.
  { unfold enqueues in *. cbn. rewrite omap_app. cbn. by rewrite omap_app, He6, He7, app_nil_r. }
  rewrite Hc in Hby |- *. rewrite He. split_and!.
  - by exists chunks.
  - by rewrite read_by_lines_split.
  - intros record queued Hin. destruct (Heach _ _ Hin) as (q & -> & Hq). exists q. split; [done|].
    destruct Hq as [Hq|Hq]; [|apply Hall in Hq; [|lia]]; (eapply acknowledged_mono; [|exact Hq]); set_solver.
  - set_solver.
Qed.

(** Standard input comes to its end: a measure of what is left of it, which every
    chunk makes less and no call makes more. *)
Definition input_left {W} (world : ∀ c : producer_call, W → producing_answer c * W) (left : W → nat) : Prop :=
  (∀ c w, (left (world c w).2 ≤ left w)%nat) ∧
  ∀ w chunk, (world PReadUntilNewline w).1 = Some (Ok chunk) → chunk ≠ "" →
    (left (world PReadUntilNewline w).2 < left w)%nat.
End Runs.

Section Ends.
Context `{KrabkaProducer} `{KrabkaClient} `{RegexFind}.
Context {W : Type} (world : ∀ c : producer_call, W → producing_answer c * W) (left : W → nat).
Context (Hleft : input_left world left).

Abbreviation ends := (returns (Σ := producing) world left).

Lemma ends_ask {A} bound c (k : producing_answer c → prog producing A) :
  (∀ r, ends bound (k r)) → ends bound (Vis (Σ := producing) c k).
Proof. apply (returns_vis (Σ := producing)), Hleft. Qed.

Hint Extern 0 (returns _ _ _ _) => apply (returns_halt (Σ := producing)) : core.

Lemma producer_fail_ends bound message format : ends bound (producer_fail message format).
Proof. by apply ends_ask. Qed.
Hint Resolve producer_fail_ends : core.

Lemma await_delivery_ends bound queued : ends bound (await_delivery queued).
Proof. destruct queued; [by apply ends_ask|done]. Qed.

Lemma send_lines_ends bound sync lines s : ends bound (send_lines sync lines s).
Proof.
  revert s. induction lines as [|line lines IH]; intros s; [done|]. cbn [send_lines].
  destruct (reader_record _ _) as [reader [record|message]]; [|done].
  apply ends_ask. intros [queued|]; [|done]. destruct sync; [|apply IH].
  apply returns_bind; [apply await_delivery_ends|]. intros outcome.
  destruct (delivered _ _) as [s1 [message|]]; [done|apply IH].
Qed.

Lemma join_pending_ends bound pending s : ends bound (join_pending pending s).
Proof.
  revert s. induction pending as [|[described queued] pending IH]; intros s; [done|]. cbn [join_pending].
  apply returns_bind; [apply await_delivery_ends|]. intros outcome.
  destruct (delivered _ _) as [s1 [message|]]; [|apply IH]. apply ends_ask. intros []. apply IH.
Qed.

(** A turn of the loop takes a chunk, so there are as many as the input has. *)
Lemma read_loop_ends fuel bound sync prompt s : (bound < fuel)%nat → ends bound (read_loop fuel sync prompt s).
Proof.
  revert bound s. induction fuel as [|fuel IH]; intros bound s Hf; [lia|]. cbn [read_loop].
  apply returns_bind; [by destruct prompt; [apply ends_ask|]|]. intros [].
  intros w Hw. pose proof (proj1 Hleft PReadUntilNewline w) as Hle. pose proof (proj2 Hleft w) as Hlt.
  apply (returns_to_vis (Σ := producing)). destruct (world PReadUntilNewline w) as [read w1]. cbn [fst snd] in Hle, Hlt |- *.
  destruct read as [[chunk|error]|]; [|by apply (returns_to_halt (Σ := producing))..].
  cbn [prog_bind]. case_bool_decide as Hc; [by apply (returns_to_halt (Σ := producing))|]. specialize (Hlt chunk eq_refl Hc).
  eapply (returns_to_mono (Σ := producing)); [|intros s1 w2 Hs1; exact (Nat.le_trans _ _ _ Hs1 Hle)].
  apply (returns_bind (Σ := producing) world left (pred bound)); [apply send_lines_ends| |lia].
  intros [go_on s1]. destruct go_on; [|done]. apply IH. lia.
Qed.

Lemma produce_ends fuel bound plan prompt format :
  (bound < fuel)%nat → ends bound (produce fuel plan prompt format).
Proof.
  intros Hf. unfold produce. destruct (settings_from_properties _); [|done]. apply ends_ask. intros kdc.
  destruct (client_options _ _ _ _); [|done]. apply ends_ask. intros [[[]|error]|]; [|done..].
  apply returns_bind; [by apply read_loop_ends|]. intros s. apply ends_ask. intros closed.
  apply returns_bind; [apply join_pending_ends|]. intros s'. unfold produce_report.
  destruct (st_failure s') as [message|]; [done|]. destruct closed; [|done].
  destruct (st_cancelled s'); [done|].
  apply returns_bind; [by destruct format; [|apply ends_ask]|]. intros []. by destruct (0 <? st_failed s').
Qed.

Lemma producer_file_ends bound path : ends bound (producer_file path).
Proof. destruct path; [by apply ends_ask|done]. Qed.

Lemma producer_plan_ends bound args : ends bound (producer_plan args).
Proof.
  unfold producer_plan. destruct (producer_usage args) as [message|] eqn:Hu; [done|].
  destruct (cpa_topic args) as [topic|] eqn:Ht; [|by unfold producer_usage in Hu; rewrite Ht in Hu].
  destruct (validate_bootstrap _); [|done]. destruct (_ && _); [done|].
  apply returns_bind; [apply producer_file_ends|]. intros file. destruct (file ≫= _); [|done].
  apply returns_bind; [apply producer_file_ends|]. by intros [].
Qed.

(** [console-producer] returns: where standard input comes to its end, with fuel
    for one turn of the loop more than its chunks, every run ends with an exit code,
    whatever the cluster answers. *)
Theorem console_producer_returns fuel args format (w : W) :
  (left w < fuel)%nat →
  ∃ exit w' log, run (Σ := producing) world (console_producer_run fuel args format) w = (Done exit, w', log).
Proof.
  intros Hf. assert (ends (left w) (console_producer_run fuel args format)) as He.
  { unfold console_producer_run. apply returns_bind; [apply producer_plan_ends|].
    intros [plan|refusal]; [|by apply ends_ask].
    apply returns_bind.
    { induction (pp_warnings plan) as [|line lines IH]; [done|]. by apply ends_ask. }
    intros []. apply returns_bind; [|intros prompt; by apply produce_ends].
    destruct format; [|done]. apply ends_ask. intros []; [by apply ends_ask|done]. }
  destruct (He w) as (exit & w' & log & Hrun & _); eauto.
Qed.
End Ends.

(** ** Addresses *)

Definition host_byte (c : ascii) : bool := host_char c || (c =? ":")%char.

(** What Kafka's pattern for an address matches, as the source quotes it: an optional
    scheme, an optional pair of brackets, a host and the digits of a port. *)
Definition address_matches (address : string) : Prop :=
  ∃ scheme opening host closing port,
    address = scheme +:+ opening +:+ host +:+ closing +:+ ":" +:+ port ∧
    (scheme = "" ∨ ∃ name, scheme = name +:+ "://" ∧ all_bytes host_char name = true) ∧
    (opening = "" ∨ opening = "[") ∧ all_bytes host_byte host = true ∧ (closing = "" ∨ closing = "]") ∧
    port ≠ "" ∧ all_bytes is_ascii_digit port = true.

Lemma bytes_without (p : ascii → bool) c s :
  p c = false → all_bytes p s = true → all_bytes (λ d, negb (d =? c)%char) s = true.
Proof.
  intros Hc. apply all_bytes_impl. intros d Hd. destruct (Ascii.eqb_spec d c) as [->|]; [congruence|done].
Qed.

Lemma str_find_absent c p s :
  all_bytes (λ d, negb (d =? c)%char) s = true → contains_byte (λ d, (d =? c)%char) p = true → str_find p s = None.
Proof.
  intros Hs Hp. destruct (str_find p s) as [n|] eqn:E; [|done]. unfold str_find in E.
  apply String.index_correct1 in E. rewrite <-E in Hp.
  assert (∀ n m s, all_bytes (λ d, negb (d =? c)%char) s = true →
    all_bytes (λ d, negb (d =? c)%char) (String.substring n m s) = true) as Hsub.
  { clear. intros n m s. revert n m. induction s as [|d s IH]; intros [|n] [|m]; cbn; try done.
    - intros [-> ?]%andb_true_iff. by apply IH.
    - intros [_ ?]%andb_true_iff. by apply IH.
    - intros [_ ?]%andb_true_iff. by apply IH. }
  rewrite contains_byte_none, Hsub in Hp by done. done.
Qed.

Lemma substring_split n s : s = String.substring 0 n s +:+ from_byte n s.
Proof.
  revert n. induction s as [|c s IH]; intros [|n]; [done..| |].
  - unfold from_byte. rewrite Nat.sub_0_r, substring_all. done.
  - cbn [String.substring]. rewrite str_app_cons. f_equal. apply (IH n).
Qed.

Lemma find_split p s n : str_find p s = Some n → s = slice 0 n s +:+ p +:+ from_byte (n + String.length p) s.
Proof.
  unfold str_find, slice. intros E%String.index_correct1. rewrite Nat.sub_0_r.
  transitivity (String.substring 0 n s +:+ String.substring n (String.length p) s +:+
    from_byte (n + String.length p) s); [|by rewrite E].
  revert n E. induction s as [|c s IH]; intros [|n] E.
  - by destruct (String.length p).
  - by destruct (String.length p).
  - rewrite Nat.add_0_l. change (String.substring 0 0 (String c s)) with "". rewrite str_app_nil_l. apply substring_split.
  - cbn [String.substring] in *. rewrite str_app_cons. f_equal. by apply IH.
Qed.

Lemma name_ends_before name : all_bytes host_char name = true → ends_before "://" name = true.
Proof.
  intros Hn. unfold ends_before. rewrite bool_decide_eq_true. induction name as [|c name IH]; [done|].
  cbn [all_bytes] in Hn. apply andb_true_iff in Hn as [Hc Hn]. rewrite str_app_cons, str_find_cons, IH by done.
  destruct (String.prefix "://" (String c (name +:+ "://"))) eqn:E; [|done].
  exfalso. revert E. cbn [String.prefix]. destruct (Ascii.ascii_dec ":" c) as [<-|]; [by vm_compute in Hc|done].
Qed.

(** The host between its brackets. *)
Lemma host_stripped opening host closing :
  (opening = "" ∨ opening = "[") → (closing = "" ∨ closing = "]") → all_bytes host_byte host = true →
  let stripped := default (opening +:+ host +:+ closing) (strip_prefix "[" (opening +:+ host +:+ closing)) in
  default stripped (strip_suffix "]" stripped) = host.
Proof.
  intros Ho Hc Hh. pose proof (bytes_without host_byte "[" host eq_refl Hh) as Hopen.
  pose proof (bytes_without host_byte "]" host eq_refl Hh) as Hclose. cbv zeta.
  assert (default (opening +:+ host +:+ closing) (strip_prefix "[" (opening +:+ host +:+ closing)) =
    host +:+ closing) as ->.
  { destruct Ho as [->| ->]; [|by rewrite strip_prefix_app].
    rewrite str_app_nil_l, strip_prefix_absent; [done|]. rewrite all_bytes_app, Hopen.
    by destruct Hc as [->| ->]. }
  destruct Hc as [->| ->]; [|by rewrite strip_suffix_snoc].
  by rewrite str_app_nil_r, strip_suffix_absent.
Qed.

(** The check of [--bootstrap-server] accepts an address exactly where it is one
    that the pattern of Kafka's [Utils.getPort] matches as a whole. *)
Theorem has_port_spec (address : string) : has_port address = true ↔ address_matches address.
Proof.
  split.
  - unfold has_port. set (rest := match split_scheme address with
      | Some (scheme, rest) => if all_bytes host_char scheme then rest else address | None => address end).
    assert (∃ scheme, address = scheme +:+ rest ∧
      (scheme = "" ∨ ∃ name, scheme = name +:+ "://" ∧ all_bytes host_char name = true)) as (scheme & Ha & Hs).
    { subst rest. unfold split_scheme. destruct (str_find "://" address) as [index|] eqn:E; cbn; [|by exists ""; eauto].
      destruct (all_bytes host_char (slice 0 index address)) eqn:Hn; [|by exists ""; eauto].
      exists (slice 0 index address +:+ "://"). split; [|eauto].
      rewrite str_app_assoc. by apply (find_split "://"). }
    destruct (rsplit_once ":" rest) as [[host port]|] eqn:E; [|done]. apply rsplit_once_Some in E.
    rewrite !andb_true_iff, negb_true_iff, bool_decide_eq_false. intros [[Hp Hd] Hh].
    set (opened := default host (strip_prefix "[" host)) in *.
    assert (∃ opening, host = opening +:+ opened ∧ (opening = "" ∨ opening = "[")) as (opening & Ho & Hopen).
    { subst opened. destruct (strip_prefix "[" host) as [t|] eqn:Et; [|by exists ""; eauto].
      apply strip_prefix_Some in Et. by exists "["; eauto. }
    assert (∃ closing, opened = default opened (strip_suffix "]" opened) +:+ closing ∧ (closing = "" ∨ closing = "]"))
      as (closing & Hc & Hclose).
    { destruct (strip_suffix "]" opened) as [t|] eqn:Et; cbn; [|by exists ""; rewrite str_app_nil_r; eauto].
      apply strip_suffix_Some in Et. by exists "]"; eauto. }
    exists scheme, opening, (default opened (strip_suffix "]" opened)), closing, port.
    split_and!; try done. rewrite Ha, E, Ho. rewrite Hc at 1. by rewrite !str_app_assoc.
  - intros (scheme & opening & host & closing & port & -> & Hs & Ho & Hh & Hc & Hp & Hd).
    set (rest := opening +:+ host +:+ closing +:+ ":" +:+ port).
    assert (match split_scheme (scheme +:+ rest) with
      | Some (name, rest') => if all_bytes host_char name then rest' else scheme +:+ rest
      | None => scheme +:+ rest end = rest) as Hrest.
    { unfold split_scheme. destruct Hs as [->|(name & -> & Hn)].
      - rewrite str_app_nil_l, (str_find_absent "/"); [done| |done]. subst rest. rewrite !all_bytes_app.
        rewrite (bytes_without host_byte "/" host), (bytes_without is_ascii_digit "/" port) by done.
        by destruct Ho as [->| ->], Hc as [->| ->].
      - rewrite str_app_assoc, str_find_end by (by apply name_ends_before). cbn [mbind option_bind].
        assert (slice 0 (String.length name) (name +:+ "://" +:+ rest) = name) as -> by apply (slice_app "" name).
        rewrite Hn. rewrite <-(str_app_assoc name).
        replace (String.length name + 3)%nat with (String.length (name +:+ "://")) by (by rewrite str_length_app).
        by rewrite from_byte_app. }
    unfold has_port. rewrite Hrest. subst rest. rewrite <-!(str_app_assoc _ _ (":" +:+ port)), str_app_sep.
    replace (((opening +:+ host) +:+ closing) +:+ String ":" port) with ((opening +:+ host +:+ closing) +:+ String ":" port)
      by (by rewrite !str_app_assoc).
    rewrite rsplit_once_app by (by apply (bytes_without is_ascii_digit)).
    rewrite (host_stripped opening host closing) by done. unfold host_byte in Hh. rewrite Hh, Hd.
    by rewrite bool_decide_eq_false_2.
Qed.

Example addresses_checked :
  map has_port ["host:9092"; "SSL://host:9092"; "[::1]:9092"; "host"; "host:"; ":9092"; "a b:1"; "a://b://c:1"; "://h:1";
    "host:90x"] =
  [true; true; true; false; false; true; false; false; true; false].
Proof. vm_compute. reflexivity. Qed.

(** ** Settings *)





Section Bounds.
Context `{KrabkaProducer}.



End Bounds.

(** ** Runs *)

#[local] Instance sample_client : KrabkaClient :=
  {| requires_tls p := bool_decide (p = Ssl ∨ p = SaslSsl); requires_sasl p := bool_decide (p = SaslPlaintext ∨ p = SaslSsl);
     default_request_timeout := 30000; default_setup_timeout := 10000; default_retry_backoff := 100;
     default_retry_backoff_max := 1000 |}.
#[local] Instance sample_producer : KrabkaProducer :=
  {| Compression := string;
     parse_compression text := if bool_decide (text ∈ ["none"; "gzip"; "snappy"; "lz4"; "zstd"]) then Some text else None |}.
#[local] Existing Instance byte_regex.
#[local] Existing Instance byte_find.

(** A cluster that acknowledges every record but those with the value [bad], and an
    input in chunks; the files are empty. *)
Record Console := { con_input : list string; con_values : list (option string) }.
Definition console_world (c : producer_call) (w : Console) : producing_answer c * Console :=
  match c with
  | PReadFile _ => (Ok [], w)
  | PEnvVar _ => (None, w)
  | PStdinIsTerminal | PStdoutIsTerminal => (false, w)
  | PBuild _ => (Some (Ok tt), w)
  | PReadUntilNewline =>
      match con_input w with
      | [] => (Some (Ok ""), w)
      | chunk :: rest => (Some (Ok chunk), {| con_input := rest; con_values := con_values w |})
      end
  | PEnqueue record =>
      (Some (Ok (length (con_values w))),
       {| con_input := con_input w; con_values := con_values w ++ [pr_value record] |})
  | PDelivery handle =>
      (if bool_decide (con_values w !! handle = Some (Some "bad")) then Err (ServerError 10) else Ok tt, w)
  | PClose => (Ok tt, w)
  | PWarn _ | PPrompt | PLogError _ | PEmitError _ _ _ | PEmitSuccess _ _ => (tt, w)
  end.

Definition producer_args (sync : bool) (property : list string) : ConsoleProducerArgs :=
  {| cpa_topic := Some "orders"; cpa_bootstrap_server := Some "broker:9092"; cpa_sync := sync;
     cpa_compression_codec := None; cpa_batch_size := None; cpa_message_send_max_retries := None;
     cpa_retry_backoff_ms := None; cpa_timeout := None; cpa_request_required_acks := None;
     cpa_request_timeout_ms := None; cpa_metadata_expiry_ms := None; cpa_max_block_ms := None;
     cpa_max_memory_bytes := None; cpa_max_partition_memory_bytes := None; cpa_line_reader := "LineMessageReader";
     cpa_socket_buffer_size := None; cpa_property := []; cpa_reader_property := []; cpa_reader_config := None;
     cpa_producer_property := []; cpa_command_property := property; cpa_producer_config := None;
     cpa_command_config := None |}.

Definition producer_runs (sync : bool) (property input : list string) : outcome Exit * list (option string) :=
  let '(outcome, w, _) := run (Σ := producing) console_world
    (console_producer_run 9 (producer_args sync property) JsonFormat) {| con_input := input; con_values := [] |} in
  (outcome, con_values w).

Example producer_exits :
  [producer_runs false [] ["a" +:+ LF; "b"]; producer_runs false [] ["bad" +:+ LF; "b"];
   producer_runs true [] ["bad" +:+ LF; "b"]; producer_runs true [] ["a" +:+ CRLF; "b" +:+ bytes [13] +:+ "c" +:+ LF];
   producer_runs false ["acks=2"] ["a"]; producer_runs false ["transactional.id=t"] ["a"]; producer_runs false [] []] =
  [(Done Success, [Some "a"; Some "b"]); (Done Failure, [Some "bad"; Some "b"]); (Done Failure, [Some "bad"]);
   (Done Success, [Some "a"; Some "b"; Some "c"]); (Done Failure, []); (Done Failure, []); (Done Success, [])].
Proof. vm_compute. reflexivity. Qed.

(** A number beyond 32 bits passes where Kafka's type is [INT]. *)
Example wide_int_accepted :
  set_batch_size <$> settings_from_properties [("batch.size", "3000000000")] = Ok 3000000000.
Proof. vm_compute. reflexivity. Qed.


Lemma console_producer_returns_witness :
  ∃ exit w' log, run (Σ := producing) console_world (console_producer_run 3 (producer_args true []) Human)
    {| con_input := ["a" +:+ LF; "b"]; con_values := [] |} = (Done exit, w', log).
Proof.
  apply (console_producer_returns console_world (λ w, length (con_input w))).
  - split.
    + intros [] [[|chunk input] values]; cbn; lia.
    + intros [[|chunk input] values] c; cbn; [by intros [= <-]|lia].
  - cbn. lia.
Defined.

Definition sample_plan : ProducerPlan :=
  {| pp_bootstrap := ["broker:9092"]; pp_topic := "orders"; pp_sync := false; pp_properties := [];
     pp_reader :=
       {| lr_topic := "orders"; lr_parse_key := false; lr_key_separator := tab_text; lr_parse_headers := false;
          lr_headers_delimiter := tab_text; lr_headers_separator := ","; lr_headers_key_separator := ":";
          lr_ignore_error := false; lr_null_marker := None; lr_headers_separator_pattern := Some ","%char;
          lr_line_number := 0 |};
     pp_warnings := [] |}.

Definition sample_log : list (event producing) :=
  (run (Σ := producing) console_world (produce 9 sample_plan false Human)
    {| con_input := ["a" +:+ LF; "b"]; con_values := [] |}).2.

Lemma sample_chunks_by_lines : read_by_lines ["a" +:+ LF; "b"; ""].
Proof.
  intros front chunk next rest Hs Hne. destruct front as [|x [|y front]].
  - injection Hs as <- _ _. by exists "a".
  - injection Hs as _ <- <- _. done.
  - apply (f_equal length) in Hs. rewrite length_app in Hs. cbn in Hs. lia.
Qed.

Lemma produce_success_witness :
  (∃ chunks, reads sample_log = (λ chunk, Some (Ok chunk)) <$> (chunks ++ [""]) ∧ Forall (λ chunk, chunk ≠ "") chunks) ∧
  read_lines (pp_reader sample_plan) (split_lines (foldr String.append "" (chunks_read sample_log))) =
    Ok (enqueues sample_log).*1 ∧
  (∀ record queued, (record, queued) ∈ enqueues sample_log → ∃ q, queued = Some q ∧ acknowledged sample_log q) ∧
  existT PClose (Ok tt : producing_answer PClose) ∈ sample_log.
Proof.
  pose proof (produce_success Console console_world {| con_input := ["a" +:+ LF; "b"]; con_values := [] |}
    9 sample_plan false Human) as Hp. fold sample_log. unfold sample_log.
  destruct (run _ _ _) as [[outcome w'] log] eqn:E. cbn [snd] in *.
  assert (outcome = Done Success ∧ chunks_read log = ["a" +:+ LF; "b"; ""]) as [Ho Hc].
  { vm_compute in E. injection E as <- <- <-. split; reflexivity. }
  apply Hp; [done|]. rewrite Hc. exact sample_chunks_by_lines.
Defined.
