(* ===== verification/ConsoleConsumer.v ===== *)
(** [krabka console-consumer], [console_consumer.rs]: the checks of the command line,
    the validation of the consumer's settings, and the loop that prints records.

    The consumer, the clock, standard output and Ctrl-C are calls of the world
    [consuming]. A [select!] against Ctrl-C is a call whose answer [None] is that
    Ctrl-C came first; a future of several steps can be cancelled at each of them.
    Of what [tracing] logs, the errors and the lines of the logging formatter are
    calls. *)

From Stdlib Require Import Ascii.
From S2P Require Import Prelude Collections Rust Json Output Admin Properties Connection Patterns Program Console ConsoleFormatter.

Definition CONSUMER_COMMAND : string := "krabka console-consumer".
Definition PROTOCOL_MESSAGE : string :=
  "The consumer rebalance protocol (KIP-848) is production-ready! Set group.protocol=consumer to try it out. See https://kafka.apache.org/documentation/#consumer_rebalance_protocol".
Definition POLL_SLICE_MS : Z := 1000.

Record ConsoleConsumerArgs := {
  cca_topic : option string;
  cca_include : option string;
  cca_partition : option Z;
  cca_offset : option string;
  cca_consumer_property : list string;
  cca_command_property : list string;
  cca_consumer_config : option string;
  cca_command_config : option string;
  cca_formatter : string;
  cca_property : list string;
  cca_formatter_property : list string;
  cca_formatter_config : option string;
  cca_from_beginning : bool;
  cca_max_messages : option Z;
  cca_timeout_ms : option Z;
  cca_skip_message_on_error : bool;
  cca_bootstrap_server : option string;
  cca_key_deserializer : option string;
  cca_value_deserializer : option string;
  cca_enable_systest_events : bool;
  cca_isolation_level : option string;
  cca_group : option string
}.

Inductive StartOffset := StartEarliest | StartLatest | StartAt (offset : Z).
Inductive Source :=
  | SourceTopic (topic : string)
  | SourceInclude (pattern : string)
  | SourcePartition (topic : string) (partition : Z) (offset : StartOffset).

Inductive GroupProtocol := ClassicProtocol | ConsumerProtocol.
#[export] Instance GroupProtocol_eq_dec : EqDecision GroupProtocol.
Proof. solve_decision. Defined.
Inductive Assignor := RangeAssignor | RoundRobinAssignor | StickyAssignor | CooperativeStickyAssignor.

(** What [krabka_client_consumer] reads of [auto.offset.reset], and its list of
    assignors where none is named. *)
Class KrabkaConsumer := {
  AutoOffsetReset : Type;
  parse_reset : string → option AutoOffsetReset;
  default_assignors : list Assignor
}.

(** ** The command line *)

(** The checks of [plan] before anything is read. *)
Definition consumer_usage (args : ConsoleConsumerArgs) : option string :=
  if negb (xorb (is_some (cca_topic args)) (is_some (cca_include args))) then
    Some "Exactly one of the following arguments is required: [topic], [include]"
  else if is_some (cca_partition args) && negb (is_some (cca_topic args)) then
    Some "The topic is required when partition is specified."
  else if is_some (cca_partition args) && cca_from_beginning args && is_some (cca_offset args) then
    Some "Options from-beginning and offset cannot be specified together."
  else if negb (is_some (cca_partition args)) && is_some (cca_offset args) then
    Some "The partition is required when offset is specified."
  else if negb (is_some (cca_bootstrap_server args)) then
    Some ("Missing required argument " +:+ dquote +:+ "[bootstrap-server]" +:+ dquote)
  else if bool_decide (cca_consumer_property args ≠ []) && bool_decide (cca_command_property args ≠ []) then
    Some "Options --consumer-property and --command-property cannot be specified together."
  else if is_some (cca_consumer_config args) && is_some (cca_command_config args) then
    Some "Options --consumer.config and --command-config cannot be specified together."
  else None.

Definition consumer_warnings (args : ConsoleConsumerArgs) : list string :=
  (if bool_decide (cca_consumer_property args ≠ []) then
     ["Option --consumer-property is deprecated and will be removed in a future version. Use --command-property instead."]
   else []) ++
  (if is_some (cca_consumer_config args) then
     ["Option --consumer.config is deprecated and will be removed in a future version. Use --command-config instead."]
   else []).

(** The groups that are named, each once. *)
Definition named_groups (args : ConsoleConsumerArgs) (from_file extra : Properties) : list string :=
  foldl (λ groups group, if bool_decide (group ∈ groups) then groups else groups ++ [group]) []
    (omap id [cca_group args; prop_get from_file "group.id"; prop_get extra "group.id"]).

(** [ConsoleConsumerArgs::group]. *)
Definition consumer_group (args : ConsoleConsumerArgs) (from_file extra : Properties)
    : result ConsoleRefusal (option string) :=
  let groups := named_groups args from_file extra in
  if (1 <? length groups)%nat then
    Err (UsageRefused ("The group ids provided in different places (directly using '--group', via '--consumer-property', or via '--consumer.config') do not match. Detected group ids: " +:+
      join ", " (map (λ group, "'" +:+ group +:+ "'") groups)))
  else if bool_decide (groups ≠ []) && is_some (cca_partition args) then
    Err (UsageRefused "Options group and partition cannot be specified together.")
  else Ok (last groups).

(** [ConsoleConsumerArgs::consumer_properties]. *)
Definition consumer_properties (args : ConsoleConsumerArgs) (from_file extra : Properties) (group : option string)
    : result ConsoleRefusal Properties :=
  let properties := overlay from_file extra in
  properties ←
    match prop_get properties "auto.offset.reset" with
    | Some reset =>
        if cca_from_beginning args && bool_decide (reset ≠ "earliest") then
          Err (FailureRefused ("Can't simultaneously specify --from-beginning and 'auto.offset.reset=" +:+ reset +:+
            "', please remove one option"))
        else Ok properties
    | None => Ok (prop_insert "auto.offset.reset" (if cca_from_beginning args then "earliest" else "latest") properties)
    end;
  let properties := if is_some (prop_get properties "client.id") then properties
                    else prop_insert "client.id" "console-consumer" properties in
  let properties :=
    if is_some (cca_isolation_level args) || negb (is_some (prop_get properties "isolation.level")) then
      prop_insert "isolation.level" (default "read_uncommitted" (cca_isolation_level args)) properties
    else properties in
  Ok match group with
     | Some group => prop_insert "group.id" group properties
     | None => if is_some (prop_get properties "enable.auto.commit") then properties
               else prop_insert "enable.auto.commit" "false" properties
     end.

(** [ConsoleConsumerArgs::start_offset]. *)
Definition start_offset (args : ConsoleConsumerArgs) : result ConsoleRefusal StartOffset :=
  match cca_offset args with
  | None => Ok (if cca_from_beginning args then StartEarliest else StartLatest)
  | Some offset =>
      let lower := to_ascii_lowercase offset in
      if bool_decide (lower = "earliest") then Ok StartEarliest
      else if bool_decide (lower = "latest") then Ok StartLatest
      else
        let refused := Err (UsageRefused ("The provided offset value '" +:+ offset +:+
          "' is incorrect. Valid values are 'earliest', 'latest', or a non-negative long.")) in
        match parse_i64 offset with
        | Some value => if 0 <=? value then Ok (StartAt value) else refused
        | None => refused
        end
  end.

(** The properties of the formatter, from those of its file. *)
Definition formatter_properties (args : ConsoleConsumerArgs) (from_file : Properties) : Properties :=
  let set key class properties :=
    match class with
    | Some class => if bool_decide (class = "") then properties else prop_insert key class properties
    | None => properties
    end in
  let properties := set "value.deserializer" (cca_value_deserializer args)
                      (set "key.deserializer" (cca_key_deserializer args) from_file) in
  overlay properties (key_value_args (if bool_decide (cca_property args = []) then cca_formatter_property args
                                      else cca_property args)).

Definition CLASSIC_UNSUPPORTED : list string :=
  ["group.remote.assignor"; "share.acknowledgement.mode"; "share.acquire.mode"].
Definition CONSUMER_UNSUPPORTED : list string :=
  ["partition.assignment.strategy"; "heartbeat.interval.ms"; "session.timeout.ms"; "share.acknowledgement.mode";
   "share.acquire.mode"].

(** [group_protocol]. *)
Definition group_protocol (properties : Properties) : result string GroupProtocol :=
  let text := default "classic" (prop_get properties "group.protocol") in
  '(protocol, unsupported, name) ←
    (if eq_ignore_ascii_case text "classic" then Ok (ClassicProtocol, CLASSIC_UNSUPPORTED, "CLASSIC")
     else if eq_ignore_ascii_case text "consumer" then Ok (ConsumerProtocol, CONSUMER_UNSUPPORTED, "CONSUMER")
     else Err (config_error "group.protocol" text "String must be one of (case insensitive): CLASSIC, CONSUMER"));
  let set := List.filter (λ name, from_option (λ value, negb (bool_decide (trim value = ""))) false
                                    (prop_get properties name)) unsupported in
  if bool_decide (set = []) then Ok protocol
  else Err (join ", " set +:+ " cannot be set when group.protocol=" +:+ name).

(** One entry of [partition.assignment.strategy]. *)
Definition assignor (entry : string) : result string Assignor :=
  let name := default entry (last (split_char "." entry)) in
  if bool_decide (name ∈ ["RangeAssignor"; "range"]) then Ok RangeAssignor
  else if bool_decide (name ∈ ["RoundRobinAssignor"; "roundrobin"]) then Ok RoundRobinAssignor
  else if bool_decide (name ∈ ["StickyAssignor"; "sticky"]) then Ok StickyAssignor
  else if bool_decide (name ∈ ["CooperativeStickyAssignor"; "cooperative-sticky"]) then Ok CooperativeStickyAssignor
  else Err ("partition.assignment.strategy=" +:+ entry +:+ " is not supported; krabka implements RangeAssignor, RoundRobinAssignor, StickyAssignor and CooperativeStickyAssignor").

Section Consumer.
Context `{KrabkaConsumer} `{KrabkaClient} `{RegexCrate} `{SerdeJson}.

Definition assignors (strategy : option string) : result string (list Assignor) :=
  match strategy with
  | None => Ok default_assignors
  | Some list =>
      try_map assignor (List.filter (λ entry, negb (bool_decide (entry = ""))) (map trim (split_char "," list)))
  end.

(** [java_pattern]. *)
Definition java_pattern (pattern : string) : result string Regex :=
  map_err (λ error, "--include " +:+ pattern +:+ ": " +:+ error) (regex_new ("^(?:" +:+ pattern +:+ ")$")).

(** [TopicSettings] and [ClientSettings]. *)
Record TopicSettings := { ts_exclude_internal : bool; ts_allow_auto_create : bool }.
Record ClientSettings := {
  cs_group_id : string;
  cs_auto_offset_reset : AutoOffsetReset;
  cs_isolation_level : IsolationLevel;
  cs_group_protocol : GroupProtocol;
  cs_group_remote_assignor : option string;
  cs_enable_auto_commit : bool;
  cs_auto_commit_interval_ms : Z;
  cs_session_timeout_ms : Z;
  cs_heartbeat_interval_ms : Z;
  cs_max_poll_interval_ms : Z;
  cs_max_poll_records : Z;
  cs_fetch_min_bytes : Z;
  cs_fetch_max_bytes : Z;
  cs_max_partition_fetch_bytes : Z;
  cs_fetch_max_wait_ms : Z;
  cs_metadata_max_age_ms : Z;
  cs_default_api_timeout_ms : Z;
  cs_topics : TopicSettings;
  cs_enable_metrics_push : bool;
  cs_group_instance_id : option string;
  cs_client_rack : option string;
  cs_assignors : list Assignor
}.

Definition isolation_level_of (text : string) : result string IsolationLevel :=
  if bool_decide (text = "read_uncommitted") then Ok ReadUncommitted
  else if bool_decide (text = "read_committed") then Ok ReadCommitted
  else Err (config_error "isolation.level" text "String must be one of: read_committed, read_uncommitted").

(** [ClientSettings::from_properties]. *)
Definition client_settings (properties : Properties) (group_id : string) : result string ClientSettings :=
  let reset := default "latest" (prop_get properties "auto.offset.reset") in
  auto_offset_reset ← ok_or (parse_reset reset)
    (config_error "auto.offset.reset" reset ("Invalid value `" +:+ reset +:+
      "` for configuration auto.offset.reset. The value must be either 'earliest', 'latest', 'none' or of the format 'by_duration:<PnDTnHnMn.nS.>'."));
  isolation_level ← isolation_level_of (default "read_uncommitted" (prop_get properties "isolation.level"));
  protocol ← group_protocol properties;
  let int name initial := number_property properties name "INT" initial in
  let text name := match prop_get properties name with
                   | Some value => if bool_decide (value = "") then None else Some value
                   | None => None
                   end in
  enable_auto_commit ← bool_property properties "enable.auto.commit" true;
  auto_commit_interval_ms ← int "auto.commit.interval.ms" 5000;
  session_timeout_ms ← int "session.timeout.ms" 45000;
  heartbeat_interval_ms ← int "heartbeat.interval.ms" 3000;
  max_poll_interval_ms ← int "max.poll.interval.ms" 300000;
  max_poll_records ← int "max.poll.records" 500;
  fetch_min_bytes ← int "fetch.min.bytes" 1;
  fetch_max_bytes ← int "fetch.max.bytes" 52428800;
  max_partition_fetch_bytes ← int "max.partition.fetch.bytes" 1048576;
  fetch_max_wait_ms ← int "fetch.max.wait.ms" 500;
  metadata_max_age_ms ← number_property properties "metadata.max.age.ms" "LONG" 300000;
  default_api_timeout_ms ← int "default.api.timeout.ms" 60000;
  exclude_internal ← bool_property properties "exclude.internal.topics" true;
  allow_auto_create ← bool_property properties "allow.auto.create.topics" true;
  enable_metrics_push ← bool_property properties "enable.metrics.push" true;
  assigned ← assignors (prop_get properties "partition.assignment.strategy");
  Ok {| cs_group_id := group_id; cs_auto_offset_reset := auto_offset_reset; cs_isolation_level := isolation_level;
        cs_group_protocol := protocol; cs_group_remote_assignor := text "group.remote.assignor";
        cs_enable_auto_commit := enable_auto_commit; cs_auto_commit_interval_ms := auto_commit_interval_ms;
        cs_session_timeout_ms := session_timeout_ms; cs_heartbeat_interval_ms := heartbeat_interval_ms;
        cs_max_poll_interval_ms := max_poll_interval_ms; cs_max_poll_records := max_poll_records;
        cs_fetch_min_bytes := fetch_min_bytes; cs_fetch_max_bytes := fetch_max_bytes;
        cs_max_partition_fetch_bytes := max_partition_fetch_bytes; cs_fetch_max_wait_ms := fetch_max_wait_ms;
        cs_metadata_max_age_ms := metadata_max_age_ms; cs_default_api_timeout_ms := default_api_timeout_ms;
        cs_topics := {| ts_exclude_internal := exclude_internal; ts_allow_auto_create := allow_auto_create |};
        cs_enable_metrics_push := enable_metrics_push; cs_group_instance_id := text "group.instance.id";
        cs_client_rack := text "client.rack"; cs_assignors := assigned |}.

(** ** The world *)

Record ConsumerPlan := {
  cp_bootstrap : list string;
  cp_source : Source;
  cp_properties : Properties;
  cp_group : option string;
  cp_max_messages : Z;
  cp_timeout_ms : option Z;
  cp_skip_message_on_error : bool;
  cp_formatter : Formatter;
  cp_formatter_warnings : list string;
  cp_systest_events : bool;
  cp_warnings : list string
}.

(** What the builder of the consumer is given; durations in milliseconds. *)
Record ConsumerConfig := {
  cc_bootstrap : string;
  cc_client_id : string;
  cc_group_id : option string;
  cc_subscribe : list string;
  cc_pattern : option Regex;
  cc_settings : ClientSettings;
  cc_max_poll_records : Z;
  cc_refresh_interval_ms : Z;
  cc_request_timeout : Z;
  cc_setup_timeout : Z;
  cc_security : option ClientSecurity
}.

Inductive ConsumerError :=
  | ConsumerClient (text : string)
  | StartupAfterJoin (error : ConsumerError)
  | OtherConsumerError (text : string).

Fixpoint consumer_error (error : ConsumerError) : string :=
  match error with
  | ConsumerClient text => text
  | StartupAfterJoin error => consumer_error error
  | OtherConsumerError text => text
  end.

Inductive consumer_call :=
  | CReadFile (path : string)
  | CEnvVar (name : string)
  | CRandom
  | CEprint (line : string)
  | CLogError (line : string)
  | CLogInfo (line : string)
  | CBuild (config : ConsumerConfig)
  | CAssign (topic : string) (partition : Z)
  | CSeekFirst (topic : string) (partition : Z) (offset : StartOffset)
  | CCloseUnopened
  | CNow
  | CElapsed
  | CPoll (slice : Z)
  | CWrite (data : string)
  | CWriteln (line : string)
  | CSeek (topic : string) (partition offset : Z)
  | CClose
  | CEmitError (message : string) (exit : Exit) (format : OutputFormat).

Definition consumer_answer (c : consumer_call) : Type :=
  match c with
  | CReadFile _ => result string (list Z)
  | CEnvVar _ => option string
  | CRandom | CElapsed => Z
  | CBuild _ | CAssign _ _ | CSeekFirst _ _ _ | CCloseUnopened => option (result ConsumerError unit)
  | CPoll _ => option (result ConsumerError (list ConsumedRecord))
  | CWrite _ => bool
  | CSeek _ _ _ | CClose => result ConsumerError unit
  | CEprint _ | CLogError _ | CLogInfo _ | CNow | CWriteln _ | CEmitError _ _ _ => unit
  end.

Definition consuming : Signature := {| call := consumer_call; answer := consumer_answer |}.
Definition tell_consumer (c : consumer_call) : prog consuming (consumer_answer c) := ask (Σ := consuming) c.

Definition consumer_fail (message : string) (format : OutputFormat) : prog consuming Exit :=
  tell_consumer (CEmitError message Failure format);; mret Failure.

Definition consumer_file (path : option string) : prog consuming (result string Properties) :=
  match path with
  | Some path => read ← tell_consumer (CReadFile path); mret (load_properties path read)
  | None => mret (Ok [])
  end.

(** ** The plan *)

(** [ConsoleConsumerArgs::formatter]: the formatter, its warnings, and the warning of
    a deprecated flag. *)
Definition consumer_formatter (args : ConsoleConsumerArgs)
    : prog consuming (result ConsoleRefusal (Formatter * list string * list string)) :=
  if bool_decide (cca_formatter_property args ≠ []) && bool_decide (cca_property args ≠ []) then
    mret (Err (UsageRefused "Options --property and --formatter-property cannot be specified together."))
  else
    let warnings :=
      if bool_decide (cca_property args ≠ []) then
        ["Option --property is deprecated and will be removed in a future version. Use --formatter-property instead."]
      else [] in
    file ← consumer_file (cca_formatter_config args);
    mret match file ≫= (λ properties, formatter_new (cca_formatter args) (formatter_properties args properties)) with
         | Err message => Err (UsageRefused message)
         | Ok (formatter, formatter_warnings) => Ok (formatter, formatter_warnings, warnings)
         end.

(** The source that is named. *)
Definition consumer_source (args : ConsoleConsumerArgs) : outcome (result ConsoleRefusal Source) :=
  match cca_topic args, cca_include args, cca_partition args with
  | Some topic, _, Some partition =>
      Done (offset ← start_offset args; Ok (SourcePartition topic partition offset))
  | Some topic, _, None => Done (Ok (SourceTopic topic))
  | None, Some pattern, _ =>
      Done (map_err FailureRefused (java_pattern pattern) ≫= λ _, Ok (SourceInclude pattern))
  | None, None, _ => Panic
  end.

(** [ConsoleConsumerArgs::plan]. *)
Definition consumer_plan (args : ConsoleConsumerArgs) : prog consuming (result ConsoleRefusal ConsumerPlan) :=
  match consumer_usage args, cca_bootstrap_server args with
  | Some message, _ => mret (Err (UsageRefused message))
  | None, None => Halt Panic
  | None, Some bootstrap =>
      file ← consumer_file (match cca_consumer_config args with Some path => Some path | None => cca_command_config args end);
      match file with
      | Err message => mret (Err (FailureRefused message))
      | Ok from_file =>
          let extra := key_value_args (if bool_decide (cca_consumer_property args = []) then cca_command_property args
                                       else cca_consumer_property args) in
          match (group ← consumer_group args from_file extra;
                 properties ← consumer_properties args from_file extra group; Ok (group, properties)) with
          | Err refusal => mret (Err refusal)
          | Ok (group, properties) =>
              source ← (Halt (consumer_source args) : prog consuming (result ConsoleRefusal Source));
              match source with
              | Err refusal => mret (Err refusal)
              | Ok source =>
                  formatter ← consumer_formatter args;
                  match formatter with
                  | Err refusal => mret (Err refusal)
                  | Ok (formatter, formatter_warnings, warnings) =>
                      mret (Ok {| cp_bootstrap := split_char "," bootstrap; cp_source := source;
                                  cp_properties := properties; cp_group := group;
                                  cp_max_messages := default (-1) (cca_max_messages args);
                                  cp_timeout_ms :=
                                    match cca_timeout_ms args with
                                    | Some timeout => if 0 <=? timeout then Some timeout else None
                                    | None => None
                                    end;
                                  cp_skip_message_on_error := cca_skip_message_on_error args;
                                  cp_formatter := formatter; cp_formatter_warnings := formatter_warnings;
                                  cp_systest_events := cca_enable_systest_events args;
                                  cp_warnings := consumer_warnings args ++ warnings |})
                  end
              end
          end
      end
  end.

(** ** Records *)

(** [render]: the line of the log, once the record was formatted, and the bytes. *)
Definition render (formatter : Formatter) (record : ConsumedRecord) (format : OutputFormat)
    : result string (option string * result string string) :=
  '(text, log) ← ConsoleFormatter.format formatter record;
  Ok (log,
    match format with
    | Human => Ok text
    | JsonFormat =>
        if bool_decide (formatter = FNoOp) then Ok ""
        else
          headers ← try_map (λ header : string * option string,
            value ← render_value formatter header.2 FieldHeader;
            Ok (object_of [("key", Str header.1); ("value", opt_str value)])) (cr_headers record);
          key ← render_value formatter (cr_key record) FieldKey;
          value ← render_value formatter (cr_value record) FieldValue;
          Ok (json_text (object_of [("data", object_of
            [("topic", Str (cr_topic record)); ("partition", num (cr_partition record));
             ("offset", num (cr_offset record)); ("timestamp", num (cr_timestamp record)); ("key", opt_str key);
             ("value", opt_str value); ("headers", Array headers)])]) +:+ newline)
    end).

(** The bytes, and the error of either part. *)
Definition rendered (formatter : Formatter) (format : OutputFormat) (record : ConsumedRecord) : result string string :=
  parts ← render formatter record format; parts.2.

(** [unconsumed]: the first record of each partition. *)
Definition unconsumed (buffered : list ConsumedRecord) : list (string * Z * Z) :=
  foldl (λ smallest record,
    if is_some (bt_get (cr_topic record, cr_partition record) smallest) then smallest
    else bt_insert (cr_topic record, cr_partition record) (cr_offset record) smallest) [] buffered.

(** ** The stream *)

Inductive Stop := StopTimeout | StopCancelled | StopFailed (message : string).

(** [started.elapsed().as_millis()], as an [i64]. *)
Definition waited_ms (elapsed : Z) : Z := if elapsed <=? i64_MAX then elapsed else i64_MAX.

(** [Stream::receive], after the clock was read; the records that are left. *)
Fixpoint receive_loop (fuel : nat) (timeout_ms : option Z) (buffered : list ConsumedRecord)
    : prog consuming (result Stop ConsumedRecord * list ConsumedRecord) :=
  match fuel with
  | O => Halt Timeout
  | S fuel =>
      match buffered with
      | record :: buffered => mret (Ok record, buffered)
      | [] =>
          elapsed ← tell_consumer CElapsed;
          let slice := match timeout_ms with
                       | None => POLL_SLICE_MS
                       | Some timeout => Z.min (Z.max (timeout - waited_ms elapsed) 0) POLL_SLICE_MS
                       end in
          polled ← tell_consumer (CPoll slice);
          match polled with
          | None => mret (Err StopCancelled, [])
          | Some (Err error) => mret (Err (StopFailed (consumer_error error)), [])
          | Some (Ok records) =>
              elapsed ← tell_consumer CElapsed;
              if bool_decide (records = []) &&
                 from_option (λ timeout, timeout <? waited_ms elapsed) false timeout_ms
              then mret (Err StopTimeout, [])
              else receive_loop fuel timeout_ms records
          end
      end
  end.

Definition receive (fuel : nat) (timeout_ms : option Z) (buffered : list ConsumedRecord)
    : prog consuming (result Stop ConsumedRecord * list ConsumedRecord) :=
  tell_consumer CNow;; receive_loop fuel timeout_ms buffered.

(** How the loop ended. *)
Inductive ConsumeEnd := EndDone | EndCancelled | EndFailed (message : string).

(** The bound of [--max-messages] is reached. *)
Definition bound_reached (max_messages count : Z) : bool :=
  negb (max_messages =? -1) && ((max_messages <? 0) || (max_messages <=? count)).

(** [process]. *)
Fixpoint process (fuel : nat) (plan : ConsumerPlan) (format : OutputFormat) (count : Z)
    (buffered : list ConsumedRecord) : prog consuming (Z * ConsumeEnd * list ConsumedRecord) :=
  match fuel with
  | O => Halt Timeout
  | S fuel' =>
      if bound_reached (cp_max_messages plan) count then mret (count, EndDone, buffered)
      else
        '(received, buffered) ← receive fuel (cp_timeout_ms plan) buffered;
        match received with
        | Err StopTimeout =>
            tell_consumer (CLogError "Error processing message, terminating consumer process: TimeoutException");;
            mret (count, EndDone, buffered)
        | Err StopCancelled => mret (count, EndCancelled, buffered)
        | Err (StopFailed message) =>
            tell_consumer (CLogError ("Error processing message, terminating consumer process: " +:+ message));;
            mret (count, EndFailed message, buffered)
        | Ok record =>
            let count := count + 1 in
            let render_failed message :=
              if cp_skip_message_on_error plan then
                tell_consumer (CLogError ("Error processing message, skipping this message: " +:+ message));;
                process fuel' plan format count buffered
              else mret (count, EndFailed message, buffered) in
            match render (cp_formatter plan) record format with
            | Err message => render_failed message
            | Ok (log, text) =>
                (match log with Some line => tell_consumer (CLogInfo line) | None => mret tt end);;
                match text with
                | Err message => render_failed message
                | Ok text =>
                    written ← tell_consumer (CWrite text);
                    if (written : bool) then process fuel' plan format count buffered
                    else tell_consumer (CEprint "Unable to write to standard out, closing consumer.");;
                         mret (count, EndDone, buffered)
                end
            end
        end
  end.

(** [Stream::open], or [None] where Ctrl-C came first. *)
Definition stream_open (source : Source) (bootstrap : list string) (settings : ClientSettings)
    (options : ConnectionOptions) : prog consuming (option (result string unit)) :=
  match (match source with
         | SourceInclude pattern => Some <$> java_pattern pattern
         | _ => Ok None
         end) with
  | Err message => mret (Some (Err message))
  | Ok pattern =>
      let config :=
        {| cc_bootstrap := join "," bootstrap; cc_client_id := options_client_id options;
           cc_group_id :=
             match source with
             | SourcePartition _ _ _ => if cs_enable_auto_commit settings then Some (cs_group_id settings) else None
             | _ => Some (cs_group_id settings)
             end;
           cc_subscribe := match source with SourceTopic topic => [topic] | _ => [] end;
           cc_pattern := pattern; cc_settings := settings;
           cc_max_poll_records := if cs_max_poll_records settings <? 0 then usize_MAX else cs_max_poll_records settings;
           cc_refresh_interval_ms := Z.max (cs_metadata_max_age_ms settings) 1;
           cc_request_timeout := options_request_timeout options; cc_setup_timeout := options_setup_timeout options;
           cc_security := options_security options |} in
      built ← tell_consumer (CBuild config);
      match built with
      | None => mret None
      | Some (Err error) => mret (Some (Err (consumer_error error)))
      | Some (Ok _) =>
          match source with
          | SourcePartition topic partition offset =>
              let refused error :=
                closed ← tell_consumer CCloseUnopened;
                mret match closed with None => None | Some _ => Some (Err (consumer_error error)) end in
              assigned ← tell_consumer (CAssign topic partition);
              match assigned with
              | None => mret None
              | Some (Err error) => refused error
              | Some (Ok _) =>
                  sought ← tell_consumer (CSeekFirst topic partition offset);
                  match sought with
                  | None => mret None
                  | Some (Err error) => refused error
                  | Some (Ok _) => mret (Some (Ok tt))
                  end
              end
          | _ => mret (Some (Ok tt))
          end
      end
  end.

(** [Stream::close]. *)
Fixpoint seek_back (seeks : list (string * Z * Z)) : prog consuming unit :=
  match seeks with
  | [] => mret tt
  | (topic, partition, offset) :: seeks => tell_consumer (CSeek topic partition offset);; seek_back seeks
  end.
Definition stream_close (buffered : list ConsumedRecord) : prog consuming unit :=
  seek_back (unconsumed buffered);; tell_consumer CClose;; mret tt.

(** ** The command *)

Definition unknown_error (message : string) : string := "Unknown error when running consumer: " +:+ message.

(** [report_count]. *)
Definition report_count (count : Z) (format : OutputFormat) : prog consuming unit :=
  match format with
  | Human => tell_consumer (CEprint ("Processed a total of " +:+ pretty count +:+ " messages"))
  | JsonFormat => mret tt
  end.

Definition maybe_print_protocol_message (source : Source) (protocol : GroupProtocol) (format : OutputFormat)
    : prog consuming unit :=
  match format, protocol, source with
  | Human, ClassicProtocol, SourceTopic _ | Human, ClassicProtocol, SourceInclude _ =>
      tell_consumer (CEprint PROTOCOL_MESSAGE)
  | _, _, _ => mret tt
  end.

(** [generated_group]. *)
Definition generated_group : prog consuming string :=
  random ← tell_consumer CRandom; mret ("console-consumer-" +:+ pretty (random mod 100000)).

(** [consume]. *)
Definition consume (fuel : nat) (plan : ConsumerPlan) (format : OutputFormat) : prog consuming Exit :=
  group ← match cp_group plan with Some group => mret group | None => generated_group end;
  match client_settings (cp_properties plan) group with
  | Err message => consumer_fail (unknown_error message) format
  | Ok settings =>
      kdc_url ← tell_consumer (CEnvVar KDC_URL_ENV);
      match client_options (cp_properties plan) (cp_bootstrap plan) "console-consumer" kdc_url with
      | Err error => consumer_fail (unknown_error (config_error_text error)) format
      | Ok options =>
          maybe_print_protocol_message (cp_source plan) (cs_group_protocol settings) format;;
          opened ← stream_open (cp_source plan) (cp_bootstrap plan) settings options;
          match opened with
          | None => report_count 0 format;; mret Cancelled
          | Some (Err message) => consumer_fail (unknown_error message) format
          | Some (Ok _) =>
              '(count, ended, buffered) ← process fuel plan format 0 [];
              stream_close buffered;;
              report_count count format;;
              match ended with
              | EndDone => mret Success
              | EndCancelled =>
                  (match format with
                   | Human => if cp_systest_events plan
                              then tell_consumer (CWriteln "shutdown_complete") else mret tt
                   | JsonFormat => mret tt
                   end);;
                  mret Cancelled
              | EndFailed message => consumer_fail (unknown_error message) format
              end
          end
      end
  end.

(** The warnings of [run]. *)
Fixpoint each_line (c : string → consumer_call) (lines : list string) : prog consuming unit :=
  match lines with
  | [] => mret tt
  | line :: lines => prog_bind (λ _, each_line c lines) (tell_consumer (c line))
  end.

(** [run]. *)
Definition console_consumer_run (fuel : nat) (args : ConsoleConsumerArgs) (format : OutputFormat)
    : prog consuming Exit :=
  plan ← consumer_plan args;
  match plan with
  | Err refusal =>
      tell_consumer (CEmitError (console_refusal_message refusal) (console_refusal_exit refusal) format);;
      mret (console_refusal_exit refusal)
  | Ok plan =>
      each_line CEprint (cp_warnings plan);;
      each_line CLogError (cp_formatter_warnings plan);;
      consume fuel plan format
  end.
End Consumer.

(** ** What a run handled *)

(** Decides that every call of a program is allowed by a monitor without state. *)
Ltac idling := repeat (try unfold mbind, prog_mbind; cbn; match goal with
  | |- monitored _ _ (match ?x with _ => _ end) _ => destruct x
  | |- context [prog_bind _ (match ?x with _ => _ end)] => destruct x
  | |- _ ∧ _ => split
  | |- ∀ _, _ => intros
  | |- _ => done
  end).


Section Handled.
Context `{KrabkaConsumer} `{KrabkaClient} `{RegexCrate} `{SerdeJson}.

(** The records that a run polled, what it wrote for records, and where it sought
    back to. *)
Definition polled_of (e : event consuming) : list ConsumedRecord :=
  match e with existT (CPoll _) (Some (Ok records)) => records | _ => [] end.
Definition polled (log : list (event consuming)) : list ConsumedRecord := log ≫= polled_of.

Definition write_of (c : consumer_call) : option string := match c with CWrite data => Some data | _ => None end.
Definition writes (log : list (event consuming)) : list string := omap (λ e : event consuming, write_of (projT1 e)) log.

Definition seek_of (c : consumer_call) : option (string * Z * Z) :=
  match c with CSeek topic partition offset => Some (topic, partition, offset) | _ => None end.
Definition seeks (log : list (event consuming)) : list (string * Z * Z) :=
  omap (λ e : event consuming, seek_of (projT1 e)) log.

(** Neither polls, nor writes, nor seeks. *)
Definition idle (log : list (event consuming)) : Prop := polled log = [] ∧ writes log = [] ∧ seeks log = [].

Lemma polled_app log log' : polled (log ++ log') = polled log ++ polled log'.
Proof. apply bind_app. Qed.
Lemma writes_app log log' : writes (log ++ log') = writes log ++ writes log'.
Proof. apply omap_app. Qed.
Lemma seeks_app log log' : seeks (log ++ log') = seeks log ++ seeks log'.
Proof. apply omap_app. Qed.

Lemma idle_app log log' : idle log → idle log' → idle (log ++ log').
Proof.
  intros (P1 & W1 & S1) (P2 & W2 & S2). unfold idle.
  by rewrite polled_app, writes_app, seeks_app, P1, P2, W1, W2, S1, S2.
Qed.

Lemma idle_nil : idle [].
Proof. done. Qed.

Lemma receive_loop_trace fuel timeout buffered log received rest :
  trace (receive_loop fuel timeout buffered) log (Done (received, rest)) →
  writes log = [] ∧ seeks log = [] ∧
  match received with
  | Ok record => buffered ++ polled log = record :: rest
  | Err _ => buffered ++ polled log = [] ∧ rest = []
  end.
Proof.
  revert buffered log. induction fuel as [|fuel IH]; intros buffered log; [by intros (_ & ?)|]. cbn [receive_loop].
  destruct buffered as [|record buffered].
  - intros (elapsed & log1 & -> & answer & log2 & -> & Ht).
    destruct answer as [[records|error]|].
    + destruct Ht as (elapsed2 & log3 & -> & Ht). cbn in Ht.
      destruct (bool_decide (records = []) && _) eqn:E.
      * destruct Ht as (-> & [= -> ->]). apply andb_true_iff in E as [->%bool_decide_eq_true _]. done.
      * apply IH in Ht as (Hw & Hs & Hr). split_and!; [done..|].
        unfold polled in *. cbn. by rewrite app_nil_r || idtac.
    + destruct Ht as (-> & [= -> ->]). done.
    + destruct Ht as (-> & [= -> ->]). done.
  - intros (-> & [= -> ->]). cbn. by rewrite app_nil_r.
Qed.

(** What [process] makes of the records. *)
Record handles (plan : ConsumerPlan) (format : OutputFormat) (count count' : Z) (buffered handled rest : list ConsumedRecord)
    (log : list (event consuming)) : Prop := {
  h_records : buffered ++ polled log = handled ++ rest;
  h_count : count' = count + Z.of_nat (length handled);
  h_writes : writes log = omap (λ record, result_ok (rendered (cp_formatter plan) format record)) handled;
  h_seeks : seeks log = [];
  h_bound : cp_max_messages plan ≠ -1 → handled = [] ∨ count' ≤ cp_max_messages plan
}.

Lemma handles_nil plan format count rest : handles plan format count count rest [] rest [].
Proof. constructor; [apply app_nil_r|cbn; lia|done|done|by left]. Qed.

(** One record, then the others. *)
Lemma handles_cons plan format count count' buffered buffered1 record handled rest log1 log2 log3 :
  (cp_max_messages plan ≠ -1 → count + 1 ≤ cp_max_messages plan) →
  writes log1 = [] → seeks log1 = [] → buffered ++ polled log1 = record :: buffered1 →
  polled log2 = [] → seeks log2 = [] →
  writes log2 = option_list (result_ok (rendered (cp_formatter plan) format record)) →
  handles plan format (count + 1) count' buffered1 handled rest log3 →
  handles plan format count count' buffered (record :: handled) rest (log1 ++ log2 ++ log3).
Proof.
  intros Hmax Hw1 Hs1 Hr1 Hp2 Hs2 Hw2 [R C Wr S B]. constructor.
  - rewrite !polled_app, Hp2, app_assoc, Hr1. cbn. by rewrite R.
  - cbn [length]. lia.
  - rewrite !writes_app, Hw1, Hw2, Wr. cbn. by destruct (result_ok _).
  - by rewrite !seeks_app, Hs1, Hs2, S.
  - intros Hm. right. destruct (B Hm) as [->|]; [|done]. cbn in C. specialize (Hmax Hm). lia.
Qed.

Lemma process_trace fuel plan format count buffered log count' ended rest :
  0 ≤ count → trace (process fuel plan format count buffered) log (Done (count', ended, rest)) →
  ∃ handled, handles plan format count count' buffered handled rest log.
Proof.
  revert count buffered log. induction fuel as [|fuel IH]; intros count buffered log Hpos; [by intros (_ & ?)|].
  cbn [process]. destruct (bound_reached _ _) eqn:Hb.
  { intros (-> & [= -> -> ->]). exists []. apply handles_nil. }
  assert (cp_max_messages plan ≠ -1 → count + 1 ≤ cp_max_messages plan) as Hmax.
  { unfold bound_reached in Hb. intros Hm. destruct (Z.eqb_spec (cp_max_messages plan) (-1)); [done|]. cbn in Hb. lia. }
  intros (log1 & [[received buffered1]| |] & Ht1 & Ht2)%trace_bind_inv; [|by destruct Ht2..].
  destruct Ht2 as (log2 & -> & Ht2). destruct Ht1 as ([] & log1' & -> & Ht1).
  apply receive_loop_trace in Ht1 as (Hw1 & Hs1 & Hr1).
  match goal with |- context [handles _ _ _ _ _ _ _ (?log ++ log2)] => set (logr := log) end. change (writes logr = []) in Hw1. change (seeks logr = []) in Hs1.
  change (polled log1') with (polled logr) in Hr1. clearbody logr.
  destruct received as [record|stop]; cycle 1.
  { destruct Hr1 as [Hr1 ->]. exists [].
    assert (idle log2 ∧ count' = count ∧ rest = []) as ((P2 & W2 & S2) & -> & ->).
    { destruct stop; cbn in Ht2; [destruct Ht2 as ([] & ? & -> & -> & [= -> -> ->])|destruct Ht2 as (-> & [= -> -> ->])|
        destruct Ht2 as ([] & ? & -> & -> & [= -> -> ->])]; done. }
    constructor; [by rewrite polled_app, P2, (app_nil_r (polled logr))|cbn; lia|by rewrite writes_app, Hw1, W2|
      by rewrite seeks_app, Hs1, S2|by left]. }
  assert (∀ log3 log4, log2 = log3 ++ log4 → polled log3 = [] → seeks log3 = [] →
    writes log3 = option_list (result_ok (rendered (cp_formatter plan) format record)) →
    trace (process fuel plan format (count + 1) buffered1) log4 (Done (count', ended, rest)) ∨
      (log4 = [] ∧ count' = count + 1 ∧ rest = buffered1) →
    ∃ handled, handles plan format count count' buffered handled rest (logr ++ log2)) as Hgo.
  { intros log3 log4 -> P3 S3 W3 [Ht|(-> & -> & ->)].
    - apply IH in Ht as [handled Hh]; [|lia]. exists (record :: handled). by eapply handles_cons.
    - exists [record]. eapply handles_cons; try done. apply handles_nil. }
  clear IH. unfold rendered in Hgo. destruct (render _ _ _) as [[line text]|message] eqn:Hr.
  - apply trace_bind_inv in Ht2 as (log3 & o & Hlog & Ht2).
    assert (o = Done tt ∧ idle log3) as (-> & P3 & W3 & S3).
    { destruct line; cbn in Hlog; [by destruct Hlog as ([] & ? & -> & -> & [= ->])|by destruct Hlog as (-> & ->)]. }
    destruct Ht2 as (log4 & -> & Ht2). destruct text as [text|message].
    + destruct Ht2 as (written & log5 & -> & Ht2). destruct written.
      * eapply (Hgo (log3 ++ [existT (CWrite text) true]) log5);
          [by rewrite <-app_assoc|by rewrite polled_app, P3|by rewrite seeks_app, S3|by rewrite writes_app, W3|by left].
      * destruct Ht2 as ([] & log6 & -> & -> & [= -> -> ->]).
        eapply (Hgo (log3 ++ [existT (CWrite text) false; existT (CEprint _) tt]) []);
          [by rewrite app_nil_r|by rewrite polled_app, P3|by rewrite seeks_app, S3|by rewrite writes_app, W3|by right].
    + destruct (cp_skip_message_on_error plan).
      * destruct Ht2 as ([] & log5 & -> & Ht2).
        eapply (Hgo (log3 ++ [existT (CLogError _) tt]) log5);
          [by rewrite <-app_assoc|by rewrite polled_app, P3|by rewrite seeks_app, S3|by rewrite writes_app, W3|by left].
      * destruct Ht2 as (-> & [= -> -> ->]). eapply (Hgo log3 []); try done. by right.
  - destruct (cp_skip_message_on_error plan).
    + destruct Ht2 as ([] & log5 & -> & Ht2). eapply (Hgo [existT (CLogError _) tt] log5); try done. by left.
    + destruct Ht2 as (-> & [= -> -> ->]). eapply (Hgo [] []); try done. by right.
Qed.
(** ** Closing *)

Definition same_partition (topic : string) (partition : Z) (record : ConsumedRecord) : Prop :=
  cr_topic record = topic ∧ cr_partition record = partition.
#[local] Instance same_partition_dec topic partition record : Decision (same_partition topic partition record).
Proof. unfold same_partition. apply _. Defined.

Lemma unconsumed_get buffered topic partition :
  bt_wf (unconsumed buffered) ∧
  bt_get (topic, partition) (unconsumed buffered) =
    cr_offset <$> list.head (filter (same_partition topic partition) buffered).
Proof.
  induction buffered as [|record buffered [Hwf IH]] using rev_ind; [split; [apply bt_nil_wf|done]|].
  unfold unconsumed in *. rewrite foldl_snoc, filter_app, filter_cons, filter_nil. set (m := foldl _ _ _) in *.
  unfold same_partition in *. destruct (is_some (bt_get (cr_topic record, cr_partition record) m)) eqn:Es.
  - split; [done|]. rewrite IH. case_decide as Hs; [|by rewrite app_nil_r].
    destruct Hs as [<- <-]. rewrite IH in Es. by destruct (filter _ buffered).
  - split; [by apply bt_insert_wf|]. rewrite bt_get_insert by done. case_decide as E.
    + injection E as <- <-. rewrite decide_True by done. destruct (bt_get _ m) eqn:Eg; [done|].
      symmetry in IH. apply fmap_None in IH. by destruct (filter _ buffered).
    + rewrite decide_False by (intros [Ht Hp]; apply E; congruence). by rewrite app_nil_r, IH.
Qed.

(** Offsets grow within a partition, as the consumer delivers them. *)
Definition in_order (records : list ConsumedRecord) : Prop :=
  StronglySorted (λ first second, cr_topic first = cr_topic second → cr_partition first = cr_partition second →
    cr_offset first < cr_offset second) records.

Lemma unconsumed_first handled rest topic partition offset :
  in_order (handled ++ rest) → (topic, partition, offset) ∈ unconsumed rest →
  (∀ record, record ∈ handled → same_partition topic partition record → cr_offset record < offset) ∧
  (∀ record, record ∈ rest → same_partition topic partition record → offset ≤ cr_offset record).
Proof.
  intros Hord Hin. destruct (unconsumed_get rest topic partition) as [Hwf Hg].
  apply (bt_get_elem (topic, partition)) in Hin; [|done]. rewrite Hin in Hg. clear Hin Hwf.
  destruct (filter (same_partition topic partition) rest) as [|first more] eqn:Ef; [done|]. cbn in Hg.
  injection Hg as Hg. symmetry in Hg. subst offset.
  apply StronglySorted_app in Hord as (Hcross & _ & Hord).
  assert (first ∈ filter (same_partition topic partition) rest) as Hf by (rewrite Ef; by left).
  apply list_elem_of_filter in Hf as [[Ht Hp] Hf]. split.
  - intros record Hr [Ht' Hp']. apply (Hcross record first); congruence.
  - intros record Hr Hs. assert (record ∈ filter (same_partition topic partition) rest) as Hr'
      by (by apply list_elem_of_filter). rewrite Ef in Hr'. apply elem_of_cons in Hr' as [->|Hr']; [lia|].
    assert (StronglySorted (λ a b, cr_topic a = cr_topic b → cr_partition a = cr_partition b →
      cr_offset a < cr_offset b) (first :: more)) as Hs'.
    { rewrite <-Ef. clear -Hord. induction Hord as [|x l Hl IH Hx]; [constructor|]. rewrite filter_cons.
      case_decide; [|done]. constructor; [done|]. rewrite Forall_forall in Hx |- *.
      intros y [_ Hy]%list_elem_of_filter. by apply Hx. }
    apply StronglySorted_cons in Hs' as [Hall _]. rewrite Forall_forall in Hall. specialize (Hall record Hr').
    destruct Hs. assert (cr_offset first < cr_offset record) by (apply Hall; congruence). lia.
Qed.

Lemma unconsumed_covers rest record :
  record ∈ rest → ∃ offset, (cr_topic record, cr_partition record, offset) ∈ unconsumed rest.
Proof.
  intros Hin. destruct (unconsumed_get rest (cr_topic record) (cr_partition record)) as [Hwf Hg].
  assert (record ∈ filter (same_partition (cr_topic record) (cr_partition record)) rest) as Hf
    by (by apply list_elem_of_filter).
  destruct (filter _ rest) as [|first more]; [by apply elem_of_nil in Hf|]. cbn in Hg.
  exists (cr_offset first). by apply (bt_get_elem (cr_topic record, cr_partition record)).
Qed.

Definition seek_call (seek : string * Z * Z) : consumer_call := CSeek seek.1.1 seek.1.2 seek.2.

Lemma stream_close_trace buffered log o :
  trace (stream_close buffered) log o →
  o = Done tt ∧ map (λ e : event consuming, projT1 e) log = map seek_call (unconsumed buffered) ++ [CClose].
Proof.
  unfold stream_close. generalize (unconsumed buffered). intros seeks (log1 & o1 & Ht1 & Ht2)%trace_bind_inv.
  assert (o1 = Done tt ∧ map (λ e : event consuming, projT1 e) log1 = map seek_call seeks) as [-> Hm].
  { clear Ht2. revert log1 Ht1. induction seeks as [|[[topic partition] offset] seeks IH]; intros log1.
    - by intros (-> & ->).
    - intros (r & log' & -> & [-> Hm]%IH). split; [done|]. cbn [map]. by rewrite Hm. }
  destruct Ht2 as (log2 & -> & r & log' & -> & -> & ->). split; [done|]. rewrite map_app, Hm. done.
Qed.

(** Calls that neither poll, nor write, nor seek. *)
Definition idle_call (c : consumer_call) : bool :=
  match c with CPoll _ | CWrite _ | CSeek _ _ _ => false | _ => true end.

Lemma idle_calls log : Forall (λ e : event consuming, idle_call (projT1 e) = true) log → idle log.
Proof.
  induction 1 as [|[c r] log Hc _ (P & Wr & S)]; [done|]. unfold idle, polled, writes, seeks in *.
  by destruct c; cbn in *.
Qed.

(** Programs whose calls are all idle. *)
Definition idling_monitor : Monitor consuming unit :=
  {| allows := λ _ (c : call consuming), idle_call c = true; after := λ s _ _, s |}.

Lemma idle_trace {A} (p : prog consuming A) log o :
  monitored idling_monitor tt p (λ _ _, True) →
  trace p log o → Forall (λ e : event consuming, idle_call (projT1 e) = true) log.
Proof.
  revert log. induction p as [o'|c k IH]; intros log Hm; cbn.
  - intros (-> & _). constructor.
  - intros (r & log' & -> & Ht). destruct Hm as [Hc Hk]. constructor; [done|]. by apply (IH r _ (Hk r)).
Qed.

(** What came after the stream was opened. *)
Lemma consume_trace fuel plan format log exit :
  trace (consume fuel plan format) log (Done exit) →
  idle log ∨
  ∃ log1 log2 log3 log4 count ended rest, log = log1 ++ log2 ++ log3 ++ log4 ∧ idle log1 ∧
    trace (process fuel plan format 0 []) log2 (Done (count, ended, rest)) ∧
    map (λ e : event consuming, projT1 e) log3 = map seek_call (unconsumed rest) ++ [CClose] ∧
    Forall (λ e : event consuming, idle_call (projT1 e) = true) log4.
Proof.
  unfold consume. intros (log0 & o & Ht0 & Ht)%trace_bind_inv.
  apply idle_trace in Ht0; [|unfold generated_group; idling]. apply idle_calls in Ht0.
  destruct o as [group| |]; [|by destruct Ht..]. destruct Ht as (log' & -> & Ht).
  destruct (client_settings _ _) as [settings|message].
  2: { left. apply idle_app; [done|]. eapply idle_calls, idle_trace; [|exact Ht]. unfold consumer_fail. idling. }
  cbn [mbind prog_mbind tell_consumer ask prog_bind] in Ht. destruct Ht as (kdc & log1 & -> & Ht). destruct (client_options _ _ _ _) as [options|error].
  2: { left. apply idle_app; [done|]. apply (idle_app [_]); [done|].
       eapply idle_calls, idle_trace; [|exact Ht]. unfold consumer_fail. idling. }
  apply trace_bind_inv in Ht as (log2 & o & Ht2 & Ht).
  apply idle_trace in Ht2; [|unfold maybe_print_protocol_message; idling]. apply idle_calls in Ht2.
  destruct o as [[]| |]; [|by destruct Ht..]. destruct Ht as (log3 & -> & Ht).
  apply trace_bind_inv in Ht as (log4 & o & Ht4 & Ht).
  apply idle_trace in Ht4; [|unfold stream_open; idling]. apply idle_calls in Ht4.
  destruct o as [opened| |]; [|by destruct Ht..]. destruct Ht as (log5 & -> & Ht).
  assert (∀ e, idle [e] → idle (log0 ++ e :: log2 ++ log4)) as Hfront.
  { intros e He. apply idle_app; [done|]. apply (idle_app [e]); [done|]. by apply idle_app. }
  destruct opened as [[[]|message]|].
  - right. apply trace_bind_inv in Ht as (log6 & [[[count ended] rest]| |] & Hproc & Ht); [|by destruct Ht..].
    destruct Ht as (log7 & -> & Ht). apply trace_bind_inv in Ht as (log8 & o & Hclose & Ht).
    apply stream_close_trace in Hclose as [-> Hclose]. destruct Ht as (log9 & -> & Ht).
    match goal with |- context [log0 ++ ?e :: _] => exists (log0 ++ e :: log2 ++ log4) end.
    exists log6, log8, log9, count, ended, rest. split_and!; [|by apply Hfront|done|done|].
    + rewrite <-app_assoc, <-app_comm_cons. by rewrite <-!app_assoc.
    + eapply idle_trace; [|exact Ht]. unfold report_count, consumer_fail. idling.
  - left. rewrite app_comm_cons, !app_assoc. apply idle_app; [rewrite <-app_assoc; by apply Hfront|].
    eapply idle_calls, idle_trace; [|exact Ht]. unfold consumer_fail. idling.
  - left. rewrite app_comm_cons, !app_assoc. apply idle_app; [rewrite <-app_assoc; by apply Hfront|].
    eapply idle_calls, idle_trace; [|exact Ht]. unfold report_count. idling.
Qed.
End Handled.

Section Claims.
Context `{KrabkaConsumer} `{KrabkaClient} `{RegexCrate} `{SerdeJson}.

Lemma closing_log log rest :
  map (λ e : event consuming, projT1 e) log = map seek_call (unconsumed rest) ++ [CClose] →
  polled log = [] ∧ writes log = [] ∧ seeks log = unconsumed rest.
Proof.
  generalize (unconsumed rest) as l. intros l. revert log. induction l as [|[[topic partition] offset] l IH]; intros log.
  - destruct log as [|[c r] [|e log]]; cbn; intros E; simplify_eq; done.
  - destruct log as [|[c r] log]; [done|]. cbn [map app projT1]. intros [= -> E]. apply IH in E as (P & Wr & S).
    split_and!; [exact P|exact Wr|]. exact (f_equal (cons (topic, partition, offset)) S).
Qed.

(** C10. What [console-consumer] makes of the records that it polls, for every cluster:
    it handles them in order and each once, no more of them than [--max-messages];
    it writes each that it can format, and nothing else; and before it closes the
    consumer it seeks every partition that has records left back to the first of
    them, behind all that were handled, so that what the close commits are the
    records that were handled. *)
Theorem consume_handles W (world : ∀ c : consumer_call, W → consumer_answer c * W) (w w' : W) fuel plan format exit log :
  run (Σ := consuming) world (consume fuel plan format) w = (Done exit, w', log) →
  ∃ handled rest, polled log = handled ++ rest ∧
    writes log = omap (λ record, result_ok (rendered (cp_formatter plan) format record)) handled ∧
    (cp_max_messages plan ≠ -1 → Z.of_nat (length handled) ≤ Z.max 0 (cp_max_messages plan)) ∧
    (∀ record, record ∈ rest → ∃ offset, (cr_topic record, cr_partition record, offset) ∈ seeks log) ∧
    (in_order (polled log) → ∀ topic partition offset, (topic, partition, offset) ∈ seeks log →
      (∀ record, record ∈ handled → same_partition topic partition record → cr_offset record < offset) ∧
      (∀ record, record ∈ rest → same_partition topic partition record → offset ≤ cr_offset record)) ∧
    (polled log ≠ [] → ∃ front back, map (λ e : event consuming, projT1 e) log =
      front ++ map seek_call (seeks log) ++ CClose :: back ∧ Forall (λ c, idle_call c = true) back).
Proof.
  intros Hrun. pose proof (run_trace (Σ := consuming) world (consume fuel plan format) w) as Ht. rewrite Hrun in Ht.
  cbn [fst snd] in Ht. apply consume_trace in Ht as [(P & Wr & S)|Ht].
  { exists [], []. rewrite P, Wr, S. split_and!; try done; cbn; try lia; try (by intros ? ?%elem_of_nil).
    by intros _ ? ? ? ?%elem_of_nil. }
  destruct Ht as (log1 & log2 & log3 & log4 & count & ended & rest & -> & (P1 & W1 & S1) & Hproc & Hclose & Hidle).
  apply process_trace in Hproc as (handled & [R C Wr S B]); [|done]. pose proof (idle_calls _ Hidle) as (P4 & W4 & S4).
  destruct (closing_log _ _ Hclose) as (P3 & W3 & S3). cbn [app] in R.
  exists handled, rest. rewrite !polled_app, !writes_app, !seeks_app, P1, P3, P4, W1, W3, W4, S1, S, S3, S4.
  rewrite !app_nil_r. cbn [app]. split_and!; [done|done| | | |].
  - intros Hm. destruct (B Hm) as [->|]; [cbn; lia|]. lia.
  - intros record Hin. by apply unconsumed_covers.
  - intros Hord topic partition offset Hin. apply unconsumed_first; [by rewrite <-R|done].
  - intros _. exists (map (λ e : event consuming, projT1 e) (log1 ++ log2)), (map (λ e : event consuming, projT1 e) log4).
    split; [|by apply Forall_map]. rewrite !map_app, Hclose. by rewrite <-!app_assoc.
Qed.

(** ** Groups *)

(** A client property of the command line: of its flags, or else of its file. *)
Definition given_key (from_file extra : Properties) (key : string) : option string :=
  match bt_get key extra with Some value => Some value | None => bt_get key from_file end.

Lemma consumer_properties_get args from_file extra group properties key :
  bt_wf from_file → bt_wf extra → consumer_properties args from_file extra group = Ok properties →
  key ∉ ["auto.offset.reset"; "client.id"; "isolation.level"] →
  bt_get key properties =
    match group with
    | Some name => if decide ("group.id" = key) then Some name else given_key from_file extra key
    | None => if decide ("enable.auto.commit" = key) then
                match given_key from_file extra key with Some value => Some value | None => Some "false" end
              else given_key from_file extra key
    end.
Proof.
  intros Hf He Hp Hk. unfold consumer_properties in Hp.
  assert (bt_wf (overlay from_file extra)) as Hwf by by apply overlay_wf.
  assert (bt_get key (overlay from_file extra) = given_key from_file extra key) as Hg by by apply overlay_get.
  assert (∀ k v m, k ∈ ["auto.offset.reset"; "client.id"; "isolation.level"] → bt_wf m →
    bt_wf (prop_insert k v m) ∧ bt_get key (prop_insert k v m) = bt_get key m) as Hins.
  { intros k v m Hin Hm. split; [by apply bt_insert_wf|]. unfold prop_insert. rewrite bt_get_insert by done.
    by rewrite decide_False by (intros ->; done). }
  rewrite <-Hg. generalize dependent (overlay from_file extra). intros m Hp Hm _.
  destruct (match prop_get m "auto.offset.reset" with Some _ => _ | None => _ end) as [m1|] eqn:E1; [|done].
  cbn [mbind result_bind] in Hp.
  assert (bt_wf m1 ∧ bt_get key m1 = bt_get key m) as [Hm1 <-].
  { destruct (prop_get m "auto.offset.reset"); [destruct (_ && _); [done|]; by injection E1 as ->|].
    injection E1 as <-. apply Hins; [by left|done]. }
  assert (∀ (b : bool) k v n, k ∈ ["auto.offset.reset"; "client.id"; "isolation.level"] → bt_wf n →
    bt_wf (if b then n else prop_insert k v n) ∧ bt_wf (if b then prop_insert k v n else n) ∧
    bt_get key (if b then n else prop_insert k v n) = bt_get key n ∧
    bt_get key (if b then prop_insert k v n else n) = bt_get key n) as Hif.
  { intros [] k v n Hin Hn; destruct (Hins k v n Hin Hn); done. }
  match type of Hp with context [if ?b then m1 else prop_insert ?k ?v m1] =>
    destruct (Hif b k v m1) as (Hm2 & _ & Hg2 & _); [set_solver|done|];
    set (m2 := if b then m1 else prop_insert k v m1) in * end.
  match type of Hp with context [if ?b then prop_insert ?k ?v m2 else m2] =>
    destruct (Hif b k v m2) as (_ & Hm3 & _ & Hg3); [set_solver|done|];
    set (m3 := if b then prop_insert k v m2 else m2) in * end.
  change (bt_get key m2 = bt_get key m1) in Hg2. change (bt_get key m3 = bt_get key m2) in Hg3. change (bt_wf m3) in Hm3.
  rewrite <-Hg2, <-Hg3. clearbody m2 m3. injection Hp as <-. destruct group as [name|].
  - unfold prop_insert. by rewrite bt_get_insert.
  - unfold prop_get, prop_insert. destruct (bt_get "enable.auto.commit" m3) as [value|] eqn:Ev; cbn.
    + case_decide as E; [|done]. subst key. by rewrite Ev.
    + rewrite bt_get_insert by done. case_decide as E; [|done]. subst key. by rewrite Ev.
Qed.

(** The groups that are named, and the one of a plan. *)
Lemma consumer_group_None args from_file extra :
  consumer_group args from_file extra = Ok None →
  cca_group args = None ∧ prop_get from_file "group.id" = None ∧ prop_get extra "group.id" = None.
Proof.
  intros Hg. assert (named_groups args from_file extra = []) as Hn.
  { unfold consumer_group in Hg. destruct (_ <? _)%nat; [done|]. destruct (_ && _); [done|].
    injection Hg as Hg. by apply last_None in Hg. }
  unfold named_groups in Hn. assert (∀ l (acc : list string), acc ≠ [] →
    foldl (λ groups group, if bool_decide (group ∈ groups) then groups else groups ++ [group]) acc l ≠ []) as Hfold.
  { induction l as [|x l IH]; intros acc Hacc; [done|]. cbn. apply IH. case_bool_decide; [done|]. by destruct acc. }
  destruct (omap id [cca_group args; prop_get from_file "group.id"; prop_get extra "group.id"]) as [|x l] eqn:El.
  - by destruct (cca_group args), (prop_get from_file "group.id"), (prop_get extra "group.id").
  - cbn [foldl] in Hn. rewrite bool_decide_eq_false_2 in Hn by apply not_elem_of_nil. by apply (Hfold l ([] ++ [x])) in Hn.
Qed.

(** ** Builds *)

(** Calls that do not open a consumer. *)
Definition no_build (c : consumer_call) : bool := match c with CBuild _ => false | _ => true end.
Definition unbuilt_monitor : Monitor consuming unit :=
  {| allows := λ _ (c : call consuming), no_build c = true; after := λ s _ _, s |}.

Lemma unbuilt_trace {A} (p : prog consuming A) log o :
  monitored unbuilt_monitor tt p (λ _ _, True) → trace p log o → Forall (λ e : event consuming, no_build (projT1 e) = true) log.
Proof.
  revert log. induction p as [o'|c k IH]; intros log Hm; cbn.
  - intros (-> & _). constructor.
  - intros (r & log' & -> & Ht). destruct Hm as [Hc Hk]. constructor; [done|]. by apply (IH r _ (Hk r)).
Qed.

Lemma no_build_not_in log config r :
  Forall (λ e : event consuming, no_build (projT1 e) = true) log →
  existT (CBuild config) (r : consumer_answer (CBuild config)) ∉ log.
Proof. intros Hl Hin. rewrite Forall_forall in Hl. by specialize (Hl _ Hin). Qed.

Lemma unbuilt_not_in {A} (p : prog consuming A) log o config r :
  monitored unbuilt_monitor tt p (λ _ _, True) → trace p log o →
  existT (CBuild config) (r : consumer_answer (CBuild config)) ∉ log.
Proof. intros Hm Ht. by eapply no_build_not_in, unbuilt_trace. Qed.

(** The properties that the command line reads its settings from. *)
Definition config_path (args : ConsoleConsumerArgs) : option string :=
  match cca_consumer_config args with Some path => Some path | None => cca_command_config args end.
Definition extra_of (args : ConsoleConsumerArgs) : Properties :=
  key_value_args (if bool_decide (cca_consumer_property args = []) then cca_command_property args
                  else cca_consumer_property args).
Definition file_read (log : list (event consuming)) (path : option string) (from_file : Properties) : Prop :=
  match path with
  | None => from_file = []
  | Some path => ∃ read, existT (CReadFile path) (read : consumer_answer (CReadFile path)) ∈ log ∧
      load_properties path read = Ok from_file
  end.

Lemma load_properties_wf path read properties : load_properties path read = Ok properties → bt_wf properties.
Proof.
  unfold load_properties, parse_properties. destruct read as [bytes|]; [|done]. cbn.
  assert (∀ lines m properties, bt_wf m → insert_lines lines m = Ok properties → bt_wf properties) as Hl.
  { induction lines as [|line lines IH]; intros m p Hm; cbn; [by intros [= <-]|].
    destruct (split_key_value line) as [key value]. destruct (unescape key); [|done]. cbn.
    destruct (unescape value); [|done]. cbn. apply IH. by apply bt_insert_wf. }
  destruct (insert_lines _ _) as [m|] eqn:E; [|done]. cbn. intros [= <-]. eapply Hl; [|exact E]. apply bt_nil_wf.
Qed.

Lemma consumer_file_trace path log from_file :
  trace (consumer_file path) log (Done (Ok from_file)) → file_read log path from_file ∧ bt_wf from_file.
Proof.
  destruct path as [path|]; cbn.
  - intros (read & log' & -> & -> & [= Hl]). split; [|by eapply load_properties_wf]. exists read. by split; [left|].
  - intros (-> & [= ->]). split; [done|apply bt_nil_wf].
Qed.

Lemma consumer_plan_trace args log plan :
  trace (consumer_plan args) log (Done (Ok plan)) →
  Forall (λ e : event consuming, no_build (projT1 e) = true) log ∧
  ∃ from_file, file_read log (config_path args) from_file ∧ bt_wf from_file ∧
    consumer_group args from_file (extra_of args) = Ok (cp_group plan) ∧
    consumer_properties args from_file (extra_of args) (cp_group plan) = Ok (cp_properties plan) ∧
    consumer_source args = Done (Ok (cp_source plan)) ∧ consumer_usage args = None.
Proof.
  intros Ht. split.
  { eapply unbuilt_trace; [|exact Ht]. unfold consumer_plan, consumer_file, consumer_source, consumer_formatter, consumer_file.
    idling. }
  unfold consumer_plan in Ht. destruct (consumer_usage args) eqn:Hu; [by destruct Ht as (_ & [=])|].
  destruct (cca_bootstrap_server args) as [bootstrap|]; [|by destruct Ht as (_ & [=])].
  apply trace_bind_inv in Ht as (log1 & [[from_file|message]| |] & Hfile & Ht); [| |by destruct Ht..];
    destruct Ht as (log2 & -> & Ht); [|by destruct Ht as (_ & [=])].
  apply consumer_file_trace in Hfile as [Hfile Hwf]. fold (config_path args) in Hfile. fold (extra_of args) in Ht.
  exists from_file. split.
  { destruct (config_path args); [|done]. destruct Hfile as (read & Hin & Hl). exists read. split; [set_solver|done]. }
  split; [done|]. destruct (consumer_group args from_file (extra_of args)) as [group|]; [|by destruct Ht as (_ & [=])].
  cbn [mbind result_bind] in Ht. destruct (consumer_properties _ _ _ group) as [properties|] eqn:Hp; [|by destruct Ht as (_ & [=])].
  cbn [mbind result_bind] in Ht. destruct (consumer_source args) as [[source|refusal]| |]; [| |by destruct Ht as (_ & [=])..];
    [|by destruct Ht as (_ & [=])].
  cbn [mbind prog_mbind prog_bind] in Ht.
  apply trace_bind_inv in Ht as (log3 & [[[[formatter fw] warnings]|refusal]| |] & Hform & Ht); [| |by destruct Ht..];
    destruct Ht as (log4 & -> & Ht); [|by destruct Ht as (_ & [=])].
  destruct Ht as (_ & [= ->]). done.
Qed.
Lemma stream_open_trace source bootstrap settings options log o config r :
  trace (stream_open source bootstrap settings options) log o →
  existT (CBuild config) (r : consumer_answer (CBuild config)) ∈ log →
  cc_settings config = settings ∧
  cc_group_id config = match source with
                       | SourcePartition _ _ _ => if cs_enable_auto_commit settings then Some (cs_group_id settings) else None
                       | _ => Some (cs_group_id settings)
                       end.
Proof.
  unfold stream_open. destruct (match source with SourceInclude pattern => _ | _ => _ end) as [pattern|message];
    [|by intros (-> & _) ?%elem_of_nil].
  intros (built & log' & -> & Ht) Hin. apply elem_of_cons in Hin as [Hin|Hin].
  { injection Hin as -> _. done. }
  exfalso. assert (Forall (λ e : event consuming, no_build (projT1 e) = true) log') as Hall.
  { eapply unbuilt_trace; [|exact Ht]. idling. }
  rewrite Forall_forall in Hall. by specialize (Hall _ Hin).
Qed.

Lemma settings_auto_commit properties group_id settings :
  client_settings properties group_id = Ok settings →
  bool_property properties "enable.auto.commit" true = Ok (cs_enable_auto_commit settings).
Proof.
  unfold client_settings. intros Hs. destruct (ok_or _ _); [|done]. cbn [mbind result_bind] in Hs.
  destruct (isolation_level_of _); [|done]. cbn [mbind result_bind] in Hs.
  destruct (group_protocol _); [|done]. cbn [mbind result_bind] in Hs.
  destruct (bool_property properties "enable.auto.commit" true) as [commit|]; [|done]. cbn [mbind result_bind] in Hs.
  repeat (match type of Hs with context [?r ≫= _] => destruct r; [|done] end; cbn [mbind result_bind] in Hs).
  by injection Hs as <-.
Qed.

Lemma unbuilt_bind {A B} (p : prog consuming A) (f : A → prog consuming B) :
  monitored unbuilt_monitor tt p (λ _ _, True) → (∀ a, monitored unbuilt_monitor tt (f a) (λ _ _, True)) →
  monitored unbuilt_monitor tt (prog_bind f p) (λ _ _, True).
Proof.
  intros Hp Hf. apply monitored_bind. eapply monitored_mono; [exact Hp|]. intros [] [a| |] _; [apply Hf|done..].
Qed.

Lemma process_unbuilt fuel plan format count buffered :
  monitored unbuilt_monitor tt (process fuel plan format count buffered) (λ _ _, True).
Proof.
  assert (∀ fuel timeout buffered, monitored unbuilt_monitor tt (receive_loop fuel timeout buffered) (λ _ _, True)) as Hr.
  { clear. induction fuel as [|fuel IH]; intros timeout buffered; [done|]. cbn [receive_loop]. idling. }
  revert count buffered. induction fuel as [|fuel IH]; intros count buffered; [done|]. cbn [process].
  destruct (bound_reached _ _); [done|]. apply unbuilt_bind; [by split; [|intros; apply Hr]|].
  intros [received rest]. destruct received as [record|stop]; [|destruct stop; idling].
  destruct (render _ _ _) as [[line text]|message].
  - apply unbuilt_bind; [by destruct line|]. intros []. destruct text as [text|message].
    + split; [done|]. intros []; [apply IH|]. idling.
    + destruct (cp_skip_message_on_error plan); [|done]. split; [done|]. intros. apply IH.
  - destruct (cp_skip_message_on_error plan); [|done]. split; [done|]. intros. apply IH.
Qed.

Lemma each_line_unbuilt c lines log o :
  (∀ line, no_build (c line) = true) → trace (each_line c lines) log o →
  o = Done tt ∧ Forall (λ e : event consuming, no_build (projT1 e) = true) log.
Proof.
  intros Hc. revert log. induction lines as [|line lines IH]; intros log.
  - by intros (-> & ->).
  - intros (r & log' & -> & Ht). apply IH in Ht as [-> Hl]. split; [done|]. constructor; [apply Hc|done].
Qed.

Lemma consume_builds fuel plan format log o config r :
  trace (consume fuel plan format) log o →
  existT (CBuild config) (r : consumer_answer (CBuild config)) ∈ log →
  bool_property (cp_properties plan) "enable.auto.commit" true = Ok (cs_enable_auto_commit (cc_settings config)) ∧
  ((∃ topic partition offset, cp_source plan = SourcePartition topic partition offset) →
    cs_enable_auto_commit (cc_settings config) = false → cc_group_id config = None).
Proof.
  unfold consume. intros (log0 & o0 & Ht0 & Ht)%trace_bind_inv Hin.
  pose proof (λ A p l o, unbuilt_not_in (A := A) p l o config r) as Hno.
  assert (existT (CBuild config) (r : consumer_answer (CBuild config)) ∉ log0) as Hn0.
  { eapply Hno; [|exact Ht0]. unfold generated_group. idling. }
  destruct o0 as [group| |]; [|by destruct Ht as [-> _]..]. destruct Ht as (log' & -> & Ht).
  apply elem_of_app in Hin as [|Hin]; [done|].
  destruct (client_settings _ _) as [settings|message] eqn:Hset.
  2: { exfalso. eapply Hno; [|exact Ht|exact Hin]. unfold consumer_fail. idling. }
  cbn [mbind prog_mbind tell_consumer ask prog_bind] in Ht. destruct Ht as (kdc & log1 & -> & Ht).
  apply elem_of_cons in Hin as [Hin|Hin]; [done|].
  destruct (client_options _ _ _ _) as [options|error].
  2: { exfalso. eapply Hno; [|exact Ht|exact Hin]. unfold consumer_fail. idling. }
  apply trace_bind_inv in Ht as (log2 & o2 & Ht2 & Ht).
  assert (existT (CBuild config) (r : consumer_answer (CBuild config)) ∉ log2) as Hn2.
  { eapply Hno; [|exact Ht2]. unfold maybe_print_protocol_message. idling. }
  destruct o2 as [[]| |]; [|by destruct Ht as [-> _]..]. destruct Ht as (log3 & -> & Ht).
  apply elem_of_app in Hin as [|Hin]; [done|].
  apply trace_bind_inv in Ht as (log4 & o4 & Ht4 & Ht).
  assert (existT (CBuild config) (r : consumer_answer (CBuild config)) ∈ log4) as Hin4.
  { destruct o4 as [opened| |]; [|by destruct Ht as [-> _]..]. destruct Ht as (log5 & -> & Ht).
    apply elem_of_app in Hin as [|Hin]; [done|]. exfalso. eapply Hno; [|exact Ht|exact Hin].
    destruct opened as [[[]|message]|]; [|unfold consumer_fail; idling|unfold report_count; idling].
    apply unbuilt_bind; [apply process_unbuilt|]. intros [[count ended] rest]. apply unbuilt_bind.
    - apply unbuilt_bind; [|idling]. generalize (unconsumed rest). intros l.
      induction l as [|[[topic partition] offset] l IH]; [done|]. by cbn.
    - unfold report_count, consumer_fail. idling. }
  destruct (stream_open_trace _ _ _ _ _ _ _ _ Ht4 Hin4) as [Hs Hgid]. rewrite Hs.
  split; [by eapply settings_auto_commit|]. intros (topic & partition & offset & E) Hc. by rewrite Hgid, E, Hc.
Qed.

(** C23. A run of [console-consumer] that was given no group leaves no offsets behind,
    for every cluster and every file: a consumer that commits is opened only where a
    group was named, by [--group] or a property, or a property sets
    [enable.auto.commit]; and under [--partition], where no group may be named, a
    consumer that belongs to a group only in the second case. *)
Theorem commits_only_when_asked W (world : ∀ c : consumer_call, W → consumer_answer c * W) (w : W) fuel args format config r :
  existT (CBuild config) (r : consumer_answer (CBuild config)) ∈
    (run (Σ := consuming) world (console_consumer_run fuel args format) w).2 →
  ∃ from_file, file_read (run (Σ := consuming) world (console_consumer_run fuel args format) w).2
      (config_path args) from_file ∧
    let asked := is_Some (given_key from_file (extra_of args) "enable.auto.commit") in
    let named := is_Some (cca_group args) ∨ is_Some (prop_get from_file "group.id") ∨
                 is_Some (prop_get (extra_of args) "group.id") in
    (cs_enable_auto_commit (cc_settings config) = true → named ∨ asked) ∧
    (is_Some (cca_partition args) → is_Some (cc_group_id config) → asked).
Proof.
  pose proof (run_trace (Σ := consuming) world (console_consumer_run fuel args format) w) as Ht.
  destruct (run _ _ w) as [[o w'] log]. cbn [fst snd] in Ht |- *. intros Hin.
  unfold console_consumer_run in Ht. apply trace_bind_inv in Ht as (log1 & o1 & Hplan & Ht).
  pose proof (λ A p l o, unbuilt_not_in (A := A) p l o config r) as Hno.
  assert (monitored unbuilt_monitor tt (consumer_plan args) (λ _ _, True)) as Hmon.
  { unfold consumer_plan, consumer_file, consumer_source, consumer_formatter, consumer_file. idling. }
  destruct o1 as [[plan|refusal]| |]; [|destruct Ht as (log2 & -> & Ht)|by destruct Ht as [-> _]; destruct (Hno _ _ _ _ Hmon Hplan)..].
  2: { exfalso. apply elem_of_app in Hin as [Hin|Hin]; [by destruct (Hno _ _ _ _ Hmon Hplan)|].
       eapply Hno; [|exact Ht|exact Hin]. idling. }
  destruct Ht as (log2 & -> & Ht). apply consumer_plan_trace in Hplan as (Hnone & from_file & Hfile & Hwf & Hg & Hp & Hsrc & Hu).
  apply trace_bind_inv in Ht as (log3 & o3 & Hwarn & Ht). apply each_line_unbuilt in Hwarn as [-> Hn3]; [|done].
  destruct Ht as (log4 & -> & Ht). apply trace_bind_inv in Ht as (log5 & o5 & Hwarn & Ht).
  apply each_line_unbuilt in Hwarn as [-> Hn5]; [|done]. destruct Ht as (log6 & -> & Ht).
  pose proof (λ l, no_build_not_in l config r) as Hnot.
  assert (existT (CBuild config) (r : consumer_answer (CBuild config)) ∈ log6) as Hin6.
  { apply elem_of_app in Hin as [Hin|Hin]; [by destruct (Hnot _ Hnone)|].
    apply elem_of_app in Hin as [Hin|Hin]; [by destruct (Hnot _ Hn3)|].
    apply elem_of_app in Hin as [Hin|Hin]; [by destruct (Hnot _ Hn5)|done]. }
  destruct (consume_builds _ _ _ _ _ _ _ Ht Hin6) as [Hb Hpart]. exists from_file. split.
  { destruct (config_path args); [|done]. destruct Hfile as (read & Hread & Hl). exists read. split; [set_solver|done]. }
  assert ("enable.auto.commit" ∉ ["auto.offset.reset"; "client.id"; "isolation.level"]) as Hk
    by (apply (bool_decide_unpack _); by vm_compute).
  cbv zeta. pose proof (consumer_properties_get args from_file (extra_of args) (cp_group plan) (cp_properties plan)
    "enable.auto.commit" Hwf (key_value_args_wf _) Hp Hk) as Hget.
  assert (cp_group plan = None → given_key from_file (extra_of args) "enable.auto.commit" = None →
    cs_enable_auto_commit (cc_settings config) = false) as Hoff.
  { intros En Eg. rewrite En, decide_True, Eg in Hget by done. unfold bool_property, prop_get in Hb. rewrite Hget in Hb.
    by vm_compute in Hb; injection Hb. }
  split.
  - intros Hc. destruct (given_key from_file (extra_of args) "enable.auto.commit") as [value|] eqn:Eg; [right; eauto|].
    destruct (cp_group plan) as [group|] eqn:En; [left|by rewrite Hoff in Hc].
    destruct (cca_group args) eqn:E1, (prop_get from_file "group.id") eqn:E2, (prop_get (extra_of args) "group.id") eqn:E3; eauto.
    unfold consumer_group, named_groups in Hg. by rewrite E1, E2, E3 in Hg.
  - intros [partition Epart] [group_id Eid]. apply not_eq_None_Some. intros Eg.
    assert (cp_group plan = None) as En.
    { unfold consumer_group in Hg. rewrite Epart in Hg. destruct (_ <? _)%nat; [done|]. cbn [is_some] in Hg.
      rewrite andb_true_r in Hg. case_bool_decide as Hgr; [done|]. injection Hg as <-.
      destruct (decide (named_groups args from_file (extra_of args) = [])) as [->|]; [done|tauto]. }
    rewrite Hpart in Eid; [done| |by apply Hoff]. unfold consumer_source in Hsrc. rewrite Epart in Hsrc.
    unfold consumer_usage in Hu. rewrite Epart in Hu. destruct (cca_topic args) as [topic|].
    + destruct (start_offset args) as [offset|]; [|done]. injection Hsrc as <-. eauto.
    + by destruct (cca_include args).
Qed.
End Claims.

(** ** Termination *)

Section ConsumerEnds.
Context `{KrabkaConsumer} `{KrabkaClient} `{RegexCrate} `{SerdeJson}.
Context {W : Type} (world : ∀ c : consumer_call, W → consumer_answer c * W) (left : W → nat).

(** The records and the polls come to an end: [left] bounds what polls can still give,
    one for each poll and one for each record, before one of them fails or Ctrl-C
    stops it; and no call makes it more. *)
Definition polls_left : Prop :=
  (∀ c w, (left (world c w).2 ≤ left w)%nat) ∧
  ∀ slice w records, (world (CPoll slice) w).1 = Some (Ok records) →
    (left (world (CPoll slice) w).2 + 1 + length records ≤ left w)%nat.
Context (Hleft : polls_left).

Lemma receive_loop_returns fuel timeout buffered w :
  (left w + length buffered < fuel)%nat →
  returns_to (Σ := consuming) world (receive_loop fuel timeout buffered) w (λ '(received, rest) w',
    (left w' ≤ left w)%nat ∧
    (is_ok received = true → (left w' + length rest + 1 ≤ left w + length buffered)%nat)).
Proof.
  revert buffered w. induction fuel as [|fuel IH]; intros buffered w Hf; [lia|]. cbn [receive_loop].
  destruct buffered as [|record buffered].
  - apply (returns_to_vis (Σ := consuming)). pose proof (proj1 Hleft CElapsed w) as K1.
    destruct (world CElapsed w) as [elapsed w1]. cbn [fst snd] in K1 |- *. cbn [prog_bind].
    apply (returns_to_vis (Σ := consuming)). match goal with |- context [world (CPoll ?s) w1] => set (slice := s) end.
    pose proof (proj1 Hleft (CPoll slice) w1) as K2. pose proof (proj2 Hleft slice w1) as Hp.
    destruct (world (CPoll slice) w1) as [polled w2]. cbn [fst snd] in K2, Hp |- *. cbn [prog_bind].
    destruct polled as [[records|error]|]; [|apply (returns_to_halt (Σ := consuming)); split; [lia|done]..].
    specialize (Hp records eq_refl). apply (returns_to_vis (Σ := consuming)). pose proof (proj1 Hleft CElapsed w2) as K3.
    destruct (world CElapsed w2) as [elapsed2 w3]. cbn [fst snd] in K3 |- *. cbn [prog_bind].
    destruct (bool_decide (records = []) && _); [apply (returns_to_halt (Σ := consuming)); split; [lia|done]|].
    eapply (returns_to_mono (Σ := consuming)); [apply IH; lia|]. cbn. intros [received rest] w4 [K4 K5]. cbn.
    split; [lia|]. intros Hok%K5. lia.
  - apply (returns_to_halt (Σ := consuming)). cbn. split; [lia|]. intros _. lia.
Qed.

Definition no_more {A} (w : W) (_ : A) (w' : W) : Prop := (left w' ≤ left w)%nat.
Abbreviation consumer_ends p w := (returns_to (Σ := consuming) world p w (no_more w)).

(** A call, then the rest. *)
Lemma consumer_ends_ask {A} c (k : consumer_answer c → prog consuming A) w :
  (∀ r w', (left w' ≤ left w)%nat → consumer_ends (k r) w') → consumer_ends (Vis (Σ := consuming) c k) w.
Proof.
  intros Hk. apply (returns_to_vis (Σ := consuming)). pose proof (proj1 Hleft c w) as Hc.
  eapply (returns_to_mono (Σ := consuming)); [apply Hk; exact Hc|]. unfold no_more. intros ? ? Hw. cbn in Hw. etransitivity; [exact Hw|exact Hc].
Qed.

Lemma consumer_ends_bind {A B} (p : prog consuming A) (f : A → prog consuming B) w :
  consumer_ends p w → (∀ a w', (left w' ≤ left w)%nat → consumer_ends (f a) w') → consumer_ends (prog_bind f p) w.
Proof.
  intros Hp Hf. apply (returns_to_bind (Σ := consuming)). eapply (returns_to_mono (Σ := consuming)); [exact Hp|].
  intros a w1 K1. eapply (returns_to_mono (Σ := consuming)); [by apply Hf|]. unfold no_more in *. intros. lia.
Qed.

Lemma consumer_ends_halt {A} (a : A) w : consumer_ends (Halt (Done a)) w.
Proof. apply (returns_to_halt (Σ := consuming)). unfold no_more. lia. Qed.

(** Programs without loops. *)
Ltac consumer_ending := repeat (try unfold mbind, prog_mbind; try unfold tell_consumer; try unfold ask; cbn; match goal with
  | |- returns_to _ (match ?x with _ => _ end) _ _ => destruct x
  | |- context [prog_bind _ (match ?x with _ => _ end)] => destruct x
  | |- returns_to _ (Vis _ _) _ _ => apply consumer_ends_ask; intros
  | |- returns_to _ (mret _) _ _ => apply consumer_ends_halt
  | |- returns_to _ (Halt (Done _)) _ _ => apply consumer_ends_halt
  end).

Lemma process_returns fuel plan format count buffered w :
  (left w + length buffered < fuel)%nat → consumer_ends (process fuel plan format count buffered) w.
Proof.
  revert count buffered w. induction fuel as [|fuel IH]; intros count buffered w Hf; [lia|]. cbn [process].
  destruct (bound_reached _ _); [apply consumer_ends_halt|].
  apply (returns_to_bind (Σ := consuming)). apply (returns_to_vis (Σ := consuming)). pose proof (proj1 Hleft CNow w) as K1.
  destruct (world CNow w) as [[] w1]. cbn [fst snd] in K1 |- *.
  eapply (returns_to_mono (Σ := consuming)); [apply receive_loop_returns; lia|]. intros [received rest] w2 [K2 K3].
  eapply (returns_to_mono (Σ := consuming) _ _ _ (no_more w2)); [|unfold no_more; intros; lia].
  destruct received as [record|stop]; [|destruct stop; consumer_ending]. specialize (K3 eq_refl).
  assert (∀ w', (left w' ≤ left w2)%nat → consumer_ends (process fuel plan format (count + 1) rest) w') as Hgo.
  { intros w' Hw'. apply IH. lia. }
  assert (∀ message w', (left w' ≤ left w2)%nat → consumer_ends
    (if cp_skip_message_on_error plan then
       tell_consumer (CLogError ("Error processing message, skipping this message: " +:+ message));;
       process fuel plan format (count + 1) rest
     else mret (count + 1, EndFailed message, rest)) w') as Hskip.
  { intros message w' Hw'. destruct (cp_skip_message_on_error plan); [|apply consumer_ends_halt].
    apply consumer_ends_ask. intros r w3 K4. apply Hgo. lia. }
  destruct (render _ _ _) as [[line text]|message]; [|by apply Hskip].
  apply consumer_ends_bind; [destruct line; consumer_ending|]. intros [] w3 K4. unfold mbind, prog_mbind.
  destruct text as [text|message]; [|by apply Hskip].
  apply consumer_ends_ask. intros [] w4 K5; [apply Hgo; lia|consumer_ending].
Qed.

Lemma stream_close_returns buffered w : consumer_ends (stream_close buffered) w.
Proof.
  apply consumer_ends_bind; [|intros [] w' Hw'; consumer_ending]. generalize (unconsumed buffered). intros l.
  revert w. induction l as [|[[topic partition] offset] l IH]; intros w; [apply consumer_ends_halt|].
  apply consumer_ends_ask. intros r w' Hw'. apply IH.
Qed.

Lemma each_line_returns c lines w : consumer_ends (each_line c lines) w.
Proof.
  revert w. induction lines as [|line lines IH]; intros w; [apply consumer_ends_halt|].
  apply consumer_ends_ask. intros r w' Hw'. apply IH.
Qed.

Lemma consumer_source_done args : consumer_usage args = None → ∃ source, consumer_source args = Done source.
Proof.
  unfold consumer_usage, consumer_source. intros Hu.
  destruct (cca_topic args), (cca_include args), (cca_partition args); try done; eauto; destruct (start_offset args); cbn; eauto.
Qed.

(** [console-consumer] returns: where, after some number of polls and records, a
    poll fails or Ctrl-C stops it, a run with fuel for more turns than these ends with
    an exit code. *)
Theorem console_consumer_returns fuel args format (w : W) :
  (left w < fuel)%nat →
  ∃ exit w' log, run (Σ := consuming) world (console_consumer_run fuel args format) w = (Done exit, w', log).
Proof.
  intros Hf. assert (consumer_ends (console_consumer_run fuel args format) w) as He.
  { unfold console_consumer_run. apply consumer_ends_bind.
    - unfold consumer_plan, consumer_file, consumer_formatter, consumer_file.
      destruct (consumer_usage args) eqn:Hu; [apply consumer_ends_halt|].
      destruct (consumer_source_done args Hu) as [source ->]. destruct (cca_bootstrap_server args) eqn:Hb; cycle 1.
      { exfalso. unfold consumer_usage in Hu. rewrite Hb in Hu. by repeat case_match. }
      consumer_ending.
    - intros [plan|refusal] w1 K1; [|consumer_ending].
      apply consumer_ends_bind; [apply each_line_returns|]. intros [] w2 K2.
      apply consumer_ends_bind; [apply each_line_returns|]. intros [] w3 K3. unfold consume.
      apply consumer_ends_bind; [unfold generated_group; consumer_ending|]. intros group w4 K4.
      destruct (client_settings _ _); [|unfold consumer_fail; consumer_ending].
      apply consumer_ends_ask. intros kdc w5 K5. cbn [prog_bind].
      destruct (client_options _ _ _ _); [|unfold consumer_fail; consumer_ending].
      apply consumer_ends_bind; [unfold maybe_print_protocol_message; consumer_ending|]. intros [] w6 K6.
      apply consumer_ends_bind; [unfold stream_open; consumer_ending|]. intros opened w7 K7.
      destruct opened as [[[]|message]|]; [|unfold consumer_fail; consumer_ending|unfold report_count; consumer_ending].
      apply consumer_ends_bind; [apply process_returns; cbn; lia|]. intros [[count ended] rest] w8 K8.
      apply consumer_ends_bind; [apply stream_close_returns|]. intros [] w9 K9.
      unfold report_count, consumer_fail. consumer_ending. }
  destruct He as (exit & w' & log & Hrun & _). eauto.
Qed.
End ConsumerEnds.

(** ** Runs *)

#[local] Existing Instance sample_client.
#[local] Existing Instance sample_regex.
#[local] Instance sample_json : SerdeJson := reads_as Null.
#[local] Instance sample_consumer : KrabkaConsumer :=
  {| AutoOffsetReset := string; parse_reset := Some; default_assignors := [RangeAssignor] |}.

(** A cluster that gives the batches that it holds, and then is stopped by Ctrl-C. *)
Definition batch_world (c : consumer_call) (batches : list (list ConsumedRecord))
    : consumer_answer c * list (list ConsumedRecord) :=
  match c with
  | CReadFile _ => (Err "no such file", batches)
  | CEnvVar _ => (None, batches)
  | CRandom | CElapsed => (0, batches)
  | CBuild _ | CAssign _ _ | CSeekFirst _ _ _ | CCloseUnopened => (Some (Ok tt), batches)
  | CPoll _ => match batches with [] => (None, []) | batch :: batches => (Some (Ok batch), batches) end
  | CWrite _ => (true, batches)
  | CSeek _ _ _ | CClose => (Ok tt, batches)
  | CEprint _ | CLogError _ | CLogInfo _ | CNow | CWriteln _ | CEmitError _ _ _ => (tt, batches)
  end.

Definition sample_record (partition offset : Z) (value : string) : ConsumedRecord :=
  {| cr_topic := "orders"; cr_partition := partition; cr_offset := offset; cr_timestamp := 0;
     cr_timestamp_type := CreateTime; cr_key := None; cr_value := Some value; cr_headers := [] |}.

Definition sample_batches : list (list ConsumedRecord) :=
  [[sample_record 0 7 "a"; sample_record 1 3 "b"]; []; [sample_record 1 4 "c"; sample_record 1 5 "d"; sample_record 0 8 "e"]].

Definition consumer_args (max_messages : option Z) : ConsoleConsumerArgs :=
  {| cca_topic := Some "orders"; cca_include := None; cca_partition := None; cca_offset := None;
     cca_consumer_property := []; cca_command_property := []; cca_consumer_config := None; cca_command_config := None;
     cca_formatter := "org.apache.kafka.tools.consumer.DefaultMessageFormatter"; cca_property := [];
     cca_formatter_property := []; cca_formatter_config := None; cca_from_beginning := true;
     cca_max_messages := max_messages; cca_timeout_ms := None; cca_skip_message_on_error := false;
     cca_bootstrap_server := Some "broker:9092"; cca_key_deserializer := None; cca_value_deserializer := None;
     cca_enable_systest_events := false; cca_isolation_level := None; cca_group := Some "billing" |}.

Definition sample_run (max_messages : option Z) :=
  run (Σ := consuming) batch_world (console_consumer_run 20 (consumer_args max_messages) Human) sample_batches.

(** Three of the five records are printed; the two that are left are sought back to. *)
Example bounded_run :
  let '(outcome, _, log) := sample_run (Some 3) in
  outcome = Done Success ∧ writes log = ["a" +:+ newline; "b" +:+ newline; "c" +:+ newline] ∧
  seeks log = [("orders", 0, 8); ("orders", 1, 5)].
Proof. vm_compute. split_and!; reflexivity. Qed.

Example cancelled_run :
  let '(outcome, _, log) := sample_run None in
  outcome = Done Cancelled ∧ length (writes log) = 5%nat ∧ seeks log = [].
Proof. vm_compute. split_and!; reflexivity. Qed.

Definition sample_consumer_plan : ConsumerPlan :=
  {| cp_bootstrap := ["broker:9092"]; cp_source := SourceTopic "orders"; cp_properties := []; cp_group := Some "billing";
     cp_max_messages := 3; cp_timeout_ms := None; cp_skip_message_on_error := false;
     cp_formatter := FDefault default_formatter; cp_formatter_warnings := []; cp_systest_events := false;
     cp_warnings := [] |}.

Definition sample_consume_log : list (event consuming) :=
  (run (Σ := consuming) batch_world (consume 20 sample_consumer_plan Human) sample_batches).2.

Lemma consume_handles_witness : ∃ handled rest, polled sample_consume_log = handled ++ rest ∧
  Z.of_nat (length handled) ≤ 3 ∧
  ∀ topic partition offset, (topic, partition, offset) ∈ seeks sample_consume_log →
    ∀ record, record ∈ handled → same_partition topic partition record → cr_offset record < offset.
Proof.
  unfold sample_consume_log.
  destruct (run _ (consume 20 sample_consumer_plan Human) sample_batches) as [[outcome w'] log] eqn:E. cbn [snd].
  assert (outcome = Done Success ∧ polled log = [sample_record 0 7 "a"; sample_record 1 3 "b"; sample_record 1 4 "c";
    sample_record 1 5 "d"; sample_record 0 8 "e"]) as [-> Hp].
  { vm_compute in E. injection E as <- <- <-. split; reflexivity. }
  destruct (consume_handles _ batch_world sample_batches w' 20 sample_consumer_plan Human Success log E)
    as (handled & rest & Hr & _ & Hmax & _ & Hseek & _).
  exists handled, rest. split; [exact Hr|]. split; [by apply Hmax|]. intros topic partition offset Hin.
  refine (proj1 (Hseek _ topic partition offset Hin)). rewrite Hp. unfold in_order.
  repeat first [apply SSorted_nil | apply SSorted_cons | apply List.Forall_nil | apply List.Forall_cons]; cbn; intros; lia.
Defined.

(** The consumer that the sample run opens. *)
Definition built_configs (log : list (event consuming)) : list ConsumerConfig :=
  omap (λ e : event consuming, match projT1 e with CBuild config => Some config | _ => None end) log.

Lemma commits_only_when_asked_witness : ∃ config,
  built_configs (sample_run None).2 = [config] ∧ cs_enable_auto_commit (cc_settings config) = true ∧
  ∃ from_file, file_read (sample_run None).2 None from_file ∧
    (is_Some (Some "billing") ∨ is_Some (prop_get from_file "group.id") ∨ is_Some (prop_get [] "group.id") ∨
     is_Some (given_key from_file [] "enable.auto.commit")).
Proof.
  destruct (built_configs (sample_run None).2) as [|config [|]] eqn:E; [by vm_compute in E| |by vm_compute in E].
  exists config. split; [done|].
  assert (existT (CBuild config) (Some (Ok tt) : consumer_answer (CBuild config)) ∈ (sample_run None).2) as Hin.
  { vm_compute in E. injection E as <-. vm_compute. do 8 (apply list_elem_of_here || apply list_elem_of_further). }
  destruct (commits_only_when_asked _ batch_world sample_batches 20 (consumer_args None) Human config _ Hin)
    as (from_file & Hf & Hc & _).
  split; [by vm_compute in E; injection E as <-|]. exists from_file. split; [exact Hf|].
  destruct Hc as [[|[|]]|]; [by vm_compute in E; injection E as <-|tauto..].
Defined.

Lemma console_consumer_returns_witness :
  ∃ exit w' log, run (Σ := consuming) batch_world (console_consumer_run 20 (consumer_args None) Human) sample_batches =
    (Done exit, w', log).
Proof.
  apply (console_consumer_returns batch_world (foldr (λ batch n, S (length batch + n)) 0%nat)).
  - split.
    + intros c [|batch batches]; destruct c; cbn; lia.
    + intros slice [|batch batches] records; cbn; [done|]. intros [= <-]. lia.
  - vm_compute. lia.
Defined.
