(* ===== verification/AdminDto.v ===== *)
(** [dto.rs], [error.rs] and [admin.rs] of the admin UI: the requests that the server
    takes with their checks, its errors, and the rows that it shows of what a broker
    answered. *)

From Stdlib Require Import Ascii.
From S2P Require Import Prelude Collections Rust Json KafkaErrors Output Admin Floats TopicDescribe ConsoleFormatter.

(** ** Checks of a field *)

Definition ensure_not_blank (field value : string) : result string unit :=
  if bool_decide (trim value = "") then Err (field +:+ " must not be blank") else Ok tt.

Definition ensure_positive (field : string) (value : Z) : result string unit :=
  if value <=? 0 then Err (field +:+ " must be positive") else Ok tt.

Definition ensure_nonnegative (field : string) (value : Z) : result string unit :=
  if value <? 0 then Err (field +:+ " must be nonnegative") else Ok tt.

Definition is_finite (value : F64) : bool := negb (is_nan value || is_infinite value).
Definition ensure_finite (field : string) (value : F64) : result string unit :=
  if negb (is_finite value) then Err (field +:+ " must be finite") else Ok tt.

(** ** Requests *)

Record ConfigEntryDto := { ced_name : string; ced_value : string }.
Record CreateTopicRequestDto := {
  ctr_name : string;
  ctr_partitions : Z;
  ctr_replicas : Z;
  ctr_configs : list ConfigEntryDto
}.
Record DeleteTopicRequestDto := { dtr_name : string }.
Record CreatePartitionsRequestDto := { cpr_topic : string; cpr_total_count : Z }.
Record AlterConfigRequestDto := {
  acr_resource_type : string;
  acr_resource_name : string;
  acr_configs : list ConfigEntryDto
}.
Record AclRequestDto := {
  ard_resource_type : string;
  ard_resource_name : string;
  ard_pattern_type : string;
  ard_principal : string;
  ard_operation : string;
  ard_permission : string;
  ard_host : string
}.
Record ScramUserUpsertDto := { suu_username : string; suu_password : string; suu_iterations : Z }.
Record ScramUserDeleteDto := { sud_username : string }.
Record QuotaUpsertDto := { qud_entity : string; qud_quota_type : string; qud_value : F64 }.
Record QuotaDeleteDto := { qdd_entity : string; qdd_quota_type : string }.
Record LogDirMoveRequestDto := {
  ldm_topic : string;
  ldm_partition : Z;
  ldm_broker_id : Z;
  ldm_destination_log_dir : string
}.

(** The forms that are not the requests themselves. *)
Record CreateTopicFormDto := {
  ctf_name : string; ctf_partitions : Z; ctf_replicas : Z; ctf_configs : string
}.
Record AlterConfigFormDto := { acf_resource_type : string; acf_resource_name : string; acf_configs : string }.

(** [validate] of each. *)
Definition validate_config_entry (entry : ConfigEntryDto) : result string unit :=
  ensure_not_blank "config name" (ced_name entry).

Fixpoint validate_each (entries : list ConfigEntryDto) : result string unit :=
  match entries with
  | [] => Ok tt
  | entry :: entries => _ ← validate_config_entry entry; validate_each entries
  end.

Definition validate_create_topic (r : CreateTopicRequestDto) : result string unit :=
  _ ← ensure_not_blank "topic name" (ctr_name r);
  _ ← ensure_positive "partition count" (ctr_partitions r);
  _ ← ensure_positive "replica count" (ctr_replicas r);
  validate_each (ctr_configs r).

Definition validate_delete_topic (r : DeleteTopicRequestDto) : result string unit :=
  ensure_not_blank "topic name" (dtr_name r).

Definition validate_create_partitions (r : CreatePartitionsRequestDto) : result string unit :=
  _ ← ensure_not_blank "topic name" (cpr_topic r);
  ensure_positive "partition count" (cpr_total_count r).

Definition validate_alter_config (r : AlterConfigRequestDto) : result string unit :=
  _ ← ensure_not_blank "config resource type" (acr_resource_type r);
  _ ← ensure_not_blank "config resource name" (acr_resource_name r);
  validate_each (acr_configs r).

Definition validate_acl (r : AclRequestDto) : result string unit :=
  _ ← ensure_not_blank "ACL resource type" (ard_resource_type r);
  _ ← ensure_not_blank "ACL resource name" (ard_resource_name r);
  _ ← ensure_not_blank "ACL pattern type" (ard_pattern_type r);
  _ ← ensure_not_blank "ACL principal" (ard_principal r);
  _ ← ensure_not_blank "ACL operation" (ard_operation r);
  _ ← ensure_not_blank "ACL permission" (ard_permission r);
  ensure_not_blank "ACL host" (ard_host r).

Definition validate_scram_upsert (r : ScramUserUpsertDto) : result string unit :=
  _ ← ensure_not_blank "SCRAM username" (suu_username r);
  _ ← ensure_not_blank "SCRAM password" (suu_password r);
  ensure_positive "SCRAM iterations" (suu_iterations r).

Definition validate_scram_delete (r : ScramUserDeleteDto) : result string unit :=
  ensure_not_blank "SCRAM username" (sud_username r).

Definition validate_quota_upsert (r : QuotaUpsertDto) : result string unit :=
  _ ← ensure_not_blank "quota entity" (qud_entity r);
  _ ← ensure_not_blank "quota type" (qud_quota_type r);
  ensure_finite "quota value" (qud_value r).

Definition validate_quota_delete (r : QuotaDeleteDto) : result string unit :=
  _ ← ensure_not_blank "quota entity" (qdd_entity r);
  ensure_not_blank "quota type" (qdd_quota_type r).

Definition validate_log_dir_move (r : LogDirMoveRequestDto) : result string unit :=
  _ ← ensure_not_blank "log-dir move topic" (ldm_topic r);
  _ ← ensure_nonnegative "log-dir move partition" (ldm_partition r);
  _ ← ensure_nonnegative "log-dir move broker id" (ldm_broker_id r);
  ensure_not_blank "destination log dir" (ldm_destination_log_dir r).

(** One entry of [config_entries_from_form]. *)
Definition config_entry_from_form (entry : string) : result string ConfigEntryDto :=
  match split_once (λ c, (c =? "=")%char) entry with
  | None => Err ("config entry " +:+ dquote +:+ entry +:+ dquote +:+ " must read name=value")
  | Some (name, value) => Ok {| ced_name := trim name; ced_value := trim value |}
  end.

Definition config_entries_from_form (value : string) : result string (list ConfigEntryDto) :=
  try_map config_entry_from_form
    (List.filter (λ entry, negb (bool_decide (entry = ""))) (map trim (split_char "," value))).

(** ** The mutations *)

(** The mutations that the server takes, with the type of the request of each, and of
    the form that stands for it ([MutationForm]). *)
Inductive Mutation :=
  | MCreateTopic | MDeleteTopic | MCreatePartitions | MAlterConfigs | MCreateAcl | MDeleteAcl
  | MUpsertScram | MDeleteScram | MUpsertQuota | MDeleteQuota | MMoveLogDir.

#[export] Instance Mutation_eq_dec : EqDecision Mutation.
Proof. solve_decision. Defined.

Definition RequestOf (m : Mutation) : Type :=
  match m with
  | MCreateTopic => CreateTopicRequestDto
  | MDeleteTopic => DeleteTopicRequestDto
  | MCreatePartitions => CreatePartitionsRequestDto
  | MAlterConfigs => AlterConfigRequestDto
  | MCreateAcl | MDeleteAcl => AclRequestDto
  | MUpsertScram => ScramUserUpsertDto
  | MDeleteScram => ScramUserDeleteDto
  | MUpsertQuota => QuotaUpsertDto
  | MDeleteQuota => QuotaDeleteDto
  | MMoveLogDir => LogDirMoveRequestDto
  end.

Definition FormOf (m : Mutation) : Type :=
  match m with
  | MCreateTopic => CreateTopicFormDto
  | MAlterConfigs => AlterConfigFormDto
  | _ => RequestOf m
  end.

(** [MutationForm::into_request]. *)
Definition create_topic_into_request (form : CreateTopicFormDto) : result string CreateTopicRequestDto :=
  configs ← config_entries_from_form (ctf_configs form);
  Ok {| ctr_name := ctf_name form; ctr_partitions := ctf_partitions form; ctr_replicas := ctf_replicas form;
        ctr_configs := configs |}.

Definition alter_config_into_request (form : AlterConfigFormDto) : result string AlterConfigRequestDto :=
  configs ← config_entries_from_form (acf_configs form);
  Ok {| acr_resource_type := acf_resource_type form; acr_resource_name := acf_resource_name form;
        acr_configs := configs |}.

Definition into_request (m : Mutation) : FormOf m → result string (RequestOf m) :=
  match m with
  | MCreateTopic => create_topic_into_request
  | MAlterConfigs => alter_config_into_request
  | _ => Ok
  end.

Definition validate_mutation (m : Mutation) : RequestOf m → result string unit :=
  match m with
  | MCreateTopic => validate_create_topic
  | MDeleteTopic => validate_delete_topic
  | MCreatePartitions => validate_create_partitions
  | MAlterConfigs => validate_alter_config
  | MCreateAcl | MDeleteAcl => validate_acl
  | MUpsertScram => validate_scram_upsert
  | MDeleteScram => validate_scram_delete
  | MUpsertQuota => validate_quota_upsert
  | MDeleteQuota => validate_quota_delete
  | MMoveLogDir => validate_log_dir_move
  end.

(** ** Errors *)

(** The characters beyond ASCII that [{:?}] shows as they are, by the tables of
    Unicode. *)
Class UnicodeTables := { shown_as_is : Z → bool }.

(** [krabka_client_admin::AdminError]: a connection that failed, by its text, or one
    of the others. *)
Inductive UiAdminError :=
  | ConnectError (text : string)
  | OtherError (error : AdminError).

Inductive UiError :=
  | NotAuthenticated
  | NotPermittedError
  | InvalidRequest (reason : string)
  | SessionExpired
  | BrokerConnection (text : string)
  | BrokerReturned (api : string) (code : Z) (name : string) (message : option string)
  | AdminFailed (text : string).

(** [From<AdminError> for UiError]. *)
Definition ui_error (error : UiAdminError) : UiError :=
  match error with
  | ConnectError text => BrokerConnection text
  | OtherError (BrokerError api code name message) => BrokerReturned api code name message
  | OtherError other => AdminFailed (admin_error_text other)
  end.

Section UiErrorText.
Context `{UnicodeTables}.

(** [char::escape_debug], as [{:?}] of a string escapes. *)
Definition debug_char (c : Z) : string :=
  let unicode := String (ascii_of_nat 92) "u{" +:+ lower_hex (Z.to_nat (Z.log2 c / 4 + 1)) c +:+ "}" in
  let backslash s := String (ascii_of_nat 92) s in
  if c =? 0 then backslash "0" else if c =? 9 then backslash "t" else if c =? 10 then backslash "n"
  else if c =? 13 then backslash "r" else if c =? 34 then backslash dquote
  else if c =? 92 then backslash (String (ascii_of_nat 92) "")
  else if c <? 128 then if (32 <=? c) && (c <? 127) then encode_char c else unicode
  else if shown_as_is c then encode_char c else unicode.

(** [format!("{text:?}")]. *)
Definition debug_str (text : string) : string :=
  dquote +:+ foldr (λ c s, debug_char c +:+ s) "" (chars text) +:+ dquote.

(** [UiError::to_string]. *)
Definition ui_error_text (error : UiError) : string :=
  match error with
  | NotAuthenticated => "not authenticated"
  | NotPermittedError => "not permitted"
  | InvalidRequest reason => "invalid request: " +:+ reason
  | SessionExpired => "session expired"
  | BrokerConnection text => "broker connection failed: " +:+ text
  | BrokerReturned api code name message =>
      "broker returned error: api=" +:+ api +:+ " code=" +:+ pretty code +:+ " (" +:+ name +:+ ")" +:+
      from_option (λ message, " " +:+ debug_str message) "" message
  | AdminFailed text => "admin operation failed: " +:+ text
  end.
End UiErrorText.

(** ** Rows *)

Record KafkaErrorDto := { ked_code : Z; ked_name : string; ked_message : option string }.
Record ResourceOutcome := { ro_resource : string; ro_error : option KafkaErrorDto }.
Record TopicRow := {
  tr_name : string;
  tr_topic_id : option string;
  tr_partition_count : Z;
  tr_replication_factor : Z;
  tr_error : option KafkaErrorDto
}.
Record GroupRow := { gr_group_id : string }.
Record AclRow := {
  ar_resource : string;
  ar_pattern_type : string;
  ar_principal : string;
  ar_host : string;
  ar_operation : string;
  ar_permission : string
}.
Record UserRow := { ur_username : string; ur_principal : string }.
Record QuotaRow := { qr_entity : string; qr_quota_type : string; qr_value : string }.
Record LogDirRow := {
  ldr_broker_id : Z;
  ldr_log_dir : string;
  ldr_topic : string;
  ldr_partition : Z;
  ldr_partition_size : Z;
  ldr_offset_lag : Z;
  ldr_is_future_key : bool;
  ldr_error : option KafkaErrorDto
}.

(** [From<&KafkaError> for KafkaErrorDto]. *)
Definition error_dto (error : KafkaError) : KafkaErrorDto :=
  {| ked_code := error_code error; ked_name := error_name error; ked_message := error_message error |}.

Definition kafka_error_outcome (resource : string) (error : option KafkaError) : ResourceOutcome :=
  {| ro_resource := resource; ro_error := error_dto <$> error |}.

Definition quota_mutation_outcome (username quota_type : string) (error : option KafkaError) : ResourceOutcome :=
  kafka_error_outcome (username +:+ ":" +:+ quota_type) error.

(** What the client crate prints of the parts of an ACL with [{:?}]. *)
Class KrabkaAclNames := {
  resource_type_name : AclResourceType → string;
  pattern_type_name : AclPatternType → string;
  acl_operation_name : WireOperation → string;
  permission_type_name : AclPermissionType → string
}.

Section Rows.
Context `{KrabkaIds} `{KrabkaAclNames}.

Definition topic_rows (metadata : list TopicMetadata) : list TopicRow :=
  map (λ topic, {| tr_name := metadata_name topic; tr_topic_id := uuid_to_string <$> metadata_topic_id topic;
                   tr_partition_count := metadata_partition_count topic;
                   tr_replication_factor := metadata_replication_factor topic;
                   tr_error := error_dto <$> metadata_error topic |}) metadata.

Definition group_rows (group_ids : list string) : list GroupRow := map Build_GroupRow group_ids.

Definition ui_acl_rows (acls : list AclBinding) : list AclRow :=
  map (λ acl, {| ar_resource := resource_type_name (ab_resource_type acl) +:+ ":" +:+ ab_resource_name acl;
                 ar_pattern_type := pattern_type_name (ab_pattern_type acl);
                 ar_principal := ab_principal acl; ar_host := ab_host acl;
                 ar_operation := acl_operation_name (ab_operation acl);
                 ar_permission := permission_type_name (ab_permission_type acl) |}) acls.
End Rows.

(** [value.fract() == 0.0], and [value.to_string()]. *)
Definition is_integral (value : F64) : bool :=
  is_finite value && (let '(num, den) := ratio binary64 (magnitude value) in num mod den =? 0).
Definition display_f64 (value : F64) : string :=
  if is_nan value then "NaN"
  else (if is_negative value then "-" else "") +:+
       if is_infinite value then "inf" else display_in binary64 (magnitude value).

(** [format_quota_value]: a whole number without its fraction. *)
Definition format_quota_value (value : F64) : string :=
  if is_integral value then
    let '(num, den) := ratio binary64 (magnitude value) in
    (if is_negative value then "-" else "") +:+ pretty (num / den)
  else display_f64 value.

Definition quota_rows (username : string) (quotas : list (string * F64)) : list QuotaRow :=
  map (λ '(quota_type, value),
    {| qr_entity := username; qr_quota_type := quota_type; qr_value := format_quota_value value |}) quotas.

Definition scram_credential_summary (credentials : list (string * Z)) : string := join ", " (map fst credentials).

Definition user_rows (users : list UserScramCredentials) : list UserRow :=
  map (λ user, {| ur_username := us_username user;
                  ur_principal := scram_credential_summary (us_credentials user) |}) users.

(** A row that carries an error instead of a partition. *)
Definition log_dir_error_row (broker_id : Z) (log_dir : string) (error : option KafkaErrorDto) : LogDirRow :=
  {| ldr_broker_id := broker_id; ldr_log_dir := log_dir; ldr_topic := ""; ldr_partition := -1;
     ldr_partition_size := 0; ldr_offset_lag := 0; ldr_is_future_key := false; ldr_error := error |}.

Definition log_dir_partition_rows (broker_id : Z) (dir : LogDirInfo) : list LogDirRow :=
  let error := error_dto <$> ld_error dir in
  if bool_decide (ld_topics dir = []) && is_some error then [log_dir_error_row broker_id (ld_log_dir dir) error]
  else concat (map (λ '(topic, partitions),
         map (λ partition,
           {| ldr_broker_id := broker_id; ldr_log_dir := ld_log_dir dir; ldr_topic := topic;
              ldr_partition := lr_partition_index partition; ldr_partition_size := lr_partition_size partition;
              ldr_offset_lag := lr_offset_lag partition; ldr_is_future_key := lr_is_future_key partition;
              ldr_error := error |}) partitions) (ld_topics dir)).

Definition log_dir_rows (log_dirs : list (Z * result KafkaError (list LogDirInfo))) : list LogDirRow :=
  concat (map (λ '(broker_id, dirs),
    match dirs with
    | Ok dirs => concat (map (log_dir_partition_rows broker_id) dirs)
    | Err error => [log_dir_error_row broker_id "" (Some (error_dto error))]
    end) log_dirs).

Example quota_values :
  map format_quota_value [bits_of "1048576"; bits_of "0.5"] = ["1048576"; "0.5"].
Proof. vm_compute. reflexivity. Qed.

Example quoted_text (U : UnicodeTables) :
  debug_str ("a" +:+ dquote +:+ encode_char 10 +:+ encode_char 127) =
    dquote +:+ "a\" +:+ dquote +:+ "\n\u{7f}" +:+ dquote.
Proof. vm_compute. reflexivity. Qed.
