(* ===== verification/AdminConfig.v ===== *)
(** [config.rs] of the admin UI: the settings of an instance, from its environment and
    its flags, and how it connects to the brokers.

    The quantities of [krabka_units] are a parameter; [SocketAddr], [Duration] and the
    arithmetic of [f64] are those of the standard library. *)

From Stdlib Require Import Ascii.
From S2P Require Import Prelude Collections Rust Json Output Admin Floats Properties Connection AdminDto.

(** ** Quantities *)

(** [krabka_units]: its types, the constants and the readers that the code uses. *)
Class KrabkaUnits := {
  Time : Type;
  ByteSize : Type;
  mebibytes : Z → ByteSize;
  hours : Z → Time;
  secs : Z → Time;
  positive_byte_size : string → result string ByteSize;
  bytes_usize : ByteSize → Z;
  from_bytes : Z → ByteSize;
  byte_size_eqb : ByteSize → ByteSize → bool;
  positive_time : string → result string Time;
  secs_f64 : Time → F64
}.

(** [Duration::try_from_secs_f64], in nanoseconds. *)
Definition duration_from_secs (value : F64) : result string Z :=
  let '(num, den) := ratio binary64 (magnitude value) in
  let nanos := round_even (num * 1000000000) den in
  if negb (is_nan value) && is_negative value && negb (magnitude value =? 0) then
    Err "cannot convert float seconds to Duration: value is negative"
  else if is_nan value || is_infinite value || (2 ^ 64 * 1000000000 <=? nanos) then
    Err "cannot convert float seconds to Duration: value is either too big or NaN"
  else Ok nanos.

(** [a * b] of finite values. *)
Definition mul_f64 (a b : F64) : F64 :=
  let '(num, den) := ratio binary64 (magnitude a) in
  let '(num', den') := ratio binary64 (magnitude b) in
  with_sign (xorb (is_negative a) (is_negative b))
    (if num * num' =? 0 then 0 else nearest (num * num') (den * den')).

(** [value <= bound], of an integer bound that is not negative. *)
Definition at_most (value : F64) (bound : Z) : bool :=
  negb (is_nan value) &&
  (is_negative value ||
   (negb (is_infinite value) && (let '(num, den) := ratio binary64 (magnitude value) in num <=? bound * den))).

Definition ONE_THOUSAND : F64 := bits_of "1000".

Section Flags.
Context `{KrabkaUnits}.

Definition DEFAULT_MUTATION_JSON_BODY_LIMIT : ByteSize := mebibytes 1.
Definition DEFAULT_SESSION_TTL : Time := hours 8.
Definition DEFAULT_TOPIC_MUTATION_TIMEOUT : Time := secs 30.

Definition parse_body_limit (input : string) : result string ByteSize :=
  value ← positive_byte_size input;
  if byte_size_eqb (from_bytes (bytes_usize value)) value then Ok value
  else Err "body limit must be a whole byte count representable by usize".

(** [checked_add]: [Instant::now().checked_add(duration)]. *)
Definition parse_session_ttl (checked_add : Z → option Z) (input : string) : result string Time :=
  value ← positive_time input;
  duration ← duration_from_secs (secs_f64 value);
  match checked_add duration with
  | Some _ => Ok value
  | None => Err "session TTL exceeds the platform monotonic clock"
  end.

Definition parse_topic_mutation_timeout (input : string) : result string Time :=
  value ← positive_time input;
  let millis := mul_f64 (secs_f64 value) ONE_THOUSAND in
  if is_finite (secs_f64 value) && is_integral millis && at_most millis i32_MAX then Ok value
  else Err "topic mutation timeout must be a whole i32 millisecond count".
End Flags.

(** ** Socket addresses *)

Inductive SocketAddr :=
  | SocketV4 (octets : list Z) (port : Z)
  | SocketV6 (groups : list Z) (scope_id port : Z).

(** A reader: what it read, and the rest. *)
Definition reader (A : Type) : Type := string → option (A * string).

Definition given_char (c : ascii) : reader unit := λ s,
  match s with
  | String d s => if (c =? d)%char then Some (tt, s) else None
  | EmptyString => None
  end.

(** [char::to_digit]. *)
Definition to_digit (radix : Z) (c : ascii) : option Z :=
  let b := byte_of c in
  let value := if is_ascii_digit c then b - 48
               else if (97 <=? b) && (b <=? 102) then b - 87
               else if (65 <=? b) && (b <=? 70) then b - 55 else 16 in
  if value <? radix then Some value else None.

(** The digits of [read_number], each checked against the type's maximum. *)
Fixpoint number_digits (radix maximum : Z) (max_digits : option nat) (value : Z) (count : nat) (s : string)
    : option (Z * nat * string) :=
  match s with
  | String c rest =>
      match to_digit radix c with
      | None => Some (value, count, s)
      | Some digit =>
          let value := value * radix + digit in
          if maximum <? value then None
          else if from_option (λ most, (most <? S count)%nat) false max_digits then None
          else number_digits radix maximum max_digits value (S count) rest
      end
  | EmptyString => Some (value, count, s)
  end.
Definition read_number (radix maximum : Z) (max_digits : option nat) (allow_zero_prefix : bool) : reader Z := λ s,
  match number_digits radix maximum max_digits 0 0 s with
  | Some (value, count, rest) =>
      if (count =? 0)%nat then None
      else if negb allow_zero_prefix && is_some (given_char "0" s) && (1 <? count)%nat then None
      else Some (value, rest)
  | None => None
  end.

(** [read_separator]. *)
Definition after_separator {A} (separator : ascii) (index : nat) (inner : reader A) : reader A := λ s,
  if (0 <? index)%nat then match given_char separator s with Some (_, s) => inner s | None => None end else inner s.

Fixpoint octets_from (n index : nat) : reader (list Z) := λ s,
  match n with
  | O => Some ([], s)
  | S n =>
      match after_separator "." index (read_number 10 255 (Some 3%nat) false) s with
      | Some (octet, s) => match octets_from n (S index) s with Some (octets, s) => Some (octet :: octets, s) | None => None end
      | None => None
      end
  end.
Definition read_ipv4 : reader (list Z) := octets_from 4 0.

Definition read_port : reader Z := λ s,
  match given_char ":" s with Some (_, s) => read_number 10 65535 None true s | None => None end.

(** The groups of an IPv6 address, up to [limit], and whether an IPv4 address ended
    them. *)
Fixpoint groups_from (n index limit : nat) (s : string) : list Z * bool * string :=
  match n with
  | O => ([], false, s)
  | S n =>
      let group :=
        match after_separator ":" index (read_number 16 65535 (Some 4%nat) true) s with
        | Some (group, s) => let '(groups, v4, s) := groups_from n (S index) limit s in (group :: groups, v4, s)
        | None => ([], false, s)
        end in
      if (index <? limit - 1)%nat then
        match after_separator ":" index read_ipv4 s with
        | Some ([a; b; c; d], s) => ([a * 256 + b; c * 256 + d], true, s)
        | _ => group
        end
      else group
  end.
Definition read_groups (limit : nat) (s : string) : list Z * bool * string := groups_from limit 0 limit s.

Definition read_ipv6 : reader (list Z) := λ s,
  let '(head, head_v4, s) := read_groups 8 s in
  if (length head =? 8)%nat then Some (head, s)
  else if head_v4 then None
  else match given_char ":" s with
       | None => None
       | Some (_, s) =>
           match given_char ":" s with
           | None => None
           | Some (_, s) =>
               let '(tail, _, s) := read_groups (8 - (length head + 1)) s in
               Some (head ++ replicate (8 - length head - length tail) 0 ++ tail, s)
           end
       end.

Definition read_scope_id : reader Z := λ s,
  match given_char "%" s with Some (_, s) => read_number 10 4294967295 None true s | None => None end.

Definition read_socket_v4 : reader SocketAddr := λ s,
  match read_ipv4 s with
  | Some (octets, s) => match read_port s with Some (port, s) => Some (SocketV4 octets port, s) | None => None end
  | None => None
  end.

Definition read_socket_v6 : reader SocketAddr := λ s,
  match given_char "[" s with
  | None => None
  | Some (_, s) =>
      match read_ipv6 s with
      | None => None
      | Some (groups, s) =>
          let '(scope, s) := match read_scope_id s with Some (scope, s) => (scope, s) | None => (0, s) end in
          match given_char "]" s with
          | None => None
          | Some (_, s) => match read_port s with Some (port, s) => Some (SocketV6 groups scope port, s) | None => None end
          end
      end
  end.

(** [str::parse::<SocketAddr>]. *)
Definition parse_socket_addr (s : string) : option SocketAddr :=
  match (match read_socket_v4 s with Some found => Some found | None => read_socket_v6 s end) with
  | Some (addr, "") => Some addr
  | _ => None
  end.

Example socket_addrs :
  map parse_socket_addr ["127.0.0.1:8088"; "[::1]:80"; "[fe80::1%3]:0443"; "[::ffff:10.0.0.1]:1"; "1.2.3.04:5";
    "1.2.3:5"; "[1::2::3]:4"; "localhost:80"; "1.2.3.4:65536"] =
  [Some (SocketV4 [127; 0; 0; 1] 8088); Some (SocketV6 [0; 0; 0; 0; 0; 0; 0; 1] 0 80);
   Some (SocketV6 [65152; 0; 0; 0; 0; 0; 0; 1] 3 443); Some (SocketV6 [0; 0; 0; 0; 0; 65535; 2560; 1] 0 1);
   None; None; None; None; None].
Proof. vm_compute. reflexivity. Qed.

(** ** The configuration *)

Inductive BrokerSecurityConfig :=
  | ConfigSaslPlaintext
  | ConfigSaslSsl (trust_roots_pem : option string) (server_name : string) (client_identity : option (string * string)).

Inductive UiConfigError :=
  | MissingBootstrap
  | InvalidBootstrapAddr (addr : string)
  | InvalidListenAddr (addr : string)
  | InvalidSecurityProtocol
  | MissingTlsServerName
  | IncompleteTlsClientIdentity.

(** [TlsConnectorConfig], as far as the UI sets it; [None] is the platform's trust
    store. *)
Record UiTls := {
  ut_trust_store : option string;
  ut_key_store : option (string * string);
  ut_server_name : string
}.

Definition listener_protocol (security : BrokerSecurityConfig) : ListenerProtocol :=
  match security with ConfigSaslPlaintext => SaslPlaintext | ConfigSaslSsl _ _ _ => SaslSsl end.

(** [BrokerSecurityConfig::tls]. *)
Definition security_tls_config (security : BrokerSecurityConfig) : option UiTls :=
  match security with
  | ConfigSaslPlaintext => None
  | ConfigSaslSsl trust_roots_pem server_name client_identity =>
      Some {| ut_trust_store := trust_roots_pem; ut_key_store := client_identity; ut_server_name := server_name |}
  end.

(** The environment: [std::env::var], which gives text only, and [var_os]. *)
Record Environment := { env_var : string → option string; env_var_os : string → option string }.

(** [str::parse::<u16>]: an optional plus, and digits. *)
Definition parse_u16 (s : string) : option Z :=
  value ← match s with String "+" digits => unsigned_value digits | _ => unsigned_value s end;
  if value <? 65536 then Some value else None.

Definition validate_bootstrap_addr (addr : string) : result UiConfigError unit :=
  match rsplit_once ":" addr with
  | None => Err (InvalidBootstrapAddr addr)
  | Some (host, port) =>
      if bool_decide (host = "") || bool_decide (port = "") then Err (InvalidBootstrapAddr addr)
      else if is_some (parse_u16 port) then Ok tt else Err (InvalidBootstrapAddr addr)
  end.

Fixpoint validate_addrs (addrs : list string) : result UiConfigError unit :=
  match addrs with
  | [] => Ok tt
  | addr :: addrs => _ ← validate_bootstrap_addr addr; validate_addrs addrs
  end.

Section Config.
Context `{KrabkaUnits}.

Record AdminUiConfig := {
  listen_addr : SocketAddr;
  cluster_name : string;
  bootstrap_addrs : list string;
  security_config : BrokerSecurityConfig;
  session_ttl : Time;
  mutation_json_body_limit : ByteSize;
  topic_mutation_timeout : Time
}.

Definition default_config : AdminUiConfig :=
  {| listen_addr := SocketV4 [127; 0; 0; 1] 8088; cluster_name := "local"; bootstrap_addrs := [];
     security_config := ConfigSaslPlaintext; session_ttl := DEFAULT_SESSION_TTL;
     mutation_json_body_limit := DEFAULT_MUTATION_JSON_BODY_LIMIT;
     topic_mutation_timeout := DEFAULT_TOPIC_MUTATION_TIMEOUT |}.

(** [AdminUiConfig::validate]. *)
Definition validate_config (cfg : AdminUiConfig) : result UiConfigError AdminUiConfig :=
  if bool_decide (bootstrap_addrs cfg = []) then Err MissingBootstrap
  else
    _ ← validate_addrs (bootstrap_addrs cfg);
    match security_config cfg with
    | ConfigSaslSsl _ server_name _ => if bool_decide (trim server_name = "") then Err MissingTlsServerName else Ok cfg
    | ConfigSaslPlaintext => Ok cfg
    end.

(** The security of [from_env], for a protocol that is set. *)
Definition security_from_env (env : Environment) (protocol : string) : result UiConfigError BrokerSecurityConfig :=
  if bool_decide (protocol = "SASL_PLAINTEXT") then Ok ConfigSaslPlaintext
  else if bool_decide (protocol = "SASL_SSL") then
    server_name ← ok_or (env_var env "KRABKA_ADMIN_UI_TLS_SERVER_NAME") MissingTlsServerName;
    client_identity ←
      match env_var_os env "KRABKA_ADMIN_UI_TLS_CLIENT_CERT_PEM", env_var_os env "KRABKA_ADMIN_UI_TLS_CLIENT_KEY_PEM" with
      | Some cert, Some key => Ok (Some (cert, key))
      | None, None => Ok None
      | _, _ => Err IncompleteTlsClientIdentity
      end;
    Ok (ConfigSaslSsl (env_var_os env "KRABKA_ADMIN_UI_TLS_TRUST_ROOTS_PEM") server_name client_identity)
  else Err InvalidSecurityProtocol.

(** [AdminUiConfig::from_env]. *)
Definition config_from_env (env : Environment) : result UiConfigError AdminUiConfig :=
  listen_addr ←
    match env_var env "KRABKA_ADMIN_UI_LISTEN_ADDR" with
    | Some raw => ok_or (parse_socket_addr raw) (InvalidListenAddr raw)
    | None => Ok (listen_addr default_config)
    end;
  security ←
    match env_var env "KRABKA_ADMIN_UI_SECURITY_PROTOCOL" with
    | Some protocol => security_from_env env protocol
    | None => Ok (security_config default_config)
    end;
  validate_config
    {| listen_addr := listen_addr;
       cluster_name := default (cluster_name default_config) (env_var env "KRABKA_ADMIN_UI_CLUSTER_NAME");
       bootstrap_addrs :=
         match env_var env "KRABKA_ADMIN_UI_BOOTSTRAP" with
         | Some addrs => map trim (split_char "," addrs)
         | None => bootstrap_addrs default_config
         end;
       security_config := security; session_ttl := session_ttl default_config;
       mutation_json_body_limit := mutation_json_body_limit default_config;
       topic_mutation_timeout := topic_mutation_timeout default_config |}.

(** [main]: the flags over the environment. *)
Definition runtime_config (env : Environment) (body_limit : ByteSize) (ttl timeout : Time)
    : result UiConfigError AdminUiConfig :=
  cfg ← config_from_env env;
  Ok {| listen_addr := listen_addr cfg; cluster_name := cluster_name cfg; bootstrap_addrs := bootstrap_addrs cfg;
        security_config := security_config cfg; session_ttl := ttl; mutation_json_body_limit := body_limit;
        topic_mutation_timeout := timeout |}.
End Config.

(** ** What is accepted *)

(** An address of a host and a port. *)
Definition host_and_port (addr : string) : Prop :=
  ∃ host port value, addr = host +:+ ":" +:+ port ∧ host ≠ "" ∧ parse_u16 port = Some value ∧ value < 65536.

Lemma validate_addrs_ok addrs : validate_addrs addrs = Ok tt ↔ Forall (λ addr, validate_bootstrap_addr addr = Ok tt) addrs.
Proof.
  induction addrs as [|addr addrs IH]; [by split|]. cbn. rewrite Forall_cons, <-IH.
  destruct (validate_bootstrap_addr addr) as [[]|]; cbn; naive_solver.
Qed.

Lemma validate_bootstrap_addr_ok addr : validate_bootstrap_addr addr = Ok tt → host_and_port addr.
Proof.
  unfold validate_bootstrap_addr. destruct (rsplit_once _ addr) as [[host port]|] eqn:E; [|done].
  apply rsplit_once_Some in E. case_bool_decide as Hh; [done|]. case_bool_decide; [done|]. cbn.
  destruct (parse_u16 port) as [value|] eqn:Ep; [|done]. intros _. exists host, port, value. split_and!; [done..|].
  unfold parse_u16 in Ep. apply bind_Some in Ep as (v & _ & Hv). destruct (v <? 65536) eqn:Hlt; [|done]. injection Hv as <-. lia.
Qed.

Section ConfigFacts.
Context `{KrabkaUnits}.

(** A configuration that the environment gives names brokers, each by host and port,
    a nonblank server name under [SASL_SSL], and a client certificate exactly with
    its key. *)
Theorem config_from_env_ok env cfg :
  config_from_env env = Ok cfg →
  bootstrap_addrs cfg ≠ [] ∧ Forall host_and_port (bootstrap_addrs cfg) ∧
  match security_config cfg with
  | ConfigSaslPlaintext => security_tls_config (security_config cfg) = None
  | ConfigSaslSsl _ server_name identity =>
      trim server_name ≠ "" ∧ env_var env "KRABKA_ADMIN_UI_TLS_SERVER_NAME" = Some server_name ∧
      fst <$> identity = env_var_os env "KRABKA_ADMIN_UI_TLS_CLIENT_CERT_PEM" ∧
      snd <$> identity = env_var_os env "KRABKA_ADMIN_UI_TLS_CLIENT_KEY_PEM"
  end.
Proof.
  unfold config_from_env. intros Hc.
  destruct (match env_var env "KRABKA_ADMIN_UI_LISTEN_ADDR" with Some _ => _ | None => _ end); [|done].
  cbn [mbind result_bind] in Hc.
  destruct (match env_var env "KRABKA_ADMIN_UI_SECURITY_PROTOCOL" with Some _ => _ | None => _ end) as [security|] eqn:Es; [|done].
  cbn [mbind result_bind] in Hc. unfold validate_config in Hc. case_bool_decide as Hb; [done|].
  destruct (validate_addrs _) as [[]|] eqn:Ea; [|done]. cbn [mbind result_bind] in Hc.
  assert (bootstrap_addrs cfg ≠ [] ∧ Forall host_and_port (bootstrap_addrs cfg) ∧ security_config cfg = security ∧
    match security with ConfigSaslSsl _ name _ => trim name ≠ "" | _ => True end) as (? & ? & -> & Hn).
  { cbn [security_config] in Hc. apply validate_addrs_ok in Ea.
    destruct security; [injection Hc as <-|case_bool_decide; [done|]; injection Hc as <-];
      (split_and!; [done| |done|done]); (eapply Forall_impl; [exact Ea|apply validate_bootstrap_addr_ok]). }
  split_and!; [done..|]. destruct security as [|trust name identity]; [done|]. split; [done|].
  destruct (env_var env "KRABKA_ADMIN_UI_SECURITY_PROTOCOL"); [|done]. unfold security_from_env in Es.
  case_bool_decide; [done|]. case_bool_decide; [|done].
  destruct (env_var env "KRABKA_ADMIN_UI_TLS_SERVER_NAME"); [|done]. cbn in Es.
  by destruct (env_var_os env "KRABKA_ADMIN_UI_TLS_CLIENT_CERT_PEM"),
    (env_var_os env "KRABKA_ADMIN_UI_TLS_CLIENT_KEY_PEM"); simplify_eq/=.
Qed.
End ConfigFacts.
