(* ===== verification/AdminViews.v ===== *)
(** [views/] of the admin UI: the pages, what they show to whom, and the forms that
    they carry.

    [rsx!] builds a tree of elements, which is the type [Element] here; the text that
    [dioxus_ssr] makes of it is a parameter. *)

From Stdlib Require Import Ascii.
From S2P Require Import Prelude Collections Rust Json Output Permissions Sessions AdminDto.

(** ** Routes *)

Inductive Route := Overview | Login | Topics | Groups | Acls | Users | Quotas | LogDirs.

#[export] Instance Route_eq_dec : EqDecision Route.
Proof. solve_decision. Defined.

Definition route_path (route : Route) : string :=
  match route with
  | Overview => "/" | Login => "/login" | Topics => "/topics" | Groups => "/groups" | Acls => "/acls"
  | Users => "/users" | Quotas => "/quotas" | LogDirs => "/log-dirs"
  end.

Definition route_label (route : Route) : string :=
  match route with
  | Overview => "Overview" | Login => "Login" | Topics => "Topics" | Groups => "Groups" | Acls => "ACLs"
  | Users => "Users" | Quotas => "Quotas" | LogDirs => "Log Dirs"
  end.

Definition guard_for_authentication (route : Route) (is_authenticated : bool) : Route :=
  if is_authenticated || bool_decide (route = Login) then route else Login.

Definition is_permitted (route : Route) (capabilities : Capabilities) : bool :=
  match route with
  | Overview | Login => true
  | Topics => can_view_topics capabilities
  | Groups => can_view_groups capabilities
  | Acls => can_view_acls capabilities
  | Users => can_view_users capabilities
  | Quotas => can_view_quotas capabilities
  | LogDirs => can_view_log_dirs capabilities
  end.

(** ** Pages *)

Inductive ReadRouteState (T : Type) :=
  | Loading
  | AuthenticationRequired
  | NotPermitted
  | LoadFailed
  | Rows (rows : list T).
Arguments Loading {T}.
Arguments AuthenticationRequired {T}.
Arguments NotPermitted {T}.
Arguments LoadFailed {T}.
Arguments Rows {T} rows.

Inductive LoginRouteState := LoginForm | AuthenticationFailed | BrokerUnavailable.

Record OperatorView := { ov_capabilities : Capabilities; ov_csrf_token : option string }.

Definition operator_new (capabilities : Capabilities) (csrf_token : string) : OperatorView :=
  {| ov_capabilities := capabilities; ov_csrf_token := Some csrf_token |}.
Definition anonymous : OperatorView := {| ov_capabilities := all_capabilities; ov_csrf_token := None |}.

Inductive RoutePage :=
  | OverviewPage (message : option string)
  | LoginPage (state : LoginRouteState)
  | TopicsPage (state : ReadRouteState TopicRow)
  | GroupsPage (state : ReadRouteState GroupRow)
  | AclsPage (state : ReadRouteState AclRow)
  | UsersPage (state : ReadRouteState UserRow)
  | QuotasPage (state : ReadRouteState QuotaRow) (entity : option string)
  | LogDirsPage (state : ReadRouteState LogDirRow).

Definition signed_in : RoutePage := OverviewPage (Some "Signed in.").

(** [RoutePage::for_guarded_route]. *)
Definition for_guarded_route (route : Route) : RoutePage :=
  match route with
  | Overview => OverviewPage None
  | Login => LoginPage LoginForm
  | Topics => TopicsPage Loading
  | Groups => GroupsPage Loading
  | Acls => AclsPage Loading
  | Users => UsersPage Loading
  | Quotas => QuotasPage Loading None
  | LogDirs => LogDirsPage Loading
  end.
Definition for_unauthenticated_route (route : Route) : RoutePage :=
  for_guarded_route (guard_for_authentication route false).
Definition for_authenticated_route (route : Route) : RoutePage :=
  for_guarded_route (guard_for_authentication route true).

Definition page_title (page : RoutePage) : string :=
  match page with
  | OverviewPage _ => "Krabka Admin"
  | LoginPage _ => "Sign in to Krabka"
  | TopicsPage _ => "Topics"
  | GroupsPage _ => "Consumer Groups"
  | AclsPage _ => "ACLs"
  | UsersPage _ => "SCRAM Users"
  | QuotasPage _ _ => "Quotas"
  | LogDirsPage _ => "Log Dirs"
  end.

(** ** The sidebar *)

Record SidebarLink := { link_route : Route; link_path : string; link_label : string }.
Definition sidebar_link (route : Route) : SidebarLink :=
  {| link_route := route; link_path := route_path route; link_label := route_label route |}.

Definition SIDEBAR_LINKS : list SidebarLink :=
  map sidebar_link [Overview; Topics; Groups; Acls; Users; Quotas; LogDirs].

Definition sidebar_links_for (capabilities : Capabilities) : list SidebarLink :=
  List.filter (λ link, is_permitted (link_route link) capabilities) SIDEBAR_LINKS.

(** ** Elements *)

Inductive Element :=
  | Tag (name : string) (attributes : list (string * string)) (children : list Element)
  | Text (text : string).

Definition tag (name : string) (children : list Element) : Element := Tag name [] children.

Record FormField := { ff_name : string; ff_label : string; ff_kind : string; ff_value : string }.
Definition text_field (name label value : string) : FormField :=
  {| ff_name := name; ff_label := label; ff_kind := "text"; ff_value := value |}.
Definition number_field (name label value : string) : FormField :=
  {| ff_name := name; ff_label := label; ff_kind := "number"; ff_value := value |}.
Definition password_field (name label : string) : FormField :=
  {| ff_name := name; ff_label := label; ff_kind := "password"; ff_value := "" |}.
Definition fixed_field (name value : string) : FormField :=
  {| ff_name := name; ff_label := ""; ff_kind := "hidden"; ff_value := value |}.

Definition CSRF_FIELD_NAME : string := "csrf_token".
Definition CSRF_HEADER_NAME : string := "x-krabka-csrf".

Definition input_of (kind name value : string) : Element :=
  Tag "input" [("type", kind); ("name", name); ("value", value)] [].

Definition field_element (field : FormField) : Element :=
  if bool_decide (ff_kind field = "hidden") then input_of "hidden" (ff_name field) (ff_value field)
  else tag "label" [Text (ff_label field +:+ " "); input_of (ff_kind field) (ff_name field) (ff_value field)].

(** [mutation_form]. *)
Definition mutation_form (action submit_label token : string) (fields : list FormField) : Element :=
  Tag "form" [("class", "mutation-form"); ("method", "post"); ("action", action)]
    ([tag "h3" [Text submit_label]; input_of "hidden" CSRF_FIELD_NAME token] ++ map field_element fields ++
     [Tag "button" [("type", "submit")] [Text submit_label]]).

Definition CONFIGS_LABEL : string := "Configs (name=value,name=value)".

Definition topics_forms (token : string) (capabilities : Capabilities) : list Element :=
  (if can_create_topics capabilities then
     [mutation_form "/topics/create" "Create Topic" token
        [text_field "name" "Name" ""; number_field "partitions" "Partitions" "1";
         number_field "replicas" "Replicas" "1"; text_field "configs" CONFIGS_LABEL ""]]
   else []) ++
  (if can_alter_topics capabilities then
     [mutation_form "/topics/partitions" "Add Partitions" token
        [text_field "topic" "Topic" ""; number_field "total_count" "Total partitions" "1"];
      mutation_form "/topics/configs" "Alter Topic Configs" token
        [fixed_field "resource_type" "topic"; text_field "resource_name" "Topic" "";
         text_field "configs" CONFIGS_LABEL ""]]
   else []) ++
  (if can_delete_topics capabilities then
     [mutation_form "/topics/delete" "Delete Topic" token [text_field "name" "Name" ""]]
   else []).

Definition acl_fields : list FormField :=
  [text_field "resource_type" "Resource type" "topic"; text_field "resource_name" "Resource name" "";
   text_field "pattern_type" "Pattern type (literal or prefixed)" "literal";
   text_field "principal" "Principal" "User:"; text_field "host" "Host" "*";
   text_field "operation" "Operation" "read"; text_field "permission" "Permission" "allow"].

Definition acls_forms (token : string) (capabilities : Capabilities) : list Element :=
  if negb (can_alter_acls capabilities) then []
  else [mutation_form "/acls/create" "Create ACL" token acl_fields;
        mutation_form "/acls/delete" "Delete ACL" token acl_fields].

Definition users_forms (token : string) (capabilities : Capabilities) : list Element :=
  if negb (can_alter_users capabilities) then []
  else [mutation_form "/users/scram/upsert" "Upsert SCRAM-SHA-512" token
          [text_field "username" "Username" ""; password_field "password" "Password";
           number_field "iterations" "Iterations" "4096"];
        mutation_form "/users/scram/delete" "Delete SCRAM User" token [text_field "username" "Username" ""]].

Definition quotas_forms (token : string) (capabilities : Capabilities) : list Element :=
  if negb (can_alter_quotas capabilities) then []
  else [mutation_form "/quotas/upsert" "Set Quota" token
          [text_field "entity" "User" ""; text_field "quota_type" "Quota" "producer_byte_rate";
           text_field "value" "Value" ""];
        mutation_form "/quotas/delete" "Remove Quota" token
          [text_field "entity" "User" ""; text_field "quota_type" "Quota" "producer_byte_rate"]].

Definition log_dirs_forms (token : string) (capabilities : Capabilities) : list Element :=
  if negb (can_alter_log_dirs capabilities) then []
  else [mutation_form "/log-dirs/move" "Move Replica" token
          [text_field "topic" "Topic" ""; number_field "partition" "Partition" "0";
           number_field "broker_id" "Broker id" "0"; text_field "destination_log_dir" "Destination log dir" ""]].

(** [mutation_forms]. *)
Definition mutation_forms (page : RoutePage) (operator : OperatorView) : list Element :=
  match ov_csrf_token operator with
  | None => []
  | Some token =>
      let capabilities := ov_capabilities operator in
      match page with
      | TopicsPage _ => topics_forms token capabilities
      | AclsPage _ => acls_forms token capabilities
      | UsersPage _ => users_forms token capabilities
      | QuotasPage _ _ => quotas_forms token capabilities
      | LogDirsPage _ => log_dirs_forms token capabilities
      | OverviewPage _ | GroupsPage _ | LoginPage _ => []
      end
  end.

(** ** Rendering *)

Definition render_login_element (state : LoginRouteState) : Element :=
  let message := match state with
                 | LoginForm => None
                 | AuthenticationFailed => Some "Authentication failed."
                 | BrokerUnavailable =>
                     Some "No broker answered. The cluster may be down; sign in again when it is back."
                 end in
  tag "div" [Tag "section" [("class", "login-shell")]
    [tag "h1" [Text "Sign in to Krabka Admin"];
     tag "p" [Text "Authentication is required before broker operations are shown."];
     match message with
     | Some message => Tag "p" [("class", "login-message")] [Text message]
     | None =>
         Tag "form" [("method", "post"); ("action", "/login")]
           [tag "label" [Text "Username "; Tag "input" [("name", "username"); ("autocomplete", "username")] []];
            tag "label" [Text "Password ";
              Tag "input" [("name", "password"); ("type", "password"); ("autocomplete", "current-password")] []];
            Tag "button" [("type", "submit")] [Text "Sign in"]]
     end]].

Definition render_overview_element (message : option string) : Element :=
  tag "section" ([tag "h2" [Text "Cluster Overview"]; tag "p" [Text "Broker administration shell is ready."]] ++
    match message with Some message => [tag "p" [Text message]] | None => [] end).

(** The message of a page without rows, from what it calls them. *)
Definition state_message {T} (loading permit load none : string) (state : ReadRouteState T) : string :=
  match state with
  | Loading => loading
  | AuthenticationRequired => "Authentication required."
  | NotPermitted => permit
  | LoadFailed => load
  | Rows _ => none
  end.

Definition topics_message : ReadRouteState TopicRow → string :=
  state_message "Loading topics…" "Your ACLs do not permit topic access." "Unable to load topics."
    "No topics loaded yet.".
Definition groups_message : ReadRouteState GroupRow → string :=
  state_message "Loading consumer groups…" "Your ACLs do not permit consumer group access."
    "Unable to load consumer groups." "No consumer groups loaded yet.".
Definition acls_message : ReadRouteState AclRow → string :=
  state_message "Loading ACLs…" "Your ACLs do not permit ACL access." "Unable to load ACLs." "No ACLs loaded yet.".
Definition users_message : ReadRouteState UserRow → string :=
  state_message "Loading SCRAM users…" "Your ACLs do not permit SCRAM user access." "Unable to load SCRAM users."
    "No SCRAM users loaded yet.".
Definition quotas_message : ReadRouteState QuotaRow → string :=
  state_message "Loading quotas…" "Your ACLs do not permit quota access." "Unable to load quotas."
    "No quotas loaded yet.".
Definition log_dirs_message : ReadRouteState LogDirRow → string :=
  state_message "Loading log-dir data…" "Your ACLs do not permit log-dir access." "Unable to load log-dir data."
    "No log-dir data loaded yet.".

(** A section with a line for each row, or else with its message. *)
Definition rows_section {T} (class title : string) (above : list Element) (line : T → string)
    (message : ReadRouteState T → string) (state : ReadRouteState T) : Element :=
  let section body := Tag "section" [("class", class)] ([tag "h2" [Text title]] ++ above ++ [body]) in
  match state with
  | Rows (row :: rows) => section (tag "ul" (map (λ row, tag "li" [Text (line row)]) (row :: rows)))
  | state => section (tag "p" [Text (message state)])
  end.

Definition render_topics_element : ReadRouteState TopicRow → Element :=
  rows_section "admin-section topics-section" "Topics" [] tr_name topics_message.
Definition render_groups_element : ReadRouteState GroupRow → Element :=
  rows_section "admin-section groups-section" "Consumer Groups" [] gr_group_id groups_message.

Definition acl_row_text (row : AclRow) : string :=
  ar_resource row +:+ " " +:+ ar_pattern_type row +:+ " " +:+ ar_principal row +:+ " host=" +:+ ar_host row +:+ " " +:+
  ar_operation row +:+ " " +:+ ar_permission row.
Definition render_acls_element : ReadRouteState AclRow → Element :=
  rows_section "admin-section acls-section" "ACLs" [] acl_row_text acls_message.

Definition render_users_element : ReadRouteState UserRow → Element :=
  rows_section "admin-section users-section" "SCRAM Users" [] (λ row, ur_username row +:+ " " +:+ ur_principal row)
    users_message.

Definition quota_lookup_form (entity : string) : Element :=
  Tag "form" [("class", "quota-lookup-form"); ("method", "get"); ("action", "/quotas")]
    [tag "label" [Text "User "; input_of "text" "entity" entity];
     Tag "button" [("type", "submit")] [Text "Show quotas"]].
Definition render_quotas_element (state : ReadRouteState QuotaRow) (entity : option string) : Element :=
  rows_section "admin-section quotas-section" "Quotas" [quota_lookup_form (default "" entity)]
    (λ row, qr_entity row +:+ " " +:+ qr_quota_type row +:+ " " +:+ qr_value row) quotas_message state.

Definition log_dir_row_text (row : LogDirRow) : string :=
  let location :=
    if ldr_partition row <? 0 then trim_end ("broker " +:+ pretty (ldr_broker_id row) +:+ " " +:+ ldr_log_dir row)
    else "broker " +:+ pretty (ldr_broker_id row) +:+ " " +:+ ldr_log_dir row +:+ " " +:+ ldr_topic row +:+ "/" +:+
         pretty (ldr_partition row) +:+ "-" +:+ pretty (ldr_partition_size row) in
  match ldr_error row with
  | None => location
  | Some error =>
      let named := location +:+ " error=" +:+ ked_name error +:+ " (" +:+ pretty (ked_code error) +:+ ")" in
      match ked_message error with Some message => named +:+ ": " +:+ message | None => named end
  end.
Definition render_log_dirs_element : ReadRouteState LogDirRow → Element :=
  rows_section "admin-section log-dirs-section" "Log Dirs" [] log_dir_row_text log_dirs_message.

(** The content of a page other than the login page. *)
Definition page_content (page : RoutePage) : outcome Element :=
  match page with
  | OverviewPage message => Done (render_overview_element message)
  | TopicsPage state => Done (render_topics_element state)
  | GroupsPage state => Done (render_groups_element state)
  | AclsPage state => Done (render_acls_element state)
  | UsersPage state => Done (render_users_element state)
  | QuotasPage state entity => Done (render_quotas_element state entity)
  | LogDirsPage state => Done (render_log_dirs_element state)
  | LoginPage _ => Panic
  end.

Definition sign_out_form (token : string) : Element :=
  Tag "form" [("class", "sign-out-form"); ("method", "post"); ("action", "/logout")]
    [input_of "hidden" CSRF_FIELD_NAME token; Tag "button" [("type", "submit")] [Text "Sign out"]].

Definition link_element (link : SidebarLink) : Element :=
  Tag "a" [("class", "nav-link"); ("href", link_path link)] [Text (link_label link)].

(** [render_operations_shell_element]. *)
Definition render_operations_shell_element (page : RoutePage) (operator : OperatorView) : outcome Element :=
  content ← page_content page;
  Done (tag "div" [Tag "section" [("class", "operations-shell")]
    [tag "aside"
       ([tag "h1" [Text "Krabka Operations"];
         tag "nav" (map link_element (sidebar_links_for (ov_capabilities operator)))] ++
        match ov_csrf_token operator with Some token => [sign_out_form token] | None => [] end);
     tag "main" (content :: mutation_forms page operator)]]).

Definition render_page_element_for_operator (page : RoutePage) (operator : OperatorView) : outcome Element :=
  match page with
  | LoginPage state => Done (render_login_element state)
  | page => render_operations_shell_element page operator
  end.

(** [push_escaped]. *)
Definition escaped (c : ascii) : string :=
  if (c =? "&")%char then "&amp;" else if (c =? "<")%char then "&lt;" else if (c =? ">")%char then "&gt;"
  else if (c =? ascii_of_nat 34)%char then "&quot;" else if (c =? "'")%char then "&#39;" else String c "".
Fixpoint push_escaped (html value : string) : string :=
  match value with EmptyString => html | String c value => push_escaped (html +:+ escaped c) value end.

(** The text of an element. *)
Class Dioxus := { render_element : Element → string }.

Section Render.
Context `{Dioxus}.

Definition render_page_body_html_for_operator (page : RoutePage) (operator : OperatorView) : outcome string :=
  element ← render_page_element_for_operator page operator; Done (render_element element).

Definition PAGE_HEAD : string :=
  "<!doctype html>" +:+ newline +:+ "<html lang=" +:+ dquote +:+ "en" +:+ dquote +:+ "><head><meta charset=" +:+ dquote +:+
  "utf-8" +:+ dquote +:+ "><meta name=" +:+ dquote +:+ "viewport" +:+ dquote +:+ " content=" +:+ dquote +:+
  "width=device-width, initial-scale=1" +:+ dquote +:+ "><title>".

Definition render_page_for_operator (page : RoutePage) (operator : OperatorView) : outcome string :=
  body ← render_page_body_html_for_operator page operator;
  Done (push_escaped PAGE_HEAD (page_title page) +:+ "</title></head><body>" +:+ body +:+ "</body></html>").
Definition render_page (page : RoutePage) : outcome string := render_page_for_operator page anonymous.
Definition render_route_html (route : Route) : outcome string := render_page (for_unauthenticated_route route).

(** No page panics: the login page is not put in the shell. *)
Lemma render_page_done page operator : ∃ html, render_page_for_operator page operator = Done html.
Proof. destruct page; by eexists. Qed.
End Render.
