(* ===== verification/AdminServer.v ===== *)
(** The server of the admin UI: [auth.rs], [server_fns.rs] and [server.rs], with the
    facade of [admin.rs].

    A handler is a program over the world [serving]: the session store, at the
    granularity of its lock, the clock and the random identifiers, the body of the
    request, and the brokers. Requests are served at the same time, so the world may
    change the store between two calls of a handler in any way; what is proved of a
    handler is proved against every world. *)

From Stdlib Require Import Ascii.
From S2P Require Import Prelude Collections Rust Json KafkaErrors Output Admin Properties Connection Floats Program.
From S2P Require Import Permissions Sessions TopicDescribe AdminDto AdminConfig AdminViews.

(** [Uuid::parse_str], to the text that [Uuid::to_string] gives. *)
Class UuidCrate := { parse_uuid : string → option string }.

(** What [serde] reads of a body: a request of JSON, a form, and the pairs of an
    urlencoded text, with the text of pairs. *)
Class Serde := {
  json_request : ∀ m : Mutation, string → option (RequestOf m);
  form_request : ∀ m : Mutation, string → option (FormOf m);
  url_pairs : string → option (list (string * string));
  url_text : list (string * string) → option string
}.

Section Server.
Context `{KrabkaUnits} `{UuidCrate} `{Serde} `{Dioxus} `{UnicodeTables} `{KrabkaIds} `{KrabkaAclNames}.

(** ** The world *)

(** [ClientSecurity] with SCRAM-SHA-512 credentials. *)
Record UiSecurity := {
  uis_protocol : ListenerProtocol;
  uis_tls : option UiTls;
  uis_username : string;
  uis_password : string
}.

(** The requests of the client that change a cluster. *)
Inductive BrokerOp :=
  | DoCreateTopics (specs : list CreateTopicSpec) (timeout : Time)
  | DoDeleteTopics (names : list string) (timeout : Time)
  | DoCreatePartitions (ops : list CreatePartitionsOp) (timeout : Time)
  | DoAlterConfigs (changes : list (ConfigResource * list AlterConfigOp))
  | DoCreateAcls (acls : list AclBinding)
  | DoDeleteAcls (filters : list AclBindingFilter)
  | DoAlterScram (upsertions : list ScramUpsertion) (deletions : list string)
  | DoAlterUserQuotas (username : string) (ops : list QuotaOp) (validate_only : bool)
  | DoAlterReplicaLogDirs (assignments : list (TopicPartitionReplica * string)).

Definition op_answer (op : BrokerOp) : Type :=
  match op with
  | DoCreateTopics _ _ | DoDeleteTopics _ _ | DoCreatePartitions _ _ => result UiAdminError (list TopicOutcome)
  | DoAlterConfigs _ => result UiAdminError (list (ConfigResource * result KafkaError unit))
  | DoCreateAcls _ => result UiAdminError (list (option KafkaError))
  | DoDeleteAcls _ => result UiAdminError (list DeleteAclsOutcome)
  | DoAlterScram _ _ => result UiAdminError (list (string * option KafkaError))
  | DoAlterUserQuotas _ _ _ => result UiAdminError (option KafkaError)
  | DoAlterReplicaLogDirs _ => list (TopicPartitionReplica * result KafkaError unit)
  end.

(** The calls. A client is the number that [UConnect] gave it. *)
Inductive ui_call :=
  | UNow
  | UUuid
  | UGetRead (now : Z) (id : string)
  | UGetRemove (id : string)
  | URemove (id : string)
  | UCreate (now : Z) (id token : string) (user : SessionUser) (password : option string) (capabilities : Capabilities)
  | UBody (limit : Z)
  | UConnect (addrs : list string) (security : UiSecurity)
  | UTcp (addr : string)
  | UMetadata (client : nat)
  | UListGroups (client : nat)
  | UDescribeCluster (client : nat)
  | UDescribeLogDirs (client : nat) (brokers : list Z)
  | UDescribeAcls (client : nat)
  | UDescribeUserQuotas (client : nat) (username : string)
  | UDescribeScram (client : nat)
  | UMutate (client : nat) (op : BrokerOp).

Definition ui_answer (c : ui_call) : Type :=
  match c with
  | UNow => Z
  | UUuid => string
  | UGetRead _ _ => option SessionRecord
  | UGetRemove _ | UCreate _ _ _ _ _ _ => unit
  | URemove _ | UTcp _ => bool
  | UBody _ => option string
  | UConnect _ _ => result UiAdminError nat
  | UMetadata _ => result UiAdminError (list TopicMetadata)
  | UListGroups _ => result UiAdminError (list GroupListing)
  | UDescribeCluster _ => result UiAdminError ClusterDescription
  | UDescribeLogDirs _ _ => list (Z * result KafkaError (list LogDirInfo))
  | UDescribeAcls _ => result UiAdminError (list AclBinding)
  | UDescribeUserQuotas _ _ => result UiAdminError (list (string * F64))
  | UDescribeScram _ => result UiAdminError (list UserScramCredentials)
  | UMutate _ op => op_answer op
  end.

Definition serving : Signature := {| call := ui_call; answer := ui_answer |}.
Definition serve (c : ui_call) : prog serving (ui_answer c) := ask (Σ := serving) c.

(** The [?] of a fallible step. *)
Definition try_bind {E A B} (p : prog serving (result E A)) (f : A → prog serving (result E B))
    : prog serving (result E B) :=
  prog_bind (λ r, match r with Ok a => f a | Err e => mret (Err e) end) p.
#[local] Notation "x ←? p ; k" := (try_bind p (λ x, k)) (at level 20, p at level 100, k at level 200).
(** A call of the client, with its error as the UI's. *)
Definition asked {A} (p : prog serving (result UiAdminError A)) : prog serving (result UiError A) :=
  prog_bind (λ r, mret (map_err ui_error r)) p.

(** ** [SessionStore] *)

(** [get]. *)
Definition session_get (id : string) : prog serving (option SessionRecord) :=
  now ← serve UNow;
  found ← serve (UGetRead now id);
  match found with
  | None => mret None
  | Some record =>
      if negb (is_expired record now) then mret (Some record) else serve (UGetRemove id);; mret None
  end.

(** [create_authenticated]. *)
Definition session_create (user : SessionUser) (password : string) (capabilities : Capabilities) : prog serving string :=
  id ← serve UUuid;
  now ← serve UNow;
  token ← serve UUuid;
  serve (UCreate now id token user (Some password) capabilities);;
  mret id.

(** ** [auth.rs] *)

Record LoginRequest := { login_username : string; login_password : string }.
Record LoginSuccess := { ls_username : string; ls_principal : string; ls_session_id : string }.

Definition build_scram_sha512_security (cfg : AdminUiConfig) (username password : string) : UiSecurity :=
  {| uis_protocol := listener_protocol (security_config cfg); uis_tls := security_tls_config (security_config cfg);
     uis_username := username; uis_password := password |}.

(** What the capabilities are derived from of an ACL. *)
Definition permission_entry (acl : AclBinding) : AclEntry :=
  {| entry_resource_type := match ab_resource_type acl with
                            | AclTopic => Topic | AclGroup => Group | AclCluster => Cluster
                            | AclTransactionalId => OtherResource 5 | AclDelegationToken => OtherResource 6
                            | AclUser => OtherResource 7
                            end;
     entry_principal := ab_principal acl; entry_host := ab_host acl;
     entry_operation := match ab_operation acl with
                        | OpAll => AllOperations | OpRead => Read | OpWrite => Write | OpCreate => Create
                        | OpDelete => Delete | OpAlter => Alter | OpDescribe => Describe
                        | OpDescribeConfigs => DescribeConfigs | OpAlterConfigs => AlterConfigs
                        | OpClusterAction => OtherOperation 9 | OpIdempotentWrite => OtherOperation 12
                        | OpCreateTokens => OtherOperation 13 | OpDescribeTokens => OtherOperation 14
                        | OpTwoPhaseCommit => OtherOperation 15
                        end;
     entry_permission := match ab_permission_type acl with AclAllow => Allow | AclDeny => Deny end |}.

Definition capabilities_of (username : string) (entries : result UiAdminError (list AclBinding)) : Capabilities :=
  match entries with
  | Err _ => all_capabilities
  | Ok entries =>
      let derived := derive_capabilities ("User:" +:+ username) (map permission_entry entries) in
      if derived =? no_capabilities then all_capabilities else derived
  end.

(** [capabilities_from_broker]. *)
Definition capabilities_from_broker (client : nat) (username : string) : prog serving Capabilities :=
  entries ← serve (UDescribeAcls client);
  mret (capabilities_of username entries).

(** [any_address_accepts_tcp]. *)
Fixpoint any_address_accepts_tcp (addrs : list string) : prog serving bool :=
  match addrs with
  | [] => mret false
  | addr :: addrs => prog_bind (λ accepted : bool, if accepted then mret true else any_address_accepts_tcp addrs)
                       (serve (UTcp addr))
  end.

Definition classify_connect_failure (cfg : AdminUiConfig) (error : UiAdminError) : prog serving UiError :=
  match error with
  | OtherError _ => mret (ui_error error)
  | ConnectError _ =>
      accepts ← any_address_accepts_tcp (bootstrap_addrs cfg);
      mret (if (accepts : bool) then NotAuthenticated else ui_error error)
  end.

(** [AdminClientLoginBroker::authenticate]. *)
Definition authenticate (cfg : AdminUiConfig) (username password : string) : prog serving (result UiError Capabilities) :=
  connected ← serve (UConnect (bootstrap_addrs cfg) (build_scram_sha512_security cfg username password));
  match connected with
  | Err error => failure ← classify_connect_failure cfg error; mret (Err failure)
  | Ok client => capabilities ← capabilities_from_broker client username; mret (Ok capabilities)
  end.

(** [AuthService::login]. *)
Definition auth_login (cfg : AdminUiConfig) (request : LoginRequest) : prog serving (result UiError LoginSuccess) :=
  capabilities ←? authenticate cfg (login_username request) (login_password request);
  let principal := "User:" +:+ login_username request in
  id ← session_create {| username := login_username request; principal := principal |} (login_password request) capabilities;
  mret (Ok {| ls_username := login_username request; ls_principal := principal; ls_session_id := id |}).

(** ** [server_fns.rs]: sessions *)

Record ServerFunctionContext := { ctx_cfg : AdminUiConfig; ctx_raw_session_id : option string }.

Definition require_session (raw_session_id : option string) : prog serving (result UiError SessionRecord) :=
  match raw_session_id ≫= parse_uuid with
  | None => mret (Err NotAuthenticated)
  | Some id => record ← session_get id; mret (ok_or record NotAuthenticated)
  end.

Definition require_session_id (raw_session_id : option string) : prog serving (result UiError string) :=
  match raw_session_id ≫= parse_uuid with
  | None => mret (Err NotAuthenticated)
  | Some id => record ← session_get id; mret (if is_some record then Ok id else Err NotAuthenticated)
  end.

(** [logout_with_context]. *)
Definition logout (context : ServerFunctionContext) : prog serving (result UiError unit) :=
  id ←? require_session_id (ctx_raw_session_id context);
  serve (URemove id);; mret (Ok tt).

Record CurrentSession := { cur_username : string; cur_principal : string }.
Definition current_session (context : ServerFunctionContext) : prog serving (result UiError CurrentSession) :=
  record ←? require_session (ctx_raw_session_id context);
  mret (Ok {| cur_username := username (user record); cur_principal := principal (user record) |}).

(** ** The seams *)

(** [BrokerAdminReadSeam]. *)
Record Seam := { seam_cfg : AdminUiConfig; seam_username : string; seam_password : string }.

Definition seam_from_session (cfg : AdminUiConfig) (record : SessionRecord) : result UiError Seam :=
  match credentials record with
  | None => Err NotAuthenticated
  | Some password => Ok {| seam_cfg := cfg; seam_username := username (user record); seam_password := password |}
  end.

Definition facade (seam : Seam) : prog serving (result UiError nat) :=
  asked (serve (UConnect (bootstrap_addrs (seam_cfg seam))
                 (build_scram_sha512_security (seam_cfg seam) (seam_username seam) (seam_password seam)))).

(** What it reads. *)
Definition seam_topics (seam : Seam) : prog serving (result UiError (list TopicRow)) :=
  client ←? facade seam;
  metadata ←? asked (serve (UMetadata client));
  mret (Ok (topic_rows metadata)).

Definition seam_groups (seam : Seam) : prog serving (result UiError (list GroupRow)) :=
  client ←? facade seam;
  valid ←? asked (serve (UListGroups client));
  mret (Ok (group_rows (map gl_group_id valid))).

Definition seam_acls (seam : Seam) : prog serving (result UiError (list AclRow)) :=
  client ←? facade seam;
  entries ←? asked (serve (UDescribeAcls client));
  mret (Ok (ui_acl_rows entries)).

Definition seam_users (seam : Seam) : prog serving (result UiError (list UserRow)) :=
  client ←? facade seam;
  users ←? asked (serve (UDescribeScram client));
  mret (Ok (user_rows users)).

Definition seam_quotas (seam : Seam) (entity : option string) : prog serving (result UiError (list QuotaRow)) :=
  client ←? facade seam;
  let entity := default (seam_username seam) entity in
  quotas ←? asked (serve (UDescribeUserQuotas client entity));
  mret (Ok (quota_rows entity quotas)).

Definition seam_log_dirs (seam : Seam) : prog serving (result UiError (list LogDirRow)) :=
  client ←? facade seam;
  cluster ←? asked (serve (UDescribeCluster client));
  log_dirs ← serve (UDescribeLogDirs client (map node_id (description_nodes cluster)));
  mret (Ok (log_dir_rows log_dirs)).

(** ** ACLs of a request *)

Definition parse_pattern_type (value : string) : result UiError AclPatternType :=
  let lower := to_ascii_lowercase value in
  if bool_decide (lower = "literal") then Ok AclLiteral
  else if bool_decide (lower = "prefixed") then Ok AclPrefixed
  else Err (InvalidRequest ("unsupported ACL pattern type " +:+ value)).

Definition parse_resource_type (value : string) : result UiError AclResourceType :=
  let lower := to_ascii_lowercase value in
  if bool_decide (lower = "topic") then Ok AclTopic
  else if bool_decide (lower = "group") then Ok AclGroup
  else if bool_decide (lower = "cluster") then Ok AclCluster
  else if bool_decide (lower ∈ ["transactionalid"; "transactional_id"; "transactional-id"]) then Ok AclTransactionalId
  else Err (InvalidRequest ("unsupported ACL resource type " +:+ value)).

Definition parse_acl_operation (value : string) : result UiError WireOperation :=
  let lower := to_ascii_lowercase value in
  if bool_decide (lower = "all") then Ok OpAll
  else if bool_decide (lower = "read") then Ok OpRead
  else if bool_decide (lower = "write") then Ok OpWrite
  else if bool_decide (lower = "create") then Ok OpCreate
  else if bool_decide (lower = "delete") then Ok OpDelete
  else if bool_decide (lower = "alter") then Ok OpAlter
  else if bool_decide (lower = "describe") then Ok OpDescribe
  else if bool_decide (lower ∈ ["clusteraction"; "cluster_action"; "cluster-action"]) then Ok OpClusterAction
  else if bool_decide (lower ∈ ["describeconfigs"; "describe_configs"; "describe-configs"]) then Ok OpDescribeConfigs
  else if bool_decide (lower ∈ ["alterconfigs"; "alter_configs"; "alter-configs"]) then Ok OpAlterConfigs
  else if bool_decide (lower ∈ ["idempotentwrite"; "idempotent_write"; "idempotent-write"]) then Ok OpIdempotentWrite
  else if bool_decide (lower ∈ ["twophasecommit"; "two_phase_commit"; "two-phase-commit"]) then Ok OpTwoPhaseCommit
  else Err (InvalidRequest ("unsupported ACL operation " +:+ value)).

Definition parse_permission_type (value : string) : result UiError AclPermissionType :=
  let lower := to_ascii_lowercase value in
  if bool_decide (lower = "allow") then Ok AclAllow
  else if bool_decide (lower = "deny") then Ok AclDeny
  else Err (InvalidRequest ("unsupported ACL permission " +:+ value)).

Definition acl_entry_from_request (request : AclRequestDto) : result UiError AclBinding :=
  resource_type ← parse_resource_type (ard_resource_type request);
  pattern_type ← parse_pattern_type (ard_pattern_type request);
  operation ← parse_acl_operation (ard_operation request);
  permission ← parse_permission_type (ard_permission request);
  Ok {| ab_resource_type := resource_type; ab_resource_name := ard_resource_name request; ab_pattern_type := pattern_type;
        ab_principal := ard_principal request; ab_host := ard_host request; ab_operation := operation;
        ab_permission_type := permission |}.

Definition acl_filter_from_request (request : AclRequestDto) : result UiError AclBindingFilter :=
  resource_type ← parse_resource_type (ard_resource_type request);
  pattern_type ← parse_pattern_type (ard_pattern_type request);
  operation ← parse_acl_operation (ard_operation request);
  permission ← parse_permission_type (ard_permission request);
  Ok {| af_resource_type := Some resource_type; af_resource_name := Some (ard_resource_name request);
        af_pattern_type := Some pattern_type; af_principal := Some (ard_principal request);
        af_host := Some (ard_host request); af_operation := Some operation; af_permission_type := Some permission |}.

Definition ensure_topic_config_resource (resource_type resource_name : string) : result UiError unit :=
  if eq_ignore_ascii_case resource_type "topic" then Ok tt
  else Err (InvalidRequest ("alter configs only supports topic resources through krabka-client-admin; " +:+
              resource_type +:+ ":" +:+ resource_name +:+ " is unsupported")).

(** ** Mutations *)

(** [IntoResourceOutcomeDto], for the outcomes of each request. *)
Definition topic_outcome (outcome : TopicOutcome) : ResourceOutcome :=
  kafka_error_outcome (to_name outcome) (to_error outcome).
Definition config_resource_name (resource : ConfigResource) : string :=
  match resource with TopicResource name => name | BrokerResource id => pretty id | ResourceNew _ name => name end.
Definition result_err {E A} (r : result E A) : option E := match r with Ok _ => None | Err e => Some e end.
Definition config_outcome (outcome : ConfigResource * result KafkaError unit) : ResourceOutcome :=
  kafka_error_outcome (config_resource_name outcome.1) (result_err outcome.2).
Definition create_acl_outcome (error : option KafkaError) : ResourceOutcome := kafka_error_outcome "acl" error.
Definition delete_acl_outcome (outcome : DeleteAclsOutcome) : ResourceOutcome :=
  kafka_error_outcome "acl-filter" (da_error outcome).
Definition scram_outcome (outcome : string * option KafkaError) : ResourceOutcome :=
  kafka_error_outcome outcome.1 outcome.2.
Definition log_dir_outcome (outcome : TopicPartitionReplica * result KafkaError unit) : ResourceOutcome :=
  kafka_error_outcome (tpr_topic outcome.1 +:+ "-" +:+ pretty (tpr_partition outcome.1)) (result_err outcome.2).

Abbreviation Outcomes := (prog serving (result UiError (list ResourceOutcome))).

(** [lift]: a check of the request within a program. *)
Definition checked {A} (r : result UiError A) : prog serving (result UiError A) := mret r.

(** The mutations of [BrokerAdminMutationSeam]. *)
Definition seam_create_topic (seam : Seam) (request : CreateTopicRequestDto) : Outcomes :=
  client ←? facade seam;
  let configs := bt_collect (map (λ config, (ced_name config, ced_value config)) (ctr_configs request)) in
  outcomes ←? asked (serve (UMutate client (DoCreateTopics
    [{| spec_name := ctr_name request; spec_partitions := ctr_partitions request; spec_replicas := ctr_replicas request;
        spec_configs := configs; spec_assignments := [] |}] (topic_mutation_timeout (seam_cfg seam)))));
  mret (Ok (map topic_outcome outcomes)).

Definition seam_delete_topic (seam : Seam) (request : DeleteTopicRequestDto) : Outcomes :=
  client ←? facade seam;
  outcomes ←? asked (serve (UMutate client (DoDeleteTopics [dtr_name request] (topic_mutation_timeout (seam_cfg seam)))));
  mret (Ok (map topic_outcome outcomes)).

Definition seam_create_partitions (seam : Seam) (request : CreatePartitionsRequestDto) : Outcomes :=
  client ←? facade seam;
  outcomes ←? asked (serve (UMutate client (DoCreatePartitions
    [{| cp_name := cpr_topic request; cp_new_total_count := cpr_total_count request; cp_assignments := None |}]
    (topic_mutation_timeout (seam_cfg seam)))));
  mret (Ok (map topic_outcome outcomes)).

Definition seam_alter_configs (seam : Seam) (request : AlterConfigRequestDto) : Outcomes :=
  _ ←? checked (ensure_topic_config_resource (acr_resource_type request) (acr_resource_name request));
  client ←? facade seam;
  let ops := map (λ config, SetOp (ced_name config) (ced_value config)) (acr_configs request) in
  outcomes ←? asked (serve (UMutate client (DoAlterConfigs [(TopicResource (acr_resource_name request), ops)])));
  mret (Ok (map config_outcome outcomes)).

Definition seam_create_acl (seam : Seam) (request : AclRequestDto) : Outcomes :=
  client ←? facade seam;
  acl ←? checked (acl_entry_from_request request);
  outcomes ←? asked (serve (UMutate client (DoCreateAcls [acl])));
  mret (Ok (map create_acl_outcome outcomes)).

Definition seam_delete_acl (seam : Seam) (request : AclRequestDto) : Outcomes :=
  client ←? facade seam;
  filter ←? checked (acl_filter_from_request request);
  outcomes ←? asked (serve (UMutate client (DoDeleteAcls [filter])));
  mret (Ok (map delete_acl_outcome outcomes)).

Definition seam_upsert_scram (seam : Seam) (request : ScramUserUpsertDto) : Outcomes :=
  client ←? facade seam;
  outcomes ←? asked (serve (UMutate client (DoAlterScram
    [{| su_username := suu_username request; su_password := suu_password request;
        su_iterations := suu_iterations request |}] [])));
  mret (Ok (map scram_outcome outcomes)).

Definition seam_delete_scram (seam : Seam) (request : ScramUserDeleteDto) : Outcomes :=
  client ←? facade seam;
  outcomes ←? asked (serve (UMutate client (DoAlterScram [] [sud_username request])));
  mret (Ok (map scram_outcome outcomes)).

Definition seam_upsert_quota (seam : Seam) (request : QuotaUpsertDto) : Outcomes :=
  client ←? facade seam;
  error ←? asked (serve (UMutate client (DoAlterUserQuotas (qud_entity request)
    [QuotaSet (qud_quota_type request) (qud_value request)] false)));
  mret (Ok [quota_mutation_outcome (qud_entity request) (qud_quota_type request) error]).

Definition seam_delete_quota (seam : Seam) (request : QuotaDeleteDto) : Outcomes :=
  client ←? facade seam;
  error ←? asked (serve (UMutate client (DoAlterUserQuotas (qdd_entity request)
    [QuotaRemove (qdd_quota_type request)] false)));
  mret (Ok [quota_mutation_outcome (qdd_entity request) (qdd_quota_type request) error]).

Definition seam_move_log_dir (seam : Seam) (request : LogDirMoveRequestDto) : Outcomes :=
  client ←? facade seam;
  outcomes ← serve (UMutate client (DoAlterReplicaLogDirs
    [({| tpr_topic := ldm_topic request; tpr_partition := ldm_partition request; tpr_broker_id := ldm_broker_id request |},
      ldm_destination_log_dir request)]));
  mret (Ok (map log_dir_outcome outcomes)).

(** [read_seam_from_context] and [mutation_seam_after_valid_request]. *)
Definition read_seam_from_context (context : ServerFunctionContext) : prog serving (result UiError Seam) :=
  record ←? require_session (ctx_raw_session_id context);
  checked (seam_from_session (ctx_cfg context) record).

Definition ensure_valid_request (validation : result string unit) : result UiError unit := map_err InvalidRequest validation.

Definition mutation_seam_after_valid_request (context : ServerFunctionContext) (validation : result string unit)
    : prog serving (result UiError Seam) :=
  record ←? require_session (ctx_raw_session_id context);
  _ ←? checked (ensure_valid_request validation);
  checked (seam_from_session (ctx_cfg context) record).

(** The server functions that read. *)
Definition reading {A} (read : Seam → prog serving (result UiError A)) (context : ServerFunctionContext)
    : prog serving (result UiError A) :=
  seam ←? read_seam_from_context context; read seam.
Definition ui_list_topics := reading seam_topics.
Definition ui_list_groups := reading seam_groups.
Definition list_acls := reading seam_acls.
Definition list_users := reading seam_users.
Definition list_quotas (context : ServerFunctionContext) (entity : option string) :=
  reading (λ seam, seam_quotas seam entity) context.
Definition list_log_dirs := reading seam_log_dirs.

(** The server functions that change the cluster. *)
Definition create_topic context request : Outcomes :=
  seam ←? mutation_seam_after_valid_request context (validate_create_topic request); seam_create_topic seam request.
Definition delete_topic context request : Outcomes :=
  seam ←? mutation_seam_after_valid_request context (validate_delete_topic request); seam_delete_topic seam request.
Definition create_partitions context request : Outcomes :=
  seam ←? mutation_seam_after_valid_request context (validate_create_partitions request); seam_create_partitions seam request.
Definition ui_alter_configs context request : Outcomes :=
  seam ←? mutation_seam_after_valid_request context (validate_alter_config request); seam_alter_configs seam request.
Definition create_acl context request : Outcomes :=
  seam ←? mutation_seam_after_valid_request context (validate_acl request); seam_create_acl seam request.
Definition delete_acl context request : Outcomes :=
  seam ←? mutation_seam_after_valid_request context (validate_acl request); seam_delete_acl seam request.
Definition upsert_scram_sha512_user context request : Outcomes :=
  seam ←? mutation_seam_after_valid_request context (validate_scram_upsert request); seam_upsert_scram seam request.
Definition delete_scram_user context request : Outcomes :=
  seam ←? mutation_seam_after_valid_request context (validate_scram_delete request); seam_delete_scram seam request.
Definition upsert_quota context request : Outcomes :=
  seam ←? mutation_seam_after_valid_request context (validate_quota_upsert request); seam_upsert_quota seam request.
Definition delete_quota context request : Outcomes :=
  seam ←? mutation_seam_after_valid_request context (validate_quota_delete request); seam_delete_quota seam request.
Definition move_log_dir context request : Outcomes :=
  seam ←? mutation_seam_after_valid_request context (validate_log_dir_move request); seam_move_log_dir seam request.

(** ** [server.rs]: requests and responses *)

(** The headers of a request: the value of a name, where it is text. *)
Record HttpRequest := { header : string → option string }.
Record Response := { status : Z; set_cookie : option string; content : string }.

Definition OK_STATUS : Z := 200.
Definition BAD_REQUEST : Z := 400.
Definition UNAUTHORIZED : Z := 401.
Definition FORBIDDEN : Z := 403.
Definition PAYLOAD_TOO_LARGE : Z := 413.
Definition UNSUPPORTED_MEDIA_TYPE : Z := 415.
Definition INTERNAL_SERVER_ERROR : Z := 500.
Definition BAD_GATEWAY : Z := 502.
Definition SERVICE_UNAVAILABLE : Z := 503.

Definition SESSION_COOKIE_NAME : string := "krabka_admin_session".

(** A cookie of a header, if it is the session's. *)
Definition cookie_value (cookie : string) : option string :=
  '(name, value) ← split_once (λ c, (c =? "=")%char) (trim cookie);
  if bool_decide (name = SESSION_COOKIE_NAME) then Some value else None.

Definition session_cookie (request : HttpRequest) : option string :=
  cookie_header ← header request "cookie";
  list.head (omap cookie_value (split_char ";" cookie_header)).

(** [request_content_type]. *)
Definition request_content_type (request : HttpRequest) : option string :=
  value ← header request "content-type";
  media_type ← list.head (split_char ";" value);
  Some (to_ascii_lowercase (trim media_type)).

Definition html (page : outcome string) : prog serving Response :=
  prog_bind (λ text, mret {| status := OK_STATUS; set_cookie := None; content := text |}) (Halt page).

Definition login_page : prog serving Response := html (render_page (LoginPage LoginForm)).
Definition read_page (page : RoutePage) (operator : OperatorView) : prog serving Response :=
  html (render_page_for_operator page operator).

Definition mutation_error_response (code : Z) (message : string) : Response :=
  {| status := code; set_cookie := None;
     content := "status=error" +:+ newline +:+ "message=" +:+ message +:+ newline |}.
Definition csrf_error_response : Response := mutation_error_response FORBIDDEN "missing or stale CSRF token".

Definition mutation_error_status (error : UiError) : Z :=
  match error with
  | NotAuthenticated | SessionExpired => UNAUTHORIZED
  | NotPermittedError => FORBIDDEN
  | InvalidRequest _ => BAD_REQUEST
  | BrokerConnection _ | BrokerReturned _ _ _ _ => BAD_GATEWAY
  | AdminFailed _ => INTERNAL_SERVER_ERROR
  end.

(** A line of [mutation_outcome_text]. *)
Definition outcome_line (outcome : ResourceOutcome) : string :=
  let tab := String (ascii_of_nat 9) "" in
  "resource=" +:+ ro_resource outcome +:+
  match ro_error outcome with
  | Some error => tab +:+ "status=error" +:+ tab +:+ "error_code=" +:+ pretty (ked_code error) +:+ tab +:+
                  "error_name=" +:+ ked_name error
  | None => tab +:+ "status=ok"
  end +:+ newline.
Definition mutation_outcome_text (outcomes : list ResourceOutcome) : string :=
  foldl (λ text outcome, text +:+ outcome_line outcome) ("status=ok" +:+ newline) outcomes.

Definition mutation_result_response (r : result UiError (list ResourceOutcome)) : Response :=
  match r with
  | Ok outcomes => {| status := OK_STATUS; set_cookie := None; content := mutation_outcome_text outcomes |}
  | Err error => mutation_error_response (mutation_error_status error) (ui_error_text error)
  end.

(** ** Authentication of a request *)

(** [authenticated_session]. *)
Definition authenticated_session (cfg : AdminUiConfig) (request : HttpRequest)
    : prog serving (option (ServerFunctionContext * SessionRecord)) :=
  match session_cookie request with
  | None => mret None
  | Some raw =>
      record ← require_session (Some raw);
      mret match record with
           | Ok record => Some ({| ctx_cfg := cfg; ctx_raw_session_id := Some raw |}, record)
           | Err _ => None
           end
  end.

Definition operator_of (record : SessionRecord) : OperatorView :=
  operator_new (capabilities record) (csrf_token record).

Inductive MutationBody := JsonBody (bytes : string) | FormBody (encoded : string).

Definition is_csrf_field (field : string * string) : bool := bool_decide (field.1 = CSRF_FIELD_NAME).

(** What [authenticated_mutation_body] makes of the body, once it is read. *)
Definition mutation_form_body (token body : string) : result Response MutationBody :=
  let invalid := mutation_error_response BAD_REQUEST "invalid form request" in
  match url_pairs body with
  | None => Err invalid
  | Some fields =>
      let supplied := from_option snd "" (List.find is_csrf_field fields) in
      if negb (csrf_matches token supplied) then Err csrf_error_response
      else match url_text (List.filter (λ field, negb (is_csrf_field field)) fields) with
           | None => Err invalid
           | Some encoded => Ok (FormBody encoded)
           end
  end.
Definition mutation_body (content_type : option string) (header_token token body : string) : result Response MutationBody :=
  match content_type with
  | Some media_type =>
      if bool_decide (media_type = "application/json") then
        if negb (csrf_matches token header_token) then Err csrf_error_response else Ok (JsonBody body)
      else if bool_decide (media_type = "application/x-www-form-urlencoded") then mutation_form_body token body
      else Err (mutation_error_response UNSUPPORTED_MEDIA_TYPE
                  "mutations take application/json or application/x-www-form-urlencoded")
  | None => Err (mutation_error_response UNSUPPORTED_MEDIA_TYPE
                   "mutations take application/json or application/x-www-form-urlencoded")
  end.

(** [authenticated_mutation_body]. *)
Definition authenticated_mutation_body (cfg : AdminUiConfig) (required_capability : Capabilities → bool)
    (request : HttpRequest) : prog serving (result Response (ServerFunctionContext * MutationBody)) :=
  session ← authenticated_session cfg request;
  match session with
  | None => mret (Err (mutation_error_response UNAUTHORIZED "not authenticated"))
  | Some (context, record) =>
      if negb (required_capability (capabilities record)) then mret (Err (mutation_error_response FORBIDDEN "not permitted"))
      else
        body ← serve (UBody (bytes_usize (mutation_json_body_limit cfg)));
        match body with
        | None => mret (Err (mutation_error_response PAYLOAD_TOO_LARGE "request body too large"))
        | Some body =>
            mret (body ← mutation_body (request_content_type request) (default "" (header request CSRF_HEADER_NAME))
                           (csrf_token record) body;
                  Ok (context, body))
        end
  end.

(** What [parse_authenticated_mutation_request] makes of a body. *)
Definition parse_mutation (m : Mutation) (body : MutationBody) : result Response (RequestOf m) :=
  match body with
  | JsonBody bytes => ok_or (json_request m bytes) (mutation_error_response BAD_REQUEST "invalid JSON request")
  | FormBody encoded =>
      form ← ok_or (form_request m encoded) (mutation_error_response BAD_REQUEST "invalid form request");
      map_err (mutation_error_response BAD_REQUEST) (into_request m form)
  end.

Definition parse_authenticated_mutation_request (m : Mutation) (cfg : AdminUiConfig)
    (required_capability : Capabilities → bool) (request : HttpRequest)
    : prog serving (result Response (ServerFunctionContext * RequestOf m)) :=
  parsed ←? authenticated_mutation_body cfg required_capability request;
  mret (request ← parse_mutation m parsed.2; Ok (parsed.1, request)).

(** ** Pages *)

(** [root]. *)
Definition root (cfg : AdminUiConfig) (request : HttpRequest) : prog serving Response :=
  session ← authenticated_session cfg request;
  match session with
  | None => html (render_page (for_unauthenticated_route Overview))
  | Some (_, record) => read_page (OverviewPage None) (operator_of record)
  end.

(** A page that reads from a broker: [topics] and the others. *)
Definition reading_page {T} (cfg : AdminUiConfig) (request : HttpRequest) (route : Route)
    (page : ReadRouteState T → RoutePage) (read : ServerFunctionContext → prog serving (result UiError (list T)))
    : prog serving Response :=
  session ← authenticated_session cfg request;
  match session with
  | None => login_page
  | Some (context, record) =>
      let operator := operator_of record in
      if negb (is_permitted route (ov_capabilities operator)) then read_page (page NotPermitted) operator
      else
        rows ← read context;
        match rows with
        | Ok rows => read_page (page (Rows rows)) operator
        | Err NotAuthenticated => login_page
        | Err _ => read_page (page LoadFailed) operator
        end
  end.

Definition topics_handler cfg request := reading_page cfg request Topics TopicsPage ui_list_topics.
Definition groups_handler cfg request := reading_page cfg request Groups GroupsPage ui_list_groups.
Definition acls_handler cfg request := reading_page cfg request Acls AclsPage list_acls.
Definition users_handler cfg request := reading_page cfg request Users UsersPage list_users.
Definition log_dirs_handler cfg request := reading_page cfg request LogDirs LogDirsPage list_log_dirs.

(** [QuotaLookup::requested_entity]. *)
Definition requested_entity (entity : option string) : option string :=
  entity ← entity; if bool_decide (trim entity = "") then None else Some (trim entity).
Definition quotas_handler cfg request (lookup : option string) :=
  let entity := requested_entity lookup in
  reading_page cfg request Quotas (λ state, QuotasPage state entity) (λ context, list_quotas context entity).

(** ** Signing in and out *)

Definition login_failure_response (error : UiError) : Z * RoutePage :=
  match error with
  | NotAuthenticated | SessionExpired => (UNAUTHORIZED, LoginPage AuthenticationFailed)
  | BrokerConnection _ => (SERVICE_UNAVAILABLE, LoginPage BrokerUnavailable)
  | _ => (BAD_GATEWAY, LoginPage BrokerUnavailable)
  end.

Definition post_login (cfg : AdminUiConfig) (request : LoginRequest) : prog serving Response :=
  success ← auth_login cfg request;
  match success with
  | Err error =>
      let '(code, page) := login_failure_response error in
      text ← Halt (render_page page);
      mret {| status := code; set_cookie := None; content := text |}
  | Ok success =>
      text ← Halt (render_page signed_in);
      mret {| status := OK_STATUS;
              set_cookie := Some (SESSION_COOKIE_NAME +:+ "=" +:+ ls_session_id success +:+
                                  "; HttpOnly; SameSite=Lax; Path=/");
              content := text |}
  end.

Definition any_capability (_ : Capabilities) : bool := true.

Definition post_logout (cfg : AdminUiConfig) (request : HttpRequest) : prog serving Response :=
  body ← authenticated_mutation_body cfg any_capability request;
  match body with
  | Err response => mret response
  | Ok (context, _) =>
      out ← logout context;
      match out with
      | Err _ => mret (mutation_error_response UNAUTHORIZED "not authenticated")
      | Ok _ =>
          text ← Halt (render_page (LoginPage LoginForm));
          mret {| status := OK_STATUS;
                  set_cookie := Some (SESSION_COOKIE_NAME +:+ "=; HttpOnly; SameSite=Lax; Path=/; Max-Age=0");
                  content := text |}
      end
  end.

(** ** Mutations *)

(** The shape of the handlers below. *)
Definition post_mutation (m : Mutation) (required_capability : Capabilities → bool)
    (f : ServerFunctionContext → RequestOf m → prog serving (result UiError (list ResourceOutcome)))
    (cfg : AdminUiConfig) (request : HttpRequest) : prog serving Response :=
  parsed ← parse_authenticated_mutation_request m cfg required_capability request;
  match parsed with
  | Err response => mret response
  | Ok (context, request) => outcomes ← f context request; mret (mutation_result_response outcomes)
  end.

Definition post_create_topic := post_mutation MCreateTopic can_create_topics create_topic.
Definition post_delete_topic := post_mutation MDeleteTopic can_delete_topics delete_topic.
Definition post_create_partitions := post_mutation MCreatePartitions can_alter_topics create_partitions.
Definition post_alter_configs := post_mutation MAlterConfigs can_alter_topics ui_alter_configs.
Definition post_create_acl := post_mutation MCreateAcl can_alter_acls create_acl.
Definition post_delete_acl := post_mutation MDeleteAcl can_alter_acls delete_acl.
Definition post_upsert_scram := post_mutation MUpsertScram can_alter_users upsert_scram_sha512_user.
Definition post_delete_scram := post_mutation MDeleteScram can_alter_users delete_scram_user.
Definition post_upsert_quota := post_mutation MUpsertQuota can_alter_quotas upsert_quota.
Definition post_delete_quota := post_mutation MDeleteQuota can_alter_quotas delete_quota.
Definition post_move_log_dir := post_mutation MMoveLogDir can_alter_log_dirs move_log_dir.

(** The mutations of the router, by their path. *)
Definition post_routes : list (string * (AdminUiConfig → HttpRequest → prog serving Response)) :=
  [("/topics/create", post_create_topic); ("/topics/delete", post_delete_topic);
   ("/topics/partitions", post_create_partitions); ("/topics/configs", post_alter_configs);
   ("/acls/create", post_create_acl); ("/acls/delete", post_delete_acl); ("/users/scram/upsert", post_upsert_scram);
   ("/users/scram/delete", post_delete_scram); ("/quotas/upsert", post_upsert_quota);
   ("/quotas/delete", post_delete_quota); ("/log-dirs/move", post_move_log_dir)].

(** The pages of the router, by their path; [lookup] is the [entity] of the query. *)
Definition healthz (cfg : AdminUiConfig) (request : HttpRequest) : prog serving Response :=
  mret {| status := OK_STATUS; set_cookie := None; content := "" |}.
Definition login_handler (cfg : AdminUiConfig) (request : HttpRequest) : prog serving Response := login_page.
Definition get_routes (lookup : option string) : list (string * (AdminUiConfig → HttpRequest → prog serving Response)) :=
  [("/healthz", healthz); ("/", root); ("/login", login_handler); ("/topics", topics_handler); ("/groups", groups_handler);
   ("/acls", acls_handler); ("/users", users_handler); ("/quotas", λ cfg request, quotas_handler cfg request lookup);
   ("/log-dirs", log_dirs_handler)].
End Server.
