(* ===== verification/AdminSafety.v ===== *)
(** What the handlers of the admin UI guarantee: mutations, pages, sign-ins, and the
    forms that the pages carry. *)

From Stdlib Require Import Ascii.
From S2P Require Import Prelude Collections Rust Json KafkaErrors Output Admin Properties Connection Floats Program.
From S2P Require Import Permissions Sessions TopicDescribe AdminDto AdminConfig AdminViews AdminServer.

(** ** What a mutation stands for *)

Section Mutations.
Context `{KrabkaUnits} `{UuidCrate} `{Serde} `{Dioxus} `{UnicodeTables} `{KrabkaIds} `{KrabkaAclNames}.

Definition mutation_path (m : Mutation) : string :=
  match m with
  | MCreateTopic => "/topics/create" | MDeleteTopic => "/topics/delete" | MCreatePartitions => "/topics/partitions"
  | MAlterConfigs => "/topics/configs" | MCreateAcl => "/acls/create" | MDeleteAcl => "/acls/delete"
  | MUpsertScram => "/users/scram/upsert" | MDeleteScram => "/users/scram/delete" | MUpsertQuota => "/quotas/upsert"
  | MDeleteQuota => "/quotas/delete" | MMoveLogDir => "/log-dirs/move"
  end.

(** The operation on the cluster that a mutation needs. *)
Definition mutation_capability (m : Mutation) : Z :=
  match m with
  | MCreateTopic => CREATE_TOPICS | MDeleteTopic => DELETE_TOPICS
  | MCreatePartitions | MAlterConfigs => ALTER_TOPICS
  | MCreateAcl | MDeleteAcl => ALTER_ACLS
  | MUpsertScram | MDeleteScram => ALTER_USERS
  | MUpsertQuota | MDeleteQuota => ALTER_QUOTAS
  | MMoveLogDir => ALTER_LOG_DIRS
  end.




(** The connection of a seam. *)
Definition seam_security (seam : Seam) : UiSecurity :=
  build_scram_sha512_security (seam_cfg seam) (seam_username seam) (seam_password seam).


(** ** Traces of the handlers *)

Definition harmless (c : ui_call) : bool := match c with UMutate _ _ => false | _ => true end.
Definition harmless_monitor : Monitor serving unit :=
  {| allows := λ _ (c : call serving), harmless c = true; after := λ s _ _, s |}.
Definition quiet {A} (p : prog serving A) : Prop := monitored (Σ := serving) harmless_monitor tt p (λ _ _, True).




Lemma quiet_halt {A} (o : outcome A) : quiet (Halt o).
Proof. done. Qed.



(** The events of a [get] that finds a live session. *)
Definition session_read (now : Z) (id : string) (record : SessionRecord) : list (event serving) :=
  [existT UNow (now : ui_answer UNow); existT (UGetRead now id) (Some record : ui_answer (UGetRead now id))].

Lemma require_session_trace raw log record :
  trace (Σ := serving) (require_session (Some raw)) log (Done (Ok record)) →
  ∃ id now, parse_uuid raw = Some id ∧ log = session_read now id record ∧ is_expired record now = false.
Proof.
  unfold require_session. cbn [mbind option_bind]. destruct (parse_uuid raw) as [id|]; [|by intros [_ ?]].
  intros (now & log1 & -> & found & log2 & -> & Ht). destruct found as [found|]; [|by destruct Ht as [_ ?]].
  cbn in Ht. destruct (is_expired found now) eqn:E; cbn in Ht; [by destruct Ht as (? & ? & _ & _ & ?)|].
  destruct Ht as [-> [= ->]]. by exists id, now.
Qed.

Lemma authenticated_session_trace cfg request log context record :
  trace (Σ := serving) (authenticated_session cfg request) log (Done (Some (context, record))) →
  ∃ raw id now, session_cookie request = Some raw ∧ parse_uuid raw = Some id ∧ log = session_read now id record ∧
    is_expired record now = false ∧ context = {| ctx_cfg := cfg; ctx_raw_session_id := Some raw |}.
Proof.
  unfold authenticated_session. destruct (session_cookie request) as [raw|]; [|by intros [_ ?]].
  intros (log1 & [[found|error]| |] & Hs & Ht)%trace_bind_inv; [| |by destruct Ht..]; destruct Ht as (log2 & -> & -> & Ht); [injection Ht as -> ->|done].
  apply require_session_trace in Hs as (id & now & Hid & -> & He). exists raw, id, now. by rewrite app_nil_r.
Qed.









(** ** Sharing the session store *)

Section Shared.
Context (checked_add : Z → option Z).

(** The steps of the store that a call is. *)
Definition store_events (c : ui_call) : list Event :=
  match c with
  | UGetRead now id => [GetRead now id]
  | UGetRemove id => [GetRemove id]
  | URemove id => [Remove id]
  | UCreate now id token user password capabilities => [CreateRecord now id token user password capabilities]
  | _ => []
  end.







(** The requests that changed the cluster. *)
Definition mutations (log : list (event serving)) : list BrokerOp :=
  omap (λ e : event serving, match projT1 e with UMutate _ op => Some op | _ => None end) log.

End Shared.
End Mutations.

(** ** Pages *)

Section Pages.
Context `{KrabkaUnits} `{UuidCrate} `{Serde} `{Dioxus} `{UnicodeTables} `{KrabkaIds} `{KrabkaAclNames}.

(** The calls of a page: it changes neither the cluster nor, but for a session that
    it finds expired, the store; and it connects as [security] only. *)
Definition page_call (security : option (list string * UiSecurity)) (c : ui_call) : Prop :=
  match c with
  | UMutate _ _ | UCreate _ _ _ _ _ _ | URemove _ | UBody _ | UUuid | UTcp _ => False
  | UConnect addrs s => security = Some (addrs, s)
  | _ => True
  end.
Definition page_monitor (security : option (list string * UiSecurity)) : Monitor serving unit :=
  {| allows := λ _ (c : call serving), page_call security c; after := λ s _ _, s |}.
Definition reads_as {A} (security : option (list string * UiSecurity)) (p : prog serving A) : Prop :=
  monitored (Σ := serving) (page_monitor security) tt p (λ _ _, True).

Lemma reads_as_trace {A} security (p : prog serving A) log o :
  reads_as security p → trace (Σ := serving) p log o → Forall (λ e : event serving, page_call security (projT1 e)) log.
Proof.
  unfold reads_as. revert log. induction p as [o'|c k IH]; intros log Hm; cbn.
  - intros [-> _]. constructor.
  - intros (r & log' & -> & Ht). destruct Hm as [Hc Hk]. constructor; [done|]. by apply (IH r _ (Hk r)).
Qed.

Lemma reads_as_bind {A B} security (p : prog serving A) (f : A → prog serving B) :
  reads_as security p → (∀ a, reads_as security (f a)) → reads_as security (prog_bind f p).
Proof.
  intros Hp Hf. apply monitored_bind. eapply monitored_mono; [exact Hp|]. intros [] [a| |] _; [apply Hf|done..].
Qed.

Lemma reads_as_session_get security id : reads_as security (session_get id).
Proof. cbn. split; [done|]. intros now. split; [done|]. intros [record|]; [|done]. destruct (negb _); [done|]. by split. Qed.

Lemma reads_as_require_session security raw : reads_as security (require_session raw).
Proof.
  unfold require_session. destruct (raw ≫= parse_uuid); [|done]. apply reads_as_bind; [apply reads_as_session_get|]. by intros.
Qed.

Lemma reads_as_session security cfg request : reads_as security (authenticated_session cfg request).
Proof.
  unfold authenticated_session. destruct (session_cookie request); [|done].
  apply reads_as_bind; [apply reads_as_require_session|]. by intros.
Qed.

Lemma reads_as_html security page : reads_as security (html page).
Proof. by destruct page. Qed.

(** A reader of the seam connects as the seam, first. *)
Definition seam_reads {A} (read : Seam → prog serving (result UiError A)) : Prop :=
  ∀ seam, reads_as (Some (bootstrap_addrs (seam_cfg seam), seam_security seam)) (read seam).

Lemma seam_reads_all entity :
  seam_reads seam_topics ∧ seam_reads seam_groups ∧ seam_reads seam_acls ∧ seam_reads seam_users ∧
  seam_reads (λ seam, seam_quotas seam entity) ∧ seam_reads seam_log_dirs.
Proof.
  split_and!; intros seam; (split; [done|]); intros [client|]; try done; (split; [done|]); intros []; try done; by split.
Qed.

(** What a page removes from the store: a session that it has read just before and
    found expired. *)
Definition removes_expired (past : list (event serving)) (c : ui_call) : Prop :=
  match c with
  | UGetRemove id => ∃ before now record, past = before ++ session_read now id record ∧ is_expired record now = true
  | _ => True
  end.
Definition expiry_only {A} (p : prog serving A) : Prop :=
  ∀ past, monitored (Σ := serving) (history (Σ := serving) removes_expired) past p (λ _ _, True).

Lemma expiry_only_bind {A B} (p : prog serving A) (f : A → prog serving B) :
  expiry_only p → (∀ a, expiry_only (f a)) → expiry_only (prog_bind f p).
Proof.
  intros Hp Hf past. apply monitored_bind. eapply monitored_mono; [apply Hp|]. intros past' [a| |] _; [apply Hf|done..].
Qed.

Lemma expiry_only_session_get id : expiry_only (session_get id).
Proof.
  intros past. split; [done|]. intros now. split; [done|]. intros [record|]; [|done]. cbn.
  destruct (is_expired record now) eqn:He; cbn; [|done]. split; [|done]. exists past, now, record.
  by rewrite <-app_assoc.
Qed.

Lemma expiry_only_require_session raw : expiry_only (require_session raw).
Proof.
  unfold require_session. destruct (raw ≫= parse_uuid); [|by intros past].
  apply expiry_only_bind; [apply expiry_only_session_get|by intros a past].
Qed.

Lemma expiry_only_session cfg request : expiry_only (authenticated_session cfg request).
Proof.
  unfold authenticated_session. destruct (session_cookie request); [|by intros past].
  apply expiry_only_bind; [apply expiry_only_require_session|by intros a past].
Qed.

Lemma expiry_only_html page : expiry_only (html page).
Proof. by destruct page. Qed.

Lemma expiry_only_seams entity seam :
  expiry_only (seam_topics seam) ∧ expiry_only (seam_groups seam) ∧ expiry_only (seam_acls seam) ∧
  expiry_only (seam_users seam) ∧ expiry_only (seam_quotas seam entity) ∧ expiry_only (seam_log_dirs seam).
Proof.
  split_and!; intros past; (split; [done|]); intros [client|]; try done; (split; [done|]); intros []; try done; by split.
Qed.

Lemma expiry_only_reading {A} (read : Seam → prog serving (result UiError A)) context :
  (∀ seam, expiry_only (read seam)) → expiry_only (reading read context).
Proof.
  intros Hread. apply expiry_only_bind; [|intros [seam|error]; [apply Hread|by intros past]].
  apply expiry_only_bind; [apply expiry_only_require_session|by intros [] past].
Qed.

Lemma expiry_only_page {T} cfg request route (page : ReadRouteState T → RoutePage) read :
  (∀ seam, expiry_only (read seam)) → expiry_only (reading_page cfg request route page (reading read)).
Proof.
  intros Hread. apply expiry_only_bind; [apply expiry_only_session|].
  intros [[context record]|]; [|apply expiry_only_html]. cbv zeta.
  destruct (negb _); [apply expiry_only_html|].
  apply expiry_only_bind; [by apply expiry_only_reading|]. intros [rows|[]]; apply expiry_only_html.
Qed.

Lemma expiry_only_routes lookup cfg path handler request :
  (path, handler) ∈ get_routes lookup → expiry_only (handler cfg request).
Proof.
  pose proof (expiry_only_seams (requested_entity lookup)) as Hs.
  intros Hin. unfold get_routes in Hin.
  repeat (apply elem_of_cons in Hin as [[= -> ->]|Hin]); [..|by apply elem_of_nil in Hin];
    try (apply expiry_only_page; apply Hs).
  - by intros past.
  - apply expiry_only_bind; [apply expiry_only_session|]. intros [[context record]|]; apply expiry_only_html.
  - apply expiry_only_html.
Qed.

(** What a page that connects has read before. *)
Record page_authorised (cfg : AdminUiConfig) (request : HttpRequest) (route : Route) (log : list (event serving))
    (addrs : list string) (security : UiSecurity) : Prop := {
  pa_session : ∃ raw id now record now' record' password rest,
    session_cookie request = Some raw ∧ parse_uuid raw = Some id ∧
    log = session_read now id record ++ session_read now' id record' ++ rest ∧
    is_expired record now = false ∧ is_permitted route (capabilities record) = true ∧
    is_expired record' now' = false ∧ credentials record' = Some password ∧
    addrs = bootstrap_addrs cfg ∧ security = build_scram_sha512_security cfg (username (user record')) password
}.

Lemma no_connect log addrs security r :
  Forall (λ e : event serving, page_call None (projT1 e)) log →
  existT (UConnect addrs security) (r : ui_answer (UConnect addrs security)) ∉ log.
Proof. intros Hl Hin. rewrite Forall_forall in Hl. by specialize (Hl _ Hin). Qed.

Lemma page_call_weaken security c : page_call None c → page_call security c.
Proof. by destruct c. Qed.

(** The log of a page: what it may do, and what it has read before it connects. *)
Definition page_log (cfg : AdminUiConfig) (request : HttpRequest) (route : Route) (log : list (event serving)) : Prop :=
  (∃ security, Forall (λ e : event serving, page_call security (projT1 e)) log) ∧
  ∀ addrs security r, existT (UConnect addrs security) (r : ui_answer (UConnect addrs security)) ∈ log →
    page_authorised cfg request route log addrs security.

Abbreviation page_calls security log := (Forall (λ e : event serving, page_call security (projT1 e)) log).

Lemma page_calls_weaken security log : page_calls None log → page_calls security log.
Proof. intros Hl. eapply Forall_impl; [exact Hl|]. intros e. apply page_call_weaken. Qed.

(** A reader either stops before it connects, or connects as the session that it
    read. *)
Lemma reading_trace {A} (read : Seam → prog serving (result UiError A)) cfg raw id log o :
  seam_reads read → parse_uuid raw = Some id →
  trace (Σ := serving) (reading read {| ctx_cfg := cfg; ctx_raw_session_id := Some raw |}) log o →
  page_calls None log ∨
  ∃ now record password rest, is_expired record now = false ∧ credentials record = Some password ∧
    log = session_read now id record ++ rest ∧
    page_calls (Some (bootstrap_addrs cfg, build_scram_sha512_security cfg (username (user record)) password)) log.
Proof.
  intros Hread Hid (log1 & o1 & Hseam & Ht)%trace_bind_inv.
  assert (page_calls None log1) as Hl1.
  { eapply reads_as_trace; [|exact Hseam]. apply reads_as_bind; [apply reads_as_require_session|]. by intros []. }
  destruct o1 as [[seam|error]| |]; [|left; destruct Ht as (log2 & -> & -> & _); by rewrite app_nil_r|left; by destruct Ht as [-> _]..].
  right. destruct Ht as (log2 & -> & Ht).
  apply trace_bind_inv in Hseam as (log3 & [[record|error]| |] & Hs & Hseam); [| |by destruct Hseam..];
    destruct Hseam as (log4 & -> & -> & Hseam); [|done].
  apply require_session_trace in Hs as (id' & now & Hid' & -> & He). rewrite Hid in Hid'. injection Hid' as <-.
  unfold seam_from_session in Hseam. destruct (credentials record) as [password|] eqn:Hpw; [|done]. injection Hseam as ->.
  exists now, record, password, log2. rewrite app_nil_r in Hl1 |- *. split_and!; [done..|].
  apply Forall_app. split; [by apply page_calls_weaken|]. exact (reads_as_trace _ _ _ _ (Hread _) Ht).
Qed.

Lemma page_log_quiet cfg request route log : page_calls None log → page_log cfg request route log.
Proof. intros Hl. split; [by exists None|]. intros addrs security r Hin. by destruct (no_connect _ _ _ _ Hl Hin). Qed.

Lemma reading_page_trace {T} cfg request route (page : ReadRouteState T → RoutePage) read log o :
  seam_reads read → trace (Σ := serving) (reading_page cfg request route page (reading read)) log o →
  page_log cfg request route log.
Proof.
  intros Hread (log1 & o1 & Hs & Ht)%trace_bind_inv.
  pose proof (reads_as_trace None _ _ _ (reads_as_session None cfg request) Hs) as Hl1.
  destruct o1 as [[[context record]|]| |]; [| |apply page_log_quiet; by destruct Ht as [-> _]..]; destruct Ht as (log2 & -> & Ht).
  2: { apply page_log_quiet, Forall_app. split; [done|]. eapply reads_as_trace; [|exact Ht]. apply reads_as_html. }
  apply authenticated_session_trace in Hs as (raw & id & now & Hraw & Hid & -> & He & ->).
  cbv zeta in Ht. destruct (is_permitted route (ov_capabilities (operator_of record))) eqn:Hp; cbn [negb] in Ht; cycle 1.
  { apply page_log_quiet, Forall_app. split; [done|]. eapply reads_as_trace; [|exact Ht]. apply reads_as_html. }
  apply trace_bind_inv in Ht as (log3 & o3 & Hr & Ht).
  assert (∃ log4, log2 = log3 ++ log4 ∧ page_calls None log4) as (log4 & -> & Hl4).
  { destruct o3 as [rows| |]; [|exists []; destruct Ht as [-> _]; by rewrite app_nil_r..].
    destruct Ht as (log4 & -> & Ht). exists log4. split; [done|]. eapply reads_as_trace; [|exact Ht].
    destruct rows as [rows|[]]; apply reads_as_html. }
  destruct (reading_trace _ _ _ _ _ _ Hread Hid Hr) as [Hl3|(now' & record' & password & rest & He' & Hpw & -> & Hl3)].
  { apply page_log_quiet. by rewrite !Forall_app. }
  set (sec := Some _) in Hl3.
  assert (page_calls sec (session_read now id record ++ (session_read now' id record' ++ rest) ++ log4)) as Hall.
  { apply Forall_app. split; [by apply page_calls_weaken|]. apply Forall_app. split; [done|by apply page_calls_weaken]. }
  split; [by exists sec|]. intros addrs security r Hin. rewrite Forall_forall in Hall. specialize (Hall _ Hin). cbn in Hall.
  injection Hall as <- <-. constructor. exists raw, id, now, record, now', record', password, (rest ++ log4).
  rewrite <-app_assoc. split_and!; done.
Qed.

(** C24. The pages of the admin UI only read, for every world: a page sends no change to
    the cluster and creates no session, the one thing it may remove from the store is a
    session that it has read just before and found expired, and it connects to a broker only for a request with
    the cookie of a live session whose capabilities permit the page, as the operator of
    that session. *)
Theorem pages_authorised W (world : ∀ c : ui_call, W → ui_answer c * W) (w : W) lookup cfg path handler request :
  (path, handler) ∈ get_routes lookup →
  (∃ security, page_calls security (run (Σ := serving) world (handler cfg request) w).2) ∧
  (∀ before id r rest, (run (Σ := serving) world (handler cfg request) w).2 =
      before ++ existT (UGetRemove id) (r : ui_answer (UGetRemove id)) :: rest →
    ∃ before' now record, before = before' ++ session_read now id record ∧ is_expired record now = true) ∧
  ∀ addrs security r, existT (UConnect addrs security) (r : ui_answer (UConnect addrs security)) ∈
      (run (Σ := serving) world (handler cfg request) w).2 →
    ∃ route, path = route_path route ∧
      page_authorised cfg request route (run (Σ := serving) world (handler cfg request) w).2 addrs security.
Proof.
  intros Hin. pose proof (run_trace (Σ := serving) world (handler cfg request) w) as Ht.
  pose proof (expiry_only_routes _ cfg _ _ request Hin []) as Hx.
  match goal with |- ?calls ∧ ?removes ∧ ?connects => enough (calls ∧ connects) as [? ?] end.
  { split; [done|]. split; [|done]. intros before id r rest. exact (run_history (Σ := serving) world _ _ _ _ _ _ _ Hx). }
  clear Hx. destruct (run _ _ w) as [[o w'] log]. cbn [fst snd] in *.
  destruct (seam_reads_all (requested_entity lookup)) as (Rt & Rg & Ra & Ru & Rq & Rl).
  assert (∀ route, path = route_path route → page_log cfg request route log → (∃ security, page_calls security log) ∧
    ∀ addrs security r, existT (UConnect addrs security) (r : ui_answer (UConnect addrs security)) ∈ log →
      ∃ route, path = route_path route ∧ page_authorised cfg request route log addrs security) as Hgo.
  { intros route Hpath [Hc Ha]. split; [done|]. intros addrs security r Hr. exists route. split; [done|]. by eapply Ha. }
  assert (page_calls None log → page_log cfg request Overview log) as Hq by apply page_log_quiet.
  unfold get_routes in Hin. repeat (apply elem_of_cons in Hin as [[= -> ->]|Hin]); [..|by apply elem_of_nil in Hin].
  - destruct Ht as [-> _]. split; [by exists None|]. by intros ? ? ? ?%elem_of_nil.
  - apply (Hgo Overview); [done|]. apply Hq. eapply reads_as_trace; [|exact Ht].
    apply reads_as_bind; [apply reads_as_session|]. intros [[context record]|]; apply reads_as_html.
  - apply (Hgo Login); [done|]. apply page_log_quiet. eapply reads_as_trace; [|exact Ht]. apply reads_as_html.
  - apply (Hgo Topics); [done|]. eapply reading_page_trace; [exact Rt|exact Ht].
  - apply (Hgo Groups); [done|]. eapply reading_page_trace; [exact Rg|exact Ht].
  - apply (Hgo Acls); [done|]. eapply reading_page_trace; [exact Ra|exact Ht].
  - apply (Hgo Users); [done|]. eapply reading_page_trace; [exact Ru|exact Ht].
  - apply (Hgo Quotas); [done|]. eapply reading_page_trace; [exact Rq|exact Ht].
  - apply (Hgo LogDirs); [done|]. eapply reading_page_trace; [exact Rl|exact Ht].
Qed.
End Pages.

(** ** Signing in *)

Section SigningIn.
Context `{KrabkaUnits} `{UuidCrate} `{Serde} `{Dioxus} `{UnicodeTables} `{KrabkaIds} `{KrabkaAclNames}.






End SigningIn.

(** ** Forms *)

Section Forms.
Context `{KrabkaUnits} `{UuidCrate} `{Serde} `{Dioxus} `{UnicodeTables} `{KrabkaIds} `{KrabkaAclNames}.

(** The fields that the form of a mutation is decoded from, by the names that [serde]
    gives them. *)
Definition form_fields (m : Mutation) : list string :=
  match m with
  | MCreateTopic => ["name"; "partitions"; "replicas"; "configs"]
  | MDeleteTopic => ["name"]
  | MCreatePartitions => ["topic"; "total_count"]
  | MAlterConfigs => ["resource_type"; "resource_name"; "configs"]
  | MCreateAcl | MDeleteAcl =>
      ["resource_type"; "resource_name"; "pattern_type"; "principal"; "operation"; "permission"; "host"]
  | MUpsertScram => ["username"; "password"; "iterations"]
  | MDeleteScram => ["username"]
  | MUpsertQuota => ["entity"; "quota_type"; "value"]
  | MDeleteQuota => ["entity"; "quota_type"]
  | MMoveLogDir => ["topic"; "partition"; "broker_id"; "destination_log_dir"]
  end.

(** What a browser reads of a form: an attribute, and the inputs. *)
Definition attribute (name : string) (e : Element) : option string :=
  match e with
  | Tag _ attributes _ => snd <$> List.find (λ entry : string * string, bool_decide (entry.1 = name)) attributes
  | Text _ => None
  end.
Fixpoint inputs (e : Element) : list Element :=
  match e with
  | Tag name _ children => if bool_decide (name = "input") then [e] else concat (map inputs children)
  | Text _ => []
  end.

(** What it sends: the value of a hidden input, and what was typed in another. *)
Definition submitted (typed : string → string) (e : Element) : list (string * string) :=
  map (λ input, let name := default "" (attribute "name" input) in
                (name, if bool_decide (attribute "type" input = Some "hidden") then default "" (attribute "value" input)
                       else typed name)) (inputs e).

(** The mutations of a page. *)
Definition page_mutations (page : RoutePage) : list Mutation :=
  match page with
  | TopicsPage _ => [MCreateTopic; MCreatePartitions; MAlterConfigs; MDeleteTopic]
  | AclsPage _ => [MCreateAcl; MDeleteAcl]
  | UsersPage _ => [MUpsertScram; MDeleteScram]
  | QuotasPage _ _ => [MUpsertQuota; MDeleteQuota]
  | LogDirsPage _ => [MMoveLogDir]
  | OverviewPage _ | GroupsPage _ | LoginPage _ => []
  end.

(** A form that fits the handler of a mutation: it is posted to the handler's path with
    the token first, and then with the fields that the handler decodes. *)
Definition form_fits (token : string) (m : Mutation) (form : Element) : Prop :=
  attribute "action" form = Some (mutation_path m) ∧ attribute "method" form = Some "post" ∧
  ∀ typed, ∃ fields, submitted typed form = (CSRF_FIELD_NAME, token) :: fields ∧ Permutation (map fst fields) (form_fields m).

Definition field_input (field : FormField) : Element := input_of (ff_kind field) (ff_name field) (ff_value field).

Lemma inputs_fields fields : concat (map inputs (map field_element fields)) = map field_input fields.
Proof.
  induction fields as [|field fields IH]; [done|]. cbn [map concat]. rewrite IH. unfold field_element, field_input.
  case_bool_decide as Hk; [by rewrite Hk|done].
Qed.

Lemma mutation_form_inputs action label token fields :
  inputs (mutation_form action label token fields) = input_of "hidden" CSRF_FIELD_NAME token :: map field_input fields.
Proof.
  transitivity (concat (map inputs ([tag "h3" [Text label]; input_of "hidden" CSRF_FIELD_NAME token] ++
    map field_element fields ++ [Tag "button" [("type", "submit")] [Text label]]))); [done|].
  rewrite !map_app, !concat_app, inputs_fields. exact (f_equal (cons _) (app_nil_r _)).
Qed.

Lemma mutation_form_fits token m label fields :
  Permutation (map ff_name fields) (form_fields m) → form_fits token m (mutation_form (mutation_path m) label token fields).
Proof.
  intros Hp. split_and!; [done..|]. intros typed.
  exists (map (λ field, (ff_name field, if bool_decide (ff_kind field = "hidden") then ff_value field else typed (ff_name field))) fields).
  split; [|rewrite map_map; exact Hp]. unfold submitted. rewrite mutation_form_inputs. cbn [map]. f_equal.
  rewrite map_map. apply map_ext. intros field. change (attribute "type" (field_input field)) with (Some (ff_kind field)).
  change (attribute "name" (field_input field)) with (Some (ff_name field)).
  change (attribute "value" (field_input field)) with (Some (ff_value field)). cbn [default from_option id].
  do 2 case_bool_decide; congruence.
Qed.

Lemma stripped_fields token (fields : list (string * string)) :
  (∀ field, field ∈ fields → field.1 ≠ CSRF_FIELD_NAME) →
  List.filter (λ field, negb (is_csrf_field field)) ((CSRF_FIELD_NAME, token) :: fields) = fields.
Proof.
  intros Hn. transitivity (List.filter (λ field, negb (is_csrf_field field)) fields); [reflexivity|].
  induction fields as [|field fields IH]; [done|]. cbn. unfold is_csrf_field at 1.
  rewrite bool_decide_eq_false_2 by (apply Hn; by left). cbn. f_equal. apply IH.
  intros f Hf. apply Hn. by right.
Qed.

Lemma form_fields_csrf m : CSRF_FIELD_NAME ∉ form_fields m.
Proof. destruct m; apply (bool_decide_unpack _); vm_compute; exact I. Qed.

Lemma acl_fields_names : Permutation (map ff_name acl_fields) (form_fields MCreateAcl).
Proof. do 4 apply perm_skip. exact (Permutation_cons_append ["operation"; "permission"] "host"). Qed.

(** C26. The forms of a page and the handlers of the server agree: a signed-in operator
    is shown exactly the forms of the page's mutations that the session's capabilities
    permit, each posted to the path of its handler with the fields that the handler
    decodes; every mutation has its form on one of the pages; and whatever is typed into
    a form, its submission repeats the token of the session, so that the handler's CSRF
    check passes and leaves the other fields. *)
Theorem forms_fit_handlers page granted token :
  Forall2 (form_fits token) (List.filter (λ m, contains granted (mutation_capability m)) (page_mutations page))
    (mutation_forms page (operator_new granted token)) ∧
  (∀ m, ∃ route, m ∈ page_mutations (for_authenticated_route route)) ∧
  ∀ m form typed text header_token, form_fits token m form → url_pairs text = Some (submitted typed form) →
    mutation_body (Some "application/x-www-form-urlencoded") header_token token text =
      match url_text (tail (submitted typed form)) with
      | Some encoded => Ok (FormBody encoded)
      | None => Err (mutation_error_response BAD_REQUEST "invalid form request")
      end.
Proof.
  split_and!.
  - destruct page; cbn; unfold topics_forms, acls_forms, users_forms, quotas_forms, log_dirs_forms, can_create_topics,
      can_alter_topics, can_delete_topics, can_alter_acls, can_alter_users, can_alter_quotas, can_alter_log_dirs;
      repeat match goal with |- context [contains granted ?c] => destruct (contains granted c) end; cbn;
      repeat (apply Forall2_cons_2; [apply mutation_form_fits|]); first [apply Forall2_nil_2 | reflexivity | apply acl_fields_names].
  - intros []; [exists Topics|exists Topics|exists Topics|exists Topics|exists Acls|exists Acls|exists Users|exists Users|
      exists Quotas|exists Quotas|exists LogDirs]; apply (bool_decide_unpack _); vm_compute; exact I.
  - intros m form typed text header_token (_ & _ & Hf) Ht. destruct (Hf typed) as (fields & E & Hp).
    assert (∀ field, field ∈ fields → field.1 ≠ CSRF_FIELD_NAME) as Hn.
    { intros field Hin Ef. apply (form_fields_csrf m). rewrite <-Hp, <-Ef. by apply list_elem_of_fmap_2. }
    transitivity (mutation_form_body token text); [done|]. unfold mutation_form_body. rewrite Ht, E, stripped_fields by done.
    change (from_option snd "" (List.find is_csrf_field ((CSRF_FIELD_NAME, token) :: fields))) with token.
    by rewrite (proj2 (csrf_matches_spec token token) eq_refl).
Qed.
End Forms.

(** ** A signed-in operator, served *)

Module Sample.
#[local] Instance units : KrabkaUnits := {|
  Time := Z; ByteSize := Z; mebibytes := λ n, n * 1048576; hours := λ n, n * 3600; secs := λ n, n;
  positive_byte_size := λ _, Err "no size"; bytes_usize := λ n, n; from_bytes := λ n, n; byte_size_eqb := Z.eqb;
  positive_time := λ _, Err "no time"; secs_f64 := λ _, 0
|}.
#[local] Instance uuids : UuidCrate := {| parse_uuid text := if bool_decide (text = "") then None else Some text |}.
#[local] Instance dioxus : Dioxus := {| render_element _ := "<div></div>" |}.
#[local] Instance unicode : UnicodeTables := {| shown_as_is _ := true |}.
#[local] Instance sample_krabka_ids : KrabkaIds := sample_ids.
#[local] Instance acl_names : KrabkaAclNames := {|
  resource_type_name _ := "Topic"; pattern_type_name _ := "Literal"; acl_operation_name _ := "Read";
  permission_type_name _ := "Allow"
|}.

(** Pairs without an escape, and the one form that is decoded below. *)
Definition pairs_of (text : string) : option (list (string * string)) :=
  mapM (split_once (λ c, (c =? "=")%char)) (split_char "&" text).
Definition text_of (pairs : list (string * string)) : string := join "&" (map (λ '(name, value), name +:+ "=" +:+ value) pairs).
#[local] Instance serde : Serde := {|
  json_request _ _ := None;
  form_request m := match m with
                    | MDeleteTopic => λ text, pairs ← pairs_of text; match pairs with
                                              | [("name", name)] => Some {| dtr_name := name |}
                                              | _ => None
                                              end
                    | _ => λ _, None
                    end;
  url_pairs := pairs_of;
  url_text pairs := Some (text_of pairs)
|}.

Definition cfg : AdminUiConfig :=
  {| listen_addr := SocketV4 [127; 0; 0; 1] 8088; cluster_name := "local"; bootstrap_addrs := ["broker:9092"];
     security_config := ConfigSaslPlaintext; session_ttl := hours 1; mutation_json_body_limit := mebibytes 1;
     topic_mutation_timeout := secs 30 |}.

(** The history of the store is the state; the brokers accept everything. *)
Definition checked_add (now : Z) : option Z := Some (now + 3600).
Definition alice : SessionUser := {| username := "alice"; principal := "User:alice" |}.
Definition sample_history : list Event := [CreateRecord 50 "session-1" "token-1" alice (Some "secret") all_capabilities].
Definition accepted (op : BrokerOp) : op_answer op :=
  match op with
  | DoCreateTopics _ _ | DoDeleteTopics _ _ | DoCreatePartitions _ _ | DoAlterConfigs _ | DoCreateAcls _
  | DoDeleteAcls _ | DoAlterScram _ _ => Ok []
  | DoAlterUserQuotas _ _ _ => Ok None
  | DoAlterReplicaLogDirs _ => []
  end.
Definition body : string := "csrf_token=token-1&name=orders".
Definition answer (c : ui_call) (w : list Event) : ui_answer c :=
  match c with
  | UNow => 100
  | UUuid => "session-2"
  | UGetRead _ id => sessions (after_events checked_add w) !! id
  | UGetRemove _ | UCreate _ _ _ _ _ _ => tt
  | URemove _ | UTcp _ => true
  | UBody _ => Some body
  | UConnect _ _ => Ok O
  | UMetadata _ | UListGroups _ | UDescribeAcls _ | UDescribeUserQuotas _ _ | UDescribeScram _ => Ok []
  | UDescribeCluster _ => Err (ConnectError "closed")
  | UDescribeLogDirs _ _ => []
  | UMutate _ op => accepted op
  end.
Definition world (c : ui_call) (w : list Event) : ui_answer c * list Event := (answer c w, w ++ store_events c).

Definition request : HttpRequest := {| header name :=
  if bool_decide (name = "cookie") then Some "theme=dark; krabka_admin_session=session-1"
  else if bool_decide (name = "content-type") then Some "application/x-www-form-urlencoded; charset=utf-8"
  else None |}.



Definition served (handler : AdminUiConfig → HttpRequest → prog serving Response) :=
  run (Σ := serving) world (handler cfg request) sample_history.


Lemma pages_authorised_witness :
  (∃ security, Forall (λ e : event serving, page_call security (projT1 e)) (served topics_handler).2) ∧
  ∃ addrs security, page_authorised cfg request Topics (served topics_handler).2 addrs security.
Proof.
  destruct (pages_authorised (list Event) world sample_history None cfg "/topics" topics_handler request) as (Hcalls & _ & Hpage).
  - do 3 right. left.
  - split; [exact Hcalls|].
    destruct (Hpage ["broker:9092"] (build_scram_sha512_security cfg "alice" "secret") (Ok O)) as (route & Hr & Hp).
    + vm_compute. do 4 right. left.
    + exists ["broker:9092"], (build_scram_sha512_security cfg "alice" "secret"). destruct route; try discriminate Hr. exact Hp.
Defined.

Lemma forms_fit_handlers_witness :
  mutation_body (Some "application/x-www-form-urlencoded") "" "token-1" body = Ok (FormBody "name=orders").
Proof.
  destruct (forms_fit_handlers (TopicsPage LoadFailed) all_capabilities "token-1") as (Hforms & _ & Hbody).
  pose proof (Forall2_lookup_lr _ _ _ 3 MDeleteTopic _ Hforms eq_refl eq_refl) as Hform.
  exact (Hbody MDeleteTopic _ (λ _, "orders") body "" Hform eq_refl).
Defined.

(** A login, and a page of a cookie that names no session. *)
Example login_runs :
  let '(o, hist, log) := run (Σ := serving) world (post_login cfg {| login_username := "bob"; login_password := "hunter2" |}) sample_history in
  match o with Done r => status r = 200 ∧ set_cookie r = Some "krabka_admin_session=session-2; HttpOnly; SameSite=Lax; Path=/" | _ => False end ∧
  hist = sample_history ++ [CreateRecord 100 "session-2" "session-2" {| username := "bob"; principal := "User:bob" |} (Some "hunter2") all_capabilities] ∧
  length log = 6%nat.
Proof. vm_compute. repeat split. Qed.

Example logout_runs :
  let '(o, hist, log) := served post_logout in
  match o with Done r => status r = 200 | _ => False end ∧ last hist = Some (Remove "session-1") ∧ mutations log = [].
Proof. vm_compute. repeat split. Qed.

Example stale_token :
  let stale := mutation_body (Some "application/json") "" "token-1" body in
  match stale with Err r => status r = 403 | Ok _ => False end.
Proof. vm_compute. reflexivity. Qed.
End Sample.
