(* ===== verification/External.v ===== *)
(** [external.rs]: a subcommand that is not built in runs as [krabka-<name>] from
    [PATH].

    The file system, the processes and the signals are calls of the world
    [delegating]; a [select!] is one call, answered by what happened first. *)

From Stdlib Require Import Ascii.
From S2P Require Import Prelude Collections Rust Json KafkaErrors Output Console Program Storage.

(** ** What is known *)

Definition EXTERNAL_PREFIX : string := "krabka-".

Record KnownExternal := { known_name : string; known_binary : string; known_summary : string }.

Definition KNOWN_EXTERNALS : list KnownExternal :=
  [{| known_name := "admin-ui"; known_binary := "krabka-admin-ui";
      known_summary := "The operator web UI. This repository builds it as a separate binary, so `krabka` keeps its own dependency graph." |};
   {| known_name := "backup"; known_binary := "krabka-backup";
      known_summary := "Captures the inputs of a point-in-time restore. The krabka-broker repository ships it." |};
   {| known_name := "barrier"; known_binary := "krabka-barrier";
      known_summary := "Defines barrier groups, triggers and verifies cuts. The krabka-broker repository ships it." |};
   {| known_name := "guard"; known_binary := "krabka-guard";
      known_summary := "Freezes and thaws topic writes, with a two-person break-glass rule. The krabka-broker repository ships it." |};
   {| known_name := "restore"; known_binary := "krabka-restore";
      known_summary := "Point-in-time restore of a cluster data directory. The krabka-broker repository ships it." |}].

Definition short_help : string :=
  let names := join ", " (map (λ external, "`" +:+ known_name external +:+ "`") KNOWN_EXTERNALS) in
  "Any subcommand that is not built in runs as `krabka-<name>` from PATH, such as " +:+ names +:+
  ". Run `krabka --help` for where each one ships from.".

Definition long_help : string :=
  let width := foldr Nat.max O (map (λ external, String.length (known_name external)) KNOWN_EXTERNALS) in
  foldl (λ help external,
    help +:+ newline +:+ "  " +:+ pad (known_name external) width +:+ "  `" +:+ known_binary external +:+ "`: " +:+
    known_summary external)
    ("External subcommands:" +:+ newline +:+
     "  A subcommand that is not built in runs as `krabka-<name>` from PATH, the way git runs `git-foo`. Krabka looks the binary up at run time, so a subcommand that you did not install does not run." +:+
     newline) KNOWN_EXTERNALS.

(** ** The world *)

Inductive ProcessSignal := Interrupt | Quit | Terminate.

(** What the [select!] of [supervise] saw: the end of the child, or a signal. *)
Inductive Supervised := Exited (status : result string Z) | Signalled (signal : ProcessSignal).

Inductive external_call :=
  | XPath
  | XIsFile (path : string)
  | XMode (path : string)
  | XPrint (line : string)
  | XSignal (signal : ProcessSignal)
  | XSpawn (binary : string) (args : list string)
  | XSelect
  | XKill (pid : Z).

Definition external_answer (c : external_call) : Type :=
  match c with
  | XPath => option string
  | XIsFile _ => bool
  | XMode _ => option Z
  | XPrint _ | XKill _ => unit
  | XSignal _ => result string unit
  | XSpawn _ _ => result string (option Z)
  | XSelect => Supervised
  end.

Definition delegating : Signature := {| call := external_call; answer := external_answer |}.
Definition delegate (c : external_call) : prog delegating (external_answer c) := ask (Σ := delegating) c.

(** ** Finding the binary *)

Inductive Resolution := Executable (path : string) | NotExecutable (path : string) | Missing.

(** [is_executable], on Unix. *)
Definition is_executable (path : string) : prog delegating bool :=
  mode ← delegate (XMode path);
  mret match mode with Some mode => negb (Z.land mode 73 =? 0) | None => false end.

(** The loop of [resolve]. *)
Fixpoint resolve_in (dirs : list string) (binary : string) (not_executable : option string) : prog delegating Resolution :=
  match dirs with
  | [] => mret match not_executable with Some path => NotExecutable path | None => Missing end
  | dir :: dirs =>
      if bool_decide (dir = "") then resolve_in dirs binary not_executable
      else
        let candidate := path_join dir binary in
        is_file ← delegate (XIsFile candidate);
        if negb is_file then resolve_in dirs binary not_executable
        else
          executable ← is_executable candidate;
          if executable : bool then mret (Executable candidate)
          else resolve_in dirs binary (Some (default candidate not_executable))
  end.

(** [resolve]. *)
Definition resolve_plugin (name : string) (path : option string) : prog delegating Resolution :=
  if negb (bool_decide (length (components name) = 1%nat)) || bool_decide (name = "") then mret Missing
  else resolve_in (from_option (split_char ":") [] path) (EXTERNAL_PREFIX +:+ name) None.

(** ** Running it *)

(** [ExitStatus::code] and [signal] of a wait status, on Unix. *)
Definition status_code (status : Z) : option Z :=
  if Z.land status 127 =? 0 then Some (Z.land (Z.shiftr status 8) 255) else None.
Definition status_signal (status : Z) : option Z :=
  if 2 <=? wrap 8 (Z.land status 127 + 1) then Some (Z.land status 127) else None.

Definition exit_for (status : Z) : Exit :=
  match status_code status with
  | Some code => Passthrough code
  | None => match status_signal status with Some signal => Signal signal | None => Failure end
  end.

(** The pid that a signal is sent to: [i32::try_from] and [Pid::from_raw] of the id. *)
Definition kill_pid (id : option Z) : option Z :=
  id ← id; pid ← try_signed 32 id; if pid =? 0 then None else Some pid.

(** The loop of [supervise]. *)
Fixpoint supervise_loop (fuel : nat) (pid : option Z) : prog delegating (result string Z) :=
  match fuel with
  | O => Halt Timeout
  | S fuel =>
      seen ← delegate XSelect;
      match seen with
      | Exited status => mret status
      | Signalled Terminate =>
          (match pid with Some pid => delegate (XKill pid) | None => mret tt end);; supervise_loop fuel pid
      | Signalled _ => supervise_loop fuel pid
      end
  end.

#[local] Notation "x ←? p ; k" := (prog_bind (λ r, match r with Ok x => k | Err e => mret (Err e) end) p)
  (at level 20, p at level 100, k at level 200).

Definition supervise (fuel : nat) (binary : string) (args : list string) : prog delegating (result string Z) :=
  _ ←? delegate (XSignal Interrupt);
  _ ←? delegate (XSignal Quit);
  _ ←? delegate (XSignal Terminate);
  id ←? delegate (XSpawn binary args);
  supervise_loop fuel (kill_pid id).

Definition external_run (fuel : nat) (argv : list string) : prog delegating Exit :=
  match argv with
  | [] => mret UsageExit
  | name :: rest =>
      path ← delegate XPath;
      resolution ← resolve_plugin name path;
      match resolution with
      | NotExecutable binary =>
          delegate (XPrint ("krabka: " +:+ from_utf8_lossy binary +:+ " was found on PATH but is not executable"));;
          mret CannotExecute
      | Missing =>
          let shown := from_utf8_lossy name in
          delegate (XPrint ("krabka: `" +:+ shown +:+ "` is not a krabka command, and no `" +:+ EXTERNAL_PREFIX +:+ shown +:+
                            "` was found on PATH"));;
          delegate (XPrint "krabka: see `krabka --help` for the built-in commands");;
          mret NotFound
      | Executable binary =>
          status ← supervise fuel binary rest;
          match status with
          | Ok status => mret (exit_for status)
          | Err error =>
              delegate (XPrint ("krabka: failed to run " +:+ from_utf8_lossy binary +:+ ": " +:+ error));; mret CannotExecute
          end
      end
  end.

(** ** Facts *)

Lemma split_prefix s : split_char "/" (EXTERNAL_PREFIX +:+ s) =
  match split_char "/" s with [] => [EXTERNAL_PREFIX] | w :: ws => (EXTERNAL_PREFIX +:+ w) :: ws end.
Proof. unfold EXTERNAL_PREFIX. simpl. change ("" +:+ s) with s. by destruct (split_char "/" s). Qed.

Lemma component_prefixed entry : component_of (EXTERNAL_PREFIX +:+ entry) = Some (Normal (EXTERNAL_PREFIX +:+ entry)).
Proof. unfold component_of. by rewrite !bool_decide_eq_false_2 by done. Qed.

Lemma components_relative c s :
  c ≠ "/"%char → components (String c s) =
    match split_char "/" (String c s) with
    | "." :: parts => CurDir :: omap component_of parts
    | _ => omap component_of (split_char "/" (String c s))
    end.
Proof. intros Hc. unfold components. by destruct c as [[] [] [] [] [] [] [] []]; first [reflexivity|destruct Hc]. Qed.

(** A name of one component names, with its prefix, an entry of a directory. *)
Lemma one_component name :
  length (components name) = 1%nat → name ≠ "" →
  ∃ entry, components (EXTERNAL_PREFIX +:+ name) = [Normal (EXTERNAL_PREFIX +:+ entry)].
Proof.
  intros Hl Hn. destruct (split_char_nonempty "/" name) as (w & ws & E). exists w.
  assert (omap component_of ws = []) as Hws.
  { destruct name as [|c name]; [done|]. destruct (decide (c = "/"%char)) as [->|Hc].
    - unfold components in Hl. rewrite E in Hl. injection E as <- _. cbn in Hl. by destruct (omap component_of ws).
    - rewrite components_relative, E in Hl by done. destruct (decide (w = ".")) as [->|Hd].
      { cbn in Hl. by destruct (omap component_of ws). }
      assert (w ≠ "") as Hw.
      { intros ->. cbn in E. rewrite (proj2 (Ascii.eqb_neq _ _)) in E by done. by destruct (split_char "/" name). }
      assert (∃ component, component_of w = Some component) as [component Hk].
      { unfold component_of. rewrite !(bool_decide_eq_false_2 (w = _)) by done. by eexists. }
      assert (length (omap component_of (w :: ws)) = 1%nat) as Hlen by (rewrite <-Hl; repeat case_match; simplify_eq/=; done).
      cbn in Hlen. rewrite Hk in Hlen. cbn in Hlen. by destruct (omap component_of ws). }
  transitivity (omap component_of (split_char "/" (EXTERNAL_PREFIX +:+ name))).
  - change (EXTERNAL_PREFIX +:+ name) with (String "k" ("rabka-" +:+ name)). rewrite components_relative by done.
    change (String "k" ("rabka-" +:+ name)) with (EXTERNAL_PREFIX +:+ name). by rewrite split_prefix, E.
  - rewrite split_prefix, E. cbn -[EXTERNAL_PREFIX]. by rewrite component_prefixed, Hws.
Qed.

(** The candidates for a name. *)
Definition candidates (name : string) (path : option string) : list string :=
  if bool_decide (length (components name) = 1%nat) && negb (bool_decide (name = "")) then
    map (λ dir, path_join dir (EXTERNAL_PREFIX +:+ name))
      (List.filter (λ dir, negb (bool_decide (dir = ""))) (from_option (split_char ":") [] path))
  else [].

Definition runs (mode : option Z) : bool := match mode with Some mode => negb (Z.land mode 73 =? 0) | None => false end.

Section FixedFiles.
Context {W} (world : ∀ c : external_call, W → external_answer c * W) (is_file : string → bool) (mode : string → option Z).
Context (files_fixed : ∀ path w, (world (XIsFile path) w).1 = is_file path).
Context (modes_fixed : ∀ path w, (world (XMode path) w).1 = mode path).

Definition resolution_of (found : list string) (not_executable : option string) : Resolution :=
  match List.find (λ path, is_file path && runs (mode path)) found with
  | Some path => Executable path
  | None => match from_option Some (List.find is_file found) not_executable with
            | Some path => NotExecutable path
            | None => Missing
            end
  end.

Lemma resolve_in_fixed dirs binary not_executable w :
  (run (Σ := delegating) world (resolve_in dirs binary not_executable) w).1.1 =
    Done (resolution_of (map (λ dir, path_join dir binary) (List.filter (λ dir, negb (bool_decide (dir = ""))) dirs))
            not_executable).
Proof.
  revert not_executable w. induction dirs as [|dir dirs IH]; intros ne w; [by destruct ne|].
  cbn [resolve_in List.filter]. case_bool_decide as Hd; [apply IH|]. cbn [negb map].
  set (c := path_join dir binary). cbn. pose proof (files_fixed c w) as Hf. destruct (world (XIsFile c) w) as [f w1].
  cbn in Hf. subst f. unfold resolution_of. cbn [List.find].
  destruct (is_file c) eqn:Ef; cbn; cycle 1.
  { destruct (run _ _ w1) as [[o w2] log] eqn:E. specialize (IH ne w1). rewrite E in IH. exact IH. }
  pose proof (modes_fixed c w1) as Hm. destruct (world (XMode c) w1) as [r w2]. cbn in Hm. subst r. fold (runs (mode c)).
  destruct (runs (mode c)) eqn:Er; cbn; [done|].
  specialize (IH (Some (default c ne)) w2). destruct (run _ _ w2) as [[o w3] log]. cbn in IH |- *. rewrite IH.
  unfold resolution_of. destruct (List.find _ _); [done|]. by destruct ne.
Qed.

(** A plugin is looked up as a shell does: of the files [krabka-<name>] in the
    directories of [PATH], in order and without the empty entries, the first executable
    one is run; if none is executable, the first is reported; and a name of several
    components, or none, is not looked up. Each candidate is an entry of its directory,
    whatever the name. *)
Theorem resolve_first name path w :
  (run (Σ := delegating) world (resolve_plugin name path) w).1.1 = Done (resolution_of (candidates name path) None) ∧
  ∀ candidate, candidate ∈ candidates name path →
    ∃ dir entry, dir ∈ from_option (split_char ":") [] path ∧ dir ≠ "" ∧ candidate = path_join dir (EXTERNAL_PREFIX +:+ name) ∧
      components (EXTERNAL_PREFIX +:+ name) = [Normal (EXTERNAL_PREFIX +:+ entry)].
Proof.
  unfold resolve_plugin, candidates. destruct (bool_decide _) eqn:Hl; cbn [negb orb andb]; [|split; [done|]; intros ? ?%elem_of_nil; done].
  apply bool_decide_eq_true in Hl. case_bool_decide as Hn; cbn [negb]; [split; [done|]; intros ? ?%elem_of_nil; done|].
  split; [apply resolve_in_fixed|]. intros candidate (dir & -> & Hdir)%list_elem_of_fmap.
  destruct (one_component name Hl Hn) as [entry He]. exists dir, entry.
  apply list_elem_of_In, filter_In in Hdir as [Hdir Hne]. split_and!; [by apply list_elem_of_In| |done..].
  intros ->. done.
Qed.
End FixedFiles.

(** ** Traces *)

Lemma resolve_in_trace dirs binary ne log o :
  trace (Σ := delegating) (resolve_in dirs binary ne) log o →
  ∃ resolution, o = Done resolution ∧
    match resolution with
    | Executable path => ∃ dir mode, dir ∈ dirs ∧ dir ≠ "" ∧ path = path_join dir binary ∧ runs (Some mode) = true ∧
        existT (XIsFile path) (true : external_answer (XIsFile path)) ∈ log ∧
        existT (XMode path) (Some mode : external_answer (XMode path)) ∈ log
    | _ => True
    end ∧
    (∀ b args r, existT (XSpawn b args) (r : external_answer (XSpawn b args)) ∉ log).
Proof.
  revert ne log. induction dirs as [|dir dirs IH]; intros ne log.
  { intros [-> ->]. eexists. split; [done|]. split; [by destruct ne|]. intros ? ? ?. apply not_elem_of_nil. }
  cbn [resolve_in]. case_bool_decide as Hd.
  { intros (res & -> & Hr & Hn)%IH. eexists. split; [done|]. split; [|done]. destruct res; [|done..].
    destruct Hr as (d & mode & Hin & ?). exists d, mode. split; [by right|done]. }
  set (c := path_join dir binary). intros (f & log1 & -> & Ht). cbn in Ht. destruct f; cbn in Ht; cycle 1.
  { apply IH in Ht as (res & -> & Hr & Hn). eexists. split; [done|]. split; [|set_solver]. destruct res; [|done..].
    destruct Hr as (d & mode & Hin & ? & ? & ? & ? & ?). exists d, mode. split_and!; try done; by right. }
  destruct Ht as (r & log2 & -> & Ht). fold (runs r) in Ht. destruct (runs r) eqn:Er.
  { destruct Ht as [-> ->]. eexists. split; [done|]. split.
    - destruct r as [mode|]; [|done]. exists dir, mode. split_and!; try done; set_solver.
    - set_solver. }
  apply IH in Ht as (res & -> & Hr & Hn). eexists. split; [done|]. split; [|set_solver]. destruct res; [|done..].
  destruct Hr as (d & mode & Hin & ? & ? & ? & ? & ?). exists d, mode. split_and!; try done; set_solver.
Qed.

(** The events of a supervised child: each signal, and its forwarding. *)
Fixpoint signals_log (pid : option Z) (signals : list ProcessSignal) : list (event delegating) :=
  match signals with
  | [] => []
  | signal :: signals =>
      existT XSelect (Signalled signal : external_answer XSelect) ::
      (match signal, pid with
       | Terminate, Some pid => [existT (XKill pid) (tt : external_answer (XKill pid))]
       | _, _ => []
       end) ++ signals_log pid signals
  end.

Lemma supervise_loop_trace fuel pid log o :
  trace (Σ := delegating) (supervise_loop fuel pid) log o →
  ∃ signals, (o = Timeout ∧ log = signals_log pid signals ∧ length signals = fuel) ∨
    ∃ status, o = Done status ∧ log = signals_log pid signals ++ [existT XSelect (Exited status : external_answer XSelect)] ∧
      (length signals < fuel)%nat.
Proof.
  revert log. induction fuel as [|fuel IH]; intros log.
  { intros [-> ->]. exists []. by left. }
  intros (seen & log1 & -> & Ht). destruct seen as [status|signal].
  { destruct Ht as [-> ->]. exists []. right. exists status. split_and!; [done..|]. cbn. lia. }
  assert (∃ log2, log1 = (match signal, pid with
       | Terminate, Some pid => [existT (XKill pid) (tt : external_answer (XKill pid))]
       | _, _ => []
       end) ++ log2 ∧ trace (Σ := delegating) (supervise_loop fuel pid) log2 o) as (log2 & -> & Ht2).
  { destruct signal; [by exists log1..|]. destruct pid as [pid|]; [|by exists log1].
    destruct Ht as ([] & log2 & -> & Ht). by exists log2. }
  destruct (IH _ Ht2) as (signals & [(-> & -> & <-)|(status & -> & -> & Hl)]); exists (signal :: signals).
  - left. split_and!; [done..|]. done.
  - right. exists status. cbn. rewrite <-app_assoc. split_and!; [done..|]. lia.
Qed.

(** How a run goes on after the answer to its [spawn]. *)
Definition child_ends (fuel : nat) (answer : result string (option Z)) (o : outcome Exit) (after : list (event delegating)) : Prop :=
  match answer with
  | Err _ => o = Done CannotExecute
  | Ok id => ∃ signals,
      (o = Timeout ∧ after = signals_log (kill_pid id) signals ∧ length signals = fuel) ∨
      (∃ status, o = Done (exit_for status) ∧ (length signals < fuel)%nat ∧
         after = signals_log (kill_pid id) signals ++ [existT XSelect (Exited (Ok status) : external_answer XSelect)]) ∨
      (∃ error line, o = Done CannotExecute ∧ (length signals < fuel)%nat ∧
         after = signals_log (kill_pid id) signals ++
           [existT XSelect (Exited (Err error) : external_answer XSelect); existT (XPrint line) (tt : external_answer (XPrint line))])
  end.

(** The one child that a run starts, if it starts one: what it is, and how it ends. *)
Definition supervised (fuel : nat) (argv : list string) (o : outcome Exit) (log : list (event delegating)) : Prop :=
  (∀ binary args r, existT (XSpawn binary args) (r : external_answer (XSpawn binary args)) ∉ log) ∧
    (∃ exit, o = Done exit ∧ exit ∈ [UsageExit; CannotExecute; NotFound]) ∨
  ∃ name args path dir mode before binary answer after,
    argv = name :: args ∧
    log = existT XPath (Some path : external_answer XPath) :: before ++
          existT (XSpawn binary args) (answer : external_answer (XSpawn binary args)) :: after ∧
    (∀ b a r, existT (XSpawn b a) (r : external_answer (XSpawn b a)) ∉ before ++ after) ∧
    dir ∈ split_char ":" path ∧ dir ≠ "" ∧ binary = path_join dir (EXTERNAL_PREFIX +:+ name) ∧
    (∃ entry, components (EXTERNAL_PREFIX +:+ name) = [Normal (EXTERNAL_PREFIX +:+ entry)]) ∧
    existT (XIsFile binary) (true : external_answer (XIsFile binary)) ∈ before ∧
    existT (XMode binary) (Some mode : external_answer (XMode binary)) ∈ before ∧ runs (Some mode) = true ∧
    child_ends fuel answer o after.

Lemma signals_log_spawn pid signals b a (r : external_answer (XSpawn b a)) : existT (XSpawn b a) r ∉ signals_log pid signals.
Proof.
  induction signals as [|signal signals IH]; cbn; [apply not_elem_of_nil|]. rewrite not_elem_of_cons, not_elem_of_app.
  split_and!; [by intros Hin%(f_equal projT1)| |done]. destruct signal, pid; cbn; set_solver.
Qed.

Lemma supervise_trace fuel binary args log o :
  trace (Σ := delegating) (supervise fuel binary args) log o →
  ∃ before, (∀ b a r, existT (XSpawn b a) (r : external_answer (XSpawn b a)) ∉ before) ∧
    ((∃ error, o = Done (Err error) ∧ log = before) ∨
     ∃ answer after, log = before ++ existT (XSpawn binary args) (answer : external_answer (XSpawn binary args)) :: after ∧
       match answer with
       | Err error => after = [] ∧ o = Done (Err error)
       | Ok id => trace (Σ := delegating) (supervise_loop fuel (kill_pid id)) after o
       end).
Proof.
  intros (r1 & log1 & -> & Ht). destruct r1 as [[]|e]; [|destruct Ht as [-> ->]; eexists; split; [|left; by eexists]; set_solver].
  destruct Ht as (r2 & log2 & -> & Ht). destruct r2 as [[]|e]; [|destruct Ht as [-> ->]; eexists; split; [|left; by eexists]; set_solver].
  destruct Ht as (r3 & log3 & -> & Ht). destruct r3 as [[]|e]; [|destruct Ht as [-> ->]; eexists; split; [|left; by eexists]; set_solver].
  destruct Ht as (answer & log4 & -> & Ht).
  exists [existT (XSignal Interrupt) (Ok tt : external_answer (XSignal Interrupt));
          existT (XSignal Quit) (Ok tt : external_answer (XSignal Quit));
          existT (XSignal Terminate) (Ok tt : external_answer (XSignal Terminate))].
  split; [set_solver|]. right. exists answer, log4. split; [done|]. by destruct answer.
Qed.

Lemma child_trace fuel binary args (answer : external_answer (XSpawn binary args)) before after o4 log o :
  match answer with
  | Err error => after = [] ∧ o4 = Done (Err error)
  | Ok id => trace (Σ := delegating) (supervise_loop fuel (kill_pid id)) after o4
  end →
  match o4 with
  | Done a => ∃ log2, log = (before ++ existT (XSpawn binary args) answer :: after) ++ log2 ∧
      trace (Σ := delegating) match a with
            | Ok status => mret (exit_for status)
            | Err error =>
                Vis (Σ := delegating) (XPrint ("krabka: failed to run " +:+ from_utf8_lossy binary +:+ ": " +:+ error))
                  (λ _, mret CannotExecute)
            end log2 o
  | Panic => log = before ++ existT (XSpawn binary args) answer :: after ∧ o = Panic
  | Timeout => log = before ++ existT (XSpawn binary args) answer :: after ∧ o = Timeout
  end →
  ∃ after', log = before ++ existT (XSpawn binary args) answer :: after' ∧ child_ends fuel answer o after' ∧
    ∀ b a r, existT (XSpawn b a) (r : external_answer (XSpawn b a)) ∉ after'.
Proof.
  intros Ha Ht. destruct answer as [id|error]; cycle 1.
  { destruct Ha as [-> ->]. destruct Ht as (log2 & -> & [] & log3 & -> & -> & ->). rewrite <-app_assoc. eexists. split; [done|].
    split; [done|]. set_solver. }
  apply supervise_loop_trace in Ha as (signals & [(-> & -> & Hl)|(status & -> & -> & Hl)]).
  { destruct Ht as [-> ->]. eexists. split; [done|]. split; [exists signals; by left|]. intros b a r. apply signals_log_spawn. }
  destruct Ht as (log2 & -> & Ht). rewrite <-app_assoc. cbn [app]. destruct status as [status|error].
  - destruct Ht as [-> ->]. rewrite app_nil_r. eexists. split; [done|]. split; [exists signals; right; left; by exists status|].
    intros b a r. pose proof (signals_log_spawn (kill_pid id) signals b a r). set_solver.
  - destruct Ht as ([] & log3 & -> & -> & ->). rewrite <-app_assoc. eexists. split; [done|].
    split; [exists signals; right; right; by eexists error, _|].
    intros b a r. pose proof (signals_log_spawn (kill_pid id) signals b a r). set_solver.
Qed.

(** C27. A run of a plugin starts at most one process, and that one is an executable
    file [krabka-<name>] of a directory of [PATH], with the rest of the arguments. It
    then waits for its end, through every order of signals: SIGINT and SIGQUIT are left
    to the plugin, each SIGTERM is forwarded once, and the exit code is the plugin's
    own, or 128 and the signal that it died from. A run that starts none says that the
    command line, the file or the name is at fault. *)
Theorem plugins_supervised W (world : ∀ c : external_call, W → external_answer c * W) (w : W) fuel argv :
  supervised fuel argv (run (Σ := delegating) world (external_run fuel argv) w).1.1
    (run (Σ := delegating) world (external_run fuel argv) w).2.
Proof.
  pose proof (run_trace (Σ := delegating) world (external_run fuel argv) w) as Ht.
  destruct (run _ _ w) as [[o w'] log]. cbn [fst snd] in *. destruct argv as [|name args].
  { destruct Ht as [-> ->]. left. split; [intros ? ? ?; apply not_elem_of_nil|]. exists UsageExit. set_solver. }
  destruct Ht as (path & log1 & -> & Ht). cbn -[resolve_plugin supervise] in Ht. apply trace_bind_inv in Ht as (log2 & o2 & Hr & Ht).
  assert (∃ resolution, o2 = Done resolution ∧
    match resolution with
    | Executable binary => ∃ text dir mode, path = Some text ∧ dir ∈ split_char ":" text ∧ dir ≠ "" ∧
        binary = path_join dir (EXTERNAL_PREFIX +:+ name) ∧ (∃ entry, components (EXTERNAL_PREFIX +:+ name) = [Normal (EXTERNAL_PREFIX +:+ entry)]) ∧
        runs (Some mode) = true ∧ existT (XIsFile binary) (true : external_answer (XIsFile binary)) ∈ log2 ∧
        existT (XMode binary) (Some mode : external_answer (XMode binary)) ∈ log2
    | _ => True
    end ∧ (∀ b a r, existT (XSpawn b a) (r : external_answer (XSpawn b a)) ∉ log2)) as (resolution & -> & Hres & Hno).
  { unfold resolve_plugin in Hr. destruct (bool_decide _) eqn:Hl; cbn [negb orb] in Hr.
    - apply bool_decide_eq_true in Hl. case_bool_decide as Hn.
      { destruct Hr as [-> ->]. exists Missing. split_and!; [done..|]. intros ? ? ?. apply not_elem_of_nil. }
      apply resolve_in_trace in Hr as (res & -> & Hr & Hno). exists res. split_and!; [done| |done]. destruct res; [|done..].
      destruct path as [text|]; cbn in Hr; destruct Hr as (dir & mode & Hin & Hr); [|by apply elem_of_nil in Hin].
      exists text, dir, mode. pose proof (one_component name Hl Hn). naive_solver.
    - destruct Hr as [-> ->]. exists Missing. split_and!; [done..|]. intros ? ? ?. apply not_elem_of_nil. }
  destruct Ht as (log3 & -> & Ht). destruct resolution as [binary|binary|].
  - destruct Hres as (text & dir & mode & -> & Hdir & Hne & -> & Hc & Hm & Hf & Hmode). set (binary := path_join _ _) in *.
    apply trace_bind_inv in Ht as (log4 & o4 & (before & Hbefore & Hs)%supervise_trace & Ht).
    destruct Hs as [(error & -> & ->)|(answer & after & -> & Ha)].
    { destruct Ht as (log5 & -> & [] & log6 & -> & -> & ->). left. split; [|exists CannotExecute; set_solver].
      intros b a r. specialize (Hno b a r). specialize (Hbefore b a r). set_solver. }
    right. exists name, args, text, dir, mode, (log2 ++ before), binary, answer.
    assert (∃ after', log3 = before ++ existT (XSpawn binary args) answer :: after' ∧ child_ends fuel answer o after' ∧
      ∀ b a r, existT (XSpawn b a) (r : external_answer (XSpawn b a)) ∉ after') as (after' & -> & He & Hafter).
    { by apply (child_trace fuel binary args answer before after o4). }
    exists after'. rewrite <-app_assoc. split_and!; try done; [|set_solver..]. intros b a r.
    specialize (Hno b a r). specialize (Hbefore b a r). specialize (Hafter b a r). rewrite !elem_of_app. naive_solver.
  - destruct Ht as ([] & log4 & -> & -> & ->). left. split; [|exists CannotExecute; set_solver]. intros b a r Hin. set_solver.
  - destruct Ht as ([] & log4 & -> & [] & log5 & -> & -> & ->). left. split; [|exists NotFound; set_solver]. intros b a r Hin. set_solver.
Qed.

(** A child that exits gives its code, and one that a signal ends 128 and the
    signal, with or without a core dump. *)
Lemma exit_for_spec code signal (core : bool) :
  (0 ≤ code < 256 → exit_code (exit_for (code * 256)) = code) ∧
  (0 < signal < 127 → exit_code (exit_for (signal + if core then 128 else 0)) = 128 + signal).
Proof.
  split; intros Hr; unfold exit_for, status_code, status_signal; change 127 with (Z.ones 7); change 255 with (Z.ones 8);
    rewrite !Z.land_ones, ?Z.shiftr_div_pow2 by lia.
  - replace (code * 256) with ((code * 2) * 2 ^ 7) at 1 by lia. rewrite Z.mod_mul by lia. cbn [Z.eqb]. change (2 ^ 8) with 256. rewrite Z.div_mul, Z.mod_small by lia. done.
  - assert ((signal + if core then 128 else 0) mod 2 ^ 7 = signal) as ->.
    { destruct core; [replace 128 with (1 * 2 ^ 7) by done; rewrite Z.mod_add by done|rewrite Z.add_0_r]; apply Z.mod_small; lia. }
    rewrite (proj2 (Z.eqb_neq signal 0)) by lia. unfold wrap. rewrite Z.mod_small by lia.
    rewrite (proj2 (Z.leb_le _ _)) by lia. done.
Qed.

(** ** A run *)

Module Sample.
Definition is_file (path : string) : bool := bool_decide (path ∈ ["/opt/krabka-restore"; "/usr/bin/krabka-restore"]).
Definition mode (path : string) : option Z := Some (if bool_decide (path = "/opt/krabka-restore") then 33188 else 33261).
Definition seen : list Supervised := [Signalled Interrupt; Signalled Terminate; Exited (Ok 15)].
Definition world (c : external_call) (w : nat) : external_answer c * nat :=
  match c with
  | XPath => (Some ":/bin:/opt:/usr/bin", w)
  | XIsFile path => (is_file path, w)
  | XMode path => (mode path, w)
  | XPrint _ | XKill _ => (tt, w)
  | XSignal _ => (Ok tt, w)
  | XSpawn _ _ => (Ok (Some 4711), w)
  | XSelect => (default (Exited (Ok 0)) (seen !! w), S w)
  end.

Lemma resolve_first_witness :
  (run (Σ := delegating) world (resolve_plugin "restore" (Some ":/bin:/opt:/usr/bin")) O).1.1 = Done (Executable "/usr/bin/krabka-restore").
Proof.
  exact (proj1 (resolve_first world is_file mode (λ _ _, eq_refl) (λ _ _, eq_refl) "restore" (Some ":/bin:/opt:/usr/bin") O)).
Defined.

(** The plugin dies from the SIGTERM that is forwarded to it. *)
Example terminated :
  let '(o, _, log) := run (Σ := delegating) world (external_run 3 ["restore"; "--to-offset"; "42"]) O in
  o = Done (Signal 15) ∧ last (take 15 log) = last log ∧
  existT (XKill 4711) (tt : external_answer (XKill 4711)) ∈ log.
Proof. vm_compute. split_and!; [done..|]. do 13 (apply elem_of_cons; first [left; reflexivity|right]). Qed.

Example not_looked_up :
  map (λ name, length (components name)) ["restore"; "../restore"; "a/b"; ""; "a/"; "."; "/"] = [1; 2; 2; 0; 1; 1; 1]%nat.
Proof. vm_compute. reflexivity. Qed.

Example help_names_all :
  short_help = "Any subcommand that is not built in runs as `krabka-<name>` from PATH, such as `admin-ui`, `backup`, `barrier`, `guard`, `restore`. Run `krabka --help` for where each one ships from.".
Proof. vm_compute. reflexivity. Qed.
End Sample.
