(* ===== verification/Gres.v ===== *)
(** [gres.rs]: the tenants of Gres, their registry and their range layouts.

    The crates of Gres are parameters: [GresUnits] its quantities, [GresControl] the
    registry's records with their checks and renderers, [GresBalancer] the planner of
    balances. The registry, the admin client and the files are calls of the world
    [governing]. *)

From Stdlib Require Import Ascii.
From S2P Require Import Prelude Collections Rust Json KafkaErrors Output Admin Console Program AdminDto.

(** ** Numbers *)

(** [str::parse] of an unsigned integer up to [max]: the digits are read from the left. *)
Fixpoint read_digits (max acc : Z) (s : string) : result string Z :=
  match s with
  | EmptyString => Ok acc
  | String c s =>
      if negb (is_ascii_digit c) then Err "invalid digit found in string"
      else let acc := acc * 10 + digit_value c in
           if max <? acc then Err "number too large to fit in target type" else read_digits max acc s
  end.
Definition parse_unsigned (max : Z) (s : string) : result string Z :=
  match s with
  | EmptyString => Err "cannot parse integer from empty string"
  | String "+" EmptyString => Err "invalid digit found in string"
  | String "+" digits => read_digits max 0 digits
  | s => read_digits max 0 s
  end.

Definition u16_MAX : Z := 65535.
Definition u32_MAX : Z := 4294967295.
Definition u64_MAX : Z := 18446744073709551615.

(** ** The crates of Gres *)

Class GresUnits := {
  GresTime : Type;
  GresSize : Type;
  gres_byte_size : string → result string GresSize
}.

(** The fields of [RangeBoundary] and of [HashPlacement]. *)
Record RangeBoundary := { rb_table_id : Z; rb_bucket : option Z; rb_rowid : Z }.
Record HashPlacement := {
  hp_table_id : Z;
  hp_hash_columns : list string;
  hp_bucket_count : Z;
  hp_co_location_group : option string
}.

Inductive TenantState := Active | Suspended | Parking | ResumeRequested.
Inductive PgdogPoolerMode := PoolTransaction | PoolSession.
Inductive ExecutionPolicy := StopOnFailure | BestEffort.

Section Records.
Context `{GresUnits} {Lifecycle Retirement : Type}.

Record RangeLayoutEntry := {
  rl_range_id : Z;
  rl_end_key : option RangeBoundary;
  rl_endpoint : string;
  rl_wal_generation : Z;
  rl_lifecycle : Lifecycle;
  rl_retirement : option Retirement
}.
Record RangeLayoutSplit := {
  rs_source_range_id : Z;
  rs_predecessor_generation : Z;
  rs_left : RangeLayoutEntry;
  rs_right : RangeLayoutEntry
}.
Record SplitOperationPlan := {
  sp_source_record_version : Z;
  sp_source_map_epoch : Z;
  sp_routing_table_id : Z;
  sp_current_layout : list RangeLayoutEntry;
  sp_target_layout : list RangeLayoutEntry
}.
Record TenantRecord := {
  tn_record_version : Z;
  tn_id : string;
  tn_name : string;
  tn_state : TenantState;
  tn_sql_user : string;
  tn_scram_verifier : string;
  tn_wal_replication : Z;
  tn_bucket_prefix : option string;
  tn_checkpoint_frames : option Z;
  tn_checkpoint_size : option GresSize;
  tn_idle_seconds : option Z;
  tn_hash_placements : list HashPlacement;
  tn_ranges : list RangeLayoutEntry
}.
End Records.
Arguments RangeLayoutEntry : clear implicits.
Arguments RangeLayoutSplit : clear implicits.
Arguments SplitOperationPlan : clear implicits.
Arguments TenantRecord {_} Lifecycle Retirement.

(** What [PgdogRenderInput] holds, but for the [timeouts], which are always left out. *)
Record TenantEndpoint := { te_name : string; te_backend_host : string; te_backend_port : Z; te_state : TenantState;
  te_pooler_mode : option PgdogPoolerMode }.
Record PgdogUser := { pu_name : string; pu_database : string; pu_password : option string }.
Record PgdogRenderInput `{GresUnits} {Attempts : Type} := {
  pi_tenants : list TenantEndpoint;
  pi_activator : option (string * Z);
  pi_listen_port : Z;
  pi_tls : option string * option string * option string;
  pi_passthrough_auth : bool;
  pi_pooler_mode : PgdogPoolerMode;
  pi_cold_start_ceiling : GresTime;
  pi_connect_attempts : Attempts;
  pi_idle_timeout : GresTime;
  pi_server_lifetime : GresTime;
  pi_users : list PgdogUser
}.
Arguments PgdogRenderInput {_} Attempts.

(** The registry's crate. A [TenantName], a [TenantId] and a [SqlUser] are their
    texts. *)
Class GresControl `{GresUnits} := {
  Lifecycle : Type;
  Retirement : Type;
  Serving : Lifecycle;
  default_lifecycle : Lifecycle;
  Operation : Type;
  Attempts : Type;
  table_start : Z → RangeBoundary;
  boundary_new : Z → Z → RangeBoundary;
  boundary_hash : Z → Z → Z → RangeBoundary;
  boundary_ord : Ord RangeBoundary;
  tenant_name : string → result string string;
  tenant_id : string → result string string;
  sql_user : string → result string string;
  tenant_new : Z → string → string → TenantState → string → string → Z → result string (TenantRecord Lifecycle Retirement);
  ensure_valid : TenantRecord Lifecycle Retirement → result string unit;
  split_range_layout : TenantRecord Lifecycle Retirement → RangeLayoutSplit Lifecycle Retirement →
    result string (TenantRecord Lifecycle Retirement);
  operation_new : string → string → RangeLayoutSplit Lifecycle Retirement → result string Operation;
  operation_new_move : string → string → Z → Z → RangeLayoutEntry Lifecycle Retirement → result string Operation;
  with_plan : Operation → SplitOperationPlan Lifecycle Retirement → result string Operation;
  move_replacement : Operation → option (RangeLayoutEntry Lifecycle Retirement);
  operation_source : Operation → Z;
  operation_predecessor : Operation → Z;
  config_topic : string → string;
  render_pgdog_toml : PgdogRenderInput Attempts → result string string;
  render_users_toml : PgdogRenderInput Attempts → result string string;
  state_json : TenantState → Value;
  size_json : GresSize → Value;
  placement_json : HashPlacement → Value;
  range_json : RangeLayoutEntry Lifecycle Retirement → Value
}.
#[export] Existing Instance boundary_ord.

Class GresBalancer := {
  BalanceInput : Type;
  read_metrics : string → result string BalanceInput;
  BalancePlan : Type;
  plan_balance : BalanceInput → list string * BalancePlan;
  operations_json : BalancePlan → Value;
  ExecutionReport : Type;
  dry_run_report : BalancePlan → ExecutionReport;
  unsupported_report : BalancePlan → ExecutionPolicy → ExecutionReport;
  report_dry_run : ExecutionReport → bool;
  has_terminal_error : ExecutionReport → bool;
  report_json : ExecutionReport → Value
}.

(** The policy of the registry, as its builders make it from the options. *)
Class GresPolicy `{GresUnits} := {
  RegistryPolicy : Type;
  DispatchCapacity : Type;
  FrameMax : Type;
  FetchMin : Type;
  capacity_new : Z → result string DispatchCapacity;
  capacity_get : DispatchCapacity → Z;
  frame_max_of : GresSize → result string FrameMax;
  frame_max_size : FrameMax → GresSize;
  fetch_min_of : GresSize → result string FetchMin;
  fetch_min_size : FetchMin → GresSize;
  policy_new : Z → GresTime → GresTime → GresTime → GresSize → result string RegistryPolicy;
  default_producer_dns : GresTime;
  default_reader_dns : GresTime;
  with_producer_dns : RegistryPolicy → GresTime → result string RegistryPolicy;
  with_reader_dns : RegistryPolicy → GresTime → result string RegistryPolicy;
  with_client_resources : RegistryPolicy → DispatchCapacity → FrameMax → FetchMin → RegistryPolicy
}.

(** [serde_json::to_string_pretty]. *)
Class SerdePretty := { pretty_json : Value → result string string }.

Section Gres.
Context `{GresUnits} `{!GresControl} `{!GresPolicy} `{GresBalancer} `{SerdePretty} `{UnicodeTables}.

Abbreviation LayoutEntry := (RangeLayoutEntry Lifecycle Retirement).
Abbreviation Tenant := (TenantRecord Lifecycle Retirement).

(** ** Options *)

Definition DEFAULT_BACKEND_PORT : Z := 5432.

Record RegistryOptions := {
  ro_client_dispatch_queue_capacity : Z;
  ro_client_frame_max : GresSize;
  ro_registry_reader_fetch_min : GresSize;
  ro_replication_factor : Z;
  ro_topic_create_timeout : GresTime;
  ro_reader_retry_backoff : GresTime;
  ro_fetch_max_wait : GresTime;
  ro_fetch_partition_max : GresSize;
  ro_producer_dns_timeout : option GresTime;
  ro_reader_admin_dns_timeout : option GresTime
}.

(** [Result::expect]. *)
Definition expect_ok {A} (r : result string A) : outcome A := match r with Ok a => Done a | Err _ => Panic end.

(** [RegistryOptions::policy]. *)
Definition registry_policy (options : RegistryOptions) : outcome RegistryPolicy :=
  policy ← expect_ok (policy_new (ro_replication_factor options) (ro_topic_create_timeout options)
                        (ro_reader_retry_backoff options) (ro_fetch_max_wait options) (ro_fetch_partition_max options));
  policy ← expect_ok (with_producer_dns policy (default default_producer_dns (ro_producer_dns_timeout options)));
  policy ← expect_ok (with_reader_dns policy (default default_reader_dns (ro_reader_admin_dns_timeout options)));
  capacity ← expect_ok (capacity_new (ro_client_dispatch_queue_capacity options));
  frame_max ← expect_ok (frame_max_of (ro_client_frame_max options));
  fetch_min ← expect_ok (fetch_min_of (ro_registry_reader_fetch_min options));
  Done (with_client_resources policy capacity frame_max fetch_min).

Definition parse_client_dispatch_queue_capacity (value : string) : result string Z :=
  value ← parse_unsigned u64_MAX value;
  capacity_get <$> capacity_new value.
Definition parse_client_frame_max (value : string) : result string GresSize :=
  value ← gres_byte_size value;
  frame_max_size <$> frame_max_of value.
Definition parse_fetch_min (value : string) : result string GresSize :=
  value ← gres_byte_size value;
  fetch_min_size <$> fetch_min_of value.

Record CreateTenantArgs := {
  ct_bootstrap : string;
  ct_name : string;
  ct_sql_user : string;
  ct_password_file : option string;
  ct_password_stdin : bool;
  ct_wal_replication : Z;
  ct_scram_iterations : Z;
  ct_bucket_prefix : option string;
  ct_checkpoint_frames : option Z;
  ct_checkpoint_size : option GresSize;
  ct_idle_seconds : option Z;
  ct_ranges : option string;
  ct_hash_placements : list HashPlacement
}.
Record TenantNameArgs := { ta_bootstrap : string; ta_name : string }.
Record ProbeTopicReadArgs := { pt_bootstrap : string; pt_topic : string; pt_username : string; pt_password_file : string }.
Record RenderPgdogArgs := {
  rp_bootstrap : string;
  rp_out_dir : string;
  rp_activator : option (string * Z);
  rp_listen_port : Z;
  rp_tls_certificate : option string;
  rp_tls_private_key : option string;
  rp_tls_client_ca_certificate : option string;
  rp_pooler_mode : PgdogPoolerMode;
  rp_connect_attempts : Attempts;
  rp_cold_start_ceiling : GresTime;
  rp_idle_timeout : GresTime;
  rp_suspension_idle_timeout : GresTime;
  rp_server_lifetime : GresTime
}.
Record SplitRangeArgs := {
  sr_bootstrap : string;
  sr_tenant : string;
  sr_table : Z;
  sr_rowid : Z;
  sr_bucket : option Z;
  sr_operation_id : string;
  sr_left_range_id : option Z;
  sr_left_endpoint : option string;
  sr_successor_range_id : option Z;
  sr_successor_endpoint : option string;
  sr_successor_wal_generation : option Z
}.
Record MoveRangeArgs := {
  mr_bootstrap : string;
  mr_tenant : string;
  mr_source_range_id : Z;
  mr_table : Z;
  mr_operation_id : string;
  mr_replacement_range_id : Z;
  mr_replacement_endpoint : option string;
  mr_replacement_wal_generation : option Z
}.
Inductive BalanceExecuteMode := ModeDryRun | ModeValidate.

Inductive GresCommand :=
  | CreateTenant (args : CreateTenantArgs)
  | DescribeTenant (args : TenantNameArgs)
  | ListTenants (bootstrap : string)
  | SuspendTenant (args : TenantNameArgs)
  | ResumeTenant (args : TenantNameArgs)
  | SplitRange (args : SplitRangeArgs)
  | MoveRange (args : MoveRangeArgs)
  | DeleteTenant (args : TenantNameArgs)
  | RenderPgdog (args : RenderPgdogArgs)
  | BalanceDryRun (metrics_file : string)
  | BalanceApply (metrics_file : string) (execute_mode : BalanceExecuteMode) (continue_on_failure : bool)
  | ProbeTopicRead (args : ProbeTopicReadArgs).

(** ** Texts *)

Definition range_endpoint (tenant : string) (range_id : Z) : string :=
  tenant +:+ "-gres-r" +:+ pretty range_id +:+ ".gres.svc:" +:+ pretty DEFAULT_BACKEND_PORT.

Definition tenant_kafka_username (tenant : string) : string := "gres-" +:+ tenant.

(** [trim_single_trailing_newline]. *)
Definition trim_single_trailing_newline (value : string) : string :=
  match strip_suffix (String (ascii_of_nat 13) (String (ascii_of_nat 10) "")) value with
  | Some value => value
  | None => default value (strip_suffix newline value)
  end.

Definition range_boundary_key (boundary : RangeBoundary) : Z * Z * Z :=
  (rb_table_id boundary, default 0 (rb_bucket boundary), rb_rowid boundary).

(** The order of the keys, as tuples. *)
Definition key_lt (a b : Z * Z * Z) : bool :=
  let '(t, k, r) := a in
  let '(t', k', r') := b in
  (t <? t') || ((t =? t') && ((k <? k') || ((k =? k') && (r <? r')))).

Definition parse_range_boundary (token : string) : result string RangeBoundary :=
  let invalid error := "invalid --ranges boundary " +:+ debug_str token +:+ ": " +:+ error in
  match split_char ":" token with
  | [table] => table_start <$> map_err invalid (parse_unsigned u64_MAX table)
  | [table; rowid] =>
      table ← map_err invalid (parse_unsigned u64_MAX table);
      rowid ← map_err invalid (parse_unsigned u64_MAX rowid);
      Ok (boundary_new table rowid)
  | [table; bucket; rowid] =>
      table ← map_err invalid (parse_unsigned u64_MAX table);
      bucket ← map_err invalid (parse_unsigned u32_MAX bucket);
      rowid ← map_err invalid (parse_unsigned u64_MAX rowid);
      Ok (boundary_hash table bucket rowid)
  | _ => Err ("invalid --ranges boundary " +:+ debug_str token +:+ ": expected table, table:rowid, or table:bucket:rowid")
  end.

(** [windows(2).any]: a boundary is not above the one before. *)
Fixpoint out_of_order (boundaries : list RangeBoundary) : bool :=
  match boundaries with
  | a :: (b :: _) as rest => negb (key_lt (range_boundary_key a) (range_boundary_key b)) || out_of_order rest
  | _ => false
  end.

(** The entries from [index] on. *)
Fixpoint layout_entries (tenant : string) (index : Z) (boundaries : list RangeBoundary) : result string (list LayoutEntry) :=
  match boundaries with
  | [] => Ok []
  | _ :: rest =>
      if u32_MAX <? index then Err "too many ranges"
      else
        entries ← layout_entries tenant (index + 1) rest;
        Ok ({| rl_range_id := index; rl_end_key := head rest; rl_endpoint := range_endpoint tenant index;
               rl_wal_generation := 0; rl_lifecycle := default_lifecycle; rl_retirement := None |} :: entries)
  end.

#[local] Instance boundary_eq_dec : EqDecision RangeBoundary.
Proof. solve_decision. Defined.

Definition parse_range_layout (tenant : string) (ranges : option string) : result string (list LayoutEntry) :=
  match ranges with
  | None => Ok []
  | Some ranges =>
      boundaries ← try_map parse_range_boundary
                     (List.filter (λ token, negb (bool_decide (token = ""))) (map trim (split_char "," ranges)));
      match boundaries with
      | [] => Err "--ranges must contain at least one boundary"
      | first :: _ =>
          if negb (bool_decide (first = table_start 0)) || out_of_order boundaries then
            Err "--ranges boundaries must be strictly increasing and start at 0"
          else layout_entries tenant 0 boundaries
      end
  end.

Definition HASH_PLACEMENT_SHAPE : string := "hash placement must be TABLE:COLUMN[,COLUMN...]:BUCKETS[:COLOCATION_GROUP]".
Definition parse_hash_placement (value : string) : result string HashPlacement :=
  match split_char ":" value with
  | table_id :: hash_columns :: bucket_count :: co_location_group =>
      if bool_decide (1 < length co_location_group)%nat then Err HASH_PLACEMENT_SHAPE
      else
        table_id ← map_err (λ error, "invalid hash-placement table ID: " +:+ error) (parse_unsigned u64_MAX table_id);
        bucket_count ← map_err (λ error, "invalid hash-placement bucket count: " +:+ error) (parse_unsigned u32_MAX bucket_count);
        Ok {| hp_table_id := table_id; hp_hash_columns := map trim (split_char "," hash_columns);
              hp_bucket_count := bucket_count; hp_co_location_group := head co_location_group |}
  | _ => Err HASH_PLACEMENT_SHAPE
  end.

Definition parse_activator (value : string) : result string (string * Z) :=
  match rsplit_once ":" value with
  | None => Err "activator must be host:port"
  | Some (host, port) =>
      if bool_decide (host = "") then Err "activator host must not be empty"
      else
        port ← map_err (λ error, "activator port: " +:+ error) (parse_unsigned u16_MAX port);
        if port =? 0 then Err "activator port must be greater than zero" else Ok (host, port)
  end.

Definition parse_pgdog_pooler_mode (value : string) : result string PgdogPoolerMode :=
  if bool_decide (value = "transaction") then Ok PoolTransaction
  else if bool_decide (value = "session") then Ok PoolSession
  else Err "pooler mode must be transaction or session".

(** ** Ranges *)

(** The loop of [source_range_for_key]. *)
Fixpoint source_from (key previous_end : RangeBoundary) (ranges : list LayoutEntry) : option LayoutEntry :=
  match ranges with
  | [] => None
  | range :: ranges =>
      if negb (bool_decide (cmp key previous_end = Lt)) &&
         match rl_end_key range with None => true | Some upper => bool_decide (cmp key upper = Lt) end
      then Some range
      else source_from key (default previous_end (rl_end_key range)) ranges
  end.
Definition source_range_for_key (record : Tenant) (key : RangeBoundary) : result string LayoutEntry :=
  ok_or (source_from key (table_start 0) (tn_ranges record))
    ("key (" +:+ pretty (rb_table_id key) +:+ ", " +:+ pretty (rb_rowid key) +:+ ") is not covered by tenant " +:+ tn_name record).

(** [u32::saturating_add] and [u64::saturating_add]. *)
Definition saturating_u32 (a b : Z) : Z := Z.min u32_MAX (a + b).
Definition saturating_u64 (a b : Z) : Z := Z.min u64_MAX (a + b).

Definition next_range_id (record : Tenant) : Z :=
  saturating_u32 (foldr Z.max 0 (map rl_range_id (tn_ranges record))) 1.

Definition next_record_version (current : option Z) : result string Z :=
  match current with
  | None => Ok 1
  | Some version => if version + 1 <=? u64_MAX then Ok (version + 1) else Err "record version overflowed"
  end.

Definition split_boundary (record : Tenant) (table_id : Z) (bucket : option Z) (rowid : Z) : result string RangeBoundary :=
  match List.find (λ placement, hp_table_id placement =? table_id) (tn_hash_placements record), bucket with
  | Some placement, Some bucket =>
      if bucket <? hp_bucket_count placement then Ok (boundary_hash table_id bucket rowid)
      else Err "--bucket must be less than the table hash bucket count"
  | Some _, None => Err "--bucket is required for a hash-sharded table split"
  | None, Some _ => Err "--bucket is only valid for a hash-sharded table split"
  | None, None => Ok (boundary_new table_id rowid)
  end.

(** ** The world *)

(** [ClientSecurity] of a probe: SCRAM-SHA-512 without TLS. *)
Record ProbeSecurity := { ps_username : string; ps_password : string }.

Inductive gres_call :=
  | GReadFile (path : string)
  | GReadStdin
  | GCreateDir (path : string)
  | GWriteFile (path text : string)
  | GVerifier (password : string) (iterations : Z)
  | GConnect (bootstrap : string) (policy : RegistryPolicy)
  | GEnsureTopic (registry : nat)
  | GGet (registry : nat) (name : string)
  | GList (registry : nat)
  | GUpsertConfig (registry : nat) (record : Tenant) (replication : Z)
  | GReplace (registry : nat) (record : Tenant) (expected : option Z)
  | GMarkSuspended (registry : nat) (name : string)
  | GMarkActive (registry : nat) (name endpoint : string)
  | GDelete (registry : nat) (name : string)
  | GBeginSplit (registry : nat) (operation : Operation)
  | GAdmin (addrs : list string) (policy : RegistryPolicy)
  | GAdminSecured (addrs : list string) (security : ProbeSecurity)
  | GMetadata (admin : nat) (topics : list string)
  | GAlterScram (admin : nat) (upsertions : list ScramUpsertion) (deletions : list string)
  | GCreateAcls (admin : nat) (acls : list AclBinding).

(** The rows of an answer of the admin client carry a refusal each. *)
Definition gres_answer (c : gres_call) : Type :=
  match c with
  | GReadFile _ | GReadStdin | GVerifier _ _ => result string string
  | GConnect _ _ | GAdmin _ _ | GAdminSecured _ _ => result string nat
  | GGet _ _ => result string (option Tenant)
  | GList _ => result string (list Tenant)
  | GMetadata _ _ => result string (list TopicMetadata)
  | GAlterScram _ _ _ | GCreateAcls _ _ => result string (list (option KafkaError))
  | _ => result string unit
  end.

Definition governing : Signature := {| call := gres_call; answer := gres_answer |}.
Definition gcmd (A : Type) : Type := prog governing (result string A).
Definition govern (c : gres_call) : prog governing (gres_answer c) := ask (Σ := governing) c.

(** [?], and [map_err(..)?]. *)
Definition gbind {A B} (p : gcmd A) (f : A → gcmd B) : gcmd B :=
  prog_bind (λ r, match r with Ok a => f a | Err e => Halt (Done (Err e)) end) p.
#[local] Notation "x ←? p ; k" := (gbind p (λ x, k)) (at level 20, p at level 100, k at level 200).
Definition failing {A} (context : string) (p : gcmd A) : gcmd A :=
  prog_bind (λ r, Halt (Done (map_err (λ error, context +:+ error) r))) p.
Definition now {A} (r : result string A) : gcmd A := Halt (Done r).
(** A step that may panic. *)
Definition forced {A} (o : outcome A) : gcmd A := prog_bind (λ a, now (Ok a)) (Halt o).

(** ** Results *)

Definition option_json {A} (f : A → Value) (o : option A) : Value := match o with Some a => f a | None => Null end.

(** [RedactedTenantRecord], as it is serialised. *)
Definition redact_tenant (record : Tenant) : Value :=
  Object [("record_version", num (tn_record_version record)); ("id", Str (tn_id record)); ("name", Str (tn_name record));
          ("state", state_json (tn_state record)); ("sql_user", Str (tn_sql_user record));
          ("scram_verifier", Str "<redacted>"); ("wal_replication", num (tn_wal_replication record));
          ("bucket_prefix", option_json Str (tn_bucket_prefix record));
          ("checkpoint_frames", option_json num (tn_checkpoint_frames record));
          ("checkpoint_size", option_json size_json (tn_checkpoint_size record));
          ("idle_seconds", option_json num (tn_idle_seconds record));
          ("hash_placements", Array (map placement_json (tn_hash_placements record)));
          ("ranges", Array (map range_json (tn_ranges record)))].

Definition json_command_result (value : Value) : result string CommandResult :=
  text ← pretty_json value; Ok (success [text] (canonical value)).

(** ** The registry *)

Definition connect_registry (bootstrap : string) (policy : RegistryPolicy) : gcmd nat :=
  registry ←? govern (GConnect bootstrap policy);
  _ ←? govern (GEnsureTopic registry);
  now (Ok registry).

Definition describe_tenant (args : TenantNameArgs) (policy : RegistryPolicy) : gcmd CommandResult :=
  registry ←? connect_registry (ta_bootstrap args) policy;
  tenant ←? govern (GGet registry (ta_name args));
  tenant ←? now (ok_or tenant ("tenant " +:+ ta_name args +:+ " not found"));
  now (json_command_result (redact_tenant tenant)).

Definition list_tenants (bootstrap : string) (policy : RegistryPolicy) : gcmd CommandResult :=
  registry ←? connect_registry bootstrap policy;
  tenants ←? govern (GList registry);
  now (json_command_result (Array (map redact_tenant tenants))).

Definition change_tenant_state (args : TenantNameArgs) (state : TenantState) (policy : RegistryPolicy) : gcmd CommandResult :=
  registry ←? connect_registry (ta_bootstrap args) policy;
  _ ←? match state with
       | Suspended => govern (GMarkSuspended registry (ta_name args))
       | Active => govern (GMarkActive registry (ta_name args)
                             (ta_name args +:+ ".gres.svc:" +:+ pretty DEFAULT_BACKEND_PORT))
       | Parking => now (Err "tenant parking is managed by the controller while old WAL topics are deleted")
       | ResumeRequested => now (Err "tenant resume requests are created by the activator after it receives traffic")
       end;
  now (Ok (success ["updated tenant " +:+ ta_name args]
             (Object (bt_collect [("tenant", Str (ta_name args)); ("state", state_json state)])))).

Definition delete_tenant (args : TenantNameArgs) (policy : RegistryPolicy) : gcmd CommandResult :=
  registry ←? connect_registry (ta_bootstrap args) policy;
  _ ←? govern (GDelete registry (ta_name args));
  now (Ok (success ["deleted tenant " +:+ ta_name args]
             (Object (bt_collect [("tenant", Str (ta_name args)); ("deleted", Bool true)])))).

(** ** Creating a tenant *)

Definition read_password (args : CreateTenantArgs) : gcmd string :=
  password ←? match ct_password_file args with
              | Some path => failing "read password file: " (govern (GReadFile path))
              | None => if ct_password_stdin args then failing "read password stdin: " (govern GReadStdin)
                        else now (Err "password source is required")
              end;
  let password := trim_single_trailing_newline password in
  now (if bool_decide (password = "") then Err "password must not be empty" else Ok password).

(** The assignments to the fields of the record. *)
Definition with_options (args : CreateTenantArgs) (ranges : list LayoutEntry) (record : Tenant) : Tenant :=
  {| tn_record_version := tn_record_version record; tn_id := tn_id record; tn_name := tn_name record;
     tn_state := tn_state record; tn_sql_user := tn_sql_user record; tn_scram_verifier := tn_scram_verifier record;
     tn_wal_replication := tn_wal_replication record; tn_bucket_prefix := ct_bucket_prefix args;
     tn_checkpoint_frames := ct_checkpoint_frames args; tn_checkpoint_size := ct_checkpoint_size args;
     tn_idle_seconds := ct_idle_seconds args; tn_hash_placements := ct_hash_placements args; tn_ranges := ranges |}.

(** [u32::try_from(..).expect(..)] of the iterations. *)
Definition iterations_u32 (iterations : Z) : outcome Z :=
  if (0 <=? iterations) && (iterations <=? u32_MAX) then Done iterations else Panic.

Definition build_create_tenant_record (args : CreateTenantArgs) (password : string) (record_version : Z) : gcmd Tenant :=
  name ←? now (tenant_name (ct_name args));
  id ←? now (tenant_id (ct_name args));
  user ←? now (sql_user (ct_sql_user args));
  iterations ←? forced (iterations_u32 (ct_scram_iterations args));
  verifier ←? govern (GVerifier password iterations);
  now (ranges ← parse_range_layout name (ct_ranges args);
       record ← tenant_new record_version id name Active user verifier (ct_wal_replication args);
       let record := with_options args ranges record in
       _ ← ensure_valid record;
       Ok record).

(** An entry of [tenant_acls]. *)
Definition allow (principal : string) (resource_type : AclResourceType) (resource_name : string)
    (pattern_type : AclPatternType) (operation : WireOperation) : AclBinding :=
  {| ab_resource_type := resource_type; ab_resource_name := resource_name; ab_pattern_type := pattern_type;
     ab_principal := principal; ab_host := "*"; ab_operation := operation; ab_permission_type := AclAllow |}.

Definition tenant_acls (principal tenant : string) : list AclBinding :=
  concat (map (λ '(resource_name, pattern_type),
                 map (allow principal AclTopic resource_name pattern_type) [OpRead; OpWrite; OpCreate; OpDelete; OpDescribe])
            [("__gres_wal." +:+ tenant +:+ ".", AclPrefixed); (config_topic tenant, AclLiteral)]) ++
  map (allow principal AclTransactionalId ("__gres." +:+ tenant +:+ ".") AclPrefixed) [OpWrite; OpDescribe] ++
  [allow principal AclCluster "kafka-cluster" AclLiteral OpIdempotentWrite].

Definition bootstrap_list (bootstrap : string) : list string :=
  List.filter (λ address, negb (bool_decide (address = ""))) (map trim (split_char "," bootstrap)).

Definition provision_tenant_kafka_access (bootstrap tenant password : string) (scram_iterations : Z) (policy : RegistryPolicy)
    : gcmd unit :=
  let addrs := bootstrap_list bootstrap in
  if bool_decide (addrs = []) then now (Err "bootstrap address list must not be empty")
  else
    let username := tenant_kafka_username tenant in
    admin ←? failing "tenant Kafka admin connect: " (govern (GAdmin addrs policy));
    _ ←? failing "tenant Kafka SCRAM provision: " (govern (GAlterScram admin
           [{| su_username := username; su_password := password; su_iterations := scram_iterations |}] []));
    _ ←? failing "tenant Kafka ACL provision: " (govern (GCreateAcls admin (tenant_acls ("User:" +:+ username) tenant)));
    now (Ok tt).

Definition create_tenant (args : CreateTenantArgs) (policy : RegistryPolicy) : gcmd CommandResult :=
  password ←? read_password args;
  registry ←? connect_registry (ct_bootstrap args) policy;
  current ←? govern (GGet registry (ct_name args));
  let expected := tn_record_version <$> current in
  record_version ←? now (next_record_version expected);
  record ←? build_create_tenant_record args password record_version;
  _ ←? govern (GUpsertConfig registry record (ct_wal_replication args));
  _ ←? provision_tenant_kafka_access (ct_bootstrap args) (tn_name record) password (ct_scram_iterations args) policy;
  _ ←? govern (GReplace registry record expected);
  found ←? govern (GGet registry (ct_name args));
  record ←? now (ok_or found ("tenant " +:+ ct_name args +:+ " disappeared after replacement"));
  now (Ok (success ["created tenant " +:+ tn_name record] (canonical (redact_tenant record)))).

(** ** Splits and moves *)

(** The split that [split_range] plans, from the record that it read. *)
Definition planned_split (args : SplitRangeArgs) (tenant : string) (record : Tenant) (boundary : RangeBoundary) (source : LayoutEntry)
    : RangeLayoutSplit Lifecycle Retirement :=
  let first_free := next_range_id record in
  let left_range_id := default (if rl_range_id source =? 0 then 0 else first_free) (sr_left_range_id args) in
  let successor_range_id := default (Z.max first_free (saturating_u32 left_range_id 1)) (sr_successor_range_id args) in
  let left_endpoint := default (if left_range_id =? rl_range_id source then rl_endpoint source
                                else range_endpoint tenant left_range_id) (sr_left_endpoint args) in
  let successor_endpoint := default (range_endpoint tenant successor_range_id) (sr_successor_endpoint args) in
  let wal_generation := default (saturating_u64 (rl_wal_generation source) 1) (sr_successor_wal_generation args) in
  let successor range_id end_key endpoint :=
    {| rl_range_id := range_id; rl_end_key := end_key; rl_endpoint := endpoint; rl_wal_generation := wal_generation;
       rl_lifecycle := Serving; rl_retirement := None |} in
  {| rs_source_range_id := rl_range_id source; rs_predecessor_generation := rl_wal_generation source;
     rs_left := successor left_range_id (Some boundary) left_endpoint;
     rs_right := successor successor_range_id (rl_end_key source) successor_endpoint |}.

(** [SplitOperationPlan] of a record and the layout that it comes to. *)
Definition operation_plan (record : Tenant) (table : Z) (target : list LayoutEntry) : SplitOperationPlan Lifecycle Retirement :=
  {| sp_source_record_version := tn_record_version record; sp_source_map_epoch := tn_record_version record;
     sp_routing_table_id := table; sp_current_layout := tn_ranges record; sp_target_layout := target |}.

(** The operation of a split. *)
Definition split_operation (args : SplitRangeArgs) (tenant : string) (record : Tenant)
    : result string (RangeLayoutSplit Lifecycle Retirement * Operation) :=
  boundary ← split_boundary record (sr_table args) (sr_bucket args) (sr_rowid args);
  source ← source_range_for_key record boundary;
  let split := planned_split args tenant record boundary source in
  target ← split_range_layout record split;
  operation ← operation_new tenant (sr_operation_id args) split;
  operation ← with_plan operation (operation_plan record (sr_table args) (tn_ranges target));
  Ok (split, operation).

Definition debug_bucket (bucket : option Z) : string :=
  match bucket with Some bucket => "Some(" +:+ pretty bucket +:+ ")" | None => "None" end.

Definition split_range (args : SplitRangeArgs) (policy : RegistryPolicy) : gcmd CommandResult :=
  tenant ←? now (tenant_name (sr_tenant args));
  registry ←? connect_registry (sr_bootstrap args) policy;
  record ←? govern (GGet registry tenant);
  record ←? now (ok_or record ("tenant " +:+ tenant +:+ " not found"));
  planned ←? now (split_operation args tenant record);
  let '(split, operation) := planned in
  _ ←? govern (GBeginSplit registry operation);
  let left := rl_range_id (rs_left split) in
  let right := rl_range_id (rs_right split) in
  now (Ok (success
    ["initiated split " +:+ sr_operation_id args +:+ " for tenant " +:+ tenant +:+ " range " +:+
     pretty (rs_source_range_id split) +:+ " at table " +:+ pretty (sr_table args) +:+ " bucket " +:+
     debug_bucket (sr_bucket args) +:+ " rowid " +:+ pretty (sr_rowid args) +:+ " into ranges " +:+ pretty left +:+ " and " +:+
     pretty right]
    (Object (bt_collect [("operationId", Str (sr_operation_id args)); ("tenant", Str tenant);
      ("sourceRangeId", num (rs_source_range_id split)); ("leftRangeId", num left); ("rightRangeId", num right)])))).

Definition build_move_operation (tenant : string) (record : Tenant) (args : MoveRangeArgs) : result string Operation :=
  match list_find (λ range, rl_range_id range = mr_source_range_id args) (tn_ranges record) with
  | None => Err ("range " +:+ pretty (mr_source_range_id args) +:+ " is not in tenant " +:+ tenant)
  | Some (source_index, source) =>
      if (mr_replacement_range_id args =? rl_range_id source) ||
         existsb (λ range, rl_range_id range =? mr_replacement_range_id args) (tn_ranges record)
      then Err "replacement range id must be fresh and differ from the predecessor"
      else
        let replacement :=
          {| rl_range_id := mr_replacement_range_id args; rl_end_key := rl_end_key source;
             rl_endpoint := default (range_endpoint tenant (mr_replacement_range_id args)) (mr_replacement_endpoint args);
             rl_wal_generation := default (saturating_u64 (rl_wal_generation source) 1) (mr_replacement_wal_generation args);
             rl_lifecycle := Serving; rl_retirement := None |} in
        operation ← operation_new_move tenant (mr_operation_id args) (rl_range_id source) (rl_wal_generation source) replacement;
        with_plan operation (operation_plan record (mr_table args) (<[source_index := replacement]> (tn_ranges record)))
  end.

Definition move_range (args : MoveRangeArgs) (policy : RegistryPolicy) : gcmd CommandResult :=
  tenant ←? now (tenant_name (mr_tenant args));
  registry ←? connect_registry (mr_bootstrap args) policy;
  record ←? govern (GGet registry tenant);
  record ←? now (ok_or record ("tenant " +:+ tenant +:+ " not found"));
  operation ←? now (build_move_operation tenant record args);
  replacement ←? forced (match move_replacement operation with Some entry => Done entry | None => Panic end);
  _ ←? govern (GBeginSplit registry operation);
  now (Ok (success
    ["initiated move " +:+ mr_operation_id args +:+ " for tenant " +:+ tenant +:+ " range " +:+
     pretty (operation_source operation) +:+ " generation " +:+ pretty (operation_predecessor operation) +:+ " to range " +:+
     pretty (rl_range_id replacement) +:+ " generation " +:+ pretty (rl_wal_generation replacement)]
    (Object (bt_collect [("operationId", Str (mr_operation_id args)); ("tenant", Str tenant);
      ("sourceRangeId", num (operation_source operation)); ("replacementRangeId", num (rl_range_id replacement))])))).

(** ** Probing a topic *)

(** [trim_end_matches] of the characters of a line ending. *)
Fixpoint trim_line_ends (s : string) : string :=
  match s with
  | EmptyString => ""
  | String c s =>
      let rest := trim_line_ends s in
      if bool_decide (rest = "") && ((byte_of c =? 13) || (byte_of c =? 10)) then "" else String c rest
  end.

Definition probe_topic_read (args : ProbeTopicReadArgs) : gcmd CommandResult :=
  password ←? failing "read Kafka password file: " (govern (GReadFile (pt_password_file args)));
  let password := trim_line_ends password in
  if bool_decide (password = "") then now (Err "Kafka password file is empty")
  else
    admin ←? failing "Kafka probe connect: " (govern (GAdminSecured (bootstrap_list (pt_bootstrap args))
               {| ps_username := pt_username args; ps_password := password |}));
    topics ←? failing "Kafka probe metadata: " (govern (GMetadata admin [pt_topic args]));
    topic ←? now (ok_or (List.find (λ topic, bool_decide (metadata_name topic = pt_topic args)) topics)
               ("Kafka probe response omitted topic " +:+ pt_topic args));
    now match metadata_error topic with
        | Some error => Err ("topic " +:+ pt_topic args +:+ " metadata: " +:+ error_name error +:+ " (" +:+
                             pretty (error_code error) +:+ ")")
        | None => Ok (success ["topic " +:+ pt_topic args +:+ " is readable"]
                        (Object (bt_collect [("topic", Str (pt_topic args)); ("readable", Bool true)])))
        end.

(** ** Balancing *)

Definition mode_name (mode : BalanceExecuteMode) : string :=
  match mode with ModeDryRun => "dry-run" | ModeValidate => "validate" end.
Definition execution_policy (continue_on_failure : bool) : ExecutionPolicy :=
  if continue_on_failure then BestEffort else StopOnFailure.
Definition execution_policy_name (policy : ExecutionPolicy) : string :=
  match policy with StopOnFailure => "stop-on-failure" | BestEffort => "best-effort" end.

Definition read_balance_input (path : string) : gcmd BalanceInput :=
  text ←? (if bool_decide (path = "-") then failing "read metrics stdin: " (govern GReadStdin)
           else failing "read metrics file: " (govern (GReadFile path)));
  now (map_err (λ error, "parse metrics JSON: " +:+ error) (read_metrics text)).

(** [BalanceDryRunOutput] and [BalanceApplyOutput], as they are serialised. *)
Definition plan_balance_dry_run (input : BalanceInput) : Value :=
  let '(goals_applied, plan) := plan_balance input in
  Object [("dryRun", Bool true); ("goalsApplied", Array (map Str goals_applied)); ("operations", operations_json plan)].

Definition plan_balance_apply (input : BalanceInput) (mode : BalanceExecuteMode) (policy : ExecutionPolicy)
    : list string * ExecutionReport :=
  let '(goals_applied, plan) := plan_balance input in
  (goals_applied, match mode with ModeDryRun => dry_run_report plan | ModeValidate => unsupported_report plan policy end).

Definition balance_apply_output (mode : BalanceExecuteMode) (policy : ExecutionPolicy) (goals_applied : list string)
    (report : ExecutionReport) : Value :=
  Object [("dryRun", Bool (report_dry_run report)); ("executeMode", Str (mode_name mode));
          ("executionPolicy", Str (execution_policy_name policy)); ("goalsApplied", Array (map Str goals_applied));
          ("report", report_json report)].

Definition balance_dry_run (metrics_file : string) : gcmd CommandResult :=
  input ←? read_balance_input metrics_file;
  now (json_command_result (plan_balance_dry_run input)).

Definition balance_apply (metrics_file : string) (mode : BalanceExecuteMode) (continue_on_failure : bool) : gcmd CommandResult :=
  input ←? read_balance_input metrics_file;
  let policy := execution_policy continue_on_failure in
  let '(goals_applied, report) := plan_balance_apply input mode policy in
  if has_terminal_error report then
    now (Err (mode_name mode +:+ " mode found unsupported or failed balance operations; policy is " +:+
              execution_policy_name policy))
  else now (json_command_result (balance_apply_output mode policy goals_applied report)).

(** ** Rendering *)

Definition tenant_endpoint (record : Tenant) : TenantEndpoint :=
  {| te_name := tn_name record; te_backend_host := tn_name record +:+ ".gres.svc"; te_backend_port := DEFAULT_BACKEND_PORT;
     te_state := tn_state record; te_pooler_mode := None |}.

#[local] Instance TenantState_eq_dec : EqDecision TenantState.
Proof. solve_decision. Defined.

(** Whether a tenant may suspend while the files are in use. *)
Definition may_suspend (args : RenderPgdogArgs) (record : Tenant) : bool :=
  match tn_idle_seconds record with Some seconds => 0 <? seconds | None => false end &&
  (bool_decide (tn_state record = Active) || is_some (rp_activator args)).

Definition pgdog_input (records : list Tenant) (args : RenderPgdogArgs) : PgdogRenderInput Attempts :=
  {| pi_tenants := map tenant_endpoint records; pi_activator := rp_activator args; pi_listen_port := rp_listen_port args;
     pi_tls := (from_utf8_lossy <$> rp_tls_certificate args, from_utf8_lossy <$> rp_tls_private_key args,
                from_utf8_lossy <$> rp_tls_client_ca_certificate args);
     pi_passthrough_auth := true; pi_pooler_mode := rp_pooler_mode args; pi_cold_start_ceiling := rp_cold_start_ceiling args;
     pi_connect_attempts := rp_connect_attempts args;
     pi_idle_timeout := if existsb (may_suspend args) records then rp_suspension_idle_timeout args else rp_idle_timeout args;
     pi_server_lifetime := rp_server_lifetime args;
     pi_users := map (λ record, {| pu_name := tn_sql_user record; pu_database := tn_name record; pu_password := None |}) records |}.

Definition render_pgdog_files (records : list Tenant) (args : RenderPgdogArgs) : gcmd unit :=
  _ ←? failing "create output directory: " (govern (GCreateDir (rp_out_dir args)));
  let input := pgdog_input records args in
  pgdog ←? now (render_pgdog_toml input);
  users ←? now (render_users_toml input);
  _ ←? failing "write pgdog.toml: " (govern (GWriteFile (path_join (rp_out_dir args) "pgdog.toml") pgdog));
  failing "write users.toml: " (govern (GWriteFile (path_join (rp_out_dir args) "users.toml") users)).

Definition render_pgdog (args : RenderPgdogArgs) (policy : RegistryPolicy) : gcmd CommandResult :=
  registry ←? connect_registry (rp_bootstrap args) policy;
  tenants ←? govern (GList registry);
  _ ←? render_pgdog_files tenants args;
  now (Ok (success ["rendered PgDog configuration in " +:+ from_utf8_lossy (rp_out_dir args)]
             (Object (bt_collect [("outputDirectory", Str (rp_out_dir args));
                                  ("tenantCount", num (Z.of_nat (length tenants)))])))).

(** ** The command *)

(** [execute]. *)
Definition gres_run (options : RegistryOptions) (command : GresCommand) : gcmd CommandResult :=
  policy ←? forced (registry_policy options);
  match command with
  | CreateTenant args => create_tenant args policy
  | DescribeTenant args => describe_tenant args policy
  | ListTenants bootstrap => list_tenants bootstrap policy
  | SuspendTenant args => change_tenant_state args Suspended policy
  | ResumeTenant args => change_tenant_state args Active policy
  | SplitRange args => split_range args policy
  | MoveRange args => move_range args policy
  | DeleteTenant args => delete_tenant args policy
  | RenderPgdog args => render_pgdog args policy
  | BalanceDryRun metrics_file => balance_dry_run metrics_file
  | BalanceApply metrics_file mode continue_on_failure => balance_apply metrics_file mode continue_on_failure
  | ProbeTopicRead args => probe_topic_read args
  end.

(** ** What a command asks for *)

Abbreviation seen c r past := (existT c (r : gres_answer c) ∈ (past : list (event governing))).

(** The password of a tenant, as it was read. *)
Definition password_read (args : CreateTenantArgs) (password : string) (past : list (event governing)) : Prop :=
  password ≠ "" ∧ ∃ text, password = trim_single_trailing_newline text ∧
    match ct_password_file args with
    | Some path => seen (GReadFile path) (Ok text) past
    | None => seen GReadStdin (Ok text) past
    end.

(** The record of a tenant, as it was built: over the version of the record that the
    registry held, which [expected] is. *)
Definition tenant_built (args : CreateTenantArgs) (registry : nat) (password : string) (record : Tenant) (expected : option Z)
    (past : list (event governing)) : Prop :=
  ∃ current version name id user verifier ranges new,
    password_read args password past ∧ seen (GGet registry (ct_name args)) (Ok current) past ∧
    expected = tn_record_version <$> current ∧ next_record_version expected = Ok version ∧
    tenant_name (ct_name args) = Ok name ∧ tenant_id (ct_name args) = Ok id ∧ sql_user (ct_sql_user args) = Ok user ∧
    seen (GVerifier password (ct_scram_iterations args)) (Ok verifier) past ∧
    parse_range_layout name (ct_ranges args) = Ok ranges ∧
    tenant_new version id name Active user verifier (ct_wal_replication args) = Ok new ∧
    record = with_options args ranges new ∧ ensure_valid record = Ok tt.

Definition config_stored (args : CreateTenantArgs) (registry : nat) (password : string) (record : Tenant) (expected : option Z)
    (past : list (event governing)) : Prop :=
  tenant_built args registry password record expected past ∧
  seen (GUpsertConfig registry record (ct_wal_replication args)) (Ok tt) past.

(** The credentials of a tenant. *)
Definition tenant_upsertion (args : CreateTenantArgs) (password : string) (record : Tenant) : ScramUpsertion :=
  {| su_username := tenant_kafka_username (tn_name record); su_password := password; su_iterations := ct_scram_iterations args |}.
Definition granted_acls (record : Tenant) : list AclBinding :=
  tenant_acls ("User:" +:+ tenant_kafka_username (tn_name record)) (tn_name record).

Definition gres_allowed (command : GresCommand) (past : list (event governing)) (c : gres_call) : Prop :=
  match c with
  | GCreateDir path => ∃ args, command = RenderPgdog args ∧ path = rp_out_dir args
  | GWriteFile path text => ∃ args registry tenants, command = RenderPgdog args ∧ seen (GList registry) (Ok tenants) past ∧
      (path = path_join (rp_out_dir args) "pgdog.toml" ∧ render_pgdog_toml (pgdog_input tenants args) = Ok text ∨
       path = path_join (rp_out_dir args) "users.toml" ∧ render_users_toml (pgdog_input tenants args) = Ok text)
  | GUpsertConfig registry record replication => ∃ args password expected, command = CreateTenant args ∧
      replication = ct_wal_replication args ∧ tenant_built args registry password record expected past
  | GAlterScram admin upsertions deletions => ∃ args registry password record expected, command = CreateTenant args ∧
      config_stored args registry password record expected past ∧ upsertions = [tenant_upsertion args password record] ∧
      deletions = []
  | GCreateAcls admin acls => ∃ args registry password record expected rows, command = CreateTenant args ∧
      config_stored args registry password record expected past ∧ acls = granted_acls record ∧
      seen (GAlterScram admin [tenant_upsertion args password record] []) (Ok rows) past
  | GReplace registry record expected => ∃ args password admin rows rows', command = CreateTenant args ∧
      config_stored args registry password record expected past ∧
      seen (GAlterScram admin [tenant_upsertion args password record] []) (Ok rows) past ∧
      seen (GCreateAcls admin (granted_acls record)) (Ok rows') past
  | GMarkSuspended registry name => ∃ args, command = SuspendTenant args ∧ name = ta_name args
  | GMarkActive registry name endpoint => ∃ args, command = ResumeTenant args ∧ name = ta_name args ∧
      endpoint = ta_name args +:+ ".gres.svc:5432"
  | GDelete registry name => ∃ args, command = DeleteTenant args ∧ name = ta_name args
  | GBeginSplit registry operation =>
      (∃ args tenant record split, command = SplitRange args ∧ tenant_name (sr_tenant args) = Ok tenant ∧
         seen (GGet registry tenant) (Ok (Some record)) past ∧ split_operation args tenant record = Ok (split, operation)) ∨
      (∃ args tenant record, command = MoveRange args ∧ tenant_name (mr_tenant args) = Ok tenant ∧
         seen (GGet registry tenant) (Ok (Some record)) past ∧ build_move_operation tenant record args = Ok operation)
  | _ => True
  end.

Abbreviation allowed command past p := (monitored (Σ := governing) (history (Σ := governing) (gres_allowed command)) past p (λ _ _, True)).

(** A step that ends with its error, and one that goes on. *)
Lemma allowed_bind {A B} command past (p : gcmd A) (f : A → gcmd B) (P : list (event governing) → A → Prop) :
  monitored (Σ := governing) (history (Σ := governing) (gres_allowed command)) past p
    (λ past' o, match o with Done (Ok a) => P past' a | _ => True end) →
  (∀ past' a, P past' a → allowed command past' (f a)) → allowed command past (gbind p f).
Proof.
  intros Hp Hf. apply monitored_bind. eapply monitored_mono; [exact Hp|]. intros past' [[a|e]| |] Ha; [by apply Hf|done..].
Qed.

Lemma allowed_now {A B} command past (r : result string A) (f : A → gcmd B) :
  (∀ a, r = Ok a → allowed command past (f a)) → allowed command past (gbind (now r) f).
Proof. intros Hf. destruct r; [by apply Hf|done]. Qed.

Lemma allowed_forced {A B} command past (o : outcome A) (f : A → gcmd B) :
  (∀ a, o = Done a → allowed command past (f a)) → allowed command past (gbind (forced o) f).
Proof. intros Hf. destruct o; [by apply Hf|done..]. Qed.

(** The registry is connected, and the past grows. *)
Lemma allowed_connect {B} command past bootstrap policy (f : nat → gcmd B) :
  (∀ past' registry, past ⊆ past' → allowed command past' (f registry)) →
  allowed command past (gbind (connect_registry bootstrap policy) f).
Proof.
  intros Hf. apply (allowed_bind _ _ _ _ (λ past' _, past ⊆ past')); [|auto].
  cbn. split; [done|]. intros [registry|e]; cbn; [|done]. split; [done|]. intros [[]|e]; cbn; [|done]. set_solver.
Qed.

(** ** Each command *)

(** What was seen stays seen. *)
Lemma seen_mono c r past past' : past ⊆ past' → seen c r past → seen c r past'.
Proof. intros Hp Hs. by apply Hp. Qed.

Lemma password_read_mono args password past past' : past ⊆ past' → password_read args password past → password_read args password past'.
Proof.
  intros Hp (Hne & text & Ht & Hread). split; [done|]. exists text. split; [done|].
  destruct (ct_password_file args); by eapply seen_mono.
Qed.

Lemma tenant_built_mono args registry password record expected past past' :
  past ⊆ past' → tenant_built args registry password record expected past → tenant_built args registry password record expected past'.
Proof.
  intros Hp (current & version & name & id & user & verifier & ranges & new & Hread & Hget & ? & ? & ? & ? & ? & Hv & ?).
  exists current, version, name, id, user, verifier, ranges, new.
  split_and!; first [by eapply password_read_mono|by eapply seen_mono|naive_solver].
Qed.

Lemma config_stored_mono args registry password record expected past past' :
  past ⊆ past' → config_stored args registry password record expected past → config_stored args registry password record expected past'.
Proof. intros Hp [Hb Hs]. split; [by eapply tenant_built_mono|by eapply seen_mono]. Qed.

Lemma read_password_read command past args :
  monitored (Σ := governing) (history (Σ := governing) (gres_allowed command)) past (read_password args)
    (λ past' o, match o with Done (Ok password) => password_read args password past' | _ => True end).
Proof.
  unfold read_password, password_read. destruct (ct_password_file args) as [path|]; [|destruct (ct_password_stdin args); [|done]];
    (split; [done|]); intros [text|e]; cbn; try done; case_bool_decide as Hne; try done; (split; [done|]); exists text;
    (split; [done|]); set_solver.
Qed.

Lemma build_record_built command past args registry password current version :
  password_read args password past → seen (GGet registry (ct_name args)) (Ok current) past →
  next_record_version (tn_record_version <$> current) = Ok version →
  monitored (Σ := governing) (history (Σ := governing) (gres_allowed command)) past (build_create_tenant_record args password version)
    (λ past' o, match o with
                | Done (Ok record) => past ⊆ past' ∧ tenant_built args registry password record (tn_record_version <$> current) past'
                | _ => True
                end).
Proof.
  intros Hp Hg Hv. unfold build_create_tenant_record.
  destruct (tenant_name (ct_name args)) as [name|] eqn:En; [|done]. destruct (tenant_id (ct_name args)) as [id|] eqn:Ei; [|done].
  destruct (sql_user (ct_sql_user args)) as [user|] eqn:Eu; [|done]. unfold iterations_u32. destruct (_ && _); [|done].
  cbn. split; [done|]. intros [verifier|e]; [|done]. cbn.
  destruct (parse_range_layout name (ct_ranges args)) as [ranges|] eqn:Er; [|done]. cbn.
  destruct (tenant_new _ _ _ _ _ _ _) as [new|] eqn:Et; [|done]. cbn.
  destruct (ensure_valid (with_options args ranges new)) as [[]|] eqn:Ev; [|done]. cbn. split; [set_solver|].
  exists current, version, name, id, user, verifier, ranges, new. split_and!; try done; [|set_solver..].
  eapply password_read_mono; [|exact Hp]. set_solver.
Qed.

Lemma create_tenant_allowed args policy past : allowed (CreateTenant args) past (create_tenant args policy).
Proof.
  unfold create_tenant. eapply allowed_bind; [apply read_password_read|]. intros past1 password Hp. cbn beta in Hp.
  apply allowed_connect. intros past2 registry H12. split; [done|]. intros [current|e]; [|done]. cbn [gbind prog_bind after history].
  set (past3 := past2 ++ _). assert (password_read args password past3) as Hp3.
  { eapply password_read_mono; [|exact Hp]. set_solver. }
  apply allowed_now. intros version Hv.
  eapply allowed_bind; [apply (build_record_built _ _ _ registry _ current); [done|set_solver|done]|].
  intros past4 record [H34 Hb]. cbn beta in Hb. split; [by exists args, password, (tn_record_version <$> current)|].
  intros [[]|e]; [|done]. cbn [gbind prog_bind after history]. set (past5 := past4 ++ _).
  assert (config_stored args registry password record (tn_record_version <$> current) past5) as Hc.
  { split; [eapply tenant_built_mono; [|exact Hb]; set_solver|set_solver]. }
  unfold provision_tenant_kafka_access. case_bool_decide; [done|]. split; [done|]. intros [admin|e]; [|done].
  cbn. split; [exists args, registry, password, record, (tn_record_version <$> current);
    split_and!; [done|eapply config_stored_mono; [|exact Hc]; set_solver|done..]|].
  intros [rows|e]; [|done]. cbn.
  split; [exists args, registry, password, record, (tn_record_version <$> current), rows;
    split_and!; [done|eapply config_stored_mono; [|exact Hc]; set_solver|done|set_solver]|].
  intros [rows'|e]; [|done]. cbn.
  split; [exists args, password, admin, rows, rows';
    split_and!; [done|eapply config_stored_mono; [|exact Hc]; set_solver|set_solver|set_solver]|].
  intros [[]|e]; [|done]. cbn. split; [done|]. intros [[found|]|e]; done.
Qed.

Lemma split_range_allowed args policy past : allowed (SplitRange args) past (split_range args policy).
Proof.
  unfold split_range. apply allowed_now. intros tenant Ht. apply allowed_connect. intros past1 registry Hpast.
  split; [done|]. intros [[record|]|e]; [|done..]. cbn [gbind prog_bind ok_or]. apply allowed_now. intros a [= ->].
  apply allowed_now. intros [split operation] Hs. split; [|by intros [[]|e]].
  left. exists args, tenant, a, split. split_and!; [done..|set_solver|done].
Qed.

Lemma move_range_allowed args policy past : allowed (MoveRange args) past (move_range args policy).
Proof.
  unfold move_range. apply allowed_now. intros tenant Ht. apply allowed_connect. intros past1 registry Hpast.
  split; [done|]. intros [[record|]|e]; [|done..]. cbn [gbind prog_bind ok_or]. apply allowed_now. intros a [= ->].
  apply allowed_now. intros operation Ho. apply allowed_forced. intros replacement _. split; [|by intros [[]|e]].
  right. exists args, tenant, a. split_and!; [done..|set_solver|done].
Qed.

Lemma render_pgdog_allowed args policy past : allowed (RenderPgdog args) past (render_pgdog args policy).
Proof.
  unfold render_pgdog. apply allowed_connect. intros past1 registry Hpast. split; [done|]. intros [tenants|e]; [|done].
  cbn [gbind prog_bind]. unfold render_pgdog_files. cbn -[pgdog_input]. split; [by exists args|]. intros [[]|e]; [|done]. cbn -[pgdog_input].
  destruct (render_pgdog_toml _) as [pgdog|] eqn:Ep; [|done]. cbn -[pgdog_input].
  destruct (render_users_toml _) as [users|] eqn:Eu; [|done]. cbn -[pgdog_input].
  split; [exists args, registry, tenants; split_and!; [done|set_solver|by left]|]. intros [[]|e]; [|done]. cbn -[pgdog_input].
  split; [exists args, registry, tenants; split_and!; [done|set_solver|by right]|]. by intros [[]|e].
Qed.

Lemma gres_run_allowed options command : allowed command [] (gres_run options command).
Proof.
  unfold gres_run. apply allowed_forced. intros policy _. destruct command.
  - apply create_tenant_allowed.
  - apply allowed_connect. intros past registry _. split; [done|]. by intros [[tenant|]|e].
  - apply allowed_connect. intros past registry _. split; [done|]. by intros [tenants|e].
  - apply allowed_connect. intros past registry _. split; [by eexists|]. by intros [[]|e].
  - apply allowed_connect. intros past registry _. split; [by eexists|]. by intros [[]|e].
  - apply split_range_allowed.
  - apply move_range_allowed.
  - apply allowed_connect. intros past registry _. split; [by eexists|]. by intros [[]|e].
  - apply render_pgdog_allowed.
  - unfold balance_dry_run, read_balance_input. case_bool_decide; (split; [done|]); intros [text|e]; cbn; try done;
      by destruct (read_metrics text).
  - unfold balance_apply, read_balance_input. case_bool_decide; (split; [done|]); intros [text|e]; cbn; try done;
      destruct (read_metrics text); cbn; try done; destruct (plan_balance_apply _ _ _) as [goals report]; by destruct (has_terminal_error report).
  - unfold probe_topic_read. cbn. split; [done|]. intros [text|e]; cbn; [|done]. case_bool_decide; [done|]. cbn.
    split; [done|]. intros [admin|e]; cbn; [|done]. split; [done|]. intros [topics|e]; cbn; [|done]. by destruct (ok_or _ _).
Qed.

(** C22. What a run of [gres] changes is what its command says, for every answer of the
    registry, the brokers and the files: a tenant is published only by [create-tenant],
    as the valid record of its options, over the version of the record that was
    read before, and after its config, its credentials and its ACLs were sent, which
    are those of that tenant; suspending, resuming and deleting reach the named tenant
    only; a split or a move begins as planned on the record that was read; and files
    are written only by [render-pgdog], from the tenants that were listed. *)
Theorem gres_requests W (world : ∀ c : gres_call, W → gres_answer c * W) (w : W) options command before e after :
  (run (Σ := governing) world (gres_run options command) w).2 = before ++ e :: after →
  gres_allowed command before (projT1 e).
Proof. apply run_history with (post := λ _ _, True). apply gres_run_allowed. Qed.

(** ** Layouts *)

(** The ranges of a layout, each with where it starts. *)
Fixpoint bounds (lower : RangeBoundary) (ranges : list LayoutEntry) : list (RangeBoundary * LayoutEntry) :=
  match ranges with
  | [] => []
  | range :: ranges => (lower, range) :: bounds (default lower (rl_end_key range)) ranges
  end.

Definition covers (key lower : RangeBoundary) (range : LayoutEntry) : Prop :=
  cmp key lower ≠ Lt ∧ match rl_end_key range with None => True | Some upper => cmp key upper = Lt end.

(** The ends of the ranges go up, and the last range has none. *)
Fixpoint chained (lower : RangeBoundary) (ranges : list LayoutEntry) : Prop :=
  match ranges with
  | [] => False
  | [range] => rl_end_key range = None
  | range :: ranges => ∃ upper, rl_end_key range = Some upper ∧ cmp lower upper = Lt ∧ chained upper ranges
  end.

Lemma cmp_not_lt_trans (a b c : RangeBoundary) : cmp a b ≠ Lt → cmp b c ≠ Lt → cmp a c ≠ Lt.
Proof.
  intros Hab Hbc Hac. destruct (cmp a b) eqn:E; [apply cmp_eq in E; by subst|done|].
  assert (cmp b a = Lt) as Hba by (by rewrite cmp_opp, E). by apply Hbc, (cmp_lt_trans b a c).
Qed.

Lemma bounds_above lower ranges l range : chained lower ranges → (l, range) ∈ bounds lower ranges → cmp l lower ≠ Lt.
Proof.
  revert lower. induction ranges as [|r [|r' ranges] IH]; intros lower Hc Hin; [by apply elem_of_nil in Hin|..].
  - apply list_elem_of_singleton in Hin as [= -> ->]. by rewrite (proj2 (cmp_eq lower lower) eq_refl).
  - destruct Hc as (upper & Hu & Hlt & Hc). cbn [bounds] in Hin. rewrite Hu in Hin. apply elem_of_cons in Hin as [[= -> ->]|Hin].
    { by rewrite (proj2 (cmp_eq lower lower) eq_refl). }
    apply (cmp_not_lt_trans _ upper); [by apply IH|]. rewrite cmp_opp, Hlt. done.
Qed.

Lemma source_from_spec key lower ranges :
  chained lower ranges → cmp key lower ≠ Lt →
  ∃ l range, source_from key lower ranges = Some range ∧ (l, range) ∈ bounds lower ranges ∧ covers key l range ∧
    ∀ l' range', (l', range') ∈ bounds lower ranges → covers key l' range' → l' = l ∧ range' = range.
Proof.
  revert lower. induction ranges as [|r [|r' ranges] IH]; intros lower Hc Hk; [done|..].
  - cbn in Hc |- *. rewrite Hc. rewrite (bool_decide_eq_false_2 (cmp key lower = Lt)) by done. cbn. exists lower, r.
    split_and!; [done|set_solver| |]; [by split; [|rewrite Hc]|]. intros l' range' [= -> ->]%list_elem_of_singleton _. done.
  - destruct Hc as (upper & Hu & Hlt & Hc). cbn [source_from bounds]. rewrite Hu.
    rewrite (bool_decide_eq_false_2 (cmp key lower = Lt)) by done. cbn [negb andb]. case_bool_decide as Hku.
    + exists lower, r. split_and!; [done|by left|by split; [|rewrite Hu]|]. intros l' range' [[= -> ->]|Hin]%elem_of_cons [Hl' _]; [done|].
      destruct (bounds_above _ _ _ _ Hc Hin). apply (cmp_lt_trans _ key); [|done].
      destruct (cmp key l') eqn:E; [apply cmp_eq in E; subst; by destruct (bounds_above _ _ _ _ Hc Hin)|done|].
      by rewrite cmp_opp, E.
    + destruct (IH upper Hc Hku) as (l & range & Hs & Hin & Hcov & Hun). exists l, range. split_and!; [done|by right|done|].
      intros l' range' [[= -> ->]|Hin']%elem_of_cons Hcov'; [|by apply Hun]. destruct Hcov' as [_ Hr]. by rewrite Hu in Hr.
Qed.

Lemma layout_entries_chained tenant index boundaries entries (lower : RangeBoundary) :
  (∀ a b, key_lt (range_boundary_key a) (range_boundary_key b) = true → cmp a b = Lt) →
  layout_entries tenant index (lower :: boundaries) = Ok entries → out_of_order (lower :: boundaries) = false →
  chained lower entries.
Proof.
  intros Hord. revert index entries lower. induction boundaries as [|b boundaries IH]; intros index entries lower Hl Ho.
  - cbn in Hl. by destruct (u32_MAX <? index); simplify_eq/=.
  - cbn [layout_entries] in Hl. destruct (u32_MAX <? index); [done|].
    destruct (layout_entries tenant (index + 1) (b :: boundaries)) as [rest|] eqn:Er; [|by cbn [layout_entries] in Er; rewrite Er in Hl].
    cbn [layout_entries] in Er. rewrite Er in Hl. injection Hl as <-. cbn [out_of_order] in Ho. apply orb_false_iff in Ho as [Hlt Ho].
    specialize (IH (index + 1) rest b Er Ho). destruct rest as [|r rest]; [done|]. exists b. split_and!; [done| |done].
    apply Hord. by apply negb_false_iff.
Qed.

(** A layout that [--ranges] describes covers every key from the start on, once: where
    the order of the boundaries is that of their keys, a key belongs to exactly one of
    its ranges, and that is the one that a split of it finds. *)
Theorem layout_covers tenant text entries (record : Tenant) key :
  (∀ a b, key_lt (range_boundary_key a) (range_boundary_key b) = true → cmp a b = Lt) →
  parse_range_layout tenant (Some text) = Ok entries → tn_ranges record = entries → cmp key (table_start 0) ≠ Lt →
  ∃ lower range, source_range_for_key record key = Ok range ∧ (lower, range) ∈ bounds (table_start 0) entries ∧
    covers key lower range ∧
    ∀ l r, (l, r) ∈ bounds (table_start 0) entries → covers key l r → l = lower ∧ r = range.
Proof.
  intros Hord Hp Hr Hk. cbn in Hp. destruct (try_map _ _) as [[|first boundaries]|]; [done| |done]. cbn [mbind result_bind] in Hp.
  destruct (bool_decide (first = table_start 0)) eqn:Ef; cbn [negb orb] in Hp; [|done]. apply bool_decide_eq_true in Ef as ->.
  destruct (out_of_order _) eqn:Eo; [done|].
  pose proof (layout_entries_chained _ _ _ _ _ Hord Hp Eo) as Hc.
  destruct (source_from_spec key _ _ Hc Hk) as (l & range & Hs & ?). exists l, range. unfold source_range_for_key.
  rewrite Hr, Hs. done.
Qed.

(** Without flags for them, the ranges of a split are new, or the source that stays the
    left one as range zero. *)
Lemma split_ids_fresh args tenant record boundary source :
  sr_left_range_id args = None → sr_successor_range_id args = None →
  source ∈ tn_ranges record → Forall (λ range, 0 ≤ rl_range_id range < u32_MAX - 1) (tn_ranges record) →
  let split := planned_split args tenant record boundary source in
  let left := rl_range_id (rs_left split) in
  let right := rl_range_id (rs_right split) in
  (left = rl_range_id source ∧ left = 0 ∨ (left ∉ map rl_range_id (tn_ranges record))) ∧
  (right ∉ map rl_range_id (tn_ranges record)) ∧ left ≠ right.
Proof.
  intros Hl Hr Hin Hall. cbn. rewrite Hl, Hr. cbn.
  assert (∀ range, range ∈ tn_ranges record → rl_range_id range < next_range_id record) as Hfresh.
  { unfold next_range_id, saturating_u32. intros range Hr'. rewrite Forall_forall in Hall. pose proof (Hall range Hr').
    assert (rl_range_id range ≤ foldr Z.max 0 (map rl_range_id (tn_ranges record))).
    { clear -Hr'. induction (tn_ranges record) as [|r l IH]; [by apply elem_of_nil in Hr'|].
      apply elem_of_cons in Hr' as [->|Hr']; cbn; [lia|]. specialize (IH Hr'). lia. }
    lia. }
  assert (∀ id, next_range_id record ≤ id → id ∉ map rl_range_id (tn_ranges record)) as Hnot.
  { intros id Hid (range & -> & Hr')%list_elem_of_fmap. specialize (Hfresh range Hr'). lia. }
  assert (0 ≤ next_range_id record < u32_MAX) as Hb.
  { unfold next_range_id, saturating_u32. assert (0 ≤ foldr Z.max 0 (map rl_range_id (tn_ranges record)) < u32_MAX - 1); [|lia].
    clear -Hall. induction Hall as [|r l Hr Hl IH]; cbn; [unfold u32_MAX; lia|lia]. }
  unfold saturating_u32. destruct (rl_range_id source =? 0) eqn:E.
  - apply Z.eqb_eq in E. split_and!; [by left|apply Hnot; lia|lia].
  - split_and!; [right; apply Hnot; lia|apply Hnot; lia|lia].
Qed.
End Gres.

(** ** A tenant, created *)

Module Sample.
#[local] Instance units : GresUnits := {| GresTime := Z; GresSize := Z; gres_byte_size _ := Err "no size" |}.

Definition boundary_key (b : RangeBoundary) : (Z * Z) * (Z * option Z) :=
  ((rb_table_id b, default 0 (rb_bucket b)), (rb_rowid b, rb_bucket b)).
Definition boundary_of_key (key : (Z * Z) * (Z * option Z)) : RangeBoundary :=
  {| rb_table_id := key.1.1; rb_bucket := key.2.2; rb_rowid := key.2.1 |}.
Lemma boundary_of_boundary_key b : boundary_of_key (boundary_key b) = b.
Proof. by destruct b. Qed.

Definition valid (text : string) : result string string := if bool_decide (text = "") then Err "empty" else Ok text.
#[local] Instance control : GresControl := {|
  Lifecycle := unit; Retirement := unit; Serving := tt; default_lifecycle := tt; Attempts := Z;
  Operation := string * RangeLayoutEntry unit unit;
  table_start table := {| rb_table_id := table; rb_bucket := None; rb_rowid := 0 |};
  boundary_new table rowid := {| rb_table_id := table; rb_bucket := None; rb_rowid := rowid |};
  boundary_hash table bucket rowid := {| rb_table_id := table; rb_bucket := Some bucket; rb_rowid := rowid |};
  boundary_ord := ord_via boundary_key boundary_of_key boundary_of_boundary_key;
  tenant_name := valid; tenant_id := valid; sql_user := valid;
  tenant_new version id name state user verifier replication :=
    Ok {| tn_record_version := version; tn_id := id; tn_name := name; tn_state := state; tn_sql_user := user;
          tn_scram_verifier := verifier; tn_wal_replication := replication; tn_bucket_prefix := None;
          tn_checkpoint_frames := None; tn_checkpoint_size := None; tn_idle_seconds := None; tn_hash_placements := [];
          tn_ranges := [] |};
  ensure_valid _ := Ok tt;
  split_range_layout record split := Ok record;
  operation_new tenant id split := Ok (id, rs_right split);
  operation_new_move tenant id source generation replacement := Ok (id, replacement);
  with_plan operation plan := Ok operation;
  move_replacement operation := Some operation.2; operation_source _ := 0; operation_predecessor _ := 0;
  config_topic tenant := "__gres_config." +:+ tenant;
  render_pgdog_toml _ := Ok ""; render_users_toml _ := Ok "";
  state_json _ := Str "active"; size_json := num; placement_json _ := Null; range_json _ := Null
|}.
#[local] Instance policy : GresPolicy := {|
  RegistryPolicy := unit; DispatchCapacity := Z; FrameMax := Z; FetchMin := Z;
  capacity_new := Ok; capacity_get n := n; frame_max_of := Ok; frame_max_size n := n; fetch_min_of := Ok; fetch_min_size n := n;
  policy_new _ _ _ _ _ := Ok tt; default_producer_dns := 10; default_reader_dns := 10;
  with_producer_dns _ _ := Ok tt; with_reader_dns _ _ := Ok tt; with_client_resources _ _ _ _ := tt
|}.
#[local] Instance balancer : GresBalancer := {|
  BalanceInput := unit; read_metrics _ := Ok tt; BalancePlan := unit; plan_balance _ := ([], tt); operations_json _ := Array [];
  ExecutionReport := unit; dry_run_report _ := tt; unsupported_report _ _ := tt; report_dry_run _ := true;
  has_terminal_error _ := false; report_json _ := Null
|}.
#[local] Instance pretty_serde : SerdePretty := {| pretty_json _ := Ok "{}" |}.
#[local] Instance unicode : UnicodeTables := {| shown_as_is _ := true |}.

Definition options : RegistryOptions :=
  {| ro_client_dispatch_queue_capacity := 64; ro_client_frame_max := 104857600; ro_registry_reader_fetch_min := 1;
     ro_replication_factor := 1; ro_topic_create_timeout := 15; ro_reader_retry_backoff := 1; ro_fetch_max_wait := 1;
     ro_fetch_partition_max := 1048576; ro_producer_dns_timeout := None; ro_reader_admin_dns_timeout := None |}.
Definition args : CreateTenantArgs :=
  {| ct_bootstrap := "broker:9092"; ct_name := "shop"; ct_sql_user := "alice"; ct_password_file := None;
     ct_password_stdin := true; ct_wal_replication := 3; ct_scram_iterations := 4096; ct_bucket_prefix := None;
     ct_checkpoint_frames := None; ct_checkpoint_size := None; ct_idle_seconds := None; ct_ranges := Some "0, 7:50,8:3:50";
     ct_hash_placements := [] |}.

(** A world whose state is the record that the registry holds; the rows of the broker
    are [rows]. *)
Definition world (rows : list (option KafkaError)) (c : gres_call) (w : option (TenantRecord Lifecycle Retirement))
    : gres_answer c * option (TenantRecord Lifecycle Retirement) :=
  match c with
  | GReadFile _ | GReadStdin => (Ok ("secret" +:+ newline), w)
  | GVerifier _ _ => (Ok "SCRAM-SHA-256$4096:salt", w)
  | GConnect _ _ | GAdmin _ _ | GAdminSecured _ _ => (Ok O, w)
  | GGet _ _ => (Ok w, w)
  | GList _ => (Ok (option_list w), w)
  | GMetadata _ _ => (Ok [], w)
  | GAlterScram _ _ _ | GCreateAcls _ _ => (Ok rows, w)
  | GReplace _ record _ => (Ok tt, Some record)
  | GEnsureTopic _ | GCreateDir _ | GWriteFile _ _ | GUpsertConfig _ _ _ | GMarkSuspended _ _ | GMarkActive _ _ _
  | GDelete _ _ | GBeginSplit _ _ => (Ok tt, w)
  end.
Definition create_run (rows : list (option KafkaError)) :=
  run (Σ := governing) (world rows) (gres_run options (CreateTenant args)) None.

Definition record : TenantRecord Lifecycle Retirement :=
  {| tn_record_version := 1; tn_id := "shop"; tn_name := "shop"; tn_state := Active; tn_sql_user := "alice";
     tn_scram_verifier := "SCRAM-SHA-256$4096:salt"; tn_wal_replication := 3; tn_bucket_prefix := None;
     tn_checkpoint_frames := None; tn_checkpoint_size := None; tn_idle_seconds := None; tn_hash_placements := [];
     tn_ranges := [{| rl_range_id := 0; rl_end_key := Some (boundary_new 7 50); rl_endpoint := "shop-gres-r0.gres.svc:5432";
                      rl_wal_generation := 0; rl_lifecycle := tt; rl_retirement := None |};
                   {| rl_range_id := 1; rl_end_key := Some (boundary_hash 8 3 50); rl_endpoint := "shop-gres-r1.gres.svc:5432";
                      rl_wal_generation := 0; rl_lifecycle := tt; rl_retirement := None |};
                   {| rl_range_id := 2; rl_end_key := None; rl_endpoint := "shop-gres-r2.gres.svc:5432";
                      rl_wal_generation := 0; rl_lifecycle := tt; rl_retirement := None |}] |}.

Lemma gres_requests_witness : gres_allowed (CreateTenant args) (take 9 (create_run []).2) (GReplace O record None).
Proof.
  apply (gres_requests _ (world []) None options (CreateTenant args) (take 9 (create_run []).2)
    (existT (GReplace O record None) (Ok tt : gres_answer (GReplace O record None))) (drop 10 (create_run []).2)).
  vm_compute. reflexivity.
Defined.

(** Each key of the layout, in its range. *)
Example layout_ranges :
  map (λ key, rl_range_id <$> source_from key (table_start 0) (tn_ranges record))
    [boundary_new 0 0; boundary_new 7 49; boundary_new 7 50; boundary_hash 8 3 49; boundary_hash 8 3 50; boundary_new 9 0] =
  [Some 0; Some 0; Some 1; Some 1; Some 2; Some 2].
Proof. vm_compute. reflexivity. Qed.

(** A broker that refuses the credentials and the ACLs of a tenant answers with a row
    that says so; the row is not read, and the tenant is published. *)
Example refused_access_published :
  let refused := {| error_code := 31; error_name := "CLUSTER_AUTHORIZATION_FAILED"; error_message := None |} in
  let '(o, published, _) := create_run [Some refused] in
  match o with Done (Ok r) => human r = ["created tenant shop"] | _ => False end ∧ published = Some record.
Proof. vm_compute. split; reflexivity. Qed.
End Sample.
